(* ===== verification/_CoqProject ===== *)
-Q . S2P
Prelude.v
Hex.v
CString.v
Queue.v
Wdog.v
Sched.v
SchedInv.v
Sem.v
Task.v
Kernel.v
KernelProps.v
KernelFifo.v
Calendar.v
MmHeap.v
MmRealloc.v
MmStep.v
MmClient.v
Double.v
Env.v
Gpio.v
DeviceInfo.v
Rs485Rx.v
Rs485.v
NbAt.v
Cjson.v
CjsonPrint.v
CjsonDelete.v
CjsonParse.v
CjsonRead.v
CjsonRound.v
CjsonMinify.v
DeviceJson.v
NbTask.v
Serial.v
SerialRead.v
SerialWrite.v
LidProg.v
LidGprs.v
