(* ===== verification/Prelude.v ===== *)
(** * NB-IoT street-lamp firmware: verification development

    The program is the firmware of an NB-IoT lamp controller on an STM32L476
    board: the NuttX tree (src/nuttx) and the application src/apps/examples/NB_Iot.
    A second application of the tree, src/apps/examples/lid_master, controls the lock
    of a manhole lid and talks to its server over a GPRS modem.

    The first application starts two tasks (NB-main.c).  The [_485] task (485.c) sends
    requests to the lamp over an RS485 line and decodes the frames that come back
    into a shared device record (DeviceInfo.c).  The [NB_Iot] task (NB_Iot.c)
    brings up a BC95 modem with AT commands, opens a UDP socket and reports the
    record every ten seconds, rendered as JSON (cJSON.c) and transcoded to
    hexadecimal text.  The second starts a task that brings the modem up
    (task_monitor.c) and one that reads it (task_gprs.c).  All run on the kernel, of which the scheduler, the counting
    semaphores and the creation and deletion of tasks are modelled, and on its
    libraries, of which the queues, the watchdog timers, the calendar conversions,
    the memory manager, the string functions and the exponentials are modelled, and
    reach their lines through the serial driver, which is modelled too.  The configuration is
    the repository's .config: one processor, round-robin slices of 200 ms, no priority
    inheritance, sixteen tasks.

    ** Files

    - Prelude: machine integers (a value of a C type is a [Z] in its range, every
      conversion written out), arrays and C strings, decimal printing, tactics.
    - Hex: [ByteToHexStr] and [HexStrToByte] of NB_Iot.c.
    - CString: strlen, strchr, strcmp, strncmp, strstr, strcpy, strcat and strtok_r
      of src/nuttx/libc/string, on arrays; leaving the array is undefined.
    - Queue: the sq_* and dq_* queues of src/nuttx/libc/queue over a store of
      entries; the [Queue] class is what an implementation promises, the two
      families are its instances.
    - Wdog: the watchdog timers of src/nuttx/sched/wdog over the queues of Queue,
      and the abstract timers they implement.
    - Sched: the task lists of src/nuttx/sched/sched over the queues of Queue
      (g_readytorun, g_pendingtasks, g_waitingforsemaphore, g_inactivetasks), the
      task control blocks, the table of process identifiers and the up_* switching
      routines of the processor: adding, removing, merging, blocking and unblocking,
      pre-emption locks, priorities, yielding and time slices.  SchedInv: the
      well-formedness of the lists, and the abstract lists the operations implement.
    - Sem: sem_wait, sem_trywait, sem_post, sem_reset, sem_recover and what a signal
      or an expired timeout does to a waiter (src/nuttx/sched/semaphore and
      src/nuttx/libc/semaphore).
    - Task: the start of the kernel (os_start), the assignment of process identifiers,
      thread set-up, task deletion and the release of a control block
      (src/nuttx/sched/task and init).
    - Kernel: the kernel as a state machine.  An [event] is a system call of the
      running task, a timer tick or a wake-up by an interrupt; [exec] runs the code of
      Sched, Sem and Task; [spec] is the same machine on lists of tasks, with no
      pointers; [reachable] are the states from the start.  KernelProps: its theorems.
      KernelFifo: the order in which tasks began to wait, read off a run, and that
      a post wakes by priority and then in this order.
    - Calendar: gmtime_r, mktime and the conversions of src/nuttx/libc/time.
    - MmHeap: the memory manager of src/nuttx/mm/mm_heap: the headers and links of
      the chunks in memory, the ordered free list, set-up, allocation, release and
      the counts, with the invariant of the heap.  The code aligns to 16 bytes but
      aligned allocation leaves sizes that are multiples of 8: the invariant is
      stated for a granule of either ([Gran]).  MmRealloc: mm_shrinkchunk,
      mm_realloc, mm_memalign, mm_calloc.  MmStep: the abstract machine on lists of
      chunks.  MmClient: the refinement and the programs that use the heap.
    - Env: the system calls of the tasks.  A task is a state monad [io] over its
      globals and the trace of its calls; what a call answers is a function of the
      trace given by the [Device] class, so every theorem holds for every
      behaviour of the outside world that satisfies the named laws.  A computation
      returns, has undefined behaviour or runs out of fuel; [wp] is total: it
      excludes the last two.
    - Gpio, DeviceInfo: GPIO.c and DeviceInfo.c.
    - Rs485Rx: the byte-by-byte frame receiver [comm2trm_RxUartData] of 485.c and
      the use of a frame, [process_poll].
    - Rs485: the requests of 485.c, the port set-up and the [_485] task.
    - NbAt: the AT-command engine of NB_Iot.c, with the power-on and network
      dialogues and the UDP commands.
    - Cjson: the constructors, the unbuffered printer and the deletion of cJSON.c
      over a store of blocks; the allocator is the [Allocator] class.  CjsonPrint and
      CjsonDelete: the theorems on the printer and the deletion.
    - Double: binary64 arithmetic and exp, log, pow of src/nuttx/libc/math.
    - CjsonParse: the parser of cJSON.c.  CjsonRead: the grammar of JSON, and that
      the parser reads it.  CjsonRound: printing and parsing again, and what the
      parser makes of texts outside the grammar.
    - CjsonMinify: [cJSON_Minify], and that the parser reads what it leaves.
    - DeviceJson: [DeviveInfotoJson] of DeviceInfo.c on that store.
    - NbTask: the [NB_Iot] task and [NB_IOT_main].
    - Serial: the driver src/nuttx/drivers/serial with the interrupt handler of
      stm32l4_serial.c.  An interrupt may be taken between any two accesses of a task
      to the port; what the line and the other tasks do meanwhile is a [plan], and a
      theorem holds for every plan.  SerialRead, SerialWrite: the theorems on
      [uart_read] and [uart_write].
    - LidProg: two tasks that share a variable, as programs of calls that interleave
      in any way; [awp] reasons about one task by itself and [awp_adequate] carries
      the result over to every interleaving.
    - LidGprs: task_monitor.c, task_gprs.c and lid_master.c of lid_master.

    ** What the theorems show

    - The receiver: every frame it delivers was on the line, in order and whole, up to
      the byte that would overrun its buffer, if there is one ([rx_sound]); every well-formed frame behind a gap is delivered
      ([rx_complete]); its buffer is not overrun by frames up to a stated length
      ([rx_no_overrun]) and is overrun by longer ones ([rx_overrun]); a measurement is
      the BCD value of the frame.
    - The requests: the bytes sent, and that the receiver reads them back; the
      [_485] task runs for ever and sends the expected dimming sequence.
    - The AT engine: results of the command routine in every case, the full
      power-on dialogue, the network query, socket creation; what a late or a
      manual module provokes.
    - JSON: the printed text of any tree equals a reference printer's, deletion
      frees exactly the tree, the report is the expected text and fits its buffer.
      The parser builds the tree of every text of the grammar and reads printed trees
      back; a short escape makes it overrun its block; a fraction or an exponent is
      cut off to the wrong integer at times.
    - The task: every report sent is the hexadecimal form of the record's JSON at
      the moment of the call that sends it, in an AT+NSOST line with the right length
      ([nb_iot_reports]); [HexStrToByte] decodes it ([report_decodes]).
    - The memory manager: every operation is a step of the abstract machine (best
      fit, splitting, joining with both neighbours); a client's blocks are aligned,
      as long as asked for (modulo 2^32, where the product of mm_calloc wraps), inside
      the regions and disjoint, the counts add up, and nothing stays fragmented when
      everything is released; what a request near 4 GB gets.
    - The kernel: no enabled event is undefined in a reachable state; every task is in
      exactly one list, the one its state names; the lists are ordered by priority, the
      running task has the highest, and a negative semaphore count is the number of its
      waiters, apart from deleted ones; every run is a run of the machine on lists.
      Then what a caller relies on: a post wakes, of the waiters of the highest
      priority, the one that took its place first; a locked task goes on running, a time slice ends, sem_reset
      returns, a given-up wait restores the count, identifiers are unique.
    - Kernel libraries: queue programs implement lists; the watchdog module
      implements abstract timers and a timer expires on its tick; the calendar
      equals the Gregorian calendar until 2102 and round-trips until 2101.
    - The serial driver, in every interleaving with its interrupts: a reader gets the
      bytes of the buffer once and in order, and none only if none was buffered at the
      call and it may not wait or a signal came; what a writer puts into the buffer goes
      out once and in order, and it stops early only at a full buffer, and with a signal
      if it may wait; neither is left waiting when there is a byte to read or
      room to write, and no byte is left behind with the interrupt disabled.  This
      settles the question in the comment of [uart_xmitchars]: a writer that waits is
      always woken by the next byte sent.
    - The lock controller, in every interleaving of its tasks: success is announced
      only behind eight answers of the modem, the dialogue ends within 500 calls, the
      reader's reports are what the modem said; a late answer is taken for that of the
      next command ([late_answer_skips_command]), a short registration report makes the
      reader follow a null pointer ([short_creg_crashes]).

    ** Bounds and fuel

    Loops over linked structures take the number of entries of the store as fuel,
    which the theorems show to be enough.  Loops of the source with a counter are
    recursions on that counter.  The endless loops of the tasks are run for any
    number of turns given as an argument.  The printer's and the deletion's fuel is
    the depth of the tree plus the length of its chains; 64 is enough for the
    device record, which is proved.  The parser's fuel is the length of the text.  The
    fuel of a read or a write of the serial driver is a weight of the port (bytes that
    are buffered or still to come, semaphore counts), which every round of the loops
    lowers.  The loops of the modem dialogue count their rounds as the source does; a
    run out of rounds is undefined in the model and proved not to happen.

    ** Not modelled

    The EC20 task (its start is compiled out); of lid_master the messages to the server
    and the functions that nothing calls, and the tasks that it does not start; the
    extension of heap regions; cJSON's buffered printer, duplication and
    array utilities.  Of the serial driver: opening, closing, ioctl and the
    registration of pollers; an access to a shared variable is taken to reach memory, as
    [volatile] makes it for the indices.  Of NuttX: signals and message
    queues, timed waits, task exit and groups, stacks and register contexts (a switch
    of context is a change of the running task), several processors and priority
    inheritance (configured out), the file system, the other drivers, network and
    graphics.  The NB-IoT tasks see the kernel as the [Device] parameter.  Printing
    of non-integral numbers is the [FloatPrint] parameter.  Task interleaving is
    modelled where it matters to a theorem: the record the reporting task reads is
    any function of the trace ([Shared]).
*)

From stdpp Require Export base list gmap strings.
From Stdlib Require Export ZArith Lia.
From Stdlib Require Ascii String.

#[global] Open Scope Z_scope.

#[global] Arguments Z.mul : simpl never.
#[global] Arguments Z.add : simpl never.
#[global] Arguments Z.sub : simpl never.
#[global] Arguments Z.of_nat : simpl never.
#[global] Arguments Z.to_nat : simpl never.

(** ** Machine integers

    The target is a Cortex-M4 built with gcc for the ARM EABI: plain [char] is
    an unsigned byte, [short] has 16 bits and [int] 32.  A value of such a type
    is a [Z] in its range and every assignment writes the conversion out.  The
    firmware is built without optimisation (CONFIG_DEBUG_NOOPT), so signed
    arithmetic wraps around. *)

Definition u8 (z : Z) : Z := z mod 256.
Definition u16 (z : Z) : Z := z mod 65536.
Definition u32 (z : Z) : Z := z mod 4294967296.
Definition s16 (z : Z) : Z := (z + 32768) mod 65536 - 32768.
Definition s32 (z : Z) : Z := (z + 2147483648) mod 4294967296 - 2147483648.

Definition is_byte (z : Z) : Prop := 0 <= z < 256.
Definition is_short (z : Z) : Prop := -32768 <= z < 32768.
Notation bytes l := (Forall is_byte l).

#[global] Instance is_byte_dec z : Decision (is_byte z).
Proof. unfold is_byte. apply _. Defined.

(** Results and error numbers of the kernel's functions. *)
Definition OK : Z := 0.
Definition ERROR : Z := -1.
Definition ESRCH : Z := 3.
Definition EINTR : Z := 4.
Definition EAGAIN : Z := 11.
Definition EINVAL : Z := 22.
Definition ETIMEDOUT : Z := 116.

(** ** Arrays and C strings

    An array is the list of its cells; reading or writing outside it is
    undefined behaviour, which the model reports as [None]. *)

Definition aget {A} (a : list A) (i : Z) : option A :=
  if decide (0 <= i) then a !! Z.to_nat i else None.

Definition aset {A} (a : list A) (i : Z) (x : A) : option (list A) :=
  if decide (0 <= i < Z.of_nat (length a)) then Some (<[Z.to_nat i := x]> a) else None.

(** The C string held by a character array: the bytes before the first NUL;
    [None] when the array holds no NUL, so that a scan would leave it. *)
Fixpoint c_str (a : list Z) : option (list Z) :=
  match a with
  | [] => None
  | c :: a' => if decide (c = 0) then Some [] else cons c <$> c_str a'
  end.

(** [strcpy]/[sprintf]-like store of the string [s] with its NUL at offset [o]
    of the array [a]. *)
Definition store_str (a : list Z) (o : nat) (s : list Z) : option (list Z) :=
  if decide (o + length s + 1 <= length a)%nat
  then Some (take o a ++ s ++ [0] ++ drop (o + length s + 1) a)
  else None.

(** String literals as bytes. *)
Fixpoint bs (s : String.string) : list Z :=
  match s with
  | String.EmptyString => []
  | String.String c s' => Z.of_N (Ascii.N_of_ascii c) :: bs s'
  end.

(** Decimal rendering of [sprintf("%d")]. *)
Fixpoint dec_digits (fuel : nat) (n : Z) (acc : list Z) : list Z :=
  match fuel with
  | O => acc
  | S f =>
      let acc' := (48 + n mod 10) :: acc in
      if decide (n < 10) then acc' else dec_digits f (n / 10) acc'
  end.

Definition print_nat_dec (n : Z) : list Z := dec_digits (S (Z.to_nat (Z.log2 n))) n [].

Definition fmt_d (n : Z) : list Z :=
  if decide (n < 0) then 45 :: print_nat_dec (- n) else print_nat_dec n.

(** ** Automation *)

Create HintDb cint.

Ltac cint_unfold :=
  unfold u8, u16, u32, s16, s32, is_byte in *.

(** [lia] with quotients and remainders. *)
Ltac zlia := cint_unfold; Z.div_mod_to_equations; lia.

(** Split every [decide] and [match] on an atomic condition in the goal. *)
Ltac split_ifs :=
  repeat (case_decide || case_match); simplify_eq; try done; try lia.

(** ** Generic lemmas *)

Lemma u8_range z : is_byte (u8 z).
Proof. zlia. Qed.

Lemma u8_id z : is_byte z -> u8 z = z.
Proof. intros H. apply Z.mod_small, H. Qed.

Lemma s16_id z : -32768 <= z < 32768 -> s16 z = z.
Proof. intros H. unfold s16. rewrite Z.mod_small; lia. Qed.

Lemma s32_id z : -2147483648 <= z < 2147483648 -> s32 z = z.
Proof. intros H. unfold s32. rewrite Z.mod_small; lia. Qed.

Lemma u32_id x : 0 <= x < 4294967296 -> u32 x = x.
Proof. intros H. unfold u32. by apply Z.mod_small. Qed.

Lemma s16_range z : -32768 <= s16 z < 32768.
Proof. zlia. Qed.

Lemma s32_range z : -2147483648 <= s32 z < 2147483648.
Proof. zlia. Qed.

#[export] Hint Resolve u8_range s16_range s32_range : cint.

Lemma aget_nat {A} (a : list A) (n : nat) : aget a (Z.of_nat n) = a !! n.
Proof. unfold aget. rewrite decide_True by lia. by rewrite Nat2Z.id. Qed.

Lemma aset_nat {A} (a : list A) (n : nat) x :
  (n < length a)%nat -> aset a (Z.of_nat n) x = Some (<[n := x]> a).
Proof. intros H. unfold aset. rewrite decide_True by lia. by rewrite Nat2Z.id. Qed.

Lemma aget_Some {A} (a : list A) i x :
  aget a i = Some x -> 0 <= i < Z.of_nat (length a) /\ a !! Z.to_nat i = Some x.
Proof.
  unfold aget. case_decide; [|done]. intros Hx.
  pose proof (lookup_lt_Some _ _ _ Hx). split; [lia | done].
Qed.

Lemma aset_Some {A} (a a' : list A) i x :
  aset a i x = Some a' -> 0 <= i < Z.of_nat (length a) /\ a' = <[Z.to_nat i := x]> a.
Proof. unfold aset. case_decide; [|done]. intros [= <-]. done. Qed.

Lemma aset_length {A} (a a' : list A) i x : aset a i x = Some a' -> length a' = length a.
Proof. intros [_ ->]%aset_Some. apply length_insert. Qed.

Lemma aset_None {A} (a : list A) i x :
  ~ (0 <= i < Z.of_nat (length a)) -> aset a i x = None.
Proof. intros H. unfold aset. by rewrite decide_False. Qed.

Lemma c_str_app s r : Forall (fun c => c <> 0) s -> c_str (s ++ 0 :: r) = Some s.
Proof.
  induction 1 as [|c s Hc _ IH]; simpl.
  - done.
  - rewrite decide_False by done. by rewrite IH.
Qed.

Lemma c_str_Some a s :
  c_str a = Some s -> Forall (fun c => c <> 0) s /\ exists r, a = s ++ 0 :: r.
Proof.
  revert s. induction a as [|c a IH]; intros s; simpl; [done|].
  case_decide as Hc.
  - intros [= <-]. subst. split; [constructor | by exists a].
  - intros (s' & Hs & ->)%fmap_Some. destruct (IH _ Hs) as [Hf [r ->]].
    split; [by constructor | by exists r].
Qed.

Lemma c_str_in (a : list Z) : 0 ∈ a -> is_Some (c_str a).
Proof.
  induction a as [|c a IH]; intros H; [by apply elem_of_nil in H|]. simpl.
  case_decide; [by eexists|]. apply elem_of_cons in H as [H|H]; [done|].
  destruct (IH H) as [s ->]. by eexists.
Qed.

Lemma c_str_length a s : c_str a = Some s -> (length s < length a)%nat.
Proof. intros [_ [r ->]]%c_str_Some. rewrite length_app. simpl. lia. Qed.

Lemma store_str_Some a o s a' :
  store_str a o s = Some a' ->
  (o + length s + 1 <= length a)%nat /\ a' = take o a ++ s ++ [0] ++ drop (o + length s + 1) a.
Proof. unfold store_str. case_decide; [|done]. intros [= <-]. done. Qed.

Lemma store_str_0 a s :
  (length s < length a)%nat -> store_str a 0 s = Some (s ++ 0 :: drop (length s + 1) a).
Proof. intros H. unfold store_str. rewrite decide_True by lia. simpl. done. Qed.

Lemma bytes_app l k : bytes (l ++ k) <-> bytes l /\ bytes k.
Proof. apply Forall_app. Qed.

(** A decidable fact about every integer of a small range, by evaluation. *)
Lemma all_below (P : Z -> Prop) `{forall z, Decision (P z)} n :
  bool_decide (Forall P (seqZ 0 n)) = true -> forall z, 0 <= z < n -> P z.
Proof.
  intros Hb z Hz. apply bool_decide_eq_true in Hb.
  rewrite Forall_forall in Hb. apply Hb, elem_of_seqZ. lia.
Qed.

Ltac by_evaluation n :=
  match goal with
  | |- forall z, 0 <= z < _ -> @?P z => refine (all_below P n _); vm_compute; reflexivity
  end.

(** Access at the boundary of a concatenation, the shape of every loop that
    walks an array. *)
Lemma aget_mid {A} (l r : list A) x i :
  i = Z.of_nat (length l) -> aget (l ++ x :: r) i = Some x.
Proof. intros ->. rewrite aget_nat. by apply list_lookup_middle. Qed.

Lemma aset_mid {A} (l r : list A) x y i :
  i = Z.of_nat (length l) -> aset (l ++ x :: r) i y = Some (l ++ y :: r).
Proof.
  intros ->. rewrite aset_nat by (rewrite length_app; simpl; lia).
  f_equal. by rewrite insert_app_r_alt, Nat.sub_diag by lia.
Qed.

(** ** Decimal text *)

Definition is_digit (c : Z) : Prop := 48 <= c <= 57.

(** The number a row of digits continues [s] to. *)
Definition dval (s : Z) (ds : list Z) : Z := fold_left (fun s c => s * 10 + c - 48) ds s.

Lemma dval_ge ds : forall s, Forall is_digit ds -> 0 <= s -> s <= dval s ds.
Proof.
  induction ds as [|c ds IH]; intros s Hd Hs; simpl; [lia|].
  apply Forall_cons in Hd as [Hc Hd]. unfold is_digit in Hc.
  specialize (IH (s * 10 + c - 48) Hd). unfold dval in *. lia.
Qed.

(** Decimal text is digits, and stands for its number. *)
Lemma dec_digits_spec fuel : forall n acc, 0 <= n -> n < 2 ^ Z.of_nat fuel -> (0 < fuel)%nat ->
  exists ds, dec_digits fuel n acc = ds ++ acc /\ Forall is_digit ds /\ ds <> [] /\ dval 0 ds = n.
Proof.
  induction fuel as [|fuel IH]; intros n acc Hn Hf Hp; [lia|]. cbn [dec_digits].
  rewrite Nat2Z.inj_succ, Z.pow_succ_r in Hf by lia. case_decide as H10.
  - exists [48 + n mod 10]. rewrite Z.mod_small by lia. split; [done|].
    rewrite Forall_singleton. unfold is_digit, dval. simpl. split_and!; try done; lia.
  - assert (Hq : 0 <= n / 10 /\ n / 10 < 2 ^ Z.of_nat fuel) by zlia.
    assert (Hpos : (0 < fuel)%nat). { destruct fuel; [simpl in Hf; lia|lia]. }
    destruct (IH (n / 10) (48 + n mod 10 :: acc)) as (ds & E & Hd & Hne & Hv); try tauto.
    exists (ds ++ [48 + n mod 10]). rewrite E, <- (assoc_L app). split; [done|].
    split; [|split].
    + apply Forall_app. rewrite Forall_singleton. unfold is_digit. split; [done|]. zlia.
    + by destruct ds.
    + unfold dval in *. rewrite fold_left_app, Hv. simpl. zlia.
Qed.

Lemma print_nat_dec_spec n : 0 <= n ->
  Forall is_digit (print_nat_dec n) /\ print_nat_dec n <> [] /\ dval 0 (print_nat_dec n) = n.
Proof.
  intros Hn. unfold print_nat_dec.
  destruct (dec_digits_spec (S (Z.to_nat (Z.log2 n))) n []) as (ds & E & H); [done| |lia|].
  - rewrite Nat2Z.inj_succ, Z2Nat.id by apply Z.log2_nonneg.
    destruct (decide (n = 0)) as [->|Hne]; [done|]. apply Z.log2_spec. lia.
  - by rewrite E, app_nil_r.
Qed.

Lemma dec_digits_length fuel : forall n acc k, 0 <= n < 10 ^ Z.of_nat (S k) ->
  (length (dec_digits fuel n acc) <= S k + length acc)%nat.
Proof.
  induction fuel as [|fuel IH]; intros n acc k Hn; cbn [dec_digits]; [lia|].
  case_decide; [simpl; lia|]. destruct k as [|k]; [simpl in Hn; lia|].
  rewrite Nat2Z.inj_succ, Z.pow_succ_r in Hn by lia.
  specialize (IH (n / 10) (48 + n mod 10 :: acc) k).
  assert (Hq : 0 <= n / 10 < 10 ^ Z.of_nat (S k)) by zlia. specialize (IH Hq).
  simpl length in *. lia.
Qed.

(** A [short] takes six characters at most, an [int] eleven. *)
Lemma fmt_d_length n k : - 10 ^ Z.of_nat (S k) < n < 10 ^ Z.of_nat (S k) ->
  (length (fmt_d n) <= S (S k))%nat.
Proof.
  intros Hn. unfold fmt_d, print_nat_dec. case_decide; simpl length.
  - pose proof (dec_digits_length (S (Z.to_nat (Z.log2 (- n)))) (- n) [] k). simpl length in *. lia.
  - pose proof (dec_digits_length (S (Z.to_nat (Z.log2 n))) n [] k). simpl length in *. lia.
Qed.

Lemma fmt_d_nonzero n : Forall (fun c => c <> 0) (fmt_d n).
Proof.
  assert (H : forall m, 0 <= m -> Forall (fun c => c <> 0) (print_nat_dec m)).
  { intros m Hm. destruct (print_nat_dec_spec m Hm) as [Hd _].
    eapply Forall_impl; [exact Hd|]. unfold is_digit. lia. }
  unfold fmt_d. case_decide; [constructor; [lia|]|]; apply H; lia.
Qed.
