(* ===== verification/Hex.v ===== *)
(** * Hexadecimal transcoding of datagram payloads

    Models [ByteToHexStr] and [HexStrToByte] of
    src/apps/examples/NB_Iot/NB_Iot.c: the BC95 modem takes the payload of
    AT+NSOST as hexadecimal text.  Both functions walk their buffers with a
    [short] index; the buffers are arrays of bytes and an access outside them
    is [None]. *)

From S2P Require Import Prelude.

(** ** The code *)

(** The character stored for a nibble [n] that was shifted or masked out. *)
Definition hexchar (n : Z) : Z :=
  let b := u8 (n + 0x30) in
  if decide (b > 0x39) then u8 (b + 0x07) else b.

(** The loop of [ByteToHexStr]; it ends with the store of the NUL. *)
Fixpoint byte_to_hex_loop (fuel : nat) (source dest : list Z) (i sourceLen : Z)
  : option (list Z) :=
  match fuel with
  | O => None
  | S fuel =>
      if decide (i < sourceLen) then
        c ← aget source i;
        dest1 ← aset dest (i * 2) (hexchar (Z.shiftr c 4));
        dest2 ← aset dest1 (i * 2 + 1) (hexchar (Z.land c 0x0f));
        byte_to_hex_loop fuel source dest2 (s16 (i + 1)) sourceLen
      else aset dest (i * 2) 0
  end.

Definition ByteToHexStr (source dest : list Z) (sourceLen : Z) : option (list Z) :=
  byte_to_hex_loop (S (Z.to_nat sourceLen)) source dest 0 sourceLen.

(** [toupper] of the C locale. *)
Definition toupper (c : Z) : Z :=
  if decide (97 <= c <= 122) then c - 32 else c.

(** The nibble of an upper-cased hexadecimal digit, in [unsigned char]
    arithmetic. *)
Definition hexval (c : Z) : Z :=
  let b := u8 (toupper c) in
  if decide (b > 0x39) then u8 (b - 0x37) else u8 (b - 0x30).

Fixpoint hex_to_byte_loop (fuel : nat) (source dest : list Z) (i sourceLen : Z)
  : option (list Z) :=
  match fuel with
  | O => None
  | S fuel =>
      if decide (i < sourceLen) then
        h ← aget source i;
        l ← aget source (i + 1);
        dest1 ← aset dest (Z.quot i 2) (u8 (Z.lor (Z.shiftl (hexval h) 4) (hexval l)));
        hex_to_byte_loop fuel source dest1 (s16 (i + 2)) sourceLen
      else Some dest
  end.

Definition HexStrToByte (source dest : list Z) (sourceLen : Z) : option (list Z) :=
  hex_to_byte_loop (S (Z.to_nat sourceLen)) source dest 0 sourceLen.

(** ** Reference definitions *)

(** Upper-case hexadecimal text, two digits a byte, high nibble first. *)
Definition hex_digit (n : Z) : Z := if decide (n < 10) then 48 + n else 55 + n.

Definition hex_encode (l : list Z) : list Z :=
  flat_map (fun b => [hex_digit (b / 16); hex_digit (b mod 16)]) l.

(** ** Lemmas *)

Lemma hexchar_digit : forall n, 0 <= n < 16 -> hexchar n = hex_digit n.
Proof. by_evaluation 16. Qed.

Lemma hexchar_high b : is_byte b -> hexchar (Z.shiftr b 4) = hex_digit (b / 16).
Proof.
  intros H. rewrite Z.shiftr_div_pow2 by lia. change (2 ^ 4) with 16.
  apply hexchar_digit. zlia.
Qed.

Lemma hexchar_low b : is_byte b -> hexchar (Z.land b 0x0f) = hex_digit (b mod 16).
Proof.
  intros H. change 15 with (Z.ones 4). rewrite Z.land_ones by lia.
  change (2 ^ 4) with 16. apply hexchar_digit. zlia.
Qed.

Lemma hexval_digit : forall n, 0 <= n < 16 -> hexval (hex_digit n) = n.
Proof. by_evaluation 16. Qed.

Lemma hex_encode_length l : length (hex_encode l) = (2 * length l)%nat.
Proof. induction l as [|b l IH]; simpl in *; [done|]. rewrite IH. lia. Qed.

Lemma hex_encode_app l k : hex_encode (l ++ k) = hex_encode l ++ hex_encode k.
Proof. apply flat_map_app. Qed.

Lemma hex_digit_range n : 0 <= n < 16 ->
  48 <= hex_digit n <= 57 \/ 65 <= hex_digit n <= 70.
Proof. intros H. unfold hex_digit. case_decide; lia. Qed.

Lemma hex_encode_chars l : bytes l ->
  Forall (fun c => 48 <= c <= 57 \/ 65 <= c <= 70) (hex_encode l).
Proof.
  induction 1 as [|b l Hb _ IH]; simpl; [constructor|].
  constructor; [apply hex_digit_range; zlia|].
  constructor; [apply hex_digit_range; zlia|done].
Qed.

Lemma hex_encode_nonzero l : bytes l -> Forall (fun c => c <> 0) (hex_encode l).
Proof.
  intros H. eapply Forall_impl; [by apply hex_encode_chars|]. simpl. lia.
Qed.

Lemma nibbles_byte : forall b, 0 <= b < 256 ->
  u8 (Z.lor (Z.shiftl (hexval (hex_digit (b / 16))) 4) (hexval (hex_digit (b mod 16)))) = b.
Proof. by_evaluation 256. Qed.

(** The loop invariant of [ByteToHexStr]: [pre] has been transcoded, [rest] has
    not, and the array still holds [tail] behind the text. *)
Lemma byte_to_hex_loop_spec rest : forall fuel pre tail,
  bytes rest ->
  Z.of_nat (length pre + length rest) <= 32767 ->
  (length rest < fuel)%nat ->
  (2 * length rest < length tail)%nat ->
  byte_to_hex_loop fuel (pre ++ rest) (hex_encode pre ++ tail)
    (Z.of_nat (length pre)) (Z.of_nat (length pre + length rest))
  = Some (hex_encode (pre ++ rest) ++ 0 :: drop (2 * length rest + 1) tail).
Proof.
  induction rest as [|b rest IH]; intros fuel pre tail Hb Hmax Hfuel Htail;
    (destruct fuel as [|fuel]; simpl in Hfuel; [lia|]); simpl.
  - rewrite decide_False by lia. rewrite app_nil_r.
    destruct tail as [|t tail]; simpl in Htail; [lia|].
    rewrite aset_mid by (rewrite hex_encode_length; lia). done.
  - apply Forall_cons in Hb as [Hb Hrest].
    rewrite decide_True by (simpl in *; lia).
    rewrite aget_mid by done. simpl.
    destruct tail as [|t0 [|t1 tail]]; simpl in Htail; [lia|lia|].
    rewrite aset_mid by (rewrite hex_encode_length; lia). simpl.
    rewrite (cons_middle _ _ (t1 :: _)), app_assoc.
    rewrite aset_mid by (rewrite length_app, hex_encode_length; simpl; lia). simpl.
    rewrite hexchar_high, hexchar_low by done.
    rewrite s16_id by (simpl in *; lia).
    specialize (IH fuel (pre ++ [b]) tail Hrest).
    rewrite length_app, <- !(assoc_L app), hex_encode_app in IH. simpl in IH.
    replace (Z.of_nat (length pre) + 1) with (Z.of_nat (length pre + 1)) by lia.
    replace (length pre + S (length rest))%nat with (length pre + 1 + length rest)%nat by lia.
    rewrite <- !(assoc_L app). simpl.
    rewrite <- (assoc_L app) in IH. simpl in IH.
    rewrite IH by (simpl in *; lia).
    do 3 f_equal. replace (length rest + S (length rest + 0) + 1)%nat
      with (S (2 * length rest + 1)) by lia. done.
Qed.

(** Only the first [sourceLen] bytes are read. *)
Lemma byte_to_hex_loop_prefix fuel : forall src extra dest i n,
  0 <= i -> n <= Z.of_nat (length src) -> n <= 32767 ->
  byte_to_hex_loop fuel (src ++ extra) dest i n = byte_to_hex_loop fuel src dest i n.
Proof.
  induction fuel as [|fuel IH]; intros src extra dest i n Hi Hn Hmax; [done|]. simpl.
  destruct (decide (i < n)); [|done].
  assert (Hg : aget (src ++ extra) i = aget src i).
  { unfold aget. rewrite !decide_True by lia. apply lookup_app_l. lia. }
  rewrite Hg. destruct (aget src i) as [c|]; [|done]. simpl.
  destruct (aset dest (i * 2) _) as [d1|]; [|done]. simpl.
  destruct (aset d1 (i * 2 + 1) _) as [d2|]; [|done]. simpl.
  apply IH; [|done|done]. rewrite s16_id; lia.
Qed.

Lemma hex_to_byte_loop_spec rest : forall fuel pre extra tail,
  bytes rest ->
  2 * Z.of_nat (length pre + length rest) <= 32767 ->
  (length rest < fuel)%nat ->
  (length rest <= length tail)%nat ->
  hex_to_byte_loop fuel (hex_encode (pre ++ rest) ++ extra) (pre ++ tail)
    (2 * Z.of_nat (length pre)) (2 * Z.of_nat (length pre + length rest))
  = Some (pre ++ rest ++ drop (length rest) tail).
Proof.
  induction rest as [|b rest IH]; intros fuel pre extra tail Hb Hmax Hfuel Htail;
    (destruct fuel as [|fuel]; simpl in Hfuel; [lia|]); simpl.
  - by rewrite decide_False by lia.
  - apply Forall_cons in Hb as [Hb Hrest].
    rewrite decide_True by (simpl in *; lia).
    destruct tail as [|t tail]; simpl in Htail; [lia|].
    rewrite hex_encode_app, <- (assoc_L app). simpl.
    rewrite (aget_mid (hex_encode pre) _ _ (2 * _)) by (rewrite hex_encode_length; lia). simpl.
    rewrite (cons_middle _ _ (hex_digit _ :: _)), app_assoc.
    rewrite aget_mid by (rewrite length_app, hex_encode_length; simpl; lia). simpl.
    rewrite aset_mid by (rewrite (Z.mul_comm 2), Z.quot_mul; lia). simpl.
    rewrite nibbles_byte by done.
    rewrite s16_id by (simpl in *; lia).
    specialize (IH fuel (pre ++ [b]) extra tail Hrest).
    rewrite length_app, <- !(assoc_L app) in IH. simpl in IH.
    rewrite hex_encode_app, <- !(assoc_L app) in IH. simpl in IH.
    replace (2 * Z.of_nat (length pre) + 2) with (2 * Z.of_nat (length pre + 1)) by lia.
    replace (length pre + S (length rest))%nat with (length pre + 1 + length rest)%nat by lia.
    rewrite <- !(assoc_L app). simpl. apply IH; simpl in *; lia.
Qed.

(** [ByteToHexStr] on a whole array. *)
Lemma ByteToHexStr_spec src dest :
  bytes src -> Z.of_nat (length src) <= 32767 -> (2 * length src < length dest)%nat ->
  ByteToHexStr src dest (Z.of_nat (length src))
  = Some (hex_encode src ++ 0 :: drop (2 * length src + 1) dest).
Proof.
  intros Hb Hmax Hd. unfold ByteToHexStr.
  apply (byte_to_hex_loop_spec src _ [] dest); simpl; auto; lia.
Qed.

Lemma HexStrToByte_spec bs extra dest :
  bytes bs -> 2 * Z.of_nat (length bs) <= 32767 -> (length bs <= length dest)%nat ->
  HexStrToByte (hex_encode bs ++ extra) dest (2 * Z.of_nat (length bs))
  = Some (bs ++ drop (length bs) dest).
Proof.
  intros Hb Hmax Hd. unfold HexStrToByte.
  apply (hex_to_byte_loop_spec bs _ [] extra dest); simpl; auto; lia.
Qed.

(** ** Theorems *)

(** [ByteToHexStr] transcodes: into an array with room for the text and its
    NUL it stores, as a C string, two upper-case hexadecimal digits for every
    byte, high nibble first, and touches nothing behind the NUL. *)
Theorem byte_to_hex_correct src dest :
  bytes src -> Z.of_nat (length src) <= 32767 -> (2 * length src < length dest)%nat ->
  exists out, ByteToHexStr src dest (Z.of_nat (length src)) = Some out /\
    c_str out = Some (hex_encode src) /\
    drop (2 * length src + 1) out = drop (2 * length src + 1) dest /\
    length out = length dest.
Proof.
  intros Hb Hmax Hd. eexists. split; [by apply ByteToHexStr_spec|].
  split; [by apply c_str_app, hex_encode_nonzero|].
  rewrite <- hex_encode_length, (drop_app_add' _ _ _ 1) by lia. simpl.
  split; [done|]. rewrite length_app, hex_encode_length; simpl. rewrite length_drop. lia.
Qed.

(** Round trip of the payload transcoding: decoding with [HexStrToByte] what
    [ByteToHexStr] produced gives the payload back. *)
Theorem hex_roundtrip src dest back :
  bytes src -> Z.of_nat (length src) <= 16383 ->
  (2 * length src < length dest)%nat -> (length src <= length back)%nat ->
  exists out, ByteToHexStr src dest (Z.of_nat (length src)) = Some out /\
    HexStrToByte out back (2 * Z.of_nat (length src)) = Some (src ++ drop (length src) back).
Proof.
  intros Hb Hmax Hd Hback. eexists. split; [apply ByteToHexStr_spec; auto; lia|].
  apply HexStrToByte_spec; auto; lia.
Qed.

(** ** Witnesses *)

Lemma byte_to_hex_correct_witness :
  exists out, ByteToHexStr [0x7b; 0xa0] (replicate 6 7) 2 = Some out /\
    c_str out = Some (hex_encode [0x7b; 0xa0]) /\
    drop 5 out = drop 5 (replicate 6 7) /\ length out = 6%nat.
Proof.
  apply (byte_to_hex_correct [0x7b; 0xa0] (replicate 6 7)); simpl; [|lia|lia].
  apply (bool_decide_unpack _). vm_compute. exact I.
Defined.

Lemma hex_roundtrip_witness :
  exists out, ByteToHexStr [0x7b; 0xa0] (replicate 6 7) 2 = Some out /\
    HexStrToByte out (replicate 3 9) 4 = Some [0x7b; 0xa0; 9].
Proof.
  apply (hex_roundtrip [0x7b; 0xa0] (replicate 6 7) (replicate 3 9)); simpl; [|lia|lia|lia].
  apply (bool_decide_unpack _). vm_compute. exact I.
Defined.
