(* ===== verification/CString.v ===== *)
(** * C strings of the NuttX library

    Models the string routines of src/nuttx/libc/string the application relies
    on.  A pointer into an array is the list of the cells from it to the end of
    the array, so a routine that runs off the array reads an empty list and the
    model reports undefined behaviour ([None]); the null pointer of a result is
    an inner [None].  [strtok_r], which writes into its array and remembers a
    position of it, works on the whole array and on indices. *)

From S2P Require Import Prelude.

(** ** The code *)

Fixpoint strlen (s : list Z) : option Z :=
  match s with
  | [] => None
  | c :: s' => if decide (c <> 0) then (fun n => n + 1) <$> strlen s' else Some 0
  end.

Fixpoint strchr (s : list Z) (c : Z) : option (option (list Z)) :=
  match s with
  | [] => None
  | x :: s' =>
      if decide (x = c) then Some (Some s)
      else if decide (x = 0) then Some None
      else strchr s' c
  end.

Fixpoint strncmp (cs ct : list Z) (nb : nat) {struct nb} : option Z :=
  match nb with
  | O => Some 0
  | S nb =>
      match cs, ct with
      | c :: cs', t :: ct' =>
          if decide (c - t <> 0 \/ c = 0) then Some (c - t) else strncmp cs' ct' nb
      | _, _ => None
      end
  end.

(** The difference is kept in a [signed char]. *)
Definition s8 (z : Z) : Z := (z + 128) mod 256 - 128.

Fixpoint strcmp (cs ct : list Z) : option Z :=
  match cs, ct with
  | c :: cs', t :: ct' =>
      let result := s8 (c - t) in
      if decide (result <> 0 \/ c = 0) then Some result else strcmp cs' ct'
  | _, _ => None
  end.

(** The loop of [strstr] over the candidates. *)
Fixpoint strstr_loop (fuel : nat) (candidate substr : list Z) (ch len : Z)
  : option (option (list Z)) :=
  match fuel with
  | O => None
  | S fuel =>
      r ← strchr candidate ch;
      match r with
      | None => Some None
      | Some candidate =>
          n ← strlen candidate;
          if decide (n < len) then Some None
          else
            d ← strncmp candidate substr (Z.to_nat len);
            if decide (d = 0) then Some (Some candidate)
            else strstr_loop fuel (tail candidate) substr ch len
      end
  end.

Definition strstr (str substr : list Z) : option (option (list Z)) :=
  len ← strlen substr;
  ch ← head substr;
  if decide (ch = 0) then Some (Some str)
  else strstr_loop (S (length str)) str substr ch len.

(** [strcpy] to the start of an array, [strcat] behind the string it holds. *)
Definition strcpy (dest src : list Z) : option (list Z) :=
  s ← c_str src; store_str dest 0 s.

Definition strcat (dest src : list Z) : option (list Z) :=
  n ← strlen dest; s ← c_str src; store_str dest (Z.to_nat n) s.

(** The two scans of [strtok_r]. *)
Fixpoint skip_delim (fuel : nat) (a delim : list Z) (p : Z) : option Z :=
  match fuel with
  | O => None
  | S fuel =>
      c ← aget a p;
      if decide (c = 0) then Some p
      else
        r ← strchr delim c;
        match r with
        | Some _ => skip_delim fuel a delim (p + 1)
        | None => Some p
        end
  end.

Fixpoint find_delim (fuel : nat) (a delim : list Z) (p : Z) : option Z :=
  match fuel with
  | O => None
  | S fuel =>
      c ← aget a p;
      if decide (c = 0) then Some p
      else
        r ← strchr delim c;
        match r with
        | Some _ => Some p
        | None => find_delim fuel a delim (p + 1)
        end
  end.

(** [strtok_r str delim &saveptr] on the array [a]: the token's position (or
    null), the array and the saved position afterwards. *)
Definition strtok_r (a : list Z) (str : option Z) (delim : list Z) (saveptr : option Z)
  : option (option Z * list Z * option Z) :=
  match str ∪ saveptr with
  | None => Some (None, a, saveptr)
  | Some start =>
      pbegin ← skip_delim (S (length a)) a delim start;
      c ← aget a pbegin;
      if decide (c = 0) then Some (None, a, saveptr)
      else
        pend ← find_delim (S (length a)) a delim (pbegin + 1);
        e ← aget a pend;
        if decide (e <> 0) then
          a' ← aset a pend 0;
          Some (Some pbegin, a', Some (pend + 1))
        else Some (Some pbegin, a, Some pend)
  end.

(** ** Reference definitions *)

(** [sub] is a prefix of [s]. *)
Fixpoint is_prefix (sub s : list Z) : bool :=
  match sub, s with
  | [], _ => true
  | a :: sub', b :: s' => if decide (a = b) then is_prefix sub' s' else false
  | _, _ => false
  end.

(** The position of the first occurrence of [sub] in [s]. *)
Fixpoint find_sub (sub s : list Z) : option nat :=
  if is_prefix sub s then Some O
  else match s with [] => None | _ :: s' => S <$> find_sub sub s' end.

(** ** Lemmas *)

Lemma strlen_spec s : strlen s = (fun x => Z.of_nat (length x)) <$> c_str s.
Proof.
  induction s as [|c s IH]; simpl; [done|].
  destruct (decide (c = 0)) as [->|H]; [done|].
  rewrite (decide_True (P := c <> 0)) by done. rewrite IH.
  destruct (c_str s); simpl; [|done]. f_equal. lia.
Qed.

Lemma is_prefix_spec sub s : is_prefix sub s = true <-> exists r, s = sub ++ r.
Proof.
  revert s. induction sub as [|a sub IH]; intros s; simpl; [split; eauto|].
  destruct s as [|b s]; [naive_solver|]. case_decide as E.
  - subst. rewrite IH. naive_solver.
  - clear IH. naive_solver.
Qed.

Lemma find_sub_Some sub s n : find_sub sub s = Some n ->
  exists x y, s = x ++ sub ++ y /\ length x = n.
Proof.
  revert n. induction s as [|b s IH]; intros n; simpl; destruct (is_prefix sub _) eqn:E.
  1,3: intros [= <-]; apply is_prefix_spec in E as [r ->]; by exists [], r.
  - done.
  - intros (k & Hk & ->)%fmap_Some. destruct (IH _ Hk) as (x & y & -> & <-).
    by exists (b :: x), y.
Qed.

Lemma find_sub_None sub s : find_sub sub s = None <-> ~ exists x y, s = x ++ sub ++ y.
Proof.
  induction s as [|b s IH]; simpl; destruct (is_prefix sub _) eqn:E.
  1,3: split; [done|]; intros H; exfalso; apply is_prefix_spec in E as [r Hr];
    apply H; by exists [], r.
  - split; [|done]. intros _ (x & y & H). destruct x; [|done]. simpl in H.
    rewrite H in E. assert (is_prefix sub (sub ++ y) = true) by (apply is_prefix_spec; eauto).
    congruence.
  - rewrite fmap_None, IH. split; intros H (x & y & Hs); apply H.
    + destruct x as [|b' x]; simpl in Hs.
      * rewrite Hs in E. assert (is_prefix sub (sub ++ y) = true) by (apply is_prefix_spec; eauto).
        congruence.
      * injection Hs as -> ->. eauto.
    + exists (b :: x), y. by rewrite Hs.
Qed.

Lemma strncmp_prefix sub : forall a b s,
  c_str a = Some s -> c_str b = Some sub -> (length sub <= length s)%nat ->
  exists d, strncmp a b (length sub) = Some d /\ (d = 0 <-> is_prefix sub s = true).
Proof.
  induction sub as [|x sub IH]; intros a b s Ha Hb Hl; simpl; [by exists 0|].
  destruct a as [|y a]; [done|]. destruct b as [|z b]; [done|]. simpl in *.
  destruct (decide (y = 0)); [by simplify_eq; simpl in *; lia|].
  destruct (decide (z = 0)); [done|].
  apply fmap_Some in Ha as (s' & Ha & ->). apply fmap_Some in Hb as (sub' & Hb & Hx).
  injection Hx as -> ->.
  destruct (decide (y - z <> 0 \/ y = 0)).
  - exists (y - z). split; [done|]. rewrite decide_False by lia. split; [lia|done].
  - rewrite decide_True by lia. apply (IH a b s'); [done|done|simpl in Hl; lia].
Qed.

Lemma strchr_spec ch : forall a s, c_str a = Some s -> ch <> 0 ->
  (strchr a ch = Some None /\ ch ∉ s) \/
  (exists x y r, strchr a ch = Some (Some r) /\ s = x ++ ch :: y /\ ch ∉ x /\
     c_str r = Some (ch :: y) /\ a = x ++ r).
Proof.
  induction a as [|c a IH]; intros s Hs Hch; simpl in *; [done|].
  destruct (decide (c = 0)) as [->|Hc].
  - injection Hs as <-. left. rewrite decide_False by done. split; [done|].
    apply not_elem_of_nil.
  - apply fmap_Some in Hs as (s' & Hs & ->).
    destruct (decide (c = ch)) as [->|Hne].
    + right. exists [], s', (ch :: a). simpl. rewrite decide_False by done. rewrite Hs.
      split_and!; try done. apply not_elem_of_nil.
    + destruct (IH _ Hs Hch) as [[E Hn] | (x & y & r & E & -> & Hn & Hr & ->)].
      * left. split; [done|]. apply not_elem_of_cons. done.
      * right. exists (c :: x), y, r. split_and!; try done. apply not_elem_of_cons. done.
Qed.

Lemma find_sub_skip ch sub x y : ch ∉ x ->
  find_sub (ch :: sub) (x ++ y) = (Nat.add (length x)) <$> find_sub (ch :: sub) y.
Proof.
  induction x as [|c x IH]; intros Hn; simpl.
  - by destruct (find_sub _ y).
  - apply not_elem_of_cons in Hn as [Hne Hn]. rewrite decide_False by congruence.
    rewrite IH by done. by destruct (find_sub _ y).
Qed.

Lemma is_prefix_length sub s : is_prefix sub s = true -> (length sub <= length s)%nat.
Proof. intros [r ->]%is_prefix_spec. rewrite length_app. lia. Qed.

Lemma find_sub_short sub s : (length s < length sub)%nat -> find_sub sub s = None.
Proof.
  induction s as [|b s IH]; intros H; simpl;
    (destruct (is_prefix sub _) eqn:E; [apply is_prefix_length in E; simpl in *; lia|]); [done|].
  rewrite IH; [done|simpl in *; lia].
Qed.

Lemma strstr_loop_spec ch sub b fuel : forall a s,
  c_str b = Some (ch :: sub) -> c_str a = Some s -> (length a < fuel)%nat ->
  strstr_loop fuel a b ch (Z.of_nat (length (ch :: sub)))
  = Some ((fun k => drop k a) <$> find_sub (ch :: sub) s).
Proof.
  induction fuel as [|fuel IH]; intros a s Hb Ha Hf; [lia|]. cbn [strstr_loop].
  assert (Hch : ch <> 0).
  { apply c_str_Some in Hb as [Hb _]. by apply Forall_cons in Hb as [? _]. }
  destruct (strchr_spec ch a s Ha Hch) as [[-> Hn] | (x & y & r & -> & -> & Hn & Hr & ->)].
  - simpl. assert (find_sub (ch :: sub) s = None) as ->; [|done].
    apply find_sub_None. intros (u & v & ->). apply Hn. set_solver.
  - simpl mbind. rewrite strlen_spec, Hr. simpl fmap. simpl mbind.
    rewrite find_sub_skip by done.
    destruct (decide (_ < _)) as [Hlt|Hge].
    + rewrite (find_sub_short (ch :: sub) (ch :: y)); [done|]. simpl in *. lia.
    + destruct (strncmp_prefix (ch :: sub) r b (ch :: y)) as (d & Hd & Hiff);
        [done|done|simpl in *; lia|].
      cbn [length] in Hd. rewrite Nat2Z.id, Hd. simpl mbind.
      destruct r as [|r0 r']; [done|].
      destruct (decide (d = 0)) as [E|E].
      * cbn [find_sub]. rewrite (proj1 Hiff E). simpl. by rewrite Nat.add_0_r, drop_app_length.
      * assert (is_prefix (ch :: sub) (ch :: y) = false) as Hp.
        { destruct (is_prefix _ _); [|done]. exfalso. tauto. }
        cbn [find_sub]. rewrite Hp. simpl tail.
        assert (r0 = ch /\ c_str r' = Some y) as [-> Hr'].
        { simpl in Hr. destruct (decide (r0 = 0)); [done|].
          apply fmap_Some in Hr as (? & ? & [= -> ->]). done. }
        cbn [length] in IH. rewrite (IH r' y Hb Hr') by (rewrite length_app in Hf; simpl in Hf; lia).
        destruct (find_sub (ch :: sub) y) as [k|]; simpl; [|done].
        do 2 f_equal. by rewrite drop_app_add'.
Qed.

Lemma strcmp_zero a : forall b s t, bytes a -> bytes b ->
  c_str a = Some s -> c_str b = Some t ->
  exists d, strcmp a b = Some d /\ (d = 0 <-> s = t).
Proof.
  induction a as [|x a IH]; intros b s t Ha Hb Hs Ht; [done|].
  destruct b as [|y b]; [done|]. simpl in *.
  apply Forall_cons in Ha as [Hx Ha]. apply Forall_cons in Hb as [Hy Hb].
  assert (Hd : s8 (x - y) = 0 <-> x = y) by (unfold s8, is_byte in *; Z.div_mod_to_equations; lia).
  destruct (decide (s8 (x - y) <> 0 \/ x = 0)) as [Hne|Hne].
  - eexists. split; [done|]. rewrite Hd.
    destruct (decide (x = 0)) as [->|Hx0], (decide (y = 0)) as [->|Hy0]; simplify_eq.
    + done.
    + apply fmap_Some in Ht as (t' & _ & ->). split; [congruence|done].
    + apply fmap_Some in Hs as (s' & _ & ->). split; [congruence|done].
    + apply fmap_Some in Ht as (t' & Ht & ->), Hs as (s' & Hs & ->).
      split; [|congruence]. intros ->. destruct Hne as [Hne|Hne]; [|done].
      exfalso. by apply Hne, Hd.
  - apply Decidable.not_or in Hne as [Hne Hy0]. apply dec_stable, Hd in Hne as ->.
    rewrite decide_False in Hs, Ht by done.
    apply fmap_Some in Ht as (t' & Ht & ->), Hs as (s' & Hs & ->).
    destruct (IH b s' t' Ha Hb Hs Ht) as (d & -> & Hiff).
    exists d. split; [done|]. rewrite Hiff. split; congruence.
Qed.

(** ** Tokens *)

(** The loop of the callers: [strtok] until it answers null. *)
Fixpoint strtok_all (fuel : nat) (a : list Z) (str : option Z) (delim : list Z) (saveptr : option Z)
  : option (list Z * list Z) :=
  match fuel with
  | O => None
  | S fuel =>
      '(r, a', save') ← strtok_r a str delim saveptr;
      match r with
      | None => Some ([], a')
      | Some p =>
          '(ps, a'') ← strtok_all fuel a' None delim save';
          Some (p :: ps, a'')
      end
  end.

(** The maximal runs of characters outside [d], [cur] being the run so far. *)
Fixpoint tokens_from (cur d s : list Z) : list (list Z) :=
  let flush := match cur with [] => [] | _ => [cur] end in
  match s with
  | [] => flush
  | c :: s' => if decide (c ∈ d) then flush ++ tokens_from [] d s' else tokens_from (cur ++ [c]) d s'
  end.

Definition tokens (d s : list Z) : list (list Z) := tokens_from [] d s.

Lemma tokens_nonempty d s : Forall (fun t => t <> []) (tokens d s).
Proof.
  unfold tokens. assert (forall cur, Forall (fun t => t <> []) (tokens_from cur d s)) as H; [|apply H].
  induction s as [|c s IH]; intros cur; simpl.
  - destruct cur; [constructor|by repeat constructor].
  - case_decide; [|apply IH]. apply Forall_app. split; [destruct cur; [constructor|by repeat constructor]|apply IH].
Qed.

Lemma tokens_skip d ds s : Forall (.∈ d) ds -> tokens d (ds ++ s) = tokens d s.
Proof.
  unfold tokens. induction 1 as [|c ds Hc _ IH]; simpl; [done|]. by rewrite decide_True.
Qed.

Lemma tokens_run d tok : forall cur s, Forall (.∉ d) tok ->
  tokens_from cur d (tok ++ s) = tokens_from (cur ++ tok) d s.
Proof.
  induction tok as [|c tok IH]; intros cur s H; simpl; [by rewrite app_nil_r|].
  apply Forall_cons in H as [Hc H]. rewrite decide_False by done.
  rewrite IH by done. by rewrite <- (assoc_L app).
Qed.

Lemma tokens_cons d tok c s : tok <> [] -> Forall (.∉ d) tok -> c ∈ d ->
  tokens d (tok ++ c :: s) = tok :: tokens d s.
Proof.
  intros Hne Hf Hc. unfold tokens. rewrite tokens_run by done. simpl.
  rewrite decide_True by done. by destruct tok.
Qed.

Lemma tokens_last d tok : tok <> [] -> Forall (.∉ d) tok -> tokens d tok = [tok].
Proof.
  intros Hne Hf. unfold tokens. rewrite <- (app_nil_r tok) at 1.
  rewrite tokens_run by done. by destruct tok.
Qed.

(** [strchr] on a set of delimiters. *)
Lemma strchr_elem da d c : c_str da = Some d -> c <> 0 ->
  exists r, strchr da c = Some r /\ (is_Some r <-> c ∈ d).
Proof.
  intros Hd Hc. destruct (strchr_spec c da d Hd Hc) as [[-> Hn] | (x & y & r & -> & -> & _)].
  - eexists. split; [done|]. split; [by intros []|done].
  - eexists. split; [done|]. split; [set_solver|by eexists].
Qed.

Lemma skip_delim_spec da d ds : forall fuel pre c r p,
  c_str da = Some d -> Forall (.∈ d) ds -> Forall (fun x => x <> 0) ds ->
  (c = 0 \/ c ∉ d) -> p = Z.of_nat (length pre) -> (length ds < fuel)%nat ->
  skip_delim fuel (pre ++ ds ++ c :: r) da p = Some (p + Z.of_nat (length ds)).
Proof.
  induction ds as [|x ds IH]; intros fuel pre c r p Hd Hin Hnz Hc -> Hf;
    (destruct fuel as [|fuel]; simpl in Hf; [lia|]); simpl.
  - rewrite aget_mid by done. simpl. case_decide; [f_equal; lia|].
    destruct (strchr_elem da d c Hd) as (o & -> & Ho); [done|]. simpl.
    destruct o; [|f_equal; lia]. exfalso. destruct Hc as [|Hc]; [done|].
    apply Hc, Ho. by eexists.
  - apply Forall_cons in Hin as [Hx Hin], Hnz as [Hx0 Hnz].
    rewrite aget_mid by done. simpl. rewrite decide_False by done.
    destruct (strchr_elem da d x Hd Hx0) as (o & -> & Ho). simpl.
    destruct o as [o|]; [|by destruct (proj2 Ho Hx)].
    rewrite (cons_middle x), (assoc_L app).
    rewrite (IH fuel (pre ++ [x])); try done; [f_equal; lia| |lia].
    rewrite length_app. simpl. lia.
Qed.

Lemma find_delim_spec da d tok : forall fuel pre c r p,
  c_str da = Some d -> Forall (.∉ d) tok -> Forall (fun x => x <> 0) tok ->
  (c = 0 \/ c ∈ d) -> p = Z.of_nat (length pre) -> (length tok < fuel)%nat ->
  find_delim fuel (pre ++ tok ++ c :: r) da p = Some (p + Z.of_nat (length tok)).
Proof.
  induction tok as [|x tok IH]; intros fuel pre c r p Hd Hin Hnz Hc -> Hf;
    (destruct fuel as [|fuel]; simpl in Hf; [lia|]); simpl.
  - rewrite aget_mid by done. simpl. case_decide; [f_equal; lia|].
    destruct (strchr_elem da d c Hd) as (o & -> & Ho); [done|]. simpl.
    destruct o; [f_equal; lia|]. exfalso. destruct Hc as [|Hc]; [done|].
    by destruct (proj2 Ho Hc).
  - apply Forall_cons in Hin as [Hx Hin], Hnz as [Hx0 Hnz].
    rewrite aget_mid by done. simpl. rewrite decide_False by done.
    destruct (strchr_elem da d x Hd Hx0) as (o & -> & Ho). simpl.
    destruct o as [o|]; [exfalso; apply Hx, Ho; by eexists|].
    rewrite (cons_middle x), (assoc_L app).
    rewrite (IH fuel (pre ++ [x])); try done; [f_equal; lia| |lia].
    rewrite length_app. simpl. lia.
Qed.

(** The longest run at the front of a list. *)
Lemma split_run (P : Z -> Prop) `{forall x, Decision (P x)} (s : list Z) :
  exists u v, s = u ++ v /\ Forall P u /\ (v = [] \/ exists c r, v = c :: r /\ ~ P c).
Proof.
  induction s as [|c s (u & v & -> & Hu & Hv)].
  - exists [], []. split_and!; [done|constructor|by left].
  - destruct (decide (P c)).
    + exists (c :: u), v. split_and!; [done|by constructor|done].
    + exists [], (c :: u ++ v). split_and!; [done|constructor|right; eauto].
Qed.

(** What one call of [strtok_r] does from the position behind [pre]. *)
Lemma strtok_r_token da d pre ds tok c r str save :
  c_str da = Some d -> Forall (.∈ d) ds ->
  Forall (fun x => x <> 0) ds -> Forall (fun x => x <> 0) tok ->
  Forall (.∉ d) tok -> tok <> [] -> (c = 0 \/ c ∈ d) ->
  str ∪ save = Some (Z.of_nat (length pre)) ->
  strtok_r (pre ++ ds ++ tok ++ c :: r) str da save =
  Some (Some (Z.of_nat (length (pre ++ ds))), pre ++ ds ++ tok ++ 0 :: r,
        Some (Z.of_nat (length (pre ++ ds ++ tok)) + (if decide (c = 0) then 0 else 1))).
Proof.
  intros Hd Hds Hnz1 Hnz2 Htok Hne Hc Hstart. unfold strtok_r. rewrite Hstart.
  destruct tok as [|x tok]; [done|].
  apply Forall_cons in Htok as [Hx Htok]. apply Forall_cons in Hnz2 as [Hx0 Hnz2].
  change ((x :: tok) ++ ?l) with (x :: (tok ++ l)).
  rewrite (skip_delim_spec da d ds); try done;
    [|by right|rewrite !length_app; simpl; lia]. cbn [mbind option_bind].
  assert (Hb : Z.of_nat (length pre) + Z.of_nat (length ds) = Z.of_nat (length (pre ++ ds)))
    by (rewrite length_app; lia).
  rewrite Hb, (assoc_L app pre ds).
  rewrite (aget_mid (pre ++ ds) _ _ (Z.of_nat (length (pre ++ ds)))) by done.
  cbn [mbind option_bind]. rewrite decide_False by done.
  rewrite (cons_middle x), (assoc_L app (pre ++ ds)).
  rewrite (find_delim_spec da d tok); try done;
    [|rewrite !length_app; simpl; lia|rewrite !length_app; simpl; lia]. cbn [mbind option_bind].
  assert (He : Z.of_nat (length (pre ++ ds)) + 1 + Z.of_nat (length tok)
    = Z.of_nat (length (((pre ++ ds) ++ [x]) ++ tok))) by (rewrite !length_app; simpl; lia).
  rewrite He, (assoc_L app (_ ++ [x])), aget_mid by done. simpl.
  assert (Hl : length (pre ++ ds ++ x :: tok) = length (((pre ++ ds) ++ [x]) ++ tok))
    by (rewrite !length_app; simpl; lia).
  rewrite Hl. destruct (decide (c = 0)) as [->|Hc0].
  - rewrite decide_False by tauto. rewrite Z.add_0_r.
    by rewrite <- !(assoc_L app).
  - rewrite decide_True by done. rewrite aset_mid by done. simpl.
    by rewrite <- !(assoc_L app).
Qed.

Lemma strtok_r_none da d pre ds r str save :
  c_str da = Some d -> Forall (.∈ d) ds -> Forall (fun x => x <> 0) ds ->
  str ∪ save = Some (Z.of_nat (length pre)) ->
  strtok_r (pre ++ ds ++ 0 :: r) str da save = Some (None, pre ++ ds ++ 0 :: r, save).
Proof.
  intros Hd Hds Hnz Hstart. unfold strtok_r. rewrite Hstart.
  rewrite (skip_delim_spec da d ds); try done; [|by left|rewrite !length_app; simpl; lia].
  cbn [mbind option_bind]. rewrite (assoc_L app pre ds).
  rewrite (aget_mid (pre ++ ds) _ _ (_ + _)) by (rewrite length_app; lia). done.
Qed.

Lemma strtok_all_spec fuel : forall da d pre rest junk str save,
  c_str da = Some d -> Forall (fun x => x <> 0) rest ->
  str ∪ save = Some (Z.of_nat (length pre)) -> (length rest < fuel)%nat ->
  exists ps a', strtok_all fuel (pre ++ rest ++ 0 :: junk) str da save = Some (ps, a') /\
    (exists tl, a' = pre ++ tl) /\ Forall (fun p => 0 <= p) ps /\
    (fun p => c_str (drop (Z.to_nat p) a')) <$> ps = Some <$> tokens d rest.
Proof.
  induction fuel as [|fuel IH]; intros da d pre rest junk str save Hd Hnz Hst Hf; [lia|].
  destruct (split_run (.∈ d) rest) as (ds & v & -> & Hds & Hv). cbn [strtok_all].
  pose proof Hnz as [Hnz1 Hnz2]%Forall_app.
  destruct Hv as [-> | (x & v' & -> & Hx)].
  { rewrite app_nil_r. rewrite (strtok_r_none da d) by done. simpl.
    exists [], (pre ++ ds ++ 0 :: junk). split; [done|]. split; [by eexists|]. split; [done|].
    rewrite <- (app_nil_r ds), tokens_skip by done. done. }
  destruct (split_run (.∉ d) (x :: v')) as (tok & w & Hw & Htok & Hrest).
  assert (Hne : tok <> []).
  { intros ->. simpl in Hw. subst w. destruct Hrest as [|(c & r & [= <- <-] & Hc)]; [done|].
    by apply Hc. }
  rewrite Hw in *. clear Hw x v' Hx. apply Forall_app in Hnz2 as [Hnzt Hnzw].
  rewrite tokens_skip by done. rewrite !length_app in Hf.
  destruct Hrest as [-> | (c & r & -> & Hc)].
  - rewrite app_nil_r in *. rewrite <- (assoc_L app ds).
    rewrite (strtok_r_token da d pre ds tok 0 junk) by (try done; by left). simpl.
    destruct fuel as [|fuel]; [destruct tok; simpl in *; [done|lia]|]. cbn [strtok_all].
    rewrite (assoc_L app ds), (assoc_L app pre), Z.add_0_r.
    pose proof (strtok_r_none da d (pre ++ ds ++ tok) [] junk None
      (Some (Z.of_nat (length (pre ++ ds ++ tok)))) Hd (Forall_nil_2 _) (Forall_nil_2 _) eq_refl) as E.
    simpl in E. rewrite E. simpl.
    eexists _, _. split; [done|]. split; [eexists; by rewrite <- (assoc_L app)|].
    split; [repeat constructor; lia|].
    rewrite tokens_last by done. simpl. do 2 f_equal.
    rewrite Nat2Z.id, <- !(assoc_L app), (assoc_L app pre), drop_app_length.
    by apply c_str_app.
  - apply Forall_cons in Hnzw as [Hc0 Hnzw]. apply dec_stable in Hc.
    rewrite <- !(assoc_L app). simpl app at 3.
    rewrite (strtok_r_token da d pre ds tok c) by (try done; by right). simpl.
    rewrite decide_False by done.
    destruct (IH da d (pre ++ ds ++ tok ++ [0]) r junk None
      (Some (Z.of_nat (length (pre ++ ds ++ tok)) + 1))) as (ps & a' & E & [tl ->] & Hge & Hps);
      [done|done| |simpl in Hf; lia|].
    { simpl. apply (f_equal Some). rewrite !length_app. simpl. lia. }
    rewrite <- !(assoc_L app) in E. simpl in E. rewrite E. simpl.
    eexists _, _. split; [done|]. split; [by eexists|]. split; [constructor; [lia|done]|].
    rewrite tokens_cons by done. rewrite <- !(assoc_L app) in Hps. simpl in *. f_equal; [|done].
    rewrite Nat2Z.id, (assoc_L app pre), drop_app_length.
    by apply c_str_app.
Qed.

Lemma strstr_spec a b s sub :
  c_str a = Some s -> c_str b = Some sub ->
  strstr a b = Some ((fun k => drop k a) <$> find_sub sub s).
Proof.
  intros Ha Hb. unfold strstr. rewrite strlen_spec, Hb. cbn [fmap option_fmap option_map mbind option_bind].
  destruct b as [|ch b]; [done|].
  cbn [head mbind option_bind].
  destruct (decide (ch = 0)) as [->|Hch]; simpl in Hb.
  - injection Hb as <-. by destruct s.
  - pose proof Hb as Hb'. rewrite decide_False in Hb' by done.
    apply fmap_Some in Hb' as (sub' & Hsub & ->).
    apply strstr_loop_spec; [|done|lia]. simpl. rewrite decide_False by done. by rewrite Hsub.
Qed.

(** ** Theorems *)

(** [strstr] on two strings finds the first occurrence, and answers null
    exactly when there is none; it reads nothing outside the two strings. *)
Theorem strstr_first a b s sub :
  c_str a = Some s -> c_str b = Some sub ->
  strstr a b = Some ((fun k => drop k a) <$> find_sub sub s).
Proof. apply strstr_spec. Qed.

(** Splitting a message with [strtok] until it answers null yields pointers
    to the maximal runs of non-delimiter characters, in order, each of them a
    string of the array afterwards. *)
Theorem strtok_splits da d s junk :
  c_str da = Some d -> Forall (fun x => x <> 0) s ->
  exists ps a', strtok_all (S (length s)) (s ++ 0 :: junk) (Some 0) da None = Some (ps, a') /\
    (fun p => c_str (drop (Z.to_nat p) a')) <$> ps = Some <$> tokens d s.
Proof.
  intros Hd Hs. destruct (strtok_all_spec (S (length s)) da d [] s junk (Some 0) None)
    as (ps & a' & E & _ & _ & H); [done|done|done|lia|]. eauto.
Qed.

(** [strcmp] on two strings answers zero exactly when they are equal. *)
Theorem strcmp_equal a b s t :
  bytes a -> bytes b -> c_str a = Some s -> c_str b = Some t ->
  exists d, strcmp a b = Some d /\ (d = 0 <-> s = t).
Proof. intros. by apply strcmp_zero. Qed.

(** The sign of [strcmp] is lost for characters more than 127 apart: the
    greater string may compare as smaller. *)
Theorem strcmp_sign_lost : exists a b s t d,
  c_str a = Some s /\ c_str b = Some t /\ strcmp a b = Some d /\ d < 0 /\
  head s = Some 200 /\ head t = Some 50.
Proof. by exists [200; 0], [50; 0], [200], [50], (-106). Qed.

(** ** Witnesses *)

Lemma strstr_first_witness :
  strstr (bs "AT+NSORF" ++ [0; 7]) (bs "NSO" ++ [0]) = Some (Some (bs "NSORF" ++ [0; 7])).
Proof.
  exact (strstr_first (bs "AT+NSORF" ++ [0; 7]) (bs "NSO" ++ [0]) (bs "AT+NSORF") (bs "NSO")
    eq_refl eq_refl).
Defined.

Lemma strtok_splits_witness :
  exists ps a', strtok_all 10 (bs "a,bc,,d,," ++ 0 :: []) (Some 0) (bs "," ++ [0]) None = Some (ps, a') /\
    (fun p => c_str (drop (Z.to_nat p) a')) <$> ps = Some <$> [bs "a"; bs "bc"; bs "d"].
Proof.
  apply (strtok_splits (bs "," ++ [0]) (bs ",") (bs "a,bc,,d,,") []); [reflexivity|].
  apply (bool_decide_unpack _). vm_compute. exact I.
Defined.

Lemma strcmp_equal_witness :
  exists d, strcmp (bs "OK" ++ [0]) (bs "OK" ++ [0; 3]) = Some d /\ (d = 0 <-> bs "OK" = bs "OK").
Proof.
  apply strcmp_equal; try reflexivity; apply (bool_decide_unpack _); vm_compute; exact I.
Defined.
