(* ===== verification/Queue.v ===== *)
(** * The queues of the C library (src/nuttx/libc/queue, src/nuttx/include/queue.h)

    Singly linked ([sq_*]) and doubly linked ([dq_*]) queues of caller-owned
    entries.  The entries live in a shared store, a finite map from addresses to
    links, so that an entry handed to two queues, or linked twice, is seen as in
    the code; a dereference of an address outside the store (NULL above all) is
    undefined and the model answers [None].  An abstract queue is the list of its
    entries; the theorems say that any sequence of operations on a pair of queues
    over one store implements the same operations on two lists. *)

From S2P Require Import Prelude.

(** ** The store and the operations *)

(** A write through a pointer: the entry must exist. *)
Definition put {A} (h : gmap Z A) (p : Z) (v : A) : option (gmap Z A) :=
  _ ← h !! p; Some (<[p := v]> h).

(** [struct sq_queue_s]; a [struct sq_entry_s] is its [flink]. *)
Record sq_queue := mkSq { sq_head : Z; sq_tail : Z }.
Notation sq_heap := (gmap Z Z).

Definition sq_init : sq_queue := mkSq 0 0.

Definition sq_addfirst (node : Z) (q : sq_queue) (h : sq_heap) : option (sq_queue * sq_heap) :=
  h1 ← put h node (sq_head q);
  Some (mkSq node (if decide (sq_head q = 0) then node else sq_tail q), h1).

Definition sq_addlast (node : Z) (q : sq_queue) (h : sq_heap) : option (sq_queue * sq_heap) :=
  h1 ← put h node 0;
  if decide (sq_head q = 0) then Some (mkSq node node, h1)
  else h2 ← put h1 (sq_tail q) node; Some (mkSq (sq_head q) node, h2).

Definition sq_addafter (prev node : Z) (q : sq_queue) (h : sq_heap) : option (sq_queue * sq_heap) :=
  if decide (sq_head q = 0 \/ prev = sq_tail q) then sq_addlast node q h
  else
    n ← h !! prev;
    h1 ← put h node n;
    h2 ← put h1 prev node;
    Some (q, h2).

Definition sq_cat (q1 q2 : sq_queue) (h : sq_heap) : option (sq_queue * sq_queue * sq_heap) :=
  if decide (sq_head q2 = 0) then Some (sq_init, q1, h)
  else if decide (sq_head q1 = 0) then Some (q1, q2, h)
  else
    h1 ← put h (sq_tail q2) (sq_head q1);
    Some (sq_init, mkSq (sq_head q2) (sq_tail q1), h1).

(** The loop over [flink]; [fuel] bounds the entries visited. *)
Fixpoint count_loop (fuel : nat) (h : sq_heap) (node count : Z) : option Z :=
  match fuel with
  | O => None
  | S fuel' =>
    if decide (node = 0) then Some count
    else n ← h !! node; count_loop fuel' h n (u32 (count + 1))
  end.

Definition sq_count (q : sq_queue) (h : sq_heap) : option Z :=
  count_loop (S (size h)) h (sq_head q) 0.

Definition sq_remafter (node : Z) (q : sq_queue) (h : sq_heap) : option (Z * sq_queue * sq_heap) :=
  ret ← h !! node;
  if decide (sq_head q <> 0 /\ ret <> 0) then
    if decide (sq_tail q = ret) then
      h1 ← put h node 0;
      h2 ← put h1 ret 0;
      Some (ret, mkSq (sq_head q) node, h2)
    else
      n ← h !! ret;
      h1 ← put h node n;
      h2 ← put h1 ret 0;
      Some (ret, q, h2)
  else Some (ret, q, h).

(** [for (prev = head; prev && prev->flink != node; prev = prev->flink);] *)
Fixpoint find_prev (fuel : nat) (h : sq_heap) (prev node : Z) : option Z :=
  match fuel with
  | O => None
  | S fuel' =>
    if decide (prev = 0) then Some 0
    else
      n ← h !! prev;
      if decide (n = node) then Some prev else find_prev fuel' h n node
  end.

Definition sq_rem (node : Z) (q : sq_queue) (h : sq_heap) : option (sq_queue * sq_heap) :=
  if decide (sq_head q <> 0 /\ node <> 0) then
    if decide (node = sq_head q) then
      n ← h !! node;
      Some (mkSq n (if decide (node = sq_tail q) then 0 else sq_tail q), h)
    else
      prev ← find_prev (S (size h)) h (sq_head q) node;
      if decide (prev = 0) then Some (q, h)
      else '(_, q', h') ← sq_remafter prev q h; Some (q', h')
  else Some (q, h).

Definition sq_remfirst (q : sq_queue) (h : sq_heap) : option (Z * sq_queue * sq_heap) :=
  let ret := sq_head q in
  if decide (ret = 0) then Some (ret, q, h)
  else
    n ← h !! ret;
    h1 ← put h ret 0;
    Some (ret, mkSq n (if decide (n = 0) then 0 else sq_tail q), h1).

Definition sq_remlast (q : sq_queue) (h : sq_heap) : option (Z * sq_queue * sq_heap) :=
  let ret := sq_tail q in
  if decide (ret = 0) then Some (ret, q, h)
  else
    '(q', h') ←
      (if decide (sq_head q = sq_tail q) then Some (sq_init, h)
       else
         prev ← find_prev (S (size h)) h (sq_head q) ret;
         if decide (prev = 0) then Some (q, h)
         else h1 ← put h prev 0; Some (mkSq (sq_head q) prev, h1));
    h2 ← put h' ret 0;
    Some (ret, q', h2).

(** [struct dq_queue_s]; a [struct dq_entry_s] has both links. *)
Record dq_entry := mkDe { flink : Z; blink : Z }.
Record dq_queue := mkDq { dq_head : Z; dq_tail : Z }.
Notation dq_heap := (gmap Z dq_entry).

Definition dq_init : dq_queue := mkDq 0 0.

Definition set_flink (p v : Z) (h : dq_heap) : option dq_heap :=
  e ← h !! p; Some (<[p := mkDe v (blink e)]> h).
Definition set_blink (p v : Z) (h : dq_heap) : option dq_heap :=
  e ← h !! p; Some (<[p := mkDe (flink e) v]> h).

Definition dq_addfirst (node : Z) (q : dq_queue) (h : dq_heap) : option (dq_queue * dq_heap) :=
  h1 ← set_blink node 0 h;
  h2 ← set_flink node (dq_head q) h1;
  if decide (dq_head q = 0) then Some (mkDq node node, h2)
  else h3 ← set_blink (dq_head q) node h2; Some (mkDq node (dq_tail q), h3).

Definition dq_addlast (node : Z) (q : dq_queue) (h : dq_heap) : option (dq_queue * dq_heap) :=
  h1 ← set_flink node 0 h;
  h2 ← set_blink node (dq_tail q) h1;
  if decide (dq_head q = 0) then Some (mkDq node node, h2)
  else h3 ← set_flink (dq_tail q) node h2; Some (mkDq (dq_head q) node, h3).

Definition dq_addafter (prev node : Z) (q : dq_queue) (h : dq_heap) : option (dq_queue * dq_heap) :=
  if decide (dq_head q = 0 \/ prev = dq_tail q) then dq_addlast node q h
  else
    e ← h !! prev;
    let next := flink e in
    h1 ← set_blink node prev h;
    h2 ← set_flink node next h1;
    h3 ← set_blink next node h2;
    h4 ← set_flink prev node h3;
    Some (q, h4).

Definition dq_addbefore (next node : Z) (q : dq_queue) (h : dq_heap) : option (dq_queue * dq_heap) :=
  if decide (dq_head q = 0 \/ next = dq_head q) then dq_addfirst node q h
  else
    e ← h !! next;
    let prev := blink e in
    h1 ← set_flink node next h;
    h2 ← set_blink node prev h1;
    h3 ← set_flink prev node h2;
    h4 ← set_blink next node h3;
    Some (q, h4).

Definition dq_cat (q1 q2 : dq_queue) (h : dq_heap) : option (dq_queue * dq_queue * dq_heap) :=
  if decide (dq_head q2 = 0) then Some (dq_init, q1, h)
  else if decide (dq_head q1 = 0) then Some (q1, q2, h)
  else
    h1 ← set_flink (dq_tail q2) (dq_head q1) h;
    h2 ← set_blink (dq_head q1) (dq_tail q2) h1;
    Some (dq_init, mkDq (dq_head q2) (dq_tail q1), h2).

Definition dq_count (q : dq_queue) (h : dq_heap) : option Z :=
  count_loop (S (size h)) (flink <$> h) (dq_head q) 0.

Definition dq_rem (node : Z) (q : dq_queue) (h : dq_heap) : option (dq_queue * dq_heap) :=
  e ← h !! node;
  let prev := blink e in
  let next := flink e in
  '(hd, h1) ← (if decide (prev = 0) then Some (next, h)
               else h' ← set_flink prev next h; Some (dq_head q, h'));
  '(tl, h2) ← (if decide (next = 0) then Some (prev, h1)
               else h' ← set_blink next prev h1; Some (dq_tail q, h'));
  h3 ← set_flink node 0 h2;
  h4 ← set_blink node 0 h3;
  Some (mkDq hd tl, h4).

Definition dq_remfirst (q : dq_queue) (h : dq_heap) : option (Z * dq_queue * dq_heap) :=
  let ret := dq_head q in
  if decide (ret = 0) then Some (ret, q, h)
  else
    e ← h !! ret;
    let next := flink e in
    '(q', h1) ← (if decide (next = 0) then Some (dq_init, h)
                 else h' ← set_blink next 0 h; Some (mkDq next (dq_tail q), h'));
    h2 ← set_flink ret 0 h1;
    h3 ← set_blink ret 0 h2;
    Some (ret, q', h3).

Definition dq_remlast (q : dq_queue) (h : dq_heap) : option (Z * dq_queue * dq_heap) :=
  let ret := dq_tail q in
  if decide (ret = 0) then Some (ret, q, h)
  else
    e ← h !! ret;
    let prev := blink e in
    '(q', h1) ← (if decide (prev = 0) then Some (dq_init, h)
                 else h' ← set_flink prev 0 h; Some (mkDq (dq_head q) prev, h'));
    h2 ← set_flink ret 0 h1;
    h3 ← set_blink ret 0 h2;
    Some (ret, q', h3).

(** ** Lists as queues

    [fst_of d l] and [lst d l] are the first and last entries of [l], [d] when it
    is empty. *)

Definition fst_of (d : Z) (l : list Z) : Z := match l with [] => d | x :: _ => x end.
Fixpoint lst (d : Z) (l : list Z) : Z := match l with [] => d | x :: l' => lst x l' end.

Lemma lst_app d l1 l2 : lst d (l1 ++ l2) = lst (lst d l1) l2.
Proof. revert d; induction l1; simpl; auto. Qed.

Lemma fst_of_app d l1 l2 : fst_of d (l1 ++ l2) = fst_of (fst_of d l2) l1.
Proof. destruct l1; done. Qed.

Lemma lst_in d l : lst d l = d \/ lst d l ∈ l.
Proof.
  revert d; induction l as [|x l IH]; simpl; [by left|]. intros d. right.
  destruct (IH x) as [-> | H]; set_solver.
Qed.

Lemma fst_of_in d l : fst_of d l = d \/ fst_of d l ∈ l.
Proof. destruct l; simpl; [by left | right; set_solver]. Qed.

Lemma lst_ne x y l : x ∉ y :: l -> x <> lst y l.
Proof. intros H ->. apply H. destruct (lst_in y l) as [-> | Hl]; [left | by right]. Qed.

Lemma lst_in_cons d x l : lst d (x :: l) ∈ x :: l.
Proof. simpl. destruct (lst_in x l) as [-> |]; set_solver. Qed.

(** The entries after the first [p], and the list operations the queues
    implement. *)
Fixpoint insert_after (p node : Z) (l : list Z) : list Z :=
  match l with
  | [] => []
  | x :: l' => if decide (x = p) then x :: node :: l' else x :: insert_after p node l'
  end.
Fixpoint insert_before (p node : Z) (l : list Z) : list Z :=
  match l with
  | [] => []
  | x :: l' => if decide (x = p) then node :: x :: l' else x :: insert_before p node l'
  end.
Definition remove_node (node : Z) (l : list Z) : list Z := filter (fun x => x <> node) l.
Fixpoint node_after (p : Z) (l : list Z) : Z :=
  match l with
  | [] => 0
  | x :: l' => if decide (x = p) then fst_of 0 l' else node_after p l'
  end.

Lemma split_at (p : Z) (l : list Z) : NoDup l -> p ∈ l -> exists l1 l2, l = l1 ++ p :: l2 /\ p ∉ l1 /\ p ∉ l2.
Proof.
  intros Hn Hp. apply list_elem_of_split in Hp as (l1 & l2 & ->). exists l1, l2.
  apply NoDup_app in Hn as (_ & H1 & H2). apply NoDup_cons in H2 as [H2 _]. set_solver.
Qed.

Lemma insert_after_split p node l1 l2 : p ∉ l1 ->
  insert_after p node (l1 ++ p :: l2) = l1 ++ p :: node :: l2.
Proof.
  induction l1 as [|x l1 IH]; simpl; intros H; [by rewrite decide_True|].
  rewrite decide_False by set_solver. rewrite IH; set_solver.
Qed.

Lemma insert_before_split p node l1 l2 : p ∉ l1 ->
  insert_before p node (l1 ++ p :: l2) = l1 ++ node :: p :: l2.
Proof.
  induction l1 as [|x l1 IH]; simpl; intros H; [by rewrite decide_True|].
  rewrite decide_False by set_solver. rewrite IH; set_solver.
Qed.

Lemma node_after_split p l1 l2 : p ∉ l1 -> node_after p (l1 ++ p :: l2) = fst_of 0 l2.
Proof.
  induction l1 as [|x l1 IH]; simpl; intros H; [by rewrite decide_True|].
  rewrite decide_False by set_solver. apply IH; set_solver.
Qed.

Lemma remove_node_notin node l : node ∉ l -> remove_node node l = l.
Proof.
  induction l as [|x l IH]; [done|]. intros H. unfold remove_node. rewrite filter_cons_True by set_solver.
  f_equal. apply IH. set_solver.
Qed.

Lemma remove_node_split node l1 l2 : node ∉ l1 -> node ∉ l2 ->
  remove_node node (l1 ++ node :: l2) = l1 ++ l2.
Proof.
  intros H1 H2. unfold remove_node. rewrite filter_app, filter_cons_False by naive_solver.
  f_equal; by apply remove_node_notin.
Qed.

(** [h'] differs from [h] at the entries of [S] at most, and has the same entries. *)
Record only_at {A} (S : list Z) (h h' : gmap Z A) : Prop := {
  only_dom : dom h' = dom h;
  only_same p : p ∉ S -> h' !! p = h !! p
}.

Lemma only_at_refl {A} S (h : gmap Z A) : only_at S h h.
Proof. done. Qed.

Lemma only_at_insert {A} S (h0 h : gmap Z A) p v :
  only_at S h0 h -> p ∈ S -> is_Some (h !! p) -> only_at S h0 (<[p := v]> h).
Proof.
  intros [Hd Hl] Hp Hs. split.
  - rewrite dom_insert_L, <- Hd. apply elem_of_dom in Hs. set_solver.
  - intros q Hq. rewrite lookup_insert_ne by set_solver. auto.
Qed.

Lemma only_at_put {A} S (h : gmap Z A) p v : p ∈ S -> is_Some (h !! p) -> only_at S h (<[p := v]> h).
Proof. intros. by apply only_at_insert. Qed.

Lemma only_at_put2 {A} S (h : gmap Z A) p v p' v' : p ∈ S -> p' ∈ S -> is_Some (h !! p) -> is_Some (h !! p') ->
  only_at S h (<[p' := v']> (<[p := v]> h)).
Proof.
  intros. apply only_at_insert; [by apply only_at_put|done|].
  destruct (decide (p = p')) as [-> |]; [rewrite lookup_insert_eq | rewrite lookup_insert_ne by done]; eauto.
Qed.

Lemma only_at_is_Some {A} S (h h' : gmap Z A) p : only_at S h h' -> is_Some (h !! p) -> is_Some (h' !! p).
Proof. intros [Hd _] H. apply elem_of_dom. rewrite Hd. by apply elem_of_dom. Qed.

Lemma only_at_mono {A} S S' (h h' : gmap Z A) : only_at S h h' -> S ⊆ S' -> only_at S' h h'.
Proof. intros [Hd Hl] HS. split; [done|]. intros p Hp. apply Hl. set_solver. Qed.

Lemma size_bound {A} (h : gmap Z A) (l : list Z) :
  NoDup l -> (forall p, p ∈ l -> is_Some (h !! p)) -> (length l <= size h)%nat.
Proof.
  intros Hn Hl. rewrite <- (size_dom h), <- (size_list_to_set (C := gset Z) l) by done.
  apply subseteq_size. intros p Hp. apply elem_of_dom, Hl. by apply elem_of_list_to_set in Hp.
Qed.

(** ** Singly linked queues

    [sseg h l e]: the store links the entries of [l] one after the other and the
    last one to [e]. *)

Fixpoint sseg (h : sq_heap) (l : list Z) (e : Z) : Prop :=
  match l with
  | [] => True
  | x :: l' => x <> 0 /\ h !! x = Some (fst_of e l') /\ sseg h l' e
  end.

Lemma sseg_app h l1 l2 e : sseg h (l1 ++ l2) e <-> sseg h l1 (fst_of e l2) /\ sseg h l2 e.
Proof.
  induction l1 as [|x l1 IH]; simpl; [tauto|]. rewrite IH, fst_of_app. tauto.
Qed.

Lemma sseg_frame h h' l e : (forall p, p ∈ l -> h' !! p = h !! p) -> sseg h l e -> sseg h' l e.
Proof.
  induction l as [|x l IH]; simpl; [done|]. intros Hf (Hx & Hl & H).
  split_and!; [done| |apply IH; [|done]; set_solver]. rewrite Hf; set_solver.
Qed.

Lemma sseg_insert h l e p v : p ∉ l -> sseg h l e -> sseg (<[p := v]> h) l e.
Proof. intros Hp. apply sseg_frame. intros q Hq. apply lookup_insert_ne. set_solver. Qed.

Lemma sseg_alloc h l e p : sseg h l e -> p ∈ l -> p <> 0 /\ is_Some (h !! p).
Proof.
  induction l as [|x l IH]; simpl; [set_solver|]. intros (Hx & Hl & H) [-> | Hp]%elem_of_cons; eauto.
Qed.

Lemma sseg_lookup h l1 x l2 e : sseg h (l1 ++ x :: l2) e -> x <> 0 /\ h !! x = Some (fst_of e l2).
Proof. intros [_ (Hx & Hl & _)]%sseg_app. done. Qed.

Definition sq_rep (h : sq_heap) (q : sq_queue) (l : list Z) : Prop :=
  sq_head q = fst_of 0 l /\ sq_tail q = lst 0 l /\ sseg h l 0 /\ NoDup l.

Lemma sq_rep_init h : sq_rep h sq_init [].
Proof. split_and!; simpl; auto using NoDup_nil_2. Qed.

Lemma sq_rep_frame h h' q l : (forall p, p ∈ l -> h' !! p = h !! p) -> sq_rep h q l -> sq_rep h' q l.
Proof. intros Hf (? & ? & H & ?). split_and!; eauto using sseg_frame. Qed.

Lemma sq_rep_head h q l : sq_rep h q l -> (sq_head q = 0 <-> l = []).
Proof. intros (-> & _ & H & _). destruct l; simpl in *; naive_solver. Qed.

Lemma sq_rep_tail h q l : sq_rep h q l -> (sq_tail q = 0 <-> l = []).
Proof.
  intros (_ & -> & H & _). destruct l as [|x l]; [done|].
  destruct (sseg_alloc _ _ _ (lst 0 (x :: l)) H (lst_in_cons _ _ _)). naive_solver.
Qed.

Lemma put_ok {A} (h : gmap Z A) p v : is_Some (h !! p) -> put h p v = Some (<[p := v]> h).
Proof. unfold put. intros [x ->]. done. Qed.

Lemma snoc_inv {A} (l : list A) : l = [] \/ exists l' x, l = l' ++ [x].
Proof. destruct l using rev_ind; eauto. Qed.

(** The step of a proof about an operation: resolve the writes, then the shape of
    the list in the new store. *)
Ltac alloc := (eassumption || (eexists; eassumption) ||
  (rewrite lookup_insert_is_Some'; first [left; reflexivity | right; alloc])).
Ltac seg_ok :=
  repeat first
    [ progress simpl | apply sseg_insert; [set_solver|] | assumption
    | match goal with |- _ /\ _ => split end
    | rewrite lookup_insert_eq | rewrite lookup_insert_ne by set_solver | done ].

Lemma sq_addfirst_rep h q l node : sq_rep h q l -> node <> 0 -> node ∉ l -> is_Some (h !! node) ->
  exists q' h', sq_addfirst node q h = Some (q', h') /\ sq_rep h' q' (node :: l) /\ only_at (node :: l) h h'.
Proof.
  intros R H0 Hn Ha. unfold sq_addfirst. rewrite put_ok by done. simpl. do 2 eexists. split; [done|].
  destruct R as (Eh & Et & Hs & Hd). split; [split_and!|].
  - done.
  - simpl. rewrite Eh, Et. destruct l as [|x l']; simpl; [done|].
    rewrite decide_False; [done|]. by destruct Hs.
  - rewrite Eh. seg_ok.
  - by constructor.
  - apply only_at_put; [set_solver|done].
Qed.

Lemma sq_addlast_rep h q l node : sq_rep h q l -> node <> 0 -> node ∉ l -> is_Some (h !! node) ->
  exists q' h', sq_addlast node q h = Some (q', h') /\ sq_rep h' q' (l ++ [node]) /\ only_at (node :: l) h h'.
Proof.
  intros R H0 Hn Ha. unfold sq_addlast. rewrite put_ok by done. simpl.
  pose proof (sq_rep_head _ _ _ R) as HH. destruct R as (Eh & Et & Hs & Hd).
  destruct (snoc_inv l) as [-> | (l' & x & ->)].
  - rewrite decide_True by tauto. do 2 eexists. split; [done|]. split.
    + split_and!; seg_ok. apply NoDup_singleton.
    + apply only_at_put; [set_solver|done].
  - rewrite decide_False by (rewrite HH; by destruct l').
    rewrite Et, lst_app. simpl. apply sseg_app in Hs as [Hs (Hx & Hl & _)]. simpl in *.
    rewrite put_ok by (rewrite lookup_insert_ne by set_solver; eauto). simpl.
    apply NoDup_app in Hd as (Hd1 & Hd2 & _).
    do 2 eexists. split; [done|]. split; [split_and!|].
    + simpl. rewrite Eh, !fst_of_app. done.
    + simpl. by rewrite !lst_app.
    + rewrite <- app_assoc. apply sseg_app. seg_ok.
    + rewrite NoDup_app. split_and!; [| |apply NoDup_singleton]; [|set_solver].
      rewrite NoDup_app. split_and!; [done|set_solver|apply NoDup_singleton].
    + apply only_at_put2; [set_solver..|eauto|eauto].
Qed.

Lemma sq_addafter_rep h q l prev node : sq_rep h q l -> node <> 0 -> node ∉ l -> is_Some (h !! node) -> l = [] \/ prev ∈ l ->
  exists q' h', sq_addafter prev node q h = Some (q', h') /\
    sq_rep h' q' (if decide (l = []) then [node] else insert_after prev node l) /\ only_at (node :: l) h h'.
Proof.
  intros R H0 Hn Ha Hp. unfold sq_addafter. destruct (decide (l = [])) as [El|El].
  { rewrite decide_True by (left; by apply (sq_rep_head _ _ _ R)).
    destruct (sq_addlast_rep h q l node) as (q' & h' & E & Hr & Ho); [done..|]. rewrite El in Hr. eauto. }
  destruct Hp as [|Hp]; [done|]. pose proof R as (Eh & Et & Hs & Hd).
  pose proof (split_at prev l Hd Hp) as (l1 & l2 & -> & Hp1 & Hp2).
  rewrite insert_after_split by done.
  pose proof (sq_rep_head _ _ _ R) as HH. rewrite Et. destruct l2 as [|y l2].
  - rewrite decide_True by (right; rewrite lst_app; done).
    destruct (sq_addlast_rep h q (l1 ++ [prev]) node) as (q' & h' & E & Hr & Ho); [done..|].
    exists q', h'. split_and!; [done| |done]. rewrite <- app_assoc in Hr. done.
  - assert (Hy : prev <> lst 0 (l1 ++ prev :: y :: l2)).
    { rewrite lst_app. simpl. by apply lst_ne. }
    rewrite decide_False by naive_solver.
    destruct (sseg_lookup _ _ _ _ _ Hs) as [Hp0 Hl]. rewrite Hl. simpl.
    rewrite put_ok by done. simpl. rewrite put_ok by (rewrite lookup_insert_ne by set_solver; eauto). simpl.
    do 2 eexists. split; [done|]. split; [split_and!|].
    + rewrite Eh, !fst_of_app. done.
    + rewrite Et, !lst_app. done.
    + apply sseg_app in Hs as [Hs1 Hs2]. simpl in Hs1, Hs2. destruct Hs2 as (_ & _ & Hy0 & Hly & Hs2).
      rewrite NoDup_app in Hd. destruct Hd as (_ & Hd1 & Hd2). apply NoDup_cons in Hd2 as [_ Hd2].
      apply sseg_app. seg_ok.
    + rewrite NoDup_app in Hd |- *. rewrite !NoDup_cons in *. set_solver.
    + apply only_at_put2; [set_solver..|eauto|eauto].
Qed.

Lemma count_loop_sseg fuel h l c : sseg h l 0 -> (length l < fuel)%nat -> 0 <= c < 4294967296 ->
  count_loop fuel h (fst_of 0 l) c = Some (u32 (c + Z.of_nat (length l))).
Proof.
  revert l c; induction fuel as [|fuel IH]; intros l c Hs Hf Hc; [lia|].
  destruct l as [|x l]; simpl in *.
  - rewrite Z.add_0_r. unfold u32. by rewrite Z.mod_small.
  - destruct Hs as (Hx & Hl & Hs). rewrite decide_False by done. rewrite Hl. simpl.
    rewrite IH; [|done|lia|unfold u32; apply Z.mod_pos_bound; lia]. f_equal. unfold u32.
    rewrite Zplus_mod_idemp_l. f_equal. lia.
Qed.

Lemma sq_rep_size h q l : sq_rep h q l -> (length l <= size h)%nat.
Proof. intros (_ & _ & Hs & Hd). apply size_bound; [done|]. intros p Hp. by eapply sseg_alloc. Qed.

Lemma sq_count_rep h q l : sq_rep h q l -> sq_count q h = Some (u32 (Z.of_nat (length l))).
Proof.
  intros R. pose proof (sq_rep_size _ _ _ R). destruct R as (Eh & _ & Hs & _).
  unfold sq_count. rewrite Eh. rewrite count_loop_sseg; [f_equal|done|lia|lia].
Qed.

Lemma find_prev_found fuel h l1 p node l2 e : sseg h (l1 ++ p :: node :: l2) e -> node ∉ l1 ++ [p] ->
  (length l1 < fuel)%nat -> find_prev fuel h (fst_of e (l1 ++ p :: node :: l2)) node = Some p.
Proof.
  revert fuel; induction l1 as [|x l1 IH]; intros [|fuel] Hs Hn Hf; simpl in *; try lia.
  - destruct Hs as (Hp & Hl & _). rewrite decide_False by done. rewrite Hl. simpl. by rewrite decide_True.
  - destruct Hs as (Hx & Hl & Hs). rewrite decide_False by done. rewrite Hl. simpl.
    destruct (decide _) as [E|_].
    + exfalso. destruct l1; simpl in *; set_solver.
    + apply IH; [done|set_solver|lia].
Qed.

Lemma find_prev_none fuel h l node : sseg h l 0 -> node ∉ l -> node <> 0 -> (length l < fuel)%nat ->
  find_prev fuel h (fst_of 0 l) node = Some 0.
Proof.
  revert fuel; induction l as [|x l IH]; intros [|fuel] Hs Hn H0 Hf; simpl in *; try lia; [done|].
  destruct Hs as (Hx & Hl & Hs). rewrite decide_False by done. rewrite Hl. simpl.
  rewrite decide_False; [apply IH; [done|set_solver|done|lia]|]. destruct l; simpl; set_solver.
Qed.

#[local] Arguments find_prev : simpl never.

Lemma sq_remfirst_rep h q l : sq_rep h q l ->
  exists q' h', sq_remfirst q h = Some (fst_of 0 l, q', h') /\ sq_rep h' q' (tail l) /\ only_at l h h' /\
    (forall x, fst_of 0 l = x -> x <> 0 -> h' !! x = Some 0).
Proof.
  intros R. pose proof (sq_rep_head _ _ _ R) as HH. pose proof R as (Eh & Et & Hs & Hd).
  unfold sq_remfirst. rewrite Eh. destruct l as [|x l]; simpl in *.
  { exists q, h. split_and!; [done|done|apply only_at_refl|done]. }
  destruct Hs as (Hx & Hl & Hs). rewrite decide_False by done. rewrite Hl. simpl.
  rewrite put_ok by eauto. simpl. apply NoDup_cons in Hd as [Hn Hd].
  do 2 eexists. split; [done|]. split; [split_and!; simpl|split].
  - done.
  - destruct l as [|y l]; simpl in *; [done|]. rewrite decide_False; [done|]. by destruct Hs.
  - by apply sseg_insert.
  - done.
  - apply only_at_put; [set_solver|eauto].
  - intros ? <- ?. by rewrite lookup_insert_eq.
Qed.

Lemma sq_remafter_split h q l1 p l2 : sq_rep h q (l1 ++ p :: l2) ->
  exists q' h', sq_remafter p q h = Some (fst_of 0 l2, q', h') /\ sq_rep h' q' (l1 ++ p :: tail l2) /\
    only_at (l1 ++ p :: l2) h h' /\ (forall x, fst_of 0 l2 = x -> x <> 0 -> h' !! x = Some 0).
Proof.
  intros R. pose proof (sq_rep_head _ _ _ R) as HH. pose proof R as (Eh & Et & Hs & Hd).
  unfold sq_remafter. pose proof (sseg_lookup _ _ _ _ _ Hs) as [Hp ->]. simpl.
  destruct l2 as [|y l2].
  { rewrite decide_False by (simpl; tauto). exists q, h. split_and!; [done|done|apply only_at_refl|done]. }
  apply sseg_app in Hs as (Hs1 & _ & Hlp & Hy & Hly & Hs2). simpl in Hlp, Hs1.
  rewrite decide_True by (split; [rewrite HH; by destruct l1 | done]). rewrite Et, lst_app.
  apply NoDup_app in Hd as (Hd1 & Hd2 & Hd3). rewrite !NoDup_cons in Hd3. destruct Hd3 as (Hd3 & Hd4 & Hd5).
  assert (Hpy : y <> p) by set_solver.
  assert (Hnd : NoDup (l1 ++ p :: l2)).
  { rewrite NoDup_app, NoDup_cons. split_and!; [done|set_solver|set_solver|done]. }
  assert (Hy1 : y ∉ l1) by set_solver. assert (Hp1 : p ∉ l1) by set_solver. clear Hd2.
  simpl. destruct (decide _) as [E|E].
  - assert (l2 = []) as ->. { destruct (snoc_inv l2) as [-> | (l' & z & ->)]; [done|]. exfalso.
      rewrite lst_app in E. simpl in E. set_solver. }
    rewrite put_ok by eauto. simpl. rewrite put_ok by (rewrite lookup_insert_ne by done; eauto). simpl.
    do 2 eexists. split; [done|]. split; [split_and!; simpl|split].
    + by rewrite Eh, !fst_of_app.
    + by rewrite lst_app.
    + apply sseg_app. seg_ok.
    + done.
    + apply only_at_put2; [set_solver..|eauto|eauto].
    + intros ? <- ?. by rewrite lookup_insert_eq.
  - rewrite Hly. simpl. rewrite put_ok by eauto. simpl.
    rewrite put_ok by (rewrite lookup_insert_ne by done; eauto). simpl.
    do 2 eexists. split; [done|]. split; [split_and!; simpl|split].
    + by rewrite Eh, !fst_of_app.
    + rewrite Et, !lst_app. simpl. destruct l2; done.
    + apply sseg_app. seg_ok.
    + done.
    + apply only_at_put2; [set_solver..|eauto|eauto].
    + intros ? <- ?. by rewrite lookup_insert_eq.
Qed.

Lemma sseg_nonzero h l e : sseg h l e -> 0 ∉ l.
Proof. intros Hs H. by destruct (sseg_alloc _ _ _ _ Hs H). Qed.

Lemma remove_after l1 p l2 : NoDup (l1 ++ p :: l2) -> 0 ∉ l1 ++ p :: l2 ->
  remove_node (fst_of 0 l2) (l1 ++ p :: l2) = l1 ++ p :: tail l2.
Proof.
  intros Hn H0. destruct l2 as [|y l2]; [by apply remove_node_notin|]. simpl.
  rewrite (cons_middle p l1), (cons_middle p l1 l2), !(app_assoc _ [p]). apply remove_node_split.
  - rewrite NoDup_app, !NoDup_cons in Hn. set_solver.
  - rewrite NoDup_app, !NoDup_cons in Hn. set_solver.
Qed.

Lemma sq_remafter_rep h q l p : sq_rep h q l -> p ∈ l ->
  exists q' h', sq_remafter p q h = Some (node_after p l, q', h') /\
    sq_rep h' q' (remove_node (node_after p l) l) /\ only_at l h h'.
Proof.
  intros R Hp. pose proof R as (_ & _ & Hs & Hd).
  destruct (split_at p l Hd Hp) as (l1 & l2 & -> & Hp1 & Hp2).
  destruct (sq_remafter_split _ _ _ _ _ R) as (q' & h' & E & Hr & Ho & _).
  rewrite node_after_split by done. rewrite remove_after by eauto using sseg_nonzero. eauto 6.
Qed.

Lemma sq_rem_rep h q l node : sq_rep h q l ->
  exists q' h', sq_rem node q h = Some (q', h') /\ sq_rep h' q' (remove_node node l) /\ only_at l h h'.
Proof.
  intros R. pose proof (sq_rep_head _ _ _ R) as HH. pose proof (sq_rep_size _ _ _ R) as Hz.
  pose proof R as (Eh & Et & Hs & Hd). pose proof (sseg_nonzero _ _ _ Hs) as H0. unfold sq_rem.
  destruct (decide (sq_head q <> 0 /\ node <> 0)) as [[Hh Hn0]|C].
  2: { exists q, h. split_and!; [done| |apply only_at_refl]. rewrite remove_node_notin; [done|].
       intros Hin. apply C. split; [|by intros ->]. rewrite HH. intros ->. set_solver. }
  destruct l as [|x l]; [naive_solver|]. rewrite Eh. simpl. pose proof Hs as (Hx & Hl & Hs').
  pose proof Hd as [Hxl Hd']%NoDup_cons. destruct (decide (node = x)) as [-> |Hne].
  - rewrite Hl. simpl. do 2 eexists. split; [done|].
    change (x :: l) with ([] ++ x :: l) at 1. rewrite remove_node_split by set_solver. split; [split_and!; simpl|apply only_at_refl]; [done| |done|done].
    rewrite Et. simpl. destruct l as [|y l]; simpl; [by rewrite decide_True|].
    rewrite decide_False; [done|]. by apply lst_ne.
  - destruct (decide (node ∈ x :: l)) as [Hin|Hin].
    + destruct (split_at node _ Hd Hin) as (l1 & l2 & E & Hn1 & Hn2).
      destruct (snoc_inv l1) as [-> | (l' & p & ->)]; [naive_solver|].
      rewrite E in *. rewrite remove_node_split by done. rewrite <- !app_assoc in *. simpl in *.
      pose proof (f_equal (fst_of 0) E) as E'. simpl in E'. rewrite E'.
      rewrite (find_prev_found _ _ _ _ _ _ 0); [|done|done|rewrite length_app in Hz; simpl in *; lia]. simpl.
      rewrite decide_False by set_solver.
      destruct (sq_remafter_split _ _ _ _ _ R) as (q' & h' & Er & Hr & Ho & _). rewrite Er. simpl. eauto.
    + rewrite (find_prev_none _ _ (x :: l)); [|done|done|done|lia]. simpl.
      rewrite remove_node_notin by done. exists q, h. split_and!; [done|done|apply only_at_refl].
Qed.

Lemma sq_remlast_rep h q l : sq_rep h q l ->
  exists q' h', sq_remlast q h = Some (lst 0 l, q', h') /\ sq_rep h' q' (removelast l) /\ only_at l h h'.
Proof.
  intros R. pose proof (sq_rep_size _ _ _ R) as Hz. pose proof R as (Eh & Et & Hs & Hd).
  pose proof (sseg_nonzero _ _ _ Hs) as H0. unfold sq_remlast. rewrite Et.
  destruct (snoc_inv l) as [-> | (l1 & z & ->)].
  { exists q, h. split_and!; [done|done|apply only_at_refl]. }
  rewrite lst_app, removelast_last. simpl. rewrite decide_False by set_solver.
  destruct (snoc_inv l1) as [-> | (l' & p & ->)].
  - rewrite decide_True by done. simpl in *. rewrite put_ok by naive_solver. simpl.
    do 2 eexists. split_and!; [done|apply sq_rep_init|]. apply only_at_put; [set_solver|naive_solver].
  - rewrite <- app_assoc in *. simpl in *. rewrite decide_False.
    2: { rewrite Eh. destruct l' as [|x l']; simpl in *; [rewrite NoDup_cons in Hd|rewrite NoDup_cons in Hd]; set_solver. }
    rewrite Eh, (find_prev_found _ _ _ _ _ _ 0); [|done| |rewrite length_app in Hz; simpl in *; lia].
    2: { rewrite NoDup_app, !NoDup_cons in Hd. set_solver. }
    simpl. rewrite decide_False by set_solver. apply sseg_app in Hs as (Hs1 & Hp & Hlp & Hz0 & Hlz & _). simpl in *.
    rewrite NoDup_app, !NoDup_cons in Hd. destruct Hd as (Hd1 & Hd2 & Hd3 & _).
    rewrite put_ok by eauto. simpl. rewrite put_ok by (rewrite lookup_insert_ne by set_solver; eauto). simpl.
    do 2 eexists. split; [done|]. split; [split_and!; simpl|apply only_at_put2; [set_solver..|eauto|eauto]].
    + by rewrite !fst_of_app.
    + by rewrite lst_app.
    + apply sseg_app. seg_ok.
    + rewrite NoDup_app. split_and!; [done|set_solver|apply NoDup_singleton].
Qed.

Lemma sq_cat_rep h q1 q2 l1 l2 : sq_rep h q1 l1 -> sq_rep h q2 l2 -> (forall p, p ∈ l1 -> p ∉ l2) ->
  exists q1' q2' h', sq_cat q1 q2 h = Some (q1', q2', h') /\
    sq_rep h' q1' [] /\ sq_rep h' q2' (l2 ++ l1) /\ only_at l2 h h'.
Proof.
  intros R1 R2 Hdis. pose proof (sq_rep_head _ _ _ R1) as H1. pose proof (sq_rep_head _ _ _ R2) as H2.
  unfold sq_cat. destruct (decide (sq_head q2 = 0)) as [E2|E2].
  { rewrite H2 in E2. subst l2. do 3 eexists. split_and!; [done|apply sq_rep_init|done|apply only_at_refl]. }
  destruct (decide (sq_head q1 = 0)) as [E1|E1].
  { rewrite H1 in E1. subst l1. rewrite app_nil_r. do 3 eexists. split_and!; [done..|apply only_at_refl]. }
  destruct (snoc_inv l2) as [-> | (l2' & z & ->)]; [naive_solver|].
  pose proof R1 as (Eh1 & Et1 & Hs1 & Hd1). pose proof R2 as (Eh2 & Et2 & Hs2 & Hd2).
  apply sseg_app in Hs2 as (Hs2 & Hz & Hlz & _). simpl in *. rewrite Et2, lst_app. simpl.
  rewrite put_ok by eauto. simpl. assert (z ∉ l2').
  { rewrite NoDup_app in Hd2. set_solver. }
  do 3 eexists. split; [done|]. split; [apply sq_rep_init|]. split; [split_and!; simpl|].
  - rewrite Eh2, !fst_of_app. done.
  - rewrite Et1, !lst_app. destruct l1; [naive_solver|done].
  - rewrite <- app_assoc. apply sseg_app. simpl. split; [seg_ok|]. split; [done|].
    rewrite lookup_insert_eq, Eh1. split; [done|]. apply sseg_insert; [set_solver|done].
  - rewrite NoDup_app. split_and!; [done|set_solver|done].
  - apply only_at_put; [set_solver|eauto].
Qed.

(** ** Doubly linked queues

    [dseg h b l e]: the entries of [l] are linked in both directions, from [b] on
    the left to [e] on the right. *)

Fixpoint dseg (h : dq_heap) (b : Z) (l : list Z) (e : Z) : Prop :=
  match l with
  | [] => True
  | x :: l' => x <> 0 /\ h !! x = Some (mkDe (fst_of e l') b) /\ dseg h x l' e
  end.

Lemma dseg_app h b l1 l2 e :
  dseg h b (l1 ++ l2) e <-> dseg h b l1 (fst_of e l2) /\ dseg h (lst b l1) l2 e.
Proof.
  revert b; induction l1 as [|x l1 IH]; simpl; intros b; [tauto|]. rewrite IH, fst_of_app. tauto.
Qed.

Lemma dseg_frame h h' b l e : (forall p, p ∈ l -> h' !! p = h !! p) -> dseg h b l e -> dseg h' b l e.
Proof.
  revert b; induction l as [|x l IH]; simpl; [done|]. intros b Hf (Hx & Hl & H).
  split_and!; [done| |apply IH; [|done]; set_solver]. rewrite Hf; set_solver.
Qed.

Lemma dseg_insert h b l e p v : p ∉ l -> dseg h b l e -> dseg (<[p := v]> h) b l e.
Proof. intros Hp. apply dseg_frame. intros q Hq. apply lookup_insert_ne. set_solver. Qed.

Lemma dseg_alloc h b l e p : dseg h b l e -> p ∈ l -> p <> 0 /\ is_Some (h !! p).
Proof.
  revert b; induction l as [|x l IH]; simpl; [set_solver|].
  intros b (Hx & Hl & H) [-> | Hp]%elem_of_cons; eauto.
Qed.

Definition dq_rep (h : dq_heap) (q : dq_queue) (l : list Z) : Prop :=
  dq_head q = fst_of 0 l /\ dq_tail q = lst 0 l /\ dseg h 0 l 0 /\ NoDup l.

Lemma dq_rep_init h : dq_rep h dq_init [].
Proof. split_and!; simpl; auto using NoDup_nil_2. Qed.

Lemma dq_rep_frame h h' q l : (forall p, p ∈ l -> h' !! p = h !! p) -> dq_rep h q l -> dq_rep h' q l.
Proof. intros Hf (? & ? & H & ?). split_and!; eauto using dseg_frame. Qed.

Lemma dq_rep_head h q l : dq_rep h q l -> (dq_head q = 0 <-> l = []).
Proof. intros (-> & _ & H & _). destruct l; simpl in *; naive_solver. Qed.

Lemma set_flink_ok p v h e : h !! p = Some e -> set_flink p v h = Some (<[p := mkDe v (blink e)]> h).
Proof. unfold set_flink. by intros ->. Qed.

Lemma set_blink_ok p v h e : h !! p = Some e -> set_blink p v h = Some (<[p := mkDe (flink e) v]> h).
Proof. unfold set_blink. by intros ->. Qed.

Lemma NoDup_split2 l1 (p y : Z) l2 : NoDup (l1 ++ p :: y :: l2) ->
  p <> y /\ p ∉ l1 /\ p ∉ l2 /\ y ∉ l1 /\ y ∉ l2.
Proof. rewrite NoDup_app, !NoDup_cons. set_solver. Qed.

Ltac dq_look :=
  repeat first [rewrite lookup_insert_eq | rewrite lookup_insert_ne by (assumption || congruence || set_solver)];
  first [eassumption | reflexivity].
Ltac dq_sets := repeat (first [erewrite set_flink_ok by dq_look | erewrite set_blink_ok by dq_look]; simpl).
Ltac dseg_ok :=
  repeat first
    [ progress simpl | apply dseg_insert; [set_solver|] | assumption
    | match goal with |- _ /\ _ => split end
    | rewrite lookup_insert_eq | rewrite lookup_insert_ne by (assumption || congruence || set_solver) | done ].
Ltac only_ok :=
  repeat (apply only_at_insert; [|set_solver|eexists; dq_look]); apply only_at_refl.

Lemma dq_addfirst_rep h q l node : dq_rep h q l -> node <> 0 -> node ∉ l -> is_Some (h !! node) ->
  exists q' h', dq_addfirst node q h = Some (q', h') /\ dq_rep h' q' (node :: l) /\ only_at (node :: l) h h'.
Proof.
  intros R H0 Hn [e He]. pose proof (dq_rep_head _ _ _ R) as HH. destruct R as (Eh & Et & Hs & Hd).
  unfold dq_addfirst. dq_sets. destruct l as [|x l].
  - rewrite decide_True by tauto. do 2 eexists. split; [done|]. split; [split_and!; simpl|only_ok]; try done.
    + rewrite Eh. dseg_ok.
    + apply NoDup_singleton.
  - rewrite decide_False by naive_solver. rewrite Eh. simpl in *. destruct Hs as (Hx & Hl & Hs).
    assert (node <> x) by set_solver. apply NoDup_cons in Hd as [Hd1 Hd2]. dq_sets.
    do 2 eexists. split; [done|]. split; [split_and!; simpl|only_ok]; try done.
    + dseg_ok.
    + rewrite !NoDup_cons. done.
Qed.

Lemma dq_addlast_rep h q l node : dq_rep h q l -> node <> 0 -> node ∉ l -> is_Some (h !! node) ->
  exists q' h', dq_addlast node q h = Some (q', h') /\ dq_rep h' q' (l ++ [node]) /\ only_at (node :: l) h h'.
Proof.
  intros R H0 Hn [e He]. pose proof (dq_rep_head _ _ _ R) as HH. destruct R as (Eh & Et & Hs & Hd).
  unfold dq_addlast. dq_sets. destruct (snoc_inv l) as [-> | (l' & x & ->)].
  - rewrite decide_True by tauto. do 2 eexists. split; [done|]. split; [split_and!; simpl|only_ok]; try done.
    + rewrite Et. dseg_ok.
    + apply NoDup_singleton.
  - rewrite decide_False by (rewrite HH; by destruct l'). rewrite Et, lst_app. simpl in *.
    apply dseg_app in Hs as (Hs & Hx & Hl & _). simpl in *.
    assert (node <> x) by set_solver. apply NoDup_app in Hd as (Hd1 & Hd2 & _). dq_sets.
    do 2 eexists. split; [done|]. split; [split_and!; simpl|only_ok].
    + by rewrite Eh, !fst_of_app.
    + by rewrite lst_app.
    + rewrite <- app_assoc. apply dseg_app. dseg_ok.
    + rewrite !NoDup_app. split_and!; [done|set_solver|apply NoDup_singleton|set_solver|apply NoDup_singleton].
Qed.

(** A node linked between two neighbours. *)
Lemma dq_link_middle h h' q l1 p y l2 node : dq_rep h q (l1 ++ p :: y :: l2) ->
  node <> 0 -> node ∉ l1 ++ p :: y :: l2 ->
  h' !! p = Some (mkDe node (lst 0 l1)) -> h' !! node = Some (mkDe y p) ->
  h' !! y = Some (mkDe (fst_of 0 l2) node) ->
  (forall x, x ∉ [p; node; y] -> h' !! x = h !! x) -> dq_rep h' q (l1 ++ p :: node :: y :: l2).
Proof.
  intros (Eh & Et & Hs & Hd) H0 Hn Hp Hnode Hy Hf.
  pose proof (NoDup_split2 _ _ _ _ Hd) as (? & ? & ? & ? & ?).
  apply dseg_app in Hs as (Hs1 & Hp0 & _ & Hy0 & _ & Hs2). simpl in *. split_and!.
  - by rewrite Eh, !fst_of_app.
  - by rewrite Et, !lst_app.
  - apply dseg_app. simpl. split_and!; try done.
    + eapply dseg_frame; [|done]. intros x Hx. apply Hf. set_solver.
    + eapply dseg_frame; [|done]. intros x Hx. apply Hf. set_solver.
  - rewrite NoDup_app, !NoDup_cons in *. set_solver.
Qed.

Ltac dq_mid :=
  first [dq_look | intros ? ?; rewrite ?lookup_insert_ne by set_solver; done].

Lemma dq_addafter_rep h q l prev node : dq_rep h q l ->
  node <> 0 -> node ∉ l -> is_Some (h !! node) -> l = [] \/ prev ∈ l ->
  exists q' h', dq_addafter prev node q h = Some (q', h') /\
    dq_rep h' q' (if decide (l = []) then [node] else insert_after prev node l) /\ only_at (node :: l) h h'.
Proof.
  intros R H0 Hn Ha Hp. unfold dq_addafter. pose proof (dq_rep_head _ _ _ R) as HH.
  destruct (decide (l = [])) as [El|El].
  { rewrite decide_True by tauto.
    destruct (dq_addlast_rep h q l node) as (q' & h' & E & Hr & Ho); [done..|]. rewrite El in Hr. eauto. }
  destruct Hp as [|Hp]; [done|]. pose proof R as (Eh & Et & Hs & Hd).
  destruct (split_at prev l Hd Hp) as (l1 & l2 & -> & Hp1 & Hp2).
  rewrite insert_after_split by done. destruct l2 as [|y l2].
  - rewrite decide_True by (right; rewrite Et, lst_app; done).
    destruct (dq_addlast_rep h q (l1 ++ [prev]) node) as (q' & h' & E & Hr & Ho); [done..|].
    exists q', h'. split_and!; [done| |done]. rewrite <- app_assoc in Hr. done.
  - rewrite decide_False.
    2: { rewrite HH, Et, lst_app. simpl. pose proof (lst_in y l2). set_solver. }
    pose proof (NoDup_split2 _ _ _ _ Hd) as (? & ? & ? & ? & ?). destruct Ha as [e He].
    apply dseg_app in Hs as (Hs1 & Hp0 & Hl & Hy0 & Hly & Hs2). simpl in *. rewrite Hl. simpl.
    assert (node <> prev) by set_solver. assert (node <> y) by set_solver. dq_sets.
    do 2 eexists. split; [done|]. split; [|only_ok].
    eapply dq_link_middle; [done..|dq_mid|dq_mid|dq_mid|dq_mid].
Qed.

Lemma dq_addbefore_rep h q l next node : dq_rep h q l ->
  node <> 0 -> node ∉ l -> is_Some (h !! node) -> l = [] \/ next ∈ l ->
  exists q' h', dq_addbefore next node q h = Some (q', h') /\
    dq_rep h' q' (if decide (l = []) then [node] else insert_before next node l) /\ only_at (node :: l) h h'.
Proof.
  intros R H0 Hn Ha Hp. unfold dq_addbefore. pose proof (dq_rep_head _ _ _ R) as HH.
  destruct (decide (l = [])) as [El|El].
  { rewrite decide_True by tauto.
    destruct (dq_addfirst_rep h q l node) as (q' & h' & E & Hr & Ho); [done..|]. rewrite El in Hr. eauto. }
  destruct Hp as [|Hp]; [done|]. pose proof R as (Eh & Et & Hs & Hd).
  destruct (split_at next l Hd Hp) as (l1 & l2 & -> & Hp1 & Hp2).
  rewrite insert_before_split by done. destruct (snoc_inv l1) as [-> | (l' & p & ->)].
  - rewrite decide_True by (right; rewrite Eh; done).
    destruct (dq_addfirst_rep h q (next :: l2) node) as (q' & h' & E & Hr & Ho); [done..|]. eauto.
  - rewrite <- app_assoc in *. simpl in *. rewrite decide_False.
    2: { rewrite HH, Eh, fst_of_app. destruct l'; simpl; set_solver. }
    pose proof (NoDup_split2 _ _ _ _ Hd) as (? & ? & ? & ? & ?). destruct Ha as [e He].
    apply dseg_app in Hs as (Hs1 & Hp0 & Hl & Hy0 & Hly & Hs2). simpl in *. rewrite Hly. simpl.
    assert (node <> p) by set_solver. assert (node <> next) by set_solver. dq_sets.
    do 2 eexists. split; [done|]. rewrite <- app_assoc. split; [|only_ok].
    simpl. eapply dq_link_middle; [done..|dq_mid|dq_mid|dq_mid|dq_mid].
Qed.

(** A node unlinked: its neighbours are linked with each other. *)
Lemma dq_unlink h h' q q' l1 node l2 : dq_rep h q (l1 ++ node :: l2) ->
  dq_head q' = fst_of 0 (l1 ++ l2) -> dq_tail q' = lst 0 (l1 ++ l2) ->
  (forall l p, l1 = l ++ [p] -> h' !! p = Some (mkDe (fst_of 0 l2) (lst 0 l))) ->
  (forall y l, l2 = y :: l -> h' !! y = Some (mkDe (fst_of 0 l) (lst 0 l1))) ->
  (forall x, x <> node -> x <> lst 0 l1 -> x <> fst_of 0 l2 -> h' !! x = h !! x) -> dq_rep h' q' (l1 ++ l2).
Proof.
  intros (Eh & Et & Hs & Hd) Hh Ht Hp Hy Hf.
  rewrite NoDup_app, NoDup_cons in Hd. destruct Hd as (Hd1 & Hd2 & Hd3 & Hd4).
  split_and!; [done|done| |rewrite NoDup_app; set_solver].
  apply dseg_app in Hs as (Hs1 & Hn0 & Hl & Hs2). apply dseg_app. split.
  - destruct (snoc_inv l1) as [-> | (l & p & ->)]; [done|].
    apply dseg_app in Hs1 as (Hs1 & Hp0 & _). apply dseg_app. simpl. split_and!; [|done|by apply Hp|done].
    rewrite NoDup_app in Hd1. rewrite lst_app in Hf. simpl in Hf.
    eapply dseg_frame; [|done]. intros x Hx. apply Hf; [set_solver..|].
    pose proof (dseg_alloc _ _ _ _ _ Hs1 Hx). destruct l2; simpl; set_solver.
  - destruct l2 as [|y l2]; [done|]. simpl in *. destruct Hs2 as (Hy0 & Hly & Hs2).
    split_and!; [done|by apply Hy|]. rewrite NoDup_cons in Hd4.
    eapply dseg_frame; [|done]. intros x Hx. apply Hf; [set_solver| |set_solver].
    pose proof (dseg_alloc _ _ _ _ _ Hs2 Hx). pose proof (lst_in 0 l1). set_solver.
Qed.

Ltac dq_unlinked :=
  eapply dq_unlink; [eassumption|simpl|simpl| | |];
  [ | |intros ? ? E; first [by destruct (app_cons_not_nil _ _ _ E) | apply app_inj_tail in E as [<- <-]; dq_look]
   |intros ? ? E; first [discriminate E | injection E as <- <-; rewrite ?lst_app; simpl; dq_look]
   |simpl; rewrite ?lst_app; simpl; intros; rewrite !lookup_insert_ne by congruence; done].

Lemma dq_rem_split h q l1 node l2 : dq_rep h q (l1 ++ node :: l2) ->
  exists q' h', dq_rem node q h = Some (q', h') /\ dq_rep h' q' (l1 ++ l2) /\ only_at (l1 ++ node :: l2) h h'.
Proof.
  intros R. pose proof R as (Eh & Et & Hs & Hd). rewrite NoDup_app, NoDup_cons in Hd.
  destruct Hd as (Hd1 & Hd2 & Hd3 & Hd4).
  apply dseg_app in Hs as (Hs1 & Hn0 & Hl & Hs2). unfold dq_rem. rewrite Hl. simpl.
  destruct (snoc_inv l1) as [-> | (l' & p & ->)].
  - simpl in *. destruct l2 as [|y l2]; simpl in *; dq_sets.
    + do 2 eexists. split; [done|]. split; [|only_ok]. apply (dq_rep_frame h); [set_solver|]. apply dq_rep_init.
    + destruct Hs2 as (Hy0 & Hly & Hs2). rewrite decide_False by done. assert (node <> y) by set_solver. dq_sets.
      do 2 eexists. split; [done|]. split; [|only_ok]. change (y :: l2) with ([] ++ y :: l2).
      dq_unlinked; [done|]. by rewrite Et.
  - rewrite lst_app in *. simpl in *. apply dseg_app in Hs1 as (Hs1 & Hp0 & Hlp & _). simpl in *.
    assert (node <> p) by set_solver. rewrite decide_False by done. dq_sets.
    destruct l2 as [|y l2]; simpl in *; dq_sets.
    + do 2 eexists. split; [done|]. split; [|only_ok].
      dq_unlinked; [by rewrite Eh, app_nil_r, !fst_of_app | by rewrite app_nil_r, lst_app].
    + destruct Hs2 as (Hy0 & Hly & Hs2). rewrite decide_False by done.
      assert (node <> y) by set_solver. assert (p <> y) by set_solver. dq_sets.
      do 2 eexists. split; [done|]. split; [|only_ok].
      dq_unlinked; [by rewrite Eh, !fst_of_app | by rewrite Et, !lst_app].
Qed.

Lemma dq_rem_rep h q l node : dq_rep h q l -> node ∈ l ->
  exists q' h', dq_rem node q h = Some (q', h') /\ dq_rep h' q' (remove_node node l) /\ only_at l h h'.
Proof.
  intros R Hn. pose proof R as (_ & _ & _ & Hd). destruct (split_at node l Hd Hn) as (l1 & l2 & -> & H1 & H2).
  rewrite remove_node_split by done. by apply dq_rem_split.
Qed.

Lemma dq_remfirst_rep h q l : dq_rep h q l ->
  exists q' h', dq_remfirst q h = Some (fst_of 0 l, q', h') /\ dq_rep h' q' (tail l) /\ only_at l h h'.
Proof.
  intros R. pose proof R as (Eh & Et & Hs & Hd). unfold dq_remfirst. rewrite Eh.
  destruct l as [|x l]; simpl in *. { exists q, h. split_and!; [done|done|apply only_at_refl]. }
  destruct Hs as (Hx & Hl & Hs). rewrite decide_False by done. rewrite Hl. simpl.
  apply NoDup_cons in Hd as [Hd1 Hd2]. destruct l as [|y l]; simpl in *; dq_sets.
  - do 2 eexists. split; [done|]. split; [|only_ok]. apply dq_rep_init.
  - destruct Hs as (Hy0 & Hly & Hs2). rewrite decide_False by done. assert (x <> y) by set_solver. dq_sets.
    do 2 eexists. split; [done|]. split; [|only_ok]. change (y :: l) with ([] ++ y :: l).
    dq_unlinked; [done|]. by rewrite Et.
Qed.

Lemma dq_remlast_rep h q l : dq_rep h q l ->
  exists q' h', dq_remlast q h = Some (lst 0 l, q', h') /\ dq_rep h' q' (removelast l) /\ only_at l h h'.
Proof.
  intros R. pose proof R as (Eh & Et & Hs & Hd). unfold dq_remlast. rewrite Et.
  destruct (snoc_inv l) as [-> | (l1 & z & ->)].
  { exists q, h. split_and!; [done|done|apply only_at_refl]. }
  rewrite lst_app, removelast_last. apply dseg_app in Hs as (Hs & Hz & Hlz & _). simpl in *.
  rewrite decide_False by done. rewrite Hlz. simpl. rewrite NoDup_app in Hd. destruct Hd as (Hd1 & Hd2 & _).
  destruct (snoc_inv l1) as [-> | (l' & p & ->)].
  - simpl in *. dq_sets. do 2 eexists. split; [done|]. split; [|only_ok]. apply dq_rep_init.
  - rewrite lst_app in *. simpl in *. apply dseg_app in Hs as (Hs1 & Hp0 & Hlp & _). simpl in *.
    assert (z <> p) by set_solver. rewrite decide_False by done. dq_sets.
    do 2 eexists. split; [done|]. split; [|only_ok]. rewrite <- (app_nil_r (l' ++ [p])).
    dq_unlinked; [by rewrite Eh, app_nil_r, !fst_of_app | by rewrite app_nil_r, lst_app].
Qed.

Lemma dseg_sseg h b l e : dseg h b l e -> sseg (flink <$> h) l e.
Proof.
  revert b; induction l as [|x l IH]; simpl; [done|]. intros b (Hx & Hl & Hs).
  split_and!; [done|by rewrite lookup_fmap, Hl|eauto].
Qed.

Lemma dq_count_rep h q l : dq_rep h q l -> dq_count q h = Some (u32 (Z.of_nat (length l))).
Proof.
  intros (Eh & _ & Hs & Hd). unfold dq_count. rewrite Eh. rewrite count_loop_sseg; [done|by eapply dseg_sseg| |lia].
  apply Nat.lt_succ_r, size_bound; [done|]. intros p Hp. by eapply dseg_alloc.
Qed.

Lemma dq_cat_rep h q1 q2 l1 l2 : dq_rep h q1 l1 -> dq_rep h q2 l2 -> (forall p, p ∈ l1 -> p ∉ l2) ->
  exists q1' q2' h', dq_cat q1 q2 h = Some (q1', q2', h') /\
    dq_rep h' q1' [] /\ dq_rep h' q2' (l2 ++ l1) /\ only_at (l1 ++ l2) h h'.
Proof.
  intros R1 R2 Hdis. pose proof (dq_rep_head _ _ _ R1) as H1. pose proof (dq_rep_head _ _ _ R2) as H2.
  unfold dq_cat. destruct (decide (dq_head q2 = 0)) as [E2|E2].
  { rewrite H2 in E2. subst l2. do 3 eexists. split_and!; [done|apply dq_rep_init|done|apply only_at_refl]. }
  destruct (decide (dq_head q1 = 0)) as [E1|E1].
  { rewrite H1 in E1. subst l1. rewrite app_nil_r. do 3 eexists. split_and!; [done..|apply only_at_refl]. }
  destruct (snoc_inv l2) as [-> | (l2' & z & ->)]; [naive_solver|]. destruct l1 as [|y l1]; [naive_solver|].
  pose proof R1 as (Eh1 & Et1 & Hs1 & Hd1). pose proof R2 as (Eh2 & Et2 & Hs2 & Hd2).
  apply dseg_app in Hs2 as (Hs2 & Hz & Hlz & _). simpl in *. destruct Hs1 as (Hy & Hly & Hs1).
  rewrite Et2, lst_app, Eh1. simpl. assert (z <> y) by set_solver.
  assert (z ∉ l2') by (rewrite NoDup_app in Hd2; set_solver). assert (y ∉ l1) by (rewrite NoDup_cons in Hd1; tauto).
  dq_sets. do 3 eexists. split; [done|]. split; [apply dq_rep_init|]. split; [split_and!; simpl|only_ok].
  - rewrite Eh2, !fst_of_app. done.
  - by rewrite Et1, !lst_app.
  - rewrite <- app_assoc. apply dseg_app. dseg_ok.
  - rewrite NoDup_app. split_and!; [done|set_solver|done].
Qed.

(** ** Programs over a pair of queues

    A program is a sequence of operations on two queues over one store; its
    meaning on lists is [abs_steps], which stops at an operation whose
    precondition fails (adding an entry that is not allocated or is already in
    one of the queues, naming a neighbour that is not in the queue). *)

Inductive q_op :=
  | AddFirst (node : Z) | AddLast (node : Z) | AddAfter (prev node : Z) | AddBefore (next node : Z)
  | RemFirst | RemLast | RemAfter (node : Z) | Rem (node : Z) | Count.
Inductive q_step := On (second : bool) (op : q_op) | Cat (to_second : bool).

Definition new_node (op : q_op) : list Z :=
  match op with
  | AddFirst node | AddLast node | AddAfter _ node | AddBefore _ node => [node]
  | _ => []
  end.

Definition abs_op (op : q_op) (l : list Z) : option (Z * list Z) :=
  match op with
  | AddFirst node => Some (0, node :: l)
  | AddLast node => Some (0, l ++ [node])
  | AddAfter prev node =>
    if decide (l = []) then Some (0, [node])
    else if decide (prev ∈ l) then Some (0, insert_after prev node l) else None
  | AddBefore next node =>
    if decide (l = []) then Some (0, [node])
    else if decide (next ∈ l) then Some (0, insert_before next node l) else None
  | RemFirst => Some (fst_of 0 l, tail l)
  | RemLast => Some (lst 0 l, removelast l)
  | RemAfter node => if decide (node ∈ l) then Some (node_after node l, remove_node (node_after node l) l) else None
  | Rem node => if decide (node ∈ l) then Some (0, remove_node node l) else None
  | Count => Some (u32 (Z.of_nat (length l)), l)
  end.

Definition sel {A} (second : bool) (p : A * A) : A := if second then p.2 else p.1.
Definition upd {A} (second : bool) (x : A) (p : A * A) : A * A := if second then (p.1, x) else (x, p.2).

Definition abs_step (N : gset Z) (s : q_step) (ls : list Z * list Z) : option (Z * (list Z * list Z)) :=
  match s with
  | On i op =>
    if decide (Forall (fun n => n ∈ N /\ n ∉ ls.1 ++ ls.2) (new_node op))
    then '(r, l') ← abs_op op (sel i ls); Some (r, upd i l' ls)
    else None
  | Cat i => Some (0, upd i (sel i ls ++ sel (negb i) ls) (upd (negb i) [] ls))
  end.

Fixpoint abs_steps (N : gset Z) (ss : list q_step) (ls : list Z * list Z) : option (list Z * (list Z * list Z)) :=
  match ss with
  | [] => Some ([], ls)
  | s :: ss' =>
    '(r, ls') ← abs_step N s ls;
    '(rs, ls'') ← abs_steps N ss' ls';
    Some (r :: rs, ls'')
  end.

(** What a queue implementation with entries [E] offers, and what it promises. *)
Class Queue (Q E : Type) := {
  q_init : Q;
  q_exec : q_op -> Q -> gmap Z E -> option (Z * Q * gmap Z E);
  q_cat : Q -> Q -> gmap Z E -> option (Q * Q * gmap Z E);
  q_offers : q_op -> bool;
  q_rep : gmap Z E -> Q -> list Z -> Prop
}.
Class QueueLaws (Q E : Type) {I : Queue Q E} : Prop := {
  q_rep_init h : q_rep h q_init [];
  q_rep_frame h h' q l : (forall p, p ∈ l -> h' !! p = h !! p) -> q_rep h q l -> q_rep h' q l;
  q_exec_refines h q l op r l' : q_rep h q l -> q_offers op = true ->
    Forall (fun n => n <> 0 /\ n ∉ l /\ is_Some (h !! n)) (new_node op) -> abs_op op l = Some (r, l') ->
    exists q' h', q_exec op q h = Some (r, q', h') /\ q_rep h' q' l' /\ only_at (new_node op ++ l) h h';
  q_cat_refines h q1 q2 l1 l2 : q_rep h q1 l1 -> q_rep h q2 l2 -> (forall p, p ∈ l1 -> p ∉ l2) ->
    exists q1' q2' h', q_cat q1 q2 h = Some (q1', q2', h') /\
      q_rep h' q1' [] /\ q_rep h' q2' (l2 ++ l1) /\ only_at (l1 ++ l2) h h'
}.

Section Programs.
Context {Q E : Type} {I : Queue Q E} {QL : QueueLaws Q E}.

Definition q_step_run (s : q_step) (st : (Q * Q) * gmap Z E) : option (Z * ((Q * Q) * gmap Z E)) :=
  match s with
  | On i op =>
    '(r, q', h') ← q_exec op (sel i (st.1)) (st.2);
    Some (r, (upd i q' (st.1), h'))
  | Cat i =>
    '(q1, q2, h') ← q_cat (sel (negb i) (st.1)) (sel i (st.1)) (st.2);
    Some (0, (upd i q2 (upd (negb i) q1 (st.1)), h'))
  end.

Fixpoint q_steps_run (ss : list q_step) (st : (Q * Q) * gmap Z E) : option (list Z * ((Q * Q) * gmap Z E)) :=
  match ss with
  | [] => Some ([], st)
  | s :: ss' =>
    '(r, st') ← q_step_run s st;
    '(rs, st'') ← q_steps_run ss' st';
    Some (r :: rs, st'')
  end.

Definition offered (s : q_step) : bool := match s with On _ op => q_offers op | Cat _ => true end.

(** The two queues are represented in the store, and share no entry. *)
Record pair_rep (N : gset Z) (st : (Q * Q) * gmap Z E) (ls : list Z * list Z) : Prop := {
  pr_fst : q_rep (st.2) (st.1.1) (ls.1);
  pr_snd : q_rep (st.2) (st.1.2) (ls.2);
  pr_disj p : p ∈ ls.1 -> p ∉ ls.2;
  pr_dom : dom (st.2) = N
}.

Lemma abs_op_elem op l r l' p : abs_op op l = Some (r, l') -> p ∈ l' -> p ∈ new_node op ++ l.
Proof.
  assert (Ha : forall a n m, p ∈ insert_after a n m -> p = n \/ p ∈ m).
  { intros a n m. induction m as [|x m IH]; simpl; [set_solver|]. destruct (decide _); set_solver. }
  assert (Hb : forall a n m, p ∈ insert_before a n m -> p = n \/ p ∈ m).
  { intros a n m. induction m as [|x m IH]; simpl; [set_solver|]. destruct (decide _); set_solver. }
  assert (Hl : p ∈ removelast l -> p ∈ l).
  { destruct (snoc_inv l) as [-> | (? & ? & ->)]; [done|]. rewrite removelast_last. set_solver. }
  assert (Ht : p ∈ tail l -> p ∈ l) by (destruct l; set_solver).
  assert (Hr : forall n, p ∈ remove_node n l -> p ∈ l) by (intros n; unfold remove_node; rewrite list_elem_of_filter; tauto).
  destruct op; simpl; intros Eo Hp; repeat case_decide; simplify_eq; try (set_solver || naive_solver).
Qed.

Lemma q_step_refines N s st ls r ls' : 0 ∉ N -> pair_rep N st ls -> offered s = true ->
  abs_step N s ls = Some (r, ls') ->
  exists st', q_step_run s st = Some (r, st') /\ pair_rep N st' ls'.
Proof.
  intros H0 [R1 R2 Hd Hdom] Ho Ea. destruct st as [[q1 q2] h], ls as [l1 l2]. simpl in *.
  destruct s as [i op|i]; simpl in *.
  - destruct (decide _) as [Hn|]; [|done]. apply bind_Some in Ea as ([r' l'] & Eo & [= <- <-]).
    assert (Hnew : forall l : list Z, (forall p, p ∈ l -> p ∈ l1 ++ l2) ->
              Forall (fun n => n <> 0 /\ n ∉ l /\ is_Some (h !! n)) (new_node op)).
    { intros l Hl. eapply Forall_impl; [exact Hn|]. simpl. intros n [HnN Hnl]. split_and!; [by intros ->|eauto|].
      apply elem_of_dom. by rewrite Hdom. }
    assert (Hout : forall p, p ∈ new_node op -> p ∉ l1 ++ l2).
    { intros p Hp. rewrite Forall_forall in Hn. by apply Hn. }
    pose proof (fun p => abs_op_elem _ _ _ _ p Eo) as He.
    destruct i; simpl in *.
    + destruct (q_exec_refines h q2 l2 op r' l') as (q' & h' & E1 & Hr & [Hd' Hl']); [done..|apply Hnew; set_solver|done|].
      rewrite E1. simpl. eexists. split; [done|]. split; simpl; [|done| |congruence].
      * eapply q_rep_frame; [|done]. intros p Hp. apply Hl'. set_solver.
      * intros p Hp Hp'. set_solver.
    + destruct (q_exec_refines h q1 l1 op r' l') as (q' & h' & E1 & Hr & [Hd' Hl']); [done..|apply Hnew; set_solver|done|].
      rewrite E1. simpl. eexists. split; [done|]. split; simpl; [done| | |congruence].
      * eapply q_rep_frame; [|done]. intros p Hp. apply Hl'. set_solver.
      * intros p Hp Hp'. set_solver.
  - injection Ea as <- <-. destruct i; simpl.
    + destruct (q_cat_refines h q1 q2 l1 l2) as (q1' & q2' & h' & -> & Hr1 & Hr2 & [Hd' _]); [done..|].
      simpl. eexists. split; [done|]. split; simpl; [done|done|set_solver|congruence].
    + destruct (q_cat_refines h q2 q1 l2 l1) as (q1' & q2' & h' & -> & Hr1 & Hr2 & [Hd' _]); [done|done|set_solver|].
      simpl. eexists. split; [done|]. split; simpl; [done|done|set_solver|congruence].
Qed.

Lemma q_steps_refine N ss st ls rs ls' : 0 ∉ N -> pair_rep N st ls -> forallb offered ss = true ->
  abs_steps N ss ls = Some (rs, ls') ->
  exists st', q_steps_run ss st = Some (rs, st') /\ pair_rep N st' ls'.
Proof.
  intros H0. revert st ls rs ls'. induction ss as [|s ss IH]; simpl; intros st ls rs ls' R Ho Ea.
  { simplify_eq. eauto. }
  apply andb_prop in Ho as [Ho1 Ho2].
  apply bind_Some in Ea as ([r ls1] & E1 & Ea). apply bind_Some in Ea as ([rs1 ls2] & E2 & Ea). simplify_eq.
  destruct (q_step_refines _ _ _ _ _ _ H0 R Ho1 E1) as (st1 & -> & R1). simpl.
  destruct (IH _ _ _ _ R1 Ho2 E2) as (st2 & -> & R2). simpl. eauto.
Qed.

Lemma pair_rep_init h : pair_rep (dom h) ((q_init, q_init), h) ([], []).
Proof. split; simpl; auto using q_rep_init. set_solver. Qed.

End Programs.

(** The operations of [sq_*]; there is no insertion before an entry. *)
Definition sq_exec (op : q_op) (q : sq_queue) (h : sq_heap) : option (Z * sq_queue * sq_heap) :=
  match op with
  | AddFirst node => '(q', h') ← sq_addfirst node q h; Some (0, q', h')
  | AddLast node => '(q', h') ← sq_addlast node q h; Some (0, q', h')
  | AddAfter prev node => '(q', h') ← sq_addafter prev node q h; Some (0, q', h')
  | AddBefore _ _ => None
  | RemFirst => sq_remfirst q h
  | RemLast => sq_remlast q h
  | RemAfter node => sq_remafter node q h
  | Rem node => '(q', h') ← sq_rem node q h; Some (0, q', h')
  | Count => n ← sq_count q h; Some (n, q, h)
  end.

(** The operations of [dq_*]; there is no removal after an entry. *)
Definition dq_exec (op : q_op) (q : dq_queue) (h : dq_heap) : option (Z * dq_queue * dq_heap) :=
  match op with
  | AddFirst node => '(q', h') ← dq_addfirst node q h; Some (0, q', h')
  | AddLast node => '(q', h') ← dq_addlast node q h; Some (0, q', h')
  | AddAfter prev node => '(q', h') ← dq_addafter prev node q h; Some (0, q', h')
  | AddBefore next node => '(q', h') ← dq_addbefore next node q h; Some (0, q', h')
  | RemFirst => dq_remfirst q h
  | RemLast => dq_remlast q h
  | RemAfter _ => None
  | Rem node => '(q', h') ← dq_rem node q h; Some (0, q', h')
  | Count => n ← dq_count q h; Some (n, q, h)
  end.

#[export] Instance sq_impl : Queue sq_queue Z := {|
  q_init := sq_init; q_exec := sq_exec; q_cat := sq_cat; q_rep := sq_rep;
  q_offers op := match op with AddBefore _ _ => false | _ => true end
|}.
#[export] Instance dq_impl : Queue dq_queue dq_entry := {|
  q_init := dq_init; q_exec := dq_exec; q_cat := dq_cat; q_rep := dq_rep;
  q_offers op := match op with RemAfter _ => false | _ => true end
|}.

(** Closes a law of an instance with the lemma about the operation. *)
Ltac q_law lem :=
  edestruct lem as (? & ? & -> & ? & ?); [eassumption|try naive_solver..|];
  simpl; do 2 eexists; split_and!; [reflexivity|eassumption|eapply only_at_mono; [eassumption|set_solver]].

#[export] Instance sq_laws : QueueLaws sq_queue Z.
Proof.
  split; [apply sq_rep_init|apply sq_rep_frame| |].
  - intros h q l op r l' R Ho Hn Ea. destruct op; simpl in *; rewrite ?Forall_singleton in Hn.
    + simplify_eq. q_law sq_addfirst_rep.
    + simplify_eq. q_law sq_addlast_rep.
    + pose proof (sq_addafter_rep h q l prev node) as Hs.
      destruct (decide (l = [])); [|case_decide; [|done]]; simplify_eq; q_law Hs.
    + done.
    + simplify_eq. destruct (sq_remfirst_rep h q l R) as (? & ? & -> & ? & ? & _). eauto 6.
    + simplify_eq. q_law sq_remlast_rep.
    + case_decide; [|done]. simplify_eq. q_law sq_remafter_rep.
    + case_decide; [|done]. simplify_eq. q_law sq_rem_rep.
    + simplify_eq. erewrite sq_count_rep by done. simpl. do 2 eexists. split_and!; [done|done|apply only_at_refl].
  - intros h q1 q2 l1 l2 R1 R2 Hd. simpl in *.
    destruct (sq_cat_rep h q1 q2 l1 l2) as (q1' & q2' & h' & -> & ? & ? & ?); [done..|].
    do 3 eexists. split_and!; [done..|]. eapply only_at_mono; [done|set_solver].
Qed.

#[export] Instance dq_laws : QueueLaws dq_queue dq_entry.
Proof.
  split; [apply dq_rep_init|apply dq_rep_frame| |].
  - intros h q l op r l' R Ho Hn Ea. destruct op; simpl in *; rewrite ?Forall_singleton in Hn.
    + simplify_eq. q_law dq_addfirst_rep.
    + simplify_eq. q_law dq_addlast_rep.
    + pose proof (dq_addafter_rep h q l prev node) as Hs.
      destruct (decide (l = [])); [|case_decide; [|done]]; simplify_eq; q_law Hs.
    + pose proof (dq_addbefore_rep h q l next node) as Hs.
      destruct (decide (l = [])); [|case_decide; [|done]]; simplify_eq; q_law Hs.
    + simplify_eq. q_law dq_remfirst_rep.
    + simplify_eq. q_law dq_remlast_rep.
    + done.
    + case_decide; [|done]. simplify_eq. q_law dq_rem_rep.
    + simplify_eq. erewrite dq_count_rep by done. simpl. do 2 eexists. split_and!; [done|done|apply only_at_refl].
  - intros h q1 q2 l1 l2 R1 R2 Hd. simpl in *. by apply dq_cat_rep.
Qed.

(** C31: On singly linked queues, every sequence of additions, removals, counts and
    concatenations over two queues that start empty runs to its end with no
    dereference of a pointer that is not an entry, returns the results that the
    same operations return on two lists, and leaves in the store two well-formed
    queues with exactly the entries of those lists, in their order. *)
Theorem sq_programs (h : sq_heap) (ss : list q_step) (rs : list Z) (ls : list Z * list Z) :
  h !! 0 = None -> forallb (offered (I := sq_impl)) ss = true ->
  abs_steps (dom h) ss ([], []) = Some (rs, ls) ->
  exists q1 q2 h', q_steps_run (I := sq_impl) ss ((sq_init, sq_init), h) = Some (rs, ((q1, q2), h')) /\
    sq_rep h' q1 (ls.1) /\ sq_rep h' q2 (ls.2).
Proof.
  intros H0 Ho Ea. destruct (q_steps_refine (QL := sq_laws) (dom h) ss ((sq_init, sq_init), h) ([], []) rs ls)
    as ([[q1 q2] h'] & E & [R1 R2 _ _]); [by apply not_elem_of_dom|apply (pair_rep_init (QL := sq_laws))|done|done|eauto 6].
Qed.

(** C32: On doubly linked queues, every sequence of additions, removals, counts and
    concatenations over two queues that start empty runs to its end with no
    dereference of a pointer that is not an entry, returns the results that the
    same operations return on two lists, and leaves in the store two well-formed
    queues, linked in both directions, with exactly the entries of those lists. *)
Theorem dq_programs (h : dq_heap) (ss : list q_step) (rs : list Z) (ls : list Z * list Z) :
  h !! 0 = None -> forallb (offered (I := dq_impl)) ss = true ->
  abs_steps (dom h) ss ([], []) = Some (rs, ls) ->
  exists q1 q2 h', q_steps_run (I := dq_impl) ss ((dq_init, dq_init), h) = Some (rs, ((q1, q2), h')) /\
    dq_rep h' q1 (ls.1) /\ dq_rep h' q2 (ls.2).
Proof.
  intros H0 Ho Ea. destruct (q_steps_refine (QL := dq_laws) (dom h) ss ((dq_init, dq_init), h) ([], []) rs ls)
    as ([[q1 q2] h'] & E & [R1 R2 _ _]); [by apply not_elem_of_dom|apply (pair_rep_init (QL := dq_laws))|done|done|eauto 6].
Qed.

(** ** Witnesses *)

Definition sample_steps (extra : q_op) : list q_step :=
  [On false (AddLast 4); On false (AddFirst 8); On false (AddAfter 8 12); On true (AddLast 16);
   On true extra; On false Count; Cat false; On false (Rem 12); On false RemLast; On true RemFirst; On false RemFirst].

Lemma sq_programs_witness :
  exists q1 q2 h', q_steps_run (I := sq_impl) (sample_steps (RemAfter 16))
    ((sq_init, sq_init), list_to_map [(4, 0); (8, 0); (12, 0); (16, 0); (20, 0)])
    = Some ([0; 0; 0; 0; 0; 3; 0; 0; 16; 0; 8], ((q1, q2), h')) /\ sq_rep h' q1 [4] /\ sq_rep h' q2 [].
Proof.
  apply (sq_programs (list_to_map [(4, 0); (8, 0); (12, 0); (16, 0); (20, 0)])
           (sample_steps (RemAfter 16)) [0; 0; 0; 0; 0; 3; 0; 0; 16; 0; 8] ([4], [])); vm_compute; reflexivity.
Defined.

Lemma dq_programs_witness :
  exists q1 q2 h', q_steps_run (I := dq_impl) (sample_steps (AddBefore 16 20))
    ((dq_init, dq_init), list_to_map ((fun p => (p, mkDe 0 0)) <$> [4; 8; 12; 16; 20]))
    = Some ([0; 0; 0; 0; 0; 3; 0; 0; 16; 0; 8], ((q1, q2), h')) /\ dq_rep h' q1 [4; 20] /\ dq_rep h' q2 [].
Proof.
  apply (dq_programs (list_to_map ((fun p => (p, mkDe 0 0)) <$> [4; 8; 12; 16; 20]))
           (sample_steps (AddBefore 16 20)) [0; 0; 0; 0; 0; 3; 0; 0; 16; 0; 8] ([4; 20], [])); vm_compute; reflexivity.
Defined.
