(* ===== verification/Wdog.v ===== *)
(** * Watchdog timers (src/nuttx/sched/wdog)

    The kernel's one-shot timers: a queue of active watchdogs ordered by expiry,
    each holding the ticks it lags behind its predecessor, a list of free
    pre-allocated watchdogs, and the timer interrupt that counts the head down
    and calls the functions that expire.  The queue is the one of Queue.v: the
    [next] field of a [struct wdog_s] is the link of its queue entry.  The
    theorems relate it to an abstract timer list that stores for every watchdog
    the ticks it has left. *)

From S2P Require Import Prelude Queue.

Definition CONFIG_MAX_WDOGPARMS : Z := 2.
Definition CONFIG_PREALLOC_WDOGS : nat := 8.
Definition CONFIG_WDOG_INTRESERVE : Z := 1.

Definition WDOGF_ACTIVE : Z := 1.
Definition WDOGF_ALLOCED : Z := 2.
Definition WDOGF_STATIC : Z := 4.

(** [struct wdog_s], without [next]. *)
Record wdog_s := mkWdog { func : Z; lag : Z; flags : Z; argc : Z; parm : list Z }.

Definition WDOG_ISACTIVE (w : wdog_s) : bool := negb (Z.land (flags w) WDOGF_ACTIVE =? 0).
Definition WDOG_ISALLOCED (w : wdog_s) : bool := negb (Z.land (flags w) WDOGF_ALLOCED =? 0).
Definition WDOG_ISSTATIC (w : wdog_s) : bool := negb (Z.land (flags w) WDOGF_STATIC =? 0).
Definition WDOG_SETACTIVE (w : wdog_s) : wdog_s :=
  mkWdog (func w) (lag w) (Z.lor (flags w) WDOGF_ACTIVE) (argc w) (parm w).
Definition WDOG_CLRACTIVE (w : wdog_s) : wdog_s :=
  mkWdog (func w) (lag w) (Z.ldiff (flags w) WDOGF_ACTIVE) (argc w) (parm w).
Definition set_lag (v : Z) (w : wdog_s) : wdog_s := mkWdog (func w) v (flags w) (argc w) (parm w).
Definition set_flags (v : Z) (w : wdog_s) : wdog_s := mkWdog (func w) (lag w) v (argc w) (parm w).
Definition set_call (f n : Z) (ps : list Z) (w : wdog_s) : wdog_s := mkWdog f (lag w) (flags w) n ps.

(** The kernel's watchdog data: the entries and their links, the two queues, the
    number of free pre-allocated watchdogs, and the interrupt mask that
    [enter_critical_section] and [leave_critical_section] save and restore. *)
Record wd := mkWd {
  links : sq_heap;
  dogs : gmap Z wdog_s;
  g_wdactivelist : sq_queue;
  g_wdfreelist : sq_queue;
  g_wdnfree : Z;
  errno : Z;
  masked : bool
}.

Definition set_active (x : sq_queue * sq_heap) (s : wd) : wd :=
  mkWd (x.2) (dogs s) (x.1) (g_wdfreelist s) (g_wdnfree s) (errno s) (masked s).
Definition set_free (x : sq_queue * sq_heap) (n : Z) (s : wd) : wd :=
  mkWd (x.2) (dogs s) (g_wdactivelist s) (x.1) n (errno s) (masked s).
Definition set_dogs (d : gmap Z wdog_s) (s : wd) : wd :=
  mkWd (links s) d (g_wdactivelist s) (g_wdfreelist s) (g_wdnfree s) (errno s) (masked s).
Definition set_links (h : sq_heap) (s : wd) : wd :=
  mkWd h (dogs s) (g_wdactivelist s) (g_wdfreelist s) (g_wdnfree s) (errno s) (masked s).
Definition set_errno (e : Z) (s : wd) : wd :=
  mkWd (links s) (dogs s) (g_wdactivelist s) (g_wdfreelist s) (g_wdnfree s) e (masked s).
Definition set_masked (b : bool) (s : wd) : wd :=
  mkWd (links s) (dogs s) (g_wdactivelist s) (g_wdfreelist s) (g_wdnfree s) (errno s) b.

Definition enter_critical_section (s : wd) : bool * wd := (masked s, set_masked true s).
Definition leave_critical_section (saved : bool) (s : wd) : wd := set_masked saved s.

(** [p->field = ...] on an existing watchdog. *)
Definition upd_dog (p : Z) (f : wdog_s -> wdog_s) (s : wd) : option wd :=
  w ← dogs s !! p; Some (set_dogs (<[p := f w]> (dogs s)) s).

(** [p->next = v]. *)
Definition upd_next (p v : Z) (s : wd) : option wd :=
  h ← put (links s) p v; Some (set_links h s).

(** ** The operations *)

(** [while (curr && curr != wdog) { prev = curr; curr = curr->next; }] *)
Fixpoint find_dog (fuel : nat) (h : sq_heap) (wdog prev curr : Z) : option (Z * Z) :=
  match fuel with
  | O => None
  | S fuel' =>
    if decide (curr = 0 \/ curr = wdog) then Some (prev, curr)
    else n ← h !! curr; find_dog fuel' h wdog curr n
  end.

(** [ASSERT(curr)] panics on NULL, which is outside the store. *)
Definition wd_cancel (wdog : Z) (s : wd) : option (Z * wd) :=
  let '(saved, s) := enter_critical_section s in
  active ← (if decide (wdog = 0) then Some false else WDOG_ISACTIVE <$> dogs s !! wdog);
  if active : bool then
    '(prev, curr) ← find_dog (S (size (links s))) (links s) wdog 0 (sq_head (g_wdactivelist s));
    next ← links s !! curr;
    s ← (if decide (next = 0) then Some s
         else c ← dogs s !! curr; upd_dog next (fun w => set_lag (s32 (lag w + lag c)) w) s);
    '(_, q, h) ← (if decide (prev = 0) then sq_remfirst (g_wdactivelist s) (links s)
                  else sq_remafter prev (g_wdactivelist s) (links s));
    let s := set_active (q, h) s in
    s ← upd_next wdog 0 s;
    s ← upd_dog wdog WDOG_CLRACTIVE s;
    Some (OK, leave_critical_section saved s)
  else Some (- EINVAL, leave_critical_section saved s).

(** [for (i = 0; i < argc; i++) wdog->parm[i] = va_arg(...)], then zeros. *)
Definition parms (n : Z) (args : list Z) : option (list Z) :=
  if decide (n <= Z.of_nat (length args))
  then Some (take (Z.to_nat n) args ++ replicate (Z.to_nat CONFIG_MAX_WDOGPARMS - Z.to_nat n) 0)
  else None.

(** [while ((now += curr->lag) < 0 && curr->next)]: advance to positive time. *)
Fixpoint advance_positive (fuel : nat) (s : wd) (now prev curr : Z) : option (Z * Z * Z) :=
  match fuel with
  | O => None
  | S fuel' =>
    w ← dogs s !! curr;
    let now := s32 (now + lag w) in
    n ← links s !! curr;
    if decide (now < 0 /\ n <> 0) then advance_positive fuel' s now curr n
    else Some (now, prev, curr)
  end.

(** [while (now <= delay && curr->next)]: advance past shorter delays. *)
Fixpoint advance_delay (fuel : nat) (s : wd) (delay now prev curr : Z) : option (Z * Z * Z) :=
  match fuel with
  | O => None
  | S fuel' =>
    n ← links s !! curr;
    if decide (now <= delay /\ n <> 0) then
      w ← dogs s !! n;
      advance_delay fuel' s delay (s32 (now + lag w)) curr n
    else Some (now, prev, curr)
  end.

(** The insertion of [wdog] into the active queue: the lag the watchdog gets, and
    the new state. *)
Definition wd_insert (wdog delay : Z) (s : wd) : option (Z * wd) :=
  let q := g_wdactivelist s in
  if decide (sq_head q = 0) then
    x ← sq_addlast wdog q (links s);
    Some (delay, set_active x s)
  else
    '(now, prev, curr) ← advance_positive (S (size (links s))) s 0 (sq_head q) (sq_head q);
    '(now, prev, curr) ← advance_delay (S (size (links s))) s delay now prev curr;
    c ← dogs s !! curr;
    if decide (delay < now) then
      let delay := s32 (delay - s32 (now - lag c)) in
      s ← upd_dog curr (fun w => set_lag (s32 (lag w - delay)) w) s;
      x ← (if decide (curr = sq_head q) then sq_addfirst wdog q (links s)
           else sq_addafter prev wdog q (links s));
      Some (delay, set_active x s)
    else
      let delay := s32 (delay - now) in
      n ← links s !! curr;
      if decide (n = 0) then
        x ← sq_addlast wdog q (links s);
        Some (delay, set_active x s)
      else
        s ← upd_dog n (fun w => set_lag (s32 (lag w - delay)) w) s;
        x ← sq_addafter curr wdog q (links s);
        Some (delay, set_active x s).

Definition wd_start (wdog delay wdentry n : Z) (args : list Z) (s : wd) : option (Z * wd) :=
  if decide (wdog = 0 \/ CONFIG_MAX_WDOGPARMS < n \/ delay < 0) then Some (ERROR, set_errno EINVAL s)
  else
    let '(saved, s) := enter_critical_section s in
    w ← dogs s !! wdog;
    s ← (if WDOG_ISACTIVE w then '(_, s') ← wd_cancel wdog s; Some s' else Some s);
    ps ← parms n args;
    s ← upd_dog wdog (set_call wdentry (u8 n) ps) s;
    let delay := if decide (delay <= 0) then 1
                 else if decide (s32 (delay + 1) <= 0) then s32 (s32 (delay + 1) - 1) else s32 (delay + 1) in
    '(delay, s) ← wd_insert wdog delay s;
    s ← upd_dog wdog (fun w => WDOG_SETACTIVE (set_lag delay w)) s;
    Some (OK, leave_critical_section saved s).

(** [for (curr = head; curr != NULL; curr = curr->next)] of [wd_gettime]. *)
Fixpoint gettime_loop (fuel : nat) (s : wd) (wdog delay curr : Z) : option Z :=
  match fuel with
  | O => None
  | S fuel' =>
    if decide (curr = 0) then Some 0
    else
      w ← dogs s !! curr;
      let delay := s32 (delay + lag w) in
      if decide (curr = wdog) then Some delay
      else n ← links s !! curr; gettime_loop fuel' s wdog delay n
  end.

Definition wd_gettime (wdog : Z) (s : wd) : option (Z * wd) :=
  let '(saved, s) := enter_critical_section s in
  active ← (if decide (wdog = 0) then Some false else WDOG_ISACTIVE <$> dogs s !! wdog);
  r ← (if active : bool
       then gettime_loop (S (size (links s))) s wdog 0 (sq_head (g_wdactivelist s)) else Some 0);
  Some (r, leave_critical_section saved s).

(** [wd_create] in ([irq]) or outside an interrupt handler; [kmm_malloc] gives for
    the existing watchdogs the block it allocates, with what the memory held. *)
Definition wd_create (kmm_malloc : gset Z -> option (Z * wdog_s)) (irq : bool) (s : wd) : option (Z * wd) :=
  let '(saved, s) := enter_critical_section s in
  if (CONFIG_WDOG_INTRESERVE <? g_wdnfree s) || irq then
    '(wdog, q, h) ← sq_remfirst (g_wdfreelist s) (links s);
    if decide (wdog = 0) then Some (wdog, leave_critical_section saved (set_free (q, h) (g_wdnfree s) s))
    else
      let s := set_free (q, h) (u16 (g_wdnfree s - 1)) s in
      s ← upd_next wdog 0 s;
      s ← upd_dog wdog (set_flags 0) s;
      Some (wdog, leave_critical_section saved s)
  else
    let s := leave_critical_section saved s in
    match kmm_malloc (dom (dogs s)) with
    | None => Some (0, s)
    | Some (wdog, w) =>
      Some (wdog, set_links (<[wdog := 0]> (links s))
                    (set_dogs (<[wdog := set_flags WDOGF_ALLOCED w]> (dogs s)) s))
    end.

(** [sched_kfree]: the watchdog leaves the store. *)
Definition sched_kfree (wdog : Z) (s : wd) : wd :=
  set_links (delete wdog (links s)) (set_dogs (delete wdog (dogs s)) s).

Definition wd_delete (wdog : Z) (s : wd) : option (Z * wd) :=
  let '(saved, s) := enter_critical_section s in
  w ← dogs s !! wdog;
  s ← (if WDOG_ISACTIVE w then '(_, s') ← wd_cancel wdog s; Some s' else Some s);
  w ← dogs s !! wdog;
  if WDOG_ISALLOCED w then Some (OK, sched_kfree wdog (leave_critical_section saved s))
  else if negb (WDOG_ISSTATIC w) then
    x ← sq_addlast wdog (g_wdfreelist s) (links s);
    let s := set_free x (u16 (g_wdnfree s + 1)) s in
    Some (OK, leave_critical_section saved s)
  else Some (OK, s).

(** [wd_recover]: the watchdog of a deleted task, [0] for none; the answer is the
    new value of [tcb->waitdog]. *)
Definition wd_recover (waitdog : Z) (s : wd) : option (Z * wd) :=
  let '(saved, s) := enter_critical_section s in
  '(waitdog, s) ← (if decide (waitdog = 0) then Some (waitdog, s)
                   else '(_, s) ← wd_cancel waitdog s;
                        '(_, s) ← wd_delete waitdog s;
                        Some (0, s));
  Some (waitdog, leave_critical_section saved s).

Section Timer.
(** The functions watchdogs call are other parts of the kernel: [call f args] is
    the effect of a call on the watchdog data. *)
Context (call : Z -> list Z -> wd -> option wd).

(** [switch (wdog->argc)]; a count that no entry takes calls nothing. *)
Definition wd_call (w : wdog_s) (s : wd) : option wd :=
  if decide (argc w = 0) then call (func w) [] s
  else if decide (argc w = 1) then p0 ← parm w !! 0%nat; call (func w) [p0] s
  else if decide (argc w = 2) then p0 ← parm w !! 0%nat; p1 ← parm w !! 1%nat; call (func w) [p0; p1] s
  else Some s.

(** The loop of [wd_expiration]. *)
Fixpoint expiration_loop (fuel : nat) (s : wd) : option wd :=
  match fuel with
  | O => None
  | S fuel' =>
    let hd := sq_head (g_wdactivelist s) in
    if decide (hd = 0) then Some s
    else
      w ← dogs s !! hd;
      if decide (lag w <= 0) then
        '(wdog, q, h) ← sq_remfirst (g_wdactivelist s) (links s);
        let s := set_active (q, h) s in
        w ← dogs s !! wdog;
        s ← (if decide (sq_head q = 0) then Some s
             else upd_dog (sq_head q) (fun n => set_lag (s32 (lag n + lag w)) n) s);
        s ← upd_dog wdog WDOG_CLRACTIVE s;
        w ← dogs s !! wdog;
        s ← wd_call w s;
        expiration_loop fuel' s
      else Some s
  end.

Definition wd_expiration (s : wd) : option wd :=
  w ← dogs s !! sq_head (g_wdactivelist s);
  if decide (lag w <= 0) then expiration_loop (S (size (links s))) s else Some s.

Definition wd_timer (s : wd) : option wd :=
  let hd := sq_head (g_wdactivelist s) in
  if decide (hd = 0) then Some s
  else s ← upd_dog hd (fun w => set_lag (s32 (lag w - 1)) w) s; wd_expiration s.

End Timer.

(** [for (i = 0; i < CONFIG_PREALLOC_WDOGS; i++) sq_addlast(wdog++, &g_wdfreelist)] *)
Fixpoint init_loop (n : nat) (wdog size : Z) (x : sq_queue * sq_heap) : option (sq_queue * sq_heap) :=
  match n with
  | O => Some x
  | S n' => x' ← sq_addlast wdog (x.1) (x.2); init_loop n' (wdog + size) size x'
  end.

(** [wd_initialize] on the pool at address [g_wdpool] with entries of [size] bytes. *)
Definition wd_initialize (g_wdpool size : Z) (s : wd) : option wd :=
  let s := set_free (sq_init, links s) (g_wdnfree s) s in
  let s := set_active (sq_init, links s) s in
  x ← init_loop CONFIG_PREALLOC_WDOGS g_wdpool size (g_wdfreelist s, links s);
  Some (set_free x (Z.of_nat CONFIG_PREALLOC_WDOGS) s).

(** ** What the watchdogs promise

    The abstract state: the active timers with the ticks each has left, in the
    order in which they expire, the free watchdogs, and where every existing
    watchdog comes from. *)

Definition INT_MAX : Z := 2147483647.

Inductive kind := Pool | Heap | Static.
#[export] Instance kind_eq_dec : EqDecision kind.
Proof. solve_decision. Defined.
Record timer := mkTimer { t_dog : Z; t_left : Z; t_func : Z; t_args : list Z }.
Record awd := mkAwd {
  timers : list timer; free : list Z; kinds : gmap Z kind; a_errno : Z; a_masked : bool
}.
Definition with_timers (l : list timer) (a : awd) : awd := mkAwd l (free a) (kinds a) (a_errno a) (a_masked a).
Definition with_masked (b : bool) (a : awd) : awd := mkAwd (timers a) (free a) (kinds a) (a_errno a) b.
Notation tdogs l := (t_dog <$> l).

(** A timer goes behind those that expire no later than it does. *)
Fixpoint insert_timer (t : timer) (l : list timer) : list timer :=
  match l with
  | [] => [t]
  | x :: l' => if decide (t_left t < t_left x) then t :: l else x :: insert_timer t l'
  end.
Definition remove_timer (d : Z) (l : list timer) : list timer := filter (fun t => t_dog t <> d) l.
Fixpoint left_of (d : Z) (l : list timer) : Z :=
  match l with
  | [] => 0
  | x :: l' => if decide (t_dog x = d) then t_left x else left_of d l'
  end.

Definition a_cancel (d : Z) (a : awd) : option (Z * awd) :=
  if decide (d <> 0 /\ d ∉ dom (kinds a)) then None
  else if decide (d ∈ tdogs (timers a)) then Some (OK, with_timers (remove_timer d (timers a)) a)
  else Some (- EINVAL, a).

(** A watchdog expires one tick after its delay, or at the largest representable time. *)
Definition a_start (d delay f : Z) (args : list Z) (a : awd) : option (Z * awd) :=
  if decide (d = 0 \/ 2 < Z.of_nat (length args) \/ delay < 0)
  then Some (ERROR, mkAwd (timers a) (free a) (kinds a) EINVAL (a_masked a))
  else if decide (d ∈ dom (kinds a) /\ d ∉ free a /\ delay <= INT_MAX)
  then Some (OK, with_timers (insert_timer (mkTimer d (Z.min (delay + 1) INT_MAX) f args)
                                           (remove_timer d (timers a))) a)
  else None.

Definition a_gettime (d : Z) (a : awd) : option (Z * awd) :=
  if decide (d <> 0 /\ d ∉ dom (kinds a)) then None else Some (left_of d (timers a), a).

Definition a_create (kmm_malloc : gset Z -> option (Z * wdog_s)) (irq : bool) (a : awd) : option (Z * awd) :=
  if (1 <? Z.of_nat (length (free a))) || irq then
    Some (fst_of 0 (free a), mkAwd (timers a) (tail (free a)) (kinds a) (a_errno a) (a_masked a))
  else
    match kmm_malloc (dom (kinds a)) with
    | None => Some (0, a)
    | Some (d, _) => Some (d, mkAwd (timers a) (free a) (<[d := Heap]> (kinds a)) (a_errno a) (a_masked a))
    end.

(** Deleting a statically allocated watchdog leaves the interrupts masked. *)
Definition a_delete (d : Z) (a : awd) : option (Z * awd) :=
  if decide (d ∈ free a) then None
  else
    k ← kinds a !! d;
    let l := remove_timer d (timers a) in
    Some (OK, match k with
              | Heap => mkAwd l (free a) (delete d (kinds a)) (a_errno a) (a_masked a)
              | Pool => mkAwd l (free a ++ [d]) (kinds a) (a_errno a) (a_masked a)
              | Static => mkAwd l (free a) (kinds a) (a_errno a) true
              end).

Definition a_recover (d : Z) (a : awd) : option (Z * awd) :=
  if decide (d = 0) then Some (0, a)
  else '(_, a') ← a_delete d a; Some (0, with_masked (a_masked a) a').

(** ** The relation between the two

    [timers_at d b l]: the watchdogs of [l] hold their calls, and each one's lag
    is what it has left more than its predecessor ([b] for the first). *)

Record dog_at (d : gmap Z wdog_s) (t : timer) (g : Z) : Prop := {
  da_args : (length (t_args t) <= 2)%nat;
  da_dog : exists fl, d !! t_dog t =
    Some (mkWdog (t_func t) g fl (Z.of_nat (length (t_args t))) (t_args t ++ replicate (2 - length (t_args t)) 0))
}.

Fixpoint timers_at (d : gmap Z wdog_s) (b : Z) (l : list timer) : Prop :=
  match l with
  | [] => True
  | t :: l' => dog_at d t (t_left t - b) /\ b <= t_left t <= INT_MAX /\ timers_at d (t_left t) l'
  end.

Definition kind_of (w : wdog_s) : kind :=
  if WDOG_ISALLOCED w then Heap else if WDOG_ISSTATIC w then Static else Pool.

Record wd_rep (pool : list Z) (s : wd) (a : awd) : Prop := {
  r_active : sq_rep (links s) (g_wdactivelist s) (tdogs (timers a));
  r_free : sq_rep (links s) (g_wdfreelist s) (free a);
  r_disj p : p ∈ tdogs (timers a) -> p ∉ free a;
  r_links : dom (links s) = dom (dogs s);
  r_null : dogs s !! 0 = None;
  r_timers : timers_at (dogs s) 0 (timers a);
  r_kinds : kinds a = kind_of <$> dogs s;
  r_flag p w : dogs s !! p = Some w -> (WDOG_ISACTIVE w = true <-> p ∈ tdogs (timers a));
  r_pool p : kinds a !! p = Some Pool -> p ∈ pool;
  r_freepool p : p ∈ free a -> kinds a !! p = Some Pool;
  r_nfree : g_wdnfree s = Z.of_nat (length (free a));
  r_errno : errno s = a_errno a;
  r_masked : masked s = a_masked a
}.

(** Equality of watchdog stores up to the lags. *)
Definition but_lags (d d' : gmap Z wdog_s) : Prop := set_lag 0 <$> d' = set_lag 0 <$> d.

Lemma but_lags_upd d p w v : d !! p = Some w -> but_lags d (<[p := set_lag v w]> d).
Proof.
  intros H. unfold but_lags. rewrite fmap_insert. apply insert_id. by rewrite lookup_fmap, H.
Qed.

Lemma but_lags_fmap {B} (f : wdog_s -> B) d d' :
  (forall w v, f (set_lag v w) = f w) -> but_lags d d' -> f <$> d' = f <$> d.
Proof.
  intros Hf E. assert (H : forall m : gmap Z wdog_s, f <$> m = f <$> (set_lag 0 <$> m)).
  { intros m. rewrite <- map_fmap_compose. apply map_fmap_ext. intros i x _. symmetry. apply Hf. }
  rewrite (H d'), (H d). by rewrite E.
Qed.

Lemma but_lags_lookup d d' p w' : but_lags d d' -> d' !! p = Some w' ->
  exists w, d !! p = Some w /\ w' = set_lag (lag w') w.
Proof.
  intros E H. pose proof (f_equal (.!! p) E) as E'. rewrite !lookup_fmap, H in E'.
  destruct (d !! p) as [w|]; [|done]. exists w. split; [done|]. injection E' as E1 E2 E3 E4.
  destruct w, w'. simpl in *. by subst.
Qed.

Lemma but_lags_dom d d' : but_lags d d' -> dom d' = dom d.
Proof. intros E. by rewrite <- (dom_fmap_L (set_lag 0) d'), E, dom_fmap_L. Qed.

(** *** Timers in a store *)

Fixpoint end_of (b : Z) (l : list timer) : Z := match l with [] => b | t :: l' => end_of (t_left t) l' end.

Lemma timers_at_app d b l1 l2 :
  timers_at d b (l1 ++ l2) <-> timers_at d b l1 /\ timers_at d (end_of b l1) l2.
Proof. revert b; induction l1; simpl; intros b; [tauto|]. rewrite IHl1. tauto. Qed.

Lemma timers_at_frame d d' b l : (forall p, p ∈ tdogs l -> d' !! p = d !! p) -> timers_at d b l -> timers_at d' b l.
Proof.
  revert b; induction l as [|t l IH]; simpl; intros b Hf; [done|]. intros ([Ha [fl Hd]] & Hb & Hl).
  split; [|split; [done|apply IH; [|done]; set_solver]].
  split; [done|]. exists fl. rewrite Hf; [done|set_solver].
Qed.

Lemma timers_at_bounds d b l t : timers_at d b l -> t ∈ l -> b <= t_left t <= INT_MAX.
Proof.
  revert b; induction l as [|x l IH]; simpl; intros b Ht Hi; [by apply elem_of_nil in Hi|].
  destruct Ht as (_ & Hb & Hl). apply elem_of_cons in Hi as [-> | Hi]; [done|].
  specialize (IH _ Hl Hi). lia.
Qed.

Lemma end_of_bounds d b l : timers_at d b l -> b <= INT_MAX -> b <= end_of b l <= INT_MAX.
Proof.
  revert b; induction l as [|x l IH]; simpl; intros b; [lia|]. intros (_ & Hb & Hl) H.
  specialize (IH _ Hl). lia.
Qed.

Lemma remove_timer_notin d l : d ∉ tdogs l -> remove_timer d l = l.
Proof.
  induction l as [|x l IH]; [done|]. intros H. unfold remove_timer. simpl in H.
  rewrite filter_cons_True by set_solver. f_equal. apply IH. set_solver.
Qed.

Lemma remove_timer_split l1 t l2 : t_dog t ∉ tdogs l1 -> t_dog t ∉ tdogs l2 ->
  remove_timer (t_dog t) (l1 ++ t :: l2) = l1 ++ l2.
Proof.
  intros H1 H2. unfold remove_timer. rewrite filter_app, filter_cons_False by naive_solver.
  f_equal; by apply remove_timer_notin.
Qed.

Lemma tdogs_remove d l : tdogs (remove_timer d l) = remove_node d (tdogs l).
Proof.
  induction l as [|x l IH]; [done|]. unfold remove_timer, remove_node. simpl.
  rewrite !filter_cons. destruct (decide (t_dog x <> d)); simpl; [f_equal|]; apply IH.
Qed.

Lemma tdogs_split d l : NoDup (tdogs l) -> d ∈ tdogs l ->
  exists l1 t l2, l = l1 ++ t :: l2 /\ d = t_dog t /\ d ∉ tdogs l1 /\ d ∉ tdogs l2.
Proof.
  intros Hn (t & -> & Ht)%list_elem_of_fmap. apply list_elem_of_split in Ht as (l1 & l2 & ->).
  exists l1, t, l2. rewrite fmap_app in Hn. simpl in Hn. rewrite NoDup_app, NoDup_cons in Hn. set_solver.
Qed.

(** Inserting behind the timers that are no later. *)
Lemma insert_timer_split t l1 l2 : Forall (fun x => t_left x <= t_left t) l1 ->
  match l2 with [] => True | x :: _ => t_left t < t_left x end -> insert_timer t (l1 ++ l2) = l1 ++ t :: l2.
Proof.
  induction l1 as [|y l1 IH]; simpl; intros H1 H2.
  - destruct l2 as [|x l2]; simpl; [done|]. by rewrite decide_True.
  - apply Forall_cons in H1 as [Hy H1]. rewrite decide_False by lia. f_equal. by apply IH.
Qed.

(** *** Flags *)

Lemma land_ldiff f a b : Z.land a b = 0 -> Z.land (Z.ldiff f a) b = Z.land f b.
Proof.
  intros H. apply Z.bits_inj'. intros n Hn. rewrite !Z.land_spec, Z.ldiff_spec.
  pose proof (f_equal (fun z => Z.testbit z n) H) as Hb. simpl in Hb. rewrite Z.land_spec, Z.bits_0 in Hb.
  destruct (Z.testbit f n), (Z.testbit a n), (Z.testbit b n); done.
Qed.

Lemma land_lor f a b : Z.land a b = 0 -> Z.land (Z.lor f a) b = Z.land f b.
Proof. intros H. by rewrite Z.land_lor_distr_l, H, Z.lor_0_r. Qed.

Lemma active_clr w : WDOG_ISACTIVE (WDOG_CLRACTIVE w) = false.
Proof.
  unfold WDOG_ISACTIVE, WDOG_CLRACTIVE, WDOGF_ACTIVE. simpl. replace (Z.land (Z.ldiff (flags w) 1) 1) with 0; [done|].
  symmetry. apply Z.bits_inj'. intros n Hn. rewrite Z.land_spec, Z.ldiff_spec, Z.bits_0.
  destruct (Z.testbit (flags w) n), (Z.testbit 1 n); done.
Qed.

Lemma active_set w : WDOG_ISACTIVE (WDOG_SETACTIVE w) = true.
Proof.
  unfold WDOG_ISACTIVE, WDOG_SETACTIVE, WDOGF_ACTIVE. simpl. rewrite Z.land_lor_distr_l.
  destruct (Z.eqb_spec (Z.lor (Z.land (flags w) 1) (Z.land 1 1)) 0) as [E|]; [|done].
  by apply Z.lor_eq_0_iff in E as [_ ?].
Qed.

Lemma kind_clr w : kind_of (WDOG_CLRACTIVE w) = kind_of w.
Proof. unfold kind_of, WDOG_ISALLOCED, WDOG_ISSTATIC. simpl. by rewrite !land_ldiff. Qed.

Lemma kind_set w : kind_of (WDOG_SETACTIVE w) = kind_of w.
Proof. unfold kind_of, WDOG_ISALLOCED, WDOG_ISSTATIC. simpl. by rewrite !land_lor. Qed.

(** *** The representation and its updates *)

Lemma rep_NoDup pool s a : wd_rep pool s a -> NoDup (tdogs (timers a)).
Proof. intros R. by destruct (r_active _ _ _ R) as (_ & _ & _ & ?). Qed.

Lemma rep_nonzero pool s a : wd_rep pool s a -> 0 ∉ tdogs (timers a).
Proof. intros R. destruct (r_active _ _ _ R) as (_ & _ & Hs & _). by eapply sseg_nonzero. Qed.

Lemma rep_masked pool s a b : wd_rep pool s a -> wd_rep pool (set_masked b s) (with_masked b a).
Proof. intros []. by split. Qed.

Lemma rep_kind pool s a d : wd_rep pool s a -> (d ∈ dom (kinds a) <-> is_Some (dogs s !! d)).
Proof. intros R. by rewrite (r_kinds _ _ _ R), dom_fmap, elem_of_dom. Qed.

Lemma rep_link pool s a d : wd_rep pool s a -> is_Some (dogs s !! d) -> is_Some (links s !! d).
Proof. intros R H. apply elem_of_dom. rewrite (r_links _ _ _ R). by apply elem_of_dom. Qed.

Lemma rep_size pool s a : wd_rep pool s a -> (length (timers a) <= size (links s))%nat.
Proof. intros R. rewrite <- (length_fmap t_dog). apply (sq_rep_size _ _ _ (r_active _ _ _ R)). Qed.

Lemma find_dog_found fuel h l1 x l2 p : sseg h (l1 ++ x :: l2) 0 -> x ∉ l1 -> (length l1 < fuel)%nat ->
  find_dog fuel h x p (fst_of 0 (l1 ++ x :: l2)) = Some (lst p l1, x).
Proof.
  revert fuel p; induction l1 as [|y l1 IH]; intros [|fuel] p Hs Hx Hf; simpl in *; try lia.
  - rewrite decide_True by auto. done.
  - destruct Hs as (Hy & Hl & Hs). rewrite decide_False by set_solver. rewrite Hl. simpl.
    apply IH; [done|set_solver|lia].
Qed.

(** The next timer inherits the lag of one that leaves the queue. *)
Lemma lag_handover d l1 t l2 : timers_at d 0 (l1 ++ t :: l2) -> NoDup (tdogs (l1 ++ t :: l2)) ->
  0 ∉ tdogs (l1 ++ t :: l2) ->
  exists d1, (if decide (fst_of 0 (tdogs l2) = 0) then Some d
              else c ← d !! t_dog t; w ← d !! fst_of 0 (tdogs l2);
                   Some (<[fst_of 0 (tdogs l2) := set_lag (s32 (lag w + lag c)) w]> d)) = Some d1 /\
    but_lags d d1 /\ d1 !! t_dog t = d !! t_dog t /\ forall w, timers_at (<[t_dog t := w]> d1) 0 (l1 ++ l2).
Proof.
  intros Ht Hn H0. rewrite fmap_app in Hn, H0. simpl in Hn, H0.
  apply timers_at_app in Ht as [H1 ([Ha [fl Hd]] & Hb & H2)].
  rewrite NoDup_app, NoDup_cons in Hn. destruct Hn as (Hn1 & Hn2 & Hn3 & Hn4).
  assert (Hx1 : t_dog t ∉ tdogs l1) by (intros Hx; apply (Hn2 _ Hx); by left).
  destruct l2 as [|u l2]; simpl in *.
  - exists d. split_and!; [done|done|done|]. intros w. rewrite app_nil_r.
    eapply timers_at_frame; [|done]. intros p Hp. apply lookup_insert_ne. by intros <-.
  - destruct H2 as ([Hua [ufl Hu]] & Hub & H2).
    assert (Hux : t_dog u <> t_dog t) by (intros E; apply Hn3; rewrite E; by left).
    rewrite decide_False by (intros E; apply H0; rewrite elem_of_app; right; right; rewrite E; by left).
    rewrite Hd, Hu. simpl. eexists. split; [done|]. split; [by apply but_lags_upd|].
    split; [by rewrite lookup_insert_ne|]. intros w. apply timers_at_app. split.
    + eapply timers_at_frame; [|done]. intros p Hp. rewrite !lookup_insert_ne; [done| |]; intros <-.
      * apply (Hn2 _ Hp). right; by left.
      * done.
    + pose proof (end_of_bounds _ _ _ H1 ltac:(done)) as Hbe.
      split; [|split; [lia|]].
      * split; [done|]. exists ufl. rewrite lookup_insert_ne by done. rewrite lookup_insert_eq. unfold set_lag. simpl.
        do 2 f_equal. rewrite s32_id; unfold INT_MAX in *; lia.
      * apply NoDup_cons in Hn4 as [Hn4 _]. eapply timers_at_frame; [|done]. intros p Hp.
        rewrite !lookup_insert_ne; [done| |]; intros <-; [done|]. apply Hn3. by right.
Qed.

(** The representation after a timer has left the active queue. *)
Lemma rep_remove pool s a l1 t l2 d1 q h w : wd_rep pool s a -> timers a = l1 ++ t :: l2 ->
  but_lags (dogs s) d1 -> d1 !! t_dog t = Some w ->
  timers_at (<[t_dog t := WDOG_CLRACTIVE w]> d1) 0 (l1 ++ l2) ->
  sq_rep h q (tdogs (l1 ++ l2)) -> only_at (tdogs (timers a)) (links s) h ->
  wd_rep pool (mkWd h (<[t_dog t := WDOG_CLRACTIVE w]> d1) q (g_wdfreelist s) (g_wdnfree s) (errno s) (masked s))
         (with_timers (l1 ++ l2) a).
Proof.
  intros R El Hbl Hw Ht Hq Ho. pose proof (rep_NoDup _ _ _ R) as Hn. destruct R as [Ra Rf Rd Rl R0 Rt Rk Rg Rp Rfp Rn Re Rm].
  pose proof (but_lags_dom _ _ Hbl) as Hdom. destruct Ho as [Hod Hos].
  assert (Hws : is_Some (d1 !! t_dog t)) by eauto.
  split; simpl; try done.
  - eapply sq_rep_frame; [|done]. intros p Hp. apply Hos. intros Hp'. by apply (Rd p).
  - intros p Hp. apply Rd. rewrite El. rewrite !fmap_app in *. simpl. set_solver.
  - rewrite dom_insert_lookup_L by done. congruence.
  - rewrite lookup_insert_ne.
    + apply not_elem_of_dom. rewrite Hdom. by apply not_elem_of_dom.
    + intros E. rewrite E in Hw. apply (but_lags_lookup _ _ _ _ Hbl) in Hw as (w' & Hw' & _). congruence.
  - rewrite fmap_insert, kind_clr, insert_id by (by rewrite lookup_fmap, Hw).
    rewrite Rk. symmetry. apply but_lags_fmap; [done|done].
  - intros p w' Hp. rewrite El, fmap_app in Hn. simpl in Hn. rewrite NoDup_app, NoDup_cons in Hn.
    rewrite fmap_app, elem_of_app. destruct (decide (p = t_dog t)) as [-> |Hne].
    + rewrite lookup_insert_eq in Hp. simplify_eq. rewrite active_clr. split; [done|]. set_solver.
    + rewrite lookup_insert_ne in Hp by done.
      destruct (but_lags_lookup _ _ _ _ Hbl Hp) as (w0 & Hw0 & ->).
      change (WDOG_ISACTIVE _) with (WDOG_ISACTIVE w0). rewrite (Rg _ _ Hw0), El, fmap_app. simpl. set_solver.
Qed.

#[local] Arguments find_dog : simpl never.

Lemma lst_zero l : 0 ∉ l -> (lst 0 l = 0 <-> l = []).
Proof. destruct l as [|x l]; [done|]. intros H. split; [|done]. intros E. by apply lst_ne in H. Qed.

Lemma active_dec pool s a d w : wd_rep pool s a -> dogs s !! d = Some w ->
  WDOG_ISACTIVE w = bool_decide (d ∈ tdogs (timers a)).
Proof.
  intros R H. pose proof (r_flag _ _ _ R _ _ H) as Hf. case_bool_decide; [tauto|].
  destruct (WDOG_ISACTIVE w); [naive_solver|done].
Qed.

(** The removal of a watchdog from the middle or the head of the active queue. *)
Lemma unlink_active h q l1 x l2 : sq_rep h q (l1 ++ x :: l2) -> 0 ∉ l1 ->
  exists y q' h', (if decide (lst 0 l1 = 0) then sq_remfirst q h else sq_remafter (lst 0 l1) q h) = Some (y, q', h') /\
    sq_rep h' q' (l1 ++ l2) /\ only_at (l1 ++ x :: l2) h h' /\ h' !! x = Some 0.
Proof.
  intros R H0. pose proof R as (_ & _ & Hs & _). destruct (sseg_lookup _ _ _ _ _ Hs) as [Hx _].
  destruct (snoc_inv l1) as [-> | (l' & p & ->)].
  - rewrite decide_True by done. destruct (sq_remfirst_rep _ _ _ R) as (q' & h' & E & Hr & Ho & Hz).
    exists x, q', h'. split_and!; [done|done|done|]. by apply Hz.
  - rewrite decide_False by (rewrite lst_zero by done; by destruct l'). rewrite lst_app. simpl.
    rewrite <- app_assoc in R. simpl in R.
    destruct (sq_remafter_split _ _ _ _ _ R) as (q' & h' & E & Hr & Ho & Hz).
    exists x, q', h'. rewrite <- !app_assoc. split_and!; [done|done|done|]. by apply Hz.
Qed.

Lemma wd_cancel_active pool s a l1 t l2 : wd_rep pool s a -> timers a = l1 ++ t :: l2 ->
  exists s', wd_cancel (t_dog t) s = Some (OK, s') /\ wd_rep pool s' (with_timers (l1 ++ l2) a).
Proof.
  intros R El. pose proof (rep_NoDup _ _ _ R) as Hn. pose proof (rep_nonzero _ _ _ R) as H0.
  pose proof (rep_size _ _ _ R) as Hz. pose proof (r_timers _ _ _ R) as Ht.
  assert (Hin : t_dog t ∈ tdogs (timers a)) by (rewrite El, fmap_app; set_solver).
  rewrite El in Ht, Hn, H0, Hz.
  destruct (lag_handover _ _ _ _ Ht Hn H0) as (d1 & Ed1 & Hbl & Hx1 & Hh).
  pose proof (r_active _ _ _ R) as Ra. rewrite El, fmap_app in Ra. csimpl in Ra.
  pose proof Ra as (Eh & _ & Hs & _).
  apply timers_at_app in Ht as [_ ([_ [fl Hw]] & _ & _)].
  rewrite fmap_app in Hn, H0. csimpl in Hn. csimpl in H0. rewrite elem_of_app in H0.
  assert (Hx0 : t_dog t <> 0) by (intros E; apply H0; right; rewrite E; by left).
  assert (Hxl : t_dog t ∉ tdogs l1).
  { rewrite NoDup_app in Hn. destruct Hn as (_ & Hn & _). intros Hx. apply (Hn _ Hx). by left. }
  destruct (unlink_active _ _ _ _ _ Ra ltac:(tauto)) as (y & q' & h' & Eu & Hq' & Ho & Hz').
  pose proof (active_dec _ _ _ _ _ R Hw) as Hact. rewrite bool_decide_true in Hact by done.
  rewrite Hw in Hx1. pose proof (Hh (WDOG_CLRACTIVE (mkWdog (t_func t) (t_left t - end_of 0 l1) fl
    (Z.of_nat (length (t_args t))) (t_args t ++ replicate (2 - length (t_args t)) 0)))) as Hh'.
  pose proof (fun Hq Hoa => rep_remove pool s a l1 t l2 d1 q' h' _ R El Hbl Hx1 Hh' Hq Hoa) as Hfin.
  rewrite El, !fmap_app in Hfin. specialize (Hfin Hq' Ho).
  assert (Hfd : find_dog (S (size (links s))) (links s) (t_dog t) 0 (sq_head (g_wdactivelist s))
                = Some (lst 0 (tdogs l1), t_dog t)).
  { rewrite Eh. apply find_dog_found; [done|done|]. rewrite length_app in Hz. rewrite length_fmap. lia. }
  destruct (sseg_lookup _ _ _ _ _ Hs) as [_ Hl]. clear - Hx0 Hw Hact Hfd Hl Ed1 Eu Hz' Hx1 Hfin.
  set (n2 := fst_of 0 (tdogs l2)) in *. set (p1 := lst 0 (tdogs l1)) in *. clearbody n2 p1.
  unfold wd_cancel. destruct s as [h d qa qf nf er mk]. simpl in *.
  rewrite decide_False by done. rewrite Hw. simpl. rewrite Hact, Hfd. simpl. rewrite Hl. simpl.
  rewrite Hw in Ed1 |- *. simpl in *. destruct (decide (n2 = 0)) as [E2|E2].
  - injection Ed1 as <-. simpl. rewrite Eu. simpl. unfold upd_next, upd_dog. simpl. rewrite put_ok by eauto. simpl.
    rewrite Hw. simpl. rewrite (insert_id h') by done. eauto.
  - unfold upd_next, upd_dog. simpl. destruct (d !! n2) as [u|] eqn:Eu2; [|done]. simpl in Ed1 |- *.
    injection Ed1 as <-. simpl. rewrite Eu. simpl. rewrite put_ok by eauto. simpl.
    rewrite Hx1. simpl. rewrite (insert_id h') by done. eauto.
Qed.

Lemma with_timers_id a : with_timers (timers a) a = a.
Proof. by destruct a. Qed.

Lemma wd_cancel_rep pool s a d r a' : wd_rep pool s a -> a_cancel d a = Some (r, a') ->
  exists s', wd_cancel d s = Some (r, s') /\ wd_rep pool s' a'.
Proof.
  intros R. unfold a_cancel. destruct (decide (d <> 0 /\ _)) as [|Hd]; [done|].
  destruct (decide (d ∈ tdogs (timers a))) as [Hin|Hin]; intros [= <- <-].
  - destruct (tdogs_split _ _ (rep_NoDup _ _ _ R) Hin) as (l1 & t & l2 & El & -> & H1 & H2).
    rewrite El, remove_timer_split by done. by apply wd_cancel_active.
  - exists s. split; [|done]. unfold wd_cancel. destruct s as [h dg qa qf nf er mk]. simpl in *.
    destruct (decide (d = 0)) as [-> |]; [done|].
    assert (Hk : d ∈ dom (kinds a)) by (destruct (decide (d ∈ dom (kinds a))); [done|naive_solver]).
    apply (rep_kind _ _ _ _ R) in Hk as [w Hw]. simpl in Hw. rewrite Hw. simpl.
    rewrite (active_dec _ _ _ _ _ R Hw), bool_decide_false by done. done.
Qed.

Lemma dog_at_lookup d t g : dog_at d t g -> exists w, d !! t_dog t = Some w /\ lag w = g.
Proof. intros [_ [fl H]]. eexists. split; [exact H|done]. Qed.

(** The walk of [wd_start] past the timers that expire no later. *)
Lemma advance_delay_spec fuel s delay l1 c l2 prev :
  sseg (links s) (tdogs (l1 ++ c :: l2)) 0 -> timers_at (dogs s) 0 (l1 ++ c :: l2) ->
  Forall (fun x => t_left x <= delay) l1 -> (length l2 < fuel)%nat -> l1 = [] \/ prev = lst 0 (tdogs l1) ->
  exists k1 e k2 prev', l1 ++ c :: l2 = k1 ++ e :: k2 /\
    advance_delay fuel s delay (t_left c) prev (t_dog c) = Some (t_left e, prev', t_dog e) /\
    Forall (fun x => t_left x <= delay) k1 /\ (k1 = [] \/ prev' = lst 0 (tdogs k1)) /\
    (delay < t_left e \/ k2 = []).
Proof.
  revert fuel l1 c prev; induction l2 as [|u l2 IH]; intros [|fuel] l1 c prev Hs Ht Hf Hl Hp; simpl in Hl; try lia.
  - exists l1, c, [], prev. split; [done|]. split; [|auto]. simpl. rewrite fmap_app in Hs. csimpl in Hs.
    destruct (sseg_lookup _ _ _ _ _ Hs) as [_ ->]. simpl. rewrite decide_False by naive_solver. done.
  - simpl. pose proof Hs as Hs'. rewrite fmap_app in Hs'. csimpl in Hs'.
    destruct (sseg_lookup _ _ _ _ _ Hs') as [_ ->]. simpl.
    assert (Hu0 : t_dog u <> 0). { apply sseg_app in Hs' as (_ & _ & _ & ? & _). done. }
    destruct (decide (t_left c <= delay /\ t_dog u <> 0)) as [[Hle _]|Hgt].
    + pose proof Ht as Ht'. apply timers_at_app in Ht' as (_ & _ & Hc & Hu & Hub & _).
      apply dog_at_lookup in Hu as (w & -> & Hg). simpl. rewrite Hg.
      pose proof (timers_at_bounds _ _ _ c Ht ltac:(set_solver)) as Hc0.
      replace (s32 (t_left c + (t_left u - t_left c))) with (t_left u)
        by (rewrite s32_id; unfold INT_MAX in *; lia).
      rewrite (cons_middle c l1), app_assoc in Hs, Ht |- *.
      destruct (IH fuel (l1 ++ [c]) u (t_dog c)) as (k1 & e & k2 & prev' & Ek & Ea & Hk); [done|done| |lia| |].
      * apply Forall_app. split; [done|]. by apply Forall_singleton.
      * right. rewrite fmap_app, lst_app. done.
      * exists k1, e, k2, prev'. split; [done|]. split; [done|]. exact Hk.
    + exists l1, c, (u :: l2), prev. split_and!; auto. left. apply Z.nle_gt. intros ?. by apply Hgt.
Qed.

(** A timer entering between two others. *)
Lemma timers_at_insert d d1 k1 k2 t w : timers_at d 0 (k1 ++ k2) -> but_lags d d1 ->
  (forall p, p ∈ tdogs k1 -> d1 !! p = d !! p) ->
  match k2 with
  | [] => True
  | e :: k2' => dog_at d1 e (t_left e - t_left t) /\ t_left t <= t_left e /\ forall p, p ∈ tdogs k2' -> d1 !! p = d !! p
  end ->
  t_dog t ∉ tdogs (k1 ++ k2) -> end_of 0 k1 <= t_left t <= INT_MAX ->
  dog_at (<[t_dog t := w]> d1) t (t_left t - end_of 0 k1) ->
  timers_at (<[t_dog t := w]> d1) 0 (k1 ++ t :: k2).
Proof.
  intros Ht Hbl H1 H2 Hx Hb Hd. rewrite fmap_app in Hx. apply timers_at_app in Ht as [Ht1 Ht2].
  apply timers_at_app. split; [|split; [done|split; [done|]]].
  - eapply timers_at_frame; [|exact Ht1]. intros p Hp. rewrite lookup_insert_ne by set_solver. auto.
  - destruct k2 as [|e k2]; [done|]. destruct Ht2 as (_ & Hbe & Ht2). destruct H2 as (He & Hle & Hf).
    csimpl in Hx. split; [|split; [lia|]].
    + destruct He as [Ha [fl He]]. split; [done|]. exists fl. rewrite lookup_insert_ne by set_solver. done.
    + eapply timers_at_frame; [|exact Ht2]. intros p Hp. rewrite lookup_insert_ne by set_solver. auto.
Qed.

Lemma Forall_end k1 delay : 0 <= delay -> Forall (fun x => t_left x <= delay) k1 -> end_of 0 k1 <= delay.
Proof.
  intros H0. assert (H : forall b, b <= delay -> Forall (fun x => t_left x <= delay) k1 -> end_of b k1 <= delay); [|auto].
  induction k1 as [|x k1 IH]; simpl; intros b Hb Hf; [done|]. apply Forall_cons in Hf as [Hx Hf]. auto.
Qed.

#[local] Arguments advance_delay : simpl never.
#[local] Arguments insert_timer : simpl never.

(** The place [wd_insert] finds: behind [k1], before [k2]. *)
Definition inserted (s : wd) (t : timer) (k1 k2 : list timer) (g : Z) (s' : wd) : Prop :=
  exists q h d1, s' = set_active (q, h) (set_dogs d1 s) /\ g = t_left t - end_of 0 k1 /\
    but_lags (dogs s) d1 /\ d1 !! t_dog t = dogs s !! t_dog t /\
    sq_rep h q (tdogs (k1 ++ t :: k2)) /\ only_at (t_dog t :: tdogs (k1 ++ k2)) (links s) h /\
    (forall w, dog_at (<[t_dog t := w]> d1) t g -> timers_at (<[t_dog t := w]> d1) 0 (k1 ++ t :: k2)).

Lemma wd_insert_last s t k1 : sq_rep (links s) (g_wdactivelist s) (tdogs k1) -> timers_at (dogs s) 0 k1 ->
  t_dog t ∉ tdogs k1 -> t_dog t <> 0 -> is_Some (links s !! t_dog t) -> end_of 0 k1 <= t_left t <= INT_MAX ->
  exists x, sq_addlast (t_dog t) (g_wdactivelist s) (links s) = Some x /\
    inserted s t k1 [] (t_left t - end_of 0 k1) (set_active x s).
Proof.
  intros R Ht Hx H0 Hl Hb. destruct (sq_addlast_rep _ _ _ _ R H0 Hx Hl) as (q & h & E & Hr & Ho).
  exists (q, h). split; [done|]. exists q, h, (dogs s). rewrite app_nil_r.
  split_and!; [by destruct s|done|done|done| |done|].
  - rewrite fmap_app. done.
  - intros w Hd. eapply timers_at_insert; rewrite ?app_nil_r; [done..|exact I|done|done|done].
Qed.

Lemma wd_insert_spec s t l : sq_rep (links s) (g_wdactivelist s) (tdogs l) -> timers_at (dogs s) 0 l ->
  t_dog t ∉ tdogs l -> t_dog t <> 0 -> is_Some (links s !! t_dog t) -> 0 <= t_left t <= INT_MAX ->
  exists k1 k2 g s', l = k1 ++ k2 /\ insert_timer t l = k1 ++ t :: k2 /\
    wd_insert (t_dog t) (t_left t) s = Some (g, s') /\ inserted s t k1 k2 g s'.
Proof.
  intros R Ht Hx H0 Hl Hb. pose proof (sq_rep_size _ _ _ R) as Hz. rewrite length_fmap in Hz.
  pose proof R as (Eh & _ & Hs & Hn). unfold wd_insert. rewrite Eh.
  destruct l as [|c l].
  { rewrite decide_True by done.
    destruct (wd_insert_last s t []) as (x & Ex & Hi); [done..|simpl; lia|]. rewrite Ex. simpl.
    exists [], [], (t_left t - 0), (set_active x s). simpl in Hi. split_and!; try done.
    by rewrite Z.sub_0_r. }
  pose proof Hs as (Hc0 & Hlc & _). pose proof Ht as (Hdc & Hbc & _).
  change (fst_of 0 (tdogs (c :: l))) with (t_dog c).
  rewrite decide_False by done. apply dog_at_lookup in Hdc as (wc & Hwc & Hgc).
  cbn [advance_positive]. rewrite Hwc. simpl. rewrite Hgc, Hlc. simpl.
  replace (s32 (0 + (t_left c - 0))) with (t_left c) by (rewrite s32_id; unfold INT_MAX in *; lia).
  rewrite decide_False by lia. simpl.
  destruct (advance_delay_spec (S (size (links s))) s (t_left t) [] c l (t_dog c))
    as (k1 & e & k2 & prev & Ek & Ea & Hk1 & Hprev & Hend); [done|done|constructor|simpl in Hz; lia|auto|].
  simpl in Ek. rewrite Ea. simpl. rewrite Ek in *. pose proof Ht as Ht'.
  apply timers_at_app in Ht' as (Ht1 & Hde & Hbe & Ht2). pose proof Hde as [_ [fl Hwe]].
  rewrite Hwe. simpl. pose proof (Forall_end _ _ (proj1 Hb) Hk1) as Hend1.
  rewrite fmap_app in R, Hx, Hn, Hs. csimpl in R. csimpl in Hx. csimpl in Hn. csimpl in Hs.
  assert (Hek : t_dog e ∉ tdogs k1 /\ t_dog e ∉ tdogs k2).
  { rewrite NoDup_app, NoDup_cons in Hn. set_solver. }
  assert (Hxe : t_dog e <> t_dog t) by set_solver.
  assert (Ehd : t_dog c = fst_of 0 (tdogs k1 ++ t_dog e :: tdogs k2)).
  { pose proof (f_equal (fun l => fst_of 0 (tdogs l)) Ek) as E. simpl in E. rewrite E, fmap_app. done. }
  destruct (decide (t_left t < t_left e)) as [Hlt|Hge].
  - set (g := t_left t - end_of 0 k1).
    pose proof (end_of_bounds _ _ _ Ht1 ltac:(done)) as Hb1.
    replace (s32 (t_left t - s32 (t_left e - (t_left e - end_of 0 k1)))) with g
      by (rewrite (s32_id (t_left e - _)), s32_id; unfold g, INT_MAX in *; lia).
    unfold upd_dog. rewrite Hwe. simpl.
    set (d1 := <[t_dog e := _]> (dogs s)).
    assert (Hx' : exists x, (if decide (t_dog e = t_dog c) then sq_addfirst (t_dog t) (g_wdactivelist s) (links s)
               else sq_addafter prev (t_dog t) (g_wdactivelist s) (links s)) = Some x /\
               sq_rep (x.2) (x.1) (tdogs k1 ++ t_dog t :: t_dog e :: tdogs k2) /\
               only_at (t_dog t :: tdogs k1 ++ t_dog e :: tdogs k2) (links s) (x.2)).
    { destruct (snoc_inv k1) as [-> | (k' & p & ->)].
      - rewrite decide_True by done. destruct (sq_addfirst_rep _ _ _ _ R H0 Hx Hl) as (q & h & E & Hr & Ho).
        exists (q, h). done.
      - rewrite decide_False.
        2: { rewrite Ehd. intros E. rewrite fmap_app in E, Hek. destruct k'; csimpl in E; set_solver. }
        destruct Hprev as [Hp|Hp]; [by destruct k'|].
        rewrite fmap_app, lst_app in Hp. csimpl in Hp. simpl in Hp. rewrite fmap_app in *. csimpl in *.
        destruct (sq_addafter_rep _ _ _ prev _ R H0 Hx Hl) as (q & h & E & Hr & Ho); [right; set_solver|].
        exists (q, h). split; [done|]. split; [|done]. rewrite decide_False in Hr by (by destruct k').
        rewrite <- !app_assoc in Hr |- *. csimpl in Hr. csimpl. rewrite Hp in Hr. rewrite insert_after_split in Hr; [done|].
        rewrite <- app_assoc in Hn. csimpl in Hn. rewrite NoDup_app in Hn. set_solver. }
    destruct Hx' as ([q h] & E & Hr & Ho). rewrite E. simpl.
    exists k1, (e :: k2), g, (set_active (q, h) (set_dogs d1 s)). split_and!; [done| |done|].
    + apply insert_timer_split; [done|]. done.
    + assert (Hbl : but_lags (dogs s) d1) by (by apply but_lags_upd).
      exists q, h, d1. rewrite !fmap_app. csimpl. split_and!; try done.
      * unfold d1. by rewrite lookup_insert_ne.
      * intros w Hd. apply (timers_at_insert (dogs s)); try done.
        -- intros p Hp. unfold d1. apply lookup_insert_ne. set_solver.
        -- split; [|split; [lia|]].
           ++ split; [by destruct Hde|]. exists fl. unfold d1. rewrite lookup_insert_eq. unfold set_lag. simpl.
              do 2 f_equal. rewrite s32_id; unfold g, INT_MAX in *; lia.
           ++ intros p Hp. unfold d1. apply lookup_insert_ne. set_solver.
        -- rewrite fmap_app. done.
        -- lia.
  - destruct Hend as [|Hk2]; [lia|]. subst k2. destruct (sseg_lookup _ _ _ _ _ Hs) as [_ ->]. simpl.
    assert (Hk' : Forall (fun x => t_left x <= t_left t) (k1 ++ [e])).
    { apply Forall_app. split; [done|]. apply Forall_singleton. lia. }
    destruct (wd_insert_last s t (k1 ++ [e])) as (x & Ex & Hi); rewrite ?fmap_app; try done.
    { split; [apply Forall_end; [lia|done]|lia]. }
    rewrite Ex. simpl. exists (k1 ++ [e]), [], (t_left t - end_of 0 (k1 ++ [e])), (set_active x s).
    split_and!; [by rewrite app_nil_r| | |done].
    + rewrite <- (app_nil_r (k1 ++ [e])) at 1. by apply insert_timer_split.
    + do 2 f_equal. assert (Hee : forall b, end_of b (k1 ++ [e]) = t_left e).
      { clear. induction k1; simpl; auto. }
      rewrite Hee, s32_id; [done|]. pose proof (end_of_bounds _ _ _ Ht1 ltac:(done)). unfold INT_MAX in *. lia.
Qed.

(** The representation after a timer has entered the active queue. *)
Lemma rep_insert pool s a t w ps k1 k2 g s' : wd_rep pool s a -> timers a = k1 ++ k2 ->
  dogs s !! t_dog t = Some w -> t_dog t ∉ tdogs (k1 ++ k2) -> t_dog t ∉ free a ->
  (length (t_args t) <= 2)%nat -> ps = t_args t ++ replicate (2 - length (t_args t)) 0 ->
  inserted (set_dogs (<[t_dog t := set_call (t_func t) (Z.of_nat (length (t_args t))) ps w]> (dogs s)) s) t k1 k2 g s' ->
  exists s'', upd_dog (t_dog t) (fun w => WDOG_SETACTIVE (set_lag g w)) s' = Some s'' /\
    wd_rep pool s'' (with_timers (k1 ++ t :: k2) a).
Proof.
  intros R El Hw Hx Hxf Hlen Hps (q & h & d1 & -> & Hg & Hbl & Hd1 & Hq & Ho & Ht). simpl in *.
  rewrite lookup_insert_eq in Hd1. unfold upd_dog. simpl. rewrite Hd1. simpl. eexists. split; [done|].
  set (w' := WDOG_SETACTIVE _).
  destruct R as [Ra Rf Rd Rl R0 Rt Rk Rg Rp Rfp Rn Re Rm].
  pose proof (but_lags_dom _ _ Hbl) as Hdom. rewrite dom_insert_lookup_L in Hdom by eauto.
  destruct Ho as [Hod Hos].
  assert (Hother : forall p v, p <> t_dog t -> d1 !! p = Some v -> exists v0, dogs s !! p = Some v0 /\ v = set_lag (lag v) v0).
  { intros p v Hp Hv. destruct (but_lags_lookup _ _ _ _ Hbl Hv) as (v0 & Hv0 & E).
    rewrite lookup_insert_ne in Hv0 by done. eauto. }
  split; simpl; try done.
  - eapply sq_rep_frame; [|done]. intros p Hp. apply Hos. rewrite <- El.
    intros [-> | Hp']%elem_of_cons; [done|]. by apply (Rd p).
  - intros p. rewrite fmap_app. csimpl. intros Hp. destruct (decide (p = t_dog t)) as [-> |]; [done|].
    apply Rd. rewrite El, fmap_app. set_solver.
  - rewrite dom_insert_lookup_L by eauto. congruence.
  - rewrite lookup_insert_ne by (intros E; congruence).
    apply not_elem_of_dom. rewrite Hdom. by apply not_elem_of_dom.
  - apply Ht. split; [done|]. exists (Z.lor (flags w) WDOGF_ACTIVE). rewrite lookup_insert_eq. rewrite <- Hps. done.
  - rewrite fmap_insert, Rk. unfold w'. rewrite kind_set.
    pose proof (but_lags_fmap kind_of _ _ ltac:(done) Hbl) as E. rewrite E, fmap_insert, insert_insert_eq.
    symmetry. apply insert_id. by rewrite lookup_fmap, Hw.
  - intros p v Hp. rewrite fmap_app. csimpl. destruct (decide (p = t_dog t)) as [-> |Hne].
    + rewrite lookup_insert_eq in Hp. injection Hp as <-. unfold w'. rewrite active_set. set_solver.
    + rewrite lookup_insert_ne in Hp by done. destruct (Hother _ _ Hne Hp) as (v0 & Hv0 & ->).
      change (WDOG_ISACTIVE _) with (WDOG_ISACTIVE v0). rewrite (Rg _ _ Hv0), El, fmap_app. set_solver.
Qed.

Lemma parms_ok args : (length args <= 2)%nat ->
  parms (Z.of_nat (length args)) args = Some (args ++ replicate (2 - length args) 0).
Proof.
  intros H. unfold parms, CONFIG_MAX_WDOGPARMS. rewrite decide_True by lia. rewrite Nat2Z.id, take_ge by lia. done.
Qed.

(** [delay + 1], clipped. *)
Lemma delay_clip delay : 0 <= delay <= INT_MAX ->
  (if decide (delay <= 0) then 1
   else if decide (s32 (delay + 1) <= 0) then s32 (s32 (delay + 1) - 1) else s32 (delay + 1))
  = Z.min (delay + 1) INT_MAX.
Proof.
  unfold INT_MAX. intros H. destruct (decide (delay <= 0)); [lia|].
  destruct (decide (delay = 2147483647)) as [-> |]; [done|].
  rewrite s32_id by lia. rewrite decide_False by lia. lia.
Qed.

Lemma inactive_after pool s a d : wd_rep pool s a -> d ∉ tdogs (remove_timer d (timers a)).
Proof. intros R. rewrite tdogs_remove. unfold remove_node. rewrite list_elem_of_filter. tauto. Qed.

#[local] Arguments wd_insert : simpl never.
#[local] Arguments wd_cancel : simpl never.

Lemma upd_dog_ok p f s w : dogs s !! p = Some w -> upd_dog p f s = Some (set_dogs (<[p := f w]> (dogs s)) s).
Proof. unfold upd_dog. by intros ->. Qed.

Lemma stop_rep pool s a d w : wd_rep pool s a -> dogs s !! d = Some w ->
  exists s', (if WDOG_ISACTIVE w then '(_, s') ← wd_cancel d s; Some s' else Some s) = Some s' /\
    wd_rep pool s' (with_timers (remove_timer d (timers a)) a) /\ is_Some (dogs s' !! d).
Proof.
  intros R Hw. rewrite (active_dec _ _ _ _ _ R Hw). case_bool_decide as Hin.
  - destruct (wd_cancel_rep pool s a d OK (with_timers (remove_timer d (timers a)) a) R) as (s' & -> & R').
    { unfold a_cancel. rewrite decide_False; [by rewrite decide_True|]. intros [_ H]. apply H.
      apply (rep_kind _ _ _ _ R). eauto. }
    simpl. exists s'. split_and!; [done|done|]. apply (rep_kind _ _ _ _ R'). simpl. apply (rep_kind _ _ _ _ R). eauto.
  - exists s. rewrite remove_timer_notin, with_timers_id by done. eauto.
Qed.

Lemma wd_start_rep pool s a d delay f args r a' : wd_rep pool s a -> a_start d delay f args a = Some (r, a') ->
  exists s', wd_start d delay f (Z.of_nat (length args)) args s = Some (r, s') /\ wd_rep pool s' a'.
Proof.
  intros R. unfold a_start, wd_start. unfold CONFIG_MAX_WDOGPARMS at 1.
  destruct (decide (d = 0 \/ _)) as [He|Hne].
  { intros [= <- <-]. eexists. split; [done|]. destruct R. by split. }
  destruct (decide (d ∈ dom (kinds a) /\ _)) as [(Hk & Hf & Hd)|]; [|done]. intros [= <- <-].
  cbn [enter_critical_section fst snd]. apply (rep_masked _ _ _ true) in R as R1.
  apply (rep_kind _ _ _ _ R) in Hk as [w Hw]. change (dogs (set_masked true s) !! d) with (dogs s !! d). rewrite Hw. simpl.
  destruct (stop_rep _ _ _ d w R1 Hw) as (s1 & -> & R2 & [w1 Hw1]). simpl.
  rewrite parms_ok by lia. simpl. rewrite (upd_dog_ok _ _ _ _ Hw1). simpl.
  rewrite delay_clip by lia. set (dl := Z.min (delay + 1) INT_MAX).
  replace (u8 (Z.of_nat (length args))) with (Z.of_nat (length args)) by (symmetry; apply u8_id; unfold is_byte; lia).
  set (s2 := set_dogs _ s1). set (t := mkTimer d dl f args).
  pose proof (inactive_after _ _ _ d R1) as Hx. simpl in Hx, R2.
  assert (Hd0 : d <> 0) by tauto.
  destruct (wd_insert_spec s2 t (remove_timer d (timers a))) as (k1 & k2 & g & s3 & El & Ei & Ew & Hi); try done.
  { apply (r_active _ _ _ R2). }
  { eapply timers_at_frame; [|apply (r_timers _ _ _ R2)]. intros p Hp. simpl. apply lookup_insert_ne. by intros <-. }
  { simpl. eapply rep_link; [exact R2|]. eauto. }
  { simpl. unfold dl, INT_MAX in *. lia. }
  change (wd_insert d dl s2) with (wd_insert (t_dog t) (t_left t) s2). rewrite Ew. simpl.
  destruct (rep_insert _ _ _ t w1 (args ++ replicate (2 - length args) 0) k1 k2 g s3 R2 El Hw1) as (s4 & E4 & R4); try done.
  { by rewrite <- El. }
  { simpl. lia. }
  simpl in E4. rewrite E4. simpl. eexists. split; [done|].
  apply (rep_masked _ _ _ (masked s)) in R4. unfold with_timers, with_masked in R4 |- *. simpl in R4.
  rewrite (r_masked _ _ _ R) in *. rewrite Ei. done.
Qed.

Lemma left_of_notin d l : d ∉ tdogs l -> left_of d l = 0.
Proof. induction l as [|x l IH]; csimpl; [done|]. intros H. rewrite decide_False by set_solver. apply IH. set_solver. Qed.

Lemma gettime_loop_spec fuel s d b l : sseg (links s) (tdogs l) 0 -> timers_at (dogs s) b l ->
  (length l < fuel)%nat -> d ∈ tdogs l -> 0 <= b ->
  gettime_loop fuel s d b (fst_of 0 (tdogs l)) = Some (left_of d l).
Proof.
  revert fuel b; induction l as [|x l IH]; intros [|fuel] b Hs Ht Hf Hd Hb; csimpl in Hd; simpl in Hf; try lia.
  { by apply elem_of_nil in Hd. }
  destruct Hs as (Hx & Hl & Hs). destruct Ht as (Hda & Hbx & Ht). simpl.
  rewrite decide_False by done. apply dog_at_lookup in Hda as (w & -> & Hg). simpl. rewrite Hg.
  replace (s32 (b + (t_left x - b))) with (t_left x) by (rewrite s32_id; unfold INT_MAX in *; lia).
  destruct (decide (t_dog x = d)) as [E|E]; [done|]. rewrite Hl. simpl.
  apply IH; [done|done|lia| |lia]. apply elem_of_cons in Hd as [|]; [congruence|done].
Qed.

#[local] Arguments gettime_loop : simpl never.

Lemma wd_gettime_rep pool s a d r a' : wd_rep pool s a -> a_gettime d a = Some (r, a') ->
  exists s', wd_gettime d s = Some (r, s') /\ wd_rep pool s' a'.
Proof.
  intros R. unfold a_gettime. destruct (decide _) as [|Hd]; [done|]. intros [= <- <-]. exists s. split; [|done].
  pose proof (rep_nonzero _ _ _ R) as H0. pose proof (rep_size _ _ _ R) as Hz.
  unfold wd_gettime. cbn [enter_critical_section].
  destruct (decide (d = 0)) as [-> |Hd0].
  { simpl. rewrite left_of_notin by done. by destruct s. }
  assert (Hk : d ∈ dom (kinds a)) by (destruct (decide (d ∈ dom (kinds a))); [done|naive_solver]).
  apply (rep_kind _ _ _ _ R) in Hk as [w Hw]. change (dogs (set_masked true s)) with (dogs s). rewrite Hw. simpl.
  rewrite (active_dec _ _ _ _ _ R Hw). pose proof (r_active _ _ _ R) as (Eh & _ & Hs & _). rewrite Eh.
  case_bool_decide as Hin.
  - rewrite (gettime_loop_spec _ (set_masked true s)); [by destruct s|done|apply (r_timers _ _ _ R)|simpl; lia|done|done].
  - rewrite left_of_notin by done. by destruct s.
Qed.

(** *** Creation and deletion *)

(** What [kmm_malloc] promises: a new block, not at NULL. *)
Definition malloc_ok (kmm_malloc : gset Z -> option (Z * wdog_s)) : Prop :=
  forall N d w, kmm_malloc N = Some (d, w) -> d <> 0 /\ d ∉ N.

Lemma rep_free_length pool s a : wd_rep pool s a -> (length pool <= CONFIG_PREALLOC_WDOGS)%nat ->
  (length (free a) <= CONFIG_PREALLOC_WDOGS)%nat.
Proof.
  intros R Hp. destruct (r_free _ _ _ R) as (_ & _ & _ & Hn).
  etrans; [|exact Hp]. apply NoDup_incl_length; [by apply NoDup_ListNoDup|].
  intros x Hx. apply list_elem_of_In. eapply r_pool; [done|]. eapply r_freepool; [done|]. by apply list_elem_of_In.
Qed.

Lemma kind_flags0 w : kind_of (set_flags 0 w) = Pool.
Proof. done. Qed.

Lemma wd_create_rep pool km irq s a r a' : wd_rep pool s a -> (length pool <= CONFIG_PREALLOC_WDOGS)%nat ->
  malloc_ok km -> a_create km irq a = Some (r, a') ->
  exists s', wd_create km irq s = Some (r, s') /\ wd_rep pool s' a'.
Proof.
  intros R Hp Hm. pose proof (rep_free_length _ _ _ R Hp) as Hlen. unfold a_create, wd_create.
  cbn [enter_critical_section]. change (g_wdnfree (set_masked true s)) with (g_wdnfree s).
  rewrite (r_nfree _ _ _ R). unfold CONFIG_WDOG_INTRESERVE.
  destruct ((1 <? Z.of_nat (length (free a))) || irq).
  - intros [= <- <-]. destruct (sq_remfirst_rep _ _ _ (r_free _ _ _ R)) as (q & h & E & Hr & Ho & Hz).
    change (g_wdfreelist (set_masked true s)) with (g_wdfreelist s). change (links (set_masked true s)) with (links s).
    rewrite E. simpl. destruct R as [Ra Rf Rd Rl R0 Rt Rk Rg Rp Rfp Rn Re Rm].
    destruct (free a) as [|x fl] eqn:Ef; simpl.
    + eexists. split; [done|]. destruct Ho as [Hod Hos].
      split; simpl; try done; [|congruence].
      eapply sq_rep_frame; [|done]. intros p Hp'. apply Hos. by apply Rd.
    + pose proof Rf as (_ & _ & Hs & Hn). destruct Hs as (Hx0 & Hlx & _). rewrite decide_False by done.
      assert (Hxd : is_Some (dogs s !! x)).
      { apply elem_of_dom. rewrite <- Rl. apply elem_of_dom. eauto. }
      destruct Hxd as [w Hw]. simpl in Hz. unfold upd_next. simpl. rewrite put_ok by (erewrite Hz by done; eauto).
      simpl. rewrite insert_id by auto. unfold upd_dog. simpl. rewrite Hw. simpl.
      eexists. split; [done|]. destruct Ho as [Hod Hos]. rewrite NoDup_cons in Hn.
      assert (Hxa : x ∉ tdogs (timers a)) by (intros Hx; apply (Rd x Hx); by left).
      split; simpl; try done.
      * eapply sq_rep_frame; [|done]. intros p Hp'. apply Hos. by apply Rd.
      * intros p Hp'. pose proof (Rd p Hp') as Hd. set_solver.
      * rewrite dom_insert_lookup_L by eauto. congruence.
      * rewrite lookup_insert_ne by congruence. done.
      * eapply timers_at_frame; [|done]. intros p Hp'. apply lookup_insert_ne. by intros <-.
      * rewrite fmap_insert, kind_flags0, Rk. symmetry. apply insert_id.
        rewrite <- Rk. apply Rfp. by left.
      * intros p v. destruct (decide (p = x)) as [-> |Hne].
        -- rewrite lookup_insert_eq. intros [= <-]. split; [done|]. done.
        -- rewrite lookup_insert_ne by done. apply Rg.
      * intros p Hp'. apply Rfp. by right.
      * simpl in Hlen. unfold u16, CONFIG_PREALLOC_WDOGS in *. rewrite Z.mod_small; lia.
  - change (leave_critical_section (masked s) (set_masked true s)) with (set_masked (masked s) s).
    change (dogs (set_masked (masked s) s)) with (dogs s).
    assert (Ed : dom (dogs s) = dom (kinds a)) by (by rewrite (r_kinds _ _ _ R), dom_fmap_L). rewrite Ed.
    destruct (km (dom (kinds a))) as [[d w]|] eqn:Ek; intros [= <- <-].
    + destruct (Hm _ _ _ Ek) as [Hd0 Hdn]. eexists. split; [done|].
      assert (Hdd : dogs s !! d = None) by (apply not_elem_of_dom; by rewrite Ed).
      assert (Hld : links s !! d = None) by (apply not_elem_of_dom; by rewrite (r_links _ _ _ R), Ed).
      destruct R as [Ra Rf Rd Rl R0 Rt Rk Rg Rp Rfp Rn Re Rm].
      assert (Hda : d ∉ tdogs (timers a)).
      { intros Hx. destruct Ra as (_ & _ & Hs & _). destruct (sseg_alloc _ _ _ _ Hs Hx) as [_ [v Hv]]. congruence. }
      assert (Hdf : d ∉ free a).
      { intros Hx. destruct Rf as (_ & _ & Hs & _). destruct (sseg_alloc _ _ _ _ Hs Hx) as [_ [v Hv]]. congruence. }
      split; simpl; try done.
      * eapply sq_rep_frame; [|done]. intros p Hp'. apply lookup_insert_ne. by intros <-.
      * eapply sq_rep_frame; [|done]. intros p Hp'. apply lookup_insert_ne. by intros <-.
      * rewrite !dom_insert_L. congruence.
      * rewrite lookup_insert_ne by done. done.
      * eapply timers_at_frame; [|done]. intros p Hp'. apply lookup_insert_ne. by intros <-.
      * by rewrite fmap_insert, Rk.
      * intros p v. destruct (decide (p = d)) as [-> |Hne].
        -- rewrite lookup_insert_eq. intros [= <-]. done.
        -- rewrite lookup_insert_ne by done. apply Rg.
      * intros p. destruct (decide (p = d)) as [-> |Hne]; [by rewrite lookup_insert_eq|].
        rewrite lookup_insert_ne by done. apply Rp.
      * intros p Hp'. rewrite lookup_insert_ne by (by intros <-). by apply Rfp.
    + exists s. split; [|done]. by destruct s.
Qed.

Lemma kind_tests w k : kind_of w = k ->
  WDOG_ISALLOCED w = match k with Heap => true | _ => false end /\
  (k <> Heap -> WDOG_ISSTATIC w = match k with Static => true | _ => false end).
Proof. unfold kind_of. intros <-. destruct (WDOG_ISALLOCED w), (WDOG_ISSTATIC w); done. Qed.

Lemma wd_delete_rep pool s a d r a' : wd_rep pool s a -> (length pool <= CONFIG_PREALLOC_WDOGS)%nat ->
  a_delete d a = Some (r, a') -> exists s', wd_delete d s = Some (r, s') /\ wd_rep pool s' a'.
Proof.
  intros R Hp. unfold a_delete. destruct (decide (d ∈ free a)) as [|Hf]; [done|].
  intros (k & Hk & [= <- <-])%bind_Some. pose proof Hk as Hk'.
  rewrite (r_kinds _ _ _ R), lookup_fmap in Hk'. apply fmap_Some in Hk' as (w & Hw & ->).
  unfold wd_delete. cbn [enter_critical_section]. change (dogs (set_masked true s)) with (dogs s). rewrite Hw. simpl.
  apply (rep_masked _ _ _ true) in R as R1.
  destruct (stop_rep _ _ _ d w R1 Hw) as (s1 & -> & R2 & [w2 Hw2]). simpl. rewrite Hw2. simpl.
  pose proof (inactive_after _ _ _ d R1) as Hx. simpl in Hx, R2. rewrite (r_masked _ _ _ R).
  assert (Ek : kind_of w2 = kind_of w).
  { pose proof (r_kinds _ _ _ R2) as E. simpl in E. rewrite E, lookup_fmap, Hw2 in Hk. by injection Hk. }
  destruct (kind_tests _ _ Ek) as [Ea Es]. rewrite Ea.
  pose proof (rep_free_length _ _ _ R2 Hp) as Hlen. simpl in Hlen.
  destruct R2 as [Ra Rf Rd Rl R0 Rt Rk Rg Rp Rfp Rn Re Rm]. simpl in *.
  assert (Hl : is_Some (links s1 !! d)) by (apply elem_of_dom; rewrite Rl; apply elem_of_dom; eauto).
  assert (Hd0 : d <> 0) by (intros ->; congruence).
  destruct (kind_of w) eqn:Ekw; [rewrite Es by done| |rewrite Es by done]; simpl.
  - destruct (sq_addlast_rep _ _ _ _ Rf Hd0 Hf Hl) as (q & h & -> & Hr & [Hod Hos]). simpl.
    eexists. split; [done|]. split; simpl; try done.
    + eapply sq_rep_frame; [|done]. intros p Hp'. apply Hos. pose proof (Rd p Hp'). intros [-> |]%elem_of_cons; done.
    + intros p Hp'. rewrite elem_of_app, list_elem_of_singleton. pose proof (Rd p Hp'). intros [| ->]; done.
    + congruence.
    + intros p. rewrite elem_of_app, list_elem_of_singleton. intros [| ->]; auto.
    + rewrite length_app. simpl. unfold u16, CONFIG_PREALLOC_WDOGS in *. rewrite Rn, Z.mod_small; lia.
  - eexists. split; [done|]. unfold sched_kfree. split; simpl; try done.
    + eapply sq_rep_frame; [|done]. intros p Hp'. apply lookup_delete_ne. by intros <-.
    + eapply sq_rep_frame; [|done]. intros p Hp'. apply lookup_delete_ne. by intros <-.
    + rewrite !dom_delete_L. congruence.
    + rewrite lookup_delete_ne by done. done.
    + eapply timers_at_frame; [|done]. intros p Hp'. apply lookup_delete_ne. by intros <-.
    + by rewrite fmap_delete, Rk.
    + intros p v Hv. apply lookup_delete_Some in Hv as [_ Hv]. by apply Rg.
    + intros p Hv. apply lookup_delete_Some in Hv as [_ Hv]. by apply Rp.
    + intros p Hp'. rewrite lookup_delete_ne by (by intros <-). by apply Rfp.
  - eexists. split; [done|]. by split.
Qed.

Lemma a_delete_again d a a1 r : a_cancel d a = Some (r, a1) -> d <> 0 -> a_delete d a1 = a_delete d a.
Proof.
  unfold a_cancel. intros E H0. destruct (decide (d <> 0 /\ _)); [done|].
  destruct (decide (d ∈ tdogs (timers a))); injection E as <- <-; [|done].
  unfold a_delete. simpl.
  assert (Hid : remove_timer d (remove_timer d (timers a)) = remove_timer d (timers a)).
  { apply remove_timer_notin. rewrite tdogs_remove. unfold remove_node. rewrite list_elem_of_filter. tauto. }
  by rewrite Hid.
Qed.

Lemma a_delete_mask d a b : a_delete d (with_masked b a) = prod_map id (fun x => mkAwd (timers x) (free x) (kinds x) (a_errno x)
  (if decide (kinds a !! d = Some Static) then true else b)) <$> a_delete d a.
Proof.
  unfold a_delete. simpl. destruct (decide (d ∈ free a)); [done|]. destruct (kinds a !! d) as [k|] eqn:E; [|done].
  simpl. destruct k; simpl; by rewrite ?decide_False, ?decide_True.
Qed.

#[local] Arguments wd_delete : simpl never.

Lemma wd_recover_rep pool s a d r a' : wd_rep pool s a -> (length pool <= CONFIG_PREALLOC_WDOGS)%nat ->
  a_recover d a = Some (r, a') -> exists s', wd_recover d s = Some (r, s') /\ wd_rep pool s' a'.
Proof.
  intros R Hp. unfold a_recover, wd_recover. cbn [enter_critical_section].
  destruct (decide (d = 0)) as [-> |Hd0].
  { intros [= <- <-]. exists s. split; [|done]. by destruct s. }
  intros ([r1 a1] & Ed & [= <- <-])%bind_Some. apply (rep_masked _ _ _ true) in R as R1.
  assert (Hc : exists r0 a0, a_cancel d (with_masked true a) = Some (r0, a0)).
  { unfold a_cancel. simpl. rewrite decide_False; [destruct (decide _); eauto|]. intros [_ Hn]. apply Hn.
    unfold a_delete in Ed. destruct (decide _); [done|]. apply bind_Some in Ed as (k & Hk & _). apply elem_of_dom. eauto. }
  destruct Hc as (r0 & a0 & Ec). destruct (wd_cancel_rep _ _ _ _ _ _ R1 Ec) as (s1 & -> & R2). simpl.
  pose proof (a_delete_again _ _ _ _ Ec Hd0) as Edel. rewrite a_delete_mask, Ed in Edel. simpl in Edel.
  destruct (wd_delete_rep _ _ _ _ _ _ R2 Hp Edel) as (s2 & -> & R3). simpl.
  eexists. split; [done|]. apply (rep_masked _ _ _ (masked s)) in R3. rewrite (r_masked _ _ _ R) in *. done.
Qed.

(** *** The timer interrupt

    What the functions called by watchdogs are to the watchdogs: they may start,
    cancel, create and delete timers ([acall] is what a call does to the abstract
    state, [None] where it breaks the rules of the interface), but a timer they
    start does not expire at once. *)

Definition expired (l : list timer) : list timer := filter (fun t => t_left t <= 0) l.
Definition pending (a : awd) : nat := length (expired (timers a)).

Class Handlers := {
  call : Z -> list Z -> wd -> option wd;
  acall : Z -> list Z -> awd -> option awd
}.
Class HandlersOk (pool : list Z) (H : Handlers) : Prop := {
  handler_rep f args s a a' : wd_rep pool s a -> acall f args a = Some a' ->
    exists s', call f args s = Some s' /\ wd_rep pool s' a';
  handler_pending f args a a' : acall f args a = Some a' -> (pending a' <= pending a)%nat
}.

(** A tick: every timer has one tick less, and those with none left are removed
    and called, in their order. *)
Definition tick (l : list timer) : list timer :=
  (fun t => mkTimer (t_dog t) (t_left t - 1) (t_func t) (t_args t)) <$> l.

Fixpoint a_expire `{Handlers} (fuel : nat) (a : awd) : option awd :=
  match fuel with
  | O => None
  | S fuel' =>
    match timers a with
    | t :: l =>
      if decide (t_left t <= 0)
      then a' ← acall (t_func t) (t_args t) (with_timers l a); a_expire fuel' a'
      else Some a
    | [] => Some a
    end
  end.

Definition a_timer `{Handlers} (a : awd) : option awd :=
  a_expire (S (length (timers a))) (with_timers (tick (timers a)) a).

(** Between interrupts every active timer has ticks left. *)
Definition waiting (a : awd) : Prop := Forall (fun t => 1 <= t_left t) (timers a).

Lemma tick_timers d x w b l : x ∉ tdogs l -> timers_at d b l -> timers_at (<[x := w]> d) (b - 1) (tick l).
Proof.
  revert b; induction l as [|u l IH]; simpl; intros b Hn; [done|]. intros ([Ha [fu Hu]] & Hb & Ht). csimpl in Hn.
  split; [|split; [lia|]].
  - split; [done|]. exists fu. simpl. rewrite lookup_insert_ne by set_solver. rewrite Hu. do 2 f_equal. lia.
  - apply IH; [set_solver|done].
Qed.

Section Interrupt.
Context {H : Handlers} (pool : list Z) {HO : HandlersOk pool H}.

Lemma wd_call_ok s t fl g : (length (t_args t) <= 2)%nat ->
  wd_call call (mkWdog (t_func t) g fl (Z.of_nat (length (t_args t))) (t_args t ++ replicate (2 - length (t_args t)) 0)) s
  = call (t_func t) (t_args t) s.
Proof. destruct t as [d n f [|x [|y [|z args]]]]; simpl; intros Hl; [done|done|done|lia]. Qed.

(** One turn of the loop of [wd_expiration]. *)
Lemma expire_step fuel s a t l : wd_rep pool s a -> timers a = t :: l -> t_left t <= 0 ->
  exists s1, expiration_loop call (S fuel) s = (s2 ← call (t_func t) (t_args t) s1; expiration_loop call fuel s2) /\
    wd_rep pool s1 (with_timers l a).
Proof.
  intros R El Hle. pose proof (rep_NoDup _ _ _ R) as Hn. pose proof (rep_nonzero _ _ _ R) as H0.
  pose proof (r_timers _ _ _ R) as Ht. rewrite El in Ht, Hn, H0.
  destruct (lag_handover _ [] _ _ Ht Hn H0) as (d1 & Ed1 & Hbl & Hx1 & Hh). simpl in Hh.
  destruct Ht as ([Hlen [fl Hw]] & Hb & _).
  pose proof (r_active _ _ _ R) as Ra. rewrite El in Ra. pose proof Ra as (Eh & _ & _ & _).
  destruct (sq_remfirst_rep _ _ _ Ra) as (q' & h' & Er & Hq & Ho & _).
  change (tail (tdogs (t :: l))) with (tdogs l) in Hq. change (fst_of 0 (tdogs (t :: l))) with (t_dog t) in Eh, Er.
  assert (Hx0 : t_dog t <> 0) by (intros E; apply H0; rewrite <- E; csimpl; by left).
  rewrite Hw in Hx1. pose proof (Hh (WDOG_CLRACTIVE (mkWdog (t_func t) (t_left t - 0) fl
    (Z.of_nat (length (t_args t))) (t_args t ++ replicate (2 - length (t_args t)) 0)))) as Hh'.
  rewrite <- El in Ho.
  pose proof (rep_remove pool s a [] t l d1 q' h' _ R El Hbl Hx1 Hh' Hq Ho) as Hfin. simpl in Hfin.
  pose proof Hq as (Eh' & _). eexists. split; [|exact Hfin].
  cbn [expiration_loop]. rewrite Eh. rewrite decide_False by done. rewrite Hw. simpl.
  rewrite decide_True by (simpl in Hle; lia). rewrite Er. simpl. rewrite Hw. simpl. rewrite Eh'.
  set (n2 := fst_of 0 (tdogs l)) in *. clearbody n2. rewrite Hw in Ed1. simpl in Ed1.
  destruct (decide (n2 = 0)) as [E2|E2].
  - injection Ed1 as <-. simpl. unfold upd_dog at 1. simpl. rewrite Hw. simpl. rewrite lookup_insert_eq. simpl.
    unfold WDOG_CLRACTIVE at 1. simpl. rewrite wd_call_ok by done. done.
  - destruct (dogs s !! n2) as [u|] eqn:Eu; [|done]. injection Ed1 as <-.
    rewrite (upd_dog_ok _ _ _ u) by done. simpl. unfold upd_dog at 1. simpl. rewrite Hx1. simpl.
    rewrite lookup_insert_eq. simpl. unfold WDOG_CLRACTIVE at 1. simpl. rewrite wd_call_ok by done. done.
Qed.

Lemma expire_stop fuel s a : wd_rep pool s a -> match timers a with [] => True | t :: _ => 0 < t_left t end ->
  expiration_loop call (S fuel) s = Some s.
Proof.
  intros R Hh. cbn [expiration_loop]. pose proof (r_active _ _ _ R) as (Eh & _). pose proof (r_timers _ _ _ R) as Ht.
  pose proof (rep_nonzero _ _ _ R) as H0. rewrite Eh.
  destruct (timers a) as [|t l]; [done|]. csimpl in H0. simpl.
  rewrite decide_False by (intros E; apply H0; rewrite <- E; by left).
  destruct Ht as ([_ [fl ->]] & _). simpl. rewrite decide_False by (simpl; lia). done.
Qed.

#[local] Arguments expiration_loop : simpl never.

Lemma pending_cons t l a : timers a = t :: l -> t_left t <= 0 ->
  pending a = S (pending (with_timers l a)).
Proof. intros E H1. unfold pending, expired. rewrite E. simpl. by rewrite filter_cons_True. Qed.

Lemma pending_stop s a : wd_rep pool s a -> match timers a with [] => True | t :: _ => 0 < t_left t end -> waiting a.
Proof.
  intros R Hh. unfold waiting. pose proof (r_timers _ _ _ R) as Ht. destruct (timers a) as [|t l]; [constructor|].
  constructor; [lia|]. destruct Ht as (_ & _ & Ht). apply Forall_forall. intros x Hx.
  pose proof (timers_at_bounds _ _ _ _ Ht Hx). lia.
Qed.

Lemma expiration_rep m n s a a' : wd_rep pool s a -> (pending a < n)%nat -> a_expire m a = Some a' ->
  exists s', expiration_loop call n s = Some s' /\ wd_rep pool s' a' /\ waiting a'.
Proof.
  revert n s a; induction m as [|m IH]; intros [|n] s a R Hp Ea; simpl in Ea; try lia; [done..|].
  destruct (timers a) as [|t l] eqn:El.
  - injection Ea as <-. exists s. split_and!; [|done|unfold waiting; rewrite El; constructor].
    eapply expire_stop; [done|]. by rewrite El.
  - destruct (decide (t_left t <= 0)) as [Hle|Hgt].
    + apply bind_Some in Ea as (a1 & Ec & Ea). destruct (expire_step n _ _ _ _ R El Hle) as (s1 & -> & R1).
      destruct (handler_rep _ _ _ _ _ R1 Ec) as (s2 & -> & R2). simpl. apply IH with a1; [done| |done].
      apply handler_pending in Ec. rewrite (pending_cons _ _ _ El Hle) in Hp. lia.
    + injection Ea as <-. exists s. assert (Hh : match timers a with [] => True | t :: _ => 0 < t_left t end) by (rewrite El; lia).
      split_and!; [by eapply expire_stop|done|by eapply pending_stop].
Qed.

(** The spec's own fuel is enough, so it is undefined only where a handler breaks
    the rules. *)
Lemma a_expire_fuel m n a : (pending a < m)%nat -> (pending a < n)%nat -> a_expire m a = a_expire n a.
Proof.
  revert n a; induction m as [|m IH]; intros [|n] a Hm Hn; try lia. simpl.
  destruct (timers a) as [|t l] eqn:El; [done|]. destruct (decide _) as [Hle|]; [|done].
  destruct (acall _ _ _) as [a1|] eqn:Ec; [|done]. simpl.
  apply handler_pending in Ec. rewrite (pending_cons _ _ _ El Hle) in Hm, Hn. apply IH; lia.
Qed.

Lemma pending_length a : (pending a <= length (timers a))%nat.
Proof. apply length_filter. Qed.

(** The head counted down: every timer has one tick less. *)
Lemma tick_rep s a t l : wd_rep pool s a -> waiting a -> timers a = t :: l ->
  exists w, dogs s !! t_dog t = Some w /\ lag w = t_left t /\ 1 <= t_left t <= INT_MAX /\
    wd_rep pool (set_dogs (<[t_dog t := set_lag (s32 (lag w - 1)) w]> (dogs s)) s) (with_timers (tick (timers a)) a).
Proof.
  intros R Hw El. pose proof (r_timers _ _ _ R) as Ht. rewrite El in Ht. destruct Ht as ([Ha [fl Hd]] & Hb & Ht).
  unfold waiting in Hw. rewrite El in Hw. apply Forall_cons in Hw as [Ht1 Hw].
  eexists. split; [exact Hd|]. split; [simpl; lia|]. split; [lia|]. set (s1 := set_dogs _ s).
  assert (Hdg : tdogs (tick (timers a)) = tdogs (timers a)) by (unfold tick; by rewrite <- list_fmap_compose).
  assert (Hbl : but_lags (dogs s) (dogs s1)) by (by apply but_lags_upd).
  pose proof (rep_NoDup _ _ _ R) as Hn. pose proof (rep_nonzero _ _ _ R) as H0. rewrite El in Hn, H0.
  csimpl in Hn. csimpl in H0. apply NoDup_cons in Hn as [Hn _].
  destruct R as [Ra Rf Rd Rl R0 Rt Rk Rg Rp Rfp Rn Re Rm].
  split; unfold s1; cbn [with_timers timers free kinds a_errno a_masked set_dogs links dogs g_wdactivelist
    g_wdfreelist g_wdnfree errno masked]; rewrite ?Hdg; try done.
  - rewrite dom_insert_lookup_L by eauto. done.
  - rewrite lookup_insert_ne; [done|]. intros E. apply H0. rewrite <- E. by left.
  - rewrite El. split; [|split; [simpl; lia|]].
    + split; [done|]. exists fl. simpl. rewrite lookup_insert_eq. unfold set_lag. simpl. do 2 f_equal.
      rewrite s32_id; unfold INT_MAX in *; lia.
    + by apply tick_timers.
  - rewrite Rk. symmetry. by apply (but_lags_fmap kind_of _ _ ltac:(done) Hbl).
  - intros p v Hv. destruct (but_lags_lookup _ _ _ _ Hbl Hv) as (v0 & Hv0 & ->). by apply (Rg p v0).
Qed.

Lemma wd_timer_rep s a a' : wd_rep pool s a -> waiting a -> a_timer a = Some a' ->
  exists s', wd_timer call s = Some s' /\ wd_rep pool s' a' /\ waiting a'.
Proof.
  intros R Hw Ea. pose proof (r_active _ _ _ R) as (Eh & _ & Hs & _). pose proof (rep_nonzero _ _ _ R) as H0.
  unfold wd_timer. rewrite Eh. unfold a_timer in Ea. destruct (timers a) as [|t l] eqn:El.
  { simpl in Ea. injection Ea as <-. exists s. rewrite decide_True by done. rewrite <- El, with_timers_id.
    split_and!; [done|done|]. unfold waiting. rewrite El. constructor. }
  change (fst_of 0 (tdogs (t :: l))) with (t_dog t). csimpl in H0.
  rewrite decide_False by (intros E; apply H0; rewrite <- E; by left).
  destruct (tick_rep _ _ _ _ R Hw El) as (w & Hd & Hlag & Hb & R1). rewrite El in R1.
  rewrite (upd_dog_ok _ _ _ _ Hd). simpl. set (s1 := set_dogs _ s) in *.
  pose proof (rep_size _ _ _ R1) as Hz. pose proof (pending_length (with_timers (tick (t :: l)) a)) as Hpl.
  destruct (expiration_rep _ (S (size (links s1))) _ _ _ R1 ltac:(lia) Ea) as (s2 & E2 & R2 & Hw2).
  exists s2. split; [|done]. unfold wd_expiration. unfold s1 at 1. simpl. rewrite Eh.
  change (fst_of 0 (tdogs (t :: l))) with (t_dog t). rewrite lookup_insert_eq. simpl.
  destruct (decide _) as [|Hgt]; [done|].
  rewrite (expire_stop _ _ _ R1) in E2; [done|]. simpl. rewrite Hlag, s32_id in Hgt; unfold INT_MAX in *; lia.
Qed.

End Interrupt.

(** ** Sequences of operations *)

Inductive wd_op :=
  | Start (d delay f : Z) (args : list Z) | Cancel (d : Z) | Gettime (d : Z)
  | Create (irq : bool) | Delete (d : Z) | Recover (d : Z).
Inductive wd_step := Do (op : wd_op) | Tick.

Definition wd_exec (km : gset Z -> option (Z * wdog_s)) (op : wd_op) (s : wd) : option (Z * wd) :=
  match op with
  | Start d delay f args => wd_start d delay f (Z.of_nat (length args)) args s
  | Cancel d => wd_cancel d s
  | Gettime d => wd_gettime d s
  | Create irq => wd_create km irq s
  | Delete d => wd_delete d s
  | Recover d => wd_recover d s
  end.

Definition a_exec (km : gset Z -> option (Z * wdog_s)) (op : wd_op) (a : awd) : option (Z * awd) :=
  match op with
  | Start d delay f args => a_start d delay f args a
  | Cancel d => a_cancel d a
  | Gettime d => a_gettime d a
  | Create irq => a_create km irq a
  | Delete d => a_delete d a
  | Recover d => a_recover d a
  end.

Lemma wd_exec_rep pool km op s a r a' : (length pool <= CONFIG_PREALLOC_WDOGS)%nat -> malloc_ok km ->
  wd_rep pool s a -> a_exec km op a = Some (r, a') -> exists s', wd_exec km op s = Some (r, s') /\ wd_rep pool s' a'.
Proof.
  intros Hp Hm R. destruct op; simpl; intros E.
  - by eapply wd_start_rep.
  - by eapply wd_cancel_rep.
  - by eapply wd_gettime_rep.
  - by eapply wd_create_rep.
  - by eapply wd_delete_rep.
  - by eapply wd_recover_rep.
Qed.

(** A predicate on timers is kept by the operations that insert a timer with it
    and remove others. *)
Lemma Forall_insert_timer (P : timer -> Prop) t l : P t -> Forall P l -> Forall P (insert_timer t l).
Proof.
  intros Ht. induction 1 as [|x l Hx Hl IH]; [by repeat constructor|].
  change (insert_timer t (x :: l)) with (if decide (t_left t < t_left x) then t :: x :: l else x :: insert_timer t l).
  destruct (decide _); by repeat constructor.
Qed.

Lemma pending_insert t l : 0 < t_left t ->
  length (expired (insert_timer t l)) = length (expired l).
Proof.
  unfold expired. intros Ht. induction l as [|x l IH].
  - change (insert_timer t []) with [t]. rewrite filter_cons_False by lia. done.
  - change (insert_timer t (x :: l)) with (if decide (t_left t < t_left x) then t :: x :: l else x :: insert_timer t l).
    destruct (decide (t_left t < t_left x)); [by rewrite (filter_cons_False _ t) by lia|].
    rewrite !filter_cons. destruct (decide _); simpl; by rewrite IH.
Qed.

Lemma pending_remove d l : (length (expired (remove_timer d l)) <= length (expired l))%nat.
Proof.
  unfold remove_timer, expired. induction l as [|x l IH]; [done|].
  rewrite !filter_cons. destruct (decide (t_dog x <> d)); rewrite ?filter_cons; destruct (decide (t_left x <= 0)); simpl; lia.
Qed.

Lemma a_exec_kept km op a r a' : a_exec km op a = Some (r, a') ->
  (pending a' <= pending a)%nat /\ (waiting a -> waiting a').
Proof.
  unfold pending, waiting.
  assert (Hrem : forall d, (length (expired (remove_timer d (timers a))) <= length (expired (timers a)))%nat /\
           (Forall (fun t => 1 <= t_left t) (timers a) -> Forall (fun t => 1 <= t_left t) (remove_timer d (timers a)))).
  { intros d. split; [apply pending_remove|]. intros Hf. unfold remove_timer. rewrite Forall_forall in Hf |- *. intros x [_ Hx]%list_elem_of_filter. auto. }
  assert (Hdel : forall d r a1, a_delete d a = Some (r, a1) -> timers a1 = remove_timer d (timers a)).
  { intros d r1 a1 E. unfold a_delete in E. destruct (decide _); [done|].
    apply bind_Some in E as (k & _ & [= _ <-]). by destruct k. }
  destruct op; simpl.
  - unfold a_start. destruct (decide _); [intros [= _ <-]; simpl; auto|]. destruct (decide _) as [(_ & _ & Hd)|]; [|done].
    intros [= _ <-]. simpl. set (t := mkTimer _ _ _ _). assert (Ht : 1 <= t_left t) by (simpl; unfold INT_MAX in *; lia).
    rewrite pending_insert by lia. split; [apply Hrem|]. intros Hw. apply Forall_insert_timer; [done|]. by apply Hrem.
  - unfold a_cancel. destruct (decide _); [done|]. destruct (decide _); intros [= _ <-]; [apply Hrem|auto].
  - unfold a_gettime. destruct (decide _); [done|]. intros [= _ <-]. auto.
  - unfold a_create. destruct (_ || _); [intros [= _ <-]; simpl; auto|].
    destruct (km _) as [[? ?]|]; intros [= _ <-]; simpl; auto.
  - intros E. rewrite (Hdel _ _ _ E). apply Hrem.
  - unfold a_recover. destruct (decide _); [intros [= _ <-]; auto|].
    intros ([r1 a1] & E & [= _ <-])%bind_Some. simpl. rewrite (Hdel _ _ _ E). apply Hrem.
Qed.

Section Steps.
Context {H : Handlers} (pool : list Z) {HO : HandlersOk pool H} (km : gset Z -> option (Z * wdog_s)).

Definition wd_step_run (st : wd_step) (s : wd) : option (Z * wd) :=
  match st with
  | Do op => wd_exec km op s
  | Tick => s' ← wd_timer call s; Some (0, s')
  end.
Definition a_step_run (st : wd_step) (a : awd) : option (Z * awd) :=
  match st with
  | Do op => a_exec km op a
  | Tick => a' ← a_timer a; Some (0, a')
  end.

Fixpoint wd_steps (l : list wd_step) (s : wd) : option (list Z * wd) :=
  match l with
  | [] => Some ([], s)
  | st :: l' => '(r, s1) ← wd_step_run st s; '(rs, s2) ← wd_steps l' s1; Some (r :: rs, s2)
  end.
Fixpoint a_steps (l : list wd_step) (a : awd) : option (list Z * awd) :=
  match l with
  | [] => Some ([], a)
  | st :: l' => '(r, a1) ← a_step_run st a; '(rs, a2) ← a_steps l' a1; Some (r :: rs, a2)
  end.

Hypothesis (Hpool : (length pool <= CONFIG_PREALLOC_WDOGS)%nat) (Hkm : malloc_ok km).

Lemma wd_steps_rep l s a rs a' : wd_rep pool s a -> waiting a -> a_steps l a = Some (rs, a') ->
  exists s', wd_steps l s = Some (rs, s') /\ wd_rep pool s' a' /\ waiting a'.
Proof.
  revert s a rs; induction l as [|st l IH]; simpl; intros s a rs R Hw Ea.
  { injection Ea as <- <-. eauto. }
  apply bind_Some in Ea as ([r a1] & E1 & Ea). apply bind_Some in Ea as ([rs1 a2] & E2 & [= <- <-]).
  assert (Hs : exists s1, wd_step_run st s = Some (r, s1) /\ wd_rep pool s1 a1 /\ waiting a1).
  { destruct st as [op|]; simpl in E1 |- *.
    - destruct (wd_exec_rep _ _ _ _ _ _ _ Hpool Hkm R E1) as (s1 & E & R1). exists s1. split_and!; [done|done|].
      by eapply a_exec_kept.
    - apply bind_Some in E1 as (a0 & E & [= <- <-]).
      destruct (wd_timer_rep pool _ _ _ R Hw E) as (s1 & -> & R1 & Hw1). simpl. eauto. }
  destruct Hs as (s1 & -> & R1 & Hw1). simpl. destruct (IH _ _ _ R1 Hw1 E2) as (s2 & -> & ?). simpl. eauto.
Qed.

End Steps.

(** ** Start-up *)

(** The addresses of [n] watchdogs of [size] bytes from [w] on. *)
Fixpoint pool_from (n : nat) (w size : Z) : list Z :=
  match n with O => [] | S n' => w :: pool_from n' (w + size) size end.
Notation wd_pool base size := (pool_from CONFIG_PREALLOC_WDOGS base size).

Lemma pool_from_ge n w size p : 0 < size -> p ∈ pool_from n w size -> w <= p.
Proof.
  revert w; induction n as [|n IH]; simpl; intros w Hs Hp; [by apply elem_of_nil in Hp|].
  apply elem_of_cons in Hp as [-> | Hp]; [lia|]. apply IH in Hp; lia.
Qed.

Lemma pool_from_NoDup n w size : 0 < size -> NoDup (pool_from n w size).
Proof.
  intros Hs. revert w; induction n as [|n IH]; simpl; intros w; [constructor|].
  apply NoDup_cons. split; [|apply IH]. intros Hp. apply pool_from_ge in Hp; lia.
Qed.

Lemma init_loop_rep n w size q h l : 0 < size -> sq_rep h q l ->
  (forall p, p ∈ pool_from n w size -> p <> 0 /\ p ∉ l /\ is_Some (h !! p)) ->
  exists q' h', init_loop n w size (q, h) = Some (q', h') /\ sq_rep h' q' (l ++ pool_from n w size) /\ dom h' = dom h.
Proof.
  intros Hs. revert w q h l; induction n as [|n IH]; simpl; intros w q h l R Hp.
  { exists q, h. by rewrite app_nil_r. }
  destruct (Hp w) as (H0 & Hn & Ha); [by left|].
  destruct (sq_addlast_rep _ _ _ _ R H0 Hn Ha) as (q1 & h1 & -> & R1 & Ho). simpl.
  destruct (IH (w + size) q1 h1 (l ++ [w])) as (q2 & h2 & E & R2 & Hd); [done| |].
  - intros p Hp'. destruct (Hp p) as (? & ? & ?); [by right|]. split_and!; [done| |by eapply only_at_is_Some].
    rewrite elem_of_app, list_elem_of_singleton. intros [? | ->]; [done|]. apply pool_from_ge in Hp'; lia.
  - exists q2, h2. rewrite <- app_assoc in R2. split_and!; [done|done|]. destruct Ho. congruence.
Qed.

(** The watchdogs that exist at start-up: the pool, in the cleared memory of the
    kernel, and those that other parts declare statically. *)
Record wd_boot (base size : Z) (s : wd) : Prop := {
  boot_size : 0 < size;
  boot_links : dom (links s) = dom (dogs s);
  boot_null : dogs s !! 0 = None;
  boot_pool p : p ∈ wd_pool base size -> exists w, dogs s !! p = Some w /\ flags w = 0;
  boot_static p w : dogs s !! p = Some w -> p ∉ wd_pool base size -> flags w = WDOGF_STATIC
}.

Definition a_boot (base size : Z) (s : wd) : awd :=
  mkAwd [] (wd_pool base size) (kind_of <$> dogs s) (errno s) (masked s).

Lemma wd_initialize_rep base size s : wd_boot base size s ->
  exists s', wd_initialize base size s = Some s' /\ wd_rep (wd_pool base size) s' (a_boot base size s).
Proof.
  intros [Hs Hl H0 Hp Hst]. unfold wd_initialize.
  destruct (init_loop_rep CONFIG_PREALLOC_WDOGS base size sq_init (links s) []) as (q & h & E & R & Hd);
    [done|apply sq_rep_init| |].
  { intros p Hin. destruct (Hp p Hin) as (w & Hw & _). split_and!; [intros ->; congruence|by apply not_elem_of_nil|].
    apply elem_of_dom. rewrite Hl. apply elem_of_dom. eauto. }
  cbn [set_free set_active g_wdfreelist links fst snd]. rewrite E. eexists. split; [done|].
  assert (Hk : forall p, kinds (a_boot base size s) !! p = Some Pool <-> p ∈ wd_pool base size).
  { intros p. unfold a_boot. cbn [kinds]. rewrite lookup_fmap. split.
    - intros (w & Hw & E2)%fmap_Some. destruct (decide (p ∈ wd_pool base size)) as [|Hn]; [done|].
      pose proof (Hst _ _ Hw Hn) as Ef. destruct w. simpl in Ef. subst. done.
    - intros Hin. destruct (Hp _ Hin) as (w & -> & Ef). destruct w. simpl in Ef. by subst. }
  split; try done.
  - apply sq_rep_init.
  - intros p Hin. by apply elem_of_nil in Hin.
  - simpl. congruence.
  - intros p w Hw. simpl in Hw. cbn [a_boot timers fmap list_fmap]. split; [|intros Hin; by apply elem_of_nil in Hin].
    intros Ha. exfalso. destruct (decide (p ∈ wd_pool base size)) as [Hin|Hn].
    + destruct (Hp _ Hin) as (w' & Hw' & Ef). simplify_eq. destruct w. simpl in Ef. by subst.
    + pose proof (Hst _ _ Hw Hn) as Ef. destruct w. simpl in Ef. by subst.
  - intros p Hin. by apply Hk.
  - intros p Hin. by apply Hk.
Qed.

Section Properties.
Context {H : Handlers} (km : gset Z -> option (Z * wdog_s)).

(** C29: From its initialisation on, the watchdog module implements timers that know
    the ticks they have left: every sequence of start, cancel, get-time, create,
    delete, recover and timer-interrupt steps that respects the interface runs to
    its end (every list walk terminates, no NULL or stale pointer is followed),
    returns the results of the abstract timers, calls the expired functions as
    they do, and leaves a queue in which the lags are the differences of the
    remaining times and every active watchdog is queued exactly once. *)
Theorem wd_refines (base size : Z) (s0 : wd) (l : list wd_step) (rs : list Z) (a' : awd) :
  wd_boot base size s0 -> malloc_ok km -> HandlersOk (wd_pool base size) H ->
  a_steps km l (a_boot base size s0) = Some (rs, a') ->
  exists s s', wd_initialize base size s0 = Some s /\ wd_steps km l s = Some (rs, s') /\
    wd_rep (wd_pool base size) s' a' /\ waiting a'.
Proof.
  intros Hb Hm HO Ea. destruct (wd_initialize_rep _ _ _ Hb) as (s & Es & R).
  destruct (wd_steps_rep (wd_pool base size) km ltac:(done) Hm l s _ rs a' R) as (s' & E & Hs); [constructor|done|eauto].
Qed.

(** *** Expiry *)

Fixpoint wd_ticks (n : nat) (s : wd) : option wd :=
  match n with O => Some s | S n' => s' ← wd_timer call s; wd_ticks n' s' end.
Fixpoint a_ticks (n : nat) (a : awd) : option awd :=
  match n with O => Some a | S n' => a' ← a_timer a; a_ticks n' a' end.

(** The functions called leave the watchdog [d] alone. *)
Definition spares (d : Z) : Prop := forall f args a a', acall f args a = Some a' ->
  left_of d (timers a') = left_of d (timers a) /\ (d ∈ dom (kinds a) -> d ∈ dom (kinds a')).

Lemma left_of_tick d l : Forall (fun t => 1 <= t_left t) l -> d ∈ tdogs l -> left_of d (tick l) = left_of d l - 1.
Proof.
  induction 1 as [|x l Hx Hl IH]; csimpl; intros Hd; [by apply elem_of_nil in Hd|].
  simpl. destruct (decide (t_dog x = d)); [done|]. apply IH. set_solver.
Qed.

Lemma left_of_insert d n f args l : d ∉ tdogs l -> left_of d (insert_timer (mkTimer d n f args) l) = n.
Proof.
  induction l as [|x l IH]; intros Hd.
  - change (insert_timer _ []) with [mkTimer d n f args]. simpl. by rewrite decide_True.
  - csimpl in Hd. change (insert_timer ?t (x :: l)) with (if decide (t_left t < t_left x) then t :: x :: l else x :: insert_timer t l).
    destruct (decide _); simpl; [by rewrite decide_True|]. rewrite decide_False by set_solver. apply IH. set_solver.
Qed.

Lemma left_of_pos d l : left_of d l <> 0 -> d ∈ tdogs l.
Proof. intros Hl. destruct (decide (d ∈ tdogs l)); [done|]. by rewrite left_of_notin in Hl. Qed.

Lemma expire_left pool (HO : HandlersOk pool H) d m s a a' : spares d -> wd_rep pool s a -> a_expire m a = Some a' ->
  left_of d (timers a') = left_of d (timers a) /\ (d ∈ dom (kinds a) -> d ∈ dom (kinds a')).
Proof.
  intros Hsp. revert s a; induction m as [|m IH]; intros s a R Ea; simpl in Ea; [done|].
  destruct (timers a) as [|t l] eqn:El; [injection Ea as <-; by rewrite El|].
  destruct (decide (t_left t <= 0)) as [Hle|]; [|injection Ea as <-; by rewrite El].
  apply bind_Some in Ea as (a1 & Ec & Ea). destruct (expire_step pool 0 _ _ _ _ R El Hle) as (s1 & _ & R1).
  destruct (handler_rep _ _ _ _ _ R1 Ec) as (s2 & _ & R2).
  destruct (IH _ _ R2 Ea) as [E1 E2]. destruct (Hsp _ _ _ _ Ec) as [E3 E4]. simpl in E3, E4.
  split; [|auto]. rewrite E1, E3. simpl. destruct (decide (t_dog t = d)) as [Et|]; [|done].
  pose proof (rep_NoDup _ _ _ R) as Hn. pose proof (r_timers _ _ _ R) as Ht. rewrite El in Hn, Ht. csimpl in Hn.
  apply NoDup_cons in Hn as [Hn _]. rewrite Et in Hn. rewrite left_of_notin by done. destruct Ht as (_ & Hb & _). lia.
Qed.

Lemma wd_ticks_left pool (HO : HandlersOk pool H) d n s a a' : spares d -> wd_rep pool s a -> waiting a ->
  a_ticks n a = Some a' -> Z.of_nat n <= left_of d (timers a) -> d ∈ dom (kinds a) ->
  exists s', wd_ticks n s = Some s' /\ wd_rep pool s' a' /\
    left_of d (timers a') = left_of d (timers a) - Z.of_nat n /\ d ∈ dom (kinds a').
Proof.
  intros Hsp. revert s a; induction n as [|n IH]; intros s a R Hw Ea Hn Hk; simpl in Ea.
  { injection Ea as <-. exists s. split_and!; [done|done|lia|done]. }
  apply bind_Some in Ea as (a1 & E1 & Ea). destruct (wd_timer_rep pool _ _ _ R Hw E1) as (s1 & Es & R1 & Hw1).
  assert (Hl : left_of d (timers a1) = left_of d (timers a) - 1 /\ d ∈ dom (kinds a1)).
  { unfold a_timer in E1. assert (Hin : d ∈ tdogs (timers a)) by (apply left_of_pos; lia).
    assert (Hz : exists st, wd_rep pool st (with_timers (tick (timers a)) a)).
    { destruct (timers a) as [|x lx] eqn:El; [by apply elem_of_nil in Hin|].
      destruct (tick_rep pool _ _ _ _ R Hw El) as (w & _ & _ & _ & Rt). rewrite El in Rt. eauto. }
    destruct Hz as [st Rt]. destruct (expire_left pool HO d _ _ _ _ Hsp Rt E1) as [E2 E3].
    split; [|by apply E3]. rewrite E2. simpl. by apply left_of_tick. }
  destruct Hl as [Hl Hk1]. simpl. rewrite Es. simpl.
  destruct (IH _ _ R1 Hw1 Ea ltac:(lia) Hk1) as (s2 & E2 & R2 & Hl2 & Hk2). exists s2. split_and!; [done|done|lia|done].
Qed.

(** C30: A watchdog started with a delay of [delay] ticks expires on the tick after:
    after [n] further timer interrupts the kernel reports [delay + 1 - n] ticks
    remaining (the largest 32-bit time for the largest delay), and zero, the
    watchdog being off the queue, once that many interrupts have happened; other
    timers, and the functions they call, do not change this as long as they leave
    this watchdog alone. *)
Theorem wd_expires (pool : list Z) (s : wd) (a a1 a2 : awd) (d delay f : Z) (args : list Z) (n : nat) :
  HandlersOk pool H -> wd_rep pool s a -> waiting a -> spares d ->
  a_start d delay f args a = Some (OK, a1) -> a_ticks n a1 = Some a2 ->
  Z.of_nat n <= Z.min (delay + 1) INT_MAX ->
  exists s1 s2 s3, wd_start d delay f (Z.of_nat (length args)) args s = Some (OK, s1) /\ wd_ticks n s1 = Some s2 /\
    wd_gettime d s2 = Some (Z.min (delay + 1) INT_MAX - Z.of_nat n, s3).
Proof.
  intros HO R Hw Hsp Ea Et Hn. destruct (wd_start_rep _ _ _ _ _ _ _ _ _ R Ea) as (s1 & E1 & R1).
  pose proof (a_exec_kept (fun _ => None) (Start d delay f args) _ _ _ Ea) as [_ Hw1].
  unfold a_start in Ea. destruct (decide _) as [|Hne]; [done|]. destruct (decide _) as [(Hk & Hf & Hd)|]; [|done].
  injection Ea as <-. pose proof (inactive_after _ _ _ d R) as Hx.
  destruct (wd_ticks_left pool HO d n s1 _ a2 Hsp R1 (Hw1 Hw) Et) as (s2 & E2 & R2 & Hl & Hk2); [|done|].
  { simpl. by rewrite left_of_insert. }
  simpl in Hl. rewrite left_of_insert in Hl by done.
  destruct (wd_gettime_rep pool s2 a2 d (left_of d (timers a2)) a2 R2) as (s3 & E3 & _).
  { unfold a_gettime. rewrite decide_False by tauto. done. }
  rewrite Hl in E3. eauto 6.
Qed.

End Properties.

(** ** Functions that use the watchdogs themselves

    A function that performs a fixed list of watchdog operations, for instance to
    restart its own timer, satisfies the interface. *)

Fixpoint run_ops {S} (exec : wd_op -> S -> option (Z * S)) (ops : list wd_op) (s : S) : option S :=
  match ops with [] => Some s | op :: ops' => '(_, s') ← exec op s; run_ops exec ops' s' end.

Definition prog_handlers (km : gset Z -> option (Z * wdog_s)) (prog : Z -> list Z -> list wd_op) : Handlers := {|
  call f args := run_ops (wd_exec km) (prog f args);
  acall f args := run_ops (a_exec km) (prog f args)
|}.

Lemma prog_handlers_ok pool km prog : (length pool <= CONFIG_PREALLOC_WDOGS)%nat -> malloc_ok km ->
  HandlersOk pool (prog_handlers km prog).
Proof.
  intros Hp Hm. split; simpl; intros f args.
  - induction (prog f args) as [|op ops IH]; simpl; intros s a a' R E; [injection E as <-; eauto|].
    apply bind_Some in E as ([r a1] & E1 & E). destruct (wd_exec_rep _ _ _ _ _ _ _ Hp Hm R E1) as (s1 & -> & R1).
    simpl. by apply IH with a1.
  - induction (prog f args) as [|op ops IH]; simpl; intros a a' E; [by injection E as <-|].
    apply bind_Some in E as ([r a1] & E1 & E). apply a_exec_kept in E1 as [E1 _]. apply IH in E. lia.
Qed.

(** ** Witnesses *)

Definition sample_dogs : list (Z * wdog_s) :=
  ((fun p => (p, mkWdog 0 0 0 0 [0; 0])) <$> wd_pool 0x1000 28) ++ [(0x2000, mkWdog 0 0 WDOGF_STATIC 0 [0; 0])].
Definition sample_wd : wd :=
  mkWd (list_to_map ((fun x => (x.1, 0)) <$> sample_dogs)) (list_to_map sample_dogs) sq_init sq_init 0 0 false.
Definition sample_malloc (N : gset Z) : option (Z * wdog_s) :=
  if decide (0x3000 ∈ N) then None else Some (0x3000, mkWdog 7 7 7 7 [7; 7]).
(** Function 50 restarts the static watchdog; the others only return. *)
Definition sample_prog (f : Z) (args : list Z) : list wd_op :=
  if decide (f = 50) then [Start 0x2000 1 50 args] else [].

Lemma sample_malloc_ok : malloc_ok sample_malloc.
Proof.
  intros N d w. unfold sample_malloc. destruct (decide _); [done|]. intros [= <- <-]. split; [lia|done].
Qed.

Lemma sample_boot : wd_boot 0x1000 28 sample_wd.
Proof.
  split; [lia|vm_compute; reflexivity|vm_compute; reflexivity| |].
  - intros p Hp. rewrite list_elem_of_In in Hp. simpl in Hp.
    repeat destruct Hp as [<- | Hp]; try done; eexists; (split; [vm_compute; reflexivity|done]).
  - intros p w Hw. apply elem_of_list_to_map_2 in Hw. unfold sample_dogs in Hw.
    apply elem_of_app in Hw as [Hw|Hw].
    + apply list_elem_of_fmap in Hw as (q & [= -> ->] & Hq). done.
    + apply list_elem_of_singleton in Hw as [= -> ->]. done.
Qed.

#[local] Instance sample_handlers : Handlers := prog_handlers sample_malloc sample_prog.

Definition sample_program : list wd_step :=
  [Do (Create false); Do (Start 0x1000 3 40 [9]); Do (Start 0x2000 1 50 []); Do (Gettime 0x1000); Tick; Tick;
   Do (Gettime 0x2000); Do (Cancel 0x1000); Tick; Tick; Do (Gettime 0x2000); Do (Delete 0x1000); Do (Start 0x2000 (-1) 50 [])].

Lemma wd_refines_witness : exists s s',
  wd_initialize 0x1000 28 sample_wd = Some s /\
  wd_steps sample_malloc sample_program s = Some ([0x1000; 0; 0; 4; 0; 0; 2; 0; 0; 0; 2; 0; -1], s') /\
  exists a', wd_rep (wd_pool 0x1000 28) s' a' /\ waiting a'.
Proof.
  destruct (a_steps sample_malloc sample_program (a_boot 0x1000 28 sample_wd)) as [[rs a']|] eqn:E;
    [|exfalso; vm_compute in E; discriminate E].
  assert (Ers : option_map fst (a_steps sample_malloc sample_program (a_boot 0x1000 28 sample_wd))
                = Some [0x1000; 0; 0; 4; 0; 0; 2; 0; 0; 0; 2; 0; -1]) by (vm_compute; reflexivity).
  rewrite E in Ers. simpl in Ers. injection Ers as Ers. rewrite Ers in E.
  destruct (wd_refines sample_malloc 0x1000 28 sample_wd sample_program
              [0x1000; 0; 0; 4; 0; 0; 2; 0; 0; 0; 2; 0; -1] a' sample_boot sample_malloc_ok
              (prog_handlers_ok (wd_pool 0x1000 28) _ _ (le_n 8) sample_malloc_ok) E) as (s & s' & E1 & E2 & R & Hw).
  exists s, s'. split; [exact E1|]. split; [exact E2|]. exists a'. split; [exact R|exact Hw].
Defined.

(** Functions that only return. *)
Definition idle_handlers : Handlers := prog_handlers sample_malloc (fun _ _ => []).

Lemma idle_spares d : spares (H := idle_handlers) d.
Proof. intros f args a a' E. simpl in E. by injection E as <-. Qed.

Lemma wd_expires_witness : exists s s1 s2 s3, wd_initialize 0x1000 28 sample_wd = Some s /\
  wd_start 0x2000 5 40 1 [9] s = Some (OK, s1) /\ wd_ticks (H := idle_handlers) 4 s1 = Some s2 /\
  wd_gettime 0x2000 s2 = Some (2, s3).
Proof.
  destruct (wd_initialize_rep 0x1000 28 sample_wd sample_boot) as (s & E & R). exists s.
  destruct (a_start 0x2000 5 40 [9] (a_boot 0x1000 28 sample_wd)) as [[r a1]|] eqn:E1;
    [|exfalso; vm_compute in E1; discriminate E1].
  assert (Hr : r = OK) by (vm_compute in E1; injection E1 as <- _; reflexivity). rewrite Hr in E1.
  destruct (a_ticks (H := idle_handlers) 4 a1) as [a2|] eqn:E2;
    [|exfalso; vm_compute in E1; injection E1 as E1; rewrite <- E1 in E2; vm_compute in E2; discriminate E2].
  destruct (wd_expires (H := idle_handlers) (wd_pool 0x1000 28) s (a_boot 0x1000 28 sample_wd) a1 a2 0x2000 5 40 [9] 4
    (prog_handlers_ok (wd_pool 0x1000 28) _ _ (le_n 8) sample_malloc_ok) R (List.Forall_nil _) (idle_spares 0x2000) E1 E2 ltac:(vm_compute; discriminate))
    as (s1 & s2 & s3 & H1 & H2 & H3).
  exists s1, s2, s3. split; [exact E|]. split; [exact H1|]. split; [exact H2|exact H3].
Defined.
