(* ===== verification/Sched.v ===== *)
(** * The task lists of the scheduler (src/nuttx/sched/sched, arch/arm/src/armv7-m)

    Every task control block is in one of the kernel's task lists: the ready-to-run
    list, whose head is the running task, the list of tasks that wait for pre-emption
    to be enabled again, and a list for every reason to be blocked.  The lists are the
    doubly linked queues of [Queue]: the first two words of a [struct tcb_s] are its
    queue entry.  The model is the single-CPU build of the board, with round-robin
    slices and without priority inheritance.

    [current] is the task whose registers the processor holds.  A context switch saves
    them in the block of the task that ran and loads those of the next one: saving
    them anywhere else is undefined.  [ASSERT] and [PANIC] stop the system, which the
    model reports as [None]. *)

From Stdlib Require Import Sorting.Sorted.
From S2P Require Import Prelude Queue.

(** ** Data *)

Inductive tstate_e :=
| TSTATE_TASK_INVALID | TSTATE_TASK_PENDING | TSTATE_TASK_READYTORUN | TSTATE_TASK_RUNNING | TSTATE_TASK_INACTIVE
| TSTATE_WAIT_SEM | TSTATE_WAIT_SIG | TSTATE_WAIT_MQNOTEMPTY | TSTATE_WAIT_MQNOTFULL.
#[export] Instance tstate_eq_dec : EqDecision tstate_e.
Proof. solve_decision. Defined.

Inductive tasklist :=
| g_readytorun | g_pendingtasks | g_inactivetasks | g_waitingforsemaphore | g_waitingforsignal
| g_waitingformqnotempty | g_waitingformqnotfull.
#[export] Instance tasklist_eq_dec : EqDecision tasklist.
Proof. solve_decision. Defined.

(** The list of a state ([NULL] for the invalid state) and whether it is prioritized. *)
Definition g_tasklisttable (st : tstate_e) : option tasklist * bool :=
  match st with
  | TSTATE_TASK_INVALID => (None, false)
  | TSTATE_TASK_PENDING => (Some g_pendingtasks, true)
  | TSTATE_TASK_READYTORUN | TSTATE_TASK_RUNNING => (Some g_readytorun, true)
  | TSTATE_TASK_INACTIVE => (Some g_inactivetasks, false)
  | TSTATE_WAIT_SEM => (Some g_waitingforsemaphore, true)
  | TSTATE_WAIT_SIG => (Some g_waitingforsignal, false)
  | TSTATE_WAIT_MQNOTEMPTY => (Some g_waitingformqnotempty, true)
  | TSTATE_WAIT_MQNOTFULL => (Some g_waitingformqnotfull, true)
  end.
Definition TLIST_HEAD (st : tstate_e) : option tasklist := (g_tasklisttable st).1.
Definition TLIST_ISPRIORITIZED (st : tstate_e) : bool := (g_tasklisttable st).2.

(** [FIRST_READY_TO_RUN_STATE <= st <= LAST_READY_TO_RUN_STATE], and the same for the
    blocked states. *)
Definition is_ready_state (st : tstate_e) : bool :=
  match st with TSTATE_TASK_READYTORUN | TSTATE_TASK_RUNNING => true | _ => false end.
Definition is_blocked_state (st : tstate_e) : bool :=
  match st with
  | TSTATE_TASK_INVALID | TSTATE_TASK_PENDING | TSTATE_TASK_READYTORUN | TSTATE_TASK_RUNNING => false
  | _ => true
  end.

Definition SCHED_PRIORITY_MIN : Z := 1.
Definition SCHED_PRIORITY_MAX : Z := 255.
Definition TCB_FLAG_POLICY_MASK : Z := 96.
Definition TCB_FLAG_SCHED_RR : Z := 32.
Definition MAX_TASKS_MASK : Z := 15.
(** [MSEC2TICK(CONFIG_RR_INTERVAL)], with ticks of 10 ms. *)
Definition RR_TICKS : Z := (200 + 10 / 2) / 10.

(** [struct tcb_s], without the links. *)
Record tcb_s := mkTcb {
  pid : Z; sched_priority : Z; init_priority : Z; task_state : tstate_e; tcb_flags : Z;
  lockcount : Z; timeslice : Z; waitsem : Z; pterrno : Z
}.

Definition set_state (st : tstate_e) (c : tcb_s) : tcb_s :=
  mkTcb (pid c) (sched_priority c) (init_priority c) st (tcb_flags c) (lockcount c) (timeslice c) (waitsem c) (pterrno c).
Definition set_priority (p : Z) (c : tcb_s) : tcb_s :=
  mkTcb (pid c) p (init_priority c) (task_state c) (tcb_flags c) (lockcount c) (timeslice c) (waitsem c) (pterrno c).
Definition set_lockcount (n : Z) (c : tcb_s) : tcb_s :=
  mkTcb (pid c) (sched_priority c) (init_priority c) (task_state c) (tcb_flags c) n (timeslice c) (waitsem c) (pterrno c).
Definition set_timeslice (n : Z) (c : tcb_s) : tcb_s :=
  mkTcb (pid c) (sched_priority c) (init_priority c) (task_state c) (tcb_flags c) (lockcount c) n (waitsem c) (pterrno c).
Definition set_waitsem (n : Z) (c : tcb_s) : tcb_s :=
  mkTcb (pid c) (sched_priority c) (init_priority c) (task_state c) (tcb_flags c) (lockcount c) (timeslice c) n (pterrno c).
Definition set_pterrno (n : Z) (c : tcb_s) : tcb_s :=
  mkTcb (pid c) (sched_priority c) (init_priority c) (task_state c) (tcb_flags c) (lockcount c) (timeslice c) (waitsem c) n.

Record sched := mkSched {
  tcb_links : dq_heap;
  tcbs : gmap Z tcb_s;
  queues : tasklist -> dq_queue;
  g_pidhash : gmap Z (Z * Z);
  current : Z
}.

Definition fupd {A} (l : tasklist) (x : A) (f : tasklist -> A) : tasklist -> A :=
  fun l' => if decide (l' = l) then x else f l'.

Definition with_queue (l : tasklist) (q : dq_queue) (h : dq_heap) (s : sched) : sched :=
  mkSched h (tcbs s) (fupd l q (queues s)) (g_pidhash s) (current s).
Definition with_tcbs (m : gmap Z tcb_s) (s : sched) : sched :=
  mkSched (tcb_links s) m (queues s) (g_pidhash s) (current s).
Definition with_current (t : Z) (s : sched) : sched :=
  mkSched (tcb_links s) (tcbs s) (queues s) (g_pidhash s) t.

(** [t->field = ...] on an existing block. *)
Definition upd_tcb (t : Z) (f : tcb_s -> tcb_s) (s : sched) : option sched :=
  c ← tcbs s !! t; Some (with_tcbs (<[t := f c]> (tcbs s)) s).

Definition this_task (s : sched) : Z := dq_head (queues s g_readytorun).

(** ** The lists *)

(** [for (; next && priority <= next->sched_priority; next = next->flink);] *)
Fixpoint seek (fuel : nat) (s : sched) (priority next : Z) : option Z :=
  match fuel with
  | O => None
  | S fuel' =>
    if decide (next = 0) then Some 0
    else
      c ← tcbs s !! next;
      if decide (priority <= sched_priority c) then e ← tcb_links s !! next; seek fuel' s priority (flink e)
      else Some next
  end.

(** The links of a task that goes to the end of a list, and just before [next]: whether
    it is the new head, the list, the store. *)
Definition link_last (tcb : Z) (q : dq_queue) (h : dq_heap) : option (bool * dq_queue * dq_heap) :=
  let prev := dq_tail q in
  if decide (prev = 0) then
    h ← set_flink tcb 0 h;
    h ← set_blink tcb 0 h;
    Some (true, mkDq tcb tcb, h)
  else
    h ← set_flink tcb 0 h;
    h ← set_blink tcb prev h;
    h ← set_flink prev tcb h;
    Some (false, mkDq (dq_head q) tcb, h).

Definition link_before (tcb next prev : Z) (q : dq_queue) (h : dq_heap) : option (bool * dq_queue * dq_heap) :=
  if decide (prev = 0) then
    h ← set_flink tcb next h;
    h ← set_blink tcb 0 h;
    h ← set_blink next tcb h;
    Some (true, mkDq tcb (dq_tail q), h)
  else
    h ← set_flink tcb next h;
    h ← set_blink tcb prev h;
    h ← set_flink prev tcb h;
    h ← set_blink next tcb h;
    Some (false, q, h).

Definition sched_addprioritized (tcb : Z) (l : tasklist) (s : sched) : option (bool * sched) :=
  c ← tcbs s !! tcb;
  if decide (sched_priority c < SCHED_PRIORITY_MIN) then None
  else
    let q := queues s l in
    next ← seek (S (size (tcb_links s))) s (sched_priority c) (dq_head q);
    '(ret, q, h) ← (if decide (next = 0) then link_last tcb q (tcb_links s)
                    else e ← tcb_links s !! next; link_before tcb next (blink e) q (tcb_links s));
    Some (ret, with_queue l q h s).

Definition sched_addreadytorun (btcb : Z) (s : sched) : option (bool * sched) :=
  let rtcb := this_task s in
  r ← tcbs s !! rtcb;
  b ← tcbs s !! btcb;
  if decide (0 < lockcount r /\ sched_priority r < sched_priority b) then
    '(_, s) ← sched_addprioritized btcb g_pendingtasks s;
    s ← upd_tcb btcb (set_state TSTATE_TASK_PENDING) s;
    Some (false, s)
  else
    '(ret, s) ← sched_addprioritized btcb g_readytorun s;
    if ret : bool then
      s ← upd_tcb btcb (set_state TSTATE_TASK_RUNNING) s;
      e ← tcb_links s !! btcb;
      s ← upd_tcb (flink e) (set_state TSTATE_TASK_READYTORUN) s;
      Some (true, s)
    else
      s ← upd_tcb btcb (set_state TSTATE_TASK_READYTORUN) s;
      Some (false, s).

Definition sched_removereadytorun (rtcb : Z) (s : sched) : option (bool * sched) :=
  e ← tcb_links s !! rtcb;
  '(doswitch, s) ← (if decide (blink e = 0) then
                      s ← upd_tcb (flink e) (set_state TSTATE_TASK_RUNNING) s; Some (true, s)
                    else Some (false, s));
  '(q, h) ← dq_rem rtcb (queues s g_readytorun) (tcb_links s);
  let s := with_queue g_readytorun q h s in
  s ← upd_tcb rtcb (set_state TSTATE_TASK_INVALID) s;
  Some (doswitch, s).

Definition sched_addblocked (btcb : Z) (st : tstate_e) (s : sched) : option sched :=
  l ← TLIST_HEAD st;
  s ← (if TLIST_ISPRIORITIZED st then '(_, s) ← sched_addprioritized btcb l s; Some s
       else '(q, h) ← dq_addlast btcb (queues s l) (tcb_links s); Some (with_queue l q h s));
  upd_tcb btcb (set_state st) s.

Definition sched_removeblocked (btcb : Z) (s : sched) : option sched :=
  c ← tcbs s !! btcb;
  l ← TLIST_HEAD (task_state c);
  '(q, h) ← dq_rem btcb (queues s l) (tcb_links s);
  upd_tcb btcb (set_state TSTATE_TASK_INVALID) (with_queue l q h s).

(** The loop over the pending tasks; [rtcb] is where the search in the ready-to-run
    list goes on. *)
Fixpoint merge_loop (fuel : nat) (ptcb rtcb : Z) (ret : bool) (s : sched) : option (bool * sched) :=
  match fuel with
  | O => None
  | S fuel' =>
    if decide (ptcb = 0) then Some (ret, s)
    else
      e ← tcb_links s !! ptcb;
      let pnext := flink e in
      p ← tcbs s !! ptcb;
      rtcb ← seek (S (size (tcb_links s))) s (sched_priority p) rtcb;
      if decide (rtcb = 0) then None
      else
        e ← tcb_links s !! rtcb;
        '(first, q, h) ← link_before ptcb rtcb (blink e) (queues s g_readytorun) (tcb_links s);
        let s := with_queue g_readytorun q h s in
        if first : bool then
          s ← upd_tcb rtcb (set_state TSTATE_TASK_READYTORUN) s;
          s ← upd_tcb ptcb (set_state TSTATE_TASK_RUNNING) s;
          merge_loop fuel' pnext ptcb true s
        else
          s ← upd_tcb ptcb (set_state TSTATE_TASK_READYTORUN) s;
          merge_loop fuel' pnext ptcb ret s
  end.

Definition sched_mergepending (s : sched) : option (bool * sched) :=
  '(ret, s) ← merge_loop (S (size (tcb_links s))) (dq_head (queues s g_pendingtasks)) (this_task s) false s;
  Some (ret, with_queue g_pendingtasks dq_init (tcb_links s) s).

(** ** Context switches *)

Definition sched_resume_scheduler (tcb : Z) (s : sched) : option sched := upd_tcb tcb (set_timeslice RR_TICKS) s.

(** [up_switchcontext], or [up_savestate] and [up_restorestate] in an interrupt handler:
    the registers of the running task go to the block [from]. *)
Definition up_switchcontext (from to : Z) (s : sched) : option sched :=
  if decide (current s = from) then Some (with_current to s) else None.

Definition switch_from (rtcb : Z) (s : sched) : option sched :=
  let nexttcb := this_task s in
  s ← sched_resume_scheduler nexttcb s;
  up_switchcontext rtcb nexttcb s.

(** [if (g_pendingtasks.head) sched_mergepending();] *)
Definition merge_if_pending (s : sched) : option (bool * sched) :=
  if decide (dq_head (queues s g_pendingtasks) <> 0) then sched_mergepending s else Some (false, s).

Definition up_block_task (tcb : Z) (st : tstate_e) (s : sched) : option sched :=
  let rtcb := this_task s in
  c ← tcbs s !! tcb;
  if negb (is_ready_state (task_state c)) then None
  else
    '(switch_needed, s) ← sched_removereadytorun tcb s;
    s ← sched_addblocked tcb st s;
    '(b, s) ← merge_if_pending s;
    if switch_needed || b then switch_from rtcb s else Some s.

Definition up_unblock_task (tcb : Z) (s : sched) : option sched :=
  let rtcb := this_task s in
  c ← tcbs s !! tcb;
  if negb (is_blocked_state (task_state c)) then None
  else
    s ← sched_removeblocked tcb s;
    '(b, s) ← sched_addreadytorun tcb s;
    if b : bool then switch_from rtcb s else Some s.

Definition up_release_pending (s : sched) : option sched :=
  let rtcb := this_task s in
  '(b, s) ← sched_mergepending s;
  if b : bool then switch_from rtcb s else Some s.

Definition up_reprioritize_rtr (tcb priority : Z) (s : sched) : option sched :=
  c ← tcbs s !! tcb;
  if negb (is_ready_state (task_state c)) then None
  else if decide (priority < SCHED_PRIORITY_MIN) then None
  else
    let rtcb := this_task s in
    '(b1, s) ← sched_removereadytorun tcb s;
    s ← upd_tcb tcb (set_priority (u8 priority)) s;
    '(b2, s) ← sched_addreadytorun tcb s;
    if xorb b1 b2 then
      '(_, s) ← merge_if_pending s;
      switch_from rtcb s
    else Some s.

(** ** Pre-emption *)

(** [irq] is [up_interrupt_context()]. *)
Definition sched_lock (irq : bool) (s : sched) : option sched :=
  let rtcb := this_task s in
  if decide (rtcb <> 0 /\ irq = false) then upd_tcb rtcb (fun c => set_lockcount (s16 (lockcount c + 1)) c) s
  else Some s.

Definition is_rr (c : tcb_s) : bool := Z.land (tcb_flags c) TCB_FLAG_POLICY_MASK =? TCB_FLAG_SCHED_RR.

(** What follows the release of the pending tasks; when that switched to another task
    it runs once [rtcb] runs again. *)
Definition unlock_tail (rtcb : Z) (s : sched) : option sched :=
  c ← tcbs s !! rtcb;
  if decide (is_rr c = true /\ timeslice c = 0) then
    if decide (rtcb <> this_task s) then upd_tcb rtcb (set_timeslice RR_TICKS) s else Some s
  else Some s.

Definition sched_unlock (irq : bool) (s : sched) : option sched :=
  let rtcb := this_task s in
  if decide (rtcb <> 0 /\ irq = false) then
    c ← tcbs s !! rtcb;
    s ← (if decide (0 < lockcount c) then upd_tcb rtcb (set_lockcount (s16 (lockcount c - 1))) s else Some s);
    c ← tcbs s !! rtcb;
    if decide (lockcount c <= 0) then
      s ← upd_tcb rtcb (set_lockcount 0) s;
      s ← (if decide (dq_head (queues s g_pendingtasks) <> 0) then up_release_pending s else Some s);
      if decide (current s = rtcb) then unlock_tail rtcb s else Some s
    else Some s
  else Some s.

Definition sched_lockcount (s : sched) : option Z := c ← tcbs s !! this_task s; Some (lockcount c).

(** ** Priorities *)

Definition sched_running_setpriority (tcb priority : Z) (s : sched) : option sched :=
  e ← tcb_links s !! tcb;
  n ← tcbs s !! flink e;
  if decide (priority <= sched_priority n) then up_reprioritize_rtr tcb (u8 priority) s
  else upd_tcb tcb (set_priority (u8 priority)) s.

Definition sched_readytorun_setpriority (tcb priority : Z) (s : sched) : option sched :=
  let rtcb := this_task s in
  r ← tcbs s !! rtcb;
  if decide (sched_priority r < priority) then up_reprioritize_rtr tcb (u8 priority) s
  else
    '(b, s) ← sched_removereadytorun tcb s;
    if b : bool then None
    else
      s ← upd_tcb tcb (set_priority (u8 priority)) s;
      '(b, s) ← sched_addreadytorun tcb s;
      if b : bool then None else Some s.

Definition sched_blocked_setpriority (tcb priority : Z) (s : sched) : option sched :=
  c ← tcbs s !! tcb;
  if TLIST_ISPRIORITIZED (task_state c) then
    l ← TLIST_HEAD (task_state c);
    '(q, h) ← dq_rem tcb (queues s l) (tcb_links s);
    let s := with_queue l q h s in
    s ← upd_tcb tcb (set_priority (u8 priority)) s;
    '(_, s) ← sched_addprioritized tcb l s;
    Some s
  else upd_tcb tcb (set_priority (u8 priority)) s.

(** [set_errno] writes the errno of the running task. *)
Definition set_errno (e : Z) (s : sched) : option sched := upd_tcb (this_task s) (set_pterrno e) s.

Definition sched_setpriority (tcb priority : Z) (s : sched) : option (Z * sched) :=
  if decide (priority < SCHED_PRIORITY_MIN \/ SCHED_PRIORITY_MAX < priority) then
    s ← set_errno EINVAL s; Some (ERROR, s)
  else
    c ← tcbs s !! tcb;
    s ← (match task_state c with
         | TSTATE_TASK_RUNNING => sched_running_setpriority tcb priority s
         | TSTATE_TASK_READYTORUN => sched_readytorun_setpriority tcb priority s
         | _ => sched_blocked_setpriority tcb priority s
         end);
    Some (OK, s).

Definition sched_yield (s : sched) : option (Z * sched) :=
  let rtcb := this_task s in
  c ← tcbs s !! rtcb;
  sched_setpriority rtcb (sched_priority c) s.

(** ** Time slices *)

Definition sched_roundrobin_process (tcb ticks : Z) (noswitches : bool) (s : sched) : option (Z * sched) :=
  c ← tcbs s !! tcb;
  let decr := s32 (if decide (u32 (timeslice c) < ticks) then u32 (timeslice c) else ticks) in
  s ← upd_tcb tcb (set_timeslice (s32 (timeslice c - decr))) s;
  c ← tcbs s !! tcb;
  let ret := u32 (timeslice c) in
  if decide (timeslice c <= 0 /\ ~ 0 < lockcount c) then
    if noswitches then Some (1, s)
    else
      s ← upd_tcb tcb (set_timeslice RR_TICKS) s;
      e ← tcb_links s !! tcb;
      if decide (flink e <> 0) then
        n ← tcbs s !! flink e;
        if decide (sched_priority c <= sched_priority n)
        then s ← up_reprioritize_rtr tcb (sched_priority c) s; Some (RR_TICKS, s)
        else Some (RR_TICKS, s)
      else Some (RR_TICKS, s)
  else Some (ret, s).

(** [sched_process_scheduler] on the single CPU. *)
Definition sched_process_scheduler (s : sched) : option sched :=
  let rtcb := this_task s in
  c ← tcbs s !! rtcb;
  if is_rr c then '(_, s) ← sched_roundrobin_process rtcb 1 false s; Some s else Some s.

(** ** Tasks *)

Definition sched_gettcb (p : Z) (s : sched) : option Z :=
  if decide (0 <= p) then
    '(p', t) ← g_pidhash s !! Z.land p MAX_TASKS_MASK;
    Some (if decide (p = p') then t else 0)
  else Some 0.

Definition task_activate (tcb : Z) (s : sched) : option (Z * sched) := s ← up_unblock_task tcb s; Some (OK, s).

(** ** The specification

    An abstract scheduler has the task lists as lists and the blocks without their
    states: the list of a task, and for the ready-to-run list its position, say what
    the state is. *)

Record asched := mkA { a_lists : tasklist -> list Z; a_tasks : gmap Z tcb_s }.

Definition info (c : tcb_s) : tcb_s := set_state TSTATE_TASK_INVALID c.
Definition prio (m : gmap Z tcb_s) (t : Z) : Z := match m !! t with Some c => sched_priority c | None => 0 end.
Definition lock_of (m : gmap Z tcb_s) (t : Z) : Z := match m !! t with Some c => lockcount c | None => 0 end.

(** A task goes behind the tasks of its own or a higher priority. *)
Fixpoint upto_prio (m : gmap Z tcb_s) (p : Z) (l : list Z) : list Z :=
  match l with [] => [] | x :: l' => if decide (p <= prio m x) then x :: upto_prio m p l' else [] end.
Fixpoint after_prio (m : gmap Z tcb_s) (p : Z) (l : list Z) : list Z :=
  match l with [] => [] | x :: l' => if decide (p <= prio m x) then after_prio m p l' else l end.
Definition place (m : gmap Z tcb_s) (t : Z) (l : list Z) : list Z :=
  upto_prio m (prio m t) l ++ t :: after_prio m (prio m t) l.

Definition a_with (l : tasklist) (x : list Z) (a : asched) : asched := mkA (fupd l x (a_lists a)) (a_tasks a).
Definition a_upd (t : Z) (f : tcb_s -> tcb_s) (a : asched) : asched := mkA (a_lists a) (alter f t (a_tasks a)).
Definition a_this (a : asched) : Z := fst_of 0 (a_lists a g_readytorun).
Definition a_drop (t : Z) (a : asched) : asched := mkA (fun l => remove_node t (a_lists a l)) (a_tasks a).

(** A task becomes ready: it waits when pre-emption is disabled and it would pre-empt. *)
Definition a_add (t : Z) (a : asched) : asched :=
  let m := a_tasks a in
  let h := a_this a in
  if decide (0 < lock_of m h /\ prio m h < prio m t)
  then a_with g_pendingtasks (place m t (a_lists a g_pendingtasks)) a
  else a_with g_readytorun (place m t (a_lists a g_readytorun)) a.

Definition a_merge (a : asched) : asched :=
  a_with g_pendingtasks []
    (a_with g_readytorun (fold_left (fun l t => place (a_tasks a) t l) (a_lists a g_pendingtasks) (a_lists a g_readytorun)) a).

(** A task that starts to run gets a new time slice. *)
Definition a_switch (from : Z) (a : asched) : asched :=
  if decide (a_this a = from) then a else a_upd (a_this a) (set_timeslice RR_TICKS) a.

Definition a_queue (t : Z) (st : tstate_e) (a : asched) : asched :=
  match TLIST_HEAD st with
  | Some l => a_with l (if TLIST_ISPRIORITIZED st then place (a_tasks a) t (a_lists a l) else a_lists a l ++ [t]) a
  | None => a
  end.

Definition a_block (st : tstate_e) (a : asched) : asched :=
  let t := a_this a in a_switch t (a_merge (a_queue t st (a_drop t a))).
Definition a_unblock (t : Z) (a : asched) : asched := a_switch (a_this a) (a_add t (a_drop t a)).
Definition a_release (a : asched) : asched := a_switch (a_this a) (a_merge a).
Definition a_reprio (t p : Z) (a : asched) : asched :=
  let a' := a_add t (a_upd t (set_priority p) (a_drop t a)) in
  if decide (a_this a' = a_this a) then a' else a_switch (a_this a) (a_merge a').

(** ** The representation *)

Definition list_state (l : tasklist) (first : bool) : tstate_e :=
  match l with
  | g_readytorun => if first then TSTATE_TASK_RUNNING else TSTATE_TASK_READYTORUN
  | g_pendingtasks => TSTATE_TASK_PENDING
  | g_inactivetasks => TSTATE_TASK_INACTIVE
  | g_waitingforsemaphore => TSTATE_WAIT_SEM
  | g_waitingforsignal => TSTATE_WAIT_SIG
  | g_waitingformqnotempty => TSTATE_WAIT_MQNOTEMPTY
  | g_waitingformqnotfull => TSTATE_WAIT_MQNOTFULL
  end.
Definition is_first (t : Z) (l : list Z) : bool := bool_decide (fst_of 0 l = t).

(** [s] represents [a], but for the states of the tasks [X]. *)
Record rep (X : list Z) (s : sched) (a : asched) : Prop := {
  r_q l : dq_rep (tcb_links s) (queues s l) (a_lists a l);
  r_apart l l' t : t ∈ a_lists a l -> t ∈ a_lists a l' -> l = l';
  r_dom : dom (tcb_links s) = dom (tcbs s);
  r_tasks : info <$> tcbs s = a_tasks a;
  r_null : tcbs s !! 0 = None;
  r_state l t c : t ∈ a_lists a l -> t ∉ X -> tcbs s !! t = Some c -> task_state c = list_state l (is_first t (a_lists a l))
}.

Definition same_rest (s s' : sched) : Prop := current s' = current s /\ g_pidhash s' = g_pidhash s.

Lemma split_prio m p l : upto_prio m p l ++ after_prio m p l = l.
Proof. induction l as [|x l IH]; simpl; [done|]. destruct (decide _); simpl; congruence. Qed.

Lemma place_elem m t l x : x ∈ place m t l <-> x = t \/ x ∈ l.
Proof. unfold place. rewrite <- (split_prio m (prio m t) l) at 3. rewrite !elem_of_app, elem_of_cons. tauto. Qed.

Lemma prio_info m t : prio (info <$> m) t = prio m t.
Proof. unfold prio. rewrite lookup_fmap. by destruct (m !! t). Qed.
Lemma lock_info m t : lock_of (info <$> m) t = lock_of m t.
Proof. unfold lock_of. rewrite lookup_fmap. by destruct (m !! t). Qed.
Lemma prio_some m t c : m !! t = Some c -> prio m t = sched_priority c.
Proof. unfold prio. by intros ->. Qed.
Lemma lock_some m t c : m !! t = Some c -> lock_of m t = lockcount c.
Proof. unfold lock_of. by intros ->. Qed.

Section Rep.
Context (X : list Z) (s : sched) (a : asched) (R : rep X s a).

Lemma r_alloc l t : t ∈ a_lists a l -> t <> 0 /\ is_Some (tcb_links s !! t) /\ is_Some (tcbs s !! t).
Proof.
  intros Ht. destruct (r_q _ _ _ R l) as (_ & _ & Hs & _). destruct (dseg_alloc _ _ _ _ _ Hs Ht) as [H0 H1].
  split_and!; [done|done|]. apply elem_of_dom. rewrite <- (r_dom _ _ _ R). by apply elem_of_dom.
Qed.

Lemma r_link t : is_Some (tcbs s !! t) -> t <> 0 /\ is_Some (tcb_links s !! t).
Proof.
  intros Ht. split.
  - intros ->. rewrite (r_null _ _ _ R) in Ht. by destruct Ht.
  - apply elem_of_dom. rewrite (r_dom _ _ _ R). by apply elem_of_dom.
Qed.

Lemma r_prio t : prio (a_tasks a) t = prio (tcbs s) t.
Proof. by rewrite <- (r_tasks _ _ _ R), prio_info. Qed.
Lemma r_lock t : lock_of (a_tasks a) t = lock_of (tcbs s) t.
Proof. by rewrite <- (r_tasks _ _ _ R), lock_info. Qed.
Lemma r_info t c : tcbs s !! t = Some c -> a_tasks a !! t = Some (info c).
Proof. intros H. by rewrite <- (r_tasks _ _ _ R), lookup_fmap, H. Qed.

Lemma r_known t : is_Some (tcbs s !! t) <-> is_Some (a_tasks a !! t).
Proof. rewrite <- (r_tasks _ _ _ R), lookup_fmap, fmap_is_Some. done. Qed.

Lemma r_this : this_task s = a_this a.
Proof. apply (r_q _ _ _ R g_readytorun). Qed.

Lemma r_head l : dq_head (queues s l) = fst_of 0 (a_lists a l).
Proof. apply (r_q _ _ _ R l). Qed.

Lemma r_nodup l : NoDup (a_lists a l).
Proof. apply (r_q _ _ _ R l). Qed.

Lemma r_size l k : a_lists a l = k -> (length k <= size (tcb_links s))%nat.
Proof. intros <-. apply size_bound; [apply r_nodup|]. intros p Hp. by apply (r_alloc l). Qed.

End Rep.

(** Searching from inside a list. *)
Lemma seek_ok fuel s p b l : dseg (tcb_links s) b l 0 -> (forall x, x ∈ l -> is_Some (tcbs s !! x)) -> (length l < fuel)%nat ->
  seek fuel s p (fst_of 0 l) = Some (fst_of 0 (after_prio (tcbs s) p l)).
Proof.
  revert b l; induction fuel as [|fuel IH]; [lia|]. intros b [|x l] Hs Ha Hf; simpl.
  - done.
  - destruct Hs as (H0 & Hl & Hs). rewrite decide_False by done. destruct (Ha x) as [c Hc]; [by left|]. rewrite Hc. simpl.
    rewrite (prio_some _ _ _ Hc). destruct (decide _); [|done]. rewrite Hl. simpl.
    apply (IH x); [done|set_solver|simpl in Hf; lia].
Qed.

Lemma upto_ext m m' p l : (forall x, x ∈ l -> prio m x = prio m' x) -> upto_prio m p l = upto_prio m' p l /\ after_prio m p l = after_prio m' p l.
Proof.
  induction l as [|x l IH]; simpl; [done|]. intros H. rewrite (H x) by (by left).
  destruct IH as [E1 E2]; [set_solver|]. rewrite E1, E2. by destruct (decide _).
Qed.

Lemma place_ext m m' t l : (forall x, prio m x = prio m' x) -> place m t l = place m' t l.
Proof. intros H. unfold place. rewrite H. by destruct (upto_ext m m' (prio m' t) l) as [-> ->]. Qed.

Lemma lst_nil l : 0 ∉ l -> (lst 0 l = 0 <-> l = []).
Proof. intros H. split; [|by intros ->]. destruct l; [done|]. intros E. pose proof (lst_in_cons 0 z l). rewrite E in *. done. Qed.

Lemma fst_nil l : 0 ∉ l -> (fst_of 0 l = 0 <-> l = []).
Proof. intros H. destruct l; simpl; [done|]. split; [|done]. intros ->. set_solver. Qed.

(** Linking a task into a list. *)
Lemma link_last_ok h q k t : dq_rep h q k -> t <> 0 -> t ∉ k -> is_Some (h !! t) ->
  exists q' h', link_last t q h = Some (bool_decide (k = []), q', h') /\ dq_rep h' q' (k ++ [t]) /\ only_at (t :: k) h h'.
Proof.
  intros R H0 Hn [e He]. pose proof R as (Eh & Et & Hs & Hd). unfold link_last.
  assert (Hz : 0 ∉ k). { intros Hz. by destruct (dseg_alloc _ _ _ _ _ Hs Hz). }
  rewrite Et. destruct (snoc_inv k) as [-> | (k' & p & ->)].
  - simpl. dq_sets. do 2 eexists. split; [done|]. split; [|only_ok]. split_and!; simpl; [done|done|dseg_ok|apply NoDup_singleton].
  - rewrite decide_False by (rewrite lst_nil by done; by destruct k'). rewrite bool_decide_false by (by destruct k').
    rewrite lst_app. simpl. apply dseg_app in Hs as (Hs & Hx & Hl & _). simpl in *.
    assert (t <> p) by set_solver. apply NoDup_app in Hd as (Hd1 & Hd2 & _). dq_sets.
    do 2 eexists. split; [done|]. split; [split_and!; simpl|only_ok].
    + by rewrite Eh, !fst_of_app.
    + by rewrite lst_app.
    + rewrite <- app_assoc. apply dseg_app. dseg_ok.
    + rewrite !NoDup_app. split_and!; [done|set_solver|apply NoDup_singleton|set_solver|apply NoDup_singleton].
Qed.

Lemma link_before_ok h q k1 y k2 t : dq_rep h q (k1 ++ y :: k2) -> t <> 0 -> t ∉ k1 ++ y :: k2 -> is_Some (h !! t) ->
  exists q' h', link_before t y (lst 0 k1) q h = Some (bool_decide (k1 = []), q', h') /\
    dq_rep h' q' (k1 ++ t :: y :: k2) /\ only_at (t :: k1 ++ y :: k2) h h'.
Proof.
  intros R H0 Hn [e He]. pose proof R as (Eh & Et & Hs & Hd). unfold link_before. assert (t <> y) by set_solver.
  destruct (snoc_inv k1) as [-> | (k & p & ->)]; simpl.
  - simpl in *. destruct Hs as (Hy & Hl & Hs). apply NoDup_cons in Hd as [Hd1 Hd2]. dq_sets.
    do 2 eexists. split; [done|]. split; [split_and!; simpl|only_ok]; [done|done|dseg_ok|rewrite !NoDup_cons; set_solver].
  - rewrite lst_app. simpl. rewrite <- app_assoc in *. simpl in *. pose proof (NoDup_split2 _ _ _ _ Hd) as (? & ? & ? & ? & ?).
    apply dseg_app in Hs as (Hs1 & Hp0 & Hl & Hy0 & Hly & Hs2). simpl in *. rewrite decide_False by done.
    rewrite bool_decide_false by (by destruct k). assert (t <> p) by set_solver. dq_sets.
    do 2 eexists. split; [done|]. rewrite <- app_assoc. split; [|only_ok]. simpl. eapply dq_link_middle; [done..|dq_mid|dq_mid|dq_mid|dq_mid].
Qed.

#[local] Arguments seek : simpl never.

(** A list of the representation is replaced. *)
Lemma relist X X' s a l q h k : rep X s a -> dq_rep h q k -> dom h = dom (tcb_links s) ->
  (forall x l', l' <> l -> x ∈ a_lists a l' -> x ∉ k /\ h !! x = tcb_links s !! x /\ (x ∈ X -> x ∈ X')) ->
  (forall x, x ∈ k -> x ∉ X' -> x ∈ a_lists a l /\ x ∉ X /\ list_state l (is_first x k) = list_state l (is_first x (a_lists a l))) ->
  rep X' (with_queue l q h s) (a_with l k a).
Proof.
  intros R Hq Hd Ho Hk. split; simpl.
  - intros l'. unfold fupd. destruct (decide (l' = l)) as [->|Hne]; [done|].
    eapply dq_rep_frame; [|apply (r_q _ _ _ R)]. intros x Hx. by destruct (Ho x l') as (_ & ? & _).
  - intros l1 l2 t. unfold fupd. destruct (decide (l1 = l)) as [->|H1], (decide (l2 = l)) as [->|H2]; [done| | |apply (r_apart _ _ _ R)].
    + intros Hx Hy. by destruct (Ho t l2) as [[] _].
    + intros Hx Hy. by destruct (Ho t l1) as [[] _].
  - rewrite Hd. apply (r_dom _ _ _ R).
  - apply (r_tasks _ _ _ R).
  - apply (r_null _ _ _ R).
  - intros l' t c. unfold fupd. destruct (decide (l' = l)) as [->|Hne]; intros Ht HX Hc.
    + destruct (Hk t Ht HX) as (H1 & H2 & ->). by eapply (r_state _ _ _ R).
    + destruct (Ho t l') as (_ & _ & HX'); [done..|]. eapply (r_state _ _ _ R); eauto.
Qed.

Lemma rep_settle X s a t : rep (t :: X) s a ->
  (forall l c, t ∈ a_lists a l -> tcbs s !! t = Some c -> task_state c = list_state l (is_first t (a_lists a l))) -> rep X s a.
Proof.
  intros R H. split; try apply R. intros l x c Hx HX Hc. destruct (decide (x = t)) as [->|Hne]; [by apply H|].
  eapply (r_state _ _ _ R); [done| |done]. set_solver.
Qed.

Lemma rep_weaken X X' s a : rep X s a -> X ⊆ X' -> rep X' s a.
Proof. intros R HX. split; try apply R. intros l x c Hx HX' Hc. eapply (r_state _ _ _ R); [done| |done]. set_solver. Qed.

Lemma alter_insert_eq' {A} (f : A -> A) t (m : gmap Z A) c : m !! t = Some c -> alter f t m = <[t := f c]> m.
Proof.
  intros H. apply map_eq. intros x. destruct (decide (x = t)) as [->|].
  - by rewrite lookup_alter_eq, lookup_insert_eq, H.
  - rewrite lookup_alter_ne, lookup_insert_ne by congruence. done.
Qed.

Lemma alter_none {A} (f : A -> A) t (m : gmap Z A) : m !! t = None -> alter f t m = m.
Proof. intros H. apply map_eq. intros x. destruct (decide (x = t)) as [->|]; [by rewrite lookup_alter_eq, H|by rewrite lookup_alter_ne by congruence]. Qed.

Lemma upd_tcb_some t f s c : tcbs s !! t = Some c -> upd_tcb t f s = Some (with_tcbs (<[t := f c]> (tcbs s)) s).
Proof. unfold upd_tcb. by intros ->. Qed.

Lemma dom_insert_in {A} (h : gmap Z A) p v : is_Some (h !! p) -> dom (<[p := v]> h) = dom h.
Proof. intros H. rewrite dom_insert_L. apply elem_of_dom in H. set_solver. Qed.

(** The state of a task. *)
Lemma upd_stale X s a t st c : rep X s a -> tcbs s !! t = Some c -> rep (t :: X) (with_tcbs (<[t := set_state st c]> (tcbs s)) s) a.
Proof.
  intros R Hc. split; simpl; try apply R.
  - rewrite dom_insert_in by eauto. apply (r_dom _ _ _ R).
  - rewrite fmap_insert, insert_id; [apply (r_tasks _ _ _ R)|]. by rewrite lookup_fmap, Hc.
  - rewrite lookup_insert_ne; [apply (r_null _ _ _ R)|]. apply (r_link _ _ _ R). eauto.
  - intros l x c' Hx HX. rewrite lookup_insert_ne by set_solver. apply (r_state _ _ _ R); [done|set_solver].
Qed.

Definition tcb_alter (t : Z) (f : tcb_s -> tcb_s) (s : sched) : sched := with_tcbs (alter f t (tcbs s)) s.

Lemma upd_alter t f s : is_Some (tcbs s !! t) -> upd_tcb t f s = Some (tcb_alter t f s).
Proof. intros [c Hc]. rewrite (upd_tcb_some _ _ _ c) by done. unfold tcb_alter. by rewrite (alter_insert_eq' _ _ _ c). Qed.

Lemma rep_state X s a t st : rep (t :: X) s a -> (forall l, t ∈ a_lists a l -> st = list_state l (is_first t (a_lists a l))) ->
  rep X (tcb_alter t (set_state st) s) a.
Proof.
  intros R Hst. destruct (tcbs s !! t) as [c|] eqn:Hc.
  - unfold tcb_alter. rewrite (alter_insert_eq' _ _ _ c) by done. apply (rep_settle _ _ _ t); simpl.
    + eapply rep_weaken; [by apply upd_stale|set_solver].
    + intros l c'. rewrite lookup_insert_eq. intros Ht [= <-]. by apply Hst.
  - unfold tcb_alter. rewrite alter_none by done. apply (rep_settle _ _ _ t); [by destruct s|]. simpl. intros l c' _. by rewrite Hc.
Qed.

Lemma upd_state_ok X s a t st : rep (t :: X) s a -> is_Some (tcbs s !! t) ->
  (forall l, t ∈ a_lists a l -> st = list_state l (is_first t (a_lists a l))) ->
  exists m, upd_tcb t (set_state st) s = Some (with_tcbs m s) /\ rep X (with_tcbs m s) a.
Proof. intros R Hc Hst. rewrite upd_alter by done. eexists. split; [done|]. by apply rep_state. Qed.

(** The other fields. *)
Class KeepsState (f : tcb_s -> tcb_s) : Prop := {
  ks_state c : task_state (f c) = task_state c;
  ks_info c : info (f c) = f (info c)
}.
#[export] Instance ks_priority p : KeepsState (set_priority p). Proof. done. Qed.
#[export] Instance ks_lockcount p : KeepsState (set_lockcount p). Proof. done. Qed.
#[export] Instance ks_timeslice p : KeepsState (set_timeslice p). Proof. done. Qed.
#[export] Instance ks_waitsem p : KeepsState (set_waitsem p). Proof. done. Qed.
#[export] Instance ks_pterrno p : KeepsState (set_pterrno p). Proof. done. Qed.

Lemma upd_ok X s a t f `{KeepsState f} : rep X s a -> is_Some (tcbs s !! t) ->
  exists m, upd_tcb t f s = Some (with_tcbs m s) /\ rep X (with_tcbs m s) (a_upd t f a).
Proof.
  intros R [c Hc]. unfold upd_tcb. rewrite Hc. simpl. eexists. split; [done|]. split; simpl; try apply R.
  - rewrite (r_dom _ _ _ R), dom_insert_L. apply elem_of_dom_2 in Hc. set_solver.
  - rewrite fmap_insert, <- (r_tasks _ _ _ R). apply map_eq. intros x. destruct (decide (x = t)) as [->|].
    + by rewrite lookup_insert_eq, lookup_alter_eq, lookup_fmap, Hc, ks_info.
    + rewrite lookup_insert_ne, lookup_alter_ne by congruence. done.
  - rewrite lookup_insert_ne; [apply (r_null _ _ _ R)|]. apply (r_link _ _ _ R). eauto.
  - intros l x c' Hx HX. destruct (decide (x = t)) as [->|].
    + rewrite lookup_insert_eq. intros [= <-]. rewrite ks_state. by eapply (r_state _ _ _ R).
    + rewrite lookup_insert_ne by done. by apply (r_state _ _ _ R).
Qed.

(** ** The lists *)

Definition detached (t : Z) (a : asched) : Prop := forall l, t ∉ a_lists a l.

(** The states that adding [t] to a list leaves to be set. *)
Definition stale (t : Z) (l : tasklist) (k : list Z) : list Z :=
  match l with g_readytorun => match k with x :: y :: _ => if decide (x = t) then [t; y] else [t] | _ => [t] end | _ => [t] end.

Lemma stale_ok t l k1 k2 x : t ∉ k1 ++ k2 -> x ∈ k1 ++ t :: k2 -> x ∉ stale t l (k1 ++ t :: k2) ->
  x ∈ k1 ++ k2 /\ list_state l (is_first x (k1 ++ t :: k2)) = list_state l (is_first x (k1 ++ k2)).
Proof.
  intros Ht Hx Hs. assert (x <> t). { intros ->. apply Hs. destruct l; simpl; try by left. destruct k1 as [|? k1]; simpl.
    - destruct k2; [by left|]. rewrite decide_True by done. by left.
    - destruct k1; simpl; destruct (decide _); by left. }
  split; [set_solver|]. destruct l; simpl; try done.
  assert (E : is_first x (k1 ++ t :: k2) = is_first x (k1 ++ k2)); [|by rewrite E]. unfold is_first. apply bool_decide_ext.
  destruct k1 as [|y k1]; simpl; [|done]. destruct k2 as [|y k2]; simpl in *; [set_solver|].
  rewrite decide_True in Hs by done. set_solver.
Qed.

(** Any insertion of a detached task. *)
Lemma insert_ok X s a t l k1 k2 q h : rep X s a -> detached t a -> is_Some (tcbs s !! t) -> a_lists a l = k1 ++ k2 ->
  (forall x, x ∈ X -> detached x a) -> dq_rep h q (k1 ++ t :: k2) -> only_at (t :: k1 ++ k2) (tcb_links s) h ->
  rep (stale t l (k1 ++ t :: k2)) (with_queue l q h s) (a_with l (k1 ++ t :: k2) a).
Proof.
  intros R Hdt Ha El HX Hq Ho. apply (relist X); [done|done|by apply Ho|..].
  - intros x l' Hl Hx. assert (x <> t) by (intros ->; by apply (Hdt l')).
    assert (x ∉ k1 ++ k2). { rewrite <- El. intros Hy. by apply Hl, (r_apart _ _ _ R l' l x). }
    split_and!; [set_solver|apply Ho; set_solver|]. intros Hy. by destruct (HX x Hy l').
  - intros x Hx Hs. rewrite El. destruct (stale_ok t l k1 k2 x) as [H1 H2]; [by rewrite <- El|done..|].
    split_and!; [done| |done]. intros Hy. apply (HX x Hy l). by rewrite El.
Qed.

Lemma addprio_ok s a t l : rep [] s a -> detached t a -> is_Some (tcbs s !! t) -> SCHED_PRIORITY_MIN <= prio (a_tasks a) t ->
  exists q h (k := place (a_tasks a) t (a_lists a l)), sched_addprioritized t l s = Some (is_first t k, with_queue l q h s) /\
    rep (stale t l k) (with_queue l q h s) (a_with l k a).
Proof.
  intros R Hdt Ha Hp. pose proof (r_alloc _ _ _ R l) as Hal. pose proof (r_link _ _ _ R t Ha) as [H0 He].
  pose proof (Hdt l) as Htl. pose proof (r_q _ _ _ R l) as Hq. pose proof (r_size _ _ _ R l _ eq_refl) as Hsz.
  rewrite (place_ext _ (tcbs s)) by apply (r_prio _ _ _ R). rewrite (r_prio _ _ _ R) in Hp. unfold sched_addprioritized, place.
  pose proof Ha as [c Hc]. rewrite Hc. cbn [mbind option_bind]. rewrite (prio_some _ _ _ Hc) in *. rewrite decide_False by lia.
  pose proof Hq as (Eh & _ & Hs & _). rewrite Eh, (seek_ok _ s _ 0 _ Hs) by (try lia; intros x Hx; by apply Hal). cbn [mbind option_bind].
  pose proof (split_prio (tcbs s) (sched_priority c) (a_lists a l)) as El. symmetry in El.
  set (k1 := upto_prio _ _ _) in *. set (k2 := after_prio _ _ _) in *. clearbody k1 k2. rewrite El in Hs, Hq, Htl.
  assert (Ef : is_first t (k1 ++ t :: k2) = bool_decide (k1 = [])).
  { unfold is_first. apply bool_decide_ext. destruct k1; simpl; [done|]. split; [|done]. set_solver. }
  rewrite Ef. destruct k2 as [|y k2]; simpl fst_of.
  - rewrite decide_True by done. rewrite app_nil_r in Hq, Htl. destruct (link_last_ok _ _ _ t Hq) as (q & h & E & Hr & Ho); [done..|].
    rewrite E. simpl. exists q, h. split; [done|]. eapply insert_ok; eauto; [set_solver|]. by rewrite app_nil_r.
  - apply dseg_app in Hs as (_ & Hy0 & Hly & _). rewrite decide_False by done. rewrite Hly. cbn [mbind option_bind blink].
    destruct (link_before_ok _ _ _ _ _ t Hq) as (q & h & E & Hr & Ho); [done..|].
    rewrite E. simpl. exists q, h. split; [done|]. eapply insert_ok; eauto. set_solver.
Qed.

Lemma a_with_id l a k : a_lists a l = k -> forall l', a_lists (a_with l k a) l' = a_lists a l'.
Proof. intros <- l'. simpl. unfold fupd. by destruct (decide (l' = l)) as [->|]. Qed.

(** Two abstract states with the same lists and blocks. *)
Definition a_eq (a a' : asched) : Prop := (forall l, a_lists a l = a_lists a' l) /\ a_tasks a = a_tasks a'.
#[export] Instance a_eq_equiv : Equivalence a_eq.
Proof. split; [done|intros ? ? []; split; congruence|intros ? ? ? [] []; split; congruence]. Qed.

#[export] Instance rep_proper X s : Proper (a_eq ==> iff) (rep X s).
Proof.
  assert (H : forall a a', a_eq a a' -> rep X s a -> rep X s a').
  { intros a a' [Hl Ht] R. split; rewrite <- ?Ht; try apply R.
    - intros l. rewrite <- Hl. apply R.
    - intros l l' t. rewrite <- !Hl. apply R.
    - intros l t c. rewrite <- !Hl. apply R. }
  intros a a' E. split; apply H; [done|by symmetry].
Qed.

Lemma frame_only t k (h h' : dq_heap) x : only_at (t :: k) h h' -> x <> t -> x ∉ k -> h' !! x = h !! x.
Proof. intros Ho H1 H2. apply Ho. set_solver. Qed.

(** Any removal. *)
Lemma unlink_ok X s a t l k1 k2 : rep X s a -> a_lists a l = k1 ++ t :: k2 -> X ⊆ [t; fst_of 0 k2] ->
  (l = g_readytorun -> k1 = [] -> fst_of 0 k2 ∈ X) ->
  exists q h, dq_rem t (queues s l) (tcb_links s) = Some (q, h) /\ rep X (with_queue l q h s) (a_with l (k1 ++ k2) a) /\
    detached t (a_with l (k1 ++ k2) a).
Proof.
  intros R El HX Hf. pose proof (r_q _ _ _ R l) as Hq. rewrite El in Hq. pose proof Hq as (_ & _ & _ & Hnd).
  apply NoDup_app in Hnd as (N1 & N2 & N3). apply NoDup_cons in N3 as [N3 N4].
  destruct (dq_rem_split _ _ _ _ _ Hq) as (q & h & E & Hr & Ho). exists q, h. split; [done|].
  assert (Hother : forall x l', l' <> l -> x ∈ a_lists a l' -> x ∉ k1 ++ t :: k2).
  { intros x l' Hl Hx Hy. rewrite <- El in Hy. by apply Hl, (r_apart _ _ _ R l' l x). }
  split.
  - apply (relist X); [done|done|by apply Ho|..].
    + intros x l' Hl Hx. pose proof (Hother x l' Hl Hx). split_and!; [set_solver|by apply Ho|done].
    + intros x Hx HxX. rewrite El. split_and!; [set_solver|done|]. destruct l; try done. simpl.
      assert (E' : is_first x (k1 ++ k2) = is_first x (k1 ++ t :: k2)); [|by rewrite E']. unfold is_first. apply bool_decide_ext.
      destruct k1; simpl in *; [|done]. specialize (Hf eq_refl eq_refl). destruct k2; simpl in *; set_solver.
  - intros l'. simpl. unfold fupd. destruct (decide (l' = l)) as [->|Hne]; [set_solver|].
    intros Ht. apply (Hother t l'); [done..|]. set_solver.
Qed.

Lemma rep_detached X s a t : rep (t :: X) s a -> detached t a -> rep X s a.
Proof. intros R H. apply (rep_settle _ _ _ t R). intros l c Ht. by destruct (H l). Qed.

Lemma lists_split X s a t l : rep X s a -> t ∈ a_lists a l -> exists k1 k2, a_lists a l = k1 ++ t :: k2 /\ t ∉ k1 /\ t ∉ k2.
Proof. intros R Ht. apply split_at; [apply (r_nodup _ _ _ R)|done]. Qed.

(** Removing a task from its list drops it. *)
Lemma drop_eq X s a t l k1 k2 : rep X s a -> a_lists a l = k1 ++ t :: k2 -> a_eq (a_with l (k1 ++ k2) a) (a_drop t a).
Proof.
  intros R El. pose proof (r_nodup _ _ _ R l) as Hnd. rewrite El in Hnd. apply NoDup_app in Hnd as (N1 & N2 & N3).
  apply NoDup_cons in N3 as [N3 N4]. split; [|done]. intros l'. simpl. unfold fupd. destruct (decide (l' = l)) as [->|Hne].
  - rewrite El, remove_node_split; [done|set_solver..].
  - rewrite remove_node_notin; [done|]. intros Ht. apply Hne, (r_apart _ _ _ R l' l t); [done|rewrite El; set_solver].
Qed.

Lemma drop_detached t a : detached t (a_drop t a).
Proof. intros l. simpl. unfold remove_node. rewrite list_elem_of_filter. tauto. Qed.

(** A task leaves the ready-to-run list, which has another one. *)
Lemma removeready_ok s a t : rep [] s a -> t ∈ a_lists a g_readytorun -> a_lists a g_readytorun <> [t] ->
  exists s', sched_removereadytorun t s = Some (bool_decide (t = a_this a), s') /\ rep [] s' (a_drop t a) /\ same_rest s s'.
Proof.
  intros R Ht Hne. destruct (lists_split _ _ _ _ _ R Ht) as (k1 & k2 & El & Hk1 & Hk2).
  destruct (r_q _ _ _ R g_readytorun) as (_ & _ & Hs & _). rewrite El in Hs. apply dseg_app in Hs as (_ & H0 & Hl & _).
  unfold sched_removereadytorun. rewrite Hl. cbn [mbind option_bind blink flink].
  assert (Ef : bool_decide (t = a_this a) = bool_decide (k1 = [])).
  { apply bool_decide_ext. unfold a_this. rewrite El. destruct k1; simpl; [done|]. split; [set_solver|done]. }
  assert (Hz : 0 ∉ k1). { intros Hz. destruct (r_alloc _ _ _ R g_readytorun 0); [|done]. rewrite El. set_solver. }
  rewrite Ef. assert (Hal : is_Some (tcbs s !! t)) by (by apply (r_alloc _ _ _ R g_readytorun)).
  destruct k1 as [|p k1].
  - destruct k2 as [|y k2]; [done|]. simpl lst. rewrite decide_True by done. simpl fst_of.
    assert (Hy : is_Some (tcbs s !! y)). { apply (r_alloc _ _ _ R g_readytorun). rewrite El. set_solver. }
    assert (t <> y) by set_solver. destruct Hy as [cy Hcy]. rewrite (upd_tcb_some y _ s cy Hcy). cbn [mbind option_bind].
    set (s1 := with_tcbs _ _). pose proof (upd_stale [] s a y TSTATE_TASK_RUNNING cy R Hcy) as R1. fold s1 in R1.
    destruct (unlink_ok [y] s1 a t g_readytorun [] (y :: k2) R1 El) as (q & h & E & R2 & Hdet); [set_solver..|].
    change (dq_rem t (queues s1 g_readytorun) (tcb_links s1)) with (dq_rem t (queues s g_readytorun) (tcb_links s)) in E |- *.
    rewrite E. cbn [mbind option_bind].
    rewrite (drop_eq _ _ _ _ _ [] (y :: k2) R El) in R2. apply rep_settle in R2.
    2: { intros l c. simpl. intros Hy. rewrite lookup_insert_eq. intros [= <-]. simpl.
         assert (l = g_readytorun) as ->. { apply (r_apart _ _ _ R l _ y); [|rewrite El; set_solver]. unfold remove_node in Hy.
           by apply list_elem_of_filter in Hy as [_ ?]. }
         rewrite El. rewrite (remove_node_split t [] (y :: k2)) by set_solver. simpl. unfold is_first. simpl.
         by rewrite bool_decide_true. }
    destruct (upd_state_ok [] (with_queue g_readytorun q h s1) (a_drop t a) t TSTATE_TASK_INVALID) as (m & E2 & R3).
    + apply (rep_weaken []); [done|set_solver].
    + simpl. rewrite lookup_insert_ne by congruence. done.
    + intros l Hx. by destruct (drop_detached t a l).
    + rewrite E2. simpl. eexists. split; [done|]. split; [exact R3|done].
  - rewrite (decide_False (P := lst 0 (p :: k1) = 0)) by (by rewrite lst_nil). cbn [mbind option_bind].
    destruct (unlink_ok [] s a t g_readytorun (p :: k1) k2 R El) as (q & h & E & R2 & Hdet); [set_solver|done|].
    rewrite E. cbn [mbind option_bind]. rewrite (drop_eq _ _ _ _ _ _ _ R El) in R2.
    destruct (upd_state_ok [] (with_queue g_readytorun q h s) (a_drop t a) t TSTATE_TASK_INVALID) as (m & E2 & R3).
    + apply (rep_weaken []); [done|set_solver].
    + done.
    + intros l Hx. by destruct (drop_detached t a l).
    + rewrite E2. simpl. eexists. split; [done|]. split; [exact R3|done].
Qed.

Lemma place_nonempty m t l : exists x k, place m t l = x :: k.
Proof. unfold place. destruct (upto_prio m (prio m t) l); simpl; eauto. Qed.

Lemma this_in a : a_lists a g_readytorun <> [] -> a_this a ∈ a_lists a g_readytorun.
Proof. unfold a_this. destruct (a_lists a g_readytorun); simpl; [done|]. intros _. by left. Qed.

Definition can_add (t : Z) (s : sched) (a : asched) : Prop :=
  detached t a /\ is_Some (tcbs s !! t) /\ SCHED_PRIORITY_MIN <= prio (a_tasks a) t.

Lemma addready_ok s a t : rep [] s a -> can_add t s a -> a_lists a g_readytorun <> [] ->
  exists s', sched_addreadytorun t s = Some (negb (bool_decide (a_this (a_add t a) = a_this a)), s') /\
    rep [] s' (a_add t a) /\ same_rest s s'.
Proof.
  intros R (Hdt & Ha & Hp) Hne. pose proof (this_in a Hne) as Hh. destruct (r_alloc _ _ _ R _ _ Hh) as (H0 & _ & [ch Hch]).
  pose proof Ha as [c Hc]. unfold sched_addreadytorun, a_add. rewrite (r_this _ _ _ R), Hch, Hc. cbn [mbind option_bind].
  rewrite (r_lock _ _ _ R), !(r_prio _ _ _ R), (lock_some _ _ _ Hch), (prio_some _ _ _ Hch), (prio_some _ _ _ Hc).
  destruct (decide _) as [Hlock|Hfree].
  - destruct (addprio_ok s a t g_pendingtasks R Hdt Ha Hp) as (q & h & E & R1). rewrite E. simpl.
    destruct (upd_state_ok [] (with_queue g_pendingtasks q h s) _ t TSTATE_TASK_PENDING R1) as (m & E2 & R2); [done|..].
    + intros l. simpl. unfold fupd. destruct (decide (l = g_pendingtasks)) as [->|]; [done|]. intros Ht. by destruct (Hdt l).
    + rewrite E2. simpl. eexists. split; [|split; [exact R2|done]]. by rewrite bool_decide_true.
  - destruct (addprio_ok s a t g_readytorun R Hdt Ha Hp) as (q & h & E & R1). rewrite E. cbn [mbind option_bind].
    set (k := place (a_tasks a) t (a_lists a g_readytorun)) in *. destruct (place_nonempty (a_tasks a) t (a_lists a g_readytorun)) as (x & k' & Ek). fold k in Ek.
    assert (Hth : t <> a_this a) by (intros ->; by apply (Hdt g_readytorun)).
    assert (Ethis : a_this (a_with g_readytorun k a) = x) by (unfold a_this; simpl; by rewrite Ek).
    rewrite Ethis. destruct (is_first t k) eqn:Ef; unfold is_first in Ef; rewrite Ek in Ef; simpl in Ef.
    + apply bool_decide_eq_true in Ef. subst x. rewrite bool_decide_false by done. destruct k' as [|y k'].
      { exfalso. apply Hth. assert (a_this a ∈ k) by (apply place_elem; by right). rewrite Ek in *. set_solver. }
      unfold stale in R1. rewrite Ek, decide_True in R1 by done.
      destruct (upd_state_ok [y] (with_queue g_readytorun q h s) _ t TSTATE_TASK_RUNNING R1) as (m & E2 & R2); [done|..].
      { intros l. simpl. unfold fupd. destruct (decide (l = g_readytorun)) as [->|]; [|intros Ht; by destruct (Hdt l)].
        intros _. unfold is_first. simpl. by rewrite bool_decide_true. }
      rewrite E2. cbn [mbind option_bind]. destruct (r_q _ _ _ R2 g_readytorun) as (_ & _ & Hs & _). simpl in Hs.
      destruct Hs as (_ & Hl & _). cbn [tcb_links with_tcbs with_queue] in *. rewrite Hl. cbn [mbind option_bind flink].
      assert (Hy : y ∈ a_lists a g_readytorun). { assert (y ∈ k) as [-> | ?]%place_elem by (rewrite Ek; set_solver); [|done].
        pose proof (r_nodup _ _ _ R1 g_readytorun) as Hnd. simpl in Hnd. apply NoDup_cons in Hnd as [Hnd _]. set_solver. }
      destruct (upd_state_ok [] _ _ y TSTATE_TASK_READYTORUN R2) as (m2 & E3 & R3).
      * apply (r_alloc _ _ _ R2 g_readytorun). simpl. set_solver.
      * intros l. simpl. unfold fupd. destruct (decide (l = g_readytorun)) as [->|Hl'].
        -- intros _. unfold is_first. simpl. rewrite bool_decide_false; [done|]. intros ->. by apply (Hdt g_readytorun).
        -- intros Hx. by destruct Hl', (r_apart _ _ _ R l g_readytorun y).
      * rewrite E3. simpl. eexists. split; [done|]. split; [rewrite Ek; exact R3|done].
    + apply bool_decide_eq_false in Ef.
      assert (Hx : x = a_this a). { unfold a_this. unfold k, place in Ek. destruct (a_lists a g_readytorun) as [|z r]; [done|].
        simpl in *. destruct (decide _); simpl in Ek; congruence. }
      rewrite bool_decide_true by done. assert (Est : stale t g_readytorun k = [t]).
      { rewrite Ek. simpl. destruct k'; [done|]. by rewrite decide_False. }
      rewrite Est in R1. destruct (upd_state_ok [] (with_queue g_readytorun q h s) _ t TSTATE_TASK_READYTORUN R1) as (m & E2 & R2); [done|..].
      { intros l. simpl. unfold fupd. destruct (decide (l = g_readytorun)) as [->|]; [|intros Ht; by destruct (Hdt l)].
        intros _. unfold is_first. rewrite Ek. simpl. by rewrite bool_decide_false. }
      rewrite E2. simpl. eexists. split; [done|]. split; [exact R2|done].
Qed.

Lemma TLIST_state st l : TLIST_HEAD st = Some l -> is_blocked_state st = true -> forall b, list_state l b = st.
Proof. destruct st; simpl; intros [= <-]; done. Qed.

Lemma addblocked_ok s a t st : rep [] s a -> can_add t s a -> is_blocked_state st = true ->
  exists s', sched_addblocked t st s = Some s' /\ rep [] s' (a_queue t st a) /\ same_rest s s'.
Proof.
  intros R (Hdt & Ha & Hp) Hst. unfold sched_addblocked, a_queue. destruct (TLIST_HEAD st) as [l|] eqn:El; [|by destruct st].
  pose proof (TLIST_state _ _ El Hst) as Els. assert (Hl : l <> g_readytorun) by (intros ->; by destruct st). cbn [mbind option_bind].
  assert (H : exists q h k, (if TLIST_ISPRIORITIZED st then '(_, s) ← sched_addprioritized t l s; Some s
      else '(q, h) ← dq_addlast t (queues s l) (tcb_links s); Some (with_queue l q h s)) = Some (with_queue l q h s) /\
      k = (if TLIST_ISPRIORITIZED st then place (a_tasks a) t (a_lists a l) else a_lists a l ++ [t]) /\
      rep [t] (with_queue l q h s) (a_with l k a)).
  { destruct (TLIST_ISPRIORITIZED st).
    - destruct (addprio_ok s a t l R Hdt Ha Hp) as (q & h & E & R1). rewrite E. simpl. exists q, h. eexists. split_and!; [done..|].
      by destruct l.
    - destruct (r_link _ _ _ R t Ha) as [H0 Hlk].
      destruct (dq_addlast_rep _ _ _ t (r_q _ _ _ R l) H0 (Hdt l) Hlk) as (q & h & E & Hr & Ho). rewrite E. simpl.
      exists q, h. eexists. split_and!; [done..|]. pose proof (insert_ok [] s a t l (a_lists a l) [] q h R Hdt Ha) as Hi.
      rewrite app_nil_r in Hi. specialize (Hi eq_refl). destruct l; try done; apply Hi; try done; set_solver. }
  destruct H as (q & h & k & E & Ek & R1). rewrite E. cbn [mbind option_bind]. rewrite <- Ek.
  destruct (upd_state_ok [] (with_queue l q h s) _ t st R1) as (m & E2 & R2); [done|..].
  - intros l'. simpl. unfold fupd. destruct (decide (l' = l)) as [->|]; [done|]. intros Ht. by destruct (Hdt l').
  - rewrite E2. eexists. split; [done|]. split; [exact R2|done].
Qed.

Lemma removeblocked_ok s a t l : rep [] s a -> t ∈ a_lists a l -> l <> g_readytorun ->
  exists s', sched_removeblocked t s = Some s' /\ rep [] s' (a_drop t a) /\ same_rest s s'.
Proof.
  intros R Ht Hl. destruct (r_alloc _ _ _ R l t Ht) as (H0 & _ & [c Hc]). unfold sched_removeblocked. rewrite Hc.
  assert (Est : task_state c = list_state l (is_first t (a_lists a l))) by (eapply (r_state _ _ _ R); [done|set_solver|done]).
  assert (El : TLIST_HEAD (task_state c) = Some l). { rewrite Est. by destruct l. }
  cbn [mbind option_bind]. rewrite El. cbn [mbind option_bind]. destruct (lists_split _ _ _ _ _ R Ht) as (k1 & k2 & Ek & _).
  destruct (unlink_ok [] s a t l k1 k2 R Ek) as (q & h & E & R2 & _); [set_solver|done|]. rewrite E. simpl.
  rewrite (drop_eq _ _ _ _ _ _ _ R Ek) in R2.
  destruct (upd_state_ok [] (with_queue l q h s) (a_drop t a) t TSTATE_TASK_INVALID) as (m & E2 & R3).
  - apply (rep_weaken []); [done|set_solver].
  - simpl. eauto.
  - intros l' Hx. by destruct (drop_detached t a l').
  - rewrite E2. eexists. split; [done|]. split; [exact R3|done].
Qed.

(** ** Merging the pending tasks *)

Definition sorted (m : gmap Z tcb_s) (l : list Z) : Prop := StronglySorted (fun x y => prio m y <= prio m x) l.
Notation place_all m := (fold_left (fun l t => place m t l)).

Lemma upto_skip m p k1 k2 : (forall x, x ∈ k1 -> p <= prio m x) ->
  upto_prio m p (k1 ++ k2) = k1 ++ upto_prio m p k2 /\ after_prio m p (k1 ++ k2) = after_prio m p k2.
Proof.
  induction k1 as [|x k1 IH]; simpl; [done|]. intros H. rewrite !decide_True by (apply H; by left).
  destruct IH as [E1 E2]; [set_solver|]. by rewrite E1, E2.
Qed.

Lemma place_skip m t k1 k2 : (forall x, x ∈ k1 -> prio m t <= prio m x) -> place m t (k1 ++ k2) = k1 ++ place m t k2.
Proof. intros H. unfold place. destruct (upto_skip m (prio m t) k1 k2 H) as [-> ->]. by rewrite app_assoc. Qed.

Lemma place_all_skip m P k1 k2 : (forall x p, x ∈ k1 -> p ∈ P -> prio m p <= prio m x) ->
  place_all m P (k1 ++ k2) = k1 ++ place_all m P k2.
Proof.
  revert k2; induction P as [|p P IH]; simpl; intros k2 H; [done|].
  rewrite place_skip by (intros x Hx; apply H; set_solver). apply IH. intros x p' Hx Hp. apply H; set_solver.
Qed.

Lemma upto_ge m p l x : x ∈ upto_prio m p l -> p <= prio m x.
Proof. induction l as [|y l IH]; simpl; [set_solver|]. destruct (decide _); [|set_solver]. intros [-> | ?]%elem_of_cons; [done|auto]. Qed.

Lemma after_elem m p l x : x ∈ l -> prio m x < p -> x ∈ after_prio m p l.
Proof.
  induction l as [|y l IH]; simpl; [set_solver|]. intros [-> | Hx]%elem_of_cons Hp.
  - rewrite decide_False by lia. by left.
  - destruct (decide _); [auto|]. by right.
Qed.

(** The state without the list of the pending tasks. *)
Definition clr (s : sched) : sched := with_queue g_pendingtasks dq_init (tcb_links s) s.

Lemma rep_same X s s' a : (forall l, queues s l = queues s' l) -> tcb_links s = tcb_links s' -> tcbs s = tcbs s' -> rep X s a -> rep X s' a.
Proof. intros Hq Hl Ht R. split; rewrite <- ?Hl, <- ?Ht; try apply R. intros l. rewrite <- Hq. apply R. Qed.

Lemma clr_with q h s X a : rep X (with_queue g_readytorun q h (clr s)) a <-> rep X (clr (with_queue g_readytorun q h s)) a.
Proof. split; apply rep_same; try done; intros []; done. Qed.

(** The chain of the pending tasks that are left. *)
Lemma sseg_flink h l e b : dseg h b l e -> sseg (flink <$> h) l e.
Proof. apply dseg_sseg. Qed.

Lemma chain_only S (h h' : dq_heap) P : (forall p, p ∈ P -> p ∉ S) -> only_at S h h' -> sseg (flink <$> h) P 0 -> sseg (flink <$> h') P 0.
Proof. intros HP Ho. apply sseg_frame. intros p Hp. rewrite !lookup_fmap. by rewrite (only_same _ _ _ Ho) by auto. Qed.

Lemma place_this m p k : p ∉ k -> fst_of 0 (place m p k) = fst_of 0 k \/ fst_of 0 (place m p k) = p.
Proof. intros _. unfold place. destruct k as [|x k]; simpl; [by right|]. destruct (decide _); simpl; auto. Qed.

(** One pending task goes into the ready-to-run list. *)
Lemma merge_step s a p R1 R2 idle (m := a_tasks a) (k2 := after_prio m (prio m p) R2) (k := place m p (R1 ++ R2)) :
  rep [] (clr s) a -> can_add p (clr s) a -> a_lists a g_readytorun = R1 ++ R2 ->
  (forall x, x ∈ R1 -> prio m p <= prio m x) -> idle ∈ R2 -> prio m idle < SCHED_PRIORITY_MIN ->
  exists e q h s', seek (S (size (tcb_links s))) s (prio (tcbs s) p) (fst_of 0 R2) = Some (fst_of 0 k2) /\ fst_of 0 k2 <> 0 /\
    tcb_links s !! fst_of 0 k2 = Some e /\
    link_before p (fst_of 0 k2) (blink e) (queues s g_readytorun) (tcb_links s) = Some (is_first p k, q, h) /\
    (if is_first p k then s1 ← upd_tcb (fst_of 0 k2) (set_state TSTATE_TASK_READYTORUN) (with_queue g_readytorun q h s);
                          upd_tcb p (set_state TSTATE_TASK_RUNNING) s1
     else upd_tcb p (set_state TSTATE_TASK_READYTORUN) (with_queue g_readytorun q h s)) = Some s' /\
    rep [] (clr s') (a_with g_readytorun k a) /\ same_rest s s' /\ only_at (p :: R1 ++ R2) (tcb_links s) (tcb_links s') /\ dom (tcbs s') = dom (tcbs s).
Proof.
  intros R (Hdt & Ha & Hp) El Hge Hi Hip. pose proof (r_alloc _ _ _ R g_readytorun) as Hal. simpl in Hal.
  pose proof (r_q _ _ _ R g_readytorun) as Hq. rewrite El in Hq, Hal. change (queues (clr s) g_readytorun) with (queues s g_readytorun) in Hq.
  change (tcb_links (clr s)) with (tcb_links s) in Hq. pose proof Hq as (_ & _ & Hs & Hnd).
  assert (Hpr : forall x, prio m x = prio (tcbs s) x) by apply (r_prio _ _ _ R).
  pose proof (r_size _ _ _ R g_readytorun _ El) as Hsz. simpl in Hsz. rewrite length_app in Hsz.
  assert (Hi2 : idle ∈ k2) by (apply after_elem; [done|unfold m in *; lia]).
  set (k1 := upto_prio m (prio m p) R2). pose proof (split_prio m (prio m p) R2) as E2. fold k1 k2 in E2.
  assert (Ek : k = (R1 ++ k1) ++ p :: k2). { unfold k. rewrite place_skip by done. unfold place. by rewrite app_assoc. }
  destruct k2 as [|y k2'] eqn:Ek2; [set_solver|]. simpl fst_of.
  rewrite <- E2, app_assoc in Hq, Hal, Hs, Hnd, El. pose proof (Hdt g_readytorun) as Hpn. rewrite El in Hpn.
  pose proof Hs as (_ & Hy0 & Hly & _)%dseg_app.
  destruct (link_before_ok _ _ _ _ _ p Hq) as (q & h & E & Hr & Ho); [by apply (r_link _ _ _ R)|done|by apply (r_link _ _ _ R)|].
  assert (Ef : is_first p k = bool_decide (R1 ++ k1 = [])).
  { rewrite Ek. unfold is_first. apply bool_decide_ext. destruct (R1 ++ k1); simpl; [done|]. split; [set_solver|done]. }
  assert (R3 : rep (stale p g_readytorun k) (clr (with_queue g_readytorun q h s)) (a_with g_readytorun k a)).
  { rewrite Ek. apply clr_with. eapply insert_ok; eauto. set_solver. }
  assert (Hseek : seek (S (size (tcb_links s))) s (prio (tcbs s) p) (fst_of 0 R2) = Some y).
  { rewrite <- Hpr.
    rewrite (seek_ok _ s _ (lst 0 R1) R2); [|rewrite <- app_assoc, E2 in Hs; by apply dseg_app in Hs as [_ ?]| |lia].
    - destruct (upto_ext m (tcbs s) (prio m p) R2) as [_ <-]; [auto|]. fold k2. by rewrite Ek2.
    - intros x Hx. apply Hal. rewrite <- app_assoc, E2. set_solver. }
  assert (Hal3 := r_alloc _ _ _ R3 g_readytorun). simpl in Hal3. rewrite Ek in Hal3.
  exists (mkDe (fst_of 0 k2') (lst 0 (R1 ++ k1))), q, h. rewrite Ef. destruct (bool_decide (R1 ++ k1 = [])) eqn:Eb.
  - apply bool_decide_eq_true in Eb. rewrite Ek, Eb in R3. simpl in R3. rewrite decide_True in R3 by done.
    exists (tcb_alter p (set_state TSTATE_TASK_RUNNING) (tcb_alter y (set_state TSTATE_TASK_READYTORUN) (with_queue g_readytorun q h s))).
    rewrite (upd_alter y) by (apply Hal3; set_solver). cbn [mbind option_bind].
    rewrite upd_alter by (simpl; apply lookup_alter_is_Some, Hal3; set_solver).
    split_and!; try done; [|by rewrite <- app_assoc, E2 in Ho|simpl; by rewrite !dom_alter_L].
    rewrite Ek, Eb. simpl. apply (rep_state [] (tcb_alter y _ (clr (with_queue g_readytorun q h s)))); [apply rep_state|].
    + eapply rep_weaken; [exact R3|set_solver].
    + intros l. simpl. unfold fupd. destruct (decide (l = g_readytorun)) as [->|Hl'].
      * intros _. unfold is_first. simpl. rewrite bool_decide_false; [done|]. set_solver.
      * intros Hx. destruct Hl'. apply (r_apart _ _ _ R l g_readytorun y); [done|]. rewrite El. set_solver.
    + intros l. simpl. unfold fupd. destruct (decide (l = g_readytorun)) as [->|Hl']; [|intros Hx; by destruct (Hdt l)].
      intros _. unfold is_first. simpl. by rewrite bool_decide_true.
  - apply bool_decide_eq_false in Eb. assert (Est : stale p g_readytorun k = [p]).
    { rewrite Ek. destruct (R1 ++ k1) as [|x kk] eqn:Ex; [done|]. simpl. destruct kk; simpl; rewrite decide_False; try done; set_solver. }
    rewrite Est in R3. exists (tcb_alter p (set_state TSTATE_TASK_READYTORUN) (with_queue g_readytorun q h s)).
    rewrite upd_alter by (apply Hal3; set_solver).
    split_and!; try done; [|by rewrite <- app_assoc, E2 in Ho|simpl; by rewrite dom_alter_L].
    apply (rep_state [] (clr (with_queue g_readytorun q h s))); [exact R3|].
    intros l. simpl. unfold fupd. destruct (decide (l = g_readytorun)) as [->|Hl']; [|intros Hx; by destruct (Hdt l)].
    intros _. by rewrite Ef.
Qed.

Lemma place_all_head m P x k : (forall p, p ∈ P -> prio m p <= prio m x) -> fst_of 0 (place_all m P (x :: k)) = x.
Proof. intros H. change (x :: k) with ([x] ++ k). rewrite place_all_skip; [done|]. intros y p [-> | []%not_elem_of_nil]%elem_of_cons. apply H. Qed.

Lemma same_rest_trans s s' s'' : same_rest s s' -> same_rest s' s'' -> same_rest s s''.
Proof. intros [] []. split; congruence. Qed.

Lemma merge_loop_ok P : forall fuel s a R1 R2 idle ret (m := a_tasks a) (a' := a_with g_readytorun (place_all m P (R1 ++ R2)) a),
  rep [] (clr s) a -> a_lists a g_readytorun = R1 ++ R2 -> sseg (flink <$> tcb_links s) P 0 -> NoDup P -> sorted m P ->
  (forall p, p ∈ P -> can_add p (clr s) a) -> (forall x p, x ∈ R1 -> p ∈ P -> prio m p <= prio m x) ->
  idle ∈ R2 -> prio m idle < SCHED_PRIORITY_MIN -> (length P < fuel)%nat ->
  exists s', merge_loop fuel (fst_of 0 P) (fst_of 0 R2) ret s = Some (ret || negb (bool_decide (a_this a' = a_this a)), s') /\
    rep [] (clr s') a' /\ same_rest s s'.
Proof.
  induction P as [|p P IH]; intros [|fuel] s a R1 R2 idle ret m a' R El Hch Hnd Hso Hcan Hge Hi Hip Hf; try (simpl in Hf; lia).
  - exists s. split; [|split; [|done]].
    + simpl. rewrite bool_decide_true; [by rewrite orb_false_r|]. unfold a', a_this. simpl. by rewrite El.
    + revert R. apply rep_proper. split; [|done]. intros l. by apply (a_with_id g_readytorun).
  - destruct Hch as (Hp0 & Hlp & Hch). apply NoDup_cons in Hnd as [Hpn Hnd]. apply StronglySorted_inv in Hso as [Hso Hle].
    rewrite Forall_forall in Hle. pose proof (Hcan p ltac:(by left)) as Hcp.
    destruct (merge_step s a p R1 R2 idle R Hcp El) as (e & q & h & s' & E1 & Hy & E2 & E3 & E4 & R' & Hsr & Ho & Hdom);
      [intros x Hx; apply Hge; [done|by left]|done|done|]. fold m in E1, E2, E3, E4, R', Hy.
    set (k := place m p (R1 ++ R2)) in *. set (k2 := after_prio m (prio m p) R2) in *.
    assert (Ek : k = (R1 ++ upto_prio m (prio m p) R2) ++ p :: k2).
    { unfold k. rewrite place_skip by (intros x Hx; apply Hge; [done|by left]). unfold place. by rewrite app_assoc. }
    rewrite lookup_fmap in Hlp. destruct (tcb_links s !! p) as [ep|] eqn:Eep; [|done]. injection Hlp as Efl.
    destruct Hcp as (Hdp & [cp Hcp] & Hpp). cbn [tcbs clr with_queue] in Hcp. pose proof (prio_some _ _ _ Hcp) as Epr. rewrite Epr in E1.
    destruct (IH fuel s' (a_with g_readytorun k a) (R1 ++ upto_prio m (prio m p) R2) (p :: k2) idle (ret || is_first p k)) as (s'' & E5 & R'' & Hsr');
      [done|simpl; unfold fupd; by rewrite decide_True|..]; try done; try (simpl in Hf; lia).
    + eapply chain_only; [|exact Ho|exact Hch]. intros p' Hp'. assert (p' ∉ R1 ++ R2). { rewrite <- El. apply Hcan. by right. } set_solver.
    + intros p' Hp'. destruct (Hcan p') as (H1 & H2 & H3); [by right|]. split_and!; [|simpl; apply elem_of_dom; rewrite Hdom; by apply elem_of_dom|done].
      intros l. simpl. unfold fupd. destruct (decide (l = g_readytorun)) as [->|]; [|apply H1].
      intros [-> | Hx]%place_elem; [done|]. rewrite <- El in Hx. by apply (H1 g_readytorun).
    + simpl. intros x p' [Hx|Hx]%elem_of_app Hp'; [apply Hge; set_solver|]. apply upto_ge in Hx. specialize (Hle p' Hp'). fold m. lia.
    + right. apply after_elem; [done|unfold m in *; lia].
    + exists s''. assert (Ea : place_all m P ((R1 ++ upto_prio m (prio m p) R2) ++ p :: k2) = place_all m (p :: P) (R1 ++ R2)).
      { simpl. fold k. by rewrite Ek. }
      cbn [a_tasks a_with] in R'', E5. fold m in R'', E5. rewrite Ea in R'', E5. split; [|split].
      * cbn [merge_loop fst_of]. rewrite decide_False by done. rewrite Eep. cbn [mbind option_bind]. rewrite Hcp. cbn [mbind option_bind].
        rewrite E1. cbn [mbind option_bind]. rewrite decide_False by done. rewrite E2. cbn [mbind option_bind]. rewrite E3. cbn [mbind option_bind].
        rewrite Efl. cbn [fst_of] in E5. destruct (is_first p k) eqn:Ef.
        -- destruct (upd_tcb (fst_of 0 k2) _ _) as [s1|]; [|done]. cbn [mbind option_bind] in E4 |- *. rewrite E4. cbn [mbind option_bind].
           rewrite orb_true_r in E5. rewrite E5. simpl. do 2 f_equal. symmetry. apply orb_true_iff. right. apply negb_true_iff, bool_decide_eq_false.
           unfold is_first in Ef. apply bool_decide_eq_true in Ef. unfold a', a_this. cbn [a_lists a_with fupd]. fold m.
           rewrite <- Ea, <- Ek. destruct k as [|x k'] eqn:Ek'; [by destruct (R1 ++ upto_prio m (prio m p) R2)|]. simpl in Ef. subst x.
           unfold fupd. rewrite decide_True by done. rewrite place_all_head by auto. intros Hx. apply (Hdp g_readytorun). rewrite Hx.
           apply (this_in a). rewrite El. intros E0. apply app_nil in E0 as [_ ->]. set_solver.
        -- cbn [mbind option_bind] in E4 |- *. rewrite E4. cbn [mbind option_bind]. rewrite orb_false_r in E5. rewrite E5. do 4 f_equal.
           unfold is_first in Ef. apply bool_decide_eq_false in Ef.
           assert (Hk : fst_of 0 k = fst_of 0 (a_lists a g_readytorun)).
           { rewrite El. destruct (place_this m p (R1 ++ R2)) as [Hx|Hx]; [rewrite <- El; apply Hdp|done|by destruct Ef]. }
           apply bool_decide_ext. unfold a', a_this. cbn [a_lists a_with]. unfold fupd. rewrite !decide_True by done. fold m. by rewrite Hk.
      * revert R''. apply rep_proper. split; [|done]. intros l. unfold a'. simpl. unfold fupd. by destruct (decide _).
      * by eapply same_rest_trans.
Qed.

Lemma mergepending_ok s a idle : rep [] s a -> sorted (a_tasks a) (a_lists a g_pendingtasks) ->
  (forall p, p ∈ a_lists a g_pendingtasks -> SCHED_PRIORITY_MIN <= prio (a_tasks a) p) ->
  idle ∈ a_lists a g_readytorun -> prio (a_tasks a) idle < SCHED_PRIORITY_MIN ->
  exists s', sched_mergepending s = Some (negb (bool_decide (a_this (a_merge a) = a_this a)), s') /\ rep [] s' (a_merge a) /\ same_rest s s'.
Proof.
  intros R Hso Hpp Hi Hip. unfold sched_mergepending. rewrite (r_head _ _ _ R), (r_this _ _ _ R).
  pose proof (r_q _ _ _ R g_pendingtasks) as (_ & _ & Hs & Hnd). pose proof (r_size _ _ _ R g_pendingtasks _ eq_refl) as Hsz.
  assert (R0 : rep [] (clr s) (a_with g_pendingtasks [] a)).
  { apply (relist []); [done|apply dq_rep_init|done|..]; set_solver. }
  destruct (merge_loop_ok (a_lists a g_pendingtasks) (S (size (tcb_links s))) s (a_with g_pendingtasks [] a) [] (a_lists a g_readytorun) idle false) as (s' & E & R' & Hsr);
    try done; try lia.
  - by eapply dseg_sseg.
  - intros p Hp. split_and!; [|by apply (r_alloc _ _ _ R) in Hp as (_ & _ & ?)|by apply Hpp].
    intros l. simpl. unfold fupd. destruct (decide (l = g_pendingtasks)) as [->|Hl]; [set_solver|].
    intros Hx. by apply Hl, (r_apart _ _ _ R l g_pendingtasks p).
  - set_solver.
  - unfold a_this in E at 1. cbn [fst_of] in E. fold (a_this a) in E. rewrite E. cbn [mbind option_bind].
    exists (clr s'). split; [|split]; [done| |exact Hsr].
    revert R'. apply rep_proper. split; [|done]. intros l. simpl. unfold fupd.
    destruct (decide (l = g_pendingtasks)) as [->|]; [done|]. by destruct (decide (l = g_readytorun)).
Qed.
