(* ===== verification/SchedInv.v ===== *)
(** * The invariant of the scheduler

    The ready-to-run list ends with the idle task and, like every prioritized list, is in
    the order of the priorities; tasks are pending only while the running task has
    pre-emption disabled; the registers belong to the head of the ready-to-run list.
    Every operation of [Sched] is defined where the invariant holds, keeps it, and does
    what its specification says. *)

From Stdlib Require Import Sorting.Sorted.
From S2P Require Import Prelude Queue Sched.

Definition prioritized (l : tasklist) : bool := TLIST_ISPRIORITIZED (list_state l false).

Record a_inv0 (idle : Z) (a : asched) : Prop := {
  i_sorted l : prioritized l = true -> sorted (a_tasks a) (a_lists a l);
  i_idle : exists r, a_lists a g_readytorun = r ++ [idle];
  i_low : prio (a_tasks a) idle < SCHED_PRIORITY_MIN;
  i_prio l t : t ∈ a_lists a l -> t <> idle -> SCHED_PRIORITY_MIN <= prio (a_tasks a) t <= SCHED_PRIORITY_MAX;
  i_fields t c : a_tasks a !! t = Some c -> 0 <= lockcount c <= 32767 /\ 0 <= timeslice c <= RR_TICKS
}.
Record a_inv (idle : Z) (a : asched) : Prop := {
  i_base : a_inv0 idle a;
  i_pending : a_lists a g_pendingtasks <> [] -> 0 < lock_of (a_tasks a) (a_this a)
}.

(** The state of the kernel. *)
Record k_ok (idle : Z) (s : sched) (a : asched) : Prop := {
  k_rep : rep [] s a;
  k_inv : a_inv idle a;
  k_cur : current s = a_this a
}.

#[export] Instance a_this_proper : Proper (a_eq ==> eq) a_this.
Proof. intros a a' [Hl _]. unfold a_this. by rewrite Hl. Qed.

#[export] Instance a_lists_proper : Proper (a_eq ==> eq ==> eq) a_lists.
Proof. intros a a' [Hl _] l _ <-. apply Hl. Qed.
#[export] Instance a_tasks_proper : Proper (a_eq ==> eq) a_tasks.
Proof. intros a a' [_ Ht]. exact Ht. Qed.

#[export] Instance a_inv0_proper idle : Proper (a_eq ==> iff) (a_inv0 idle).
Proof.
  assert (H : forall a a', a_eq a a' -> a_inv0 idle a -> a_inv0 idle a').
  { intros a a' [Hl Ht] I. split; rewrite <- ?Ht, <- ?Hl; try apply I; intros l; rewrite <- Hl; apply I. }
  intros a a' E. split; apply H; [done|by symmetry].
Qed.

#[export] Instance a_inv_proper idle : Proper (a_eq ==> iff) (a_inv idle).
Proof.
  assert (H : forall a a', a_eq a a' -> a_inv idle a -> a_inv idle a').
  { intros a a' E [I0 Ip]. split; [by rewrite <- E|]. by rewrite <- E. }
  intros a a' E. split; apply H; [done|by symmetry].
Qed.

#[export] Instance k_ok_proper idle s : Proper (a_eq ==> iff) (k_ok idle s).
Proof. intros a a' E. split; intros [R I C]; split; [by rewrite <- E..|by rewrite E|by rewrite E|by rewrite E]. Qed.

#[export] Instance a_upd_proper t f : Proper (a_eq ==> a_eq) (a_upd t f).
Proof. intros a a' [Hl Ht]. split; simpl; [done|]. by rewrite Ht. Qed.

#[export] Instance a_switch_proper t : Proper (a_eq ==> a_eq) (a_switch t).
Proof. intros a a' E. unfold a_switch. rewrite (a_this_proper _ _ E). destruct (decide _); [done|]. by rewrite E. Qed.

#[export] Instance a_with_proper l k : Proper (a_eq ==> a_eq) (a_with l k).
Proof. intros a a' [Hl Ht]. split; [|done]. intros l'. simpl. unfold fupd. by destruct (decide _). Qed.

#[export] Instance a_add_proper t : Proper (a_eq ==> a_eq) (a_add t).
Proof. intros a a' E. unfold a_add. rewrite (a_this_proper _ _ E). pose proof E as [Hl Ht]. rewrite Ht, !Hl. destruct (decide _); by rewrite E. Qed.

#[export] Instance a_merge_proper : Proper (a_eq ==> a_eq) a_merge.
Proof. intros a a' E. unfold a_merge. pose proof E as [Hl Ht]. rewrite Ht, !Hl. by rewrite E. Qed.

(** ** Ordered lists *)

Lemma sorted_app m k1 k2 : sorted m (k1 ++ k2) <-> sorted m k1 /\ sorted m k2 /\ forall x y, x ∈ k1 -> y ∈ k2 -> prio m y <= prio m x.
Proof.
  unfold sorted. induction k1 as [|z k1 IH]; simpl.
  - split; [intros H; split_and!; [constructor|done|set_solver]|tauto].
  - split.
    + intros [H1 H2]%StronglySorted_inv. apply IH in H1 as (H1 & H3 & H4). apply Forall_app in H2 as [H2 H5].
      split_and!; [by constructor|done|]. intros x y [-> | Hx]%elem_of_cons Hy; [by eapply Forall_forall in H5|auto].
    + intros ([H1 H2]%StronglySorted_inv & H3 & H4). constructor; [apply IH; split_and!; [done..|set_solver]|].
      apply Forall_app. split; [done|]. apply Forall_forall. intros y Hy. apply H4; [by left|done].
Qed.

Lemma sorted_ext m m' l : (forall x, x ∈ l -> prio m x = prio m' x) -> sorted m l -> sorted m' l.
Proof.
  unfold sorted. induction l as [|x l IH]; intros He; [constructor|]. intros [H1 H2]%StronglySorted_inv.
  constructor; [apply IH; [set_solver|done]|]. rewrite Forall_forall in H2 |- *. intros y Hy. rewrite <- !He by set_solver. auto.
Qed.

Lemma sorted_sub m k1 t k2 : sorted m (k1 ++ t :: k2) -> sorted m (k1 ++ k2).
Proof. rewrite !sorted_app. intros (H1 & H2 & H3). apply StronglySorted_inv in H2 as [H2 _]. split_and!; [done..|]. set_solver. Qed.

Lemma sorted_remove m t l : sorted m l -> sorted m (remove_node t l).
Proof.
  unfold sorted, remove_node. induction l as [|x l IH]; [constructor|]. intros [H1 H2]%StronglySorted_inv.
  rewrite filter_cons. destruct (decide _); [|auto]. constructor; [auto|]. rewrite Forall_forall in H2 |- *.
  intros y [_ Hy]%list_elem_of_filter. auto.
Qed.

Lemma after_lt m p l x : sorted m l -> x ∈ after_prio m p l -> prio m x < p.
Proof.
  unfold sorted. induction l as [|y l IH]; simpl; [set_solver|]. intros [H1 H2]%StronglySorted_inv. destruct (decide _); [auto|].
  intros [-> | Hx]%elem_of_cons; [lia|]. eapply Forall_forall in H2; [|done]. lia.
Qed.

Lemma place_sorted m t l : sorted m l -> sorted m (place m t l).
Proof.
  intros H. pose proof (after_lt m (prio m t) l) as Ha. pose proof H as H'. rewrite <- (split_prio m (prio m t) l), sorted_app in H'.
  destruct H' as (H1 & H2 & H3). apply sorted_app. split_and!; [done| |].
  - constructor; [done|]. apply Forall_forall. intros x Hx. apply Z.lt_le_incl. auto.
  - intros x y Hx [-> | Hy]%elem_of_cons; [by apply upto_ge in Hx|auto].
Qed.

Lemma sorted_place_all m P l : sorted m l -> sorted m (place_all m P l).
Proof. revert l; induction P as [|p P IH]; simpl; [done|]. intros l H. by apply IH, place_sorted. Qed.

Lemma place_all_elem m P l x : x ∈ place_all m P l <-> x ∈ P \/ x ∈ l.
Proof. revert l; induction P as [|p P IH]; simpl; intros l; [set_solver|]. rewrite IH, place_elem. set_solver. Qed.

Lemma place_before_idle m t r idle : prio m idle < prio m t -> place m t (r ++ [idle]) = place m t r ++ [idle].
Proof.
  intros H. unfold place. assert (Hs : upto_prio m (prio m t) (r ++ [idle]) = upto_prio m (prio m t) r /\ after_prio m (prio m t) (r ++ [idle]) = after_prio m (prio m t) r ++ [idle]).
  { induction r as [|x r IH]; simpl; [by rewrite !decide_False by lia|]. destruct IH as [E1 E2]. destruct (decide _); [by rewrite E1, E2|done]. }
  destruct Hs as [-> ->]. by rewrite <- app_assoc.
Qed.

Lemma place_all_idle m P r idle : (forall p, p ∈ P -> prio m idle < prio m p) -> exists r', place_all m P (r ++ [idle]) = r' ++ [idle].
Proof.
  revert r; induction P as [|p P IH]; simpl; intros r H; [by exists r|]. rewrite place_before_idle by (apply H; by left).
  apply IH. set_solver.
Qed.

Lemma prio_alter m t f x : (forall c, sched_priority (f c) = sched_priority c) -> prio (alter f t m) x = prio m x.
Proof.
  intros H. unfold prio. destruct (decide (x = t)) as [->|]; [rewrite lookup_alter_eq|by rewrite lookup_alter_ne by congruence].
  destruct (m !! t); simpl; [apply H|done].
Qed.

Lemma lock_alter m t f x : (forall c, lockcount (f c) = lockcount c) -> lock_of (alter f t m) x = lock_of m x.
Proof.
  intros H. unfold lock_of. destruct (decide (x = t)) as [->|]; [rewrite lookup_alter_eq|by rewrite lookup_alter_ne by congruence].
  destruct (m !! t); simpl; [apply H|done].
Qed.

(** ** The invariant of the abstract operations *)

Section Inv.
Context (idle : Z).

Definition task_ok (t : Z) (a : asched) : Prop := t <> idle /\ SCHED_PRIORITY_MIN <= prio (a_tasks a) t <= SCHED_PRIORITY_MAX.

Lemma inv0_task a l t : a_inv0 idle a -> t ∈ a_lists a l -> t <> idle -> task_ok t a.
Proof. intros I Ht Hi. split; [done|]. by apply (i_prio _ _ I l). Qed.

Lemma inv0_with l k a : a_inv0 idle a -> (prioritized l = true -> sorted (a_tasks a) k) ->
  (l = g_readytorun -> exists r, k = r ++ [idle]) -> (forall x, x ∈ k -> x <> idle -> task_ok x a) -> a_inv0 idle (a_with l k a).
Proof.
  intros I Hs Hr Hk. split; simpl; try apply I.
  - intros l'. unfold fupd. destruct (decide (l' = l)) as [->|]; [done|apply (i_sorted _ _ I)].
  - unfold fupd. destruct (decide (g_readytorun = l)) as [<-|]; [by apply Hr|apply (i_idle _ _ I)].
  - intros l' t. unfold fupd. destruct (decide (l' = l)) as [->|]; [intros; by apply Hk|apply (i_prio _ _ I)].
Qed.

Lemma inv0_drop t a : a_inv0 idle a -> t <> idle -> a_inv0 idle (a_drop t a).
Proof.
  intros I Ht. split; simpl; try apply I.
  - intros l Hl. apply sorted_remove. by apply (i_sorted _ _ I).
  - destruct (i_idle _ _ I) as [r ->]. exists (remove_node t r). unfold remove_node. rewrite filter_app. f_equal.
    rewrite filter_cons. by rewrite decide_True.
  - intros l x [_ Hx]%list_elem_of_filter. by apply (i_prio _ _ I l).
Qed.

Lemma inv0_place t l a : a_inv0 idle a -> task_ok t a -> a_inv0 idle (a_with l (place (a_tasks a) t (a_lists a l)) a).
Proof.
  intros I [Hi Hp]. apply inv0_with; [done|intros Hl; by apply place_sorted, (i_sorted _ _ I)| |].
  - intros ->. destruct (i_idle _ _ I) as [r ->]. exists (place (a_tasks a) t r). apply place_before_idle.
    pose proof (i_low _ _ I). lia.
  - intros x [-> | Hx]%place_elem Hxi; [done|]. by eapply inv0_task.
Qed.

Lemma inv0_add t a : a_inv0 idle a -> task_ok t a -> a_inv0 idle (a_add t a).
Proof. intros I Ht. unfold a_add. destruct (decide _); by apply inv0_place. Qed.

Lemma inv0_queue t st a : a_inv0 idle a -> task_ok t a -> is_blocked_state st = true -> a_inv0 idle (a_queue t st a).
Proof.
  intros I Ht Hst. unfold a_queue. destruct (TLIST_HEAD st) as [l|] eqn:El; [|done].
  destruct (TLIST_ISPRIORITIZED st) eqn:Ep; [by apply inv0_place|]. apply inv0_with; [done|..].
  - intros Hl. exfalso. destruct st; try done; injection El as <-; done.
  - intros ->. by destruct st.
  - intros x [Hx|Hx]%elem_of_app Hxi; [by eapply inv0_task|]. apply list_elem_of_singleton in Hx. by subst.
Qed.

Lemma inv0_merge a : a_inv0 idle a -> idle ∉ a_lists a g_pendingtasks -> a_inv0 idle (a_merge a).
Proof.
  intros I Hi. unfold a_merge. apply inv0_with; [apply inv0_with; [done|..]| |done|set_solver].
  - intros _. apply sorted_place_all. by apply (i_sorted _ _ I).
  - intros _. destruct (i_idle _ _ I) as [r ->]. apply place_all_idle. intros p Hp. pose proof (i_low _ _ I).
    assert (p <> idle) by set_solver. pose proof (i_prio _ _ I _ _ Hp). lia.
  - intros x [Hx|Hx]%place_all_elem Hxi; by eapply inv0_task.
  - intros _. constructor.
Qed.

Lemma inv0_upd t f a : a_inv0 idle a -> (forall c, sched_priority (f c) = sched_priority c) ->
  (forall c, a_tasks a !! t = Some c -> 0 <= lockcount (f c) <= 32767 /\ 0 <= timeslice (f c) <= RR_TICKS) -> a_inv0 idle (a_upd t f a).
Proof.
  intros I Hp Hl. split; simpl; intros; rewrite ?prio_alter by done; try (by apply I).
  - eapply sorted_ext; [|by apply (i_sorted _ _ I)]. intros x _. by rewrite prio_alter.
  - by eapply (i_prio _ _ I).
  - destruct (decide (t0 = t)) as [->|].
    + rewrite lookup_alter_eq in H. destruct (a_tasks a !! t) as [c0|]; [|done]. injection H as <-. by apply Hl.
    + rewrite lookup_alter_ne in H by congruence. by apply (i_fields _ _ I t0).
Qed.

Lemma inv0_setprio t p a : a_inv0 idle a -> (forall l, prioritized l = true -> t ∉ a_lists a l) -> t <> idle ->
  is_Some (a_tasks a !! t) -> SCHED_PRIORITY_MIN <= p <= SCHED_PRIORITY_MAX -> a_inv0 idle (a_upd t (set_priority p) a).
Proof.
  intros I Hd Hi Hk Hp. assert (E : forall x, x <> t -> prio (alter (set_priority p) t (a_tasks a)) x = prio (a_tasks a) x).
  { intros x Hx. unfold prio. by rewrite lookup_alter_ne by congruence. }
  split; simpl; try apply I.
  - intros l Hl. eapply sorted_ext; [|by apply (i_sorted _ _ I)]. intros x Hx. rewrite E; [done|]. intros ->. by apply (Hd l).
  - rewrite E by done. apply (i_low _ _ I).
  - intros l x Hx Hxi. destruct (decide (x = t)) as [->|]; [|rewrite E by done; by apply (i_prio _ _ I l)].
    destruct Hk as [c Hc]. unfold prio. rewrite lookup_alter_eq, Hc. exact Hp.
  - intros x c Hx. destruct (decide (x = t)) as [->|].
    + rewrite lookup_alter_eq in Hx. destruct (a_tasks a !! t) as [c0|] eqn:E0; [|done]. injection Hx as <-. by apply (i_fields _ _ I t c0).
    + rewrite lookup_alter_ne in Hx by congruence. by apply (i_fields _ _ I x).
Qed.

Lemma inv0_switch t a : a_inv0 idle a -> a_inv0 idle (a_switch t a).
Proof.
  intros I. unfold a_switch. destruct (decide _); [done|]. apply inv0_upd; [done|done|]. intros c Hc. destruct (i_fields _ _ I _ _ Hc). by split.
Qed.

Lemma this_switch t a : a_this (a_switch t a) = a_this a.
Proof. unfold a_switch. by destruct (decide _). Qed.

Lemma switch_lists t a l : a_lists (a_switch t a) l = a_lists a l.
Proof. unfold a_switch. by destruct (decide _). Qed.

Lemma inv_ready a : a_inv0 idle a -> a_lists a g_readytorun <> [].
Proof. intros I. destruct (i_idle _ _ I) as [r ->]. by destruct r. Qed.

Lemma inv_idle_in a : a_inv0 idle a -> idle ∈ a_lists a g_readytorun.
Proof. intros I. destruct (i_idle _ _ I) as [r ->]. set_solver. Qed.

Lemma idle_only X s a l : rep X s a -> a_inv0 idle a -> l <> g_readytorun -> idle ∉ a_lists a l.
Proof. intros R I Hl Hi. by apply Hl, (r_apart _ _ _ R l g_readytorun idle), inv_idle_in. Qed.

Lemma merge_nil a : a_lists a g_pendingtasks = [] -> a_eq (a_merge a) a.
Proof.
  intros E. split; [|done]. intros l. simpl. rewrite E. unfold fupd.
  destruct (decide (l = g_pendingtasks)) as [->|]; [done|]. by destruct (decide (l = g_readytorun)) as [->|].
Qed.

Lemma merge_pending a : a_lists (a_merge a) g_pendingtasks = [].
Proof. done. Qed.

Lemma pend_dec X s a : rep X s a -> (dq_head (queues s g_pendingtasks) <> 0 <-> a_lists a g_pendingtasks <> []).
Proof.
  intros R. rewrite (r_head _ _ _ R). rewrite fst_nil; [done|]. intros Hz. by destruct (r_alloc _ _ _ R _ _ Hz).
Qed.

(** When nothing is pending the second part of the invariant is for free. *)
Lemma inv_nil a : a_inv0 idle a -> a_lists a g_pendingtasks = [] -> a_inv idle a.
Proof. intros I E. split; [done|]. by rewrite E. Qed.

(** ** Context switches *)

Lemma switch_ok s a from : rep [] s a -> a_inv0 idle a -> current s = from -> a_this a <> from ->
  exists s', switch_from from s = Some s' /\ rep [] s' (a_switch from a) /\ current s' = a_this (a_switch from a) /\ g_pidhash s' = g_pidhash s.
Proof.
  intros R I Hc Hne. unfold switch_from. rewrite (r_this _ _ _ R).
  pose proof (this_in a (inv_ready a I)) as Hin. destruct (r_alloc _ _ _ R _ _ Hin) as (_ & _ & Hs).
  destruct (upd_ok [] s a (a_this a) (set_timeslice RR_TICKS) R Hs) as (m & E & R').
  unfold sched_resume_scheduler. rewrite E. simpl. unfold up_switchcontext. simpl. rewrite decide_True by done.
  eexists. split; [done|]. rewrite this_switch. split; [|done]. unfold a_switch. rewrite decide_False by done.
  by apply (rep_same [] (with_tcbs m s)).
Qed.

Lemma merge_if_ok s a : rep [] s a -> a_inv0 idle a ->
  exists s', merge_if_pending s = Some (negb (bool_decide (a_this (a_merge a) = a_this a)), s') /\ rep [] s' (a_merge a) /\ same_rest s s'.
Proof.
  intros R I. unfold merge_if_pending. pose proof (idle_only _ _ _ g_pendingtasks R I ltac:(done)) as Hi. destruct (decide _) as [Hd|Hd].
  - apply (mergepending_ok s a idle R); [by apply (i_sorted _ _ I)| |by apply inv_idle_in|apply (i_low _ _ I)].
    intros p Hp. assert (p <> idle) by set_solver. by apply (i_prio _ _ I _ _ Hp).
  - rewrite (pend_dec _ _ _ R) in Hd. assert (E : a_lists a g_pendingtasks = []) by (by destruct (a_lists a g_pendingtasks); [|destruct Hd]).
    exists s. rewrite (a_this_proper _ _ (merge_nil a E)), bool_decide_true by done. split_and!; [done| |done]. by rewrite merge_nil.
Qed.

Lemma ready_state s a t c : rep [] s a -> t ∈ a_lists a g_readytorun -> tcbs s !! t = Some c -> is_ready_state (task_state c) = true.
Proof. intros R Ht Hc. rewrite (r_state _ _ _ R _ _ _ Ht ltac:(set_solver) Hc). simpl. by destruct (is_first _ _). Qed.

Lemma not_alone a t : a_inv0 idle a -> t <> idle -> a_lists a g_readytorun <> [t].
Proof. intros I Ht E. pose proof (inv_idle_in a I). rewrite E in *. set_solver. Qed.

Lemma block_ok s a st : k_ok idle s a -> a_this a <> idle -> is_blocked_state st = true ->
  exists s', up_block_task (a_this a) st s = Some s' /\ k_ok idle s' (a_block st a) /\ g_pidhash s' = g_pidhash s.
Proof.
  intros [R [I _] C] Hni Hst. set (t := a_this a) in *. pose proof (this_in a (inv_ready a I)) as Hin. fold t in Hin.
  destruct (r_alloc _ _ _ R _ _ Hin) as (H0 & _ & Hs). pose proof Hs as [c Hc]. unfold up_block_task.
  rewrite (r_this _ _ _ R). fold t. rewrite Hc. cbn [mbind option_bind]. rewrite (ready_state s a t c) by done. cbn [negb].
  pose proof (inv0_task a _ t I Hin Hni) as Hok. pose proof (drop_detached t a) as Hd.
  destruct (removeready_ok s a t R Hin (not_alone a t I Hni)) as (s1 & E1 & R1 & [C1 P1]). rewrite E1. cbn [mbind option_bind].
  rewrite bool_decide_true by done. pose proof (inv0_drop t a I Hni) as I1.
  assert (Hcan : can_add t s1 (a_drop t a)). { split_and!; [done| |apply Hok]. apply (r_known _ _ _ R1). by apply (r_known _ _ _ R). }
  destruct (addblocked_ok s1 (a_drop t a) t st R1 Hcan Hst) as (s2 & E2 & R2 & [C2 P2]). rewrite E2. cbn [mbind option_bind].
  pose proof (inv0_queue t st (a_drop t a) I1 Hok Hst) as I2. set (a2 := a_queue t st (a_drop t a)) in *.
  pose proof (inv0_merge a2 I2 (idle_only _ _ _ g_pendingtasks R2 I2 ltac:(done))) as I3.
  assert (Hthis : a_this (a_merge a2) <> t).
  { intros E. pose proof (this_in _ (inv_ready _ I3)) as Hin2. rewrite E in Hin2. simpl in Hin2. unfold a2, a_queue in Hin2.
    apply place_all_elem in Hin2 as [Hin2|Hin2]; destruct st; simpl in Hin2; try done; first [by apply (Hd g_pendingtasks) | by apply (Hd g_readytorun)]. }
  destruct (merge_if_ok s2 a2 R2 I2) as (s3 & E3 & R3 & [C3 P3]). rewrite E3. cbn [mbind option_bind orb].
  destruct (switch_ok s3 (a_merge a2) t R3 I3) as (s4 & E4 & R4 & C4 & P4); [congruence|done|].
  rewrite E4. eexists. split; [done|]. split; [|congruence]. split; [done| |done]. unfold a_block. fold t a2.
  apply inv_nil; [by apply inv0_switch|by rewrite switch_lists].
Qed.

(** A blocked task becomes ready. *)
Lemma this_drop t a : t <> a_this a -> a_this (a_drop t a) = a_this a.
Proof.
  intros H. unfold a_this in *. simpl. destruct (a_lists a g_readytorun) as [|x k]; [done|]. simpl in *. unfold remove_node.
  rewrite filter_cons. by rewrite decide_True.
Qed.

Lemma lists_add t a l : l <> g_readytorun -> l <> g_pendingtasks -> a_lists (a_add t a) l = a_lists a l.
Proof. intros H1 H2. unfold a_add. destruct (decide _); simpl; unfold fupd; by rewrite decide_False. Qed.

Lemma tasks_add t a : a_tasks (a_add t a) = a_tasks a.
Proof. unfold a_add. by destruct (decide _). Qed.

Lemma lock_switch t a x : lock_of (a_tasks (a_switch t a)) x = lock_of (a_tasks a) x.
Proof. unfold a_switch. destruct (decide _); simpl; [done|]. by rewrite lock_alter. Qed.

Lemma place_head m t x k : prio m t <= prio m x -> fst_of 0 (place m t (x :: k)) = x.
Proof. intros H. unfold place. simpl. by rewrite decide_True. Qed.

(** Adding a task while others are pending: the running task has disabled pre-emption
    and stays at the head. *)
Lemma inv_add t a : a_inv idle a -> task_ok t a -> a_inv idle (a_add t a).
Proof.
  intros [I Hp] Ht. split; [by apply inv0_add|]. rewrite tasks_add. unfold a_add. destruct (decide _) as [[Hl _]|Hn]; [done|].
  intros Hpn. specialize (Hp Hpn). assert (E : a_this (a_with g_readytorun (place (a_tasks a) t (a_lists a g_readytorun)) a) = a_this a); [|by rewrite E].
  unfold a_this in *. simpl. pose proof (inv_ready a I) as Hr. destruct (a_lists a g_readytorun) as [|x k]; [done|].
  simpl in *. apply (place_head _ t x k). lia.
Qed.

Lemma inv_switch t a : a_inv idle a -> a_inv idle (a_switch t a).
Proof. intros [I Hp]. split; [by apply inv0_switch|]. by rewrite switch_lists, this_switch, lock_switch. Qed.

Lemma inv_drop t a : a_inv idle a -> t <> a_this a -> t <> idle -> a_inv idle (a_drop t a).
Proof.
  intros [I Hp] Ht Hi. split; [by apply inv0_drop|]. rewrite this_drop by done. simpl. intros Hn. apply Hp. by intros E; rewrite E in Hn.
Qed.

(** What follows an insertion: a context switch when the head changed. *)
Lemma after_add s a : rep [] s a -> a_inv idle a -> forall from, current s = from ->
  exists s', (if negb (bool_decide (a_this a = from)) then switch_from from s else Some s) = Some s' /\ k_ok idle s' (a_switch from a) /\ g_pidhash s' = g_pidhash s.
Proof.
  intros R I from C. destruct (bool_decide (a_this a = from)) eqn:E; simpl.
  - apply bool_decide_eq_true in E. exists s. split_and!; [done| |done]. unfold a_switch. rewrite decide_True by done. split; [done..|congruence].
  - apply bool_decide_eq_false in E. destruct (switch_ok s a from R (i_base _ _ I) C E) as (s' & E' & R' & C' & P').
    exists s'. split_and!; [done| |done]. split; [done|by apply inv_switch|done].
Qed.

Lemma unblock_ok s a t l : k_ok idle s a -> t ∈ a_lists a l -> l <> g_readytorun -> l <> g_pendingtasks ->
  exists s', up_unblock_task t s = Some s' /\ k_ok idle s' (a_unblock t a) /\ g_pidhash s' = g_pidhash s.
Proof.
  intros [R I C] Ht Hl1 Hl2. destruct (r_alloc _ _ _ R _ _ Ht) as (H0 & _ & Hs). pose proof Hs as [c Hc]. unfold up_unblock_task.
  rewrite (r_this _ _ _ R), Hc. cbn [mbind option_bind].
  assert (is_blocked_state (task_state c) = true) as ->. { rewrite (r_state _ _ _ R _ _ _ Ht ltac:(set_solver) Hc). by destruct l. }
  cbn [negb]. assert (Hi : t <> idle) by (intros ->; by apply (idle_only _ _ _ l R (i_base _ _ I))).
  assert (Hr : t <> a_this a). { intros ->. apply Hl1, (r_apart _ _ _ R l g_readytorun (a_this a)); [done|]. by apply this_in, inv_ready, I. }
  destruct (removeblocked_ok s a t l R Ht Hl1) as (s1 & E1 & R1 & [C1 P1]). rewrite E1. cbn [mbind option_bind].
  pose proof (inv0_task a l t (i_base _ _ I) Ht Hi) as Hok. pose proof (inv_drop t a I Hr Hi) as I1.
  destruct (addready_ok s1 (a_drop t a) t R1) as (s2 & E2 & R2 & [C2 P2]).
  - split_and!; [apply drop_detached| |apply Hok]. apply (r_known _ _ _ R1). by apply (r_known _ _ _ R).
  - apply inv_ready, I1.
  - rewrite E2. cbn [mbind option_bind]. rewrite this_drop by done.
    destruct (after_add s2 _ R2 (inv_add t _ I1 Hok) (a_this a)) as (s3 & E3 & K & P3); [congruence|].
    rewrite E3. eexists. split_and!; [done|done|congruence].
Qed.

(** ** Pre-emption *)

Definition a_lock (a : asched) : asched := a_upd (a_this a) (fun c => set_lockcount (s16 (lockcount c + 1)) c) a.
Definition a_unlock (a : asched) : asched :=
  let t := a_this a in
  let n := Z.max 0 (lock_of (a_tasks a) t - 1) in
  let a1 := a_upd t (set_lockcount n) a in
  if decide (n = 0) then a_release a1 else a1.

#[local] Instance ks_lock n : KeepsState (fun c => set_lockcount (s16 (lockcount c + n)) c).
Proof. done. Qed.

Lemma this_known s a : rep [] s a -> a_inv0 idle a -> exists c, tcbs s !! a_this a = Some c /\ a_tasks a !! a_this a = Some (info c).
Proof.
  intros R I. destruct (r_alloc _ _ _ R _ _ (this_in a (inv_ready a I))) as (_ & _ & [c Hc]). exists c. split; [done|]. by apply (r_info _ _ _ R).
Qed.

Lemma lock_at m t f c : m !! t = Some c -> lock_of (alter f t m) t = lockcount (f c).
Proof. intros H. unfold lock_of. by rewrite lookup_alter_eq, H. Qed.

Lemma this_nonzero s a : rep [] s a -> a_inv0 idle a -> a_this a <> 0.
Proof. intros R I. apply (r_alloc _ _ _ R g_readytorun), this_in, inv_ready, I. Qed.

Lemma lock_ok s a : k_ok idle s a -> lock_of (a_tasks a) (a_this a) < 32767 ->
  exists s', sched_lock false s = Some s' /\ k_ok idle s' (a_lock a) /\ g_pidhash s' = g_pidhash s.
Proof.
  intros [R [I Hp] C] Hlt. destruct (this_known s a R I) as (c & Hc & Ha). pose proof (i_fields _ _ I _ _ Ha) as [Hf1 Hf2]. simpl in Hf1, Hf2.
  unfold sched_lock. rewrite (r_this _ _ _ R). rewrite decide_True by (split; [by apply (this_nonzero s)|done]).
  destruct (upd_ok [] s a (a_this a) (fun c => set_lockcount (s16 (lockcount c + 1)) c) R) as (m & E & R'); [eauto|].
  rewrite E. eexists. split; [done|]. split; [|done]. rewrite (lock_some _ _ _ Ha) in Hlt. simpl in Hlt. split; [done| |done]. split.
  - apply inv0_upd; [done|done|]. intros c' Hc'. simplify_eq. simpl. rewrite s16_id by lia. lia.
  - intros _. change (a_this (a_lock a)) with (a_this a). simpl. rewrite (lock_at _ _ _ _ Ha). simpl. rewrite s16_id by lia. lia.
Qed.

Lemma a_upd_twice t n n' a : a_eq (a_upd t (set_lockcount n) (a_upd t (set_lockcount n') a)) (a_upd t (set_lockcount n) a).
Proof.
  split; [done|]. simpl. apply map_eq. intros x. destruct (decide (x = t)) as [->|].
  - rewrite !lookup_alter_eq. by destruct (a_tasks a !! t).
  - by rewrite !lookup_alter_ne by congruence.
Qed.

Lemma a_upd_same t a c : a_tasks a !! t = Some c -> a_eq (a_upd t (set_lockcount (lockcount c)) a) a.
Proof.
  intros H. split; [done|]. simpl. apply map_eq. intros x. destruct (decide (x = t)) as [->|].
  - rewrite lookup_alter_eq, H. simpl. by destruct c.
  - by rewrite lookup_alter_ne by congruence.
Qed.

Lemma release_ok s a : rep [] s a -> a_inv0 idle a -> current s = a_this a ->
  exists s', up_release_pending s = Some s' /\ k_ok idle s' (a_release a) /\ g_pidhash s' = g_pidhash s.
Proof.
  intros R I C. unfold up_release_pending. rewrite (r_this _ _ _ R). pose proof (idle_only _ _ _ g_pendingtasks R I ltac:(done)) as Hi.
  destruct (mergepending_ok s a idle R) as (s1 & E1 & R1 & [C1 P1]); [by apply (i_sorted _ _ I)| |by apply inv_idle_in|apply (i_low _ _ I)|].
  { intros p Hp. assert (p <> idle) by set_solver. by apply (i_prio _ _ I _ _ Hp). }
  rewrite E1. cbn [mbind option_bind].
  destruct (after_add s1 (a_merge a) R1) with (from := a_this a) as (s2 & E2 & K & P2); [apply inv_nil; [by apply inv0_merge|done]|congruence|].
  rewrite E2. eexists. split_and!; [done|done|congruence].
Qed.

Lemma unlock_tail_ok s a : k_ok idle s a -> forall t, t = a_this a -> unlock_tail t s = Some s.
Proof.
  intros [R [I _] _] t ->. unfold unlock_tail. destruct (this_known s a R I) as (c & -> & _). cbn [mbind option_bind].
  rewrite (r_this _ _ _ R). destruct (decide _); [|done]. by rewrite decide_False by (intros Hn; by apply Hn).
Qed.

Lemma unlock_ok s a : k_ok idle s a ->
  exists s', sched_unlock false s = Some s' /\ k_ok idle s' (a_unlock a) /\ g_pidhash s' = g_pidhash s.
Proof.
  intros [R [I Hp] C]. destruct (this_known s a R I) as (c & Hc & Ha). pose proof (i_fields _ _ I _ _ Ha) as [Hf1 Hf2]. simpl in Hf1, Hf2.
  unfold sched_unlock, a_unlock. rewrite (r_this _ _ _ R). rewrite decide_True by (split; [by apply (this_nonzero s)|done]).
  rewrite Hc. cbn [mbind option_bind]. rewrite (lock_some _ _ _ Ha). cbn [lockcount info set_state]. set (t := a_this a) in *.
  set (n := Z.max 0 (lockcount c - 1)). set (a1 := a_upd t (set_lockcount n) a).
  assert (H1 : exists s1 c1, (if decide (0 < lockcount c) then upd_tcb t (set_lockcount (s16 (lockcount c - 1))) s else Some s) = Some s1 /\
    tcbs s1 !! t = Some c1 /\ lockcount c1 = n /\ rep [] s1 a1 /\ same_rest s s1).
  { destruct (decide _) as [Hl|Hl].
    - destruct (upd_ok [] s a t (set_lockcount (s16 (lockcount c - 1))) R) as (m & E & R'); [eauto|].
      rewrite s16_id in * by lia. assert (n = lockcount c - 1) as En by lia. rewrite E. rewrite (upd_tcb_some _ _ _ c Hc) in E. injection E as <-.
      do 2 eexists. split_and!; [done|simpl; by rewrite lookup_insert_eq|done|unfold a1; by rewrite En|done].
    - exists s, c. split_and!; [done|done|lia| |done]. assert (n = lockcount (info c)) as En by (simpl; lia). unfold a1. rewrite En.
      by rewrite (a_upd_same t a (info c) Ha). }
  destruct H1 as (s1 & c1 & -> & Hc1 & En & R1 & [C1 P1]). cbn [mbind option_bind]. rewrite Hc1. cbn [mbind option_bind]. rewrite En.
  assert (I1 : a_inv0 idle a1). { apply inv0_upd; [done|done|]. intros c' Hc'. simplify_eq. simpl. lia. }
  destruct (decide (n <= 0)) as [Hn|Hn].
  - rewrite (decide_True (P := n = 0)) by lia. destruct (upd_ok [] s1 a1 t (set_lockcount 0) R1) as (m & E2 & R2); [eauto|]. rewrite E2. cbn [mbind option_bind].
    assert (En0 : n = 0) by lia. assert (R3 : rep [] (with_tcbs m s1) a1).
    { revert R2. apply rep_proper. unfold a1. rewrite En0. symmetry. apply a_upd_twice. }
    set (s2 := with_tcbs m s1) in *. assert (H2 : exists s3, (if decide (dq_head (queues s2 g_pendingtasks) <> 0) then up_release_pending s2 else Some s2) = Some s3 /\
      k_ok idle s3 (a_release a1) /\ g_pidhash s3 = g_pidhash s).
    { destruct (decide _) as [Hd|Hd].
      - destruct (release_ok s2 a1 R3 I1) as (s3 & E3 & K & P3); [simpl; change (a_this a1) with t; congruence|].
        exists s3. split_and!; [done|done|]. simpl in P3. congruence.
      - rewrite (pend_dec _ _ _ R3) in Hd. assert (E : a_lists a1 g_pendingtasks = []) by (by destruct (a_lists a1 g_pendingtasks); [|destruct Hd]).
        exists s2. split_and!; [done| |done]. unfold a_release. rewrite (merge_nil a1 E). unfold a_switch. rewrite decide_True by done.
        split; [done|by apply inv_nil|]. simpl. change (a_this a1) with t. congruence. }
    destruct H2 as (s3 & -> & K & P3). cbn [mbind option_bind]. exists s3. split; [|done]. destruct (decide _) as [Ec|]; [|done].
    apply (unlock_tail_ok s3 _ K). rewrite <- Ec. by rewrite (k_cur _ _ _ K).
  - rewrite (decide_False (P := n = 0)) by lia. exists s1. split_and!; [done| |done]. split; [done| |change (a_this a1) with t; congruence].
    split; [done|]. intros _. change (a_this a1) with t. unfold a1. simpl. rewrite (lock_at _ _ _ _ Ha). simpl. lia.
Qed.

(** ** Priorities *)

Lemma place_all_first m P x k : fst_of 0 (place_all m P (x :: k)) = x \/ fst_of 0 (place_all m P (x :: k)) ∈ P.
Proof.
  revert x k; induction P as [|p P IH]; intros x k; simpl; [by left|].
  destruct (place_nonempty m p (x :: k)) as (y & k' & E). rewrite E. destruct (IH y k') as [-> | H]; [|right; by right].
  assert (y = x \/ y = p) as [-> | ->]; [|by left|right; by left].
  unfold place in E. simpl in E. destruct (decide _); simpl in E; injection E; auto.
Qed.

Lemma merge_this a : a_lists a g_readytorun <> [] -> a_this (a_merge a) = a_this a \/ a_this (a_merge a) ∈ a_lists a g_pendingtasks.
Proof. intros H. unfold a_this. simpl. destruct (a_lists a g_readytorun) as [|x k]; [done|]. apply place_all_first. Qed.

Lemma add_this t a : a_this (a_add t a) = a_this a \/ a_this (a_add t a) = t /\ a_lists (a_add t a) g_pendingtasks = a_lists a g_pendingtasks.
Proof.
  unfold a_add. destruct (decide _); [by left|]. unfold a_this. simpl.
  unfold place. destruct (a_lists a g_readytorun) as [|x k]; simpl; [auto|]. destruct (decide _); simpl; auto.
Qed.

Lemma prio_set p t m : is_Some (m !! t) -> prio (alter (set_priority p) t m) t = p.
Proof. intros [c H]. unfold prio. by rewrite lookup_alter_eq, H. Qed.

Lemma drop_this_in t a : a_inv0 idle a -> t <> idle -> a_this (a_drop t a) ∈ a_lists a g_readytorun /\ a_this (a_drop t a) <> t.
Proof.
  intros I Ht. pose proof (this_in _ (inv_ready _ (inv0_drop t a I Ht))) as H. simpl in H. apply list_elem_of_filter in H. tauto.
Qed.

(** A ready task gets another priority: [a_add] finds its place. *)
Definition a_moved (t p : Z) (a : asched) : asched := a_add t (a_upd t (set_priority p) (a_drop t a)).

Lemma moved_base t p a : a_inv0 idle a -> is_Some (a_tasks a !! t) -> t <> idle -> SCHED_PRIORITY_MIN <= p <= SCHED_PRIORITY_MAX ->
  a_inv0 idle (a_upd t (set_priority p) (a_drop t a)) /\ task_ok t (a_upd t (set_priority p) (a_drop t a)).
Proof.
  intros I Ha Hi Hp. split; [apply inv0_setprio; [by apply inv0_drop|intros l _; apply drop_detached|done..]|]. split; [done|]. simpl. by rewrite prio_set.
Qed.

Lemma moved_this t p a : a_inv0 idle a -> is_Some (a_tasks a !! t) -> t <> idle ->
  (t = a_this a -> p <= prio (a_tasks a) (a_this (a_drop t a))) ->
  if decide (t = a_this a) then a_this (a_moved t p a) = a_this (a_drop t a) else a_this (a_moved t p a) = a_this a \/ a_this (a_moved t p a) = t.
Proof.
  intros I Ha Hi Hle. destruct (decide _) as [Ht|Ht].
  - specialize (Hle Ht). destruct (drop_this_in t a I Hi) as [Hin Hne]. unfold a_moved, a_add.
    change (a_this (a_upd t (set_priority p) (a_drop t a))) with (a_this (a_drop t a)). destruct (decide _); [done|].
    pose proof (inv_ready _ (inv0_drop t a I Hi)) as Hr. unfold a_this in *. simpl in *. destruct (remove_node t (a_lists a g_readytorun)) as [|x k]; [done|].
    simpl in *. apply place_head. rewrite prio_set by done. unfold prio. rewrite lookup_alter_ne by congruence. exact Hle.
  - unfold a_moved. destruct (add_this t (a_upd t (set_priority p) (a_drop t a))) as [-> | [-> _]]; [|by right]. left. by apply (this_drop t a).
Qed.

(** The two halves of a change of priority: out of the list, and back. *)
Lemma move_ok s a t p : rep [] s a -> a_inv0 idle a -> t ∈ a_lists a g_readytorun -> t <> idle -> SCHED_PRIORITY_MIN <= p <= SCHED_PRIORITY_MAX ->
  exists s1 s2 s3, sched_removereadytorun t s = Some (bool_decide (t = a_this a), s1) /\
    upd_tcb t (set_priority (u8 p)) s1 = Some s2 /\
    sched_addreadytorun t s2 = Some (negb (bool_decide (a_this (a_moved t p a) = a_this (a_drop t a))), s3) /\
    rep [] s3 (a_moved t p a) /\ same_rest s s3.
Proof.
  intros R I Ht Hi Hp. destruct (removeready_ok s a t R Ht (not_alone a t I Hi)) as (s1 & E1 & R1 & S1). exists s1.
  assert (Hk : is_Some (tcbs s1 !! t)). { apply (r_known _ _ _ R1). apply (r_known _ _ _ R). by apply (r_alloc _ _ _ R g_readytorun). }
  assert (Hu : u8 p = p). { unfold u8. unfold SCHED_PRIORITY_MIN, SCHED_PRIORITY_MAX in Hp. apply Z.mod_small. lia. } rewrite Hu.
  destruct (upd_ok [] s1 (a_drop t a) t (set_priority p) R1 Hk) as (m & E2 & R2). exists (with_tcbs m s1).
  destruct (moved_base t p a I) as [I2 Hok]; [apply (r_known _ _ _ R1); done|done|done|].
  destruct (addready_ok (with_tcbs m s1) (a_upd t (set_priority p) (a_drop t a)) t R2) as (s3 & E3 & R3 & S3).
  - split_and!; [apply drop_detached| |apply Hok]. apply (r_known _ _ _ R2). simpl. rewrite lookup_alter_is_Some. by apply (r_known _ _ _ R1).
  - by apply inv_ready.
  - exists s3. split_and!; [done..|]. eapply same_rest_trans; [exact S1|]. exact S3.
Qed.

Lemma moved_inv t p a : a_inv idle a -> is_Some (a_tasks a !! t) -> t <> idle -> t <> a_this a -> SCHED_PRIORITY_MIN <= p <= SCHED_PRIORITY_MAX ->
  a_inv idle (a_moved t p a).
Proof.
  intros I Ha Hi Hne Hp. destruct (moved_base t p a (i_base _ _ I) Ha Hi Hp) as [I2 Hok]. apply inv_add; [|done]. split; [done|].
  change (a_this (a_upd t (set_priority p) (a_drop t a))) with (a_this (a_drop t a)). simpl. rewrite lock_alter by done.
  apply (i_pending _ _ (inv_drop t a I Hne Hi)).
Qed.

Lemma add_ready_in t a x : x ∈ a_lists a g_readytorun -> x ∈ a_lists (a_add t a) g_readytorun.
Proof. intros H. unfold a_add. destruct (decide _); simpl; [done|]. apply place_elem. by right. Qed.

Lemma moved_not_pending t p a : a_inv0 idle a -> is_Some (a_tasks a !! t) -> t <> idle -> (t = a_this a -> p <= prio (a_tasks a) (a_this (a_drop t a))) ->
  a_this a = t -> t ∉ a_lists (a_moved t p a) g_pendingtasks.
Proof.
  intros I Ha Hi Hle Et. specialize (Hle (eq_sym Et)). destruct (drop_this_in t a I Hi) as [_ Hne]. unfold a_moved, a_add.
  change (a_this (a_upd t (set_priority p) (a_drop t a))) with (a_this (a_drop t a)). destruct (decide _) as [[_ Hlt]|]; [|apply (drop_detached t a)].
  simpl in Hlt. rewrite prio_set in Hlt by done. revert Hle Hlt. unfold prio. rewrite lookup_alter_ne by congruence. lia.
Qed.

Lemma reprio_ok s a t p : k_ok idle s a -> t ∈ a_lists a g_readytorun -> t <> idle -> SCHED_PRIORITY_MIN <= p <= SCHED_PRIORITY_MAX ->
  (t = a_this a -> p <= prio (a_tasks a) (a_this (a_drop t a))) ->
  exists s', up_reprioritize_rtr t p s = Some s' /\ k_ok idle s' (a_reprio t p a) /\ g_pidhash s' = g_pidhash s.
Proof.
  intros [R I C] Ht Hi Hp Hle. pose proof (i_base _ _ I) as I0. destruct (r_alloc _ _ _ R _ _ Ht) as (H0 & _ & Hs). pose proof Hs as [c Hc].
  assert (Ha : is_Some (a_tasks a !! t)) by (by apply (r_known _ _ _ R)). pose proof (moved_this t p a I0 Ha Hi Hle) as Hm.
  destruct (moved_base t p a I0 Ha Hi Hp) as [I2 Hok]. pose proof (inv0_add t _ I2 Hok) as I3. fold (a_moved t p a) in I3.
  unfold up_reprioritize_rtr, a_reprio. fold (a_moved t p a). rewrite Hc. cbn [mbind option_bind]. rewrite (ready_state s a t c) by done. cbn [negb].
  rewrite decide_False by lia. destruct (move_ok s a t p R I0 Ht Hi Hp) as (s1 & s2 & s3 & E1 & E2 & E3 & R3 & [C3 P3]).
  rewrite E1. cbn [mbind option_bind]. rewrite E2. cbn [mbind option_bind]. rewrite E3. cbn [mbind option_bind]. rewrite (r_this _ _ _ R).
  assert (Hx : xorb (bool_decide (t = a_this a)) (negb (bool_decide (a_this (a_moved t p a) = a_this (a_drop t a)))) = negb (bool_decide (a_this (a_moved t p a) = a_this a))).
  { destruct (decide (t = a_this a)) as [E|E].
    - rewrite (bool_decide_true (t = a_this a)) by done. rewrite Hm, (bool_decide_true (_ = a_this (a_drop t a))) by done.
      rewrite bool_decide_false; [done|]. destruct (drop_this_in t a I0 Hi). congruence.
    - rewrite (bool_decide_false (t = a_this a)) by done. by rewrite (this_drop t a). }
  rewrite Hx. destruct (decide (a_this (a_moved t p a) = a_this a)) as [Es|Es].
  - rewrite bool_decide_true by done. simpl. exists s3. split_and!; [done| |done]. split; [done| |congruence].
    apply moved_inv; [done..| |done]. intros ->. rewrite decide_True in Hm by done. destruct (drop_this_in (a_this a) a I0 Hi). congruence.
  - rewrite bool_decide_false by done. cbn [negb]. destruct (merge_if_ok s3 _ R3 I3) as (s4 & E4 & R4 & [C4 P4]). rewrite E4. cbn [mbind option_bind].
    pose proof (inv0_merge _ I3 (idle_only _ _ _ g_pendingtasks R3 I3 ltac:(done))) as I4.
    destruct (switch_ok s4 (a_merge (a_moved t p a)) (a_this a) R4 I4) as (s5 & E5 & R5 & C5 & P5); [congruence| |].
    + destruct (merge_this (a_moved t p a) (inv_ready _ I3)) as [-> | Hin]; [done|]. intros E. rewrite E in Hin.
      destruct (decide (a_this a = t)) as [Et|Et]; [rewrite Et in Hin; by apply (moved_not_pending t p a)|].
      assert (Hin2 : a_this a ∈ a_lists (a_moved t p a) g_readytorun); [|by pose proof (r_apart _ _ _ R3 _ _ _ Hin Hin2)].
      apply add_ready_in. simpl. apply list_elem_of_filter. split; [done|]. by apply this_in, inv_ready.
    + rewrite E5. eexists. split; [done|]. split; [|congruence]. split; [done| |done]. apply inv_nil; [by apply inv0_switch|by rewrite switch_lists].
Qed.

(** The priority of a task in the list [l]. *)
Definition a_setpriority (l : tasklist) (t p : Z) (a : asched) : asched :=
  match l with
  | g_readytorun =>
    if decide (t = a_this a /\ prio (a_tasks a) (a_this (a_drop t a)) < p) then a_upd t (set_priority p) a else a_reprio t p a
  | _ =>
    let a1 := a_upd t (set_priority p) (a_drop t a) in
    if prioritized l then a_with l (place (a_tasks a1) t (a_lists a1 l)) a1 else a_upd t (set_priority p) a
  end.

Lemma next_drop s a t k : rep [] s a -> a_lists a g_readytorun = t :: k -> a_this (a_drop t a) = fst_of 0 k.
Proof.
  intros R E. pose proof (r_nodup _ _ _ R g_readytorun) as Hn. rewrite E in Hn. apply NoDup_cons in Hn as [Hn _].
  pose proof (remove_node_split t [] k) as Hs. cbn [app] in Hs. unfold a_this, a_drop. cbn [a_lists]. rewrite E, Hs; [done|set_solver|done].
Qed.

Lemma u8_prio p : SCHED_PRIORITY_MIN <= p <= SCHED_PRIORITY_MAX -> u8 p = p.
Proof. unfold u8, SCHED_PRIORITY_MIN, SCHED_PRIORITY_MAX. intros H. apply Z.mod_small. lia. Qed.

Lemma this_cons a : a_lists a g_readytorun <> [] -> exists k, a_lists a g_readytorun = a_this a :: k.
Proof. unfold a_this. destruct (a_lists a g_readytorun) as [|x k]; [done|]. by exists k. Qed.

Lemma running_setpriority_ok s a t p : k_ok idle s a -> t = a_this a -> t <> idle -> SCHED_PRIORITY_MIN <= p <= SCHED_PRIORITY_MAX ->
  exists s', sched_running_setpriority t p s = Some s' /\ k_ok idle s' (a_setpriority g_readytorun t p a) /\ g_pidhash s' = g_pidhash s.
Proof.
  intros K Et Hi Hp. pose proof K as [R [I Hpd] C]. destruct (this_cons a (inv_ready a I)) as [k El]. rewrite <- Et in El.
  assert (Ht : t ∈ a_lists a g_readytorun) by (rewrite El; by left). pose proof (next_drop s a t k R El) as En.
  destruct (drop_this_in t a I Hi) as [Hin Hne]. destruct (r_alloc _ _ _ R _ _ Hin) as (_ & _ & [n Hn]).
  destruct (r_q _ _ _ R g_readytorun) as (_ & _ & Hs & _). rewrite El in Hs. destruct Hs as (_ & Hl & _).
  unfold sched_running_setpriority, a_setpriority. rewrite Hl. cbn [mbind option_bind flink]. rewrite <- En, Hn. cbn [mbind option_bind].
  rewrite (r_prio _ _ _ R), (prio_some _ _ _ Hn). destruct (decide (p <= sched_priority n)) as [Hle|Hgt].
  - rewrite (decide_False (P := _ /\ _)) by lia. rewrite (u8_prio p) by done. apply reprio_ok; [done..|].
    intros _. rewrite (r_prio _ _ _ R), (prio_some _ _ _ Hn). lia.
  - rewrite (decide_True (P := _ /\ _)) by (split; [done|lia]). rewrite (u8_prio p) by done.
    destruct (upd_ok [] s a t (set_priority p) R) as (m & E & R'); [by apply (r_alloc _ _ _ R g_readytorun)|]. rewrite E. eexists. split; [done|]. split; [|done].
    assert (Hother : forall x, x <> t -> prio (alter (set_priority p) t (a_tasks a)) x = prio (a_tasks a) x) by (intros x Hx; unfold prio; by rewrite lookup_alter_ne by congruence).
    assert (Hself : prio (alter (set_priority p) t (a_tasks a)) t = p) by (apply prio_set; apply (r_known _ _ _ R); by apply (r_alloc _ _ _ R g_readytorun)).
    assert (Hapart : forall l x, l <> g_readytorun -> x ∈ a_lists a l -> x <> t) by (intros l x Hl' Hx ->; by apply Hl', (r_apart _ _ _ R l g_readytorun t)).
    split; [done| |done]. split.
    + split; simpl; try apply I.
      * intros l Hl'. destruct (decide (l = g_readytorun)) as [->|Hne']; [|eapply sorted_ext; [|by apply (i_sorted _ _ I)]; intros x Hx; symmetry; apply Hother; eauto].
        pose proof (i_sorted _ _ I g_readytorun eq_refl) as Hso. rewrite El in *. apply StronglySorted_inv in Hso as [Hso Hall].
        pose proof (r_nodup _ _ _ R g_readytorun) as Hnd. rewrite El in Hnd. apply NoDup_cons in Hnd as [Hnd _]. constructor.
        -- eapply sorted_ext; [|exact Hso]. intros x Hx. symmetry. apply Hother. set_solver.
        -- apply Forall_forall. intros x Hx. rewrite Hself, Hother by set_solver.
           destruct k as [|y k]; [set_solver|]. simpl in En. rewrite En in Hn. apply StronglySorted_inv in Hso as [_ Hall2].
           pose proof (r_prio _ _ _ R y) as Ey. rewrite (prio_some _ _ _ Hn) in Ey.
           apply elem_of_cons in Hx as [-> | Hx]; [lia|]. rewrite Forall_forall in Hall2. specialize (Hall2 x Hx). lia.
      * rewrite Hother by congruence. apply (i_low _ _ I).
      * intros l x Hx Hxi. destruct (decide (x = t)) as [->|]; [by rewrite Hself|]. rewrite Hother by done. by apply (i_prio _ _ I l).
      * intros x c Hx. destruct (decide (x = t)) as [->|].
        -- rewrite lookup_alter_eq in Hx. destruct (a_tasks a !! t) as [c0|] eqn:E0; [|done]. injection Hx as <-. by apply (i_fields _ _ I t c0).
        -- rewrite lookup_alter_ne in Hx by congruence. by apply (i_fields _ _ I x).
    + intros Hn'. change (a_this (a_upd t (set_priority p) a)) with (a_this a). simpl. rewrite lock_alter by done. by apply Hpd.
Qed.

Lemma readytorun_setpriority_ok s a t p : k_ok idle s a -> t ∈ a_lists a g_readytorun -> t <> a_this a -> t <> idle -> SCHED_PRIORITY_MIN <= p <= SCHED_PRIORITY_MAX ->
  exists s', sched_readytorun_setpriority t p s = Some s' /\ k_ok idle s' (a_setpriority g_readytorun t p a) /\ g_pidhash s' = g_pidhash s.
Proof.
  intros K Ht Hne Hi Hp. pose proof K as [R I C]. destruct (this_known s a R (i_base _ _ I)) as (c & Hc & Ha).
  unfold sched_readytorun_setpriority, a_setpriority. rewrite (decide_False (P := _ /\ _)) by tauto. rewrite (r_this _ _ _ R), Hc. cbn [mbind option_bind].
  destruct (decide (sched_priority c < p)) as [Hlt|Hge].
  - rewrite u8_prio by done. by apply reprio_ok.
  - destruct (move_ok s a t p R (i_base _ _ I) Ht Hi Hp) as (s1 & s2 & s3 & E1 & E2 & E3 & R3 & [C3 P3]). rewrite E1. cbn [mbind option_bind].
    rewrite bool_decide_false by done. rewrite E2. cbn [mbind option_bind]. rewrite E3. cbn [mbind option_bind].
    assert (Hk : is_Some (a_tasks a !! t)). { apply (r_known _ _ _ R). by apply (r_alloc _ _ _ R g_readytorun). }
    assert (Hthis : a_this (a_moved t p a) = a_this a).
    { unfold a_moved, a_add. rewrite decide_False.
      - unfold a_this. simpl. destruct (this_cons a (inv_ready a (i_base _ _ I))) as [k El]. rewrite El. unfold remove_node. rewrite filter_cons, decide_True by done.
        cbn [fst_of]. apply place_head. rewrite prio_set by done. unfold prio. cbn [fst_of]. rewrite lookup_alter_ne by congruence. rewrite Ha. simpl. lia.
      - change (a_this (a_upd t (set_priority p) (a_drop t a))) with (a_this (a_drop t a)). rewrite this_drop by done. simpl. rewrite prio_set by done.
        unfold prio. rewrite lookup_alter_ne by congruence. rewrite Ha. simpl. lia. }
    rewrite (this_drop t a) by done. rewrite bool_decide_true by done. simpl. exists s3. split_and!; [done| |done].
    unfold a_reprio. fold (a_moved t p a). rewrite decide_True by done. split; [done|by apply moved_inv|congruence].
Qed.

Lemma blocked_setpriority_ok s a t l p : k_ok idle s a -> t ∈ a_lists a l -> l <> g_readytorun -> SCHED_PRIORITY_MIN <= p <= SCHED_PRIORITY_MAX ->
  exists s', sched_blocked_setpriority t p s = Some s' /\ k_ok idle s' (a_setpriority l t p a) /\ g_pidhash s' = g_pidhash s.
Proof.
  intros [R I C] Ht Hl Hp. destruct (r_alloc _ _ _ R _ _ Ht) as (H0 & _ & Hs). pose proof Hs as [c Hc].
  pose proof (r_state _ _ _ R _ _ _ Ht ltac:(set_solver) Hc) as Est. assert (Hk : is_Some (a_tasks a !! t)) by (by apply (r_known _ _ _ R)).
  assert (Hi : t <> idle) by (intros ->; by apply (idle_only _ _ _ l R (i_base _ _ I))).
  assert (Hne : t <> a_this a). { intros ->. apply Hl, (r_apart _ _ _ R l g_readytorun (a_this a)); [done|]. by apply this_in, inv_ready, I. }
  assert (Els : forall b, list_state l b = list_state l false) by (intros b; by destruct l). rewrite Els in Est.
  unfold sched_blocked_setpriority. rewrite Hc. cbn [mbind option_bind]. rewrite Est, u8_prio by done.
  assert (El : TLIST_HEAD (list_state l false) = Some l) by (by destruct l). fold (prioritized l).
  assert (Ea : a_setpriority l t p a = (let a1 := a_upd t (set_priority p) (a_drop t a) in
    if prioritized l then a_with l (place (a_tasks a1) t (a_lists a1 l)) a1 else a_upd t (set_priority p) a)) by (by destruct l).
  rewrite Ea. clear Ea. cbv zeta. set (a1 := a_upd t (set_priority p) (a_drop t a)). destruct (prioritized l) eqn:Epr.
  - rewrite El. cbn [mbind option_bind]. destruct (lists_split _ _ _ _ _ R Ht) as (k1 & k2 & Ek & _).
    destruct (unlink_ok [] s a t l k1 k2 R Ek) as (q & h & E1 & R1 & _); [set_solver|done|]. rewrite E1. cbn [mbind option_bind].
    rewrite (drop_eq _ _ _ _ _ _ _ R Ek) in R1. set (s1 := with_queue l q h s) in *.
    destruct (upd_ok [] s1 (a_drop t a) t (set_priority p) R1) as (m & E2 & R2); [done|]. rewrite E2. cbn [mbind option_bind]. fold a1 in R2.
    rewrite upd_alter in E2 by done. injection E2 as <-. set (s2 := with_tcbs _ s1) in *.
    destruct (moved_base t p a (i_base _ _ I) Hk Hi Hp) as [I2 Hok]. fold a1 in I2, Hok.
    destruct (addprio_ok s2 a1 t l R2) as (q' & h' & E3 & R3); [apply drop_detached| |apply Hok|].
    { by apply lookup_alter_is_Some. }
    rewrite E3. cbn [mbind option_bind]. eexists. split; [done|]. split; [|done]. split.
    + assert (Est' : stale t l (place (a_tasks a1) t (a_lists a1 l)) = [t]) by (by destruct l). rewrite Est' in R3. apply (rep_settle _ _ _ t R3).
      intros l' c'. simpl. rewrite lookup_alter_eq, Hc. unfold fupd. destruct (decide (l' = l)) as [->|]; [|intros Hx; by destruct (drop_detached t a l')].
      intros _ [= <-]. simpl. rewrite Est. symmetry. apply Els.
    + split; [by apply inv0_place|]. intros Hn. assert (Hthis : a_this (a_with l (place (a_tasks a1) t (a_lists a1 l)) a1) = a_this a).
      { rewrite <- (this_drop t a Hne). unfold a_this. simpl. unfold fupd. by rewrite decide_False by congruence. }
      rewrite Hthis. simpl. rewrite lock_alter by done. apply (i_pending _ _ I). destruct (decide (l = g_pendingtasks)) as [->|Hlp].
      * intros E. rewrite E in Ht. set_solver.
      * simpl in Hn. unfold fupd in Hn. rewrite decide_False in Hn by congruence. intros E. by rewrite E in Hn.
    + simpl. rewrite C. unfold a_this. simpl. unfold fupd. rewrite decide_False by congruence. symmetry. apply (this_drop t a Hne).
  - destruct (upd_ok [] s a t (set_priority p) R Hs) as (m & E & R'). rewrite E. eexists. split; [done|]. split; [|done]. split; [done| |done]. split.
    + apply inv0_setprio; [apply I| |done..]. intros l' Hl' Hx. pose proof (r_apart _ _ _ R _ _ _ Hx Ht). congruence.
    + change (a_this (a_upd t (set_priority p) a)) with (a_this a). simpl. rewrite lock_alter by done. apply (i_pending _ _ I).
Qed.

Lemma setpriority_ok s a t l p : k_ok idle s a -> t ∈ a_lists a l -> t <> idle -> SCHED_PRIORITY_MIN <= p <= SCHED_PRIORITY_MAX ->
  exists s', sched_setpriority t p s = Some (OK, s') /\ k_ok idle s' (a_setpriority l t p a) /\ g_pidhash s' = g_pidhash s.
Proof.
  intros K Ht Hi Hp. pose proof K as [R I C]. destruct (r_alloc _ _ _ R _ _ Ht) as (H0 & _ & [c Hc]).
  pose proof (r_state _ _ _ R _ _ _ Ht ltac:(set_solver) Hc) as Est. unfold sched_setpriority. rewrite decide_False by lia. rewrite Hc. cbn [mbind option_bind].
  rewrite Est. destruct (decide (l = g_readytorun)) as [->|Hl].
  - cbn [list_state]. unfold is_first. fold (a_this a). destruct (bool_decide (a_this a = t)) eqn:E.
    + apply bool_decide_eq_true in E. destruct (running_setpriority_ok s a t p K (eq_sym E) Hi Hp) as (s' & -> & K' & P). simpl. eauto.
    + apply bool_decide_eq_false in E. destruct (readytorun_setpriority_ok s a t p K Ht (not_eq_sym E) Hi Hp) as (s' & -> & K' & P). simpl. eauto.
  - destruct (blocked_setpriority_ok s a t l p K Ht Hl Hp) as (s' & E & K' & P). destruct l; try done; simpl; rewrite E; simpl; eauto.
Qed.

Definition a_yield (a : asched) : asched := a_setpriority g_readytorun (a_this a) (prio (a_tasks a) (a_this a)) a.

Lemma yield_ok s a : k_ok idle s a -> a_this a <> idle ->
  exists s', sched_yield s = Some (OK, s') /\ k_ok idle s' (a_yield a) /\ g_pidhash s' = g_pidhash s.
Proof.
  intros K Hi. pose proof K as [R [I _] _]. unfold sched_yield. rewrite (r_this _ _ _ R). destruct (this_known s a R I) as (c & Hc & Ha).
  rewrite Hc. cbn [mbind option_bind]. unfold a_yield. rewrite (prio_some _ _ _ Ha). cbn [sched_priority info set_state].
  pose proof (this_in a (inv_ready a I)) as Hin. apply setpriority_ok; [done..|].
  pose proof (i_prio _ _ I _ _ Hin Hi) as Hp. by rewrite (prio_some _ _ _ Ha) in Hp.
Qed.

(** ** Time slices *)

(** A tick of the running task: when its slice is over and pre-emption is enabled, it
    gets a new slice and goes behind the tasks of its priority. *)
Definition a_tick (a : asched) : asched :=
  let t := a_this a in
  match a_tasks a !! t with
  | Some c =>
    if is_rr c then
      let n := Z.max 0 (timeslice c - 1) in
      if decide (n = 0 /\ lockcount c = 0) then
        let a1 := a_upd t (set_timeslice RR_TICKS) a in
        match a_lists a g_readytorun with
        | _ :: x :: _ => if decide (prio (a_tasks a) t <= prio (a_tasks a) x) then a_reprio t (prio (a_tasks a) t) a1 else a1
        | _ => a1
        end
      else a_upd t (set_timeslice n) a
    else a
  | None => a
  end.

Lemma slice_twice t n n' a : a_eq (a_upd t (set_timeslice n) (a_upd t (set_timeslice n') a)) (a_upd t (set_timeslice n) a).
Proof.
  split; [done|]. simpl. apply map_eq. intros x. destruct (decide (x = t)) as [->|].
  - rewrite !lookup_alter_eq. by destruct (a_tasks a !! t).
  - by rewrite !lookup_alter_ne by congruence.
Qed.

Lemma slice_ok s a n : k_ok idle s a -> 0 <= n <= RR_TICKS ->
  exists m, upd_tcb (a_this a) (set_timeslice n) s = Some (with_tcbs m s) /\ k_ok idle (with_tcbs m s) (a_upd (a_this a) (set_timeslice n) a).
Proof.
  intros [R [I Hp] C] Hn. destruct (this_known s a R I) as (c & Hc & Ha).
  destruct (upd_ok [] s a (a_this a) (set_timeslice n) R) as (m & E & R'); [eauto|]. exists m. split; [done|]. split; [done| |done]. split.
  - apply inv0_upd; [done|done|]. intros c' Hc'. destruct (i_fields _ _ I _ _ Hc'). by split.
  - change (a_this (a_upd (a_this a) (set_timeslice n) a)) with (a_this a). simpl. by rewrite lock_alter.
Qed.

Lemma tick_ok s a : k_ok idle s a -> exists s', sched_process_scheduler s = Some s' /\ k_ok idle s' (a_tick a) /\ g_pidhash s' = g_pidhash s.
Proof.
  intros K. pose proof K as [R [I Hp] C]. destruct (this_known s a R I) as (c & Hc & Ha). destruct (i_fields _ _ I _ _ Ha) as [Hf1 Hf2]. simpl in Hf1, Hf2.
  unfold sched_process_scheduler, a_tick. rewrite (r_this _ _ _ R), Hc, Ha. cbn [mbind option_bind]. change (is_rr (info c)) with (is_rr c).
  destruct (is_rr c); [|eauto]. unfold sched_roundrobin_process. rewrite Hc. cbn [mbind option_bind timeslice lockcount info set_state].
  set (t := a_this a) in *. set (n := Z.max 0 (timeslice c - 1)). assert (Hn : 0 <= n <= RR_TICKS) by lia. change RR_TICKS with 20 in Hf2.
  assert (Ed : s32 (timeslice c - s32 (if decide (u32 (timeslice c) < 1) then u32 (timeslice c) else 1)) = n).
  { rewrite (u32_id (timeslice c)) by lia. destruct (decide _); rewrite !s32_id; unfold n; try rewrite s32_id; lia. }
  rewrite Ed. destruct (slice_ok s a n K Hn) as (m & E1 & K1). fold t in E1, K1. rewrite E1. cbn [mbind option_bind].
  rewrite (upd_tcb_some _ _ _ c Hc) in E1. injection E1 as <-. cbn [tcbs with_tcbs]. rewrite lookup_insert_eq. cbn [mbind option_bind timeslice lockcount set_timeslice].
  set (s1 := with_tcbs _ s) in *. destruct (decide (n <= 0 /\ ~ 0 < lockcount c)) as [Hd|Hd].
  - rewrite (decide_True (P := n = 0 /\ lockcount c = 0)) by lia. destruct (slice_ok s1 _ RR_TICKS K1) as (m2 & E2 & K2); [by unfold RR_TICKS|].
    change (a_this (a_upd t (set_timeslice n) a)) with t in E2, K2. rewrite slice_twice in K2. rewrite E2. cbn [mbind option_bind].
    set (s2 := with_tcbs m2 s1) in *. set (a1 := a_upd t (set_timeslice RR_TICKS) a) in *. change (tcb_links s2) with (tcb_links s).
    destruct (this_cons a (inv_ready a I)) as [k El]. fold t in El. rewrite El. destruct (r_q _ _ _ R g_readytorun) as (_ & _ & Hs & _).
    rewrite El in Hs. destruct Hs as (_ & Hl & Hs). rewrite Hl. cbn [mbind option_bind flink]. destruct k as [|x k]; simpl fst_of.
    + rewrite decide_False by (intros Hx; by apply Hx). eauto.
    + destruct Hs as (Hx0 & _). rewrite decide_True by done. pose proof (k_rep _ _ _ K2) as R2.
      assert (Hx : x ∈ a_lists a1 g_readytorun) by (simpl; rewrite El; set_solver). destruct (r_alloc _ _ _ R2 _ _ Hx) as (_ & _ & [cx Hcx]).
      rewrite Hcx. cbn [mbind option_bind sched_priority set_timeslice].
      assert (Epx : prio (a_tasks a) x = sched_priority cx). { rewrite <- (prio_some _ _ _ Hcx), <- (r_prio _ _ _ R2). simpl. by rewrite prio_alter. }
      rewrite Epx, (prio_some _ _ _ Ha). cbn [sched_priority info set_state]. destruct (decide (sched_priority c <= sched_priority cx)) as [Hle|]; [|eauto].
      assert (Ht : t ∈ a_lists a1 g_readytorun) by (simpl; rewrite El; set_solver).
      assert (Hti : t <> idle). { intros E. pose proof (i_low _ _ I) as Hlow. pose proof (r_nodup _ _ _ R g_readytorun) as Hnd. destruct (i_idle _ _ I) as [r Er].
        rewrite El in Er. destruct r as [|y r]; [by destruct k|]. injection Er as -> Er. rewrite El, E in Hnd. apply NoDup_cons in Hnd as [Hnd _]. rewrite Er in Hnd. set_solver. }
      assert (Hpp : SCHED_PRIORITY_MIN <= sched_priority c <= SCHED_PRIORITY_MAX).
      { pose proof (i_prio _ _ I g_readytorun t) as Hpr. rewrite (prio_some _ _ _ Ha) in Hpr. apply Hpr; [rewrite El; set_solver|done]. }
      destruct (reprio_ok s2 a1 t (sched_priority c) K2 Ht Hti Hpp) as (s3 & E3 & K3 & P3).
      * intros _. rewrite (next_drop s2 a1 t (x :: k) R2 El). simpl. rewrite prio_alter by done. by rewrite Epx.
      * rewrite E3. cbn [mbind option_bind]. eauto.
  - rewrite (decide_False (P := n = 0 /\ lockcount c = 0)) by lia. cbn [mbind option_bind]. eauto.
Qed.
End Inv.
