(* ===== verification/Sem.v ===== *)
(** * Semaphores (src/nuttx/sched/semaphore)

    The counting semaphores of the kernel on the task lists of [Sched].  A count below
    zero says how many tasks wait: they are in the list of all the tasks that wait for
    any semaphore, in the order of their priorities, and [waitsem] says for which.  The
    build has no priority inheritance, no cancellation points and no SMP.

    A task that blocks in [sem_wait] leaves the processor inside the call; the rest of
    the call, [sem_wait_return], runs when the task runs again. *)

From Stdlib Require Import Sorting.Sorted.
From S2P Require Import Prelude Queue Sched SchedInv.

(** ** Data *)

Definition SEM_VALUE_MAX : Z := 32767.

(** The scheduler and the counts ([semcount], 16 bits) of the semaphores. *)
Record kern := mkKern { ks : sched; sems : gmap Z Z }.
Definition with_sched (s : sched) (k : kern) : kern := mkKern s (sems k).
Definition with_sems (m : gmap Z Z) (k : kern) : kern := mkKern (ks k) m.

(** [sem->semcount = n] on an existing semaphore. *)
Definition upd_sem (sem n : Z) (k : kern) : option kern := _ ← sems k !! sem; Some (with_sems (<[sem := n]> (sems k)) k).

(** A call returns a value or has blocked. *)
Inductive result := Returned (ret : Z) | Blocked.

(** [set_errno] and the result of a failing call. *)
Definition fails (e : Z) (k : kern) : option (result * kern) :=
  s ← set_errno e (ks k); Some (Returned ERROR, with_sched s k).

(** ** Operations *)

Definition sem_init (sem value : Z) (k : kern) : option (result * kern) :=
  if decide (sem <> 0 /\ value <= SEM_VALUE_MAX) then
    k ← upd_sem sem (s16 value) k; Some (Returned OK, k)
  else fails EINVAL k.

Definition sem_wait (sem : Z) (k : kern) : option (result * kern) :=
  let rtcb := this_task (ks k) in
  if decide (sem <> 0) then
    n ← sems k !! sem;
    if decide (0 < n) then
      k ← upd_sem sem (s16 (n - 1)) k;
      s ← upd_tcb rtcb (set_waitsem 0) (ks k);
      Some (Returned OK, with_sched s k)
    else
      c ← tcbs (ks k) !! rtcb;
      if decide (waitsem c <> 0) then None
      else
        k ← upd_sem sem (s16 (n - 1)) k;
        s ← upd_tcb rtcb (set_waitsem sem) (ks k);
        s ← set_errno 0 s;
        s ← up_block_task rtcb TSTATE_WAIT_SEM s;
        Some (Blocked, with_sched s k)
  else fails EINVAL k.

(** The end of [sem_wait] for a task that had blocked. *)
Definition sem_wait_return (rtcb : Z) (k : kern) : option Z :=
  c ← tcbs (ks k) !! rtcb;
  Some (if decide (pterrno c <> EINTR /\ pterrno c <> ETIMEDOUT) then OK else ERROR).

Definition sem_trywait (sem : Z) (k : kern) : option (result * kern) :=
  let rtcb := this_task (ks k) in
  if decide (sem <> 0) then
    n ← sems k !! sem;
    if decide (0 < n) then
      k ← upd_sem sem (s16 (n - 1)) k;
      s ← upd_tcb rtcb (set_waitsem 0) (ks k);
      Some (Returned OK, with_sched s k)
    else fails EAGAIN k
  else fails EINVAL k.

(** [for (stcb = head; stcb && stcb->waitsem != sem; stcb = stcb->flink);] *)
Fixpoint find_waiter (fuel : nat) (sem stcb : Z) (s : sched) : option Z :=
  match fuel with
  | O => None
  | S fuel' =>
    if decide (stcb = 0) then Some 0
    else
      c ← tcbs s !! stcb;
      if decide (waitsem c <> sem) then e ← tcb_links s !! stcb; find_waiter fuel' sem (flink e) s else Some stcb
  end.

Definition sem_post (sem : Z) (k : kern) : option (result * kern) :=
  if decide (sem <> 0) then
    n ← sems k !! sem;
    if decide (SEM_VALUE_MAX <= n) then None
    else
      let n := s16 (n + 1) in
      k ← upd_sem sem n k;
      s ← (if decide (n <= 0) then
             stcb ← find_waiter (S (size (tcb_links (ks k)))) sem (dq_head (queues (ks k) g_waitingforsemaphore)) (ks k);
             if decide (stcb <> 0) then s ← upd_tcb stcb (set_waitsem 0) (ks k); up_unblock_task stcb s
             else Some (ks k)
           else Some (ks k));
      Some (Returned OK, with_sched s k)
  else fails EINVAL k.

Definition sem_waitirq (wtcb errcode : Z) (k : kern) : option kern :=
  c ← tcbs (ks k) !! wtcb;
  if decide (task_state c = TSTATE_WAIT_SEM) then
    let sem := waitsem c in
    n ← sems k !! sem;
    k ← upd_sem sem (s16 (n + 1)) k;
    s ← upd_tcb wtcb (set_waitsem 0) (ks k);
    s ← upd_tcb wtcb (set_pterrno errcode) s;
    s ← up_unblock_task wtcb s;
    Some (with_sched s k)
  else Some k.

Definition sem_timeout (p : Z) (k : kern) : option kern :=
  wtcb ← sched_gettcb p (ks k);
  if decide (wtcb = 0) then Some k
  else
    c ← tcbs (ks k) !! wtcb;
    if decide (task_state c = TSTATE_WAIT_SEM) then sem_waitirq wtcb ETIMEDOUT k else Some k.

(** [while (sem->semcount < 0 && count > 0) { sem_post(sem); count--; }] *)
Fixpoint reset_loop (fuel : nat) (sem count : Z) (k : kern) : option (Z * kern) :=
  match fuel with
  | O => None
  | S fuel' =>
    n ← sems k !! sem;
    if decide (n < 0 /\ 0 < count) then '(_, k) ← sem_post sem k; reset_loop fuel' sem (s16 (count - 1)) k
    else Some (count, k)
  end.

Definition sem_reset (sem count : Z) (k : kern) : option (result * kern) :=
  s ← sched_lock false (ks k);
  '(count, k) ← reset_loop (S (Z.to_nat count)) sem count (with_sched s k);
  n ← sems k !! sem;
  k ← (if decide (0 <= n) then upd_sem sem count k else Some k);
  s ← sched_unlock false (ks k);
  Some (Returned OK, with_sched s k).

Definition sem_destroy (sem : Z) (k : kern) : option (result * kern) :=
  if decide (sem <> 0) then
    n ← sems k !! sem;
    k ← (if decide (0 <= n) then upd_sem sem 1 k else Some k);
    Some (Returned OK, k)
  else fails EINVAL k.

Definition sem_recover (tcb : Z) (k : kern) : option kern :=
  c ← tcbs (ks k) !! tcb;
  if decide (task_state c = TSTATE_WAIT_SEM) then
    let sem := waitsem c in
    n ← sems k !! sem;
    k ← upd_sem sem (s16 (n + 1)) k;
    s ← upd_tcb tcb (set_waitsem 0) (ks k);
    Some (with_sched s k)
  else Some k.

(** ** The specification *)

Definition waitsem_of (m : gmap Z tcb_s) (t : Z) : Z := match m !! t with Some c => waitsem c | None => 0 end.

Definition errno_of (m : gmap Z tcb_s) (t : Z) : Z := match m !! t with Some c => pterrno c | None => 0 end.

(** The tasks that wait for a semaphore: by priority, and first come first served. *)
Definition waiters (sem : Z) (a : asched) : list Z :=
  filter (fun t => waitsem_of (a_tasks a) t = sem) (a_lists a g_waitingforsemaphore).

Record sem_inv (a : asched) (m : gmap Z Z) : Prop := {
  s_count sem n : m !! sem = Some n -> Z.of_nat (length (waiters sem a)) = Z.max 0 (- n);
  s_range sem n : m !! sem = Some n -> n <= SEM_VALUE_MAX;
  s_waits t : t ∈ a_lists a g_waitingforsemaphore -> is_Some (m !! waitsem_of (a_tasks a) t);
  s_free l t : t ∈ a_lists a l -> l <> g_waitingforsemaphore -> waitsem_of (a_tasks a) t = 0;
  s_errno t : t ∈ a_lists a g_waitingforsemaphore -> errno_of (a_tasks a) t = 0;
  s_null : m !! 0 = None;
  s_few : Z.of_nat (size (a_tasks a)) <= 32767
}.

Record sem_ok (idle : Z) (k : kern) (a : asched) : Prop := {
  o_kern : k_ok idle (ks k) a;
  o_sems : sem_inv a (sems k)
}.

(** The semaphore is taken, or the running task blocks. *)
Definition a_wait (sem n : Z) (a : asched) : asched :=
  if decide (0 < n) then a_upd (a_this a) (set_waitsem 0) a
  else a_block TSTATE_WAIT_SEM (a_upd (a_this a) (set_pterrno 0) (a_upd (a_this a) (set_waitsem sem) a)).
(** The first waiting task gets what is posted. *)
Definition a_post (sem : Z) (a : asched) : asched :=
  match waiters sem a with w :: _ => a_unblock w (a_upd w (set_waitsem 0) a) | [] => a end.
(** A wait is given up. *)
Definition a_cancel (t e : Z) (a : asched) : asched := a_unblock t (a_upd t (set_pterrno e) (a_upd t (set_waitsem 0) a)).

(** ** The invariant of the counts *)

Lemma place_perm m t l : place m t l ≡ₚ t :: l.
Proof. unfold place. rewrite <- (split_prio m (prio m t) l) at 3. by rewrite Permutation_middle. Qed.

Lemma place_all_perm m P l : place_all m P l ≡ₚ P ++ l.
Proof. revert l; induction P as [|p P IH]; intros l; simpl; [done|]. rewrite IH, place_perm. by rewrite Permutation_middle. Qed.

Lemma waitsem_alter m t f x : (forall c, waitsem (f c) = waitsem c) -> waitsem_of (alter f t m) x = waitsem_of m x.
Proof.
  intros H. unfold waitsem_of. destruct (decide (x = t)) as [->|]; [rewrite lookup_alter_eq|by rewrite lookup_alter_ne by congruence].
  destruct (m !! t); simpl; [apply H|done].
Qed.

Lemma errno_alter m t f x : x <> t \/ (forall c, pterrno (f c) = pterrno c) -> errno_of (alter f t m) x = errno_of m x.
Proof.
  intros H. unfold errno_of. destruct (decide (x = t)) as [->|]; [rewrite lookup_alter_eq|by rewrite lookup_alter_ne by congruence].
  destruct H as [|H]; [done|]. destruct (m !! t); simpl; [apply H|done].
Qed.

(** [a'] has the waiting tasks of [a], and its other tasks are others of [a] or in [X]. *)
Record keeps (X : list Z) (a a' : asched) : Prop := {
  kp_sem x : waitsem_of (a_tasks a') x = waitsem_of (a_tasks a) x;
  kp_list : a_lists a' g_waitingforsemaphore ≡ₚ a_lists a g_waitingforsemaphore;
  kp_errno x : x ∈ a_lists a g_waitingforsemaphore -> errno_of (a_tasks a') x = errno_of (a_tasks a) x;
  kp_other l x : x ∈ a_lists a' l -> l <> g_waitingforsemaphore -> x ∈ X \/ exists l', l' <> g_waitingforsemaphore /\ x ∈ a_lists a l';
  kp_size : size (a_tasks a') = size (a_tasks a)
}.

#[export] Instance keeps_refl X : Reflexive (keeps X).
Proof. intros a. split; eauto. Qed.
#[export] Instance keeps_trans X : Transitive (keeps X).
Proof.
  intros a b c H1 H2. split.
  - intros x. by rewrite (kp_sem _ _ _ H2), (kp_sem _ _ _ H1).
  - by rewrite (kp_list _ _ _ H2), (kp_list _ _ _ H1).
  - intros x Hx. rewrite (kp_errno _ _ _ H2) by (by rewrite (kp_list _ _ _ H1)). by apply (kp_errno _ _ _ H1).
  - intros l x Hx Hl. destruct (kp_other _ _ _ H2 l x Hx Hl) as [?|(l' & Hl' & Hx')]; [by left|]. by apply (kp_other _ _ _ H1 l').
  - by rewrite (kp_size _ _ _ H2), (kp_size _ _ _ H1).
Qed.

Lemma keeps_mono X Y a a' : keeps X a a' -> X ⊆ Y -> keeps Y a a'.
Proof. intros [] HX. split; try done. intros l x Hx Hl. destruct (kp_other0 l x Hx Hl); [left; set_solver|by right]. Qed.

Lemma waiters_len sem a a' : (forall x, waitsem_of (a_tasks a') x = waitsem_of (a_tasks a) x) ->
  a_lists a' g_waitingforsemaphore ≡ₚ a_lists a g_waitingforsemaphore -> length (waiters sem a') = length (waiters sem a).
Proof.
  intros Hs Hl. unfold waiters. rewrite Hl. erewrite list_filter_iff; [done|]. intros x. simpl. by rewrite Hs.
Qed.

Lemma keeps_inv X a a' m : keeps X a a' -> (forall x, x ∈ X -> waitsem_of (a_tasks a) x = 0) -> sem_inv a m -> sem_inv a' m.
Proof.
  intros Hk HX I. split; try apply I.
  - intros sem n Hn. rewrite (waiters_len sem a a'); [by apply (s_count _ _ I)|apply Hk..].
  - intros t Ht. rewrite (kp_sem _ _ _ Hk). apply (s_waits _ _ I). by rewrite <- (kp_list _ _ _ Hk).
  - intros l t Ht Hl. rewrite (kp_sem _ _ _ Hk). destruct (kp_other _ _ _ Hk l t Ht Hl) as [?|(l' & ? & ?)]; [auto|by eapply (s_free _ _ I)].
  - intros t Ht. rewrite (kp_list _ _ _ Hk) in Ht. rewrite (kp_errno _ _ _ Hk) by done. by apply (s_errno _ _ I).
  - rewrite (kp_size _ _ _ Hk). apply (s_few _ _ I).
Qed.

Lemma size_alter (m : gmap Z tcb_s) f t : size (alter f t m) = size m.
Proof. by rewrite <- !(size_dom (D := gset Z)), dom_alter_L. Qed.

Lemma keeps_upd X t f a : (forall c, waitsem (f c) = waitsem c) -> t ∉ a_lists a g_waitingforsemaphore \/ (forall c, pterrno (f c) = pterrno c) ->
  keeps X a (a_upd t f a).
Proof.
  intros H He. split; simpl; [intros x; by apply waitsem_alter|done| |eauto|apply size_alter].
  intros x Hx. apply errno_alter. destruct He; [left|by right]. by intros ->.
Qed.

Lemma keeps_fields X t f a : (forall c, waitsem (f c) = waitsem c /\ pterrno (f c) = pterrno c) -> keeps X a (a_upd t f a).
Proof. intros H. apply keeps_upd; [|right]; apply H. Qed.

Lemma keeps_switch X t a : keeps X a (a_switch t a).
Proof. unfold a_switch. destruct (decide _); [done|]. by apply keeps_fields. Qed.

Lemma keeps_drop X t a : t ∉ a_lists a g_waitingforsemaphore -> keeps X a (a_drop t a).
Proof.
  intros H. split; simpl; [done|by rewrite remove_node_notin|done| |done]. intros l x [_ Hx]%list_elem_of_filter Hl. eauto.
Qed.

Lemma keeps_with X l k a : l <> g_waitingforsemaphore -> (forall x, x ∈ k -> x ∈ X \/ exists l', l' <> g_waitingforsemaphore /\ x ∈ a_lists a l') ->
  keeps X a (a_with l k a).
Proof.
  intros Hl Hk. split; simpl; [done|unfold fupd; by rewrite decide_False by congruence|done| |done].
  intros l' x. unfold fupd. destruct (decide (l' = l)) as [->|]; [auto|]. eauto.
Qed.

Lemma keeps_add X t a : t ∈ X -> keeps X a (a_add t a).
Proof.
  intros Ht. unfold a_add. destruct (decide _); (apply keeps_with; [done|]); intros x [-> | Hx]%place_elem; [by left|right|by left|right].
  - by exists g_pendingtasks.
  - by exists g_readytorun.
Qed.

Lemma keeps_merge X a : keeps X a (a_merge a).
Proof.
  unfold a_merge. etrans; [|apply keeps_with; [done|set_solver]]. apply keeps_with; [done|].
  intros x [Hx|Hx]%place_all_elem; right; [by exists g_pendingtasks|by exists g_readytorun].
Qed.

Lemma keeps_release X a : keeps X a (a_release a).
Proof. unfold a_release. etrans; [apply keeps_merge|apply keeps_switch]. Qed.

Lemma keeps_reprio t p a : t ∉ a_lists a g_waitingforsemaphore -> keeps [t] a (a_reprio t p a).
Proof.
  intros Ht. unfold a_reprio. assert (H : keeps [t] a (a_add t (a_upd t (set_priority p) (a_drop t a)))).
  { etrans; [by apply keeps_drop|]. etrans; [by apply (keeps_fields _ t (set_priority p))|]. apply keeps_add. by left. }
  destruct (decide _); [done|]. etrans; [exact H|]. etrans; [apply keeps_merge|apply keeps_switch].
Qed.

Lemma keeps_lock X a : keeps X a (a_lock a).
Proof. by apply keeps_fields. Qed.

Lemma keeps_unlock X a : keeps X a (a_unlock a).
Proof.
  unfold a_unlock. destruct (decide _); [|by apply keeps_fields].
  etrans; [apply (keeps_fields _ (a_this a) (set_lockcount (Z.max 0 (lock_of (a_tasks a) (a_this a) - 1)))); done|]. apply keeps_release.
Qed.

Lemma keeps_tick a : a_this a ∉ a_lists a g_waitingforsemaphore -> keeps [a_this a] a (a_tick a).
Proof.
  intros Ht. unfold a_tick. destruct (a_tasks a !! a_this a) as [c|]; [|done]. destruct (is_rr c); [|done].
  destruct (decide _); [|by apply keeps_fields]. assert (H : keeps [a_this a] a (a_upd (a_this a) (set_timeslice RR_TICKS) a)) by (by apply keeps_fields).
  destruct (a_lists a g_readytorun) as [|? [|x k]]; [done..|]. destruct (decide _); [|done]. etrans; [exact H|]. by apply keeps_reprio.
Qed.

Lemma keeps_setpriority l t p a : NoDup (a_lists a g_waitingforsemaphore) -> t ∈ a_lists a l -> (l <> g_waitingforsemaphore -> t ∉ a_lists a g_waitingforsemaphore) ->
  keeps [t] a (a_setpriority l t p a).
Proof.
  intros Hnd Ht Hl. assert (Hu : forall b, keeps [t] b (a_upd t (set_priority p) b)) by (intros b; by apply keeps_fields).
  assert (H : forall l', l' <> g_waitingforsemaphore -> l = l' -> keeps [t] a (a_with l' (place (a_tasks (a_upd t (set_priority p) (a_drop t a))) t (a_lists (a_drop t a) l')) (a_upd t (set_priority p) (a_drop t a)))).
  { intros l' Hl' ->. etrans; [by apply keeps_drop; auto|]. etrans; [apply Hu|]. apply keeps_with; [done|].
    intros x [-> | Hx]%place_elem; [left; by left|right; exists l'; done]. }
  unfold a_setpriority. destruct l; simpl; try apply Hu; try (by apply H).
  - destruct (decide _); [apply Hu|]. apply keeps_reprio. by apply Hl.
  - destruct (split_at t _ Hnd Ht) as (k1 & k2 & Ek & H1 & H2). split; simpl; [intros x; by apply waitsem_alter| |intros x _; apply errno_alter; by right| |apply size_alter].
    + unfold fupd. rewrite decide_True by done. rewrite place_perm, Ek, remove_node_split by done. apply Permutation_middle.
    + intros l x. unfold fupd. destruct (decide _) as [->|]; [done|]. intros [_ Hx]%list_elem_of_filter ?. eauto.
Qed.

(** A task starts and stops to wait. *)
Lemma filter_agree (P Q : Z -> Prop) `{!forall x, Decision (P x), !forall x, Decision (Q x)} (l : list Z) :
  (forall x, x ∈ l -> P x <-> Q x) -> filter P l = filter Q l.
Proof.
  induction l as [|x l IH]; intros Hl; [done|]. rewrite !filter_cons, IH by (intros y Hy; apply Hl; by right).
  pose proof (Hl x ltac:(by left)). destruct (decide (P x)), (decide (Q x)); tauto.
Qed.

Lemma remove_perm t l : NoDup l -> t ∈ l -> l ≡ₚ t :: remove_node t l.
Proof. intros Hn Ht. destruct (split_at t l Hn Ht) as (k1 & k2 & -> & H1 & H2). rewrite remove_node_split by done. by rewrite Permutation_middle. Qed.

Lemma waitsem_other m t f x : x <> t -> waitsem_of (alter f t m) x = waitsem_of m x.
Proof. intros H. unfold waitsem_of. by rewrite lookup_alter_ne by congruence. Qed.
Lemma waitsem_self m t f c : m !! t = Some c -> waitsem_of (alter f t m) t = waitsem (f c).
Proof. intros H. unfold waitsem_of. by rewrite lookup_alter_eq, H. Qed.

Lemma inv_enter a m t f sem n : sem_inv a m -> t ∉ a_lists a g_waitingforsemaphore -> is_Some (a_tasks a !! t) ->
  (forall c, waitsem (f c) = sem /\ pterrno (f c) = 0) -> m !! sem = Some n -> n <= 0 ->
  sem_inv (a_queue t TSTATE_WAIT_SEM (a_drop t (a_upd t f a))) (<[sem := n - 1]> m).
Proof.
  intros I Ht [c Hc] Hf Hn Hle. assert (Hz : sem <> 0). { intros ->. by rewrite (s_null _ _ I) in Hn. }
  assert (Es : waitsem_of (alter f t (a_tasks a)) t = sem) by (rewrite (waitsem_self _ _ _ c) by done; apply Hf).
  assert (HT : forall x, x ∈ a_lists a g_waitingforsemaphore -> x <> t) by (intros x Hx ->; done).
  assert (Hw : forall s', length (waiters s' (a_queue t TSTATE_WAIT_SEM (a_drop t (a_upd t f a)))) = ((if decide (sem = s') then 1 else 0) + length (waiters s' a))%nat).
  { intros s'. unfold waiters. cbn [a_queue TLIST_HEAD g_tasklisttable fst a_lists a_with a_drop a_upd a_tasks TLIST_ISPRIORITIZED snd]. unfold fupd.
    rewrite decide_True by done. rewrite place_perm, remove_node_notin, filter_cons by done. rewrite Es.
    rewrite (filter_agree _ (fun x => waitsem_of (a_tasks a) x = s') (a_lists a g_waitingforsemaphore)).
    - by destruct (decide (sem = s')).
    - intros x Hx. by rewrite waitsem_other by auto. }
  split.
  - intros s' n' Hn'. rewrite Hw. destruct (decide (sem = s')) as [<-|Hne].
    + rewrite lookup_insert_eq in Hn'. injection Hn' as <-. pose proof (s_count _ _ I _ _ Hn). lia.
    + rewrite lookup_insert_ne in Hn' by done. simpl. by apply (s_count _ _ I).
  - intros s' n' Hn'. destruct (decide (sem = s')) as [<-|Hne].
    + rewrite lookup_insert_eq in Hn'. injection Hn' as <-. pose proof (s_range _ _ I _ _ Hn). lia.
    + rewrite lookup_insert_ne in Hn' by done. by eapply (s_range _ _ I).
  - cbn [a_queue TLIST_HEAD g_tasklisttable fst a_lists a_with a_drop a_upd a_tasks TLIST_ISPRIORITIZED snd]. unfold fupd. rewrite decide_True by done.
    rewrite remove_node_notin by done. intros x [-> | Hx]%place_elem; [rewrite Es, lookup_insert_eq; eauto|]. rewrite waitsem_other by auto.
    destruct (decide (sem = waitsem_of (a_tasks a) x)) as [<-|]; [rewrite lookup_insert_eq; eauto|]. rewrite lookup_insert_ne by done. by apply (s_waits _ _ I).
  - intros l x Hx Hl. cbn [a_queue TLIST_HEAD g_tasklisttable fst a_lists a_with a_drop a_upd a_tasks] in *. unfold fupd in Hx. rewrite decide_False in Hx by done.
    apply list_elem_of_filter in Hx as [Hxt Hx]. rewrite waitsem_other by done. by eapply (s_free _ _ I).
  - cbn [a_queue TLIST_HEAD g_tasklisttable fst a_lists a_with a_drop a_upd a_tasks TLIST_ISPRIORITIZED snd]. unfold fupd. rewrite decide_True by done.
    rewrite remove_node_notin by done. intros x [-> | Hx]%place_elem; [unfold errno_of; rewrite lookup_alter_eq, Hc; apply Hf|].
    rewrite errno_alter by (left; auto). by apply (s_errno _ _ I).
  - rewrite lookup_insert_ne by done. apply (s_null _ _ I).
  - simpl. rewrite size_alter. apply (s_few _ _ I).
Qed.

Lemma inv_leave a m w f n (sem := waitsem_of (a_tasks a) w) : sem_inv a m -> w ∈ a_lists a g_waitingforsemaphore -> NoDup (a_lists a g_waitingforsemaphore) ->
  is_Some (a_tasks a !! w) -> (forall c, waitsem (f c) = 0) -> m !! sem = Some n ->
  n < 0 /\ sem_inv (a_drop w (a_upd w f a)) (<[sem := n + 1]> m).
Proof.
  intros I Hw Hnd [c Hc] Hf Hn. assert (Hz : sem <> 0). { intros E. by rewrite E, (s_null _ _ I) in Hn. }
  assert (Hlen : forall s', length (waiters s' a) = ((if decide (sem = s') then 1 else 0) + length (waiters s' (a_drop w (a_upd w f a))))%nat).
  { intros s'. unfold waiters. cbn [a_lists a_drop a_upd a_tasks]. rewrite (remove_perm w _ Hnd Hw) at 1. rewrite filter_cons. fold sem.
    rewrite (filter_agree _ (fun x => waitsem_of (alter f w (a_tasks a)) x = s') (remove_node w (a_lists a g_waitingforsemaphore))).
    - by destruct (decide (sem = s')).
    - intros x [Hx _]%list_elem_of_filter. by rewrite waitsem_other. }
  split.
  { pose proof (s_count _ _ I _ _ Hn) as H. rewrite Hlen, decide_True in H by done. lia. }
  split.
  - intros s' n' Hn'. specialize (Hlen s'). destruct (decide (sem = s')) as [<-|Hne].
    + rewrite lookup_insert_eq in Hn'. injection Hn' as <-. pose proof (s_count _ _ I _ _ Hn). lia.
    + rewrite lookup_insert_ne in Hn' by done. pose proof (s_count _ _ I _ _ Hn'). simpl in Hlen. lia.
  - intros s' n' Hn'. destruct (decide (sem = s')) as [<-|Hne].
    + rewrite lookup_insert_eq in Hn'. injection Hn' as <-. pose proof (s_count _ _ I _ _ Hn) as H. rewrite Hlen, decide_True in H by done. unfold SEM_VALUE_MAX. lia.
    + rewrite lookup_insert_ne in Hn' by done. by eapply (s_range _ _ I).
  - simpl. intros x [Hx Hin]%list_elem_of_filter. rewrite waitsem_other by done.
    destruct (decide (sem = waitsem_of (a_tasks a) x)) as [<-|]; [rewrite lookup_insert_eq; eauto|]. rewrite lookup_insert_ne by done. by apply (s_waits _ _ I).
  - simpl. intros l x [Hx Hin]%list_elem_of_filter Hl. rewrite waitsem_other by done. by eapply (s_free _ _ I).
  - simpl. intros x [Hx Hin]%list_elem_of_filter. rewrite errno_alter by (by left). by apply (s_errno _ _ I).
  - rewrite lookup_insert_ne by done. apply (s_null _ _ I).
  - simpl. rewrite size_alter. apply (s_few _ _ I).
Qed.

(** Counts at or above zero change freely. *)
Lemma inv_value a m sem n n' : sem_inv a m -> m !! sem = Some n -> 0 <= n -> 0 <= n' <= SEM_VALUE_MAX -> sem_inv a (<[sem := n']> m).
Proof.
  intros I Hn H0 H1. pose proof (s_null _ _ I) as Hz. split; try apply I.
  - intros s' x. destruct (decide (sem = s')) as [<-|]; [rewrite lookup_insert_eq; intros [= <-]; rewrite (s_count _ _ I _ _ Hn); lia|].
    rewrite lookup_insert_ne by done. apply (s_count _ _ I).
  - intros s' x. destruct (decide (sem = s')) as [<-|]; [rewrite lookup_insert_eq; intros [= <-]; lia|]. rewrite lookup_insert_ne by done. apply (s_range _ _ I).
  - intros t Ht. destruct (decide (sem = waitsem_of (a_tasks a) t)) as [<-|]; [rewrite lookup_insert_eq; eauto|]. rewrite lookup_insert_ne by done. by apply (s_waits _ _ I).
  - rewrite lookup_insert_ne; [done|]. intros ->. congruence.
Qed.

Lemma count_low X s a m sem n : rep X s a -> sem_inv a m -> m !! sem = Some n -> -32767 <= n.
Proof.
  intros R I Hn. pose proof (s_count _ _ I _ _ Hn) as Hc. pose proof (s_few _ _ I) as Hf.
  assert (length (waiters sem a) <= size (a_tasks a))%nat; [|lia]. etrans; [apply length_filter|]. apply size_bound; [apply (r_nodup _ _ _ R)|].
  intros p Hp. apply (r_known _ _ _ R). by apply (r_alloc _ _ _ R g_waitingforsemaphore).
Qed.

(** ** The operations *)

Section Ops.
Context (idle : Z).

(** A field that the scheduler does not look at. *)
Lemma k_upd s a t f `{!KeepsState f} : k_ok idle s a -> is_Some (tcbs s !! t) ->
  (forall c, sched_priority (f c) = sched_priority c /\ lockcount (f c) = lockcount c /\ timeslice (f c) = timeslice c) ->
  exists m, upd_tcb t f s = Some (with_tcbs m s) /\ k_ok idle (with_tcbs m s) (a_upd t f a).
Proof.
  intros [R [I Hp] C] Ht Hf. destruct (upd_ok [] s a t f R Ht) as (m & E & R'). exists m. split; [done|]. split; [done| |done]. split.
  - apply inv0_upd; [done|apply Hf|]. intros c Hc. destruct (i_fields _ _ I _ _ Hc). destruct (Hf c) as (_ & -> & ->). done.
  - change (a_this (a_upd t f a)) with (a_this a). simpl. rewrite lock_alter by apply Hf. done.
Qed.

Lemma sem_upd k sem n n' : sems k !! sem = Some n -> upd_sem sem n' k = Some (with_sems (<[sem := n']> (sems k)) k).
Proof. unfold upd_sem. by intros ->. Qed.

Lemma this_free k a : sem_ok idle k a -> a_this a ∈ a_lists a g_readytorun /\ a_this a ∉ a_lists a g_waitingforsemaphore /\
  waitsem_of (a_tasks a) (a_this a) = 0 /\ is_Some (tcbs (ks k) !! a_this a).
Proof.
  intros [[R [I _] _] S]. pose proof (this_in a (inv_ready idle a I)) as Hin. split_and!; [done| |by eapply (s_free _ _ S)|by apply (r_alloc _ _ _ R g_readytorun)].
  intros Hx. by pose proof (r_apart _ _ _ R _ _ _ Hin Hx).
Qed.

Lemma fails_ok k a e : sem_ok idle k a -> exists k', fails e k = Some (Returned ERROR, k') /\
  sem_ok idle k' (a_upd (a_this a) (set_pterrno e) a) /\ sems k' = sems k /\ g_pidhash (ks k') = g_pidhash (ks k).
Proof.
  intros O. destruct (this_free k a O) as (_ & Hw & _ & Hs). destruct O as [K S]. unfold fails, set_errno. rewrite (r_this _ _ _ (k_rep _ _ _ K)).
  destruct (k_upd (ks k) a (a_this a) (set_pterrno e) K Hs) as (m & -> & K'); [done|]. simpl. eexists. split_and!; [done| |done|done].
  split; [done|]. simpl. eapply (keeps_inv []); [apply keeps_upd; [done|by left]|set_solver|done].
Qed.

Lemma count_take_ok k a sem n : sem_ok idle k a -> sems k !! sem = Some n -> 0 < n ->
  exists k', (k1 ← upd_sem sem (s16 (n - 1)) k; s ← upd_tcb (a_this a) (set_waitsem 0) (ks k1); Some (Returned OK, with_sched s k1)) = Some (Returned OK, k') /\
    sem_ok idle k' (a_upd (a_this a) (set_waitsem 0) a) /\ sems k' = <[sem := n - 1]> (sems k) /\ g_pidhash (ks k') = g_pidhash (ks k).
Proof.
  intros O Hn H0. destruct (this_free k a O) as (Hin & Hw & Hz & Hs). destruct O as [K S]. rewrite (sem_upd _ _ n) by done. cbn [mbind option_bind].
  destruct (k_upd (ks k) a (a_this a) (set_waitsem 0) K Hs) as (m & E & K'); [done|]. simpl in *. rewrite E. simpl.
  pose proof (s_range _ _ S _ _ Hn) as Hr. unfold SEM_VALUE_MAX in Hr. rewrite s16_id by lia. eexists. split_and!; [done| |done|done].
  split; [done|]. apply (keeps_inv [] a); [|set_solver|apply (inv_value _ _ _ n); [done..|lia|unfold SEM_VALUE_MAX; lia]].
  split; simpl; [|done|intros x _; apply errno_alter; by right|eauto|apply size_alter]. intros x. destruct (decide (x = a_this a)) as [->|]; [|by apply waitsem_other].
  apply (r_known _ _ _ (k_rep _ _ _ K)) in Hs as [c Hc]. rewrite (waitsem_self _ _ _ c) by done. by rewrite Hz.
Qed.

Lemma sem_wait_ok k a sem n : sem_ok idle k a -> sems k !! sem = Some n -> 0 < n \/ a_this a <> idle ->
  exists k', sem_wait sem k = Some (if decide (0 < n) then Returned OK else Blocked, k') /\ sem_ok idle k' (a_wait sem n a) /\
    sems k' = <[sem := n - 1]> (sems k) /\ g_pidhash (ks k') = g_pidhash (ks k).
Proof.
  intros O Hn Hi. pose proof O as [K S]. assert (Hz : sem <> 0) by (intros ->; by rewrite (s_null _ _ S) in Hn).
  unfold sem_wait, a_wait. rewrite (r_this _ _ _ (k_rep _ _ _ K)). rewrite decide_True by done. rewrite Hn. cbn [mbind option_bind].
  destruct (decide (0 < n)) as [H0|H0]; [by apply count_take_ok|]. destruct Hi as [Hi|Hi]; [lia|].
  destruct (this_free k a O) as (Hin & Hw & Hz0 & Hs). pose proof Hs as [c Hc]. rewrite Hc. cbn [mbind option_bind].
  assert (waitsem c = 0) as Hwc. { unfold waitsem_of in Hz0. by rewrite (r_info _ _ _ (k_rep _ _ _ K) _ _ Hc) in Hz0. }
  rewrite decide_False by (intros Hx; by apply Hx). rewrite (sem_upd _ _ n) by done. cbn [mbind option_bind].
  pose proof (count_low _ _ _ _ _ _ (k_rep _ _ _ K) S Hn) as Hlow. rewrite s16_id by lia.
  destruct (k_upd (ks k) a (a_this a) (set_waitsem sem) K Hs) as (m1 & E1 & K1); [done|]. cbn [ks with_sems]. rewrite E1. cbn [mbind option_bind].
  unfold set_errno. rewrite (r_this _ _ _ (k_rep _ _ _ K1)). change (a_this (a_upd (a_this a) (set_waitsem sem) a)) with (a_this a).
  assert (Hs1 : is_Some (tcbs (with_tcbs m1 (ks k)) !! a_this a)).
  { apply (r_known _ _ _ (k_rep _ _ _ K1)). simpl. rewrite lookup_alter_is_Some. by apply (r_known _ _ _ (k_rep _ _ _ K)). }
  destruct (k_upd _ _ (a_this a) (set_pterrno 0) K1 Hs1) as (m2 & E2 & K2); [done|]. rewrite E2. cbn [mbind option_bind].
  destruct (block_ok idle _ _ TSTATE_WAIT_SEM K2) as (s3 & E3 & K3 & P3); [done|done|].
  change (a_this (a_upd (a_this a) (set_pterrno 0) (a_upd (a_this a) (set_waitsem sem) a))) with (a_this a) in E3. rewrite E3. simpl.
  eexists. split_and!; [done| |done|done]. split; [done|]. simpl. unfold a_block.
  eapply (keeps_inv []); [etrans; [apply keeps_merge|apply keeps_switch]|set_solver|].
  pose proof (inv_enter a (sems k) (a_this a) (fun c => set_pterrno 0 (set_waitsem sem c)) sem n S Hw) as He.
  assert (Ea : alter (fun c => set_pterrno 0 (set_waitsem sem c)) (a_this a) (a_tasks a) = alter (set_pterrno 0) (a_this a) (alter (set_waitsem sem) (a_this a) (a_tasks a))).
  { apply map_eq. intros x. destruct (decide (x = a_this a)) as [->|].
    - rewrite !lookup_alter_eq. by destruct (a_tasks a !! a_this a).
    - by rewrite !lookup_alter_ne by congruence. }
  unfold a_upd in He |- *. simpl in He |- *. rewrite Ea in He. apply He; [by apply (r_known _ _ _ (k_rep _ _ _ K))|done|done|lia].
Qed.

Lemma sem_trywait_ok k a sem n : sem_ok idle k a -> sems k !! sem = Some n ->
  exists k', sem_trywait sem k = Some (Returned (if decide (0 < n) then OK else ERROR), k') /\
    sem_ok idle k' (a_upd (a_this a) (if decide (0 < n) then set_waitsem 0 else set_pterrno EAGAIN) a) /\
    sems k' = (if decide (0 < n) then <[sem := n - 1]> (sems k) else sems k) /\ g_pidhash (ks k') = g_pidhash (ks k).
Proof.
  intros O Hn. pose proof O as [K S]. assert (Hz : sem <> 0) by (intros ->; by rewrite (s_null _ _ S) in Hn).
  unfold sem_trywait. rewrite (r_this _ _ _ (k_rep _ _ _ K)). rewrite decide_True by done. rewrite Hn. cbn [mbind option_bind].
  destruct (decide (0 < n)); [by apply count_take_ok|by apply fails_ok].
Qed.

(** The search for a task that waits for the semaphore. *)
Lemma find_waiter_ok fuel s sem b l : dseg (tcb_links s) b l 0 -> (forall x, x ∈ l -> is_Some (tcbs s !! x)) -> (length l < fuel)%nat ->
  find_waiter fuel sem (fst_of 0 l) s = Some (fst_of 0 (filter (fun t => waitsem_of (tcbs s) t = sem) l)).
Proof.
  revert b l; induction fuel as [|fuel IH]; [lia|]. intros b [|x l] Hs Ha Hf; simpl; [done|].
  destruct Hs as (H0 & Hl & Hs). rewrite decide_False by done. destruct (Ha x) as [c Hc]; [by left|]. rewrite Hc. cbn [mbind option_bind].
  rewrite filter_cons. assert (Ew : waitsem_of (tcbs s) x = waitsem c) by (unfold waitsem_of; by rewrite Hc). rewrite Ew.
  destruct (decide (waitsem c = sem)) as [E|E].
  - rewrite decide_False by (intros Hn; by apply Hn). done.
  - rewrite decide_True by done. rewrite Hl. simpl. apply (IH x); [done|set_solver|simpl in Hf; lia].
Qed.

(** A waiting task is taken out and made ready. *)
Lemma wake_ok k a w f m1 n (sem := waitsem_of (a_tasks a) w) : k_ok idle (with_tcbs m1 (ks k)) (a_upd w f a) -> sem_inv a (sems k) -> rep [] (ks k) a ->
  w ∈ a_lists a g_waitingforsemaphore -> (forall c, waitsem (f c) = 0) -> sems k !! sem = Some n ->
  n < 0 /\ exists s, up_unblock_task w (with_tcbs m1 (ks k)) = Some s /\ g_pidhash s = g_pidhash (ks k) /\
    sem_ok idle (mkKern s (<[sem := n + 1]> (sems k))) (a_unblock w (a_upd w f a)).
Proof.
  intros K S R Hw Hf Hn. assert (Hk : is_Some (a_tasks a !! w)). { apply (r_known _ _ _ R). by apply (r_alloc _ _ _ R g_waitingforsemaphore). }
  destruct (inv_leave a (sems k) w f n S Hw (r_nodup _ _ _ R _) Hk Hf Hn) as [H0 S']. split; [done|].
  destruct (unblock_ok idle _ _ w g_waitingforsemaphore K Hw) as (s & E & K' & P); [done|done|]. exists s. split_and!; [done|done|].
  split; [done|]. simpl. unfold a_unblock. eapply (keeps_inv [w]); [etrans; [apply keeps_add; by left|apply keeps_switch]| |exact S'].
  intros x ->%list_elem_of_singleton. simpl. destruct Hk as [c Hc]. by rewrite (waitsem_self _ _ _ c).
Qed.

Lemma sem_post_ok k a sem n : sem_ok idle k a -> sems k !! sem = Some n -> n < SEM_VALUE_MAX ->
  exists k', sem_post sem k = Some (Returned OK, k') /\ sem_ok idle k' (a_post sem a) /\
    sems k' = <[sem := n + 1]> (sems k) /\ g_pidhash (ks k') = g_pidhash (ks k).
Proof.
  intros O Hn Hmax. pose proof O as [K S]. pose proof (k_rep _ _ _ K) as R. assert (Hz : sem <> 0) by (intros ->; by rewrite (s_null _ _ S) in Hn).
  unfold sem_post. rewrite decide_True by done. rewrite Hn. cbn [mbind option_bind]. rewrite decide_False by lia.
  pose proof (count_low _ _ _ _ _ _ R S Hn) as Hlow. unfold SEM_VALUE_MAX in Hmax. rewrite s16_id by lia. rewrite (sem_upd _ _ n) by done. cbn [mbind option_bind ks with_sems].
  pose proof (s_count _ _ S _ _ Hn) as Hc. unfold a_post. destruct (decide (n + 1 <= 0)) as [Hle|Hgt].
  - pose proof (r_q _ _ _ R g_waitingforsemaphore) as (Eh & _ & Hs & _). pose proof (r_size _ _ _ R g_waitingforsemaphore _ eq_refl) as Hsz.
    rewrite Eh, (find_waiter_ok _ _ sem 0 _ Hs) by (try lia; intros x Hx; by apply (r_alloc _ _ _ R g_waitingforsemaphore)). cbn [mbind option_bind].
    assert (Ew : filter (fun t => waitsem_of (tcbs (ks k)) t = sem) (a_lists a g_waitingforsemaphore) = waiters sem a).
    { unfold waiters. apply filter_agree. intros x _. unfold waitsem_of. rewrite <- (r_tasks _ _ _ R), lookup_fmap. by destruct (tcbs (ks k) !! x). }
    rewrite Ew. destruct (waiters sem a) as [|w ws] eqn:Ews; [simpl in Hc; lia|]. simpl fst_of.
    assert (Hw : w ∈ waiters sem a) by (rewrite Ews; by left). apply list_elem_of_filter in Hw as [Hws Hw].
    destruct (r_alloc _ _ _ R _ _ Hw) as (Hw0 & _ & Hws'). rewrite decide_True by done.
    destruct (k_upd (ks k) a w (set_waitsem 0) K Hws') as (m1 & E1 & K1); [done|]. rewrite E1. cbn [mbind option_bind]. rewrite <- Hws in Hn.
    destruct (wake_ok k a w _ m1 n K1 S R Hw (fun _ => eq_refl) Hn) as (_ & s & E2 & P2 & O2). rewrite E2. cbn [mbind option_bind].
    rewrite Hws in O2. eexists. split_and!; [done|exact O2|done|done].
  - assert (waiters sem a = []) as ->. { destruct (waiters sem a); [done|]. simpl in Hc. lia. }
    cbn [mbind option_bind]. eexists. split_and!; [done| |done|done]. split; [done|]. simpl. apply (inv_value _ _ _ n); [done|done|lia|unfold SEM_VALUE_MAX; lia].
Qed.
End Ops.

Section More.
Context (idle : Z).

Lemma upd_compose t f g a : a_eq (a_upd t g (a_upd t f a)) (a_upd t (fun c => g (f c)) a).
Proof. split; [done|]. simpl. apply alter_alter_eq. Qed.

#[export] Instance a_unblock_proper t : Proper (a_eq ==> a_eq) (a_unblock t).
Proof.
  intros a a' E. unfold a_unblock. rewrite (a_this_proper _ _ E). assert (Ed : a_eq (a_drop t a) (a_drop t a')) by (destruct E as [Hl Ht]; split; simpl; [intros l; by rewrite Hl|done]).
  by rewrite Ed.
Qed.

Lemma sem_ok_proper k a a' : a_eq a a' -> sem_ok idle k a -> sem_ok idle k a'.
Proof.
  intros E [K S]. split; [by rewrite <- E|]. destruct E as [Hl Ht]. apply (keeps_inv [] a); [|set_solver|done].
  split; rewrite <- ?Ht, <- ?Hl; try done. intros l x. rewrite <- Hl. eauto.
Qed.

(** A task in a list has the state of the list. *)
Lemma state_of s a l t c : rep [] s a -> t ∈ a_lists a l -> tcbs s !! t = Some c -> task_state c = TSTATE_WAIT_SEM <-> l = g_waitingforsemaphore.
Proof. intros R Ht Hc. rewrite (r_state _ _ _ R _ _ _ Ht ltac:(set_solver) Hc). destruct l; simpl; try done; by destruct (is_first _ _). Qed.

Lemma waitsem_rep X s a t c : rep X s a -> tcbs s !! t = Some c -> waitsem_of (a_tasks a) t = waitsem c.
Proof. intros R Hc. unfold waitsem_of. by rewrite (r_info _ _ _ R _ _ Hc). Qed.

(** The semaphores after a wait of [t] was given up, and the tasks. *)
Definition gave_up (t e : Z) (k : kern) (a : asched) (k' : kern) (a' : asched) : Prop :=
  if decide (t ∈ a_lists a g_waitingforsemaphore) then
    a_eq a' (a_cancel t e a) /\ exists n, sems k !! waitsem_of (a_tasks a) t = Some n /\ n < 0 /\ sems k' = <[waitsem_of (a_tasks a) t := n + 1]> (sems k)
  else k' = k /\ a' = a.

Lemma sem_waitirq_ok k a l t e : sem_ok idle k a -> t ∈ a_lists a l ->
  exists k' a', sem_waitirq t e k = Some k' /\ sem_ok idle k' a' /\ gave_up t e k a k' a' /\ g_pidhash (ks k') = g_pidhash (ks k).
Proof.
  intros O Ht. pose proof O as [K S]. pose proof (k_rep _ _ _ K) as R. destruct (r_alloc _ _ _ R _ _ Ht) as (_ & _ & Hs). pose proof Hs as [c Hc].
  unfold sem_waitirq, gave_up. rewrite Hc. cbn [mbind option_bind]. pose proof (state_of _ _ _ _ _ R Ht Hc) as Est.
  destruct (decide (task_state c = TSTATE_WAIT_SEM)) as [Ec|Ec].
  - apply Est in Ec. subst l. rewrite <- (waitsem_rep _ _ _ _ _ R Hc). set (sem := waitsem_of (a_tasks a) t).
    destruct (s_waits _ _ S t Ht) as [n Hn]. fold sem in Hn. rewrite Hn. cbn [mbind option_bind]. rewrite (sem_upd _ _ n) by done. cbn [mbind option_bind ks with_sems].
    destruct (k_upd idle (ks k) a t (set_waitsem 0) K Hs) as (m1 & E1 & K1); [done|]. rewrite E1. cbn [mbind option_bind].
    assert (Hs1 : is_Some (tcbs (with_tcbs m1 (ks k)) !! t)).
    { apply (r_known _ _ _ (k_rep _ _ _ K1)). simpl. rewrite lookup_alter_is_Some. by apply (r_known _ _ _ R). }
    destruct (k_upd idle _ _ t (set_pterrno e) K1 Hs1) as (m2 & E2 & K2); [done|]. rewrite E2. cbn [mbind option_bind].
    rewrite upd_compose in K2. destruct (wake_ok idle k a t _ m2 n K2 S R Ht (fun _ => eq_refl) Hn) as (H0 & s & E3 & P3 & O3). fold sem in O3.
    change (with_tcbs m2 (with_tcbs m1 (ks k))) with (with_tcbs m2 (ks k)). rewrite E3. cbn [mbind option_bind]. pose proof (count_low _ _ _ _ _ _ R S Hn) as Hlow. rewrite s16_id by lia.
    exists (mkKern s (<[sem := n + 1]> (sems k))). eexists. split; [done|]. split; [exact O3|]. split; [|exact P3]. rewrite decide_True by done.
    split; [unfold a_cancel; by rewrite upd_compose|]. by exists n.
  - exists k, a. rewrite decide_False; [done|]. intros Hw. apply Ec, Est. by apply (r_apart _ _ _ R _ _ _ Ht Hw).
Qed.

(** A process id names a task in some list, or none. *)
Definition pids_ok (s : sched) (a : asched) : Prop :=
  forall p, exists t, sched_gettcb p s = Some t /\ (t = 0 \/ exists l, t ∈ a_lists a l).

Lemma sem_timeout_ok k a p : sem_ok idle k a -> pids_ok (ks k) a ->
  exists t k' a', sched_gettcb p (ks k) = Some t /\ sem_timeout p k = Some k' /\ sem_ok idle k' a' /\ gave_up t ETIMEDOUT k a k' a' /\ g_pidhash (ks k') = g_pidhash (ks k).
Proof.
  intros O Hp. destruct (Hp p) as (t & Et & Ht). exists t. unfold sem_timeout. rewrite Et. cbn [mbind option_bind]. pose proof (k_rep _ _ _ (o_kern _ _ _ O)) as R.
  destruct Ht as [-> | [l Ht]].
  - exists k, a. split_and!; [done|done|done| |done]. unfold gave_up. rewrite decide_False; [done|]. intros Hx. by destruct (r_alloc _ _ _ R _ _ Hx).
  - destruct (r_alloc _ _ _ R _ _ Ht) as (H0 & _ & [c Hc]). rewrite decide_False by done. rewrite Hc. cbn [mbind option_bind].
    destruct (sem_waitirq_ok k a l t ETIMEDOUT O Ht) as (k' & a' & E & O' & G & P). exists k', a'. split_and!; [done| |done|done|done].
    destruct (decide _) as [|Hn]; [done|]. unfold sem_waitirq in E. rewrite Hc in E. cbn [mbind option_bind] in E. by rewrite decide_False in E.
Qed.
End More.

(** ** Resetting, destroying and creating semaphores *)

Fixpoint a_posts (n : nat) (sem : Z) (a : asched) : asched :=
  match n with O => a | S n' => a_posts n' sem (a_post sem a) end.

Section Reset.
Context (idle : Z).

Lemma reset_loop_ok fuel : forall k a sem n count, sem_ok idle k a -> sems k !! sem = Some n -> 0 <= count <= SEM_VALUE_MAX -> (Z.to_nat count < fuel)%nat ->
  let j := Z.min count (Z.max 0 (- n)) in
  exists k', reset_loop fuel sem count k = Some (count - j, k') /\ sem_ok idle k' (a_posts (Z.to_nat j) sem a) /\
    sems k' = <[sem := n + j]> (sems k) /\ g_pidhash (ks k') = g_pidhash (ks k).
Proof.
  induction fuel as [|fuel IH]; intros k a sem n count O Hn Hc Hf j; [lia|]. cbn [reset_loop]. rewrite Hn. cbn [mbind option_bind].
  destruct (decide _) as [[H0 H1]|Hd].
  - destruct (sem_post_ok idle k a sem n O Hn) as (k1 & E1 & O1 & S1 & P1); [unfold SEM_VALUE_MAX; lia|]. rewrite E1. cbn [mbind option_bind].
    unfold SEM_VALUE_MAX in Hc. rewrite s16_id by lia.
    destruct (IH k1 _ sem (n + 1) (count - 1) O1) as (k2 & E2 & O2 & S2 & P2); [by rewrite S1, lookup_insert_eq|unfold SEM_VALUE_MAX; lia|lia|].
    set (j' := Z.min (count - 1) (Z.max 0 (- (n + 1)))) in *. assert (j = j' + 1) as -> by lia. exists k2. split_and!; [rewrite E2; do 2 f_equal; lia| | |congruence].
    + replace (Z.to_nat (j' + 1)) with (S (Z.to_nat j')) by lia. done.
    + rewrite S2, S1, insert_insert_eq. f_equal. lia.
  - assert (j = 0) as -> by lia. exists k. split_and!; [do 2 f_equal; lia|done| |done]. rewrite insert_id; [done|]. rewrite Hn. f_equal. lia.
Qed.

(** [sem_reset] with a count that the waiting tasks get first. *)
Lemma sem_reset_ok k a sem n count (j := Z.min count (Z.max 0 (- n))) : sem_ok idle k a -> sems k !! sem = Some n -> 0 <= count <= SEM_VALUE_MAX ->
  lock_of (a_tasks a) (a_this a) < 32767 ->
  exists k', sem_reset sem count k = Some (Returned OK, k') /\ sem_ok idle k' (a_unlock (a_posts (Z.to_nat j) sem (a_lock a))) /\
    sems k' = <[sem := if decide (0 <= n) then count else n + count]> (sems k) /\ g_pidhash (ks k') = g_pidhash (ks k).
Proof.
  intros O Hn Hc Hl. pose proof O as [K S]. unfold sem_reset. destruct (lock_ok idle _ _ K Hl) as (s1 & E1 & K1 & P1). rewrite E1. cbn [mbind option_bind].
  assert (O1 : sem_ok idle (with_sched s1 k) (a_lock a)). { split; [done|]. apply (keeps_inv [] a); [apply keeps_lock|set_solver|done]. }
  destruct (reset_loop_ok (Datatypes.S (Z.to_nat count)) _ _ sem n count O1 Hn Hc) as (k2 & E2 & O2 & S2 & P2); [lia|]. fold j in E2, O2, S2.
  rewrite E2. cbn [mbind option_bind]. assert (Hn2 : sems k2 !! sem = Some (n + j)) by (by rewrite S2, lookup_insert_eq). rewrite Hn2. cbn [mbind option_bind].
  set (a2 := a_posts (Z.to_nat j) sem (a_lock a)) in *. set (v := if decide (0 <= n) then count else n + count).
  assert (H3 : exists k3, (if decide (0 <= n + j) then upd_sem sem (count - j) k2 else Some k2) = Some k3 /\ sem_ok idle k3 a2 /\ sems k3 = <[sem := v]> (sems k) /\ ks k3 = ks k2).
  { destruct (decide (0 <= n + j)) as [H0|H0].
    - rewrite (sem_upd _ _ _ _ Hn2). eexists. split_and!; [done| | |done].
      + destruct O2 as [K2 I2]. split; [done|]. apply (inv_value _ _ _ (n + j)); [done..|]. unfold SEM_VALUE_MAX in *. lia.
      + simpl. rewrite S2, insert_insert_eq. f_equal. unfold v. destruct (decide _); lia.
    - exists k2. split_and!; [done|done| |done]. rewrite S2. f_equal. unfold v. destruct (decide _); lia. }
  destruct H3 as (k3 & -> & [K3 I3] & S3 & Ek3). cbn [mbind option_bind]. destruct (unlock_ok idle _ _ K3) as (s4 & E4 & K4 & P4). rewrite E4. cbn [mbind option_bind].
  eexists. split_and!; [done| |done|simpl; rewrite P4, Ek3, P2; simpl; congruence]. split; [done|]. simpl. apply (keeps_inv [] a2); [apply keeps_unlock|set_solver|done].
Qed.

Lemma sem_destroy_ok k a sem n : sem_ok idle k a -> sems k !! sem = Some n ->
  exists k', sem_destroy sem k = Some (Returned OK, k') /\ sem_ok idle k' a /\ sems k' = <[sem := if decide (0 <= n) then 1 else n]> (sems k) /\ ks k' = ks k.
Proof.
  intros O Hn. pose proof O as [K S]. assert (Hz : sem <> 0) by (intros ->; by rewrite (s_null _ _ S) in Hn). unfold sem_destroy. rewrite decide_True by done. rewrite Hn.
  cbn [mbind option_bind]. destruct (decide (0 <= n)) as [H0|].
  - rewrite (sem_upd _ _ n) by done. eexists. split_and!; [done| |done|done]. split; [done|]. by apply (inv_value _ _ _ n).
  - exists k. split_and!; [done|done|by rewrite insert_id|done].
Qed.

(** A semaphore that nobody waits for may be set up again. *)
Lemma sem_init_ok k a sem n value : sem_ok idle k a -> sems k !! sem = Some n -> 0 <= n -> 0 <= value <= SEM_VALUE_MAX ->
  exists k', sem_init sem value k = Some (Returned OK, k') /\ sem_ok idle k' a /\ sems k' = <[sem := value]> (sems k) /\ ks k' = ks k.
Proof.
  intros O Hn H0 Hv. pose proof O as [K S]. assert (Hz : sem <> 0) by (intros ->; by rewrite (s_null _ _ S) in Hn). unfold sem_init.
  rewrite decide_True by (split; [done|lia]). rewrite (sem_upd _ _ n) by done. cbn [mbind option_bind]. unfold SEM_VALUE_MAX in Hv. rewrite s16_id by lia.
  eexists. split_and!; [done| |done|done]. split; [done|]. by apply (inv_value _ _ _ n).
Qed.
End Reset.
