(* ===== verification/Task.v ===== *)
(** * Creating and deleting tasks (src/nuttx/sched/task, sched/init, sched/pthread)

    The kernel starts with the idle task alone.  A new task gets a zeroed block, a
    process id from the hash table of the ids and a place in the list of the inactive
    tasks; it becomes ready when it is activated.  A task that is deleted leaves its
    list, its semaphore wait is undone and its id and its block are released.

    The parts of these functions that concern stacks, task groups, signals, timers,
    streams and arguments are left out. *)

From Stdlib Require Import Sorting.Sorted.
From S2P Require Import Prelude Queue Sched SchedInv Sem.

(** ** Data *)

Definition CONFIG_MAX_TASKS : Z := 16.
Definition INVALID_PROCESS_ID : Z := -1.
Definition PIDHASH (p : Z) : Z := Z.land p MAX_TASKS_MASK.
Definition TCB_FLAG_TTYPE_MASK : Z := 3.
Definition TCB_FLAG_TTYPE_PTHREAD : Z := 1.
Definition TCB_FLAG_TTYPE_KERNEL : Z := 2.
Definition TCB_FLAG_NONCANCELABLE : Z := 4.
Definition TCB_FLAG_EXIT_PROCESSING : Z := 256.

(** The scheduler with its semaphores, and the last process id that was given out. *)
Record system := mkSys { kn : kern; g_lastpid : Z }.
Definition with_kern (k : kern) (y : system) : system := mkSys k (g_lastpid y).
Definition with_lastpid (p : Z) (y : system) : system := mkSys (kn y) p.
Definition with_ks (s : sched) (y : system) : system := with_kern (with_sched s (kn y)) y.

Definition set_pid (p : Z) (c : tcb_s) : tcb_s :=
  mkTcb p (sched_priority c) (init_priority c) (task_state c) (tcb_flags c) (lockcount c) (timeslice c) (waitsem c) (pterrno c).
Definition set_init_priority (p : Z) (c : tcb_s) : tcb_s :=
  mkTcb (pid c) (sched_priority c) p (task_state c) (tcb_flags c) (lockcount c) (timeslice c) (waitsem c) (pterrno c).
Definition set_flags (f : Z) (c : tcb_s) : tcb_s :=
  mkTcb (pid c) (sched_priority c) (init_priority c) (task_state c) f (lockcount c) (timeslice c) (waitsem c) (pterrno c).
Definition with_pidhash (m : gmap Z (Z * Z)) (s : sched) : sched :=
  mkSched (tcb_links s) (tcbs s) (queues s) m (current s).

(** ** The start of the system *)

(** [for (i = 0; i < CONFIG_MAX_TASKS; i++) { g_pidhash[i] = { NULL, INVALID } }] *)
Definition no_pids : gmap Z (Z * Z) :=
  list_to_map ((fun i => (Z.of_nat i, (INVALID_PROCESS_ID, 0))) <$> seq 0 (Z.to_nat CONFIG_MAX_TASKS)).

(** The task lists and the idle task; [mem] are the words of the zeroed memory that
    serve as semaphores. *)
Definition os_start (idle : Z) (mem : gset Z) : option system :=
  let lists := fun _ : tasklist => dq_init in
  let hash := <[PIDHASH 0 := (0, idle)]> no_pids in
  let c := mkTcb 0 0 0 TSTATE_TASK_RUNNING (Z.lor TCB_FLAG_TTYPE_KERNEL TCB_FLAG_NONCANCELABLE) 0 0 0 0 in
  l ← TLIST_HEAD TSTATE_TASK_RUNNING;
  '(q, h) ← dq_addfirst idle (lists l) {[ idle := mkDe 0 0 ]};
  Some (mkSys (mkKern (mkSched h {[ idle := c ]} (fupd l q lists) hash idle) (gset_to_gmap 0 mem)) 0).

(** ** New tasks *)

(** [kmm_zalloc(sizeof(struct tcb_s))] at a free address. *)
Definition tcb_alloc (tcb : Z) (y : system) : option system :=
  let s := ks (kn y) in
  if decide (tcb <> 0 /\ tcbs s !! tcb = None /\ tcb_links s !! tcb = None) then
    Some (with_ks (mkSched (<[tcb := mkDe 0 0]> (tcb_links s)) (<[tcb := mkTcb 0 0 0 TSTATE_TASK_INVALID 0 0 0 0 0]> (tcbs s))
                           (queues s) (g_pidhash s) (current s)) y)
  else None.

Fixpoint assign_loop (tries : nat) (tcb : Z) (y : system) : option (Z * system) :=
  match tries with
  | O => Some (ERROR, y)
  | S tries' =>
    let next_pid := s16 (g_lastpid y + 1) in
    let next_pid := if decide (next_pid <= 0) then 1 else next_pid in
    let y := with_lastpid next_pid y in
    let s := ks (kn y) in
    '(_, t) ← g_pidhash s !! PIDHASH next_pid;
    if decide (t = 0) then
      s ← upd_tcb tcb (set_pid next_pid) (with_pidhash (<[PIDHASH next_pid := (next_pid, tcb)]> (g_pidhash s)) s);
      Some (OK, with_ks s y)
    else assign_loop tries' tcb y
  end.

Definition task_assignpid (tcb : Z) (y : system) : option (Z * system) :=
  s ← sched_lock false (ks (kn y));
  '(ret, y) ← assign_loop (Z.to_nat CONFIG_MAX_TASKS) tcb (with_ks s y);
  s ← sched_unlock false (ks (kn y));
  Some (ret, with_ks s y).

Definition set_ttype (ttype : Z) (c : tcb_s) : tcb_s :=
  set_flags (Z.lor (Z.land (tcb_flags c) (Z.lnot TCB_FLAG_TTYPE_MASK)) (Z.land ttype TCB_FLAG_TTYPE_MASK)) c.

Definition thread_schedsetup (tcb priority ttype : Z) (y : system) : option (Z * system) :=
  '(ret, y) ← task_assignpid tcb y;
  if decide (ret = OK) then
    s ← upd_tcb tcb (set_priority (u8 priority)) (ks (kn y));
    s ← upd_tcb tcb (set_init_priority (u8 priority)) s;
    s ← upd_tcb tcb (set_ttype ttype) s;
    s ← upd_tcb tcb (set_state TSTATE_TASK_INVALID) s;
    s ← sched_lock false s;
    '(q, h) ← dq_addfirst tcb (queues s g_inactivetasks) (tcb_links s);
    s ← upd_tcb tcb (set_state TSTATE_TASK_INACTIVE) (with_queue g_inactivetasks q h s);
    s ← sched_unlock false s;
    Some (ret, with_ks s y)
  else Some (ret, y).

(** The scheduling policy of a new thread ([rr]: SCHED_RR, else SCHED_FIFO). *)
Definition set_policy (rr : bool) (c : tcb_s) : tcb_s :=
  let f := Z.land (tcb_flags c) (Z.lnot TCB_FLAG_POLICY_MASK) in
  if rr then set_timeslice RR_TICKS (set_flags (Z.lor f TCB_FLAG_SCHED_RR) c) else set_flags f c.

(** ** Deletion *)

Definition sched_releasepid (p : Z) (s : sched) : option sched :=
  _ ← g_pidhash s !! PIDHASH p;
  Some (with_pidhash (<[PIDHASH p := (INVALID_PROCESS_ID, 0)]> (g_pidhash s)) s).

Definition sched_releasetcb (tcb : Z) (s : sched) : option (Z * sched) :=
  if decide (tcb <> 0) then
    c ← tcbs s !! tcb;
    s ← (if decide (pid c <> 0) then sched_releasepid (pid c) s else Some s);
    Some (OK, mkSched (delete tcb (tcb_links s)) (delete tcb (tcbs s)) (queues s) (g_pidhash s) (current s))
  else Some (OK, s).

(** [task_recover] undoes the semaphore wait of the task. *)
Definition task_exithook (tcb : Z) (k : kern) : option kern :=
  c ← tcbs (ks k) !! tcb;
  if decide (Z.land (tcb_flags c) TCB_FLAG_EXIT_PROCESSING <> 0) then Some k
  else
    k ← sem_recover tcb k;
    s ← upd_tcb tcb (fun c => set_flags (Z.lor (tcb_flags c) TCB_FLAG_EXIT_PROCESSING) c) (ks k);
    Some (with_sched s k).

Definition task_terminate (p : Z) (k : kern) : option (Z * kern) :=
  dtcb ← sched_gettcb p (ks k);
  if decide (dtcb = 0) then Some (- ESRCH, k)
  else
    c ← tcbs (ks k) !! dtcb;
    tasklist ← TLIST_HEAD (task_state c);
    '(q, h) ← dq_rem dtcb (queues (ks k) tasklist) (tcb_links (ks k));
    s ← upd_tcb dtcb (set_state TSTATE_TASK_INVALID) (with_queue tasklist q h (ks k));
    k ← task_exithook dtcb (with_sched s k);
    '(ret, s) ← sched_releasetcb dtcb (ks k);
    Some (ret, with_sched s k).

(** ** Creating a task *)

(** [thread_create] up to the activation: the new task is inactive, or the block is
    given back and errno says why. *)
Definition thread_setup (tcb ttype priority : Z) (y : system) : option (Z * system) :=
  y ← tcb_alloc tcb y;
  '(ret, y) ← thread_schedsetup tcb priority ttype y;
  if decide (ret < OK) then
    '(_, s) ← sched_releasetcb tcb (ks (kn y));
    s ← set_errno (- ret) s;
    Some (ERROR, with_ks s y)
  else Some (ret, y).

(** The result is the process id of the new task, or ERROR. *)
Definition thread_create (tcb ttype priority : Z) (y : system) : option (Z * system) :=
  '(ret, y) ← thread_setup tcb ttype priority y;
  if decide (ret < OK) then Some (ret, y)
  else
    c ← tcbs (ks (kn y)) !! tcb;
    '(_, s) ← task_activate tcb (ks (kn y));
    Some (pid c, with_ks s y).

(** ** The process ids

    Every task has its own entry of the hash table: there are at most
    [CONFIG_MAX_TASKS] tasks, and an id names at most one. *)

Record pid_inv (idle last : Z) (h : gmap Z (Z * Z)) (a : asched) : Prop := {
  p_total i : 0 <= i < CONFIG_MAX_TASKS -> is_Some (h !! i);
  p_entry i p t : h !! i = Some (p, t) -> t <> 0 -> PIDHASH p = i /\ exists c, a_tasks a !! t = Some c /\ pid c = p;
  p_task t c : a_tasks a !! t = Some c -> 0 <= pid c <= 32767 /\ h !! PIDHASH (pid c) = Some (pid c, t);
  p_listed t : is_Some (a_tasks a !! t) -> exists l, t ∈ a_lists a l;
  p_idle c : a_tasks a !! idle = Some c -> pid c = 0;
  p_last : 0 <= last <= 32767
}.

(** The tasks of [a] are those of [a'], with their ids, and are still in some list;
    [X] are the tasks that need not be in a list any more. *)
Record same_tasks (X : list Z) (a a' : asched) : Prop := {
  st_pid t : pid <$> a_tasks a' !! t = pid <$> a_tasks a !! t;
  st_in l t : t ∈ a_lists a l -> t ∉ X -> exists l', t ∈ a_lists a' l'
}.

#[export] Instance same_refl X : Reflexive (same_tasks X).
Proof. intros a. split; eauto. Qed.

Lemma same_trans X a b c : same_tasks X a b -> same_tasks X b c -> same_tasks X a c.
Proof.
  intros H1 H2. split; [intros t; by rewrite (st_pid _ _ _ H2), (st_pid _ _ _ H1)|]. intros l t Ht HX.
  destruct (st_in _ _ _ H1 l t Ht HX) as [l' Hl']. by apply (st_in _ _ _ H2 l').
Qed.

Lemma same_mono X Y a b : same_tasks X a b -> X ⊆ Y -> same_tasks Y a b.
Proof. intros H HX. split; [apply H|]. intros l t Ht HY. apply (st_in _ _ _ H l); [done|set_solver]. Qed.

Lemma same_close t a b : same_tasks [t] a b -> (exists l, t ∈ a_lists b l) -> same_tasks [] a b.
Proof. intros H Ht. split; [apply H|]. intros l x Hx _. destruct (decide (x = t)) as [->|]; [done|]. apply (st_in _ _ _ H l); [done|set_solver]. Qed.

Lemma same_upd X t f a : (forall c, pid (f c) = pid c) -> same_tasks X a (a_upd t f a).
Proof.
  intros H. split; simpl; [|eauto]. intros x. destruct (decide (x = t)) as [->|]; [|by rewrite lookup_alter_ne by congruence].
  rewrite lookup_alter_eq. destruct (a_tasks a !! t); simpl; [by rewrite H|done].
Qed.

Lemma same_switch X t a : same_tasks X a (a_switch t a).
Proof. unfold a_switch. destruct (decide _); [done|]. by apply same_upd. Qed.

Lemma same_drop t a : same_tasks [t] a (a_drop t a).
Proof. split; simpl; [done|]. intros l x Hx HX. exists l. apply list_elem_of_filter. split; [set_solver|done]. Qed.

Lemma same_with X l k a : (forall x, x ∈ a_lists a l -> x ∉ X -> x ∈ k) -> same_tasks X a (a_with l k a).
Proof. intros H. split; simpl; [done|]. intros l' x Hx HX. exists l'. unfold fupd. destruct (decide (l' = l)) as [->|]; auto. Qed.

Lemma in_with l k a x : x ∈ k -> exists l', x ∈ a_lists (a_with l k a) l'.
Proof. intros H. exists l. simpl. unfold fupd. by rewrite decide_True. Qed.

Lemma same_add X t a : same_tasks X a (a_add t a) /\ exists l, t ∈ a_lists (a_add t a) l.
Proof.
  unfold a_add. destruct (decide _); (split; [apply same_with; intros x Hx _; apply place_elem; by right|apply in_with, place_elem; by left]).
Qed.

Lemma same_merge X a : same_tasks X a (a_merge a).
Proof.
  unfold a_merge. split; simpl; [done|]. intros l x Hx _. destruct (decide (l = g_pendingtasks \/ l = g_readytorun)) as [Hl|Hl].
  - exists g_readytorun. unfold fupd. simpl. apply place_all_elem. destruct Hl as [-> | ->]; auto.
  - exists l. unfold fupd. rewrite !decide_False by tauto. done.
Qed.

Lemma same_queue X t st a : is_Some (TLIST_HEAD st) -> same_tasks X a (a_queue t st a) /\ exists l, t ∈ a_lists (a_queue t st a) l.
Proof.
  intros [l El]. unfold a_queue. rewrite El. split.
  - apply same_with. intros x Hx _. destruct (TLIST_ISPRIORITIZED st); [apply place_elem; by right|set_solver].
  - apply in_with. destruct (TLIST_ISPRIORITIZED st); [apply place_elem; by left|set_solver].
Qed.

(** A task is taken out of its list and put into one again. *)
Lemma same_back t a b c : same_tasks [t] a b -> same_tasks [] b c /\ (exists l, t ∈ a_lists c l) -> same_tasks [] a c.
Proof. intros H1 [H2 Ht]. apply (same_close t); [|done]. eapply same_trans; [done|]. eapply same_mono; [done|set_solver]. Qed.

Lemma same_block st a : is_Some (TLIST_HEAD st) -> same_tasks [] a (a_block st a).
Proof.
  intros H. unfold a_block. eapply same_trans; [eapply same_back; [apply same_drop|by apply same_queue]|].
  eapply same_trans; [apply same_merge|apply same_switch].
Qed.

Lemma same_unblock t a : same_tasks [] a (a_unblock t a).
Proof. unfold a_unblock. eapply same_trans; [eapply same_back; [apply same_drop|apply same_add]|apply same_switch]. Qed.

Lemma same_release a : same_tasks [] a (a_release a).
Proof. unfold a_release. eapply same_trans; [apply same_merge|apply same_switch]. Qed.

Lemma same_moved t p a : same_tasks [] a (a_add t (a_upd t (set_priority p) (a_drop t a))).
Proof. eapply same_back; [|apply same_add]. eapply same_trans; [apply same_drop|by apply same_upd]. Qed.

Lemma same_reprio t p a : same_tasks [] a (a_reprio t p a).
Proof.
  unfold a_reprio. destruct (decide _); [apply same_moved|]. eapply same_trans; [apply same_moved|].
  eapply same_trans; [apply same_merge|apply same_switch].
Qed.

Lemma same_unlock a : same_tasks [] a (a_unlock a).
Proof.
  unfold a_unlock. destruct (decide _); [|by apply same_upd]. eapply same_trans; [|apply same_release]. by apply same_upd.
Qed.

Lemma same_setpriority l t p a : same_tasks [] a (a_setpriority l t p a).
Proof.
  unfold a_setpriority. assert (H : forall l', same_tasks [] a (let a1 := a_upd t (set_priority p) (a_drop t a) in
    if prioritized l' then a_with l' (place (a_tasks a1) t (a_lists a1 l')) a1 else a_upd t (set_priority p) a)).
  { intros l'. cbv zeta. destruct (prioritized l'); [|by apply same_upd].
    eapply same_back; [eapply same_trans; [apply same_drop|by apply (same_upd _ t (set_priority p))]|]. split.
    - apply same_with. intros x Hx _. apply place_elem. by right.
    - apply in_with, place_elem. by left. }
  destruct l; try apply (H _). destruct (decide _); [by apply same_upd|apply same_reprio].
Qed.

Lemma same_tick a : same_tasks [] a (a_tick a).
Proof.
  unfold a_tick. destruct (a_tasks a !! a_this a) as [c|]; [|done]. destruct (is_rr c); [|done]. destruct (decide _); [|by apply same_upd].
  assert (H : same_tasks [] a (a_upd (a_this a) (set_timeslice RR_TICKS) a)) by (by apply same_upd).
  destruct (a_lists a g_readytorun) as [|? [|x k]]; [done..|]. destruct (decide _); [|done]. eapply same_trans; [exact H|apply same_reprio].
Qed.

Lemma same_wait sem n a : same_tasks [] a (a_wait sem n a).
Proof.
  unfold a_wait. destruct (decide _); [by apply same_upd|]. eapply same_trans; [|by apply same_block].
  eapply same_trans; [by apply (same_upd _ (a_this a) (set_waitsem sem))|by apply same_upd].
Qed.

Lemma same_post sem a : same_tasks [] a (a_post sem a).
Proof. unfold a_post. destruct (waiters sem a) as [|w ws]; [done|]. eapply same_trans; [|apply same_unblock]. by apply same_upd. Qed.

Lemma same_posts n sem a : same_tasks [] a (a_posts n sem a).
Proof. revert a; induction n as [|n IH]; intros a; simpl; [done|]. eapply same_trans; [apply same_post|apply IH]. Qed.

Lemma same_cancel t e a : same_tasks [] a (a_cancel t e a).
Proof.
  unfold a_cancel. eapply same_trans; [|apply same_unblock].
  eapply same_trans; [by apply (same_upd _ t (set_waitsem 0))|by apply same_upd].
Qed.

Lemma same_eq X a b : a_eq a b -> same_tasks X a b.
Proof. intros [Hl Ht]. split; [by rewrite Ht|]. intros l x. rewrite Hl. eauto. Qed.

Lemma pid_same idle last h a a' : same_tasks [] a a' -> pid_inv idle last h a -> pid_inv idle last h a'.
Proof.
  intros S I. assert (Hp : forall t c', a_tasks a' !! t = Some c' -> exists c, a_tasks a !! t = Some c /\ pid c = pid c').
  { intros t c' Ht. pose proof (st_pid _ _ _ S t) as E. rewrite Ht in E. simpl in E. destruct (a_tasks a !! t) as [c|]; [|done]. injection E as E. eauto. }
  assert (Hp' : forall t c, a_tasks a !! t = Some c -> exists c', a_tasks a' !! t = Some c' /\ pid c' = pid c).
  { intros t c Ht. pose proof (st_pid _ _ _ S t) as E. rewrite Ht in E. simpl in E. destruct (a_tasks a' !! t) as [c'|]; [|done]. injection E as E. eauto. }
  split; try apply I.
  - intros i p t Hi Ht. destruct (p_entry _ _ _ _ I i p t Hi Ht) as (Hh & c & Hc & <-). destruct (Hp' t c Hc) as (c' & Hc' & E). eauto.
  - intros t c' Hc'. destruct (Hp t c' Hc') as (c & Hc & <-). by apply (p_task _ _ _ _ I).
  - intros t [c' Hc']. destruct (Hp t c' Hc') as (c & Hc & _). destruct (p_listed _ _ _ _ I t) as [l Hl]; [eauto|]. apply (st_in _ _ _ S l); [done|set_solver].
  - intros c' Hc'. destruct (Hp idle c' Hc') as (c & Hc & <-). by apply (p_idle _ _ _ _ I).
Qed.

(** ** The hash table *)

Lemma pidhash_range p : 0 <= PIDHASH p < CONFIG_MAX_TASKS.
Proof. unfold PIDHASH, MAX_TASKS_MASK. change 15 with (Z.ones 4). rewrite Z.land_ones by lia. apply Z.mod_pos_bound. done. Qed.

Lemma pidhash_mod p : PIDHASH p = p mod 16.
Proof. unfold PIDHASH, MAX_TASKS_MASK. change 15 with (Z.ones 4). by rewrite Z.land_ones by lia. Qed.

(** The entries in use. *)
Definition hashes (a : asched) : list Z := (fun tc : Z * tcb_s => PIDHASH (pid tc.2)) <$> map_to_list (a_tasks a).

Lemma hashes_sub idle last h a : pid_inv idle last h a -> hashes a ⊆+ seqZ 0 16.
Proof.
  intros I. apply NoDup_submseteq.
  - apply NoDup_fmap_2_strong; [|apply NoDup_map_to_list]. intros [t c] [t' c'] H1%elem_of_map_to_list H2%elem_of_map_to_list E. simpl in *.
    destruct (p_task _ _ _ _ I _ _ H1) as [_ E1]. destruct (p_task _ _ _ _ I _ _ H2) as [_ E2]. rewrite E in E1. rewrite E1 in E2. simplify_eq. by simplify_eq.
  - intros i Hi. apply list_elem_of_fmap in Hi as ([t c] & -> & _). simpl. apply elem_of_seqZ. apply pidhash_range.
Qed.

Lemma hashes_len a : length (hashes a) = size (a_tasks a).
Proof. unfold hashes. by rewrite length_fmap, length_map_to_list. Qed.

(** There are at most as many tasks as entries. *)
Lemma pid_few idle last h a : pid_inv idle last h a -> (size (a_tasks a) <= 16)%nat.
Proof. intros I. rewrite <- hashes_len. change 16%nat with (length (seqZ 0 16)). eapply submseteq_length, hashes_sub, I. Qed.

(** The [j]-th process id after [last]: 0 and the negative ones are left out. *)
Definition cand (last j : Z) : Z := if decide (last + j <= 32767) then last + j else last + j - 32767.

Lemma cand_range last j : 0 <= last <= 32767 -> 1 <= j <= 16 -> 1 <= cand last j <= 32767.
Proof. intros. unfold cand. destruct (decide _); lia. Qed.

Lemma cand_next last j : 0 <= last <= 32767 -> 1 <= j <= 15 -> cand (cand last 1) j = cand last (j + 1).
Proof. intros. unfold cand. repeat destruct (decide _); lia. Qed.

Lemma next_pid_ok last : 0 <= last <= 32767 -> (if decide (s16 (last + 1) <= 0) then 1 else s16 (last + 1)) = cand last 1.
Proof.
  intros H. unfold cand. destruct (decide (last + 1 <= 32767)).
  - rewrite s16_id by lia. by rewrite decide_False by lia.
  - assert (last = 32767) as -> by lia. done.
Qed.

(** Sixteen candidates visit every entry but, around the wrap, the idle task's. *)
Lemma cand_cover last r : 0 <= last <= 32767 -> 1 <= r <= 15 -> exists j, 1 <= j <= 16 /\ PIDHASH (cand last j) = r.
Proof.
  intros Hl Hr. set (j := (r - last - 1) mod 16 + 1). pose proof (Z.mod_pos_bound (r - last - 1) 16 ltac:(lia)) as Hj.
  assert (Hm : (last + j) mod 16 = r).
  { unfold j. replace (last + ((r - last - 1) mod 16 + 1)) with (last + 1 + (r - last - 1) mod 16) by lia. rewrite Zplus_mod_idemp_r.
    replace (last + 1 + (r - last - 1)) with r by lia. apply Z.mod_small. lia. }
  destruct (decide (last + j <= 32767)) as [Hw|Hw].
  - exists j. split; [lia|]. unfold cand. rewrite decide_True by done. by rewrite pidhash_mod.
  - pose proof (Z.div_mod (last + j) 16 ltac:(lia)) as Hd. rewrite Hm in Hd. assert ((last + j) / 16 = 2048) by lia.
    exists (j - 1). split; [lia|]. unfold cand. rewrite decide_False by lia. rewrite pidhash_mod. replace (last + (j - 1) - 32767) with r by lia. apply Z.mod_small. lia.
Qed.

Definition free_pid (h : gmap Z (Z * Z)) (p : Z) : Prop := exists p', h !! PIDHASH p = Some (p', 0).

(** The system after [tcb] got the id [p]. *)
Definition assigned (tcb p : Z) (c : tcb_s) (y : system) : system :=
  let s := ks (kn y) in
  with_ks (with_tcbs (<[tcb := set_pid p c]> (tcbs s)) (with_pidhash (<[PIDHASH p := (p, tcb)]> (g_pidhash s)) s)) (with_lastpid p y).

Lemma assign_loop_ok n tcb c : forall y (h := g_pidhash (ks (kn y))), tcbs (ks (kn y)) !! tcb = Some c -> 0 <= g_lastpid y <= 32767 ->
  (forall i, 0 <= i < CONFIG_MAX_TASKS -> is_Some (h !! i)) -> (n <= 16)%nat ->
  (exists p, 1 <= p <= 32767 /\ free_pid h p /\ assign_loop n tcb y = Some (OK, assigned tcb p c y)) \/
  (exists last, 0 <= last <= 32767 /\ assign_loop n tcb y = Some (ERROR, with_lastpid last y) /\
    forall j, 1 <= j <= Z.of_nat n -> ~ free_pid h (cand (g_lastpid y) j)).
Proof.
  induction n as [|n IH]; intros y h Hc Hl Ht Hn.
  - right. exists (g_lastpid y). split_and!; [lia|lia| |lia]. simpl. by destruct y.
  - cbn [assign_loop]. rewrite (next_pid_ok (g_lastpid y)) by done. pose proof (cand_range (g_lastpid y) 1 Hl ltac:(lia)) as Hr.
    set (p := cand (g_lastpid y) 1) in *. destruct (Ht (PIDHASH p) (pidhash_range p)) as [[p' t] Ep]. cbn [with_lastpid kn]. fold h. rewrite Ep. cbn [mbind option_bind].
    destruct (decide (t = 0)) as [->|Ht0].
    + left. exists p. split_and!; [lia|lia|by exists p'|]. unfold upd_tcb. simpl. rewrite Hc. done.
    + destruct (IH (with_lastpid p y)) as [(q & H1 & H2 & H3)|(last & H1 & H2 & H3)]; [done|simpl; lia|done|lia| |].
      * left. exists q. split_and!; [lia|lia|done|done].
      * right. exists last. split_and!; [lia|lia|done|]. intros j Hj. destruct (decide (j = 1)) as [->|].
        -- intros [q Hq]. fold p in Hq. rewrite Ep in Hq. by injection Hq.
        -- specialize (H3 (j - 1) ltac:(lia)). simpl in H3. unfold p in H3. rewrite cand_next in H3 by lia. by replace (j - 1 + 1) with j in H3 by lia.
Qed.

(** ** Blocks *)

Definition zero_tcb : tcb_s := mkTcb 0 0 0 TSTATE_TASK_INVALID 0 0 0 0 0.
Definition a_put (t : Z) (c : tcb_s) (a : asched) : asched := mkA (a_lists a) (<[t := c]> (a_tasks a)).
Definition a_free (t : Z) (a : asched) : asched := mkA (a_lists a) (delete t (a_tasks a)).
Definition store_put (t : Z) (c : tcb_s) (s : sched) : sched :=
  mkSched (<[t := mkDe 0 0]> (tcb_links s)) (<[t := c]> (tcbs s)) (queues s) (g_pidhash s) (current s).
Definition store_del (t : Z) (s : sched) : sched :=
  mkSched (delete t (tcb_links s)) (delete t (tcbs s)) (queues s) (g_pidhash s) (current s).

Section Blocks.
Context (idle : Z).

Lemma prio_put_ne (m : gmap Z tcb_s) t c x : x <> t -> prio (<[t := c]> m) x = prio m x /\ lock_of (<[t := c]> m) x = lock_of m x.
Proof. intros H. unfold prio, lock_of. by rewrite lookup_insert_ne. Qed.
Lemma prio_del_ne (m : gmap Z tcb_s) t x : x <> t -> prio (delete t m) x = prio m x /\ lock_of (delete t m) x = lock_of m x.
Proof. intros H. unfold prio, lock_of. by rewrite lookup_delete_ne. Qed.

(** The blocks outside the lists do not matter to the invariant. *)
Lemma inv_tasks a m : a_inv idle a -> (forall l x, x ∈ a_lists a l -> prio m x = prio (a_tasks a) x /\ lock_of m x = lock_of (a_tasks a) x) ->
  (forall t c, m !! t = Some c -> 0 <= lockcount c <= 32767 /\ 0 <= timeslice c <= RR_TICKS) -> a_inv idle (mkA (a_lists a) m).
Proof.
  intros [I Hp] Hm Hf. pose proof (this_in a (inv_ready idle a I)) as Hin. split; [split; simpl; try done|].
  - intros l Hl. eapply sorted_ext; [|by apply (i_sorted _ _ I)]. intros x Hx. by destruct (Hm l x Hx).
  - apply (i_idle _ _ I).
  - destruct (Hm g_readytorun idle) as [-> _]; [by apply inv_idle_in|apply (i_low _ _ I)].
  - intros l t Ht Hi. destruct (Hm l t Ht) as [-> _]. by apply (i_prio _ _ I l).
  - change (a_this (mkA (a_lists a) m)) with (a_this a). simpl. destruct (Hm g_readytorun (a_this a) Hin) as [_ ->]. done.
Qed.

Lemma block_put_ok s a t c : k_ok idle s a -> t <> 0 -> tcbs s !! t = None -> 0 <= lockcount c <= 32767 -> 0 <= timeslice c <= RR_TICKS ->
  k_ok idle (store_put t c s) (a_put t (info c) a).
Proof.
  intros [R I C] H0 Hn Hl Hs. assert (Hd : forall l x, x ∈ a_lists a l -> x <> t).
  { intros l x Hx ->. destruct (r_alloc _ _ _ R _ _ Hx) as (_ & _ & [? ?]). congruence. }
  split; [split|apply (inv_tasks a); [done|..]|done]; simpl; try apply R.
  - intros l. eapply dq_rep_frame; [|apply (r_q _ _ _ R l)]. intros x Hx. rewrite lookup_insert_ne; [done|]. symmetry. by apply (Hd l).
  - by rewrite !dom_insert_L, (r_dom _ _ _ R).
  - by rewrite fmap_insert, (r_tasks _ _ _ R).
  - rewrite lookup_insert_ne by done. apply (r_null _ _ _ R).
  - intros l x c' Hx HX. rewrite lookup_insert_ne by (symmetry; by apply (Hd l)). by apply (r_state _ _ _ R).
  - intros l x Hx. apply prio_put_ne. by apply (Hd l).
  - intros x c' Hx. destruct (decide (x = t)) as [->|].
    + rewrite lookup_insert_eq in Hx. by injection Hx as <-.
    + rewrite lookup_insert_ne in Hx by done. by apply (i_fields _ _ (i_base _ _ I) x).
Qed.

Lemma block_free_ok s a t : k_ok idle s a -> detached t a -> k_ok idle (store_del t s) (a_free t a).
Proof.
  intros [R I C] Hd'. assert (Hd : forall l x, x ∈ a_lists a l -> x <> t) by (intros l x Hx ->; by apply (Hd' l)).
  split; [split|apply (inv_tasks a); [done|..]|done]; simpl; try apply R.
  - intros l. eapply dq_rep_frame; [|apply (r_q _ _ _ R l)]. intros x Hx. rewrite lookup_delete_ne; [done|]. symmetry. by apply (Hd l).
  - by rewrite !dom_delete_L, (r_dom _ _ _ R).
  - by rewrite fmap_delete, (r_tasks _ _ _ R).
  - apply lookup_delete_None. right. apply (r_null _ _ _ R).
  - intros l x c' Hx HX. rewrite lookup_delete_ne by (symmetry; by apply (Hd l)). by apply (r_state _ _ _ R).
  - intros l x Hx. apply prio_del_ne. by apply (Hd l).
  - intros x c' [_ Hx]%lookup_delete_Some. by apply (i_fields _ _ (i_base _ _ I) x).
Qed.

Lemma k_pidhash s a h : k_ok idle s a -> k_ok idle (with_pidhash h s) a.
Proof. intros [R I C]. split; [|done..]. by apply (rep_same [] s). Qed.

Lemma sem_tasks a m m' : sem_inv a m -> (forall l x, x ∈ a_lists a l -> waitsem_of m' x = waitsem_of (a_tasks a) x /\ errno_of m' x = errno_of (a_tasks a) x) ->
  Z.of_nat (size m') <= 32767 -> sem_inv (mkA (a_lists a) m') m.
Proof.
  intros I Hm Hs. split; simpl; try apply I; try done.
  - intros sem n Hn. rewrite <- (s_count _ _ I sem n Hn). unfold waiters. simpl. f_equal. f_equal. apply filter_agree. intros x Hx. by destruct (Hm _ _ Hx) as [-> _].
  - intros t Ht. destruct (Hm _ _ Ht) as [-> _]. by apply (s_waits _ _ I).
  - intros l t Ht Hl. destruct (Hm _ _ Ht) as [-> _]. by eapply (s_free _ _ I).
  - intros t Ht. destruct (Hm _ _ Ht) as [_ ->]. by apply (s_errno _ _ I).
Qed.

(** Pre-emption disabled and enabled again. *)
Lemma lock_unlock a : a_inv idle a -> is_Some (a_tasks a !! a_this a) -> lock_of (a_tasks a) (a_this a) < 32767 -> a_eq (a_unlock (a_lock a)) a.
Proof.
  intros [I Hp] [c Hc] Hl. pose proof (lock_some _ _ _ Hc) as El. rewrite El in *. destruct (i_fields _ _ I _ _ Hc) as [Hf _].
  assert (En : Z.max 0 (lock_of (a_tasks (a_lock a)) (a_this a) - 1) = lockcount c).
  { unfold a_lock. cbn [a_upd a_tasks]. erewrite lock_at by done. cbn [lockcount set_lockcount]. rewrite s16_id by lia. lia. }
  unfold a_unlock. change (a_this (a_lock a)) with (a_this a). rewrite En.
  assert (E : a_eq (a_upd (a_this a) (set_lockcount (lockcount c)) (a_lock a)) a).
  { unfold a_lock. rewrite upd_compose. split; [done|]. simpl. apply map_eq. intros x. destruct (decide (x = a_this a)) as [->|].
    - rewrite lookup_alter_eq, Hc. simpl. by destruct c.
    - by rewrite lookup_alter_ne by congruence. }
  destruct (decide _) as [H0|]; [|done]. assert (Hn : a_lists a g_pendingtasks = []).
  { destruct (a_lists a g_pendingtasks) as [|x k]; [done|]. exfalso. specialize (Hp ltac:(done)). lia. }
  unfold a_release. rewrite merge_nil by done. unfold a_switch. by rewrite decide_True by done.
Qed.
End Blocks.

#[export] Instance ks_pid p : KeepsState (set_pid p). Proof. done. Qed.
#[export] Instance ks_init p : KeepsState (set_init_priority p). Proof. done. Qed.
#[export] Instance ks_flags p : KeepsState (set_flags p). Proof. done. Qed.
#[export] Instance ks_ttype p : KeepsState (set_ttype p). Proof. done. Qed.
#[export] Instance ks_policy rr : KeepsState (set_policy rr). Proof. by destruct rr. Qed.

(** A task that was set up. *)
Definition new_tcb (p prio ttype : Z) : tcb_s := mkTcb p prio prio TSTATE_TASK_INVALID (Z.land ttype TCB_FLAG_TTYPE_MASK) 0 0 0 0.
Definition a_setup (t p prio ttype : Z) (a : asched) : asched :=
  a_with g_inactivetasks (t :: a_lists a g_inactivetasks) (a_put t (new_tcb p prio ttype) a).

Section Setup.
Context (idle : Z).

(** A field of a block outside the lists. *)
Lemma off_inv a t f : a_inv idle a -> detached t a ->
  (forall c, 0 <= lockcount c <= 32767 /\ 0 <= timeslice c <= RR_TICKS -> 0 <= lockcount (f c) <= 32767 /\ 0 <= timeslice (f c) <= RR_TICKS) -> a_inv idle (a_upd t f a).
Proof.
  intros I Hd Hf. apply (inv_tasks idle a); [done|..].
  - intros l x Hx. assert (x <> t) by (intros ->; by apply (Hd l)). unfold prio, lock_of. by rewrite lookup_alter_ne by congruence.
  - intros x c Hx. destruct (decide (x = t)) as [->|].
    + rewrite lookup_alter_eq in Hx. destruct (a_tasks a !! t) as [c0|] eqn:E0; [|done]. injection Hx as <-. apply Hf. by apply (i_fields _ _ (i_base _ _ I) t).
    + rewrite lookup_alter_ne in Hx by congruence. by apply (i_fields _ _ (i_base _ _ I) x).
Qed.

Lemma off_upd s a t f `{!KeepsState f} : k_ok idle s a -> detached t a -> is_Some (tcbs s !! t) ->
  (forall c, 0 <= lockcount c <= 32767 /\ 0 <= timeslice c <= RR_TICKS -> 0 <= lockcount (f c) <= 32767 /\ 0 <= timeslice (f c) <= RR_TICKS) ->
  exists m, upd_tcb t f s = Some (with_tcbs m s) /\ k_ok idle (with_tcbs m s) (a_upd t f a).
Proof.
  intros [R I C] Hd Ht Hf. destruct (upd_ok [] s a t f R Ht) as (m & E & R'). exists m. split; [done|]. split; [done| |done]. by apply off_inv.
Qed.

Lemma detached_this t a : a_inv idle a -> detached t a -> t <> a_this a.
Proof. intros [I _] Hd ->. by apply (Hd g_readytorun), this_in, (inv_ready idle). Qed.

Lemma lock_commute t f a : t <> a_this a -> a_eq (a_upd t f (a_lock a)) (a_lock (a_upd t f a)).
Proof.
  intros H. split; [done|]. unfold a_lock. change (a_this (a_upd t f a)) with (a_this a). simpl. by apply alter_alter_ne.
Qed.

(** A step in a section without pre-emption, seen from outside. *)
Lemma unlock_back s a a' : k_ok idle s a' -> a_eq a' (a_lock a) -> a_inv idle a -> is_Some (a_tasks a !! a_this a) -> lock_of (a_tasks a) (a_this a) < 32767 ->
  exists s', sched_unlock false s = Some s' /\ k_ok idle s' a /\ g_pidhash s' = g_pidhash s.
Proof.
  intros K E I Hc Hl. rewrite E in K. destruct (unlock_ok idle _ _ K) as (s' & E' & K' & P). exists s'. split_and!; [done| |done].
  by rewrite (lock_unlock idle a I Hc Hl) in K'.
Qed.

Lemma this_some s a : k_ok idle s a -> is_Some (a_tasks a !! a_this a).
Proof. intros [R [I _] _]. destruct (this_known idle s a R I) as (c & _ & Hc). eauto. Qed.

Lemma some_bind {A B} (f : A -> option B) x : (Some x ≫= f) = f x.
Proof. done. Qed.

Lemma assignpid_ok y a t (s := ks (kn y)) (h := g_pidhash s) : k_ok idle s a -> is_Some (tcbs s !! t) -> detached t a ->
  (forall i, 0 <= i < CONFIG_MAX_TASKS -> is_Some (h !! i)) -> 0 <= g_lastpid y <= 32767 -> lock_of (a_tasks a) (a_this a) < 32767 ->
  (exists p s', 1 <= p <= 32767 /\ free_pid h p /\ task_assignpid t y = Some (OK, mkSys (with_sched s' (kn y)) p) /\
    k_ok idle s' (a_upd t (set_pid p) a) /\ g_pidhash s' = <[PIDHASH p := (p, t)]> h) \/
  (exists last s', 0 <= last <= 32767 /\ task_assignpid t y = Some (ERROR, mkSys (with_sched s' (kn y)) last) /\ k_ok idle s' a /\ g_pidhash s' = h /\
    forall i p t', 1 <= i < CONFIG_MAX_TASKS -> h !! i = Some (p, t') -> t' <> 0).
Proof.
  intros K Ht Hd Htot Hlast Hl. pose proof (this_some s a K) as Hth. pose proof (k_inv _ _ _ K) as I. pose proof (detached_this t a I Hd) as Hne.
  unfold task_assignpid. fold s. set (n := Z.to_nat CONFIG_MAX_TASKS). assert (Hn : Z.of_nat n = 16) by done. clearbody n.
  destruct (lock_ok idle s a K Hl) as (s1 & E1 & K1 & P1). rewrite E1. rewrite some_bind.
  assert (Ht1 : is_Some (tcbs s1 !! t)). { apply (r_known _ _ _ (k_rep _ _ _ K1)). simpl. rewrite lookup_alter_is_Some. by apply (r_known _ _ _ (k_rep _ _ _ K)). }
  pose proof Ht1 as [c1 Hc1].
  destruct (assign_loop_ok n t c1 (with_ks s1 y)) as [(p & Hp & Hfree & E)|(last & Hlast' & E & Hno)]; [done|done|simpl; rewrite P1; exact Htot|lia| |];
    rewrite E; rewrite some_bind.
  - left. simpl in Hfree. rewrite P1 in Hfree. unfold assigned. cbn [kn ks with_ks with_kern with_sched with_lastpid]. rewrite P1. fold h. set (h' := <[PIDHASH p := (p, t)]> h).
    destruct (off_upd (with_pidhash h' s1) (a_lock a) t (set_pid p)) as (m & E2 & K2); [by apply k_pidhash|done|done|done|].
    rewrite (upd_tcb_some _ _ _ c1) in E2 by done. injection E2 as <-. cbn [tcbs with_pidhash] in K2.
    destruct (unlock_back _ (a_upd t (set_pid p) a) _ K2) as (s3 & E3 & K3 & P3); [by apply lock_commute|by apply off_inv|..].
    + change (a_this (a_upd t (set_pid p) a)) with (a_this a). simpl. by rewrite lookup_alter_ne by congruence.
    + change (a_this (a_upd t (set_pid p) a)) with (a_this a). simpl. by rewrite lock_alter.
    + cbn [tcbs with_pidhash] in E3. rewrite E3. rewrite some_bind. exists p, s3. split_and!; [lia|lia|done|done|done|done].
  - right. simpl in Hno. rewrite P1 in Hno. cbn [kn ks with_ks with_kern with_sched with_lastpid]. destruct (unlock_back s1 a (a_lock a) K1) as (s3 & E3 & K3 & P3); [done..|].
    rewrite E3. rewrite some_bind. exists last, s3. split_and!; [lia|lia|done|done|by rewrite P3|].
    intros i p t' Hi Ep ->. unfold CONFIG_MAX_TASKS in Hi.
    destruct (cand_cover (g_lastpid y) i) as (j & Hj & Ej); [done|lia|]. apply (Hno j); [lia|]. unfold free_pid. rewrite Ej. eauto.
Qed.
End Setup.

Section Create.
Context (idle : Z).

Lemma off_state s a t st : k_ok idle s a -> detached t a -> is_Some (tcbs s !! t) ->
  exists m, upd_tcb t (set_state st) s = Some (with_tcbs m s) /\ k_ok idle (with_tcbs m s) a.
Proof.
  intros [R I C] Hd Ht. destruct (upd_state_ok [] s a t st) as (m & E & R'); [by apply (rep_weaken []); [|set_solver]|done|intros l Hl; by destruct (Hd l)|].
  exists m. split; [done|]. by split.
Qed.

(** A new task goes to the head of the inactive ones. *)
Lemma enlist_ok s a t : k_ok idle s a -> detached t a -> is_Some (tcbs s !! t) -> task_ok idle t a ->
  exists q h m, dq_addfirst t (queues s g_inactivetasks) (tcb_links s) = Some (q, h) /\
    upd_tcb t (set_state TSTATE_TASK_INACTIVE) (with_queue g_inactivetasks q h s) = Some (with_tcbs m (with_queue g_inactivetasks q h s)) /\
    k_ok idle (with_tcbs m (with_queue g_inactivetasks q h s)) (a_with g_inactivetasks (t :: a_lists a g_inactivetasks) a).
Proof.
  intros [R I C] Hd Ht Hok. destruct (r_link _ _ _ R t Ht) as [H0 He].
  destruct (dq_addfirst_rep _ _ _ t (r_q _ _ _ R g_inactivetasks) H0 (Hd _) He) as (q & h & E & Hq & Ho).
  set (k := a_lists a g_inactivetasks) in *. assert (R1 : rep [t] (with_queue g_inactivetasks q h s) (a_with g_inactivetasks (t :: k) a)).
  { apply (insert_ok [] s a t g_inactivetasks [] k q h R Hd Ht eq_refl); [set_solver|done|done]. }
  destruct (upd_state_ok [] _ _ t TSTATE_TASK_INACTIVE R1) as (m & E1 & R2); [done| |].
  { intros l. simpl. unfold fupd. destruct (decide (l = g_inactivetasks)) as [->|]; [done|]. intros Hx. by destruct (Hd l). }
  exists q, h, m. split_and!; [done|done|]. split; [done| |done]. split; [|apply I]. apply inv0_with; [apply I|done|done|].
  intros x [-> | Hx]%elem_of_cons Hi; [done|]. eapply inv0_task; [apply I|done|done].
Qed.

Lemma schedsetup_ok y a t prio ttype (s := ks (kn y)) (h := g_pidhash s) : k_ok idle s a -> a_tasks a !! t = Some zero_tcb -> detached t a -> t <> idle ->
  (forall i, 0 <= i < CONFIG_MAX_TASKS -> is_Some (h !! i)) -> 0 <= g_lastpid y <= 32767 -> lock_of (a_tasks a) (a_this a) < 32767 ->
  SCHED_PRIORITY_MIN <= prio <= SCHED_PRIORITY_MAX ->
  (exists p s', 1 <= p <= 32767 /\ free_pid h p /\ thread_schedsetup t prio ttype y = Some (OK, mkSys (with_sched s' (kn y)) p) /\
    k_ok idle s' (a_setup t p prio ttype a) /\ g_pidhash s' = <[PIDHASH p := (p, t)]> h) \/
  (exists last s', 0 <= last <= 32767 /\ thread_schedsetup t prio ttype y = Some (ERROR, mkSys (with_sched s' (kn y)) last) /\ k_ok idle s' a /\ g_pidhash s' = h /\
    forall i p t', 1 <= i < CONFIG_MAX_TASKS -> h !! i = Some (p, t') -> t' <> 0).
Proof.
  intros K Hz Hd Hi Htot Hlast Hl Hp. assert (Ht : is_Some (tcbs s !! t)) by (apply (r_known _ _ _ (k_rep _ _ _ K)); eauto).
  unfold thread_schedsetup. destruct (assignpid_ok idle y a t K Ht Hd Htot Hlast Hl) as [(p & s1 & H1 & Hfree & E1 & K1 & P1)|(last & s1 & H1 & E1 & K1 & P1 & Hno)];
    rewrite E1, some_bind; [left|right; exists last, s1; by split_and!; [lia..|done|done|done|]].
  rewrite decide_True by done. cbn [kn ks with_sched]. rewrite u8_prio by done.
  assert (Hk1 : is_Some (tcbs s1 !! t)). { apply (r_known _ _ _ (k_rep _ _ _ K1)). simpl. rewrite lookup_alter_is_Some. eauto. }
  destruct (off_upd idle s1 _ t (set_priority prio) K1 Hd Hk1) as (m2 & E2 & K2); [done|]. rewrite E2, some_bind.
  assert (Hk2 : is_Some (tcbs (with_tcbs m2 s1) !! t)). { apply (r_known _ _ _ (k_rep _ _ _ K2)). simpl. rewrite !lookup_alter_is_Some. eauto. }
  destruct (off_upd idle _ _ t (set_init_priority prio) K2 Hd Hk2) as (m3 & E3 & K3); [done|]. rewrite E3, some_bind.
  assert (Hk3 : is_Some (tcbs (with_tcbs m3 (with_tcbs m2 s1)) !! t)). { apply (r_known _ _ _ (k_rep _ _ _ K3)). simpl. rewrite !lookup_alter_is_Some. eauto. }
  destruct (off_upd idle _ _ t (set_ttype ttype) K3 Hd Hk3) as (m4 & E4 & K4); [done|]. rewrite E4, some_bind. rewrite !upd_compose in K4.
  set (s4 := with_tcbs m4 _) in *. assert (Ea : a_eq (a_upd t (fun c => set_ttype ttype (set_init_priority prio (set_priority prio (set_pid p c)))) a) (a_put t (new_tcb p prio ttype) a)).
  { split; [done|]. simpl. by rewrite (alter_insert_eq' _ _ _ zero_tcb). }
  rewrite Ea in K4. set (a4 := a_put t (new_tcb p prio ttype) a) in *.
  assert (Hk4 : is_Some (tcbs s4 !! t)). { apply (r_known _ _ _ (k_rep _ _ _ K4)). simpl. rewrite lookup_insert_eq. eauto. }
  destruct (off_state s4 a4 t TSTATE_TASK_INVALID K4 Hd Hk4) as (m5 & E5 & K5). rewrite E5, some_bind. set (s5 := with_tcbs m5 s4) in *.
  assert (Hne : a_this a4 <> t). { intros E. by apply (detached_this idle t a4 (k_inv _ _ _ K4) Hd). }
  assert (Hl4 : lock_of (a_tasks a4) (a_this a4) < 32767). { simpl. destruct (prio_put_ne (a_tasks a) t (new_tcb p prio ttype) (a_this a4) Hne) as [_ ->]. done. }
  destruct (lock_ok idle s5 a4 K5 Hl4) as (s6 & E6 & K6 & P6). rewrite E6, some_bind.
  assert (Hk6 : is_Some (tcbs s6 !! t)). { apply (r_known _ _ _ (k_rep _ _ _ K6)). simpl. rewrite lookup_alter_is_Some, lookup_insert_eq. eauto. }
  destruct (enlist_ok s6 (a_lock a4) t K6 Hd Hk6) as (q & hh & m7 & E7 & E7' & K7).
  { split; [done|]. unfold a_lock. cbn [a_tasks a_upd]. rewrite prio_alter by done. unfold a4. simpl. unfold Sched.prio. by rewrite lookup_insert_eq. }
  rewrite E7, some_bind, E7', some_bind. set (s7 := with_tcbs m7 _) in *.
  destruct (unlock_back idle s7 (a_setup t p prio ttype a) _ K7) as (s8 & E8 & K8 & P8).
  - done.
  - split; [|apply (k_inv _ _ _ K4)]. apply inv0_with; [apply (k_inv _ _ _ K4)|done|done|]. intros x [-> | Hx]%elem_of_cons Hxi.
    + split; [done|]. simpl. unfold Sched.prio. by rewrite lookup_insert_eq.
    + eapply inv0_task; [apply (k_inv _ _ _ K4)|done|done].
  - apply (this_some idle s4 a4 K4).
  - exact Hl4.
  - rewrite E8, some_bind. exists p, s8. split_and!; [lia|lia|done|done|done|]. rewrite P8. simpl. by rewrite P6.
Qed.
End Create.

#[export] Instance ks_exit : KeepsState (fun c => set_flags (Z.lor (tcb_flags c) TCB_FLAG_EXIT_PROCESSING) c). Proof. done. Qed.

Section Delete.
Context (idle : Z).

(** The block leaves the list of its state. *)
Lemma unlist_ok s a t l c : k_ok idle s a -> t ∈ a_lists a l -> t <> a_this a -> t <> idle -> tcbs s !! t = Some c ->
  exists q h m, TLIST_HEAD (task_state c) = Some l /\ dq_rem t (queues s l) (tcb_links s) = Some (q, h) /\
    upd_tcb t (set_state TSTATE_TASK_INVALID) (with_queue l q h s) = Some (with_tcbs m (with_queue l q h s)) /\
    k_ok idle (with_tcbs m (with_queue l q h s)) (a_drop t a) /\ m !! t = Some (info c).
Proof.
  intros [R I C] Ht Hne Hi Hc. assert (El : TLIST_HEAD (task_state c) = Some l).
  { rewrite (r_state _ _ _ R _ _ _ Ht ltac:(set_solver) Hc). destruct l; try done. simpl. by destruct (is_first _ _). }
  destruct (lists_split _ _ _ _ _ R Ht) as (k1 & k2 & Ek & _). destruct (unlink_ok [] s a t l k1 k2 R Ek) as (q & h & E1 & R1 & _); [set_solver| |].
  { intros -> ->. destruct Hne. unfold a_this. by rewrite Ek. }
  rewrite (drop_eq _ _ _ _ _ _ _ R Ek) in R1.
  assert (K1 : k_ok idle (with_queue l q h s) (a_drop t a)). { split; [done|by apply inv_drop|simpl; by rewrite this_drop]. }
  destruct (off_state idle _ _ t TSTATE_TASK_INVALID K1 (drop_detached t a)) as (m & E2 & K2); [eauto|]. exists q, h, m. split_and!; [done|done|done|done|].
  rewrite (upd_tcb_some _ _ _ c) in E2 by done. injection E2 as <-. apply lookup_insert_eq.
Qed.

Lemma free_upd t f a : a_eq (a_free t (a_upd t f a)) (a_free t a).
Proof. split; [done|]. simpl. apply map_eq. intros x. destruct (decide (x = t)) as [->|]; [by rewrite !lookup_delete_eq|]. by rewrite !lookup_delete_ne, lookup_alter_ne by congruence. Qed.

(** What [task_terminate] does to a task that is not running: the counts of the
    semaphores stay as they are, also when the task waits for one. *)
Lemma terminate_ok k a p t l c : k_ok idle (ks k) a -> sched_gettcb p (ks k) = Some t -> t ∈ a_lists a l -> t <> a_this a -> t <> idle ->
  tcbs (ks k) !! t = Some c -> pid c <> 0 -> is_Some (g_pidhash (ks k) !! PIDHASH (pid c)) ->
  exists s', task_terminate p k = Some (OK, with_sched s' k) /\ k_ok idle s' (a_free t (a_drop t a)) /\
    g_pidhash s' = <[PIDHASH (pid c) := (INVALID_PROCESS_ID, 0)]> (g_pidhash (ks k)).
Proof.
  intros K Hg Ht Hne Hi Hc Hpid [x Hx]. pose proof (k_rep _ _ _ K) as R. destruct (r_alloc _ _ _ R _ _ Ht) as (H0 & _ & _).
  unfold task_terminate. rewrite Hg, some_bind. rewrite decide_False by done. rewrite Hc, some_bind.
  destruct (unlist_ok _ a t l c K Ht Hne Hi Hc) as (q & h & m & El & E1 & E2 & K1 & Hm). rewrite El, some_bind, E1, some_bind, E2, some_bind.
  set (s1 := with_tcbs m _) in *. assert (Hc1 : tcbs s1 !! t = Some (info c)) by done.
  assert (H2 : exists s2 c2, task_exithook t (with_sched s1 k) = Some (with_sched s2 k) /\ tcbs s2 !! t = Some c2 /\ pid c2 = pid c /\
    k_ok idle (store_del t s2) (a_free t (a_drop t a)) /\ g_pidhash s2 = g_pidhash (ks k)).
  { unfold task_exithook. cbn [ks with_sched]. rewrite Hc1, some_bind. destruct (decide _) as [Hf|Hf].
    - exists s1, (info c). split_and!; [done|done|done| |done]. apply block_free_ok; [done|apply drop_detached].
    - unfold sem_recover. cbn [ks with_sched]. rewrite Hc1, some_bind. rewrite decide_False by done. rewrite some_bind. cbn [ks with_sched].
      destruct (off_upd idle s1 _ t (fun c => set_flags (Z.lor (tcb_flags c) TCB_FLAG_EXIT_PROCESSING) c) K1 (drop_detached t a)) as (m2 & E3 & K3); [eauto|done|].
      rewrite E3, some_bind. rewrite (upd_tcb_some _ _ _ _ Hc1) in E3. injection E3 as <-. do 2 eexists. split; [done|]. split; [apply lookup_insert_eq|].
      split_and!; [done| |done]. rewrite <- (free_upd t (fun c => set_flags (Z.lor (tcb_flags c) TCB_FLAG_EXIT_PROCESSING) c)). apply block_free_ok; [done|apply drop_detached]. }
  destruct H2 as (s2 & c2 & E3 & Hc2 & Hp2 & K2 & P2). rewrite E3, some_bind. unfold sched_releasetcb, sched_releasepid. cbn [ks with_sched].
  rewrite decide_True by done. rewrite Hc2, some_bind. rewrite Hp2. rewrite decide_True by done. rewrite P2, Hx, !some_bind.
  eexists. split; [done|]. split; [|done]. by apply (k_pidhash idle (store_del t s2)).
Qed.
End Delete.

(** ** The system *)

Record sys_ok (idle : Z) (y : system) (a : asched) : Prop := {
  y_sem : sem_ok idle (kn y) a;
  y_pid : pid_inv idle (g_lastpid y) (g_pidhash (ks (kn y))) a
}.

(** Every entry of the hash table is in use. *)
Definition full (h : gmap Z (Z * Z)) : Prop := forall i, 0 <= i < CONFIG_MAX_TASKS -> exists p t, h !! i = Some (p, t) /\ t <> 0.

Section System.
Context (idle : Z).

Lemma sys_same y a k' a' : sys_ok idle y a -> sem_ok idle k' a' -> same_tasks [] a a' -> g_pidhash (ks k') = g_pidhash (ks (kn y)) -> sys_ok idle (with_kern k' y) a'.
Proof. intros [S P] S' T E. split; [done|]. simpl. rewrite E. by eapply pid_same. Qed.

(** The task of a process id. *)
Lemma gettcb_ok y a p : sys_ok idle y a -> exists t, sched_gettcb p (ks (kn y)) = Some t /\ (t = 0 \/ exists c l, a_tasks a !! t = Some c /\ pid c = p /\ t ∈ a_lists a l).
Proof.
  intros [_ P]. unfold sched_gettcb. destruct (decide (0 <= p)) as [Hp0|]; [|eauto]. fold (PIDHASH p). destruct (p_total _ _ _ _ P (PIDHASH p) (pidhash_range p)) as [[p' t] E].
  rewrite E, some_bind. eexists. split; [done|]. destruct (decide (p = p')) as [<-|]; [|by left]. destruct (decide (t = 0)) as [->|Ht]; [by left|]. right.
  destruct (p_entry _ _ _ _ P _ _ _ E Ht) as (_ & c & Hc & Hp). destruct (p_listed _ _ _ _ P t) as [l Hl]; [eauto|]. by exists c, l.
Qed.

(** An id finds the task that has it. *)
Lemma gettcb_task y a t c : sys_ok idle y a -> a_tasks a !! t = Some c -> sched_gettcb (pid c) (ks (kn y)) = Some t.
Proof.
  intros [_ P] Hc. destruct (p_task _ _ _ _ P _ _ Hc) as [Hr E]. unfold sched_gettcb. rewrite decide_True by lia. fold (PIDHASH (pid c)). rewrite E, some_bind.
  by rewrite decide_True.
Qed.

(** The list of a task is the one of its state. *)
Lemma state_list y a t c : sys_ok idle y a -> tcbs (ks (kn y)) !! t = Some c -> exists l, t ∈ a_lists a l /\ task_state c = list_state l (is_first t (a_lists a l)).
Proof.
  intros [[K _] P] Hc. destruct (p_listed _ _ _ _ P t) as [l Hl]; [rewrite (r_info _ _ _ (k_rep _ _ _ K) _ _ Hc); eauto|].
  exists l. split; [done|]. eapply (r_state _ _ _ (k_rep _ _ _ K)); [done|set_solver|done].
Qed.

Lemma sem_put a m t c : sem_inv a m -> (forall l, t ∉ a_lists a l) -> Z.of_nat (size (a_tasks a)) < 32767 -> sem_inv (a_put t c a) m.
Proof.
  intros I Hd Hs. apply (sem_tasks a); [done|..].
  - intros l x Hx. assert (x <> t) by (intros ->; by apply (Hd l)). unfold waitsem_of, errno_of. by rewrite !lookup_insert_ne.
  - rewrite map_size_insert. destruct (a_tasks a !! t); simpl; lia.
Qed.

Lemma setup_inv y a t p prio ttype : sys_ok idle y a -> (forall l, t ∉ a_lists a l) -> a_tasks a !! t = None -> t <> 0 -> t <> idle -> 1 <= p <= 32767 ->
  free_pid (g_pidhash (ks (kn y))) p -> sem_inv (a_setup t p prio ttype a) (sems (kn y)) /\
  pid_inv idle p (<[PIDHASH p := (p, t)]> (g_pidhash (ks (kn y)))) (a_setup t p prio ttype a).
Proof.
  intros [[K S] P] Hd Hn H0 Hi Hp [p' Hfree]. split.
  - pose proof (pid_few _ _ _ _ P) as Hfew. assert (S1 : sem_inv (a_put t (new_tcb p prio ttype) a) (sems (kn y))) by (apply sem_put; [done|done|lia]).
    unfold a_setup. apply (keeps_inv [t] (a_put t (new_tcb p prio ttype) a)); [apply keeps_with; [done|]| |done].
    + intros x [-> | Hx]%elem_of_cons; [left; by left|right]. by exists g_inactivetasks.
    + intros x ->%list_elem_of_singleton. simpl. unfold waitsem_of. by rewrite lookup_insert_eq.
  - split; simpl.
    + intros i Hi'. destruct (decide (i = PIDHASH p)) as [->|]; [rewrite lookup_insert_eq; eauto|]. rewrite lookup_insert_ne by done. by apply (p_total _ _ _ _ P).
    + intros i q x. destruct (decide (i = PIDHASH p)) as [->|].
      * rewrite lookup_insert_eq. intros [= <- <-] _. rewrite lookup_insert_eq. eauto.
      * rewrite lookup_insert_ne by done. intros E Hx. destruct (p_entry _ _ _ _ P _ _ _ E Hx) as (Hh & c & Hc & Hpc).
        rewrite lookup_insert_ne; [eauto|]. intros <-. congruence.
    + intros x c. destruct (decide (x = t)) as [->|].
      * rewrite lookup_insert_eq. intros [= <-]. simpl. rewrite lookup_insert_eq. split; [lia|done].
      * rewrite lookup_insert_ne by done. intros Hc. destruct (p_task _ _ _ _ P _ _ Hc) as [Hr E]. split; [done|]. rewrite lookup_insert_ne; [done|].
        intros E'. rewrite <- E', Hfree in E. injection E as _ <-. destruct (r_link _ _ _ (k_rep _ _ _ K) 0) as [[] _]; [|done].
        apply (r_known _ _ _ (k_rep _ _ _ K)). eauto.
    + intros x [c Hx]. destruct (decide (x = t)) as [->|]; [exists g_inactivetasks; by left|]. rewrite lookup_insert_ne in Hx by done.
      destruct (p_listed _ _ _ _ P x) as [l Hl]; [eauto|]. exists l. unfold fupd. destruct (decide _) as [->|]; [by right|done].
    + intros c. rewrite lookup_insert_ne by done. apply (p_idle _ _ _ _ P).
    + lia.
Qed.
End System.

Section SystemOps.
Context (idle : Z).

(** A new task gets an id and is inactive, or the table is full. *)
Lemma thread_setup_ok y a t ttype prio (s := ks (kn y)) : sys_ok idle y a -> t <> 0 -> tcbs s !! t = None -> lock_of (a_tasks a) (a_this a) < 32767 ->
  SCHED_PRIORITY_MIN <= prio <= SCHED_PRIORITY_MAX ->
  (exists p y', 1 <= p <= 32767 /\ free_pid (g_pidhash s) p /\ thread_setup t ttype prio y = Some (OK, y') /\ sys_ok idle y' (a_setup t p prio ttype a) /\ g_lastpid y' = p /\
    sems (kn y') = sems (kn y)) \/
  (full (g_pidhash s) /\ exists y', thread_setup t ttype prio y = Some (ERROR, y') /\ sys_ok idle y' (a_upd (a_this a) (set_pterrno 1) a) /\ sems (kn y') = sems (kn y)).
Proof.
  intros Y H0 Hn Hl Hp. pose proof Y as [[K S] P]. pose proof (k_rep _ _ _ K) as R. fold s in K, R. assert (Hd : forall l, t ∉ a_lists a l).
  { intros l Hx. destruct (r_alloc _ _ _ R _ _ Hx) as (_ & _ & [? ?]). congruence. }
  assert (Hi : t <> idle). { intros ->. apply (Hd g_readytorun), inv_idle_in, K. }
  assert (Hna : a_tasks a !! t = None). { rewrite <- (r_tasks _ _ _ R), lookup_fmap. by rewrite Hn. }
  assert (Hth : t <> a_this a) by (apply (detached_this idle); [apply K|done]).
  unfold thread_setup, tcb_alloc. fold s. rewrite decide_True.
  2: { split_and!; [done|done|]. apply not_elem_of_dom. rewrite (r_dom _ _ _ R). by apply not_elem_of_dom. }
  rewrite some_bind. change (mkTcb 0 0 0 TSTATE_TASK_INVALID 0 0 0 0 0) with zero_tcb. fold (store_put t zero_tcb s). set (y1 := with_ks (store_put t zero_tcb s) y).
  assert (K1 : k_ok idle (ks (kn y1)) (a_put t zero_tcb a)). { apply (block_put_ok idle s a t zero_tcb); try done. }
  assert (Hl1 : lock_of (a_tasks (a_put t zero_tcb a)) (a_this (a_put t zero_tcb a)) < 32767).
  { change (a_this (a_put t zero_tcb a)) with (a_this a). simpl. destruct (prio_put_ne (a_tasks a) t zero_tcb (a_this a)) as [_ ->]; [congruence|done]. }
  destruct (schedsetup_ok idle y1 (a_put t zero_tcb a) t prio ttype K1) as [(p & s' & H1 & Hfree & E & K2 & P2)|(last & s' & H1 & E & K2 & P2 & Hno)];
    [apply lookup_insert_eq|done|done|apply (p_total _ _ _ _ P)|apply (p_last _ _ _ _ P)|exact Hl1|done| |];
    rewrite E, some_bind; clear E.
  - left. rewrite decide_False by done. assert (Ea : a_eq (a_setup t p prio ttype (a_put t zero_tcb a)) (a_setup t p prio ttype a)).
    { split; [done|]. simpl. apply insert_insert_eq. }
    rewrite Ea in K2. destruct (setup_inv idle y a t p prio ttype Y Hd Hna H0 Hi H1 Hfree) as [S' P'].
    exists p. eexists. split_and!; [lia|lia|exact Hfree|done| |done|done]. split; [by split|]. simpl. by rewrite P2.
  - right. rewrite decide_True by done. cbn [kn ks with_sched]. unfold sched_releasetcb. rewrite decide_True by done.
    pose proof (k_rep _ _ _ K2) as R2. destruct (tcbs s' !! t) as [c|] eqn:Hc.
    2: { exfalso. assert (H : is_Some (tcbs s' !! t)); [|rewrite Hc in H; by destruct H]. apply (r_known _ _ _ R2). simpl. rewrite lookup_insert_eq. eauto. }
    pose proof (r_info _ _ _ R2 _ _ Hc) as Hci. simpl in Hci. rewrite lookup_insert_eq in Hci.
    assert (Hpc : pid c = 0) by (by injection Hci). rewrite some_bind. rewrite decide_False by (intros Hx; by apply Hx). rewrite !some_bind.
    assert (K3 : k_ok idle (store_del t s') a).
    { assert (Ea : a_eq (a_free t (a_put t zero_tcb a)) a) by (split; [done|]; simpl; by rewrite delete_insert_id).
      rewrite <- Ea. by apply block_free_ok. }
    fold (store_del t s'). pose proof (fails_ok idle (with_sched (store_del t s') (kn y)) a 1) as Hf. destruct Hf as (k4 & E4 & O4 & S4 & P4); [by split|].
    unfold fails in E4. cbn [ks with_sched] in E4. change (- ERROR) with 1. destruct (set_errno 1 (store_del t s')) as [s4|] eqn:Es; [|done]. simpl in E4. injection E4 as <-.
    rewrite some_bind. split.
    + intros i Hi'. destruct (p_total _ _ _ _ P i Hi') as [[q x] Ex]. exists q, x. split; [done|]. intros ->. destruct (decide (i = 0)) as [->|].
      * assert (Hin : idle ∈ a_lists a g_readytorun) by apply inv_idle_in, K. destruct (r_alloc _ _ _ R _ _ Hin) as (Hi0 & _ & Hs). apply (r_known _ _ _ R) in Hs as [ci Hci0].
        destruct (p_task _ _ _ _ P _ _ Hci0) as [_ Ei]. rewrite (p_idle _ _ _ _ P _ Hci0) in Ei. change (PIDHASH 0) with 0 in Ei. rewrite Ei in Ex. by injection Ex as _ ->.
      * by apply (Hno i q 0); [lia|exact Ex|].
    + eexists. split; [done|]. split; [|done]. split; [exact O4|]. simpl in P4 |- *. rewrite P4, P2. simpl. eapply pid_same; [by apply same_upd|].
      destruct P; by split.
Qed.
End SystemOps.

(** A task is gone. *)
Definition a_delete (t : Z) (a : asched) : asched := a_free t (a_drop t a).

Section SystemOps2.
Context (idle : Z).

Lemma delete_inv y a t c l : sys_ok idle y a -> a_tasks a !! t = Some c -> t ∈ a_lists a l -> l <> g_waitingforsemaphore -> t <> idle -> t <> 0 ->
  sem_inv (a_delete t a) (sems (kn y)) /\
  pid_inv idle (g_lastpid y) (<[PIDHASH (pid c) := (INVALID_PROCESS_ID, 0)]> (g_pidhash (ks (kn y)))) (a_delete t a).
Proof.
  intros [[K S] P] Hc Hl Hls Hi H0. pose proof (k_rep _ _ _ K) as R. destruct (p_task _ _ _ _ P _ _ Hc) as [_ Ec]. split.
  - assert (Hw : t ∉ a_lists a g_waitingforsemaphore). { intros Hx. apply Hls. by apply (r_apart _ _ _ R _ _ _ Hl Hx). }
    assert (S1 : sem_inv (a_drop t a) (sems (kn y))) by (apply (keeps_inv [] a); [by apply keeps_drop|set_solver|done]).
    apply (sem_tasks (a_drop t a)); [done|..].
    + intros l' x [Hx _]%list_elem_of_filter. unfold waitsem_of, errno_of. simpl. by rewrite !lookup_delete_ne.
    + simpl. pose proof (pid_few _ _ _ _ P) as Hf. rewrite map_size_delete. destruct (a_tasks a !! t); simpl; lia.
  - split; simpl.
    + intros i Hi'. destruct (decide (i = PIDHASH (pid c))) as [->|]; [rewrite lookup_insert_eq; eauto|]. rewrite lookup_insert_ne by done. by apply (p_total _ _ _ _ P).
    + intros i q x. destruct (decide (i = PIDHASH (pid c))) as [->|Hne]; [rewrite lookup_insert_eq; by intros [= <- <-]|]. rewrite lookup_insert_ne by done.
      intros E Hx. destruct (p_entry _ _ _ _ P _ _ _ E Hx) as (Hh & c' & Hc' & Hq). split; [done|]. exists c'. split; [|done]. rewrite lookup_delete_ne; [done|].
      intros <-. simplify_eq.
    + intros x c' [Hx Hc']%lookup_delete_Some. destruct (p_task _ _ _ _ P _ _ Hc') as [Hr E]. split; [done|]. rewrite lookup_insert_ne; [done|].
      intros E'. rewrite <- E', Ec in E. by injection E.
    + intros x [c' [Hx Hc']%lookup_delete_Some]. destruct (p_listed _ _ _ _ P x) as [l' Hl']; [eauto|]. exists l'. by apply list_elem_of_filter.
    + intros c' [_ Hc']%lookup_delete_Some. by apply (p_idle _ _ _ _ P).
    + apply (p_last _ _ _ _ P).
Qed.

Lemma sys_terminate y a t c l : sys_ok idle y a -> a_tasks a !! t = Some c -> t ∈ a_lists a l -> l <> g_waitingforsemaphore -> t <> a_this a -> t <> idle ->
  exists k', task_terminate (pid c) (kn y) = Some (OK, k') /\ sys_ok idle (with_kern k' y) (a_delete t a) /\ sems k' = sems (kn y).
Proof.
  intros Y Hc Hl Hls Hth Hi. pose proof Y as [[K S] P]. pose proof (k_rep _ _ _ K) as R. destruct (r_alloc _ _ _ R _ _ Hl) as (H0 & _ & [c0 Hc0]).
  pose proof (r_info _ _ _ R _ _ Hc0) as Hi0. rewrite Hc in Hi0. assert (Ep : pid c0 = pid c) by (by injection Hi0 as ->).
  destruct (p_task _ _ _ _ P _ _ Hc) as [_ Ec].
  destruct (terminate_ok idle (kn y) a (pid c) t l c0 K) as (s' & E & K' & P'); [by eapply gettcb_task|done..| |rewrite Ep; eauto|].
  - rewrite Ep. intros E0. rewrite E0 in Ec. apply Hi. assert (Hin : idle ∈ a_lists a g_readytorun) by apply inv_idle_in, K.
    destruct (r_alloc _ _ _ R _ _ Hin) as (_ & _ & Hs). apply (r_known _ _ _ R) in Hs as [ci Hci].
    destruct (p_task _ _ _ _ P _ _ Hci) as [_ Ei]. rewrite (p_idle _ _ _ _ P _ Hci) in Ei. rewrite Ei in Ec. by injection Ec.
  - exists (with_sched s' (kn y)). split_and!; [done| |done]. destruct (delete_inv y a t c l Y Hc Hl Hls Hi H0) as [S' P2].
    split; [by split|]. simpl. by rewrite P', Ep.
Qed.

(** The scheduling policy of an inactive task. *)
Lemma policy_ok y a t rr : sys_ok idle y a -> t ∈ a_lists a g_inactivetasks ->
  exists s', upd_tcb t (set_policy rr) (ks (kn y)) = Some s' /\ sys_ok idle (with_ks s' y) (a_upd t (set_policy rr) a).
Proof.
  intros Y Ht. pose proof Y as [[[R [I Hp] C] S] P]. destruct (r_alloc _ _ _ R _ _ Ht) as (_ & _ & Hs).
  destruct (upd_ok [] (ks (kn y)) a t (set_policy rr) R Hs) as (m & E & R'). exists (with_tcbs m (ks (kn y))). split; [done|].
  assert (Hne : t <> a_this a). { intros ->. assert (Hx : a_this a ∈ a_lists a g_readytorun) by (by apply this_in, (inv_ready idle)). by pose proof (r_apart _ _ _ R _ _ _ Ht Hx). }
  assert (O' : sem_ok idle (with_sched (with_tcbs m (ks (kn y))) (kn y)) (a_upd t (set_policy rr) a)).
  { split; [split; [done| |done]|].
    - split; [apply inv0_upd; [done|by destruct rr|]|].
      + intros c Hc. destruct (i_fields _ _ I _ _ Hc) as [H1 H2]. destruct rr; simpl; [|done]. by split.
      + change (a_this (a_upd t (set_policy rr) a)) with (a_this a). simpl. rewrite lock_alter by (by destruct rr). done.
    - apply (keeps_inv [] a); [apply keeps_fields; by destruct rr|set_solver|done]. }
  apply (sys_same idle y a (with_sched (with_tcbs m (ks (kn y))) (kn y))); [done|done|apply same_upd; by destruct rr|done].
Qed.

(** The idle task alone. *)
Definition boot_tcb : tcb_s := mkTcb 0 0 0 TSTATE_TASK_INVALID 6 0 0 0 0.
Definition a_boot : asched := mkA (fun l => if decide (l = g_readytorun) then [idle] else []) {[ idle := boot_tcb ]}.

Lemma boot_in l t : t ∈ a_lists a_boot l -> l = g_readytorun /\ t = idle.
Proof. simpl. destruct (decide _); [intros ->%list_elem_of_singleton; done|set_solver]. Qed.

Lemma boot_task t c : a_tasks a_boot !! t = Some c -> t = idle /\ c = boot_tcb.
Proof. simpl. by intros [<- <-]%lookup_singleton_Some. Qed.

Lemma boot_inv : a_inv idle a_boot.
Proof.
  split; [split|done].
  - intros l _. simpl. destruct (decide _); repeat constructor.
  - by exists [].
  - unfold prio. simpl. by rewrite lookup_singleton_eq.
  - by intros l t [_ ->]%boot_in.
  - by intros t c [_ ->]%boot_task.
Qed.

Lemma boot_sem (mem : gset Z) : 0 ∉ mem -> sem_inv a_boot (gset_to_gmap 0 mem).
Proof.
  intros H0. split.
  - by intros sem n [_ <-]%lookup_gset_to_gmap_Some.
  - by intros sem n [_ <-]%lookup_gset_to_gmap_Some.
  - by intros t [? _]%boot_in.
  - intros l t [_ ->]%boot_in _. unfold waitsem_of. simpl. by rewrite lookup_singleton_eq.
  - by intros t [? _]%boot_in.
  - by apply lookup_gset_to_gmap_None.
  - simpl. rewrite map_size_singleton. lia.
Qed.

Lemma no_pids_entry i p t : no_pids !! i = Some (p, t) -> t = 0.
Proof. intros H%elem_of_list_to_map_2. apply list_elem_of_fmap in H as (j & [= _ _ ->] & _). done. Qed.

Lemma no_pids_total i : 0 <= i < CONFIG_MAX_TASKS -> is_Some (no_pids !! i).
Proof.
  intros Hi. unfold CONFIG_MAX_TASKS in Hi. unfold no_pids. rewrite <- elem_of_dom, dom_list_to_map_L, elem_of_list_to_set, <- list_fmap_compose, list_elem_of_fmap.
  exists (Z.to_nat i). split; [simpl; lia|]. apply elem_of_seq. unfold CONFIG_MAX_TASKS. lia.
Qed.

Lemma boot_pid : idle <> 0 -> pid_inv idle 0 (<[PIDHASH 0 := (0, idle)]> no_pids) a_boot.
Proof.
  intros H0. split.
  - intros i Hi. destruct (decide (i = PIDHASH 0)) as [->|]; [rewrite lookup_insert_eq; eauto|]. rewrite lookup_insert_ne by done. by apply no_pids_total.
  - intros i p t. destruct (decide (i = PIDHASH 0)) as [->|].
    + rewrite lookup_insert_eq. intros [= <- <-] _. split; [done|]. exists boot_tcb. split; [apply lookup_singleton_eq|done].
    + rewrite lookup_insert_ne by done. by intros ->%no_pids_entry.
  - intros t c [-> ->]%boot_task. split; [done|apply lookup_insert_eq].
  - intros t [c [-> _]%boot_task]. exists g_readytorun. by left.
  - by intros c [_ ->]%boot_task.
  - done.
Qed.

Lemma os_start_ok mem : idle <> 0 -> 0 ∉ mem -> exists y, os_start idle mem = Some y /\ sys_ok idle y a_boot /\ sems (kn y) = gset_to_gmap 0 mem.
Proof.
  intros Hi Hm. unfold os_start. cbn [TLIST_HEAD g_tasklisttable fst]. rewrite some_bind.
  destruct (dq_addfirst_rep {[ idle := mkDe 0 0 ]} dq_init [] idle (dq_rep_init _) Hi) as (q & h & E & Hq & Ho); [set_solver|rewrite lookup_singleton_eq; eauto|].
  rewrite E, some_bind. eexists. split; [done|]. split; [|done]. split; [|by apply boot_pid]. split; [|by apply boot_sem]. split; [|apply boot_inv|done]. split; simpl.
  - intros l. unfold fupd. destruct (decide (l = g_readytorun)) as [->|]; [done|apply dq_rep_init].
  - by intros l l' t [-> _]%boot_in [-> _]%boot_in.
  - rewrite (only_dom _ _ _ Ho), !dom_singleton_L. done.
  - by rewrite map_fmap_singleton.
  - by rewrite lookup_singleton_ne.
  - intros l t c [-> ->]%boot_in _. rewrite lookup_singleton_eq. intros [= <-]. simpl. unfold is_first. by rewrite bool_decide_true.
Qed.
End SystemOps2.
