(* ===== verification/Kernel.v ===== *)
(** * The kernel as a state machine

    The operations of [Sched], [Sem] and [Task] as the events of one system that starts
    with [os_start].  An event is a call by the running task, the arrival of a signal, of
    a timeout or of a timer tick; [enabled] is what the callers have to respect.

    [spec] is the kernel on lists: which event turns which task lists and counts into
    which.  Every reachable state of the code represents a state of it, every enabled
    event is defined in the code, and what it does is a step of [spec]. *)

From Stdlib Require Import Sorting.Sorted.
From S2P Require Import Prelude Queue Sched SchedInv Sem Task.

(** ** Events *)

Inductive event :=
| SemInit (sem value : Z) | SemWait (sem : Z) | SemTryWait (sem : Z) | SemPost (sem : Z)
| SemReset (sem count : Z) | SemDestroy (sem : Z)
| Signal (t : Z) | TimedOut (p : Z) | Tick
| Lock | Unlock | Yield | SetPriority (t p : Z)
| Setup (t ttype prio : Z) | Policy (t : Z) (rr : bool) | Activate (t : Z) | Terminate (p : Z).

Definition on_kern (o : option (result * kern)) (y : system) : option (result * system) := '(r, k) ← o; Some (r, with_kern k y).
Definition on_sched (o : option (Z * sched)) (y : system) : option (result * system) := '(z, s) ← o; Some (Returned z, with_ks s y).
(** Functions without a result count as successful. *)
Definition void {A} (o : option A) : option (Z * A) := x ← o; Some (OK, x).

Definition exec (e : event) (y : system) : option (result * system) :=
  let k := kn y in
  let s := ks k in
  match e with
  | SemInit sem value => on_kern (sem_init sem value k) y
  | SemWait sem => on_kern (sem_wait sem k) y
  | SemTryWait sem => on_kern (sem_trywait sem k) y
  | SemPost sem => on_kern (sem_post sem k) y
  | SemReset sem count => on_kern (sem_reset sem count k) y
  | SemDestroy sem => on_kern (sem_destroy sem k) y
  | Signal t => k ← sem_waitirq t EINTR k; Some (Returned OK, with_kern k y)
  | TimedOut p => k ← sem_timeout p k; Some (Returned OK, with_kern k y)
  | Tick => on_sched (void (sched_process_scheduler s)) y
  | Lock => on_sched (void (sched_lock false s)) y
  | Unlock => on_sched (void (sched_unlock false s)) y
  | Yield => on_sched (sched_yield s) y
  | SetPriority t p => on_sched (sched_setpriority t p s) y
  | Setup t ttype prio => '(z, y) ← thread_setup t ttype prio y; Some (Returned z, y)
  | Policy t rr => on_sched (void (upd_tcb t (set_policy rr) s)) y
  | Activate t => on_sched (task_activate t s) y
  | Terminate p => '(z, k) ← task_terminate p k; Some (Returned z, with_kern k y)
  end.

(** What holds of the state when the event happens: the semaphores exist, counts and
    nested locks have not reached their limits, the idle task does not block, only
    inactive tasks are activated, and a task that is deleted neither runs nor waits for a
    semaphore. *)
Definition enabled (idle : Z) (e : event) (y : system) : Prop :=
  let s := ks (kn y) in
  let rtcb := this_task s in
  let count sem (P : Z -> Prop) := from_option P False (sems (kn y) !! sem) in
  let state t (P : tstate_e -> Prop) := from_option (fun c => P (task_state c)) False (tcbs s !! t) in
  match e with
  | SemInit sem value => count sem (fun n => 0 <= n /\ 0 <= value <= SEM_VALUE_MAX)
  | SemWait sem => count sem (fun n => 0 < n \/ rtcb <> idle)
  | SemTryWait sem | SemDestroy sem => count sem (fun n => True)
  | SemPost sem => count sem (fun n => n < SEM_VALUE_MAX)
  | SemReset sem v => count sem (fun n => 0 <= v <= SEM_VALUE_MAX /\ lock_of (tcbs s) rtcb < 32767)
  | Signal t => is_Some (tcbs s !! t)
  | TimedOut _ | Tick | Unlock => True
  | Lock => lock_of (tcbs s) rtcb < 32767
  | Yield => rtcb <> idle
  | SetPriority t p => is_Some (tcbs s !! t) /\ t <> idle /\ SCHED_PRIORITY_MIN <= p <= SCHED_PRIORITY_MAX
  | Setup t ttype prio => t <> 0 /\ tcbs s !! t = None /\ SCHED_PRIORITY_MIN <= prio <= SCHED_PRIORITY_MAX /\ lock_of (tcbs s) rtcb < 32767
  | Policy t _ | Activate t => state t (fun st => st = TSTATE_TASK_INACTIVE)
  | Terminate p => from_option (fun t => t = 0 \/ t <> idle /\ state t (fun st => st <> TSTATE_TASK_RUNNING /\ st <> TSTATE_WAIT_SEM)) False (sched_gettcb p s)
  end.

#[export] Instance enabled_dec idle e y : Decision (enabled idle e y).
Proof.
  unfold enabled. destruct e; cbn zeta; try apply _.
  all: try (destruct (sems (kn y) !! sem); simpl; apply _).
  all: try (destruct (tcbs (ks (kn y)) !! t) as [c|]; simpl; apply _).
  destruct (sched_gettcb p (ks (kn y))) as [t|]; simpl; [|apply _]. destruct (tcbs (ks (kn y)) !! t); simpl; apply _.
Defined.

(** ** The specification *)

Inductive spec (a : asched) (m : gmap Z Z) : event -> result -> asched -> gmap Z Z -> Prop :=
| sp_init sem v : spec a m (SemInit sem v) (Returned OK) a (<[sem := v]> m)
| sp_wait sem n : m !! sem = Some n ->
    spec a m (SemWait sem) (if decide (0 < n) then Returned OK else Blocked) (a_wait sem n a) (<[sem := n - 1]> m)
| sp_trywait sem n : m !! sem = Some n -> 0 < n ->
    spec a m (SemTryWait sem) (Returned OK) (a_upd (a_this a) (set_waitsem 0) a) (<[sem := n - 1]> m)
| sp_trywait_fails sem n : m !! sem = Some n -> n <= 0 ->
    spec a m (SemTryWait sem) (Returned ERROR) (a_upd (a_this a) (set_pterrno EAGAIN) a) m
| sp_post sem n : m !! sem = Some n -> spec a m (SemPost sem) (Returned OK) (a_post sem a) (<[sem := n + 1]> m)
| sp_reset sem n count : m !! sem = Some n ->
    spec a m (SemReset sem count) (Returned OK)
      (a_unlock (a_posts (Z.to_nat (Z.min count (Z.max 0 (- n)))) sem (a_lock a))) (<[sem := if decide (0 <= n) then count else n + count]> m)
| sp_destroy sem n : m !! sem = Some n -> spec a m (SemDestroy sem) (Returned OK) a (<[sem := if decide (0 <= n) then 1 else n]> m)
| sp_signal t n : t ∈ a_lists a g_waitingforsemaphore -> m !! waitsem_of (a_tasks a) t = Some n ->
    spec a m (Signal t) (Returned OK) (a_cancel t EINTR a) (<[waitsem_of (a_tasks a) t := n + 1]> m)
| sp_signal_other t : t ∉ a_lists a g_waitingforsemaphore -> spec a m (Signal t) (Returned OK) a m
| sp_timeout t c n : a_tasks a !! t = Some c -> t ∈ a_lists a g_waitingforsemaphore -> m !! waitsem_of (a_tasks a) t = Some n ->
    spec a m (TimedOut (pid c)) (Returned OK) (a_cancel t ETIMEDOUT a) (<[waitsem_of (a_tasks a) t := n + 1]> m)
| sp_timeout_other p : (forall t c, a_tasks a !! t = Some c -> pid c = p -> t ∉ a_lists a g_waitingforsemaphore) -> spec a m (TimedOut p) (Returned OK) a m
| sp_tick : spec a m Tick (Returned OK) (a_tick a) m
| sp_lock : spec a m Lock (Returned OK) (a_lock a) m
| sp_unlock : spec a m Unlock (Returned OK) (a_unlock a) m
| sp_yield : spec a m Yield (Returned OK) (a_yield a) m
| sp_priority t l p : t ∈ a_lists a l -> spec a m (SetPriority t p) (Returned OK) (a_setpriority l t p a) m
| sp_setup t p ttype prio : 1 <= p <= 32767 -> (forall x c, a_tasks a !! x = Some c -> pid c <> p) ->
    spec a m (Setup t ttype prio) (Returned OK) (a_setup t p prio ttype a) m
| sp_setup_full t ttype prio : size (a_tasks a) = 16%nat -> spec a m (Setup t ttype prio) (Returned ERROR) (a_upd (a_this a) (set_pterrno 1) a) m
| sp_policy t rr : spec a m (Policy t rr) (Returned OK) (a_upd t (set_policy rr) a) m
| sp_activate t : t ∈ a_lists a g_inactivetasks -> spec a m (Activate t) (Returned OK) (a_unblock t a) m
| sp_terminate t c : a_tasks a !! t = Some c -> spec a m (Terminate (pid c)) (Returned OK) (a_delete t a) m
| sp_terminate_none p : (forall t c, a_tasks a !! t = Some c -> pid c <> p) -> spec a m (Terminate p) (Returned (- ESRCH)) a m.

(** ** The code implements the specification *)

(** The event is defined, and is a step of the specification. *)
Definition refines (idle : Z) (e : event) (y : system) (a : asched) : Prop :=
  exists r y' a', exec e y = Some (r, y') /\ spec a (sems (kn y)) e r a' (sems (kn y')) /\ sys_ok idle y' a'.

Section Refine.
Context (idle : Z).

Lemma on_kern_ok e y a r k' a' : sys_ok idle y a -> exec e y = Some (r, with_kern k' y) -> spec a (sems (kn y)) e r a' (sems k') ->
  sem_ok idle k' a' -> same_tasks [] a a' -> g_pidhash (ks k') = g_pidhash (ks (kn y)) -> refines idle e y a.
Proof. intros Y E S O T P. exists r, (with_kern k' y), a'. split_and!; [done|done|]. by eapply sys_same. Qed.

Lemma on_sched_ok e y a z s' a' X : sys_ok idle y a -> exec e y = Some (Returned z, with_ks s' y) -> spec a (sems (kn y)) e (Returned z) a' (sems (kn y)) ->
  k_ok idle s' a' -> keeps X a a' -> (forall x, x ∈ X -> waitsem_of (a_tasks a) x = 0) -> same_tasks [] a a' -> g_pidhash s' = g_pidhash (ks (kn y)) -> refines idle e y a.
Proof.
  intros Y E S K Hk HX T P. apply (on_kern_ok e y a (Returned z) (with_sched s' (kn y)) a'); try done. split; [done|]. eapply keeps_inv; [done|done|]. apply Y.
Qed.

Lemma count_some {P : Z -> Prop} {y : system} {sem} : from_option P False (sems (kn y) !! sem) -> exists n, sems (kn y) !! sem = Some n /\ P n.
Proof. destruct (sems (kn y) !! sem) as [n|]; simpl; [eauto|done]. Qed.

Lemma this_lock y a : sys_ok idle y a -> lock_of (a_tasks a) (a_this a) = lock_of (tcbs (ks (kn y))) (this_task (ks (kn y))).
Proof. intros [[[R _ _] _] _]. by rewrite (r_lock _ _ _ R), (r_this _ _ _ R). Qed.

Lemma sem_events y a e : sys_ok idle y a -> enabled idle e y ->
  match e with SemInit _ _ | SemWait _ | SemTryWait _ | SemPost _ | SemReset _ _ | SemDestroy _ => True | _ => False end -> refines idle e y a.
Proof.
  intros Y He Hk. pose proof Y as [O P]. destruct e; try done; simpl in He; apply count_some in He as (n & Hn & He).
  - destruct He as [H0 Hv]. destruct (sem_init_ok idle _ a sem n value O Hn H0 Hv) as (k' & E & O' & S' & P').
    eapply on_kern_ok; [done|simpl; by rewrite E|rewrite S'; constructor|done|done|by rewrite P'].
  - rewrite (r_this _ _ _ (k_rep _ _ _ (o_kern _ _ _ O))) in He. destruct (sem_wait_ok idle _ a sem n O Hn He) as (k' & E & O' & S' & P').
    eapply on_kern_ok; [done|simpl; by rewrite E|rewrite S'; by constructor|done|apply same_wait|done].
  - destruct (sem_trywait_ok idle _ a sem n O Hn) as (k' & E & O' & S' & P'). destruct (decide (0 < n)) as [Hlt|Hge].
    + eapply on_kern_ok; [done|simpl; by rewrite E|rewrite S'; by constructor|done|by apply same_upd|done].
    + eapply on_kern_ok; [done|simpl; by rewrite E|rewrite S'; apply (sp_trywait_fails _ _ _ n); [done|lia]|done|by apply same_upd|done].
  - destruct (sem_post_ok idle _ a sem n O Hn He) as (k' & E & O' & S' & P').
    eapply on_kern_ok; [done|simpl; by rewrite E|rewrite S'; by constructor|done|apply same_post|done].
  - destruct He as [Hc Hl]. rewrite <- (this_lock y a) in Hl by done. destruct (sem_reset_ok idle _ a sem n count O Hn Hc Hl) as (k' & E & O' & S' & P').
    eapply on_kern_ok; [done|simpl; by rewrite E|rewrite S'; by constructor|done| |done].
    eapply same_trans; [|apply same_unlock]. eapply same_trans; [|apply same_posts]. by apply same_upd.
  - destruct (sem_destroy_ok idle _ a sem n O Hn) as (k' & E & O' & S' & P').
    eapply on_kern_ok; [done|simpl; by rewrite E|rewrite S'; by constructor|done|done|by rewrite P'].
Qed.

(** The end of a wait: by a signal or by a timeout. *)
Lemma gave_up_same t e k a k' a' : gave_up t e k a k' a' -> same_tasks [] a a'.
Proof. unfold gave_up. destruct (decide _); [intros [E _]|by intros [_ ->]]. eapply same_trans; [apply same_cancel|]. apply same_eq. by symmetry. Qed.

Lemma wake_events y a e : sys_ok idle y a -> enabled idle e y -> match e with Signal _ | TimedOut _ => True | _ => False end -> refines idle e y a.
Proof.
  intros Y He Hk. pose proof Y as [O P]. destruct e; try done; simpl in He.
  - destruct He as [c Hc]. destruct (state_list idle y a t c Y Hc) as (l & Hl & _). destruct (sem_waitirq_ok idle _ a l t EINTR O Hl) as (k' & a' & E & O' & G & P').
    pose proof (gave_up_same _ _ _ _ _ _ G) as T. unfold gave_up in G. destruct (decide _) as [Hw|Hw].
    + destruct G as [Ea (n & Hn & _ & S')]. apply (on_kern_ok _ y a (Returned OK) k' (a_cancel t EINTR a)); [done|simpl; by rewrite E|rewrite S'; by constructor| |apply same_cancel|done].
      by apply (sem_ok_proper idle k' a').
    + destruct G as [-> ->]. apply (on_kern_ok _ y a (Returned OK) (kn y) a); [done|simpl; by rewrite E|by apply sp_signal_other|done|done|done].
  - assert (Hp : pids_ok (ks (kn y)) a). { intros q. destruct (gettcb_ok idle y a q Y) as (t & Et & Ht). exists t. split; [done|]. destruct Ht as [?|(c & l & _ & _ & ?)]; eauto. }
    destruct (sem_timeout_ok idle _ a p O Hp) as (t & k' & a' & Et & E & O' & G & P'). destruct (gettcb_ok idle y a p Y) as (t' & Et' & Ht). rewrite Et in Et'. injection Et' as <-.
    unfold gave_up in G. destruct (decide _) as [Hw|Hw].
    + destruct Ht as [-> | (c & l & Hc & <- & Hl)]; [by destruct (r_alloc _ _ _ (k_rep _ _ _ (o_kern _ _ _ O)) _ _ Hw)|].
      destruct G as [Ea (n & Hn & _ & S')]. apply (on_kern_ok _ y a (Returned OK) k' (a_cancel t ETIMEDOUT a)); [done|simpl; by rewrite E|rewrite S'; by constructor| |apply same_cancel|done].
      by apply (sem_ok_proper idle k' a').
    + destruct G as [-> ->]. apply (on_kern_ok _ y a (Returned OK) (kn y) a); [done|simpl; by rewrite E| |done|done|done].
      apply sp_timeout_other. intros t' c Hc <- Hx. rewrite (gettcb_task idle y a t' c Y Hc) in Et. injection Et as <-. done.
Qed.
End Refine.

Section Refine2.
Context (idle : Z).

(** A task of another list does not wait for a semaphore. *)
Lemma not_waiting y a l t : sys_ok idle y a -> t ∈ a_lists a l -> l <> g_waitingforsemaphore -> t ∉ a_lists a g_waitingforsemaphore /\ waitsem_of (a_tasks a) t = 0.
Proof.
  intros [[[R _ _] S] _] Ht Hl. split; [|by eapply (s_free _ _ S)]. intros Hx. apply Hl. by apply (r_apart _ _ _ R _ _ _ Ht Hx).
Qed.

Lemma this_ready y a : sys_ok idle y a -> a_this a ∈ a_lists a g_readytorun.
Proof. intros [[[_ [I _] _] _] _]. by apply this_in, (inv_ready idle). Qed.

Lemma keeps_unblock t a : t ∉ a_lists a g_waitingforsemaphore -> keeps [t] a (a_unblock t a).
Proof. intros Ht. unfold a_unblock. etrans; [by apply keeps_drop|]. etrans; [apply keeps_add; by left|apply keeps_switch]. Qed.

Lemma keeps_strict t a a' : keeps [t] a a' -> (forall l, l <> g_waitingforsemaphore -> t ∉ a_lists a' l) -> keeps [] a a'.
Proof.
  intros Hk H. split; try apply Hk. intros l x Hx Hl. destruct (kp_other _ _ _ Hk l x Hx Hl) as [->%list_elem_of_singleton|?]; [by destruct (H l)|by right].
Qed.

Lemma setpriority_event y a t l p : sys_ok idle y a -> t ∈ a_lists a l -> t <> idle -> SCHED_PRIORITY_MIN <= p <= SCHED_PRIORITY_MAX ->
  exists s', sched_setpriority t p (ks (kn y)) = Some (OK, s') /\ k_ok idle s' (a_setpriority l t p a) /\ g_pidhash s' = g_pidhash (ks (kn y)) /\
    exists X, keeps X a (a_setpriority l t p a) /\ forall x, x ∈ X -> waitsem_of (a_tasks a) x = 0.
Proof.
  intros Y Ht Hi Hp. pose proof Y as [[K S] _]. destruct (setpriority_ok idle _ a t l p K Ht Hi Hp) as (s' & E & K' & P'). exists s'. split_and!; [done|done|done|].
  destruct (decide (l = g_waitingforsemaphore)) as [->|Hl].
  - exists []. split; [|set_solver]. apply (keeps_strict t); [apply keeps_setpriority; [apply (r_nodup _ _ _ (k_rep _ _ _ K))|done|done]|].
    intros l Hl. cbn. unfold fupd. rewrite decide_False by done. apply (drop_detached t a l).
  - exists [t]. destruct (not_waiting y a l t Y Ht Hl) as [H1 H2]. split; [|by intros x ->%list_elem_of_singleton].
    apply keeps_setpriority; [apply (r_nodup _ _ _ (k_rep _ _ _ K))|done|done].
Qed.

Lemma sched_events y a e : sys_ok idle y a -> enabled idle e y ->
  match e with Tick | Lock | Unlock | Yield | SetPriority _ _ | Policy _ _ | Activate _ => True | _ => False end -> refines idle e y a.
Proof.
  intros Y He Hk. pose proof Y as [[K S] P]. pose proof (this_ready y a Y) as Hin. destruct (not_waiting y a _ _ Y Hin ltac:(done)) as [Hw Hw0].
  destruct e; try done; simpl in He.
  - destruct (tick_ok idle _ a K) as (s' & E & K' & P'). eapply (on_sched_ok idle _ _ _ _ s' _ [a_this a]); [done|simpl; by rewrite E|constructor|done|by apply keeps_tick| |apply same_tick|done].
    by intros x ->%list_elem_of_singleton.
  - rewrite <- (this_lock idle y a Y) in He. destruct (lock_ok idle _ a K He) as (s' & E & K' & P').
    eapply (on_sched_ok idle _ _ _ _ s' _ []); [done|simpl; by rewrite E|constructor|done|apply keeps_lock|set_solver|by apply same_upd|done].
  - destruct (unlock_ok idle _ a K) as (s' & E & K' & P').
    eapply (on_sched_ok idle _ _ _ _ s' _ []); [done|simpl; by rewrite E|constructor|done|apply keeps_unlock|set_solver|apply same_unlock|done].
  - rewrite (r_this _ _ _ (k_rep _ _ _ K)) in He. destruct (yield_ok idle _ a K He) as (s' & E & K' & P').
    eapply (on_sched_ok idle _ _ _ _ s' _ [a_this a]); [done|simpl; by rewrite E|constructor|done| | |apply same_setpriority|done].
    + apply keeps_setpriority; [apply (r_nodup _ _ _ (k_rep _ _ _ K))|done|done].
    + by intros x ->%list_elem_of_singleton.
  - destruct He as ([c Hc] & Hi & Hp). destruct (state_list idle y a t c Y Hc) as (l & Hl & _).
    destruct (setpriority_event y a t l p Y Hl Hi Hp) as (s' & E & K' & P' & X & Hk' & HX).
    eapply (on_sched_ok idle _ _ _ _ s' _ X); [done|simpl; by rewrite E|by constructor|done|done|done|apply same_setpriority|done].
  - destruct (tcbs (ks (kn y)) !! t) as [c|] eqn:Hc; [|done]. simpl in He. destruct (state_list idle y a t c Y Hc) as (l & Hl & El). rewrite He in El.
    assert (l = g_inactivetasks) as -> by (destruct l; try done; simpl in El; by destruct (is_first _ _)).
    destruct (policy_ok idle y a t rr Y Hl) as (s' & E & Y'). exists (Returned OK), (with_ks s' y), (a_upd t (set_policy rr) a). split_and!; [simpl; by rewrite E|constructor|done].
  - destruct (tcbs (ks (kn y)) !! t) as [c|] eqn:Hc; [|done]. simpl in He. destruct (state_list idle y a t c Y Hc) as (l & Hl & El). rewrite He in El.
    assert (l = g_inactivetasks) as -> by (destruct l; try done; simpl in El; by destruct (is_first _ _)).
    destruct (not_waiting y a _ _ Y Hl ltac:(done)) as [Ht Ht0]. destruct (unblock_ok idle _ a t _ K Hl) as (s' & E & K' & P'); [done|done|].
    eapply (on_sched_ok idle _ _ _ _ s' _ [t]); [done|simpl; unfold task_activate; by rewrite E|by constructor|done|by apply keeps_unblock| |apply same_unblock|done].
    by intros x ->%list_elem_of_singleton.
Qed.

Lemma full_size last h a : pid_inv idle last h a -> full h -> size (a_tasks a) = 16%nat.
Proof.
  intros P Hf. pose proof (pid_few _ _ _ _ P) as Hle. set (f := fun i => from_option snd 0 (h !! i)).
  assert (Hge : (length (f <$> seqZ 0 16) <= size (a_tasks a))%nat); [|rewrite length_fmap, length_seqZ in Hge; lia]. apply size_bound.
  - apply NoDup_fmap_2_strong; [|apply NoDup_seqZ]. intros i j Hi%elem_of_seqZ Hj%elem_of_seqZ E.
    destruct (Hf i) as (p & t & Ei & Ht); [done|]. destruct (Hf j) as (q & t' & Ej & Ht'); [done|]. unfold f in E. rewrite Ei, Ej in E. simpl in E. subst t'.
    destruct (p_entry _ _ _ _ P _ _ _ Ei Ht) as (<- & c & Hc & Hp). destruct (p_entry _ _ _ _ P _ _ _ Ej Ht') as (<- & c' & Hc' & Hq). by simplify_eq.
  - intros t (i & -> & Hi%elem_of_seqZ)%list_elem_of_fmap. destruct (Hf i) as (p & t & Ei & Ht); [done|]. unfold f. rewrite Ei. simpl.
    destruct (p_entry _ _ _ _ P _ _ _ Ei Ht) as (_ & c & Hc & _). eauto.
Qed.

Lemma task_events y a e : sys_ok idle y a -> enabled idle e y -> match e with Setup _ _ _ | Terminate _ => True | _ => False end -> refines idle e y a.
Proof.
  intros Y He Hk. pose proof Y as [[K S] P]. destruct e; try done; simpl in He.
  - destruct He as (H0 & Hn & Hp & Hl). rewrite <- (this_lock idle y a Y) in Hl.
    destruct (thread_setup_ok idle y a t ttype prio Y H0 Hn Hl Hp) as [(p & y' & Hr & [p' Hfree] & E & Y' & _ & S')|(Hf & y' & E & Y' & S')].
    + exists (Returned OK), y', (a_setup t p prio ttype a). split_and!; [simpl; by rewrite E|rewrite S'; apply sp_setup; [lia|]|done].
      intros x c Hx Hpid. destruct (p_task _ _ _ _ P _ _ Hx) as [_ Ex]. rewrite Hpid, Hfree in Ex. injection Ex as _ <-.
      destruct (r_link _ _ _ (k_rep _ _ _ K) 0) as [[] _]; [|done]. apply (r_known _ _ _ (k_rep _ _ _ K)). eauto.
    + exists (Returned ERROR), y', (a_upd (a_this a) (set_pterrno 1) a). split_and!; [simpl; by rewrite E|rewrite S'; apply sp_setup_full|done]. by eapply full_size.
  - destruct (gettcb_ok idle y a p Y) as (t & Et & Ht). rewrite Et in He. simpl in He. destruct (decide (t = 0)) as [->|Ht0].
    + exists (Returned (- ESRCH)), y, a. split_and!; [| |done].
      * simpl. unfold task_terminate. rewrite Et. simpl. by destruct y.
      * apply sp_terminate_none. intros x c Hx <-. rewrite (gettcb_task idle y a x c Y Hx) in Et. injection Et as ->.
        destruct (r_link _ _ _ (k_rep _ _ _ K) 0) as [[] _]; [|done]. apply (r_known _ _ _ (k_rep _ _ _ K)). eauto.
    + destruct Ht as [?|(c & l & Hc & <- & Hl)]; [done|]. destruct He as [?|[Hi He]]; [done|]. destruct (tcbs (ks (kn y)) !! t) as [c0|] eqn:Hc0; [|done]. simpl in He.
      assert (Est : task_state c0 = list_state l (is_first t (a_lists a l))) by (eapply (r_state _ _ _ (k_rep _ _ _ K)); [done|set_solver|done]). rewrite Est in He.
      destruct (sys_terminate idle y a t c l Y Hc Hl) as (k' & E & Y' & S'); [by intros ->; destruct He| |done|].
      * intros Hth. destruct He as [He _]. apply He. assert (l = g_readytorun) as ->. { eapply (r_apart _ _ _ (k_rep _ _ _ K)); [done|]. rewrite Hth. by apply (this_ready y). }
        simpl. unfold is_first. rewrite bool_decide_true; [done|]. by rewrite Hth.
      * exists (Returned OK), (with_kern k' y), (a_delete t a). split_and!; [simpl; by rewrite E| |done]. simpl. rewrite S'. by constructor.
Qed.

Lemma exec_refines y a e : sys_ok idle y a -> enabled idle e y -> refines idle e y a.
Proof. intros Y He. destruct e; first [by apply sem_events | by apply wake_events | by apply sched_events | by apply task_events]. Qed.
End Refine2.

(** ** Runs *)

(** The events one after the other, as long as they are enabled: their results. *)
Fixpoint run (idle : Z) (es : list event) (y : system) : option (list result * system) :=
  match es with
  | [] => Some ([], y)
  | e :: es =>
    if decide (enabled idle e y) then '(r, y) ← exec e y; '(rs, y) ← run idle es y; Some (r :: rs, y) else None
  end.

Inductive reachable (idle : Z) (mem : gset Z) : system -> Prop :=
| reach_start y : os_start idle mem = Some y -> reachable idle mem y
| reach_step y e r y' : reachable idle mem y -> enabled idle e y -> exec e y = Some (r, y') -> reachable idle mem y'.

Inductive a_run : asched -> gmap Z Z -> list event -> list result -> asched -> gmap Z Z -> Prop :=
| a_done a m : a_run a m [] [] a m
| a_more a m e r a1 m1 es rs a2 m2 : spec a m e r a1 m1 -> a_run a1 m1 es rs a2 m2 -> a_run a m (e :: es) (r :: rs) a2 m2.

(** The tasks of a list, found along the links. *)
Fixpoint walk (fuel : nat) (h : dq_heap) (p : Z) : option (list Z) :=
  match fuel with
  | O => None
  | S fuel' => if decide (p = 0) then Some [] else e ← h !! p; l ← walk fuel' h (flink e); Some (p :: l)
  end.
Definition tasks_in (l : tasklist) (y : system) : option (list Z) :=
  let s := ks (kn y) in walk (S (size (tcb_links s))) (tcb_links s) (dq_head (queues s l)).

Lemma walk_ok fuel h b l : dseg h b l 0 -> (length l < fuel)%nat -> walk fuel h (fst_of 0 l) = Some l.
Proof.
  revert b l; induction fuel as [|fuel IH]; intros b l Hs Hf; [lia|]. destruct l as [|x l]; simpl; [done|].
  destruct Hs as (H0 & Hl & Hs). rewrite decide_False by done. rewrite Hl. simpl. rewrite (IH x l Hs) by (simpl in Hf; lia). done.
Qed.

Section Reach.
Context (idle : Z) (mem : gset Z) (Hidle : idle <> 0) (Hmem : 0 ∉ mem).

Lemma reach_ok y : reachable idle mem y -> exists a, sys_ok idle y a.
Proof.
  induction 1 as [y E|y e r y' _ [a Y] He E].
  - destruct (os_start_ok idle mem Hidle Hmem) as (y' & E' & Y & _). rewrite E in E'. injection E' as <-. eauto.
  - destruct (exec_refines idle y a e Y He) as (r' & y'' & a' & E' & _ & Y'). rewrite E in E'. injection E' as _ <-. eauto.
Qed.

Lemma run_reachable es : forall y rs y', reachable idle mem y -> run idle es y = Some (rs, y') -> reachable idle mem y'.
Proof.
  induction es as [|e es IH]; intros y rs y' Hr; simpl; [by intros [= _ <-]|]. destruct (decide _) as [He|]; [|done].
  destruct (exec e y) as [[r y1]|] eqn:E; [|done]. simpl. destruct (run idle es y1) as [[rs1 y2]|] eqn:E1; [|done]. simpl. intros [= _ <-].
  eapply IH; [|done]. by eapply reach_step.
Qed.

Lemma tasks_ok y a l : sys_ok idle y a -> tasks_in l y = Some (a_lists a l).
Proof.
  intros [[[R _ _] _] _]. unfold tasks_in. destruct (r_q _ _ _ R l) as (Eh & _ & Hs & _). rewrite Eh. apply (walk_ok _ _ 0); [done|].
  pose proof (r_size _ _ _ R l _ eq_refl). lia.
Qed.
End Reach.

(** ** What holds in every state *)

(** Every block is in exactly one list, the one of its state; the ids name the blocks. *)
Record lists_good (y : system) (L : tasklist -> list Z) : Prop := {
  g_lists l : tasks_in l y = Some (L l);
  g_nodup l : NoDup (L l);
  g_apart l l' t : t ∈ L l -> t ∈ L l' -> l = l';
  g_state t c : tcbs (ks (kn y)) !! t = Some c -> exists l, t ∈ L l /\ task_state c = list_state l (is_first t (L l));
  g_known l t : t ∈ L l -> is_Some (tcbs (ks (kn y)) !! t);
  g_pid t c : tcbs (ks (kn y)) !! t = Some c -> 0 <= pid c <= 32767 /\ sched_gettcb (pid c) (ks (kn y)) = Some t;
  g_few : (size (tcbs (ks (kn y))) <= 16)%nat
}.

(** The order of the lists, the running task, the pending tasks and the counts. *)
Record sched_good (idle : Z) (y : system) (L : tasklist -> list Z) : Prop := {
  g_sorted l : prioritized l = true -> sorted (tcbs (ks (kn y))) (L l);
  g_running : fst_of 0 (L g_readytorun) = current (ks (kn y));
  g_idle : exists r, L g_readytorun = r ++ [idle];
  g_pending : L g_pendingtasks <> [] -> 0 < lock_of (tcbs (ks (kn y))) (current (ks (kn y)));
  g_count sem n : sems (kn y) !! sem = Some n ->
    Z.of_nat (length (filter (fun t => waitsem_of (tcbs (ks (kn y))) t = sem) (L g_waitingforsemaphore))) = Z.max 0 (- n);
  g_sems sem n : sems (kn y) !! sem = Some n -> n <= SEM_VALUE_MAX
}.

Section Good.
Context (idle : Z).

Lemma lists_good_ok y a : sys_ok idle y a -> lists_good y (a_lists a).
Proof.
  intros Y. pose proof Y as [[[R I C] S] P]. split.
  - intros l. by apply (tasks_ok idle).
  - apply (r_nodup _ _ _ R).
  - apply (r_apart _ _ _ R).
  - intros t c Hc. by apply (state_list idle y).
  - intros l t Ht. by apply (r_alloc _ _ _ R l).
  - intros t c Hc. pose proof (r_info _ _ _ R _ _ Hc) as Hi. split; [by apply (p_task _ _ _ _ P _ _ Hi)|]. by apply (gettcb_task idle y a t (info c)).
  - rewrite <- (map_size_fmap info), (r_tasks _ _ _ R). by eapply pid_few.
Qed.

Lemma waitsem_tasks X s a t : rep X s a -> waitsem_of (tcbs s) t = waitsem_of (a_tasks a) t.
Proof. intros R. unfold waitsem_of. rewrite <- (r_tasks _ _ _ R), lookup_fmap. by destruct (tcbs s !! t). Qed.

Lemma waiters_tasks y a sem : sys_ok idle y a -> filter (fun t => waitsem_of (tcbs (ks (kn y))) t = sem) (a_lists a g_waitingforsemaphore) = waiters sem a.
Proof. intros [[[R _ _] _] _]. unfold waiters. apply filter_agree. intros x _. by rewrite (waitsem_tasks _ _ _ _ R). Qed.

Lemma sched_good_ok y a : sys_ok idle y a -> sched_good idle y (a_lists a).
Proof.
  intros Y. pose proof Y as [[[R [I Hp] C] S] P]. split.
  - intros l Hl. eapply sorted_ext; [|by apply (i_sorted _ _ I)]. intros x _. apply (r_prio _ _ _ R).
  - done.
  - apply (i_idle _ _ I).
  - intros Hn. rewrite C, <- (r_lock _ _ _ R). by apply Hp.
  - intros sem n Hn. rewrite (waiters_tasks y a sem Y). by apply (s_count _ _ S).
  - apply (s_range _ _ S).
Qed.
End Good.
