(* ===== verification/KernelProps.v ===== *)
(** * Properties of the kernel

    What a caller relies on, in every state that the system can reach from [os_start]:
    the shape of the task lists, that no enabled event is undefined, who runs, who is
    woken, how long a section without pre-emption and a time slice last, and what goes
    wrong when a waiting task is deleted. *)

From Stdlib Require Import Sorting.Sorted.
From S2P Require Import Prelude Queue Sched SchedInv Sem Task Kernel.

(** ** Sections without pre-emption *)

(** [x] runs and has pre-emption disabled. *)
Definition head_locked (x : Z) (a : asched) : Prop :=
  (exists k, a_lists a g_readytorun = x :: k) /\ x ∉ a_lists a g_waitingforsemaphore /\ 0 < lock_of (a_tasks a) x.

Lemma hl_this x a : head_locked x a -> a_this a = x.
Proof. intros [[k E] _]. unfold a_this. by rewrite E. Qed.

Lemma hl_upd x t f a : head_locked x a -> (forall c, lockcount (f c) = lockcount c) -> head_locked x (a_upd t f a).
Proof. intros (H1 & H2 & H3) Hf. split_and!; [done|done|]. simpl. by rewrite lock_alter. Qed.

Lemma hl_switch x t a : head_locked x a -> head_locked x (a_switch t a).
Proof. intros H. unfold a_switch. destruct (decide _); [done|]. by apply hl_upd. Qed.

Lemma hl_drop x t a : head_locked x a -> t <> x -> head_locked x (a_drop t a).
Proof.
  intros ([k E] & H2 & H3) Ht. split_and!; [|simpl; unfold remove_node; rewrite list_elem_of_filter; tauto|done].
  exists (remove_node t k). simpl. rewrite E. unfold remove_node. rewrite filter_cons. by rewrite decide_True by congruence.
Qed.

Lemma hl_add x t a : head_locked x a -> head_locked x (a_add t a).
Proof.
  intros H. pose proof (hl_this x a H) as Ex. destruct H as ([k E] & H2 & H3). unfold a_add. rewrite Ex. destruct (decide _) as [Hd|Hd]; split_and!; simpl; try done.
  - by exists k.
  - unfold fupd. simpl. rewrite E. unfold place. simpl. rewrite decide_True by lia. by eexists.
Qed.

Lemma hl_unblock x t a : head_locked x a -> t <> x -> head_locked x (a_unblock t a).
Proof. intros H Ht. unfold a_unblock. apply hl_switch, hl_add. by apply hl_drop. Qed.

Lemma hl_waiter x t a : head_locked x a -> t ∈ a_lists a g_waitingforsemaphore -> t <> x.
Proof. intros (_ & H & _) Ht ->. done. Qed.

Lemma hl_post x sem a : head_locked x a -> head_locked x (a_post sem a).
Proof.
  intros H. unfold a_post. destruct (waiters sem a) as [|w ws] eqn:E; [done|]. apply hl_unblock; [by apply hl_upd|]. apply (hl_waiter x w a H).
  assert (Hw : w ∈ waiters sem a) by (rewrite E; by left). by apply list_elem_of_filter in Hw as [_ ?].
Qed.

Lemma hl_posts x n sem a : head_locked x a -> head_locked x (a_posts n sem a).
Proof. revert a; induction n as [|n IH]; intros a H; simpl; [done|]. by apply IH, hl_post. Qed.

Lemma hl_reprio x t p a : head_locked x a -> t <> x -> head_locked x (a_reprio t p a).
Proof.
  intros H Ht. assert (H' : head_locked x (a_add t (a_upd t (set_priority p) (a_drop t a)))) by (apply hl_add, hl_upd; [by apply hl_drop|done]).
  unfold a_reprio. rewrite (hl_this _ _ H'), (hl_this _ _ H). by rewrite decide_True.
Qed.

Lemma hl_setpriority x l t p a : head_locked x a -> t <> x -> a_this (a_setpriority l t p a) = x.
Proof.
  intros H Ht. assert (H1 : forall l', l' <> g_readytorun -> a_this (let a1 := a_upd t (set_priority p) (a_drop t a) in
    if prioritized l' then a_with l' (place (a_tasks a1) t (a_lists a1 l')) a1 else a_upd t (set_priority p) a) = x).
  { intros l' Hl. cbv zeta. destruct (prioritized l'); [|by apply hl_this, hl_upd]. rewrite <- (hl_this x (a_drop t a)) by (by apply hl_drop).
    unfold a_this. simpl. unfold fupd. by rewrite decide_False by congruence. }
  unfold a_setpriority. destruct l; try by apply (H1 _). rewrite decide_False by (rewrite (hl_this _ _ H); tauto). by apply hl_this, hl_reprio.
Qed.

Lemma hl_tick x a : head_locked x a -> a_this (a_tick a) = x.
Proof.
  intros H. pose proof (hl_this x a H) as Ex. destruct H as (_ & _ & Hl). unfold a_tick. rewrite Ex. destruct (a_tasks a !! x) as [c|] eqn:Ec; [|done].
  rewrite (lock_some _ _ _ Ec) in Hl. destruct (is_rr c); [|done]. rewrite decide_False by lia. exact Ex.
Qed.

(** Locking and unlocking around calls, from a section without pre-emption. *)
Lemma hl_reset x n sem a c : head_locked x a -> a_tasks a !! x = Some c -> lockcount c < 32767 -> (forall y, lock_of (a_tasks (a_posts n sem (a_lock a))) y = lock_of (a_tasks (a_lock a)) y) ->
  a_this (a_unlock (a_posts n sem (a_lock a))) = x.
Proof.
  intros H Hc Hlt Hk. pose proof (hl_this x a H) as Ex. pose proof H as (H1 & H2 & H3). rewrite (lock_some _ _ _ Hc) in H3.
  assert (El : lock_of (a_tasks (a_lock a)) x = lockcount c + 1). { unfold a_lock. rewrite Ex. simpl. rewrite (lock_at _ _ _ c Hc). simpl. apply s16_id. lia. }
  assert (H' : head_locked x (a_posts n sem (a_lock a))). { apply hl_posts. split_and!; [done|done|]. rewrite El. lia. }
  unfold a_unlock. rewrite (hl_this _ _ H'), Hk, El. rewrite decide_False by lia. apply (hl_this _ _ H').
Qed.

Lemma posts_lock n sem : forall a y, lock_of (a_tasks (a_posts n sem a)) y = lock_of (a_tasks a) y.
Proof.
  induction n as [|n IH]; intros a y; simpl; [done|]. rewrite IH. unfold a_post. destruct (waiters sem a) as [|w ws]; [done|]. unfold a_unblock.
  rewrite lock_switch, tasks_add. simpl. by rewrite lock_alter.
Qed.

(** The events by which the running task itself gives up the processor. *)
Definition gives_way (cur : Z) (e : event) : Prop :=
  match e with SemWait _ | Unlock | Yield => True | SetPriority t _ => t = cur | _ => False end.

Lemma running_locked idle y a : sys_ok idle y a -> 0 < lock_of (tcbs (ks (kn y))) (current (ks (kn y))) -> head_locked (current (ks (kn y))) a.
Proof.
  intros Y Hl. pose proof Y as [[[R [I _] C] S] P]. rewrite C in *. split_and!.
  - apply (this_cons a), (inv_ready idle), I.
  - by apply (not_waiting idle y a g_readytorun); [|apply (this_ready idle y)|].
  - by rewrite (r_lock _ _ _ R).
Qed.

Lemma spec_locked idle y a e r a' m' : sys_ok idle y a -> enabled idle e y -> 0 < lock_of (tcbs (ks (kn y))) (current (ks (kn y))) ->
  ~ gives_way (current (ks (kn y))) e -> spec a (sems (kn y)) e r a' m' -> a_this a' = current (ks (kn y)).
Proof.
  intros Y He Hl Hg Hs. pose proof (running_locked idle y a Y Hl) as H. pose proof (hl_this _ _ H) as Hx. set (x := current (ks (kn y))) in *.
  assert (Hw : forall t, t ∈ a_lists a g_waitingforsemaphore -> t <> x) by (intros t; by apply hl_waiter).
  destruct Hs; simpl in Hg; try done; try (by apply hl_this, hl_upd); try (by exfalso; apply Hg).
  - by apply hl_this, hl_post.
  - pose proof Y as [[K _] _]. destruct (this_some idle _ a K) as [c Hc]. rewrite Hx in Hc. simpl in He. apply count_some in He as (n' & _ & _ & Hlt).
    rewrite <- (this_lock idle y a Y), Hx, (lock_some _ _ _ Hc) in Hlt. apply (hl_reset x _ sem a c); [done|done|lia|]. intros z. apply posts_lock.
  - apply hl_this. apply hl_unblock; [|by apply Hw]. by apply hl_upd; [apply hl_upd|].
  - apply hl_this. apply hl_unblock; [|by apply Hw]. by apply hl_upd; [apply hl_upd|].
  - by apply hl_tick.
  - by apply hl_setpriority.
  - apply hl_this, hl_unblock; [done|]. intros ->. pose proof Y as [[[R _ _] _] _]. rewrite <- Hx in H0. by pose proof (r_apart _ _ _ R _ _ _ H0 (this_ready idle y a Y)).
  - assert (Ht : t <> x); [|by apply (hl_this x (a_drop t a)), hl_drop]. intros ->. simpl in He. rewrite (gettcb_task idle y a x c Y H0) in He. simpl in He.
    pose proof Y as [[K _] _]. pose proof (k_rep _ _ _ K) as R. destruct He as [->|[_ He]].
    + by destruct (r_alloc _ _ _ R _ _ (this_ready idle y a Y)); rewrite Hx in *.
    + destruct (tcbs (ks (kn y)) !! x) as [c0|] eqn:Hc0; [|done]. simpl in He. destruct He as [He _]. apply He.
      rewrite (r_state _ _ _ R g_readytorun x c0); [|rewrite <- Hx; by apply (this_ready idle y)|set_solver|done]. simpl. unfold is_first. fold (a_this a). by rewrite bool_decide_true.
Qed.

(** ** Time slices *)



Lemma remove_head t k : t ∉ k -> remove_node t (t :: k) = k.
Proof. intros H. unfold remove_node. rewrite filter_cons. rewrite decide_False by (intros Hn; by apply Hn). by apply remove_node_notin. Qed.


(** ** Waking up *)

Lemma unblock_waiting t a : a_lists (a_unblock t a) g_waitingforsemaphore = remove_node t (a_lists a g_waitingforsemaphore).
Proof. unfold a_unblock. by rewrite switch_lists, lists_add. Qed.

Lemma unblock_errno t a x : errno_of (a_tasks (a_unblock t a)) x = errno_of (a_tasks a) x.
Proof.
  unfold a_unblock, a_switch. destruct (decide _); [by rewrite tasks_add|]. cbn [a_tasks a_upd]. rewrite errno_alter by (by right). by rewrite tasks_add.
Qed.

Lemma unblock_waitsem t a x : waitsem_of (a_tasks (a_unblock t a)) x = waitsem_of (a_tasks a) x.
Proof.
  unfold a_unblock, a_switch. destruct (decide _); [by rewrite tasks_add|]. cbn [a_tasks a_upd]. rewrite waitsem_alter by done. by rewrite tasks_add.
Qed.

(** Who runs after a task was made ready. *)
Lemma unblock_this t a k : a_lists a g_readytorun = a_this a :: k -> t <> a_this a ->
  a_this (a_unblock t a) = if decide (lock_of (a_tasks a) (a_this a) <= 0 /\ prio (a_tasks a) (a_this a) < prio (a_tasks a) t) then t else a_this a.
Proof.
  intros Ek Ht. unfold a_unblock. rewrite this_switch. unfold a_add. rewrite this_drop by done. cbn [a_tasks a_drop].
  assert (Ed : a_lists (a_drop t a) g_readytorun = a_this a :: remove_node t k).
  { simpl. rewrite Ek. unfold remove_node. rewrite filter_cons. by rewrite decide_True by congruence. }
  assert (E1 : forall b P, a_this (a_with g_pendingtasks P b) = a_this b) by done.
  assert (E2 : forall b P, a_this (a_with g_readytorun P b) = fst_of 0 P) by done.
  destruct (decide (0 < _ /\ _)) as [Hd|Hd].
  - rewrite decide_False by lia. rewrite E1. by apply this_drop.
  - rewrite E2, Ed. destruct (decide (lock_of _ _ <= 0 /\ _)) as [Hp|Hp].
    + unfold place. simpl. by rewrite decide_False by lia.
    + apply place_head. lia.
Qed.

Lemma wait_return k a t : rep [] (ks k) a -> is_Some (tcbs (ks k) !! t) ->
  sem_wait_return t k = Some (if decide (errno_of (a_tasks a) t <> EINTR /\ errno_of (a_tasks a) t <> ETIMEDOUT) then OK else ERROR).
Proof. intros R [c Hc]. unfold sem_wait_return, errno_of. by rewrite Hc, (r_info _ _ _ R _ _ Hc). Qed.

Lemma sorted_filter_head m (P : Z -> Prop) `{!forall x, Decision (P x)} l w rest : sorted m l -> filter P l = w :: rest -> forall x, x ∈ rest -> prio m x <= prio m w.
Proof.
  unfold sorted. induction l as [|y l IH]; [done|]. intros [Hs Hy]%StronglySorted_inv. rewrite filter_cons. destruct (decide (P y)); [|auto].
  intros [= -> <-] x Hx. apply list_elem_of_filter in Hx as [_ Hx]. by eapply Forall_forall in Hy.
Qed.

(** The tasks that have not yet got a count. *)
Lemma post_waiters sem a w ws : NoDup (a_lists a g_waitingforsemaphore) -> sem <> 0 -> waiters sem a = w :: ws ->
  waiters sem (a_post sem a) = ws /\ a_lists (a_post sem a) g_waitingforsemaphore = remove_node w (a_lists a g_waitingforsemaphore).
Proof.
  intros Hnd H0 E. unfold a_post. rewrite E. rewrite unblock_waiting. split; [|done]. unfold waiters. rewrite unblock_waiting. cbn [a_lists a_upd].
  assert (Hw : w ∉ ws). { pose proof (NoDup_filter (fun t => waitsem_of (a_tasks a) t = sem) _ Hnd) as Hn. unfold waiters in E. rewrite E in Hn. by apply NoDup_cons in Hn as [? _]. }
  unfold remove_node. rewrite list_filter_filter. transitivity (filter (fun x => x <> w) (waiters sem a)).
  - unfold waiters. rewrite list_filter_filter. apply filter_agree. intros x _.
    assert (Ew : x <> w -> waitsem_of (a_tasks (a_unblock w (a_upd w (set_waitsem 0) a))) x = waitsem_of (a_tasks a) x).
    { intros Hx. rewrite unblock_waitsem. by apply waitsem_other. }
    split; intros [H1 H2]; split; try done; by rewrite Ew in * |- *.
  - rewrite E. by apply remove_head.
Qed.

Lemma filter_true (P : Z -> Prop) `{!forall x, Decision (P x)} (l : list Z) : (forall x, x ∈ l -> P x) -> filter P l = l.
Proof. induction l as [|x l IH]; [done|]. intros Hall. rewrite filter_cons, decide_True by (apply Hall; by left). f_equal. apply IH. set_solver. Qed.

Lemma posts_waiting sem : sem <> 0 -> forall n a, NoDup (a_lists a g_waitingforsemaphore) -> (n <= length (waiters sem a))%nat ->
  a_lists (a_posts n sem a) g_waitingforsemaphore = filter (fun t => t ∉ take n (waiters sem a)) (a_lists a g_waitingforsemaphore).
Proof.
  intros H0. induction n as [|n IH]; intros a Hnd Hn; simpl.
  - symmetry. apply filter_true. set_solver.
  - destruct (waiters sem a) as [|w ws] eqn:E; [simpl in Hn; lia|]. destruct (post_waiters sem a w ws Hnd H0 E) as [E1 E2].
    rewrite IH; [|rewrite E2; by apply NoDup_filter|rewrite E1; simpl in Hn; lia]. rewrite E1, E2. unfold remove_node. rewrite list_filter_filter.
    apply filter_agree. intros x _. simpl. rewrite not_elem_of_cons. tauto.
Qed.

(** ** The theorems *)

(** C7: in every state that the kernel can reach, every task control block is in exactly
    one task list, the list of its state; following the links of a list ends and finds
    its tasks without repetition; the running task is the head of the ready-to-run list;
    and a task is found by its process id in the hash table of at most sixteen tasks. *)
Theorem kernel_lists (idle : Z) (mem : gset Z) (y : system) : idle <> 0 -> 0 ∉ mem -> reachable idle mem y -> exists L, lists_good y L.
Proof. intros H1 H2 Hr. destruct (reach_ok idle mem H1 H2 y Hr) as [a Y]. exists (a_lists a). by apply (lists_good_ok idle). Qed.

(** C6: in every reachable state the prioritized lists are in the order of the
    priorities, the registers belong to the head of the ready-to-run list, whose last
    task is the idle task, tasks are pending only while the running task has disabled
    pre-emption, and a semaphore count below zero is the number of the tasks that wait
    for the semaphore. *)
Theorem kernel_invariant (idle : Z) (mem : gset Z) (y : system) : idle <> 0 -> 0 ∉ mem -> reachable idle mem y ->
  exists L, (forall l, tasks_in l y = Some (L l)) /\ sched_good idle y L.
Proof.
  intros H1 H2 Hr. destruct (reach_ok idle mem H1 H2 y Hr) as [a Y]. exists (a_lists a). split; [|by apply sched_good_ok]. intros l. by apply (tasks_ok idle).
Qed.

(** C5: no enabled event is undefined in a reachable state: no access to a block that
    does not exist, no failed assertion, no loop without an end, and no context switch
    that saves the registers in the block of a task that was not running. *)
Theorem kernel_safe (idle : Z) (mem : gset Z) (y : system) (e : event) : idle <> 0 -> 0 ∉ mem -> reachable idle mem y -> enabled idle e y ->
  exists r y', exec e y = Some (r, y').
Proof. intros H1 H2 Hr He. destruct (reach_ok idle mem H1 H2 y Hr) as [a Y]. destruct (exec_refines idle y a e Y He) as (r & y' & _ & E & _). eauto. Qed.

Lemma run_refines idle es : forall y a rs y', sys_ok idle y a -> run idle es y = Some (rs, y') -> exists a', a_run a (sems (kn y)) es rs a' (sems (kn y')) /\ sys_ok idle y' a'.
Proof.
  induction es as [|e es IH]; intros y a rs y' Y; simpl; [intros [= <- <-]; exists a; split; [constructor|done]|]. destruct (decide _) as [He|]; [|done].
  destruct (exec_refines idle y a e Y He) as (r & y1 & a1 & E & Hs & Y1). rewrite E. simpl. destruct (run idle es y1) as [[rs1 y2]|] eqn:E1; [|done]. simpl. intros [= <- <-].
  destruct (IH y1 a1 rs1 y2 Y1 E1) as (a2 & Ha & Y2). exists a2. split; [|done]. by econstructor.
Qed.

(** C4: a run of the kernel from its start is a run of the kernel on lists, with the
    same results, and ends in a state that represents the lists and the counts that the
    specification ends with. *)
Theorem kernel_refines (idle : Z) (mem : gset Z) (es : list event) (y : system) (rs : list result) (y' : system) : idle <> 0 -> 0 ∉ mem ->
  os_start idle mem = Some y -> run idle es y = Some (rs, y') ->
  exists a m, a_run (a_boot idle) (gset_to_gmap 0 mem) es rs a m /\ sems (kn y') = m /\ forall l, tasks_in l y' = Some (a_lists a l).
Proof.
  intros H1 H2 E Er. destruct (os_start_ok idle mem H1 H2) as (y0 & E0 & Y0 & S0). rewrite E in E0. injection E0 as <-.
  destruct (run_refines idle es y _ rs y' Y0 Er) as (a & Ha & Y'). rewrite S0 in Ha. exists a, (sems (kn y')). split_and!; [done|done|]. intros l. by apply (tasks_ok idle).
Qed.

(** Posting a semaphore that tasks wait for wakes the first of them in the list. *)
Lemma post_wakes_head (idle : Z) (mem : gset Z) (y : system) (sem n : Z) (ws : list Z) (s := ks (kn y)) :
  idle <> 0 -> 0 ∉ mem -> reachable idle mem y -> sems (kn y) !! sem = Some n -> n < 0 -> tasks_in g_waitingforsemaphore y = Some ws ->
  exists w rest y', filter (fun t => waitsem_of (tcbs s) t = sem) ws = w :: rest /\ (forall x, x ∈ rest -> prio (tcbs s) x <= prio (tcbs s) w) /\
    exec (SemPost sem) y = Some (Returned OK, y') /\ sems (kn y') !! sem = Some (n + 1) /\
    tasks_in g_waitingforsemaphore y' = Some (remove_node w ws) /\ sem_wait_return w (kn y') = Some OK /\
    current (ks (kn y')) = (if decide (lock_of (tcbs s) (current s) <= 0 /\ prio (tcbs s) (current s) < prio (tcbs s) w) then w else current s).
Proof.
  intros H1 H2 Hr Hn H0 Hws. destruct (reach_ok idle mem H1 H2 y Hr) as [a Y]. rewrite (tasks_ok idle y a _ Y) in Hws. injection Hws as <-.
  pose proof Y as [O P]. pose proof O as [K S]. pose proof (k_rep _ _ _ K) as R. pose proof (s_count _ _ S _ _ Hn) as Hc.
  unfold s in *. rewrite (waiters_tasks idle y a sem Y). destruct (waiters sem a) as [|w rest] eqn:Ew; [simpl in Hc; lia|].
  assert (Hw : w ∈ waiters sem a) by (rewrite Ew; by left). apply list_elem_of_filter in Hw as [Hws Hw].
  destruct (sem_post_ok idle _ a sem n O Hn) as (k' & E & O' & S' & P'); [unfold SEM_VALUE_MAX; lia|]. unfold a_post in O'. rewrite Ew in O'.
  set (b := a_upd w (set_waitsem 0) a) in *. pose proof (k_rep _ _ _ (o_kern _ _ _ O')) as R'. exists w, rest, (with_kern k' y).
  assert (Y' : sys_ok idle (with_kern k' y) (a_unblock w b)) by (apply (sys_same idle y a); [done|done|eapply same_trans; [by apply (same_upd _ w (set_waitsem 0))|apply same_unblock]|done]).
  assert (Hp : forall x, prio (tcbs (ks (kn y))) x = prio (a_tasks b) x). { intros x. rewrite <- (r_prio _ _ _ R). symmetry. by apply prio_alter. }
  destruct (this_cons a (inv_ready idle a (i_base _ _ (k_inv _ _ _ K)))) as [k Ek]. assert (Hwt : w <> a_this a). { intros ->. destruct (not_waiting idle y a g_readytorun (a_this a) Y) as [Hx _]; [by apply (this_ready idle y)|done|done]. }
  split_and!; [done| |simpl; by rewrite E|simpl; by rewrite S', lookup_insert_eq| | |].
  - intros x Hx. rewrite <- !(r_prio _ _ _ R). eapply sorted_filter_head; [by apply (i_sorted _ _ (i_base _ _ (k_inv _ _ _ K)) g_waitingforsemaphore)|exact Ew|done].
  - rewrite (tasks_ok idle _ _ _ Y'). by rewrite unblock_waiting.
  - rewrite (wait_return _ (a_unblock w b)); [|done|].
    + rewrite unblock_errno. unfold b. simpl. rewrite errno_alter by (by right). by rewrite (s_errno _ _ S w Hw).
    + apply (r_known _ _ _ R'). pose proof (st_pid _ _ _ (same_unblock w b) w) as Eq. simpl in Eq. rewrite lookup_alter_eq in Eq. apply (fmap_is_Some pid). rewrite Eq, !fmap_is_Some.
      apply (r_known _ _ _ R). by apply (r_alloc _ _ _ R g_waitingforsemaphore).
  - simpl. rewrite (k_cur _ _ _ (o_kern _ _ _ O')), (k_cur _ _ _ K), (unblock_this w b k Ek Hwt). change (a_this b) with (a_this a).
    assert (El : lock_of (a_tasks b) (a_this a) = lock_of (tcbs (ks (kn y))) (a_this a)) by (rewrite <- (r_lock _ _ _ R); by apply lock_alter). by rewrite El, <- !Hp.
Qed.

Lemma cancel_errno t e a c : a_tasks a !! t = Some c -> errno_of (a_tasks (a_cancel t e a)) t = e.
Proof. intros Hc. unfold a_cancel. rewrite unblock_errno. unfold errno_of. cbn [a_tasks a_upd]. rewrite !lookup_alter_eq, Hc. done. Qed.

(** What a wait that was given up looks like afterwards. *)
Lemma given_up idle y y' a w c e m' : sys_ok idle y a -> tcbs (ks (kn y)) !! w = Some c -> e = EINTR \/ e = ETIMEDOUT -> sys_ok idle y' (a_cancel w e a) -> sems (kn y') = m' ->
  exists c', tcbs (ks (kn y')) !! w = Some c' /\ pterrno c' = e /\ task_state c' <> TSTATE_WAIT_SEM /\ sem_wait_return w (kn y') = Some ERROR.
Proof.
  intros [[[R _ _] _] _] Hc He Y' _. pose proof (k_rep _ _ _ (o_kern _ _ _ (y_sem _ _ _ Y'))) as R'. pose proof (r_info _ _ _ R _ _ Hc) as Hi.
  assert (Hk : is_Some (tcbs (ks (kn y')) !! w)).
  { apply (r_known _ _ _ R'). apply (fmap_is_Some pid). rewrite (st_pid _ _ _ (same_cancel w e a)), fmap_is_Some. eauto. }
  pose proof (wait_return _ _ w R' Hk) as Hr. rewrite (cancel_errno w e a _ Hi) in Hr. destruct Hk as [c' Hc']. exists c'. split_and!; [done| | |].
  - pose proof (cancel_errno w e a _ Hi) as Ee. unfold errno_of in Ee. by rewrite (r_info _ _ _ R' _ _ Hc') in Ee.
  - destruct (state_list idle y' _ w c' Y' Hc') as (l & Hl & ->). intros El. assert (l = g_waitingforsemaphore) as -> by (destruct l; try done; simpl in El; by destruct (is_first _ _)).
    unfold a_cancel in Hl. rewrite unblock_waiting in Hl. by apply list_elem_of_filter in Hl as [? _].
  - rewrite Hr, decide_False; [done|]. destruct He as [->| ->]; tauto.
Qed.

(** C36: a task that waits for a semaphore and gets a signal, or whose timeout expires,
    is no longer waiting, the count that its wait had taken is given back, and its
    [sem_wait] returns ERROR with errno EINTR or ETIMEDOUT. *)
Theorem wait_given_up (idle : Z) (mem : gset Z) (y : system) (w n : Z) (c : tcb_s) (e : event) (errcode : Z) :
  idle <> 0 -> 0 ∉ mem -> reachable idle mem y -> tcbs (ks (kn y)) !! w = Some c -> task_state c = TSTATE_WAIT_SEM -> sems (kn y) !! waitsem c = Some n ->
  (e, errcode) ∈ [(Signal w, EINTR); (TimedOut (pid c), ETIMEDOUT)] ->
  exists y' c', exec e y = Some (Returned OK, y') /\ sems (kn y') = <[waitsem c := n + 1]> (sems (kn y)) /\
    tcbs (ks (kn y')) !! w = Some c' /\ pterrno c' = errcode /\ task_state c' <> TSTATE_WAIT_SEM /\ sem_wait_return w (kn y') = Some ERROR.
Proof.
  intros H1 H2 Hr Hc Hst Hn He. destruct (reach_ok idle mem H1 H2 y Hr) as [a Y]. pose proof Y as [[[R _ _] _] _].
  destruct (state_list idle y a w c Y Hc) as (l & Hl & El). rewrite Hst in El. assert (l = g_waitingforsemaphore) as -> by (destruct l; try done; simpl in El; by destruct (is_first _ _)).
  pose proof (waitsem_rep _ _ _ _ _ R Hc) as Ew. pose proof (r_info _ _ _ R _ _ Hc) as Hi.
  assert (Hen : enabled idle e y) by (apply elem_of_cons in He as [[= -> ->]|[[= -> ->]|[]%not_elem_of_nil]%elem_of_cons]; simpl; eauto).
  destruct (exec_refines idle y a e Y Hen) as (r & y' & a' & E & Hs & Y').
  assert (Hy : r = Returned OK /\ a' = a_cancel w errcode a /\ sems (kn y') = <[waitsem c := n + 1]> (sems (kn y))).
  { apply elem_of_cons in He as [[= -> ->]|[[= -> ->]|[]%not_elem_of_nil]%elem_of_cons]; inversion Hs; subst; try done.
    - rewrite Ew in *. by simplify_eq.
    - assert (t = w) as ->. { pose proof (gettcb_task idle y a t _ Y ltac:(eassumption)) as G1. pose proof (gettcb_task idle y a w _ Y Hi) as G2. simpl in G2. congruence. }
      rewrite Ew in *. by simplify_eq.
    - exfalso. match goal with H : forall t c, _ -> _ -> _ ∉ _ |- _ => by eapply H end. }
  destruct Hy as (-> & -> & Es). destruct (given_up idle y y' a w c errcode (sems (kn y')) Y Hc) as (c' & Hc' & Hrest); [|done|done|].
  { apply elem_of_cons in He as [[= _ ->]|[[= _ ->]|[]%not_elem_of_nil]%elem_of_cons]; auto. }
  exists y', c'. split_and!; try done; apply Hrest.
Qed.

(** C9: while the running task has pre-emption disabled it goes on running, whatever
    other tasks become ready, are created or deleted, whatever signals, timeouts and
    ticks arrive, until it blocks, yields, lowers its own priority or enables pre-emption. *)
Theorem lock_keeps_running (idle : Z) (mem : gset Z) (y : system) (e : event) (r : result) (y' : system) (cur := current (ks (kn y))) :
  idle <> 0 -> 0 ∉ mem -> reachable idle mem y -> enabled idle e y -> 0 < lock_of (tcbs (ks (kn y))) cur -> ~ gives_way cur e ->
  exec e y = Some (r, y') -> current (ks (kn y')) = cur.
Proof.
  intros H1 H2 Hr He Hl Hg E. destruct (reach_ok idle mem H1 H2 y Hr) as [a Y]. destruct (exec_refines idle y a e Y He) as (r' & y'' & a' & E' & Hs & Y').
  rewrite E in E'. injection E' as <- <-. pose proof Y' as [[[_ _ C'] _] _]. rewrite C'. by eapply spec_locked.
Qed.

(** [sched_yield] switches to another task of the same priority also while the
    caller has pre-emption disabled; the lock count stays with the caller. *)
Theorem yield_ignores_lock (idle : Z) (mem : gset Z) (y : system) (t x : Z) (k : list Z) (s := ks (kn y)) :
  idle <> 0 -> 0 ∉ mem -> reachable idle mem y -> tasks_in g_readytorun y = Some (t :: x :: k) -> t <> idle -> prio (tcbs s) x = prio (tcbs s) t ->
  0 < lock_of (tcbs s) t ->
  exists y', exec Yield y = Some (Returned OK, y') /\ current (ks (kn y')) <> t /\ lock_of (tcbs (ks (kn y'))) t = lock_of (tcbs s) t.
Proof.
  intros H1 H2 Hr Hk Hi Hp Hl. destruct (reach_ok idle mem H1 H2 y Hr) as [a Y]. rewrite (tasks_ok idle y a _ Y) in Hk. injection Hk as Hk.
  pose proof Y as [[K S] P]. pose proof (k_rep _ _ _ K) as R. assert (Et : a_this a = t) by (unfold a_this; by rewrite Hk).
  assert (He : enabled idle Yield y) by (simpl; by rewrite (r_this _ _ _ R), Et). destruct (exec_refines idle y a Yield Y He) as (r & y' & a' & E & Hs & Y').
  inversion Hs; subst r a'. exists y'. split; [done|]. pose proof Y' as [[[R' _ C'] _] _]. rewrite C', <- (r_lock _ _ _ R'). unfold s in *. rewrite <- (r_lock _ _ _ R).
  rewrite <- !(r_prio _ _ _ R) in Hp. pose proof (r_nodup _ _ _ R g_readytorun) as Hnd. rewrite Hk in Hnd. apply NoDup_cons in Hnd as [Hn _].
  unfold a_yield, a_setpriority. rewrite Et. assert (Ed : a_this (a_drop t a) = x) by (unfold a_this; simpl; rewrite Hk, remove_head by done; done).
  rewrite Ed, decide_False by lia. unfold a_reprio. set (a2 := a_upd t (set_priority (prio (a_tasks a) t)) (a_drop t a)).
  assert (Hpr : forall z, prio (a_tasks a2) z = prio (a_tasks a) z).
  { intros z. simpl. destruct (decide (z = t)) as [->|]; [|unfold prio; by rewrite lookup_alter_ne by congruence]. apply prio_set. rewrite <- Et. apply (this_some idle _ _ K). }
  assert (Hd : detached t a2) by apply (drop_detached t a). assert (E2 : a_this a2 = x) by exact Ed.
  assert (Ehd : a_this (a_add t a2) = x).
  { destruct (add_this t a2) as [->|[E' _]]; [done|]. unfold a_add in E'. rewrite E2, !Hpr in E'. rewrite decide_False in E' by lia. unfold a_this in E'. simpl in E'. rewrite Hk, remove_head in E' by done.
    fold (a_tasks a2) in E'. revert E'. unfold fupd. simpl. rewrite place_head by (by rewrite !Hpr; lia). set_solver. }
  rewrite Ehd, Et, decide_False by set_solver. rewrite lock_switch, this_switch. cbn [a_tasks a_merge a_with]. rewrite tasks_add. split; [|by apply lock_alter].
  destruct (merge_this (a_add t a2)) as [->|Hin].
  - intros En. assert (Hin : a_this (a_add t a2) = 0) by (unfold a_this; by rewrite En). destruct (r_alloc _ _ _ R g_readytorun x) as [H0 _]; [rewrite Hk; set_solver|]. congruence.
  - rewrite Ehd. set_solver.
  - intros E'. rewrite E' in Hin. unfold a_add in Hin. rewrite E2, !Hpr in Hin. rewrite decide_False in Hin by lia. by apply (Hd g_pendingtasks).
Qed.




Lemma place_all_ext m m' P : forall l, (forall x, prio m x = prio m' x) -> fold_left (fun l t => place m t l) P l = fold_left (fun l t => place m' t l) P l.
Proof. induction P as [|p P IH]; intros l H; simpl; [done|]. rewrite IH by done. f_equal. by apply place_ext. Qed.

(** C37: merging the pending tasks into the ready-to-run list in one pass over both is
    the insertion of the pending tasks one after the other, each behind the tasks of its
    own or a higher priority. *)
Theorem merge_is_insertion (idle : Z) (mem : gset Z) (y : system) (ready pending : list Z) (s := ks (kn y)) :
  idle <> 0 -> 0 ∉ mem -> reachable idle mem y -> tasks_in g_readytorun y = Some ready -> tasks_in g_pendingtasks y = Some pending ->
  exists b s' (l := fold_left (fun l t => place (tcbs s) t l) pending ready), sched_mergepending s = Some (b, s') /\
    tasks_in g_readytorun (with_ks s' y) = Some l /\ tasks_in g_pendingtasks (with_ks s' y) = Some [] /\ (b = true <-> fst_of 0 l <> fst_of 0 ready).
Proof.
  intros H1 H2 Hr Hk Hq. destruct (reach_ok idle mem H1 H2 y Hr) as [a Y]. rewrite (tasks_ok idle y a _ Y) in Hk. rewrite (tasks_ok idle y a _ Y) in Hq. injection Hk as <-. injection Hq as <-.
  pose proof Y as [[K S] P]. pose proof K as [R [I Hp] C]. pose proof (idle_only idle _ _ _ g_pendingtasks R I ltac:(done)) as Hi.
  destruct (mergepending_ok (ks (kn y)) a idle R) as (s' & E & R' & _); [by apply (i_sorted _ _ I)| |by apply inv_idle_in|apply (i_low _ _ I)|].
  { intros p Hpn. assert (p <> idle) by set_solver. by apply (i_prio _ _ I _ _ Hpn). }
  assert (Hl : forall l, tasks_in l (with_ks s' y) = Some (a_lists (a_merge a) l)).
  { intros l. unfold tasks_in. cbn [kn ks with_ks with_kern with_sched]. destruct (r_q _ _ _ R' l) as (Eh & _ & Hs & _). rewrite Eh. apply (walk_ok _ _ 0); [done|]. pose proof (r_size _ _ _ R' l _ eq_refl). lia. }
  eexists _, s'. cbv zeta. assert (Ef : fold_left (fun l t => place (tcbs s) t l) (a_lists a g_pendingtasks) (a_lists a g_readytorun) = a_lists (a_merge a) g_readytorun).
  { apply place_all_ext. intros z. symmetry. apply (r_prio _ _ _ R). }
  split; [exact E|]. rewrite Ef, !Hl. split_and!; [done|done|]. rewrite negb_true_iff, bool_decide_eq_false. done.
Qed.

Lemma unlock_waiting b : a_lists (a_unlock b) g_waitingforsemaphore = a_lists b g_waitingforsemaphore.
Proof. unfold a_unlock, a_release. destruct (decide _); [|done]. by rewrite switch_lists. Qed.

Lemma spec_reset a m sem count r a' m' n : spec a m (SemReset sem count) r a' m' -> m !! sem = Some n ->
  r = Returned OK /\ a' = a_unlock (a_posts (Z.to_nat (Z.min count (Z.max 0 (- n)))) sem (a_lock a)) /\ m' = <[sem := if decide (0 <= n) then count else n + count]> m.
Proof. intros Hs Hn. inversion Hs. by simplify_eq. Qed.

(** C11: [sem_reset] returns, having given its count to the first tasks that wait, as many
    as the count is enough for; what is left is the new count, and the tasks that got
    nothing go on waiting. *)
Theorem reset_hands_out (idle : Z) (mem : gset Z) (y : system) (sem n count : Z) (ws : list Z) (s := ks (kn y)) :
  idle <> 0 -> 0 ∉ mem -> reachable idle mem y -> sems (kn y) !! sem = Some n -> 0 <= count <= SEM_VALUE_MAX -> lock_of (tcbs s) (current s) < 32767 ->
  tasks_in g_waitingforsemaphore y = Some ws ->
  exists y' (first := take (Z.to_nat count) (filter (fun t => waitsem_of (tcbs s) t = sem) ws)), exec (SemReset sem count) y = Some (Returned OK, y') /\
    tasks_in g_waitingforsemaphore y' = Some (filter (fun t => t ∉ first) ws) /\ sems (kn y') = <[sem := if decide (0 <= n) then count else n + count]> (sems (kn y)).
Proof.
  intros H1 H2 Hr Hn Hc Hl Hws. destruct (reach_ok idle mem H1 H2 y Hr) as [a Y]. rewrite (tasks_ok idle y a _ Y) in Hws. injection Hws as <-.
  pose proof Y as [[K S] P]. pose proof (k_rep _ _ _ K) as R. assert (Hz : sem <> 0) by (intros ->; by rewrite (s_null _ _ S) in Hn).
  assert (He : enabled idle (SemReset sem count) y). { simpl. rewrite Hn. simpl. split; [done|]. by rewrite (r_this _ _ _ R), <- (k_cur _ _ _ K). }
  destruct (exec_refines idle y a _ Y He) as (r & y' & a' & E & Hs & Y'). apply (spec_reset _ _ _ _ _ _ _ n) in Hs as (-> & -> & Es); [|done]. exists y'. cbv zeta. split; [done|]. split; [|done].
  unfold s. rewrite (waiters_tasks idle y a sem Y), (tasks_ok idle y' _ _ Y'). f_equal.
  pose proof (s_count _ _ S _ _ Hn) as Hcnt. assert (Hwl : waiters sem (a_lock a) = waiters sem a).
  { unfold waiters. apply filter_agree. intros x _. unfold a_lock. simpl. by rewrite waitsem_alter. }
  rewrite unlock_waiting, (posts_waiting sem Hz); [|apply (r_nodup _ _ _ R)|rewrite Hwl; lia]. rewrite Hwl. change (a_lists (a_lock a)) with (a_lists a).
  assert (Et : take (Z.to_nat (Z.min count (Z.max 0 (- n)))) (waiters sem a) = take (Z.to_nat count) (waiters sem a)); [|by rewrite Et].
  destruct (decide (count <= Z.max 0 (- n))); [by rewrite Z.min_l by lia|]. rewrite Z.min_r by lia. rewrite !take_ge by lia. done.
Qed.

(** The only task that waits for a semaphore is taken out of its list. *)
Lemma no_waiter_left a sem w : waiters sem a = [w] -> filter (fun t => waitsem_of (a_tasks a) t = sem) (remove_node w (a_lists a g_waitingforsemaphore)) = [].
Proof.
  intros E. unfold remove_node. rewrite list_filter_filter. assert (Hx : forall x, waitsem_of (a_tasks a) x = sem -> x ∈ a_lists a g_waitingforsemaphore -> x = w).
  { intros x H1 H2. assert (Hin : x ∈ waiters sem a) by (by apply list_elem_of_filter). rewrite E in Hin. by apply list_elem_of_singleton in Hin. }
  induction (a_lists a g_waitingforsemaphore) as [|x l IH]; [done|]. rewrite filter_cons, decide_False.
  - apply IH. intros z Hz1 Hz2. apply Hx; [done|by right].
  - intros [H1 H2]. assert (x = w) by (apply Hx; [done|by left]). done.
Qed.

(** A post that finds nobody. *)
Lemma post_nobody idle k a sem : k_ok idle (ks k) a -> sem <> 0 -> sems k !! sem = Some (-1) ->
  filter (fun t => waitsem_of (a_tasks a) t = sem) (a_lists a g_waitingforsemaphore) = [] ->
  exists k', sem_post sem k = Some (Returned OK, k') /\ ks k' = ks k /\ sems k' !! sem = Some 0.
Proof.
  intros K Hz Hn Hf. pose proof (k_rep _ _ _ K) as R. unfold sem_post. rewrite decide_True by done. rewrite Hn, some_bind. rewrite decide_False by (unfold SEM_VALUE_MAX; lia).
  rewrite (sem_upd _ _ (-1)) by done. rewrite some_bind. cbn [ks with_sems]. change (s16 (-1 + 1)) with 0. rewrite decide_True by done.
  destruct (r_q _ _ _ R g_waitingforsemaphore) as (Eh & _ & Hs & _). pose proof (r_size _ _ _ R g_waitingforsemaphore _ eq_refl) as Hsz.
  rewrite Eh, (find_waiter_ok _ _ sem 0 _ Hs) by (try lia; intros x Hx; by apply (r_alloc _ _ _ R g_waitingforsemaphore)).
  rewrite (filter_agree _ (fun t => waitsem_of (a_tasks a) t = sem)) by (intros x _; by rewrite (waitsem_tasks _ _ _ _ R)). rewrite Hf. simpl.
  eexists. split; [done|]. split; [done|]. simpl. apply lookup_insert_eq.
Qed.

(** C39: deleting a task that waits for a semaphore does not give back the count that the
    wait had taken, since the state of the task is overwritten before [sem_recover] looks
    at it.  When it was the only task that waited, the next post wakes nobody and leaves a
    count of zero: the semaphore cannot be taken although it was posted. *)
Theorem deleted_waiter_keeps_count (idle : Z) (mem : gset Z) (y : system) (w : Z) (c : tcb_s) :
  idle <> 0 -> 0 ∉ mem -> reachable idle mem y -> tcbs (ks (kn y)) !! w = Some c -> task_state c = TSTATE_WAIT_SEM -> sems (kn y) !! waitsem c = Some (-1) ->
  exists k1 k2 k3, task_terminate (pid c) (kn y) = Some (OK, k1) /\ sems k1 = sems (kn y) /\ tcbs (ks k1) !! w = None /\
    sem_post (waitsem c) k1 = Some (Returned OK, k2) /\ sem_trywait (waitsem c) k2 = Some (Returned ERROR, k3).
Proof.
  intros H1 H2 Hr Hc Hst Hn. destruct (reach_ok idle mem H1 H2 y Hr) as [a Y]. pose proof Y as [[K S] P]. pose proof (k_rep _ _ _ K) as R.
  destruct (state_list idle y a w c Y Hc) as (l & Hl & El). rewrite Hst in El. assert (l = g_waitingforsemaphore) as -> by (destruct l; try done; simpl in El; by destruct (is_first _ _)).
  pose proof (waitsem_rep _ _ _ _ _ R Hc) as Ew. pose proof (r_info _ _ _ R _ _ Hc) as Hi. assert (Hz : waitsem c <> 0) by (intros E0; by rewrite E0, (s_null _ _ S) in Hn).
  assert (Hth : w <> a_this a). { intros ->. by pose proof (r_apart _ _ _ R _ _ _ Hl (this_ready idle y a Y)). }
  assert (Hid : w <> idle). { intros ->. by apply (idle_only idle _ _ _ g_waitingforsemaphore R (i_base _ _ (k_inv _ _ _ K))). }
  assert (Hp0 : pid c <> 0). { intros E0. pose proof (gettcb_task idle y a w _ Y Hi) as G. assert (Hin : idle ∈ a_lists a g_readytorun) by apply inv_idle_in, K.
    destruct (r_alloc _ _ _ R _ _ Hin) as (_ & _ & [ci Hci]). pose proof (gettcb_task idle y a idle _ Y (r_info _ _ _ R _ _ Hci)) as G'.
    rewrite (p_idle _ _ _ _ P _ (r_info _ _ _ R _ _ Hci)) in G'. change (pid (info c)) with (pid c) in G. rewrite E0 in G. congruence. }
  destruct (terminate_ok idle (kn y) a (pid c) w g_waitingforsemaphore c K) as (s' & E & K' & _); [by apply (gettcb_task idle y a w _ Y Hi)|done|done|done|done|done|apply (p_total _ _ _ _ P), pidhash_range|].
  set (k1 := with_sched s' (kn y)) in *. assert (Ewl : waiters (waitsem c) a = [w]).
  { pose proof (s_count _ _ S _ _ Hn) as Hcnt. assert (Hin : w ∈ waiters (waitsem c) a) by (by apply list_elem_of_filter). destruct (waiters (waitsem c) a) as [|x [|x' r]]; simpl in Hcnt; try lia. set_solver. }
  destruct (post_nobody idle k1 (a_delete w a) (waitsem c)) as (k2 & E2 & Ks2 & S2); [done|done|done| |].
  { simpl. rewrite <- (no_waiter_left a _ w Ewl). apply filter_agree. intros x [Hx _]%list_elem_of_filter. unfold waitsem_of. by rewrite lookup_delete_ne. }
  assert (E3 : exists k3, sem_trywait (waitsem c) k2 = Some (Returned ERROR, k3)).
  { unfold sem_trywait. rewrite decide_True by done. rewrite S2, some_bind. rewrite decide_False by lia. unfold fails, set_errno. rewrite Ks2.
    destruct (this_known idle _ _ (k_rep _ _ _ K') (i_base _ _ (k_inv _ _ _ K'))) as (ct & Hct & _). cbn [ks k1 with_sched]. rewrite (r_this _ _ _ (k_rep _ _ _ K')), (upd_tcb_some _ _ _ ct Hct). eauto. }
  destruct E3 as [k3 E3]. exists k1, k2, k3. split_and!; [done|done| |done|done]. apply eq_None_not_Some. intros Hs. apply (r_known _ _ _ (k_rep _ _ _ K')) in Hs. simpl in Hs. rewrite lookup_delete_eq in Hs. by destruct Hs.
Qed.

(** With sixteen tasks no id is free. *)
Lemma sixteen_full idle last h a p : pid_inv idle last h a -> a_tasks a !! 0 = None -> size (a_tasks a) = 16%nat -> ~ free_pid h p.
Proof.
  intros P Hz Hs [p' Hf]. assert (Hp : hashes a ≡ₚ seqZ 0 16) by (apply submseteq_length_Permutation; [by eapply hashes_sub|rewrite hashes_len, length_seqZ; lia]).
  assert (Hin : PIDHASH p ∈ hashes a) by (rewrite Hp; apply elem_of_seqZ, pidhash_range). apply list_elem_of_fmap in Hin as ([t c] & E & Hc%elem_of_map_to_list). simpl in E.
  destruct (p_task _ _ _ _ P _ _ Hc) as [_ E1]. rewrite <- E, Hf in E1. injection E1 as _ <-. congruence.
Qed.

(** C38: creating a task succeeds as long as there are fewer than sixteen: the new task
    has a positive process id that no other task has and is found by it.  With sixteen
    tasks it fails, gives the block back and sets errno to 1. *)
Theorem create_pid (idle : Z) (mem : gset Z) (y : system) (t ttype prio : Z) (s := ks (kn y)) :
  idle <> 0 -> 0 ∉ mem -> reachable idle mem y -> enabled idle (Setup t ttype prio) y ->
  if decide (size (tcbs s) < 16)%nat then
    exists p y', thread_create t ttype prio y = Some (p, y') /\ 1 <= p <= 32767 /\ (forall x c, tcbs s !! x = Some c -> pid c <> p) /\
      sched_gettcb p (ks (kn y')) = Some t
  else exists y', thread_create t ttype prio y = Some (ERROR, y') /\ tcbs (ks (kn y')) !! t = None /\ errno_of (tcbs (ks (kn y'))) (current (ks (kn y'))) = 1.
Proof.
  intros H1 H2 Hr He. destruct (reach_ok idle mem H1 H2 y Hr) as [a Y]. pose proof Y as [[K S] P]. pose proof (k_rep _ _ _ K) as R. simpl in He. destruct He as (H0 & Hn & Hp & Hl).
  rewrite <- (this_lock idle y a Y) in Hl. assert (Esz : size (tcbs s) = size (a_tasks a)) by (unfold s; by rewrite <- (r_tasks _ _ _ R), map_size_fmap).
  assert (Hz : a_tasks a !! 0 = None). { rewrite <- (r_tasks _ _ _ R), lookup_fmap. by rewrite (r_null _ _ _ R). }
  unfold thread_create. destruct (thread_setup_ok idle y a t ttype prio Y H0 Hn Hl Hp) as [(p & y1 & Hr1 & Hfree & E & Y1 & _ & S1)|(Hf & y1 & E & Y1 & S1)]; rewrite E, some_bind.
  - rewrite decide_True. 2: { pose proof (pid_few _ _ _ _ P). assert (size (a_tasks a) <> 16%nat); [|lia]. intros Hsz. by apply (sixteen_full idle _ _ a p P Hz Hsz). }
    rewrite decide_False by done. pose proof Y1 as [[K1 _] _]. pose proof (k_rep _ _ _ K1) as R1. assert (Hin : t ∈ a_lists (a_setup t p prio ttype a) g_inactivetasks) by (by left).
    destruct (r_alloc _ _ _ R1 _ _ Hin) as (_ & _ & [c Hc]). rewrite Hc, some_bind. pose proof (r_info _ _ _ R1 _ _ Hc) as Hi. simpl in Hi. rewrite lookup_insert_eq in Hi. assert (Ep : pid c = p) by (by injection Hi).
    destruct (unblock_ok idle _ _ t _ K1 Hin) as (s2 & E2 & K2 & P2); [done|done|]. unfold task_activate. rewrite E2, !some_bind. exists p, (with_ks s2 y1). split_and!; [by rewrite Ep|lia|lia| |].
    + intros x cx Hx Hpid. destruct (p_task _ _ _ _ P _ _ (r_info _ _ _ R _ _ Hx)) as [_ Ex]. change (pid (info cx)) with (pid cx) in Ex. destruct Hfree as [p' Hfree]. rewrite Hpid, Hfree in Ex. injection Ex as _ <-.
      unfold s in Hx. by rewrite (r_null _ _ _ R) in Hx.
    + simpl. pose proof (gettcb_task idle y1 _ t (new_tcb p prio ttype) Y1) as G. simpl in G. unfold sched_gettcb in *. rewrite P2. apply G. simpl. apply lookup_insert_eq.
  - rewrite decide_False by (rewrite Esz, (full_size idle _ _ a P Hf); lia). rewrite decide_True by done. exists y1. split; [done|]. pose proof Y1 as [[K1 _] _]. pose proof (k_rep _ _ _ K1) as R1. split.
    + apply eq_None_not_Some. intros Hs. apply (r_known _ _ _ R1) in Hs. simpl in Hs. rewrite lookup_alter_is_Some in Hs. apply (r_known _ _ _ R) in Hs. rewrite Hn in Hs. by destruct Hs.
    + rewrite (k_cur _ _ _ K1). change (a_this (a_upd (a_this a) (set_pterrno 1) a)) with (a_this a). destruct (this_some idle _ a K) as [c Hc].
      destruct (tcbs (ks (kn y1)) !! a_this a) as [c1|] eqn:Hc1.
      * unfold errno_of. rewrite Hc1. pose proof (r_info _ _ _ R1 _ _ Hc1) as Hi. simpl in Hi. rewrite lookup_alter_eq, Hc in Hi. by injection Hi.
      * exfalso. assert (Hs : is_Some (tcbs (ks (kn y1)) !! a_this a)); [|rewrite Hc1 in Hs; by destruct Hs]. apply (r_known _ _ _ R1). simpl. rewrite lookup_alter_is_Some. eauto.
Qed.

(** ** Witnesses *)

Definition sample_mem : gset Z := {[ 2000; 2004 ]}.
Definition sample (es : list event) : option system := y ← os_start 1000 sample_mem; '(_, y) ← run 1000 es y; Some y.

Lemma sample_reachable es y : sample es = Some y -> reachable 1000 sample_mem y.
Proof.
  unfold sample. destruct (os_start 1000 sample_mem) as [y0|] eqn:E0; [|done]. simpl. destruct (run 1000 es y0) as [[rs y1]|] eqn:E1; [|done]. simpl.
  intros [= <-]. eapply run_reachable; [by apply reach_start|done].
Qed.

(** Three tasks, of the priorities 100, 100 and 120; and the same with round-robin. *)
Definition three : list event := [Setup 1 0 100; Activate 1; Setup 2 0 100; Activate 2; Setup 3 0 120; Activate 3].
(** The tasks 3 and 1 wait for the semaphore 2000, task 2 runs. *)
Definition waiting : list event := three ++ [SemWait 2000; SemWait 2000].
(** Task 2 runs with pre-emption disabled and has woken task 3. *)
Definition held_back : list event := waiting ++ [Lock; SemPost 2000].
Definition fifteen : list event := flat_map (fun i => [Setup i 0 100; Activate i]) (seqZ 1 15).

#[local] Ltac sampled es := destruct (sample es) as [y|] eqn:E; [|vm_compute in E; discriminate E].

Lemma kernel_lists_witness : match sample held_back with Some y => exists L, lists_good y L | None => False end.
Proof. sampled held_back. apply (kernel_lists 1000 sample_mem y); [done|by vm_compute|by apply (sample_reachable held_back)]. Defined.

Lemma kernel_invariant_witness : match sample held_back with Some y => exists L, (forall l, tasks_in l y = Some (L l)) /\ sched_good 1000 y L | None => False end.
Proof. sampled held_back. apply (kernel_invariant 1000 sample_mem y); [done|by vm_compute|by apply (sample_reachable held_back)]. Defined.

Lemma kernel_safe_witness : match sample held_back with Some y => exists r y', exec Unlock y = Some (r, y') | None => False end.
Proof. sampled held_back. apply (kernel_safe 1000 sample_mem y); [done|by vm_compute|by apply (sample_reachable held_back)|done]. Defined.

Lemma kernel_refines_witness : match (y ← os_start 1000 sample_mem; run 1000 held_back y) with
  | Some (rs, y') => exists a m, a_run (a_boot 1000) (gset_to_gmap 0 sample_mem) held_back rs a m /\ sems (kn y') = m /\ forall l, tasks_in l y' = Some (a_lists a l)
  | None => False end.
Proof.
  destruct (os_start 1000 sample_mem) as [y|] eqn:E; [|vm_compute in E; discriminate E]. rewrite some_bind.
  destruct (run 1000 held_back y) as [[rs y']|] eqn:E1; [|vm_compute in E; injection E as <-; vm_compute in E1; discriminate E1].
  apply (kernel_refines 1000 sample_mem held_back y rs y'); [done|by vm_compute|done|done].
Defined.

#[local] Ltac computed := match goal with E : sample _ = Some _ |- _ => vm_compute in E; injection E as <-; by vm_compute end.

Definition waiting_3 : tcb_s := mkTcb 3 120 120 TSTATE_WAIT_SEM 0 0 20 2000 0.

Lemma wait_given_up_witness : match sample waiting with
  | Some y => exists y' c', exec (TimedOut 3) y = Some (Returned OK, y') /\ sems (kn y') = <[2000 := -1]> (sems (kn y)) /\
      tcbs (ks (kn y')) !! 3 = Some c' /\ pterrno c' = ETIMEDOUT /\ task_state c' <> TSTATE_WAIT_SEM /\ sem_wait_return 3 (kn y') = Some ERROR
  | None => False end.
Proof.
  sampled waiting. apply (wait_given_up 1000 sample_mem y 3 (-2) waiting_3 (TimedOut 3) ETIMEDOUT);
    [done|by vm_compute|by apply (sample_reachable waiting)|computed|done|computed|right; by left].
Defined.

Lemma lock_keeps_running_witness : match sample held_back with
  | Some y => exists y', exec (Signal 1) y = Some (Returned OK, y') /\ current (ks (kn y')) = current (ks (kn y))
  | None => False end.
Proof.
  sampled held_back. destruct (exec (Signal 1) y) as [[r y']|] eqn:E1; [|vm_compute in E; injection E as <-; vm_compute in E1; discriminate E1].
  assert (r = Returned OK) as -> by (vm_compute in E; injection E as <-; vm_compute in E1; by injection E1). exists y'. split; [reflexivity|].
  apply (lock_keeps_running 1000 sample_mem y (Signal 1) (Returned OK) y'); [done|by vm_compute|by apply (sample_reachable held_back)| | |by intros []|exact E1].
  - vm_compute in E. injection E as <-. vm_compute. eauto.
  - computed.
Defined.

Lemma yield_ignores_lock_witness : match sample (three ++ [SemWait 2000; Lock]) with
  | Some y => exists y', exec Yield y = Some (Returned OK, y') /\ current (ks (kn y')) <> 1 /\ lock_of (tcbs (ks (kn y'))) 1 = lock_of (tcbs (ks (kn y))) 1
  | None => False end.
Proof.
  sampled (three ++ [SemWait 2000; Lock]). apply (yield_ignores_lock 1000 sample_mem y 1 2 [1000]);
    [done|by vm_compute|by eapply sample_reachable|computed|done|computed|computed].
Defined.


Lemma merge_is_insertion_witness : match sample held_back with
  | Some y => exists b s', sched_mergepending (ks (kn y)) = Some (b, s') /\ tasks_in g_readytorun (with_ks s' y) = Some (place (tcbs (ks (kn y))) 3 [2; 1000]) /\
      tasks_in g_pendingtasks (with_ks s' y) = Some [] /\ (b = true <-> fst_of 0 (place (tcbs (ks (kn y))) 3 [2; 1000]) <> 2)
  | None => False end.
Proof.
  sampled held_back. apply (merge_is_insertion 1000 sample_mem y [2; 1000] [3]); [done|by vm_compute|by eapply sample_reachable|computed|computed].
Defined.

Lemma reset_hands_out_witness : match sample waiting with
  | Some y => exists y', exec (SemReset 2000 1) y = Some (Returned OK, y') /\
      tasks_in g_waitingforsemaphore y' = Some (filter (fun t => t ∉ take (Z.to_nat 1) (filter (fun t => waitsem_of (tcbs (ks (kn y))) t = 2000) [3; 1])) [3; 1]) /\
      sems (kn y') = <[2000 := if decide (0 <= -2) then 1 else -2 + 1]> (sems (kn y))
  | None => False end.
Proof.
  sampled waiting. apply (reset_hands_out 1000 sample_mem y 2000 (-2) 1 [3; 1]);
    [lia|by vm_compute|by eapply sample_reachable|computed|unfold SEM_VALUE_MAX; lia|computed|computed].
Defined.

Lemma deleted_waiter_keeps_count_witness : match sample (three ++ [SemWait 2000]) with
  | Some y => exists k1 k2 k3, task_terminate 3 (kn y) = Some (OK, k1) /\ sems k1 = sems (kn y) /\ tcbs (ks k1) !! 3 = None /\
      sem_post 2000 k1 = Some (Returned OK, k2) /\ sem_trywait 2000 k2 = Some (Returned ERROR, k3)
  | None => False end.
Proof.
  sampled (three ++ [SemWait 2000]). apply (deleted_waiter_keeps_count 1000 sample_mem y 3 waiting_3);
    [done|by vm_compute|by eapply sample_reachable|computed|done|computed].
Defined.

Lemma create_pid_witness : match sample fifteen with
  | Some y => exists y', thread_create 77 0 100 y = Some (ERROR, y') /\ tcbs (ks (kn y')) !! 77 = None /\ errno_of (tcbs (ks (kn y'))) (current (ks (kn y'))) = 1
  | None => False end.
Proof.
  sampled fifteen. assert (He : enabled 1000 (Setup 77 0 100) y) by (vm_compute in E; injection E as <-; vm_compute; by repeat split).
  assert (Hs : ~ (size (tcbs (ks (kn y))) < 16)%nat) by (vm_compute in E; injection E as <-; vm_compute; lia).
  pose proof (create_pid 1000 sample_mem y 77 0 100 ltac:(lia) ltac:(by vm_compute) (sample_reachable _ y E) He) as H. by rewrite decide_False in H.
Defined.
