(* ===== verification/KernelFifo.v ===== *)
(** * The order of the waiting tasks

    The tasks that wait for semaphores are in one list, by priority and among equals in
    the order in which they took their places: the one that [sem_post] wakes is the first
    of them.  The order of the places is read off a run of the kernel, not off its list. *)

From Stdlib Require Import Sorting.Sorted.
From stdpp Require Import sorting.
From S2P Require Import Prelude Queue Sched SchedInv Sem Task Kernel KernelProps.

(** ** What an event does to the list *)

#[local] Notation W a := (a_lists a g_waitingforsemaphore).

(** No task begins to wait, and those that go on waiting keep their priorities. *)
Record stays (a a' : asched) : Prop := {
  y_list : W a' `sublist_of` W a;
  y_prio x : x ∈ W a' -> prio (a_tasks a') x = prio (a_tasks a) x
}.

#[export] Instance stays_refl : Reflexive stays.
Proof. intros a. by split. Qed.
#[export] Instance stays_trans : Transitive stays.
Proof.
  intros a b c [L1 P1] [L2 P2]. split; [by trans (W b)|]. intros x Hx. rewrite (P2 x Hx). apply P1.
  by apply (sublist_subseteq _ _ L2).
Qed.

Lemma stays_fields t f a : (forall c, sched_priority (f c) = sched_priority c) -> stays a (a_upd t f a).
Proof. intros H. split; [done|]. intros x _. by apply prio_alter. Qed.

Lemma stays_upd t f a : t ∉ W a -> stays a (a_upd t f a).
Proof. intros H. split; [done|]. intros x Hx. unfold prio. simpl. rewrite lookup_alter_ne; [done|]. by intros ->. Qed.

Lemma stays_drop t a : stays a (a_drop t a).
Proof. split; [apply sublist_filter|done]. Qed.

Lemma stays_with l k a : l <> g_waitingforsemaphore -> stays a (a_with l k a).
Proof. intros H. split; simpl; unfold fupd; by rewrite decide_False by congruence. Qed.

Lemma stays_add t a : stays a (a_add t a).
Proof. unfold a_add. destruct (decide _); by apply stays_with. Qed.

Lemma stays_switch t a : stays a (a_switch t a).
Proof. unfold a_switch. destruct (decide _); [done|]. by apply stays_fields. Qed.

Lemma stays_merge a : stays a (a_merge a).
Proof. unfold a_merge. etrans; by apply stays_with. Qed.

Lemma stays_release a : stays a (a_release a).
Proof. etrans; [apply stays_merge|apply stays_switch]. Qed.

Lemma stays_unblock t a : stays a (a_unblock t a).
Proof. etrans; [apply stays_drop|]. etrans; [apply stays_add|apply stays_switch]. Qed.

Lemma stays_reprio t p a : t ∉ W a -> stays a (a_reprio t p a).
Proof.
  intros Ht. unfold a_reprio. assert (H : stays a (a_add t (a_upd t (set_priority p) (a_drop t a)))).
  { etrans; [apply stays_drop|]. etrans; [|apply stays_add]. apply stays_upd. apply drop_detached. }
  destruct (decide _); [done|]. etrans; [exact H|]. etrans; [apply stays_merge|apply stays_switch].
Qed.

Lemma stays_tick a : a_this a ∉ W a -> stays a (a_tick a).
Proof.
  intros Ht. unfold a_tick. destruct (a_tasks a !! a_this a) as [c|]; [|done]. destruct (is_rr c); [|done].
  destruct (decide _); [|by apply stays_fields]. assert (H : stays a (a_upd (a_this a) (set_timeslice RR_TICKS) a)) by by apply stays_fields.
  destruct (a_lists a g_readytorun) as [|? [|x k]]; [done..|]. destruct (decide _); [|done]. etrans; [exact H|]. by apply stays_reprio.
Qed.

Lemma stays_lock a : stays a (a_lock a).
Proof. by apply stays_fields. Qed.

Lemma stays_unlock a : stays a (a_unlock a).
Proof.
  unfold a_unlock. destruct (decide _); [|by apply stays_fields]. etrans; [|apply stays_release].
  by apply (stays_fields (a_this a) (set_lockcount (Z.max 0 (lock_of (a_tasks a) (a_this a) - 1)))).
Qed.

Lemma stays_post sem a : stays a (a_post sem a).
Proof. unfold a_post. destruct (waiters sem a) as [|w ws]; [done|]. etrans; [by apply (stays_fields w (set_waitsem 0))|apply stays_unblock]. Qed.

Lemma stays_posts n sem : forall a, stays a (a_posts n sem a).
Proof. induction n as [|n IH]; intros a; [done|]. etrans; [apply stays_post|apply IH]. Qed.

Lemma stays_cancel t e a : stays a (a_cancel t e a).
Proof. etrans; [|apply stays_unblock]. etrans; [by apply (stays_fields t (set_waitsem 0))|by apply stays_fields]. Qed.

Lemma stays_setpriority l t p a : l <> g_waitingforsemaphore -> t ∉ W a -> stays a (a_setpriority l t p a).
Proof.
  intros Hl Ht. unfold a_setpriority.
  assert (Hd : forall l', l' <> g_waitingforsemaphore -> stays a (a_with l' (place (a_tasks (a_upd t (set_priority p) (a_drop t a))) t
    (a_lists (a_upd t (set_priority p) (a_drop t a)) l')) (a_upd t (set_priority p) (a_drop t a)))).
  { intros l' Hl'. etrans; [apply stays_drop|]. etrans; [|by apply stays_with]. apply stays_upd, drop_detached. }
  destruct l; cbn [prioritized]; try done; try (by apply stays_upd); try (by apply Hd).
  destruct (decide _); [by apply stays_upd|by apply stays_reprio].
Qed.

Lemma stays_free t a : t ∉ W a -> stays a (a_free t a).
Proof. intros H. split; [done|]. intros x Hx. unfold prio. simpl. rewrite lookup_delete_ne; [done|]. by intros ->. Qed.

Lemma stays_delete t a : stays a (a_delete t a).
Proof. etrans; [apply stays_drop|]. apply stays_free, drop_detached. Qed.

Lemma stays_put t c a : t ∉ W a -> stays a (a_put t c a).
Proof. intros H. split; [done|]. intros x Hx. unfold prio. simpl. rewrite lookup_insert_ne; [done|]. by intros ->. Qed.

(** The task [t] takes its place behind those of at least its priority. *)
Record takes_place (t : Z) (a a' : asched) : Prop := {
  t_list : W a' = place (a_tasks a') t (remove_node t (W a));
  t_prio x : x <> t -> prio (a_tasks a') x = prio (a_tasks a) x
}.

Lemma wait_takes_place sem n a : n <= 0 -> takes_place (a_this a) a (a_wait sem n a).
Proof.
  intros Hn. unfold a_wait. rewrite decide_False by lia. set (t := a_this a).
  set (b := a_upd t (set_pterrno 0) (a_upd t (set_waitsem sem) a)). change (a_this b) with t. unfold a_block.
  assert (Hp : forall x, prio (a_tasks (a_switch (a_this b) (a_merge (a_queue (a_this b) TSTATE_WAIT_SEM (a_drop (a_this b) b))))) x = prio (a_tasks a) x).
  { intros x. unfold a_switch. destruct (decide _); cbn [a_tasks a_upd]; rewrite ?(prio_alter _ _ (set_timeslice RR_TICKS)) by done; simpl;
      unfold b; cbn [a_tasks a_upd]; by rewrite !prio_alter by done. }
  split; [|intros x _; apply Hp]. rewrite (place_ext _ (a_tasks b)).
  - by rewrite switch_lists.
  - intros x. rewrite Hp. unfold b. cbn [a_tasks a_upd]. by rewrite !prio_alter by done.
Qed.

Lemma setpriority_takes_place t p a : takes_place t a (a_setpriority g_waitingforsemaphore t p a).
Proof. split; [done|]. intros x Hx. unfold prio. simpl. by rewrite lookup_alter_ne by congruence. Qed.

(** Whose place is given up by an event of the running task, for a new one. *)
Definition replaced (e : event) : list Z := match e with SetPriority t _ => [t] | _ => [] end.

Lemma event_waiting idle y a e r a' m' : sys_ok idle y a -> enabled idle e y -> spec a (sems (kn y)) e r a' m' ->
  stays a a' /\ (forall t, t ∈ replaced e -> t ∉ W a') \/ exists t, takes_place t a a' /\ (t ∈ W a -> replaced e = [t]) /\ replaced e ⊆ [t].
Proof.
  intros Y He Hs. pose proof (this_ready idle y a Y) as Hin. destruct (not_waiting idle y a _ _ Y Hin ltac:(done)) as [Hth _].
  assert (Hnone : replaced e = [] -> stays a a' -> stays a a' /\ (forall t, t ∈ replaced e -> t ∉ W a')).
  { intros -> H. split; [done|]. by intros t ?%not_elem_of_nil. }
  destruct Hs; lazymatch goal with |- context [a_wait] => idtac | _ => try (left; apply Hnone; [done|]; try done) end.
  - destruct (decide (0 < n)) as [Hn|Hn].
    + left. apply Hnone; [done|]. unfold a_wait. rewrite decide_True by done. by apply stays_fields.
    + right. exists (a_this a). split; [apply wait_takes_place; lia|]. split; [done|]. by intros ? ?%not_elem_of_nil.
  - by apply stays_fields.
  - by apply stays_fields.
  - apply stays_post.
  - etrans; [|apply stays_unlock]. etrans; [apply stays_lock|apply stays_posts].
  - apply stays_cancel.
  - apply stays_cancel.
  - by apply stays_tick.
  - apply stays_lock.
  - apply stays_unlock.
  - by apply stays_setpriority.
  - destruct (decide (l = g_waitingforsemaphore)) as [->|Hl].
    + right. exists t. split; [apply setpriority_takes_place|done].
    + left. destruct (not_waiting idle y a l t Y ltac:(done) Hl) as [Ht _]. pose proof (stays_setpriority l t p a Hl Ht) as Hst.
      split; [done|]. intros t' ->%list_elem_of_singleton Hx. apply Ht. by apply (sublist_subseteq _ _ (y_list _ _ Hst)).
  - simpl in He. destruct He as (_ & Hn & _). unfold a_setup. etrans; [|by apply stays_with]. apply stays_put.
    intros Hx. pose proof Y as [[[R _ _] _] _]. destruct (r_alloc _ _ _ R _ _ Hx) as (_ & _ & [c Hc]). congruence.
  - by apply stays_fields.
  - apply stays_fields. intros c. by destruct rr.
  - apply stays_unblock.
  - apply stays_delete.
Qed.

(** ** The order of the places *)

Definition before (x y : Z) (l : list Z) : Prop := exists l1 l2 l3, l = l1 ++ x :: l2 ++ y :: l3.

Lemma before_filter (P : Z -> Prop) `{!forall x, Decision (P x)} x y l : before x y l -> P x -> P y -> before x y (filter P l).
Proof.
  intros (l1 & l2 & l3 & ->) Hx Hy. exists (filter P l1), (filter P l2), (filter P l3).
  by rewrite filter_app, filter_cons_True, filter_app, filter_cons_True by done.
Qed.

Lemma before_app x y l k : before x y l -> before x y (l ++ k).
Proof. intros (l1 & l2 & l3 & ->). exists l1, l2, (l3 ++ k). by rewrite <- !(assoc_L app), <- !app_comm_cons, <- (assoc_L app). Qed.

Lemma before_last x y l : x ∈ l -> before x y (l ++ [y]).
Proof. intros (l1 & l2 & ->)%list_elem_of_split. exists l1, l2, []. by rewrite <- (assoc_L app). Qed.

(** One waiting task is woken before another: it has a higher priority, or the same and
    an earlier place. *)
Definition wakes (m : gmap Z tcb_s) (log : list Z) (x y : Z) : Prop := prio m y < prio m x \/ prio m y = prio m x /\ before x y log.

(** [ws] is the list of the kernel, [log] has the same tasks in the order of their places. *)
Definition ordered (m : gmap Z tcb_s) (log ws : list Z) : Prop := log ≡ₚ ws /\ NoDup ws /\ StronglySorted (wakes m log) ws.

Definition next_log (e : event) (log ws : list Z) : list Z :=
  let kept := filter (fun t => t ∈ ws /\ t ∉ replaced e) log in kept ++ filter (fun t => t ∉ kept) ws.

Lemma next_log_stays e log ws ws' : log ≡ₚ ws -> ws' ⊆ ws -> (forall t, t ∈ replaced e -> t ∉ ws') -> next_log e log ws' = filter (fun t => t ∈ ws') log.
Proof.
  intros Hp Hs Hr. unfold next_log.
  assert (E : filter (fun t => t ∈ ws' /\ t ∉ replaced e) log = filter (fun t => t ∈ ws') log).
  { apply filter_agree. intros x _. split; [by intros [? _]|]. intros Hx. split; [done|]. intros Hx'. by apply (Hr x). }
  rewrite E. destruct (filter (fun t => t ∉ filter (fun t => t ∈ ws') log) ws') as [|x k] eqn:Ef; [by rewrite app_nil_r|]. exfalso.
  assert (Hx : x ∈ x :: k) by by left. rewrite <- Ef in Hx. apply list_elem_of_filter in Hx as [Hn Hx].
  apply Hn, list_elem_of_filter. split; [done|]. rewrite Hp. by apply Hs.
Qed.

Lemma ordered_sub m m' log ws ws' : ordered m log ws -> ws' `sublist_of` ws -> (forall x, x ∈ ws' -> prio m' x = prio m x) ->
  ordered m' (filter (fun t => t ∈ ws') log) ws'.
Proof.
  intros (Hp & Hnd & Hs) Hl Hprio. pose proof (sublist_subseteq _ _ Hl) as Hsub.
  assert (Hnd' : NoDup ws') by by eapply sublist_NoDup. split; [|split; [done|]].
  - apply NoDup_Permutation; [apply NoDup_filter; by rewrite Hp|done|]. intros x. rewrite list_elem_of_filter, Hp. set_solver.
  - assert (H : forall k, k `sublist_of` ws -> StronglySorted (wakes m log) k).
    { clear -Hs. intros k Hk. induction Hk as [|x l k Hk IH|x l k Hk IH]; [constructor| |].
      - apply StronglySorted_inv in Hs as [Hs Hx]. constructor; [auto|]. rewrite Forall_forall in *. intros z Hz. apply Hx. by apply (sublist_subseteq _ _ Hk).
      - apply StronglySorted_inv in Hs as [Hs _]. auto. }
    specialize (H ws' Hl). clear -H Hprio.
    cut (forall k, k ⊆ ws' -> StronglySorted (wakes m log) k -> StronglySorted (wakes m' (filter (fun t => t ∈ ws') log)) k); [auto|].
    intros k Hk Hss. clear H. revert Hk.
    induction Hss as [|x k Hss IH Hx]; intros Hk; [constructor|]. constructor; [apply IH; set_solver|]. rewrite Forall_forall in *. intros y Hy.
    unfold wakes. rewrite !Hprio by set_solver. destruct (Hx y Hy) as [?|[? ?]]; [by left|right]. split; [done|]. apply before_filter; set_solver.
Qed.

Lemma ordered_stays e m m' log ws ws' : ordered m log ws -> ws' `sublist_of` ws -> (forall x, x ∈ ws' -> prio m' x = prio m x) ->
  (forall t, t ∈ replaced e -> t ∉ ws') -> ordered m' (next_log e log ws') ws'.
Proof.
  intros O Hl Hprio Hr. rewrite (next_log_stays e log ws ws'); [by eapply ordered_sub|apply O|by apply sublist_subseteq|done].
Qed.

Lemma wakes_sorted m log ws : StronglySorted (wakes m log) ws -> sorted m ws.
Proof.
  intros H. induction H as [|x k _ IH Hx]; constructor; [done|]. eapply Forall_impl; [exact Hx|]. intros y [?|[? _]]; simpl; lia.
Qed.

Lemma wakes_app m log k l : StronglySorted (wakes m log) l -> StronglySorted (wakes m (log ++ k)) l.
Proof.
  induction 1 as [|x l _ IH Hx]; constructor; [done|]. eapply Forall_impl; [exact Hx|].
  intros y [?|[? ?]]; [by left|right]. split; [done|]. by apply before_app.
Qed.

Lemma ordered_last m log ws t : ordered m log ws -> t ∉ ws -> ordered m (log ++ [t]) (place m t ws).
Proof.
  intros (Hp & Hnd & Hs) Ht. split; [|split].
  - rewrite place_perm, Hp. symmetry. apply Permutation_cons_append.
  - rewrite place_perm. by constructor.
  - unfold place. pose proof (split_prio m (prio m t) ws) as E. pose proof (after_lt m (prio m t) ws) as Hlt.
    pose proof (fun x => upto_ge m (prio m t) ws x) as Hge. specialize (fun x => Hlt x (wakes_sorted _ _ _ Hs)).
    set (k1 := upto_prio _ _ _) in *. set (k2 := after_prio _ _ _) in *. clearbody k1 k2. subst ws.
    pose proof (wakes_app _ _ [t] _ Hs) as Hs'. apply StronglySorted_app in Hs' as (H12 & H1 & H2).
    apply StronglySorted_app_2; [|done|].
    + intros x z Hx Hz. apply elem_of_cons in Hz as [->|Hz]; [|by apply H12]. specialize (Hge x Hx). unfold wakes.
      destruct (decide (prio m t = prio m x)); [right; split; [done|]|left; lia]. apply before_last. rewrite Hp. set_solver.
    + constructor; [done|]. rewrite Forall_forall. intros z Hz. left. by apply Hlt.
Qed.

Lemma filter_new t (log ws : list Z) k1 k2 : log ≡ₚ k1 ++ k2 -> t ∉ log -> filter (fun x => x ∉ log) (k1 ++ t :: k2) = [t].
Proof.
  intros Hp Ht. assert (H : forall k, k ⊆ log -> filter (fun x => x ∉ log) k = []).
  { induction k as [|x k IH]; intros Hk; [done|]. rewrite filter_cons_False by set_solver. apply IH. set_solver. }
  rewrite filter_app, filter_cons_True by done. rewrite !H; [done|rewrite Hp; set_solver..].
Qed.

Lemma ordered_place e m m' log ws t : ordered m log ws -> (forall x, x <> t -> prio m' x = prio m x) ->
  (t ∈ ws -> replaced e = [t]) -> replaced e ⊆ [t] ->
  ordered m' (next_log e log (place m' t (remove_node t ws))) (place m' t (remove_node t ws)).
Proof.
  intros O Hprio Hin Hr. set (R := remove_node t ws).
  assert (Hsub : R `sublist_of` ws) by apply sublist_filter.
  assert (HR : forall x, x ∈ R <-> x <> t /\ x ∈ ws) by (intros x; unfold R, remove_node; by rewrite list_elem_of_filter).
  assert (OR : ordered m' (filter (fun t => t ∈ R) log) R). { eapply ordered_sub; [done|done|]. intros x [? _]%HR. by apply Hprio. }
  unfold next_log. rewrite (filter_agree (fun x => x ∈ place m' t R /\ x ∉ replaced e) (fun x => x ∈ R)).
  2: { intros x Hx. rewrite (proj1 O) in Hx. rewrite place_elem, HR. destruct (decide (x = t)) as [->|Hne]; [|set_solver].
       rewrite (Hin Hx). set_solver. }
  set (L := filter _ log) in *. assert (HtR : t ∉ R) by (rewrite HR; tauto).
  unfold place at 1. rewrite (filter_new t L (place m' t R)); [by apply ordered_last| |].
  - rewrite split_prio. apply OR.
  - by rewrite (proj1 OR).
Qed.

(** ** Runs with the order of the places *)

Definition waiting_list (y : system) : list Z := default [] (tasks_in g_waitingforsemaphore y).

(** The waiting tasks after the events [es], in the order in which they took their
    places: a task takes its place when its wait begins, and a new one when its priority
    is set while it waits. *)
Fixpoint arrivals (idle : Z) (es : list event) (log : list Z) (y : system) : option (list Z * system) :=
  match es with
  | [] => Some (log, y)
  | e :: es =>
    if decide (enabled idle e y) then '(_, y) ← exec e y; arrivals idle es (next_log e log (waiting_list y)) y else None
  end.

Section Fifo.
Context (idle : Z).

Lemma arrivals_reachable mem es : forall log y log' y', reachable idle mem y -> arrivals idle es log y = Some (log', y') -> reachable idle mem y'.
Proof.
  induction es as [|e es IH]; intros log y log' y' Hr; simpl; [by intros [= _ <-]|]. destruct (decide (enabled idle e y)) as [He|]; [|done].
  destruct (exec e y) as [[r y1]|] eqn:E; [|done]. simpl. apply IH. by eapply reach_step.
Qed.

(** The order is an invariant of the runs. *)
Lemma arrivals_ordered es : forall log y a log' y', sys_ok idle y a -> ordered (a_tasks a) log (W a) ->
  arrivals idle es log y = Some (log', y') -> exists a', sys_ok idle y' a' /\ ordered (a_tasks a') log' (W a').
Proof.
  induction es as [|e es IH]; intros log y a log' y' Y O; simpl; [intros [= <- <-]; eauto|].
  destruct (decide (enabled idle e y)) as [He|]; [|done]. destruct (exec_refines idle y a e Y He) as (r & y1 & a1 & E & Hs & Y1). rewrite E. simpl.
  assert (Ew : waiting_list y1 = W a1) by (unfold waiting_list; by rewrite (tasks_ok idle y1 a1 _ Y1)). rewrite Ew. apply (IH _ y1 a1); [done|].
  destruct (event_waiting idle y a e r a1 _ Y He Hs) as [[[Hl Hp] Hr]|(t & [Hl Hp] & Hin & Hr)]; [by eapply ordered_stays|].
  rewrite Hl. by eapply ordered_place.
Qed.

Lemma boot_ordered : ordered (a_tasks (a_boot idle)) [] (W (a_boot idle)).
Proof. split; [done|]. split; constructor. Qed.

(** The first of the tasks that satisfy [P] is before all others of them. *)
Lemma ordered_first (P : Z -> Prop) `{!forall x, Decision (P x)} m log ws w rest : ordered m log ws -> filter P ws = w :: rest ->
  w ∈ log /\ forall x, x ∈ log -> P x -> x <> w -> wakes m log w x.
Proof.
  intros (Hp & Hnd & Hs) Ef. assert (Hw : w ∈ filter P ws) by (rewrite Ef; by left). apply list_elem_of_filter in Hw as [_ Hw].
  split; [by rewrite Hp|]. intros x Hx HP Hne. rewrite Hp in Hx. clear Hp Hnd Hw.
  induction Hs as [|z l Hs IH Hz]; [by apply not_elem_of_nil in Hx|]. rewrite filter_cons in Ef. destruct (decide (P z)) as [Hd|Hd].
  - injection Ef as -> _. apply elem_of_cons in Hx as [->|Hx]; [done|]. by eapply Forall_forall in Hz.
  - apply elem_of_cons in Hx as [->|Hx]; [done|]. by apply IH.
Qed.
End Fifo.

(** C8: after any run of enabled events from the start of the kernel, posting a semaphore
    that tasks wait for wakes one of them: of those of the highest
    priority among them, the one that took its place first, when its wait began or when
    its priority was last set since.  Its [sem_wait] returns OK, the count goes up by one,
    the others go on waiting in their places, and the woken task runs at once when its
    priority is higher than that of the running task and pre-emption is enabled. *)
Theorem post_wakes_first (idle : Z) (mem : gset Z) (es : list event) (y0 y : system) (log : list Z) (sem n : Z) (m := tcbs (ks (kn y))) :
  idle <> 0 -> 0 ∉ mem -> os_start idle mem = Some y0 -> arrivals idle es [] y0 = Some (log, y) -> sems (kn y) !! sem = Some n -> n < 0 ->
  exists w y', exec (SemPost sem) y = Some (Returned OK, y') /\ w ∈ log /\ waitsem_of m w = sem /\
    (forall x, x ∈ log -> waitsem_of m x = sem -> x <> w -> prio m x < prio m w \/ prio m x = prio m w /\ before w x log) /\
    sems (kn y') !! sem = Some (n + 1) /\ sem_wait_return w (kn y') = Some OK /\
    next_log (SemPost sem) log (waiting_list y') = remove_node w log /\
    current (ks (kn y')) = (if decide (lock_of m (current (ks (kn y))) <= 0 /\ prio m (current (ks (kn y))) < prio m w) then w else current (ks (kn y))).
Proof.
  intros H1 H2 E0 Ea Hn Hneg. destruct (os_start_ok idle mem H1 H2) as (y1 & E1 & Y0 & S0). rewrite E0 in E1. injection E1 as <-.
  destruct (arrivals_ordered idle es [] y0 _ log y Y0 (boot_ordered idle) Ea) as (a & Y & O).
  assert (Hr : reachable idle mem y) by (eapply arrivals_reachable; [by apply reach_start|done]). pose proof Y as [[[R _ _] _] _].
  destruct (post_wakes_head idle mem y sem n (W a) H1 H2 Hr Hn Hneg (tasks_ok idle y a _ Y)) as (w & rest & y' & Ef & _ & Ex & Hc & Hw & Hok & Hcur).
  destruct (ordered_first _ _ _ _ _ _ O Ef) as [Hin Hfirst]. exists w, y'. split_and!; try done.
  - assert (Hw' : w ∈ w :: rest) by by left. rewrite <- Ef in Hw'. by apply list_elem_of_filter in Hw' as [? _].
  - intros x Hx Hs Hne. unfold m. rewrite <- !(r_prio _ _ _ R). by apply Hfirst.
  - unfold waiting_list. rewrite Hw. simpl. rewrite (next_log_stays _ log (W a)); [|apply O|apply sublist_subseteq, sublist_filter|by intros t ?%not_elem_of_nil].
    apply filter_agree. intros x Hx. rewrite (proj1 O) in Hx. unfold remove_node. rewrite list_elem_of_filter. tauto.
Qed.

(** Tasks 1 and 2 have the priority 100, task 3 has 120.  All wait for the semaphore 2000,
    task 3 first, then 1, then 2; then task 1 gets its own priority again, and with it the
    place behind task 2; and then task 3 gets the priority of the others. *)
Definition queueing : list event := three ++ [SemWait 2000; SemWait 2000; SemWait 2000].
Definition requeueing : list event := queueing ++ [SetPriority 1 100; SetPriority 3 100].

Definition woken_by_post (es : list event) : option (list Z * list Z) :=
  y0 ← os_start 1000 sample_mem; '(log, y) ← arrivals 1000 es [] y0; '(_, y') ← exec (SemPost 2000) y; Some (log, waiting_list y').

Lemma post_wakes_first_witness : match (y0 ← os_start 1000 sample_mem; arrivals 1000 requeueing [] y0) with
  | Some (log, y) => log = [2; 1; 3] /\ exists w y', exec (SemPost 2000) y = Some (Returned OK, y') /\ w ∈ log /\
      (forall x, x ∈ log -> waitsem_of (tcbs (ks (kn y))) x = 2000 -> x <> w ->
        prio (tcbs (ks (kn y))) x < prio (tcbs (ks (kn y))) w \/ prio (tcbs (ks (kn y))) x = prio (tcbs (ks (kn y))) w /\ before w x log) /\
      sem_wait_return w (kn y') = Some OK
  | None => False end /\
  woken_by_post queueing = Some ([3; 1; 2], [1; 2]) /\ woken_by_post requeueing = Some ([2; 1; 3], [1; 3]).
Proof.
  split; [|split; by vm_compute]. destruct (os_start 1000 sample_mem) as [y0|] eqn:E0; [|vm_compute in E0; discriminate E0]. rewrite some_bind.
  destruct (arrivals 1000 requeueing [] y0) as [[log y]|] eqn:E; [|vm_compute in E0; injection E0 as <-; vm_compute in E; discriminate E].
  assert (H : log = [2; 1; 3] /\ sems (kn y) !! 2000 = Some (-3)) by
    (clear -E0 E; vm_compute in E0; injection E0 as <-; vm_compute in E; injection E as <- <-; split; by vm_compute).
  destruct H as [Hl Hn]. split; [exact Hl|].
  destruct (post_wakes_first 1000 sample_mem requeueing y0 y log 2000 (-3)) as (w & y' & H1 & H2 & _ & H3 & _ & H4 & _);
    [done|by vm_compute|done|done|exact Hn|done|exists w, y'; exact (conj H1 (conj H2 (conj H3 H4)))].
Defined.
