(* ===== verification/Calendar.v ===== *)
(** * Calendar time (src/nuttx/libc/time)

    The conversions between seconds since 1970 and calendar dates, in the
    configuration of the board: [time_t] is an unsigned 32-bit integer and the
    simplified conversions for dates since 1970 are compiled
    (CONFIG_GREGORIAN_TIME is off).  The reference is the calendar itself: the
    date some number of days after 1 January 1970, one day after the other. *)

From S2P Require Import Prelude.

(** C's [%] and [/] truncate towards zero. *)
Definition clock_isleapyear (year : Z) : bool :=
  if decide (Z.rem year 400 <> 0) then
    if decide (Z.rem year 100 <> 0) then if decide (Z.rem year 4 <> 0) then false else true
    else false
  else true.

Definition g_daysbeforemonth : list Z := [0; 31; 59; 90; 120; 151; 181; 212; 243; 273; 304; 334; 365].

Definition clock_daysbeforemonth (month : Z) (leapyear : bool) : option Z :=
  retval ← aget g_daysbeforemonth month;
  Some (if decide (2 <= month) then if leapyear then retval + 1 else retval else retval).

(** [time_t clock_calendar2utc(year, month, day)], with the month counted from 0. *)
Definition clock_calendar2utc (year month day : Z) : option Z :=
  let days := u32 (s32 (s32 (year - 1970) * 365)) in
  let days := u32 (days + Z.shiftr (s32 (year - 1969)) 2) in
  b ← clock_daysbeforemonth month (clock_isleapyear year);
  let days := u32 (days + b) in
  Some (u32 (days + s32 (day - 1))).

(** The loop over the remaining years: years since 1970, days into the year, and
    whether it is a leap year.  At most five years remain of a four-year period. *)
Fixpoint year_loop (fuel : nat) (value days : Z) : option (Z * Z * bool) :=
  match fuel with
  | O => None
  | S fuel' =>
    let leapyear := clock_isleapyear (value + 1970) in
    let tmp := if leapyear then 366 else 365 in
    if decide (tmp <= days) then year_loop fuel' (value + 1) (u32 (days - tmp))
    else Some (value, days, leapyear)
  end.

(** The binary search of the month. *)
Fixpoint month_loop (fuel : nat) (min max days : Z) (leapyear : bool) : option Z :=
  match fuel with
  | O => None
  | S fuel' =>
    let value := Z.shiftr (min + max) 1 in
    let again min max := if decide (min < max) then month_loop fuel' min max days leapyear else Some min in
    tmp ← clock_daysbeforemonth (value + 1) leapyear;
    if decide (days < tmp) then
      tmp ← clock_daysbeforemonth value leapyear;
      if decide (days < tmp) then again min (value - 1) else Some value
    else again (value + 1) max
  end.

(** [*year], [*month] and [*day]. *)
Definition clock_utc2calendar (days : Z) : option (Z * Z * Z) :=
  let value := days / (4 * 365 + 1) in
  let days := u32 (days - value * (4 * 365 + 1)) in
  let value := Z.shiftl value 2 in
  '(value, days, leapyear) ← year_loop 8 value days;
  let year := 1970 + value in
  value ← month_loop 8 0 11 days leapyear;
  b ← clock_daysbeforemonth value leapyear;
  let days := u32 (days - b) in
  Some (year, value + 1, days + 1).

(** [struct tm]. *)
Record tm := mkTm { tm_sec : Z; tm_min : Z; tm_hour : Z; tm_mday : Z; tm_mon : Z; tm_year : Z }.

Definition SEC_PER_MIN : Z := 60.
Definition SEC_PER_HOUR : Z := 60 * SEC_PER_MIN.
Definition SEC_PER_DAY : Z := 24 * SEC_PER_HOUR.

Definition gmtime_r (timer : Z) : option tm :=
  let epoch := timer in
  let jdn := epoch / SEC_PER_DAY in
  let epoch := u32 (epoch - SEC_PER_DAY * jdn) in
  let hour := epoch / SEC_PER_HOUR in
  let epoch := u32 (epoch - SEC_PER_HOUR * hour) in
  let min := epoch / SEC_PER_MIN in
  let epoch := u32 (epoch - SEC_PER_MIN * min) in
  let sec := epoch in
  '(year, month, day) ← clock_utc2calendar jdn;
  Some (mkTm sec min hour day (month - 1) (year - 1900)).

Definition mktime (tp : tm) : option Z :=
  jdn ← clock_calendar2utc (tm_year tp + 1900) (tm_mon tp) (tm_mday tp);
  Some (u32 (u32 (u32 (jdn * 24 + tm_hour tp) * 60 + tm_min tp) * 60 + tm_sec tp)).

(** ** The calendar *)

Definition leap_year (y : Z) : bool := bool_decide ((y mod 4 = 0 /\ y mod 100 <> 0) \/ y mod 400 = 0).

Definition month_days (leap : bool) (m : Z) : Z :=
  if decide (m = 2) then (if leap then 29 else 28)
  else if decide (m = 4 \/ m = 6 \/ m = 9 \/ m = 11) then 30 else 31.

(** The day after. *)
Definition next_day (d : Z * Z * Z) : Z * Z * Z :=
  let '(y, m, d) := d in
  if decide (d < month_days (leap_year y) m) then (y, m, d + 1)
  else if decide (m < 12) then (y, m + 1, 1) else (y + 1, 1, 1).

(** The date [n] days after 1 January 1970. *)
Definition civil (n : Z) : Z * Z * Z := Nat.iter (Z.to_nat n) next_day (1970, 1, 1).

Definition year_days (leap : bool) : Z := if leap then 366 else 365.

Lemma year_days_range leap : 365 <= year_days leap <= 366.
Proof. destruct leap; simpl; lia. Qed.

(** *** Inside a year *)

Definition next_md (leap : bool) (x : Z * Z) : Z * Z :=
  if decide (x.2 < month_days leap (x.1)) then (x.1, x.2 + 1) else (x.1 + 1, 1).
Definition md (leap : bool) (i : nat) : Z * Z := Nat.iter i (next_md leap) (1, 1).

(** What the code computes for day [i] of a year, and that the next day is still in
    the year unless it is the last one. *)
Definition day_ok (leap : bool) (i : nat) (x : Z * Z) : bool :=
  match month_loop 8 0 11 (Z.of_nat i) leap with
  | Some mo =>
    match clock_daysbeforemonth mo leap with
    | Some b => bool_decide ((mo + 1, u32 (Z.of_nat i - b) + 1) = x) && bool_decide (0 <= mo < 12)
                && bool_decide (b + (u32 (Z.of_nat i - b) + 1) - 1 = Z.of_nat i)
    | None => false
    end
  | None => false
  end && (bool_decide (Z.of_nat (S i) = year_days leap /\ x = (12, 31))
          || bool_decide (x.2 < month_days leap (x.1) \/ x.1 < 12)).

Fixpoint days_ok (leap : bool) (n i : nat) (x : Z * Z) : bool :=
  match n with O => true | S n' => day_ok leap i x && days_ok leap n' (S i) (next_md leap x) end.

Lemma days_ok_spec leap n : forall i x, days_ok leap n i x = true ->
  forall j, (j < n)%nat -> day_ok leap (i + j) (Nat.iter j (next_md leap) x) = true.
Proof.
  induction n as [|n IH]; intros i x H j Hj; [lia|]. simpl in H. apply andb_prop in H as [H1 H2].
  destruct j as [|j]; [by rewrite Nat.add_0_r|].
  rewrite Nat.add_succ_r, Nat.iter_succ_r. apply (IH (S i)); [done|lia].
Qed.

Lemma year_ok leap i : (i < Z.to_nat (year_days leap))%nat -> day_ok leap i (md leap i) = true.
Proof.
  intros Hi. apply (days_ok_spec leap (Z.to_nat (year_days leap)) 0 (1, 1)); [|done].
  destruct leap; vm_compute; reflexivity.
Qed.

Lemma day_ok_month leap i : (i < Z.to_nat (year_days leap))%nat ->
  exists mo b, month_loop 8 0 11 (Z.of_nat i) leap = Some mo /\ clock_daysbeforemonth mo leap = Some b /\
    (mo + 1, u32 (Z.of_nat i - b) + 1) = md leap i /\ 0 <= mo < 12 /\
    b + (u32 (Z.of_nat i - b) + 1) - 1 = Z.of_nat i.
Proof.
  intros Hi. pose proof (year_ok leap i Hi) as H. unfold day_ok in H. apply andb_prop in H as [H _].
  destruct (month_loop _ _ _ _ _) as [mo|]; [|done]. destruct (clock_daysbeforemonth mo leap) as [b|] eqn:Eb; [|done].
  apply andb_prop in H as [H H3]. apply andb_prop in H as [H1 H2].
  exists mo, b. split_and!; [done|done|by apply bool_decide_eq_true in H1|..];
    apply bool_decide_eq_true in H2, H3; lia.
Qed.

Lemma civil_in_year y i : (i < Z.to_nat (year_days (leap_year y)))%nat ->
  Nat.iter i next_day (y, 1, 1) = (y, (md (leap_year y) i).1, (md (leap_year y) i).2).
Proof.
  induction i as [|i IH]; intros Hi; [done|]. rewrite Nat.iter_succ, IH by lia.
  pose proof (year_ok (leap_year y) i ltac:(lia)) as H. unfold day_ok in H. apply andb_prop in H as [_ H].
  unfold md at 3 4. rewrite Nat.iter_succ. change (Nat.iter i _ (1, 1)) with (md (leap_year y) i).
  destruct (md (leap_year y) i) as [m d]. simpl. apply orb_true_iff in H as [H|H]; apply bool_decide_eq_true in H.
  - destruct H as [H _]. lia.
  - unfold next_md. simpl. destruct (decide (d < month_days (leap_year y) m)); [done|].
    simpl in H. rewrite decide_True by lia. done.
Qed.

Lemma md_last leap : md leap (Z.to_nat (year_days leap) - 1) = (12, 31).
Proof. destruct leap; vm_compute; reflexivity. Qed.

Lemma civil_year y : Nat.iter (Z.to_nat (year_days (leap_year y))) next_day (y, 1, 1) = (y + 1, 1, 1).
Proof.
  pose proof (year_days_range (leap_year y)).
  assert (E : Z.to_nat (year_days (leap_year y)) = S (Z.to_nat (year_days (leap_year y)) - 1)) by lia. rewrite E.
  rewrite Nat.iter_succ, civil_in_year, md_last by lia. simpl.
  destruct (leap_year y); reflexivity.
Qed.

(** *** The year *)

(** The number of days before a year, from 1970 on. *)
Fixpoint days_before (n : nat) : Z :=
  match n with O => 0 | S n' => days_before n' + year_days (leap_year (1970 + Z.of_nat n')) end.

Lemma days_before_ge n : 0 <= days_before n.
Proof. induction n as [|n IH]; simpl; [lia|]. pose proof (year_days_range (leap_year (1970 + Z.of_nat n))). lia. Qed.

Lemma iter_add {A} (f : A -> A) a b x : Nat.iter (a + b) f x = Nat.iter b f (Nat.iter a f x).
Proof. rewrite Nat.add_comm. apply Nat.iter_add. Qed.

Lemma civil_days_before n : civil (days_before n) = (1970 + Z.of_nat n, 1, 1).
Proof.
  induction n as [|n IH]; [done|]. simpl. pose proof (days_before_ge n).
  pose proof (year_days_range (leap_year (1970 + Z.of_nat n))).
  unfold civil in *. rewrite Z2Nat.inj_add, iter_add, IH, civil_year by lia.
  f_equal. f_equal. lia.
Qed.

Lemma civil_date n i : (i < Z.to_nat (year_days (leap_year (1970 + Z.of_nat n))))%nat ->
  civil (days_before n + Z.of_nat i) =
    (1970 + Z.of_nat n, (md (leap_year (1970 + Z.of_nat n)) i).1, (md (leap_year (1970 + Z.of_nat n)) i).2).
Proof.
  intros Hi. pose proof (days_before_ge n). unfold civil. rewrite Z2Nat.inj_add, iter_add, Nat2Z.id by lia.
  pose proof (civil_days_before n) as E. unfold civil in E. rewrite E. by apply civil_in_year.
Qed.

Lemma isleap_spec y : 0 <= y -> clock_isleapyear y = leap_year y.
Proof.
  intros Hy. unfold clock_isleapyear, leap_year. rewrite !Z.rem_mod_nonneg by lia.
  symmetry. repeat destruct (decide _); first [apply bool_decide_eq_true_2|apply bool_decide_eq_false_2]; zlia.
Qed.

Lemma days_before_mono n m : (n <= m)%nat -> days_before n + 365 * Z.of_nat (m - n) <= days_before m.
Proof.
  induction m as [|m IH]; intros H; [assert (n = 0)%nat as -> by lia; simpl; lia|].
  destruct (decide (n = S m)) as [-> |]; [rewrite Nat.sub_diag; lia|]. specialize (IH ltac:(lia)). simpl.
  pose proof (year_days_range (leap_year (1970 + Z.of_nat m))). lia.
Qed.

(** Every day number lies in a year. *)
Lemma year_of k : 0 <= k -> exists n i, k = days_before n + Z.of_nat i /\
  (i < Z.to_nat (year_days (leap_year (1970 + Z.of_nat n))))%nat.
Proof.
  intros Hk. assert (H : forall m, k < days_before m -> exists n i, k = days_before n + Z.of_nat i /\
    (i < Z.to_nat (year_days (leap_year (1970 + Z.of_nat n))))%nat).
  { induction m as [|m IH]; simpl; [lia|]. intros H. destruct (decide (k < days_before m)) as [|Hge]; [auto|].
    exists m, (Z.to_nat (k - days_before m)). split; [lia|]. lia. }
  apply (H (S (Z.to_nat k))). pose proof (days_before_mono 0 (S (Z.to_nat k)) ltac:(lia)). simpl in *. lia.
Qed.

Lemma year_loop_spec fuel n v i : (v <= n < v + fuel)%nat -> days_before n - days_before v + 366 < 4294967296 ->
  (i < Z.to_nat (year_days (leap_year (1970 + Z.of_nat n))))%nat ->
  year_loop fuel (Z.of_nat v) (days_before n - days_before v + Z.of_nat i)
  = Some (Z.of_nat n, Z.of_nat i, leap_year (1970 + Z.of_nat n)).
Proof.
  revert v; induction fuel as [|fuel IH]; intros v Hv Hb Hi; [lia|]. simpl.
  rewrite isleap_spec by lia. rewrite (Z.add_comm (Z.of_nat v)).
  destruct (decide (v = n)) as [-> |Hne].
  - fold (year_days (leap_year (1970 + Z.of_nat n))). rewrite decide_False by lia. do 3 f_equal. lia.
  - pose proof (days_before_mono (S v) n ltac:(lia)) as Hm. simpl in Hm.
    fold (year_days (leap_year (1970 + Z.of_nat v))) in *.
    pose proof (year_days_range (leap_year (1970 + Z.of_nat n))). pose proof (year_days_range (leap_year (1970 + Z.of_nat v))).
    rewrite decide_True by lia. replace (Z.of_nat v + 1) with (Z.of_nat (S v)) by lia.
    replace (u32 _) with (days_before n - days_before (S v) + Z.of_nat i).
    + apply IH; [lia| |done]. pose proof (days_before_mono v (S v) ltac:(lia)). lia.
    + unfold u32. simpl. rewrite Z.mod_small; lia.
Qed.

#[local] Arguments year_loop : simpl never.
#[local] Arguments month_loop : simpl never.

(** Up to 2101 every four-year period has 1461 days. *)
Lemma days_before_periods q : (q <= 32)%nat -> days_before (4 * q) = 1461 * Z.of_nat q.
Proof. intros Hq. do 33 (destruct q as [|q]; [vm_compute; reflexivity|]). lia. Qed.

Lemma utc2calendar_spec n i : (i < Z.to_nat (year_days (leap_year (1970 + Z.of_nat n))))%nat ->
  days_before n + Z.of_nat i <= 48212 ->
  exists mo b, clock_utc2calendar (days_before n + Z.of_nat i) =
      Some (1970 + Z.of_nat n, mo + 1, u32 (Z.of_nat i - b) + 1) /\
    clock_daysbeforemonth mo (leap_year (1970 + Z.of_nat n)) = Some b /\
    (mo + 1, u32 (Z.of_nat i - b) + 1) = md (leap_year (1970 + Z.of_nat n)) i /\ 0 <= mo < 12 /\
    b + (u32 (Z.of_nat i - b) + 1) - 1 = Z.of_nat i.
Proof.
  intros Hi Hk. set (k := days_before n + Z.of_nat i) in *. pose proof (days_before_ge n) as H0.
  destruct (day_ok_month _ _ Hi) as (mo & b & Em & Eb & Emd & Hmo & Hb). exists mo, b. split_and!; try done; try lia.
  assert (Hq : 0 <= k / 1461 <= 32) by (split; [apply Z.div_pos; lia|apply Z.lt_succ_r, Z.div_lt_upper_bound; lia]).
  pose proof (Z.div_mod k 1461 ltac:(lia)) as Hdm. pose proof (Z.mod_pos_bound k 1461 ltac:(lia)) as Hmb.
  set (q := Z.to_nat (k / 1461)). assert (Eq : k / 1461 = Z.of_nat q) by (unfold q; lia).
  pose proof (days_before_periods q ltac:(unfold q; lia)) as Hp.
  assert (H1 : (4 * q <= n)%nat).
  { destruct (decide (4 * q <= n)%nat); [done|]. pose proof (days_before_mono (S n) (4 * q) ltac:(lia)) as Hm.
    rewrite Hp in Hm. cbn [days_before] in Hm. lia. }
  assert (H2 : (n < 4 * q + 8)%nat).
  { destruct (decide (n < 4 * q + 8)%nat); [done|]. pose proof (days_before_mono (4 * q) n ltac:(lia)). lia. }
  unfold clock_utc2calendar. change (4 * 365 + 1) with 1461. rewrite Eq.
  replace (u32 (k - Z.of_nat q * 1461)) with (days_before n - days_before (4 * q) + Z.of_nat i)
    by (unfold u32; rewrite Z.mod_small; lia).
  replace (Z.shiftl (Z.of_nat q) 2) with (Z.of_nat (4 * q)) by (rewrite Z.shiftl_mul_pow2 by lia; lia).
  rewrite year_loop_spec; [|lia|lia|done]. simpl. rewrite Em. simpl. rewrite Eb. simpl. done.
Qed.

Lemma utc2calendar_civil k : 0 <= k <= 48212 -> clock_utc2calendar k = Some (civil k).
Proof.
  intros Hk. destruct (year_of k ltac:(lia)) as (n & i & -> & Hi).
  destruct (utc2calendar_spec n i Hi ltac:(lia)) as (mo & b & -> & _ & Emd & _). rewrite civil_date by done.
  by rewrite <- Emd.
Qed.

(** The time of day. *)
Lemma gmtime_time t : 0 <= t < 4294967296 ->
  gmtime_r t = ('(y, m, d) ← clock_utc2calendar (t / 86400);
                Some (mkTm (t mod 60) (t / 60 mod 60) (t / 3600 mod 24) d (m - 1) (y - 1900))).
Proof.
  intros Ht. unfold gmtime_r, SEC_PER_DAY, SEC_PER_HOUR, SEC_PER_MIN. change (24 * (60 * 60)) with 86400. change (60 * 60) with 3600.
  assert (E1 : u32 (t - 86400 * (t / 86400)) = t mod 86400).
  { rewrite <- Z.mod_eq by lia. unfold u32. apply Z.mod_small. zlia. }
  assert (E2 : t mod 86400 / 3600 = t / 3600 mod 24) by zlia.
  assert (E3 : u32 (t mod 86400 - 3600 * (t / 3600 mod 24)) = t mod 3600).
  { unfold u32. rewrite Z.mod_small; zlia. }
  assert (E4 : t mod 3600 / 60 = t / 60 mod 60) by zlia.
  assert (E5 : u32 (t mod 3600 - 60 * (t / 60 mod 60)) = t mod 60).
  { unfold u32. rewrite Z.mod_small; zlia. }
  by rewrite E1, E2, E3, E4, E5.
Qed.

(** The day number of a date of the years 1970 to 2100. *)
Lemma calendar2utc_spec n mo b d : (n <= 130)%nat ->
  clock_daysbeforemonth mo (leap_year (1970 + Z.of_nat n)) = Some b -> 0 <= b <= 366 -> 1 <= d <= 366 ->
  clock_calendar2utc (1970 + Z.of_nat n) mo d = Some (days_before n + b + d - 1).
Proof.
  intros Hn Eb Hb Hd. unfold clock_calendar2utc. rewrite isleap_spec, Eb by lia. simpl.
  assert (Hy : 365 * Z.of_nat n + Z.shiftr (Z.of_nat n + 1) 2 = days_before n).
  { do 131 (destruct n as [|n]; [vm_compute; reflexivity|]). lia. }
  assert (Hs : 0 <= Z.shiftr (Z.of_nat n + 1) 2 <= 131).
  { rewrite Z.shiftr_div_pow2 by lia. change (2 ^ 2) with 4. zlia. }
  rewrite (s32_id (1970 + Z.of_nat n - 1970)), (s32_id (1970 + Z.of_nat n - 1969)), (s32_id (d - 1)) by lia.
  replace (1970 + Z.of_nat n - 1970) with (Z.of_nat n) by lia.
  replace (1970 + Z.of_nat n - 1969) with (Z.of_nat n + 1) by lia.
  rewrite (s32_id (Z.of_nat n * 365)) by lia. unfold u32.
  rewrite !(Z.mod_small (Z.of_nat n * 365)) by lia. rewrite !(Z.mod_small (Z.of_nat n * 365 + Z.shiftr _ _)) by lia.
  rewrite (Z.mod_small (Z.of_nat n * 365 + Z.shiftr _ _ + b)) by lia. rewrite Z.mod_small by lia. f_equal. lia.
Qed.

(** C33: For every second up to the end of 1 January 2102, the broken-down time is
    the calendar's: the date that many days after 1 January 1970, with the hour,
    the minute and the second of the day. *)
Theorem gmtime_correct (t : Z) : 0 <= t < 48213 * 86400 ->
  let '(y, m, d) := civil (t / 86400) in
  gmtime_r t = Some (mkTm (t mod 60) (t / 60 mod 60) (t / 3600 mod 24) d (m - 1) (y - 1900)).
Proof.
  intros Ht. rewrite gmtime_time by lia. rewrite utc2calendar_civil.
  - destruct (civil (t / 86400)) as [[y m] d]. done.
  - split; [apply Z.div_pos; lia|]. apply Z.lt_succ_r, Z.div_lt_upper_bound; lia.
Qed.

(** C34: Converting a time to a broken-down date and back gives the same second, for
    every time before the year 2101. *)
Theorem mktime_gmtime (t : Z) : 0 <= t < 47847 * 86400 ->
  exists tp, gmtime_r t = Some tp /\ mktime tp = Some t.
Proof.
  intros Ht. assert (Hk : 0 <= t / 86400 < 47847) by (split; [apply Z.div_pos; lia|apply Z.div_lt_upper_bound; lia]).
  destruct (year_of (t / 86400) ltac:(lia)) as (n & i & Ek & Hi).
  destruct (utc2calendar_spec n i Hi ltac:(lia)) as (mo & b & E & Eb & _ & Hmo & Hb).
  rewrite gmtime_time, Ek, E by lia. simpl. eexists. split; [done|]. unfold mktime. simpl.
  replace (mo + 1 - 1) with mo by lia. replace (1970 + Z.of_nat n - 1900 + 1900) with (1970 + Z.of_nat n) by lia.
  assert (Hn : (n <= 130)%nat).
  { destruct (decide (n <= 130)%nat); [done|]. pose proof (days_before_mono 131 n ltac:(lia)) as Hm.
    change (days_before 131) with 47847 in Hm. lia. }
  assert (Hu : 0 <= u32 (Z.of_nat i - b) < 4294967296) by (unfold u32; apply Z.mod_pos_bound; lia).
  pose proof (year_days_range (leap_year (1970 + Z.of_nat n))).
  assert (Hb0 : 0 <= b).
  { unfold clock_daysbeforemonth in Eb. destruct (aget g_daysbeforemonth mo) as [v|] eqn:Ev; [|done]. simpl in Eb.
    assert (0 <= v) by (apply aget_Some in Ev as [_ Ev]; apply list_elem_of_lookup_2 in Ev;
      assert (Hall : Forall (fun v => 0 <= v) g_daysbeforemonth) by (repeat constructor; lia);
      rewrite Forall_forall in Hall; auto).
    repeat destruct (decide _); destruct (leap_year _); simplify_eq; lia. }
  rewrite (calendar2utc_spec n mo b) by (done || lia). simpl.
  replace (days_before n + b + (u32 (Z.of_nat i - b) + 1) - 1) with (t / 86400) by lia.
  f_equal. unfold u32. clear - Ht. rewrite (Z.mod_small (t / 86400 * 24 + _)) by zlia.
  rewrite (Z.mod_small ((t / 86400 * 24 + _) * 60 + _)) by zlia. rewrite Z.mod_small; zlia.
Qed.

(** The date is lost once the calendar skips the leap day of 2100: 2 January
    2102 is reported as 1 January 2102 again, and a date of 2101 is converted to a
    time one day late. *)
Theorem calendar_after_2100 :
  civil 48213 = (2102, 1, 2) /\ gmtime_r (48213 * 86400) = Some (mkTm 0 0 0 1 0 202) /\
  civil 47847 = (2101, 1, 1) /\ mktime (mkTm 0 0 0 1 0 201) = Some (47848 * 86400).
Proof.
  pose proof (civil_date 132 1) as E1. pose proof (civil_date 131 0) as E2.
  split_and!; [|vm_compute; reflexivity| |vm_compute; reflexivity].
  - change (days_before 132 + Z.of_nat 1) with 48213 in E1. rewrite E1; vm_compute; [done|lia].
  - change (days_before 131 + Z.of_nat 0) with 47847 in E2. rewrite E2; vm_compute; [done|lia].
Qed.

Lemma gmtime_correct_witness : gmtime_r 1519862399 = Some (mkTm 59 59 23 28 1 118).
Proof.
  assert (E : civil (1519862399 / 86400) = (2018, 2, 28)).
  { change (1519862399 / 86400) with (days_before 48 + Z.of_nat 58). rewrite civil_date; vm_compute; [reflexivity|lia]. }
  pose proof (gmtime_correct 1519862399 ltac:(lia)) as H. rewrite E in H. exact H.
Defined.

Lemma mktime_gmtime_witness : exists tp, gmtime_r 4107542399 = Some tp /\ mktime tp = Some 4107542399.
Proof. apply (mktime_gmtime 4107542399). lia. Defined.
