(* ===== verification/MmHeap.v ===== *)
(** * The memory manager (src/nuttx/mm/mm_heap)

    The kernel's heap: regions of physically adjacent chunks, each with a header
    that holds its size and the size of the chunk before it, with the allocation
    flag in the top bit; and one doubly linked list of the free chunks, ordered by
    size, with a list head per power of two in it.  The headers and links are kept
    as four maps from addresses, one per field, as the code reads and writes them;
    reading a field that was never written is undefined.  The theorems relate the
    operations to the list of the chunks of every region.  The semaphore that makes
    the operations exclusive is not modelled: an operation is one step. *)

From Stdlib Require Import Sorted.
From S2P Require Import Prelude Queue.

Definition MM_MIN_SHIFT : Z := 4.
Definition MM_MAX_SHIFT : Z := 22.
Definition MM_MIN_CHUNK : Z := Z.shiftl 1 MM_MIN_SHIFT.
Definition MM_MAX_CHUNK : Z := Z.shiftl 1 MM_MAX_SHIFT.
Definition MM_NNODES : Z := MM_MAX_SHIFT - MM_MIN_SHIFT + 1.
Definition MM_GRAN_MASK : Z := MM_MIN_CHUNK - 1.
Definition MM_ALLOC_BIT : Z := 0x80000000.
Definition SIZEOF_MM_ALLOCNODE : Z := 8.
Definition SIZEOF_MM_FREENODE : Z := 16.
Definition CONFIG_MM_REGIONS : nat := 2.

(** 32-bit [~x]. *)
Definition not32 (x : Z) : Z := u32 (-1 - x).
Definition MM_ALIGN_UP (a : Z) : Z := Z.land (u32 (a + MM_GRAN_MASK)) (not32 MM_GRAN_MASK).
Definition MM_ALIGN_DOWN (a : Z) : Z := Z.land a (not32 MM_GRAN_MASK).

(** [struct mm_heap_s]: the fields of the nodes in memory, by node address; the
    address of [mm_nodelist]; the regions. *)
Record mm_heap := mkHeap {
  m_size : gmap Z Z;
  m_preceding : gmap Z Z;
  m_flink : gmap Z Z;
  m_blink : gmap Z Z;
  mm_nodelist : Z;
  mm_heapsize : Z;
  mm_heapstart : list Z;
  mm_heapend : list Z
}.

Definition wr_size (p v : Z) (h : mm_heap) : mm_heap :=
  mkHeap (<[p := v]> (m_size h)) (m_preceding h) (m_flink h) (m_blink h) (mm_nodelist h) (mm_heapsize h)
         (mm_heapstart h) (mm_heapend h).
Definition wr_preceding (p v : Z) (h : mm_heap) : mm_heap :=
  mkHeap (m_size h) (<[p := v]> (m_preceding h)) (m_flink h) (m_blink h) (mm_nodelist h) (mm_heapsize h)
         (mm_heapstart h) (mm_heapend h).
Definition wr_flink (p v : Z) (h : mm_heap) : mm_heap :=
  mkHeap (m_size h) (m_preceding h) (<[p := v]> (m_flink h)) (m_blink h) (mm_nodelist h) (mm_heapsize h)
         (mm_heapstart h) (mm_heapend h).
Definition wr_blink (p v : Z) (h : mm_heap) : mm_heap :=
  mkHeap (m_size h) (m_preceding h) (m_flink h) (<[p := v]> (m_blink h)) (mm_nodelist h) (mm_heapsize h)
         (mm_heapstart h) (mm_heapend h).

(** [&heap->mm_nodelist[i]] *)
Definition node_at (h : mm_heap) (i : Z) : Z := mm_nodelist h + SIZEOF_MM_FREENODE * i.

(** ** The operations *)

(** [while (size > 1) { ndx++; size >>= 1; }] *)
Fixpoint ndx_loop (fuel : nat) (size ndx : Z) : option Z :=
  match fuel with
  | O => None
  | S fuel' => if decide (1 < size) then ndx_loop fuel' (Z.shiftr size 1) (ndx + 1) else Some ndx
  end.

Definition mm_size2ndx (size : Z) : option Z :=
  if decide (MM_MAX_CHUNK <= size) then Some (MM_NNODES - 1)
  else ndx_loop 32 (Z.shiftr size MM_MIN_SHIFT) 0.

(** [for (...; next && next->size && next->size < node->size; prev = next, next = next->flink)] *)
Fixpoint place_loop (fuel : nat) (h : mm_heap) (size prev next : Z) : option (Z * Z) :=
  match fuel with
  | O => None
  | S fuel' =>
    if decide (next = 0) then Some (prev, next)
    else
      n ← m_size h !! next;
      if decide (n <> 0 /\ n < size) then
        f ← m_flink h !! next;
        place_loop fuel' h size next f
      else Some (prev, next)
  end.

Definition mm_addfreechunk (node : Z) (h : mm_heap) : option mm_heap :=
  size_ ← m_size h !! node;
  ndx ← mm_size2ndx size_;
  f ← m_flink h !! node_at h ndx;
  '(prev, next) ← place_loop (S (size (m_flink h))) h size_ (node_at h ndx) f;
  let h := wr_flink prev node h in
  let h := wr_blink node prev h in
  let h := wr_flink node next h in
  Some (if decide (next = 0) then h else wr_blink next node h).

(** [node->blink->flink = node->flink; if (node->flink) node->flink->blink = node->blink;] *)
Definition remove_free (node : Z) (h : mm_heap) : option mm_heap :=
  b ← m_blink h !! node;
  f ← m_flink h !! node;
  let h := wr_flink b f h in
  Some (if decide (f = 0) then h else wr_blink f b h).

(** [for (node = mm_nodelist[ndx].flink; node && node->size < size; node = node->flink)] *)
Fixpoint search_loop (fuel : nat) (h : mm_heap) (size node : Z) : option Z :=
  match fuel with
  | O => None
  | S fuel' =>
    if decide (node = 0) then Some node
    else
      n ← m_size h !! node;
      if decide (n < size) then f ← m_flink h !! node; search_loop fuel' h size f
      else Some node
  end.

(** [mm_malloc], when a node was found: it leaves the list, what it has too much becomes
    a free chunk, and it is marked. *)
Definition take_chunk (size_ node : Z) (h : mm_heap) : option (Z * mm_heap) :=
  h ← remove_free node h;
  nsize ← m_size h !! node;
  let remaining := u32 (nsize - size_) in
  h ← (if decide (SIZEOF_MM_FREENODE <= remaining) then
         let next := u32 (node + nsize) in
         let remainder := u32 (node + size_) in
         let h := wr_size remainder remaining h in
         let h := wr_preceding remainder size_ h in
         let h := wr_size node size_ h in
         np ← m_preceding h !! next;
         let h := wr_preceding next (Z.lor remaining (Z.land np MM_ALLOC_BIT)) h in
         mm_addfreechunk remainder h
       else Some h);
  p ← m_preceding h !! node;
  let h := wr_preceding node (Z.lor p MM_ALLOC_BIT) h in
  Some (u32 (node + SIZEOF_MM_ALLOCNODE), h).

Definition mm_malloc (size_ : Z) (h : mm_heap) : option (Z * mm_heap) :=
  if decide (size_ < 1) then Some (0, h)
  else
    let size_ := MM_ALIGN_UP (u32 (size_ + SIZEOF_MM_ALLOCNODE)) in
    ndx ← (if decide (MM_MAX_CHUNK <= size_) then Some (MM_NNODES - 1) else mm_size2ndx size_);
    f ← m_flink h !! node_at h ndx;
    node ← search_loop (S (size (m_flink h))) h size_ f;
    if decide (node = 0) then Some (0, h) else take_chunk size_ node h.

(** [mm_free]: the next chunk joins when it is free; the node behind is the result ... *)
Definition free_next (node : Z) (h : mm_heap) : option (Z * mm_heap) :=
  nsize ← m_size h !! node;
  let next := u32 (node + nsize) in
  np ← m_preceding h !! next;
  if decide (Z.land np MM_ALLOC_BIT = 0) then
    nextsize ← m_size h !! next;
    let andbeyond := u32 (next + nextsize) in
    h ← remove_free next h;
    let h := wr_size node (u32 (nsize + nextsize)) h in
    ap ← m_preceding h !! andbeyond;
    Some (andbeyond, wr_preceding andbeyond (Z.lor (u32 (nsize + nextsize)) (Z.land ap MM_ALLOC_BIT)) h)
  else Some (next, h).

(** ... and then the previous one; the node that is now free is the result. *)
Definition free_prev (node next : Z) (h : mm_heap) : option (Z * mm_heap) :=
  p ← m_preceding h !! node;
  let prev := u32 (node - p) in
  pp ← m_preceding h !! prev;
  if decide (Z.land pp MM_ALLOC_BIT = 0) then
    h ← remove_free prev h;
    psize ← m_size h !! prev;
    nsize ← m_size h !! node;
    let h := wr_size prev (u32 (psize + nsize)) h in
    np ← m_preceding h !! next;
    Some (prev, wr_preceding next (Z.lor (u32 (psize + nsize)) (Z.land np MM_ALLOC_BIT)) h)
  else Some (node, h).

Definition mm_free (mem : Z) (h : mm_heap) : option mm_heap :=
  if decide (mem = 0) then Some h
  else
    let node := u32 (mem - SIZEOF_MM_ALLOCNODE) in
    p ← m_preceding h !! node;
    let h := wr_preceding node (Z.land p (not32 MM_ALLOC_BIT)) h in
    '(next, h) ← free_next node h;
    '(node, h) ← free_prev node next h;
    mm_addfreechunk node h.

(** [mm_addregion]; a third region would be written behind the arrays. *)
Definition mm_addregion (heapstart heapsize : Z) (h : mm_heap) : option mm_heap :=
  let heapbase := MM_ALIGN_UP heapstart in
  let heapend := MM_ALIGN_DOWN (u32 (heapstart + heapsize)) in
  let heapsize := u32 (heapend - heapbase) in
  if decide (CONFIG_MM_REGIONS <= length (mm_heapstart h))%nat then None
  else
    let h := wr_preceding heapbase MM_ALLOC_BIT (wr_size heapbase SIZEOF_MM_ALLOCNODE h) in
    let node := u32 (heapbase + SIZEOF_MM_ALLOCNODE) in
    let nsize := u32 (heapsize - 2 * SIZEOF_MM_ALLOCNODE) in
    let h := wr_preceding node SIZEOF_MM_ALLOCNODE (wr_size node nsize h) in
    let last := u32 (heapend - SIZEOF_MM_ALLOCNODE) in
    let h := wr_preceding last (Z.lor nsize MM_ALLOC_BIT) (wr_size last SIZEOF_MM_ALLOCNODE h) in
    let h := mkHeap (m_size h) (m_preceding h) (m_flink h) (m_blink h) (mm_nodelist h)
               (u32 (mm_heapsize h + heapsize)) (mm_heapstart h ++ [heapbase]) (mm_heapend h ++ [last]) in
    mm_addfreechunk node h.

(** [memset(heap->mm_nodelist, 0, ...)] *)
Fixpoint clear_nodes (n : nat) (i : Z) (h : mm_heap) : mm_heap :=
  match n with
  | O => h
  | S n' =>
    let p := node_at h i in
    clear_nodes n' (i + 1) (wr_blink p 0 (wr_flink p 0 (wr_preceding p 0 (wr_size p 0 h))))
  end.

(** [for (i = 1; i < MM_NNODES; i++)] *)
Fixpoint link_nodes (n : nat) (i : Z) (h : mm_heap) : mm_heap :=
  match n with
  | O => h
  | S n' =>
    link_nodes n' (i + 1) (wr_blink (node_at h i) (node_at h (i - 1)) (wr_flink (node_at h (i - 1)) (node_at h i) h))
  end.

Definition mm_initialize (heapstart heapsize : Z) (h : mm_heap) : option mm_heap :=
  let h := mkHeap (m_size h) (m_preceding h) (m_flink h) (m_blink h) (mm_nodelist h) 0 [] [] in
  let h := clear_nodes (Z.to_nat MM_NNODES) 0 h in
  let h := link_nodes (Z.to_nat MM_NNODES - 1) 1 h in
  mm_addregion heapstart heapsize h.

(** The counters of [mm_mallinfo]: the free chunks, the largest one, and the bytes in
    use and free. *)
Record counts := mkCounts { c_ordblks : Z; c_mxordblk : Z; c_uordblks : Z; c_fordblks : Z }.

(** [for (node = mm_heapstart[region]; node < mm_heapend[region]; node += node->size)] *)
Fixpoint info_loop (fuel : nat) (h : mm_heap) (node last : Z) (i : counts) : option counts :=
  match fuel with
  | O => None
  | S fuel' =>
    if decide (node < last) then
      n ← m_size h !! node;
      p ← m_preceding h !! node;
      info_loop fuel' h (u32 (node + n)) last
        (if decide (Z.land p MM_ALLOC_BIT <> 0)
         then mkCounts (c_ordblks i) (c_mxordblk i) (u32 (c_uordblks i + n)) (c_fordblks i)
         else mkCounts (s32 (c_ordblks i + 1)) (if decide (c_mxordblk i < n) then n else c_mxordblk i) (c_uordblks i)
                     (u32 (c_fordblks i + n)))
    else Some i
  end.

Fixpoint info_regions (h : mm_heap) (starts ends : list Z) (i : counts) : option counts :=
  match starts, ends with
  | a :: starts', e :: ends' =>
    i ← info_loop (S (size (m_size h))) h a e i;
    info_regions h starts' ends' (mkCounts (c_ordblks i) (c_mxordblk i) (u32 (c_uordblks i + SIZEOF_MM_ALLOCNODE)) (c_fordblks i))
  | _, _ => Some i
  end.

(** [struct mallinfo], whose fields are [int]. *)
Record mallinfo := mkInfo { arena : Z; ordblks : Z; mxordblk : Z; uordblks : Z; fordblks : Z }.

Definition mm_mallinfo (h : mm_heap) : option mallinfo :=
  i ← info_regions h (mm_heapstart h) (mm_heapend h) (mkCounts 0 0 0 0);
  Some (mkInfo (s32 (mm_heapsize h)) (c_ordblks i) (s32 (c_mxordblk i)) (s32 (c_uordblks i)) (s32 (c_fordblks i))).

(** ** Arithmetic of the headers *)

(** A [preceding] field: the size of the chunk before, and the flag. *)
Definition enc (p : Z) (alloc : bool) : Z := if alloc then p + MM_ALLOC_BIT else p.

Lemma low_bit31 p : 0 <= p < MM_ALLOC_BIT -> Z.testbit p 31 = false.
Proof.
  intros H. unfold MM_ALLOC_BIT in H. destruct (decide (p = 0)) as [-> |]; [apply Z.bits_0|].
  apply Z.bits_above_log2; [lia|]. apply Z.log2_lt_pow2; lia.
Qed.

Lemma land_low p : 0 <= p < MM_ALLOC_BIT -> Z.land p MM_ALLOC_BIT = 0.
Proof.
  intros H. change MM_ALLOC_BIT with (2 ^ 31). apply Z.bits_inj'. intros n Hn. rewrite Z.land_spec, Z.bits_0.
  destruct (decide (n = 31)) as [-> |]; [by rewrite low_bit31|]. rewrite Z.pow2_bits_false by lia. apply andb_false_r.
Qed.

Lemma lor_low p : 0 <= p < MM_ALLOC_BIT -> Z.lor p MM_ALLOC_BIT = p + MM_ALLOC_BIT.
Proof. intros H. pose proof (Z.add_lor_land p MM_ALLOC_BIT) as E. rewrite land_low in E by done. lia. Qed.

Lemma land_bit p al : 0 <= p < MM_ALLOC_BIT -> Z.land (enc p al) MM_ALLOC_BIT = if al then MM_ALLOC_BIT else 0.
Proof.
  intros H. unfold enc. destruct al; [|by apply land_low].
  rewrite <- lor_low, Z.land_lor_distr_l, land_low, Z.land_diag by done. apply Z.lor_0_l.
Qed.

Lemma enc_keep n p al : 0 <= p < MM_ALLOC_BIT -> 0 <= n < MM_ALLOC_BIT ->
  Z.lor n (Z.land (enc p al) MM_ALLOC_BIT) = enc n al.
Proof. intros Hp Hn. rewrite land_bit by done. destruct al; [by apply lor_low|apply Z.lor_0_r]. Qed.

Lemma enc_set p al : 0 <= p < MM_ALLOC_BIT -> Z.lor (enc p al) MM_ALLOC_BIT = enc p true.
Proof.
  intros H. unfold enc. destruct al; [|by apply lor_low].
  rewrite <- lor_low by done. by rewrite <- Z.lor_assoc, Z.lor_diag.
Qed.

Lemma enc_clear p al : 0 <= p < MM_ALLOC_BIT -> Z.land (enc p al) (not32 MM_ALLOC_BIT) = p.
Proof.
  intros H. change (not32 MM_ALLOC_BIT) with (Z.ones 31). rewrite Z.land_ones by lia.
  unfold enc. destruct al; unfold MM_ALLOC_BIT in *; change (2 ^ 31) with 2147483648; zlia.
Qed.

Lemma align_up_spec a : 0 <= a -> a + 15 < 4294967296 -> MM_ALIGN_UP a = (a + 15) / 16 * 16.
Proof.
  intros Ha Hb. unfold MM_ALIGN_UP. change MM_GRAN_MASK with 15. change (not32 15) with (Z.ldiff (Z.ones 32) (Z.ones 4)).
  unfold u32. rewrite Z.mod_small by lia.
  replace (Z.land (a + 15) (Z.ldiff (Z.ones 32) (Z.ones 4))) with (Z.ldiff (a + 15) (Z.ones 4)).
  - rewrite Z.ldiff_ones_r by lia. rewrite Z.shiftr_div_pow2, Z.shiftl_mul_pow2 by lia. done.
  - apply Z.bits_inj'. intros n Hn. rewrite Z.land_spec, !Z.ldiff_spec.
    destruct (decide (n < 32)) as [Hlt|Hge].
    + rewrite (Z.ones_spec_low 32 n) by lia. done.
    + assert (Et : Z.testbit (a + 15) n = false).
      { apply Z.bits_above_log2; [lia|]. apply Z.log2_lt_pow2; [lia|].
        assert (2 ^ 32 <= 2 ^ n) by (apply Z.pow_le_mono_r; lia). lia. }
      by rewrite Et.
Qed.

(** The list head for a size. *)
Definition ndx_of (n : Z) : Z := if decide (4194304 <= n) then 18 else Z.log2 (n / 16).

Lemma ndx_loop_spec fuel : forall s ndx, 0 <= s < 2 ^ Z.of_nat fuel -> (0 < fuel)%nat ->
  ndx_loop fuel s ndx = Some (ndx + Z.log2 s).
Proof.
  induction fuel as [|fuel IH]; intros s ndx Hs Hf; [lia|]. simpl.
  destruct (decide (1 < s)) as [H1|H1].
  - assert (Hfl : (0 < fuel)%nat). { destruct fuel; [|lia]. change (2 ^ Z.of_nat 1) with 2 in Hs. lia. }
    rewrite IH; [|rewrite Z.shiftr_div_pow2 by lia; split; [apply Z.div_pos; lia|]|done].
    + f_equal. rewrite Z.log2_shiftr by lia. pose proof (Z.log2_le_mono 2 s ltac:(lia)) as Hl. change (Z.log2 2) with 1 in Hl. lia.
    + change (2 ^ 1) with 2. apply Z.div_lt_upper_bound; [lia|]. rewrite Nat2Z.inj_succ, Z.pow_succ_r in Hs by lia. lia.
  - f_equal. assert (s = 0 \/ s = 1) as [-> | ->] by lia; simpl; lia.
Qed.

Lemma size2ndx_spec n : 0 <= n < 4294967296 -> mm_size2ndx n = Some (ndx_of n).
Proof.
  intros Hn. unfold mm_size2ndx, ndx_of. change MM_MAX_CHUNK with 4194304. change (MM_NNODES - 1) with 18.
  destruct (decide _); [done|]. change MM_MIN_SHIFT with 4. rewrite Z.shiftr_div_pow2 by lia. change (2 ^ 4) with 16.
  rewrite ndx_loop_spec; [done| |lia]. split; [apply Z.div_pos; lia|]. apply Z.div_lt_upper_bound; lia.
Qed.

Lemma ndx_of_range n : 0 <= n -> 0 <= ndx_of n <= 18.
Proof.
  intros Hn. unfold ndx_of. destruct (decide _); [lia|]. split; [apply Z.log2_nonneg|].
  destruct (decide (n / 16 = 0)) as [-> |]; [simpl; lia|].
  apply Z.lt_succ_r, Z.log2_lt_pow2; [zlia|]. change (2 ^ Z.succ 18) with 524288. apply Z.div_lt_upper_bound; lia.
Qed.

(** Larger sizes have later list heads. *)
Lemma ndx_of_mono n m : 0 <= n <= m -> ndx_of n <= ndx_of m.
Proof.
  intros H. unfold ndx_of. destruct (decide (4194304 <= m)) as [Hm|Hm], (decide (4194304 <= n)); try lia.
  - pose proof (ndx_of_range n ltac:(lia)) as Hr. unfold ndx_of in Hr. rewrite decide_False in Hr by done. lia.
  - apply Z.log2_le_mono. apply Z.div_le_mono; lia.
Qed.

(** ** Doubly linked lists in two field maps

    [lk f b p l e]: the nodes of [l] are linked by [f] and [b], from [p] on the left
    to [e] on the right. *)

Fixpoint lk (f b : gmap Z Z) (p : Z) (l : list Z) (e : Z) : Prop :=
  match l with
  | [] => True
  | x :: l' => b !! x = Some p /\ f !! x = Some (fst_of e l') /\ lk f b x l' e
  end.

Lemma lk_app f b p l1 l2 e : lk f b p (l1 ++ l2) e <-> lk f b p l1 (fst_of e l2) /\ lk f b (lst p l1) l2 e.
Proof. revert p; induction l1 as [|x l1 IH]; simpl; intros p; [tauto|]. rewrite IH, fst_of_app. tauto. Qed.

Lemma lk_frame f b f' b' p l e : (forall x, x ∈ l -> f' !! x = f !! x /\ b' !! x = b !! x) ->
  lk f b p l e -> lk f' b' p l e.
Proof.
  revert p; induction l as [|x l IH]; simpl; intros p Hf; [done|]. intros (Hb & Hx & Hl).
  destruct (Hf x) as [E1 E2]; [by left|]. rewrite E1, E2. split_and!; [done|done|].
  apply IH; [|done]. intros y Hy. apply Hf. by right.
Qed.

Lemma lk_in f b p l e x : lk f b p l e -> x ∈ l -> is_Some (f !! x) /\ is_Some (b !! x).
Proof.
  revert p; induction l as [|y l IH]; simpl; intros p H Hx; [by apply elem_of_nil in Hx|].
  destruct H as (Hb & Hf & Hl). apply elem_of_cons in Hx as [-> | Hx]; eauto.
Qed.

(** A node leaves the list: the effect of [remove_free]. *)
Lemma lk_remove f b l1 x l2 : lk f b 0 (l1 ++ x :: l2) 0 -> NoDup (l1 ++ x :: l2) -> 0 ∉ l1 ++ x :: l2 -> l1 <> [] ->
  exists f' b', b !! x = Some (lst 0 l1) /\ f !! x = Some (fst_of 0 l2) /\
    f' = <[lst 0 l1 := fst_of 0 l2]> f /\
    b' = (if decide (fst_of 0 l2 = 0) then b else <[fst_of 0 l2 := lst 0 l1]> b) /\
    lk f' b' 0 (l1 ++ l2) 0.
Proof.
  intros H Hn H0 Hne. destruct (snoc_inv l1) as [-> | (k & p & ->)]; [done|]. rewrite lst_app. simpl.
  do 2 eexists. apply lk_app in H as [H1 (Hb & Hf & H2)]. rewrite lst_app in Hb. simpl in *.
  split_and!; [done|done|done|done|].
  rewrite NoDup_app, NoDup_cons, NoDup_app in Hn. destruct Hn as ((Hn1 & Hn2 & _) & Hn3 & Hn4 & Hn5).
  assert (Hpk : p ∉ k) by (intros Hp; apply (Hn2 _ Hp); by left).
  assert (Hk2 : forall y, y ∈ k -> y ∉ l2) by (intros y Hy Hy2; apply (Hn3 y); [set_solver|by right]).
  assert (Hp2 : p ∉ l2) by (intros Hp; apply (Hn3 p); [set_solver|by right]).
  apply lk_app in H1 as [H1 (Hbp & Hfp & _)]. simpl in Hbp.
  destruct l2 as [|y l2]; simpl.
  - rewrite app_nil_r. apply lk_app. simpl. rewrite lookup_insert_eq. split_and!; try done.
    eapply lk_frame; [|exact H1]. intros z Hz. rewrite lookup_insert_ne by set_solver. done.
  - destruct H2 as (Hby & Hfy & H2). rewrite decide_False by set_solver. rewrite <- app_assoc. apply lk_app. simpl.
    rewrite NoDup_cons in Hn5. destruct Hn5 as [Hy2 _].
    assert (Hyp : y <> p) by set_solver. rewrite lookup_insert_eq, (lookup_insert_ne f), (lookup_insert_ne b) by done.
    rewrite lookup_insert_eq. split_and!; try done.
    + eapply lk_frame; [|exact H1]. intros z Hz. rewrite !lookup_insert_ne by set_solver. done.
    + eapply lk_frame; [|exact H2]. intros z Hz. rewrite !lookup_insert_ne by set_solver. done.
Qed.

(** A node enters the list between two others: the effect of [mm_addfreechunk]. *)
Lemma lk_insert f b l1 x l2 : lk f b 0 (l1 ++ l2) 0 -> NoDup (l1 ++ l2) -> 0 ∉ l1 ++ l2 -> l1 <> [] -> x ∉ l1 ++ l2 ->
  lk (<[x := fst_of 0 l2]> (<[lst 0 l1 := x]> f))
     (if decide (fst_of 0 l2 = 0) then <[x := lst 0 l1]> b else <[fst_of 0 l2 := x]> (<[x := lst 0 l1]> b))
     0 (l1 ++ x :: l2) 0.
Proof.
  intros H Hn H0 Hne Hx. destruct (snoc_inv l1) as [-> | (k & p & ->)]; [done|]. rewrite lst_app. simpl.
  apply lk_app in H as [H1 H2]. rewrite lst_app in H2. simpl in *.
  rewrite NoDup_app, NoDup_app in Hn. destruct Hn as ((Hn1 & Hn2 & _) & Hn3 & Hn5).
  assert (Hpk : p ∉ k) by (intros Hp; apply (Hn2 _ Hp); by left).
  assert (Hxp : x <> p) by set_solver. assert (Hp2 : p ∉ l2) by set_solver.
  apply lk_app in H1 as [H1 (Hbp & Hfp & _)]. simpl in Hbp.
  rewrite <- app_assoc. apply lk_app. destruct l2 as [|y l2]; simpl.
  - rewrite lookup_insert_eq, (lookup_insert_ne _ _ p), (lookup_insert_ne _ x p), !lookup_insert_eq by done.
    split_and!; try done. eapply lk_frame; [|exact H1]. intros z Hz. rewrite !lookup_insert_ne by set_solver. done.
  - destruct H2 as (Hby & Hfy & H2). rewrite decide_False by set_solver. rewrite NoDup_cons in Hn5. destruct Hn5 as [Hy2 _].
    assert (Hyp : y <> p) by set_solver. assert (Hyx : y <> x) by set_solver.
    rewrite !lookup_insert_eq, !(lookup_insert_ne _ y), !(lookup_insert_ne _ x), !lookup_insert_eq by done.
    split_and!; try done.
    + eapply lk_frame; [|exact H1]. intros z Hz. rewrite !lookup_insert_ne by set_solver. done.
    + by rewrite !lookup_insert_ne.
    + eapply lk_frame; [|exact H2]. intros z Hz. rewrite !lookup_insert_ne by set_solver. done.
Qed.

(** ** The free list

    [F] is the sequence of the free chunks, as pairs of address and size, in the
    order of the list; [pheads] puts the list heads back in, with size 0. *)

Notation chunk_ndx x := (ndx_of (snd x)).

Fixpoint pheads (nl : Z) (F : list (Z * Z)) (i : Z) (k : nat) : list (Z * Z) :=
  match k with
  | O => []
  | S k' => (nl + SIZEOF_MM_FREENODE * i, 0) :: filter (fun x : Z * Z => chunk_ndx x = i) F ++ pheads nl F (i + 1) k'
  end.

Lemma pheads_app nl F i k1 k2 : pheads nl F i (k1 + k2) = pheads nl F i k1 ++ pheads nl F (i + Z.of_nat k1) k2.
Proof.
  revert i; induction k1 as [|k1 IH]; simpl; intros i; [by rewrite Z.add_0_r|].
  rewrite IH, <- app_assoc. do 4 f_equal. lia.
Qed.

Lemma pheads_ext nl F F' i k :
  (forall j, i <= j < i + Z.of_nat k -> filter (fun x : Z * Z => chunk_ndx x = j) F = filter (fun x : Z * Z => chunk_ndx x = j) F') ->
  pheads nl F i k = pheads nl F' i k.
Proof.
  revert i; induction k as [|k IH]; simpl; intros i Hf; [done|]. rewrite Hf by lia. do 2 f_equal.
  apply IH. intros j Hj. apply Hf. lia.
Qed.

(** Around the list head [i]: what comes before, the head, its chunks, the rest. *)
Definition before_ndx nl F i := pheads nl F 0 (Z.to_nat i).
Definition after_ndx nl F i := pheads nl F (i + 1) (Z.to_nat (MM_NNODES - 1 - i)).

Lemma pheads_split nl F i : 0 <= i <= 18 ->
  pheads nl F 0 19 = before_ndx nl F i ++ (nl + SIZEOF_MM_FREENODE * i, 0) ::
                     filter (fun x : Z * Z => chunk_ndx x = i) F ++ after_ndx nl F i.
Proof.
  intros Hi. replace 19%nat with (Z.to_nat i + S (Z.to_nat (18 - i)))%nat by lia. rewrite pheads_app.
  unfold before_ndx, after_ndx. simpl. rewrite Z2Nat.id by lia. do 5 f_equal.
Qed.

Lemma filter_ndx_other F1 (x : Z * Z) F2 j : chunk_ndx x <> j ->
  filter (fun x : Z * Z => chunk_ndx x = j) (F1 ++ x :: F2) = filter (fun x : Z * Z => chunk_ndx x = j) (F1 ++ F2).
Proof. intros H. rewrite !filter_app, filter_cons_False by done. done. Qed.

(** The place of a chunk [x] between [F1] and [F2]. *)
Lemma pheads_place nl F1 (x : Z * Z) F2 : 0 <= chunk_ndx x <= 18 ->
  exists l1 l2, l1 = before_ndx nl (F1 ++ F2) (chunk_ndx x) ++ (nl + SIZEOF_MM_FREENODE * chunk_ndx x, 0) ::
                     filter (fun y : Z * Z => chunk_ndx y = chunk_ndx x) F1 /\
    l2 = filter (fun y : Z * Z => chunk_ndx y = chunk_ndx x) F2 ++ after_ndx nl (F1 ++ F2) (chunk_ndx x) /\
    pheads nl (F1 ++ F2) 0 19 = l1 ++ l2 /\ pheads nl (F1 ++ x :: F2) 0 19 = l1 ++ x :: l2.
Proof.
  intros Hx. do 2 eexists. split; [done|]. split; [done|]. split.
  - rewrite (pheads_split nl _ (chunk_ndx x)) by done. rewrite filter_app, <- !app_assoc. done.
  - rewrite (pheads_split nl _ (chunk_ndx x)) by done. rewrite filter_app, filter_cons_True, <- !app_assoc by done.
    unfold before_ndx, after_ndx.
    rewrite (pheads_ext nl (F1 ++ x :: F2) (F1 ++ F2) 0), (pheads_ext nl (F1 ++ x :: F2) (F1 ++ F2) (chunk_ndx x + 1)).
    + done.
    + intros j Hj. apply filter_ndx_other. lia.
    + intros j Hj. apply filter_ndx_other. lia.
Qed.

Definition by_size (x y : Z * Z) : Prop := x.2 <= y.2.
Notation fnodes nl F := (fst <$> pheads nl F 0 19).

Record fl_ok (h : mm_heap) (F : list (Z * Z)) : Prop := {
  fl_links : lk (m_flink h) (m_blink h) 0 (fnodes (mm_nodelist h) F) 0;
  fl_sorted : StronglySorted by_size F;
  fl_heads i : 0 <= i <= 18 -> m_size h !! node_at h i = Some 0;
  fl_chunks x : x ∈ F -> m_size h !! x.1 = Some (x.2) /\ 16 <= x.2 < MM_ALLOC_BIT;
  fl_NoDup : NoDup (fnodes (mm_nodelist h) F);
  fl_null : 0 ∉ fnodes (mm_nodelist h) F
}.

Definition with_links (f b : gmap Z Z) (h : mm_heap) : mm_heap :=
  mkHeap (m_size h) (m_preceding h) f b (mm_nodelist h) (mm_heapsize h) (mm_heapstart h) (mm_heapend h).

Lemma pheads_in nl F i k y : y ∈ pheads nl F i k -> y ∈ F \/ exists j, i <= j < i + Z.of_nat k /\ y = (nl + SIZEOF_MM_FREENODE * j, 0).
Proof.
  revert i; induction k as [|k IH]; simpl; intros i Hy; [by apply elem_of_nil in Hy|].
  apply elem_of_cons in Hy as [-> | Hy]; [right; exists i; split; [lia|done]|].
  apply elem_of_app in Hy as [Hy|Hy]; [apply list_elem_of_filter in Hy as [_ ?]; auto|].
  destruct (IH _ Hy) as [|(j & Hj & ->)]; [auto|]. right. exists j. split; [lia|done].
Qed.

#[local] Arguments pheads : simpl never.

Lemma pheads_chunk nl F x : x ∈ F -> 0 <= x.2 -> x ∈ pheads nl F 0 19.
Proof.
  intros Hx Hn. rewrite (pheads_split nl F (chunk_ndx x)) by (by apply ndx_of_range).
  rewrite elem_of_app. right. right. apply elem_of_app. left. by apply list_elem_of_filter.
Qed.

(** Every node of the list holds its size. *)
Lemma fl_sizes h F y : fl_ok h F -> y ∈ pheads (mm_nodelist h) F 0 19 -> m_size h !! y.1 = Some (y.2).
Proof.
  intros H Hy. apply pheads_in in Hy as [Hy|(j & Hj & ->)]; [by apply (fl_chunks _ _ H)|]. apply (fl_heads _ _ H). lia.
Qed.

Lemma remove_free_ok h F1 x F2 : fl_ok h (F1 ++ x :: F2) ->
  exists f b, remove_free (x.1) h = Some (with_links f b h) /\ fl_ok (with_links f b h) (F1 ++ F2).
Proof.
  intros H. destruct (fl_chunks _ _ H x) as [_ Hx]; [set_solver|].
  destruct (pheads_place (mm_nodelist h) F1 x F2 ltac:(apply ndx_of_range; lia)) as (l1 & l2 & E1 & _ & Ea & Eb).
  destruct H as [Hl Hs Hh Hc Hn H0]. rewrite Eb, fmap_app in Hl, Hn, H0. csimpl in Hl. csimpl in Hn. csimpl in H0.
  destruct (lk_remove _ _ _ _ _ Hl Hn H0) as (f & b & Eb1 & Ef1 & -> & -> & Hlk).
  { rewrite E1, fmap_app. csimpl. intros E. by destruct (app_cons_not_nil _ _ _ (eq_sym E)). }
  unfold remove_free. rewrite Eb1, Ef1. simpl. set (n2 := fst_of 0 (fst <$> l2)) in *.
  exists (<[lst 0 (fst <$> l1) := n2]> (m_flink h)), (if decide (n2 = 0) then m_blink h else <[n2 := lst 0 (fst <$> l1)]> (m_blink h)).
  split; [by destruct (decide (n2 = 0))|]. split; cbn [with_links m_flink m_blink m_size mm_nodelist].
  - by rewrite Ea, fmap_app.
  - clear - Hs. induction F1 as [|y F1 IH]; simpl in *; [by inversion Hs|]. apply StronglySorted_inv in Hs as [Hs Hf].
    constructor; [auto|]. rewrite Forall_app, Forall_cons in Hf. apply Forall_app. tauto.
  - done.
  - intros y Hy. apply Hc. apply elem_of_app in Hy as [Hy|Hy]; apply elem_of_app; [by left|right; by right].
  - rewrite Ea, fmap_app. apply NoDup_app in Hn as (Hn1 & Hn2 & Hn3). apply NoDup_cons in Hn3 as [_ Hn3].
    apply NoDup_app. split_and!; [done| |done]. intros y Hy Hy2. apply (Hn2 y Hy). by right.
  - rewrite Ea, fmap_app. intros Hy. apply H0. apply elem_of_app in Hy as [Hy|Hy]; apply elem_of_app; [by left|right; by right].
Qed.

(** *** The walks *)

Lemma place_loop_ok fuel h n prev l1 l2 e : lk (m_flink h) (m_blink h) prev (fst <$> (l1 ++ l2)) e ->
  Forall (fun y : Z * Z => y.1 <> 0 /\ m_size h !! y.1 = Some (y.2)) (l1 ++ l2) ->
  Forall (fun y : Z * Z => y.2 <> 0 /\ y.2 < n) l1 ->
  match l2 with [] => e = 0 | y :: _ => y.2 = 0 \/ n <= y.2 end -> (length l1 < fuel)%nat ->
  place_loop fuel h n prev (fst_of e (fst <$> (l1 ++ l2))) = Some (lst prev (fst <$> l1), fst_of e (fst <$> l2)).
Proof.
  revert fuel prev; induction l1 as [|x l1 IH]; intros [|fuel] prev Hl Hs H1 H2 Hf; simpl in Hf; try lia.
  - simpl. destruct l2 as [|y l2]; simpl; [by rewrite decide_True|].
    apply Forall_cons in Hs as [[Hy0 Hy] _]. rewrite decide_False by done. rewrite Hy. simpl.
    rewrite decide_False by lia. done.
  - csimpl in Hl. simpl in Hl. destruct Hl as (_ & Hfx & Hl). apply Forall_cons in Hs as [[Hx0 Hx] Hs].
    apply Forall_cons in H1 as [Hx1 H1]. simpl. rewrite decide_False by done. rewrite Hx. simpl.
    rewrite decide_True by done. csimpl in Hfx. rewrite Hfx. simpl. apply IH; [done..|lia].
Qed.

Fixpoint first_ge (n : Z) (l : list (Z * Z)) : Z :=
  match l with [] => 0 | y :: l' => if decide (y.2 < n) then first_ge n l' else y.1 end.

Lemma search_loop_ok fuel h n p l : lk (m_flink h) (m_blink h) p (fst <$> l) 0 ->
  Forall (fun y : Z * Z => y.1 <> 0 /\ m_size h !! y.1 = Some (y.2)) l -> (length l < fuel)%nat ->
  search_loop fuel h n (fst_of 0 (fst <$> l)) = Some (first_ge n l).
Proof.
  revert fuel p; induction l as [|y l IH]; intros [|fuel] p Hl Hs Hf; simpl in Hf; try lia; [done|].
  csimpl in Hl. destruct Hl as (_ & Hfy & Hl). apply Forall_cons in Hs as [[Hy0 Hy] Hs]. simpl.
  rewrite decide_False by done. rewrite Hy. simpl. destruct (decide _); [|done]. rewrite Hfy. simpl. eapply IH; [done..|lia].
Qed.

Lemma sorted_split n F : StronglySorted by_size F ->
  exists F1 F2, F = F1 ++ F2 /\ Forall (fun y : Z * Z => y.2 < n) F1 /\ Forall (fun y : Z * Z => n <= y.2) F2.
Proof.
  induction 1 as [|x F Hs IH Hx]; [by exists [], []|].
  destruct (decide (x.2 < n)) as [Hlt|Hge].
  - destruct IH as (F1 & F2 & -> & H1 & H2). exists (x :: F1), F2. split_and!; [done|by constructor|done].
  - exists [], (x :: F). split_and!; [done|done|]. constructor; [lia|].
    eapply Forall_impl; [exact Hx|]. unfold by_size. simpl. lia.
Qed.

#[local] Arguments place_loop : simpl never.
#[local] Arguments search_loop : simpl never.

Lemma sorted_place F1 (x : Z * Z) F2 : StronglySorted by_size (F1 ++ F2) ->
  Forall (fun y : Z * Z => y.2 < x.2) F1 -> Forall (fun y : Z * Z => x.2 <= y.2) F2 -> StronglySorted by_size (F1 ++ x :: F2).
Proof.
  induction F1 as [|y F1 IH]; simpl; intros Hs H1 H2; [by constructor|].
  apply StronglySorted_inv in Hs as [Hs Hy]. apply Forall_cons in H1 as [Hyx H1]. constructor; [by apply IH|].
  apply Forall_app in Hy as [Hy1 Hy2]. apply Forall_app. split; [done|]. constructor; [|done]. unfold by_size. simpl. lia.
Qed.

(** The nodes fit in the field map, so that the fuel of a walk is enough. *)
Lemma lk_length f b p l e : lk f b p l e -> NoDup l -> (length l <= size f)%nat.
Proof.
  intros H Hn. rewrite <- (size_list_to_set (C := gset Z) l) by done. rewrite <- (size_dom f).
  apply subseteq_size. intros x Hx. apply elem_of_list_to_set in Hx. apply elem_of_dom. by apply (lk_in _ _ _ _ _ _ H Hx).
Qed.

Lemma fl_nodes h F : fl_ok h F ->
  Forall (fun y : Z * Z => y.1 <> 0 /\ m_size h !! y.1 = Some (y.2)) (pheads (mm_nodelist h) F 0 19).
Proof.
  intros H. apply Forall_forall. intros y Hy. split; [|by apply (fl_sizes _ F)].
  intros E. apply (fl_null _ _ H). apply list_elem_of_fmap. by exists y.
Qed.

(** The part of the list that starts behind the head [i]. *)
Lemma fl_from h F i l1 l2 : fl_ok h F ->
  pheads (mm_nodelist h) F 0 19 = (l1 ++ [(node_at h i, 0)]) ++ l2 ->
  m_flink h !! node_at h i = Some (fst_of 0 (fst <$> l2)) /\
  lk (m_flink h) (m_blink h) (node_at h i) (fst <$> l2) 0 /\
  Forall (fun y : Z * Z => y.1 <> 0 /\ m_size h !! y.1 = Some (y.2)) l2 /\ (length l2 <= size (m_flink h))%nat.
Proof.
  intros H E. pose proof (fl_nodes _ _ H) as Hf. pose proof (lk_length _ _ _ _ _ (fl_links _ _ H) (fl_NoDup _ _ H)) as Hl.
  pose proof (fl_links _ _ H) as Hk. rewrite E in *. rewrite !fmap_app in Hk. rewrite length_fmap, length_app in Hl.
  apply lk_app in Hk as [Hk1 Hk2]. rewrite lst_app in Hk2. apply lk_app in Hk1 as [_ (_ & Hk1 & _)].
  split_and!; [done|done|by apply Forall_app in Hf as [_ ?]|lia].
Qed.

Lemma mm_addfreechunk_ok h F a n : fl_ok h F -> m_size h !! a = Some n -> 16 <= n < MM_ALLOC_BIT ->
  a <> 0 -> a ∉ fnodes (mm_nodelist h) F ->
  exists f b F1 F2, F = F1 ++ F2 /\ mm_addfreechunk a h = Some (with_links f b h) /\
    fl_ok (with_links f b h) (F1 ++ (a, n) :: F2).
Proof.
  intros H Ha Hn Ha0 Hfa. unfold MM_ALLOC_BIT in Hn. destruct (sorted_split n F (fl_sorted _ _ H)) as (F1 & F2 & -> & H1 & H2).
  pose proof (ndx_of_range n ltac:(lia)) as Hr.
  destruct (pheads_place (mm_nodelist h) F1 (a, n) F2 Hr) as (l1 & l2 & E1 & E2 & Ea & Eb). simpl in E1, E2.
  set (i := ndx_of n) in *. set (B := filter (fun y : Z * Z => chunk_ndx y = i) F1) in *.
  set (A := before_ndx (mm_nodelist h) (F1 ++ F2) i) in *.
  destruct (fl_from h (F1 ++ F2) i A (B ++ l2) H) as (Ef & Hk & Hz & Hlen).
  { rewrite Ea, E1, <- !app_assoc. done. }
  assert (Hp : place_loop (S (size (m_flink h))) h n (node_at h i) (fst_of 0 (fst <$> (B ++ l2))) =
               Some (lst 0 (fst <$> l1), fst_of 0 (fst <$> l2))).
  { rewrite (place_loop_ok _ h n (node_at h i) B l2 0 Hk Hz).
    - rewrite E1, fmap_app, lst_app. done.
    - apply Forall_forall. intros y Hy. apply list_elem_of_filter in Hy as [_ Hy].
      destruct (fl_chunks _ _ H y) as [_ Hy2]; [apply elem_of_app; by left|].
      rewrite Forall_forall in H1. specialize (H1 y Hy). lia.
    - rewrite E2. destruct (filter _ F2) as [|y F3] eqn:E3.
      + unfold after_ndx. destruct (Z.to_nat _); [done|]. by left.
      + right. assert (Hy : y ∈ filter (fun y : Z * Z => chunk_ndx y = i) F2) by (rewrite E3; by left).
        apply list_elem_of_filter in Hy as [_ Hy]. rewrite Forall_forall in H2. by apply H2.
    - rewrite length_app in Hlen. lia. }
  unfold mm_addfreechunk. rewrite Ha. simpl. rewrite size2ndx_spec by lia. simpl. fold i. rewrite Ef. simpl. rewrite Hp. simpl.
  destruct H as [Hl Hs Hh Hc Hnd H0]. rewrite Ea in Hl, Hnd, H0, Hfa. rewrite fmap_app in Hl, Hnd, H0, Hfa.
  assert (Hne : fst <$> l1 <> []).
  { rewrite E1, fmap_app. csimpl. intros E. by destruct (app_cons_not_nil _ _ _ (eq_sym E)). }
  pose proof (lk_insert _ _ _ a _ Hl Hnd H0 Hne Hfa) as Hins.
  set (p := lst 0 (fst <$> l1)) in *. set (q := fst_of 0 (fst <$> l2)) in *.
  do 2 eexists. exists F1, F2. split; [done|]. split; [|split; cbn [with_links m_flink m_blink m_size mm_nodelist]].
  - instantiate (1 := if decide (q = 0) then <[a := p]> (m_blink h) else <[q := a]> (<[a := p]> (m_blink h))).
    instantiate (1 := <[a := q]> (<[p := a]> (m_flink h))). by destruct (decide (q = 0)).
  - by rewrite Eb, fmap_app.
  - by apply sorted_place.
  - done.
  - intros y Hy. apply elem_of_app in Hy as [Hy|Hy]; [apply Hc, elem_of_app; by left|].
    apply elem_of_cons in Hy as [-> | Hy]; [by split|]. apply Hc, elem_of_app. by right.
  - rewrite Eb, fmap_app. csimpl. rewrite <- Permutation_middle. by constructor.
  - rewrite Eb, fmap_app. csimpl. rewrite elem_of_app, elem_of_cons. rewrite elem_of_app in H0. intuition congruence.
Qed.

(** *** The best fit *)

Lemma first_ge_spec n l : first_ge n l = fst_of 0 (fst <$> filter (fun y : Z * Z => n <= y.2) l).
Proof.
  induction l as [|y l IH]; [done|]. simpl. destruct (decide (y.2 < n)).
  - rewrite filter_cons_False by lia. done.
  - rewrite filter_cons_True by lia. done.
Qed.

Lemma filter_none {A} (P : A -> Prop) `{forall x, Decision (P x)} l : Forall (fun y => ~ P y) l -> filter P l = [].
Proof. induction 1; [done|]. by rewrite filter_cons_False. Qed.

Lemma filter_all {A} (P : A -> Prop) `{forall x, Decision (P x)} l : Forall P l -> filter P l = l.
Proof. induction 1 as [|x l Hx Hl IH]; [done|]. rewrite filter_cons_True by done. by f_equal. Qed.

Lemma sorted_bucket F i : StronglySorted by_size F -> Forall (fun y : Z * Z => 0 <= y.2) F ->
  filter (fun y : Z * Z => chunk_ndx y = i) F ++ filter (fun y : Z * Z => i + 1 <= chunk_ndx y) F =
  filter (fun y : Z * Z => i <= chunk_ndx y) F.
Proof.
  intros Hs H0. induction Hs as [|x F Hs IH Hx]; [done|]. apply Forall_cons in H0 as [Hx0 H0].
  destruct (decide (chunk_ndx x < i)) as [Hlt|Hge].
  - rewrite !filter_cons_False by lia. by apply IH.
  - destruct (decide (chunk_ndx x = i)) as [He|Hne].
    + rewrite filter_cons_True, (filter_cons_False _ _ F), (filter_cons_True (fun y : Z * Z => i <= chunk_ndx y)) by lia.
      simpl. f_equal. by apply IH.
    + rewrite (filter_cons_False (fun y : Z * Z => chunk_ndx y = i)), !filter_cons_True by lia.
      assert (Hall : Forall (fun y : Z * Z => i + 1 <= chunk_ndx y) F).
      { eapply Forall_impl; [exact Hx|]. intros y Hy. unfold by_size in Hy. pose proof (ndx_of_mono (x.2) (y.2)). lia. }
      rewrite <- IH by done.
      rewrite (filter_none (fun y : Z * Z => chunk_ndx y = i)); [done|].
      eapply Forall_impl; [exact Hall|]. simpl. lia.
Qed.

Lemma pheads_ge nl n F i k : StronglySorted by_size F -> Forall (fun y : Z * Z => 0 <= y.2) F -> 0 < n -> i + Z.of_nat k = 19 ->
  filter (fun y : Z * Z => n <= y.2) (pheads nl F i k) = filter (fun y : Z * Z => n <= y.2) (filter (fun y : Z * Z => i <= chunk_ndx y) F).
Proof.
  intros Hs H0 Hn. revert i; induction k as [|k IH]; intros i Hi; unfold pheads; fold pheads.
  - rewrite (filter_none (fun y : Z * Z => i <= chunk_ndx y)); [done|]. eapply Forall_impl; [exact H0|].
    intros y Hy. pose proof (ndx_of_range (y.2) Hy). lia.
  - rewrite filter_cons_False by (simpl; lia). rewrite filter_app, IH by lia. rewrite <- filter_app. f_equal. by apply sorted_bucket.
Qed.

(** The search from the head of its size finds the first chunk of the whole list that is
    large enough. *)
Lemma search_ok h F1 F2 n : fl_ok h (F1 ++ F2) -> 0 < n < 4294967296 ->
  Forall (fun y : Z * Z => y.2 < n) F1 -> Forall (fun y : Z * Z => n <= y.2) F2 ->
  exists f, m_flink h !! node_at h (ndx_of n) = Some f /\
    search_loop (S (size (m_flink h))) h n f = Some (fst_of 0 (fst <$> F2)).
Proof.
  intros H Hn H1 H2. pose proof (ndx_of_range n ltac:(lia)) as Hr. set (i := ndx_of n) in *. set (F := F1 ++ F2) in *.
  pose proof (pheads_split (mm_nodelist h) F i Hr) as E.
  destruct (fl_from h F i (before_ndx (mm_nodelist h) F i) _ H ltac:(rewrite <- app_assoc; exact E)) as (Ef & Hk & Hz & Hlen).
  eexists. split; [exact Ef|]. rewrite (search_loop_ok _ h n _ _ Hk Hz) by lia. rewrite first_ge_spec. do 3 f_equal.
  assert (Hp : Forall (fun y : Z * Z => 0 <= y.2) F).
  { apply Forall_forall. intros y Hy. destruct (fl_chunks _ _ H y Hy). lia. }
  rewrite filter_app. unfold after_ndx.
  rewrite pheads_ge; [|apply (fl_sorted _ _ H)|done|lia|change MM_NNODES with 19; lia].
  rewrite <- filter_app, sorted_bucket by (done || apply (fl_sorted _ _ H)).
  rewrite list_filter_filter_l.
  - unfold F. rewrite filter_app, filter_none, filter_all; [done|done|]. eapply Forall_impl; [exact H1|]. simpl. intros y Hy Hy2. lia.
  - intros y Hy. unfold i. apply ndx_of_mono. lia.
Qed.

(** Changes of sizes elsewhere do not matter to the free list. *)
Lemma fl_frame h h' F : fl_ok h F -> m_flink h' = m_flink h -> m_blink h' = m_blink h -> mm_nodelist h' = mm_nodelist h ->
  (forall y, y ∈ fnodes (mm_nodelist h) F -> m_size h' !! y = m_size h !! y) -> fl_ok h' F.
Proof.
  intros H Ef Eb En Hm. pose proof H as [Hl Hs Hh Hc Hn H0]. split; rewrite ?Ef, ?Eb, ?En; try done.
  - intros i Hi. unfold node_at. rewrite En. rewrite Hm; [by apply Hh|].
    rewrite (pheads_split _ _ i Hi), fmap_app. csimpl. apply elem_of_app. right. left.
  - intros x Hx. destruct (Hc x Hx) as [E1 E2]. rewrite Hm; [done|]. apply list_elem_of_fmap. exists x. split; [done|].
    apply pheads_chunk; [done|lia].
Qed.

(** ** The regions

    A region is its base address and the chunks between its two guard nodes, as pairs
    of size and allocation flag. *)

Definition region : Type := Z * list (Z * bool).

Fixpoint tot (cs : list (Z * bool)) : Z := match cs with [] => 0 | c :: cs' => c.1 + tot cs' end.

(** The sizes of chunks are multiples of 16, as long as [mm_memalign] is not used; it
    leaves sizes that are multiples of 8 only. *)
Class Gran := { gran : Z; gran_ok : gran = 8 \/ gran = 16 }.

Lemma gran_add `{Gran} x y : x mod gran = 0 -> y mod gran = 0 -> (x + y) mod gran = 0.
Proof. destruct gran_ok as [-> | ->]; zlia. Qed.

Lemma gran_sub `{Gran} x y : x mod gran = 0 -> y mod gran = 0 -> (x - y) mod gran = 0.
Proof. destruct gran_ok as [-> | ->]; zlia. Qed.

Lemma gran_16 `{Gran} x : x mod 16 = 0 -> x mod gran = 0.
Proof. destruct gran_ok as [-> | ->]; zlia. Qed.

(** For goals about the fields of a heap after writes to headers around [a]. *)
Ltac heap_fields :=
  cbn [wr_preceding wr_size with_links mm_nodelist mm_heapstart mm_heapend mm_heapsize m_size m_preceding m_flink m_blink tot fst snd].

Ltac heap_lookups := repeat first [rewrite lookup_insert_eq | rewrite lookup_insert_ne by lia].

Ltac heap_writes a :=
  heap_fields; rewrite ?Z.add_0_r, ?Z.add_assoc; try done; fold a;
  first
    [ done | lia
    | let x := fresh "x" in let Hx := fresh "Hx" in intros x Hx; heap_lookups; done
    | simpl; rewrite ?Z.add_assoc; heap_lookups; done
    | repeat constructor; simpl; (done || lia || by apply gran_sub || by apply gran_add)
    | idtac ].

Section Regions.
Context `{GR : Gran}.

(** The chunks from [a] on, of which the one before has size [p]. *)
Fixpoint lseg (S P : gmap Z Z) (a p : Z) (cs : list (Z * bool)) : Prop :=
  match cs with
  | [] => True
  | c :: cs' => S !! a = Some (c.1) /\ P !! a = Some (enc p (c.2)) /\ lseg S P (a + c.1) (c.1) cs'
  end.

Definition guard : Z * bool := (SIZEOF_MM_ALLOCNODE, true).
Definition full (cs : list (Z * bool)) : list (Z * bool) := guard :: cs ++ [guard].

Definition lsz (p : Z) (cs : list (Z * bool)) : Z := lst p (fst <$> cs).

(** The addresses and sizes of the chunks with flag [al]. *)
Fixpoint chunks (al : bool) (a : Z) (cs : list (Z * bool)) : list (Z * Z) :=
  match cs with
  | [] => []
  | c :: cs' => (if bool_decide (c.2 = al) then [(a, c.1)] else []) ++ chunks al (a + c.1) cs'
  end.

Definition rchunks (al : bool) (R : list region) : list (Z * Z) :=
  R ≫= fun r : region => chunks al (r.1 + SIZEOF_MM_ALLOCNODE) (r.2).

Fixpoint no_adj (cs : list (Z * bool)) : Prop :=
  match cs with
  | c :: ((d :: _) as cs') => (c.2 = true \/ d.2 = true) /\ no_adj cs'
  | _ => True
  end.

Definition chunk_ok (c : Z * bool) : Prop := 16 <= c.1 /\ c.1 mod gran = 0.
Definition geom (r : region) : Z * Z := (r.1, tot (r.2)).
Definition apart (g g' : Z * Z) : Prop := g.1 + 16 + g.2 <= g'.1 \/ g'.1 + 16 + g'.2 <= g.1.

Fixpoint disj (G : list (Z * Z)) : Prop :=
  match G with [] => True | g :: G' => Forall (apart g) G' /\ disj G' end.

(** Where a region may be: aligned, of less than 2^31 bytes, below 2^32, and away from
    the list heads. *)
Record geom_ok (nl : Z) (g : Z * Z) : Prop := {
  g_base : 0 < g.1;
  g_align : g.1 mod 16 = 0;
  g_end : g.1 + 16 + g.2 < 4294967296;
  g_size : 16 <= g.2 < MM_ALLOC_BIT;
  g_heads : g.1 + 16 + g.2 <= nl \/ nl + SIZEOF_MM_FREENODE * MM_NNODES <= g.1
}.

Fixpoint arena_of (G : list (Z * Z)) : Z := match G with [] => 0 | g :: G' => 16 + g.2 + arena_of G' end.

(** Regions without their contents in memory ... *)
Record wf_regions (nl : Z) (R : list region) : Prop := {
  wf_chunks : Forall (fun r : region => Forall chunk_ok (r.2)) R;
  wf_geom : Forall (geom_ok nl) (geom <$> R);
  wf_disj : disj (geom <$> R)
}.

(** ... and with them. *)
Record lay_ok (h : mm_heap) (R : list region) : Prop := {
  lay_wf : wf_regions (mm_nodelist h) R;
  lay_seg : Forall (fun r : region => lseg (m_size h) (m_preceding h) (r.1) 0 (full (r.2))) R;
  lay_starts : mm_heapstart h = fst <$> R;
  lay_ends : mm_heapend h = (fun r : region => r.1 + 8 + tot (r.2)) <$> R;
  lay_arena : mm_heapsize h = u32 (arena_of (geom <$> R))
}.

Lemma tot_app cs1 cs2 : tot (cs1 ++ cs2) = tot cs1 + tot cs2.
Proof. induction cs1; simpl; lia. Qed.

Lemma tot_nonneg cs : Forall (fun c : Z * bool => 0 < c.1) cs -> 0 <= tot cs.
Proof. induction 1; simpl; lia. Qed.

Lemma chunk_ok_pos cs : Forall chunk_ok cs -> Forall (fun c : Z * bool => 0 < c.1) cs.
Proof. intros H. eapply Forall_impl; [exact H|]. intros c [Hc _]. lia. Qed.

Lemma full_pos cs : Forall chunk_ok cs -> Forall (fun c : Z * bool => 0 < c.1) (full cs).
Proof. intros H. constructor; [done|]. apply Forall_app. split; [by apply chunk_ok_pos|]. by constructor. Qed.

Lemma tot_full cs : tot (full cs) = 16 + tot cs.
Proof. unfold full. simpl. rewrite tot_app. simpl. unfold SIZEOF_MM_ALLOCNODE. lia. Qed.

Lemma lseg_app S P a p cs1 cs2 : lseg S P a p (cs1 ++ cs2) <-> lseg S P a p cs1 /\ lseg S P (a + tot cs1) (lsz p cs1) cs2.
Proof.
  revert a p; induction cs1 as [|c cs1 IH]; intros a p; simpl.
  - unfold lsz. simpl. rewrite Z.add_0_r. tauto.
  - rewrite IH. unfold lsz. csimpl. simpl. rewrite Z.add_assoc. tauto.
Qed.

Lemma lseg_frame S P S' P' a p cs : Forall (fun c : Z * bool => 0 < c.1) cs ->
  (forall x, a <= x < a + tot cs -> S' !! x = S !! x /\ P' !! x = P !! x) -> lseg S P a p cs -> lseg S' P' a p cs.
Proof.
  revert a p; induction cs as [|c cs IH]; simpl; intros a p Hp Hf; [done|]. apply Forall_cons in Hp as [Hc Hp].
  pose proof (tot_nonneg _ Hp). destruct (Hf a) as [E1 E2]; [lia|]. rewrite E1, E2. intros (H1 & H2 & H3).
  split_and!; [done|done|]. apply IH; [done| |done]. intros x Hx. apply Hf. lia.
Qed.

(** Some chunks in the middle of a region are replaced by others of the same total size. *)
Lemma lseg_update S P S' P' a p L1 M M' c L2 : Forall (fun c : Z * bool => 0 < c.1) (L1 ++ M ++ c :: L2) ->
  lseg S P a p (L1 ++ M ++ c :: L2) -> tot M' = tot M ->
  (forall x, x < a + tot L1 \/ a + tot L1 + tot M <= x -> S' !! x = S !! x) ->
  (forall x, x < a + tot L1 \/ a + tot L1 + tot M < x -> P' !! x = P !! x) ->
  lseg S' P' (a + tot L1) (lsz p L1) M' ->
  P' !! (a + tot L1 + tot M) = Some (enc (lsz (lsz p L1) M') (c.2)) ->
  lseg S' P' a p (L1 ++ M' ++ c :: L2).
Proof.
  intros Hp H Ht HS HP HM Hc. rewrite !Forall_app, Forall_cons in Hp. destruct Hp as (Hp1 & Hp2 & Hp3 & Hp4).
  pose proof (tot_nonneg _ Hp1) as T1. pose proof (tot_nonneg _ Hp2) as T2. pose proof (tot_nonneg _ Hp4) as T4.
  rewrite !lseg_app in H. destruct H as (H1 & H2 & (Hs & _ & H3)). rewrite !lseg_app. split_and!.
  - eapply lseg_frame; [done| |exact H1]. intros x Hx. rewrite HS, HP by lia. done.
  - done.
  - simpl. rewrite Ht. rewrite HS by lia. split_and!; [done|done|].
    eapply lseg_frame; [done| |exact H3]. intros x Hx. rewrite HS, HP by lia. done.
Qed.

Lemma chunks_app al a cs1 cs2 : chunks al a (cs1 ++ cs2) = chunks al a cs1 ++ chunks al (a + tot cs1) cs2.
Proof.
  revert a; induction cs1 as [|c cs1 IH]; intros a; simpl; [by rewrite Z.add_0_r|].
  rewrite IH, <- app_assoc. do 3 f_equal. lia.
Qed.

(** A chunk is a position in the list. *)
Lemma chunks_find al a cs x n : (x, n) ∈ chunks al a cs ->
  exists cs1 cs2, cs = cs1 ++ (n, al) :: cs2 /\ x = a + tot cs1.
Proof.
  revert a; induction cs as [|c cs IH]; intros a H; simpl in H; [by apply elem_of_nil in H|].
  apply elem_of_app in H as [H|H].
  - case_bool_decide as E; [|by apply elem_of_nil in H]. apply list_elem_of_singleton in H. simplify_eq.
    exists [], cs. destruct c as [m al]. simpl in *. split; [by subst|lia].
  - destruct (IH _ H) as (cs1 & cs2 & -> & ->). exists (c :: cs1), cs2. split; [done|]. simpl. lia.
Qed.

Lemma rchunks_app al R1 R2 : rchunks al (R1 ++ R2) = rchunks al R1 ++ rchunks al R2.
Proof. unfold rchunks. apply bind_app. Qed.

Lemma rchunks_cons al r R : rchunks al (r :: R) = chunks al (r.1 + 8) (r.2) ++ rchunks al R.
Proof. done. Qed.

Lemma rchunks_find al R x n : (x, n) ∈ rchunks al R ->
  exists R1 base cs1 cs2 R2, R = R1 ++ (base, cs1 ++ (n, al) :: cs2) :: R2 /\ x = base + 8 + tot cs1.
Proof.
  intros H. unfold rchunks in H. apply list_elem_of_bind in H as (r & H & Hr).
  apply list_elem_of_split in Hr as (R1 & R2 & ->). destruct r as [base cs].
  apply chunks_find in H as (cs1 & cs2 & E & ->). simpl in *. subst cs. by exists R1, base, cs1, cs2, R2.
Qed.

Lemma chunks_range al a cs x n : Forall (fun c : Z * bool => 0 < c.1) cs -> (x, n) ∈ chunks al a cs ->
  a <= x /\ x + n <= a + tot cs /\ 0 < n.
Proof.
  intros Hp H. apply chunks_find in H as (cs1 & cs2 & -> & ->). rewrite tot_app. simpl.
  rewrite Forall_app, Forall_cons in Hp. destruct Hp as (Hp1 & Hn & Hp2). simpl in Hn.
  pose proof (tot_nonneg _ Hp1). pose proof (tot_nonneg _ Hp2). lia.
Qed.

Lemma apart_sym g g' : apart g g' -> apart g' g.
Proof. unfold apart. tauto. Qed.

Lemma disj_app G1 g G2 : disj (G1 ++ g :: G2) -> Forall (apart g) (G1 ++ G2).
Proof.
  induction G1 as [|x G1 IH]; simpl; intros [H1 H2]; [done|]. constructor; [|by apply IH].
  rewrite Forall_app, Forall_cons in H1. apply apart_sym. tauto.
Qed.

(** *** A place in a region *)

Definition nextc (cs : list (Z * bool)) : Z * bool := match cs with [] => guard | c :: _ => c end.

Lemma full_focus cs1 M cs2 : full (cs1 ++ M ++ cs2) = (guard :: cs1) ++ M ++ nextc cs2 :: tail (cs2 ++ [guard]).
Proof. unfold full. rewrite <- !app_assoc. simpl. by destruct cs2. Qed.

Lemma wf_change nl R1 base cs cs' R2 : wf_regions nl (R1 ++ (base, cs) :: R2) -> tot cs' = tot cs -> Forall chunk_ok cs' ->
  wf_regions nl (R1 ++ (base, cs') :: R2).
Proof.
  intros [H1 H2 H3] Ht Hc. assert (Eg : geom <$> (R1 ++ (base, cs') :: R2) = geom <$> (R1 ++ (base, cs) :: R2)).
  { rewrite !fmap_app. csimpl. unfold geom. simpl. by rewrite Ht. }
  split; rewrite ?Eg; try done. rewrite Forall_app, Forall_cons in *. tauto.
Qed.

(** What the invariant says at a place. *)
Record focus (h : mm_heap) (base : Z) (cs1 M cs2 : list (Z * bool)) : Prop := {
  fo_seg : lseg (m_size h) (m_preceding h) (base + 8 + tot cs1) (lsz 8 cs1) M;
  fo_next_size : m_size h !! (base + 8 + tot cs1 + tot M) = Some ((nextc cs2).1);
  fo_next_prec : m_preceding h !! (base + 8 + tot cs1 + tot M) = Some (enc (lsz (lsz 8 cs1) M) ((nextc cs2).2));
  fo_chunks : Forall chunk_ok cs1 /\ Forall chunk_ok M /\ Forall chunk_ok cs2;
  fo_tots : 0 <= tot cs1 /\ 0 <= tot M /\ 0 <= tot cs2;
  fo_prev : 0 <= lsz 8 cs1 < MM_ALLOC_BIT;
  fo_geom : geom_ok (mm_nodelist h) (base, tot cs1 + tot M + tot cs2)
}.

Lemma lsz_bound p cs : Forall chunk_ok cs -> 0 <= p -> 0 <= lsz p cs <= Z.max p (tot cs).
Proof.
  revert p; induction cs as [|c cs IH]; intros p Hc Hp; unfold lsz; csimpl; simpl; [lia|].
  apply Forall_cons in Hc as [[Hc _] Hcs]. pose proof (tot_nonneg _ (chunk_ok_pos _ Hcs)).
  specialize (IH (c.1) Hcs ltac:(lia)). unfold lsz in IH. simpl. lia.
Qed.

Lemma lay_focus h R1 base cs1 M cs2 R2 : lay_ok h (R1 ++ (base, cs1 ++ M ++ cs2) :: R2) -> focus h base cs1 M cs2.
Proof.
  intros [[Hc Hg Hd] Hs _ _ _]. rewrite fmap_app in Hg. csimpl in Hg. rewrite Forall_app, Forall_cons in Hc. rewrite Forall_app, Forall_cons in Hg.
  rewrite Forall_app, Forall_cons in Hs.
  destruct Hc as (_ & Hc & _), Hg as (_ & Hg & _), Hs as (_ & Hs & _). unfold geom in Hg. cbn [fst snd] in *.
  rewrite !tot_app, Z.add_assoc in Hg. rewrite !Forall_app in Hc. destruct Hc as (Hc1 & Hc2 & Hc3).
  pose proof (tot_nonneg _ (chunk_ok_pos _ Hc1)) as T1. pose proof (tot_nonneg _ (chunk_ok_pos _ Hc2)) as T2.
  pose proof (tot_nonneg _ (chunk_ok_pos _ Hc3)) as T3.
  rewrite full_focus in Hs. simpl in Hs. destruct Hs as (_ & _ & Hs). unfold SIZEOF_MM_ALLOCNODE in Hs.
  rewrite !lseg_app in Hs. destruct Hs as (_ & Hs & (Hn1 & Hn2 & _)).
  split; try done. pose proof (lsz_bound 8 cs1 Hc1). pose proof (g_size _ _ Hg) as Hz. simpl in Hz. unfold MM_ALLOC_BIT in *. lia.
Qed.

(** A change in one region. *)
Lemma lay_change h h' R1 base cs1 M M' cs2 R2 : lay_ok h (R1 ++ (base, cs1 ++ M ++ cs2) :: R2) ->
  mm_nodelist h' = mm_nodelist h -> mm_heapstart h' = mm_heapstart h -> mm_heapend h' = mm_heapend h -> mm_heapsize h' = mm_heapsize h ->
  tot M' = tot M -> Forall chunk_ok M' ->
  (forall x, x < base + 8 + tot cs1 \/ base + 8 + tot cs1 + tot M <= x -> m_size h' !! x = m_size h !! x) ->
  (forall x, x < base + 8 + tot cs1 \/ base + 8 + tot cs1 + tot M < x -> m_preceding h' !! x = m_preceding h !! x) ->
  lseg (m_size h') (m_preceding h') (base + 8 + tot cs1) (lsz 8 cs1) M' ->
  m_preceding h' !! (base + 8 + tot cs1 + tot M) = Some (enc (lsz (lsz 8 cs1) M') ((nextc cs2).2)) ->
  lay_ok h' (R1 ++ (base, cs1 ++ M' ++ cs2) :: R2).
Proof.
  intros H En Es Ee Ea Ht HM' HS HP HM HN. pose proof (fo_tots _ _ _ _ _ (lay_focus _ _ _ _ _ _ _ H)) as (T1 & T2 & T3).
  destruct (fo_chunks _ _ _ _ _ (lay_focus _ _ _ _ _ _ _ H)) as (C1 & C2 & C3).
  destruct H as [Hw Hs H1 H2 H3]. assert (Ht' : tot (cs1 ++ M' ++ cs2) = tot (cs1 ++ M ++ cs2)) by (rewrite !tot_app; lia).
  split.
  - rewrite En. eapply wf_change; [exact Hw|done|]. by rewrite !Forall_app.
  - pose proof (wf_disj _ _ Hw) as Hd. rewrite fmap_app in Hd. csimpl in Hd. apply disj_app in Hd.
    pose proof (wf_chunks _ _ Hw) as Hc. rewrite Forall_app, Forall_cons in Hc. rewrite Forall_app, Forall_cons in Hs.
    destruct Hc as (Hc1 & _ & Hc2), Hs as (Hs1 & Hs & Hs2).
    assert (Hfr : forall r, r ∈ R1 ++ R2 -> Forall chunk_ok (r.2) ->
      lseg (m_size h) (m_preceding h) (r.1) 0 (full (r.2)) -> lseg (m_size h') (m_preceding h') (r.1) 0 (full (r.2))).
    { intros r Hr Hrc Hl. eapply lseg_frame; [by apply full_pos| |exact Hl]. intros x Hx. rewrite tot_full in Hx.
      rewrite <- fmap_app in Hd. rewrite Forall_fmap, Forall_forall in Hd. specialize (Hd r Hr). unfold apart, geom in Hd. simpl in Hd.
      rewrite !tot_app in Hd. rewrite HS, HP by lia. done. }
    rewrite Forall_app, Forall_cons. split_and!.
    + rewrite Forall_forall in *. intros r Hr. apply Hfr; [set_solver|by apply Hc1|by apply Hs1].
    + cbn [fst snd] in *. rewrite full_focus in Hs. rewrite full_focus.
      apply (lseg_update (m_size h) (m_preceding h) _ _ base 0 (guard :: cs1) M M'); try done.
      * rewrite <- full_focus. apply full_pos. by rewrite !Forall_app.
      * intros x. simpl. unfold SIZEOF_MM_ALLOCNODE. rewrite Z.add_assoc. apply HS.
      * intros x. simpl. unfold SIZEOF_MM_ALLOCNODE. rewrite Z.add_assoc. apply HP.
      * simpl. unfold SIZEOF_MM_ALLOCNODE. rewrite Z.add_assoc. done.
      * simpl. unfold SIZEOF_MM_ALLOCNODE. rewrite Z.add_assoc. done.
    + rewrite Forall_forall in *. intros r Hr. apply Hfr; [set_solver|by apply Hc2|by apply Hs2].
  - rewrite Es, H1, !fmap_app. done.
  - rewrite Ee, H2, !fmap_app. csimpl. simpl. by rewrite Ht'.
  - rewrite Ea, H3, !fmap_app. csimpl. unfold geom. simpl. by rewrite Ht'.
Qed.

Lemma lay_links h R f b : lay_ok h R -> lay_ok (with_links f b h) R.
Proof. intros [H1 H2 H3 H4 H5]. by split. Qed.

(** The chunks of the other places. *)
Definition others (al : bool) (R1 : list region) (base : Z) (cs1 : list (Z * bool)) (t : Z) cs2 R2 : list (Z * Z) :=
  rchunks al R1 ++ chunks al (base + 8) cs1 ++ chunks al (base + 8 + tot cs1 + t) cs2 ++ rchunks al R2.

Lemma rchunks_focus al R1 base cs1 M cs2 R2 :
  rchunks al (R1 ++ (base, cs1 ++ M ++ cs2) :: R2) ≡ₚ
  chunks al (base + 8 + tot cs1) M ++ others al R1 base cs1 (tot M) cs2 R2.
Proof.
  unfold others. rewrite rchunks_app, rchunks_cons. cbn [fst snd]. rewrite !chunks_app.
  set (A := rchunks al R1). set (B := chunks al (base + 8) cs1). set (C := chunks al (base + 8 + tot cs1) M).
  set (D := chunks al _ cs2). set (E := rchunks al R2). rewrite <- !app_assoc.
  transitivity ((A ++ B) ++ C ++ D ++ E); [by rewrite <- !app_assoc|].
  transitivity (C ++ (A ++ B) ++ D ++ E); [|by rewrite <- !app_assoc].
  rewrite (app_assoc (A ++ B) C), (app_assoc C (A ++ B)). apply Permutation_app_tail, Permutation_app_comm.
Qed.

(** *** Chunks do not overlap *)

Lemma chunks_NoDup al a cs : Forall (fun c : Z * bool => 0 < c.1) cs -> NoDup (fst <$> chunks al a cs).
Proof.
  revert a; induction cs as [|c cs IH]; intros a Hp; simpl; [constructor|]. apply Forall_cons in Hp as [Hc Hp].
  case_bool_decide; csimpl; [|by apply IH]. constructor; [|by apply IH].
  intros Hx. apply list_elem_of_fmap in Hx as ([x n] & -> & Hx). apply chunks_range in Hx; [|done]. simpl in Hx. lia.
Qed.

Lemma rchunks_range al R x n : Forall (fun r : region => Forall chunk_ok (r.2)) R -> (x, n) ∈ rchunks al R ->
  exists r, r ∈ R /\ r.1 + 8 <= x /\ x + n <= r.1 + 8 + tot (r.2) /\ 0 < n.
Proof.
  intros Hw H. apply list_elem_of_bind in H as (r & Hx & Hr). exists r. split; [done|].
  eapply chunks_range; [|exact Hx]. apply chunk_ok_pos. rewrite Forall_forall in Hw. by apply Hw.
Qed.

Lemma rchunks_NoDup nl al R : wf_regions nl R -> NoDup (fst <$> rchunks al R).
Proof.
  intros [Hc _ Hd]. induction R as [|r R IH]; [constructor|]. rewrite rchunks_cons, fmap_app.
  apply Forall_cons in Hc as [Hr Hc]. csimpl in Hd. destruct Hd as [Hd1 Hd]. apply NoDup_app.
  split_and!; [apply chunks_NoDup; by apply chunk_ok_pos| |by apply IH].
  intros x Hx Hx'. apply list_elem_of_fmap in Hx as ([y n] & -> & Hx). apply list_elem_of_fmap in Hx' as ([y' n'] & E & Hx').
  simpl in E. subst y'. apply chunks_range in Hx; [|by apply chunk_ok_pos].
  apply rchunks_range in Hx' as (r' & Hr' & Hx'); [|done]. rewrite Forall_fmap, Forall_forall in Hd1.
  specialize (Hd1 r' Hr'). unfold apart, geom in Hd1. simpl in *. lia.
Qed.

Lemma chunk_not_head nl R al x n : wf_regions nl R -> (x, n) ∈ rchunks al R ->
  x <> 0 /\ forall i, 0 <= i <= 18 -> x <> nl + SIZEOF_MM_FREENODE * i.
Proof.
  intros [Hc Hg Hd] Hx. apply rchunks_range in Hx as (r & Hr & Hx); [|done].
  rewrite Forall_fmap, Forall_forall in Hg. specialize (Hg r Hr). destruct Hg as [G1 G2 G3 G4 G5]. simpl in *.
  unfold SIZEOF_MM_FREENODE in *. change MM_NNODES with 19 in *. split; [lia|]. intros i Hi. lia.
Qed.

(** A chunk that is not in the free list is not a node of it. *)
Lemma notin_nodes nl R al x n F : wf_regions nl R -> (x, n) ∈ rchunks al R -> x ∉ fst <$> F -> x <> 0 /\ x ∉ fnodes nl F.
Proof.
  intros Hw Hx HF. destruct (chunk_not_head _ _ _ _ _ Hw Hx) as [H0 Hh]. split; [done|].
  intros Hn. apply list_elem_of_fmap in Hn as (y & -> & Hy). apply pheads_in in Hy as [Hy|(j & Hj & ->)].
  - apply HF. apply list_elem_of_fmap. by exists y.
  - by apply (Hh j ltac:(lia)).
Qed.

(** ** The invariant, and what an operation does to the regions *)

(** [x] are chunks that are marked free and not yet in the list. *)
Record free_ok (h : mm_heap) (x : list (Z * Z)) (R : list region) (F : list (Z * Z)) : Prop := {
  ho_lay : lay_ok h R;
  ho_fl : fl_ok h F;
  ho_perm : x ++ F ≡ₚ rchunks false R
}.

Definition heap_ok (h : mm_heap) (R : list region) : Prop :=
  (exists F, free_ok h [] R F) /\ Forall (fun r : region => no_adj (r.2)) R.

(** The chunk that a request of [n] bytes takes. *)
Definition need (n : Z) : Z := (n + SIZEOF_MM_ALLOCNODE + 15) / 16 * 16.

(** A chunk of size [m] that has [k] bytes taken; less than 16 bytes too much stay with it. *)
Definition carve (k m : Z) : list (Z * bool) := if decide (m - k < 16) then [(m, true)] else [(k, true); (m - k, false)].

(** A free neighbour joins a chunk of size [n]. *)
Definition eat (n : Z) (cs : list (Z * bool)) : Z * list (Z * bool) :=
  match cs with (m, false) :: cs' => (n + m, cs') | _ => (n, cs) end.

Definition release (cs1 : list (Z * bool)) (n : Z) (cs2 : list (Z * bool)) : list (Z * bool) :=
  let r := eat n cs2 in
  let l := eat (r.1) (rev cs1) in
  rev (l.2) ++ (l.1, false) :: r.2.

Lemma perm_notin nl R x n F : wf_regions nl R -> (x, n) :: F ≡ₚ rchunks false R -> x <> 0 /\ x ∉ fnodes nl F.
Proof.
  intros Hw HP. apply (notin_nodes nl R false x n); [done|rewrite <- HP; by left|].
  pose proof (rchunks_NoDup nl false R Hw) as Hn. rewrite <- HP in Hn. csimpl in Hn. by apply NoDup_cons in Hn as [? _].
Qed.

Lemma need_spec n : 0 < n -> n + 23 < 4294967296 ->
  MM_ALIGN_UP (u32 (n + SIZEOF_MM_ALLOCNODE)) = need n /\ 16 <= need n /\ need n mod 16 = 0 /\ n + 8 <= need n < 4294967296.
Proof.
  intros H1 H2. unfold need, SIZEOF_MM_ALLOCNODE. rewrite u32_id by lia. rewrite align_up_spec by lia.
  split_and!; [done|zlia|apply Z_mod_mult|zlia..].
Qed.

Lemma free_ok_perm h x x' R F : x ≡ₚ x' -> free_ok h x R F -> free_ok h x' R F.
Proof. intros E [H1 H2 H3]. split; [done|done|]. by rewrite <- E. Qed.

Lemma others_outside nl al R1 base cs1 M cs2 R2 x n : wf_regions nl (R1 ++ (base, cs1 ++ M ++ cs2) :: R2) ->
  (x, n) ∈ others al R1 base cs1 (tot M) cs2 R2 -> x < base + 8 + tot cs1 \/ base + 8 + tot cs1 + tot M <= x.
Proof.
  intros [Hc Hg Hd] Hx. rewrite fmap_app in Hd. csimpl in Hd. apply disj_app in Hd. rewrite <- fmap_app, Forall_fmap, Forall_forall in Hd.
  rewrite Forall_app, Forall_cons in Hc. destruct Hc as (Hc1 & Hc & Hc2). cbn [snd] in Hc. rewrite !Forall_app in Hc.
  destruct Hc as (C1 & C2 & C3). pose proof (tot_nonneg _ (chunk_ok_pos _ C1)) as T1. pose proof (tot_nonneg _ (chunk_ok_pos _ C2)) as T2.
  pose proof (tot_nonneg _ (chunk_ok_pos _ C3)) as T3.
  assert (Ho : forall R, (forall r, r ∈ R -> r ∈ R1 ++ R2) -> Forall (fun r : region => Forall chunk_ok (r.2)) R -> (x, n) ∈ rchunks al R ->
                 x < base + 8 + tot cs1 \/ base + 8 + tot cs1 + tot M <= x).
  { intros R HR HcR Hin. apply rchunks_range in Hin as (r & Hr & Hin); [|done]. specialize (Hd r (HR r Hr)).
    unfold apart, geom in Hd. simpl in Hd. rewrite !tot_app in Hd. lia. }
  unfold others in Hx. rewrite !elem_of_app in Hx. destruct Hx as [Hx|[Hx|[Hx|Hx]]].
  - apply (Ho R1); [|done|done]. intros r Hr. apply elem_of_app. by left.
  - apply chunks_range in Hx; [|by apply chunk_ok_pos]. lia.
  - apply chunks_range in Hx; [|by apply chunk_ok_pos]. lia.
  - apply (Ho R2); [|done|done]. intros r Hr. apply elem_of_app. by right.
Qed.

(** The chunks [M] at a place become [M'], by writes to the headers there and to the
    [preceding] field of the chunk behind; the free ones of both are outside the list. *)
Lemma retile h h' R1 base cs1 M M' cs2 R2 F (a := base + 8 + tot cs1) :
  free_ok h (chunks false a M) (R1 ++ (base, cs1 ++ M ++ cs2) :: R2) F -> with_links (m_flink h) (m_blink h) h' = h' ->
  mm_nodelist h' = mm_nodelist h -> mm_heapstart h' = mm_heapstart h -> mm_heapend h' = mm_heapend h -> mm_heapsize h' = mm_heapsize h ->
  tot M' = tot M -> Forall chunk_ok M' ->
  (forall x, x < a \/ a + tot M <= x -> m_size h' !! x = m_size h !! x) ->
  (forall x, x < a \/ a + tot M < x -> m_preceding h' !! x = m_preceding h !! x) ->
  lseg (m_size h') (m_preceding h') a (lsz 8 cs1) M' ->
  m_preceding h' !! (a + tot M) = Some (enc (lsz (lsz 8 cs1) M') ((nextc cs2).2)) ->
  free_ok h' (chunks false a M') (R1 ++ (base, cs1 ++ M' ++ cs2) :: R2) F.
Proof.
  intros [Hl Hf HP] Hk E1 E2 E3 E4 Ht HM' HS HPr Hseg Hnx. assert (HPo : F ≡ₚ others false R1 base cs1 (tot M) cs2 R2).
  { rewrite (rchunks_focus false R1 base cs1 M cs2 R2) in HP. by apply Permutation_app_inv_l in HP. }
  split.
  - by apply (lay_change h _ R1 base cs1 M M').
  - apply (fl_frame h); [done|by rewrite <- Hk|by rewrite <- Hk|done|]. intros y Hy. apply HS.
    apply list_elem_of_fmap in Hy as ([x n] & -> & Hy). apply pheads_in in Hy as [Hy|(j & Hj & Hy)].
    + rewrite HPo in Hy. by apply (others_outside _ _ _ _ _ _ _ _ _ _ (lay_wf _ _ Hl)) in Hy.
    + simplify_eq. destruct (lay_focus _ _ _ _ _ _ _ Hl) as [_ _ _ _ (T1 & T2 & T3) _ [_ _ _ _ G]]. simpl in *.
      unfold SIZEOF_MM_FREENODE in *. change MM_NNODES with 19 in G. subst a. lia.
  - rewrite (rchunks_focus false R1 base cs1 M' cs2 R2), Ht. by rewrite HPo.
Qed.

(** The last steps of [mm_malloc]. *)
Lemma set_alloc h R1 base cs1 m cs2 R2 F : free_ok h [(base + 8 + tot cs1, m)] (R1 ++ (base, cs1 ++ (m, false) :: cs2) :: R2) F ->
  exists p, m_preceding h !! (base + 8 + tot cs1) = Some p /\
    free_ok (wr_preceding (base + 8 + tot cs1) (Z.lor p MM_ALLOC_BIT) h) [] (R1 ++ (base, cs1 ++ (m, true) :: cs2) :: R2) F.
Proof.
  intros HF. destruct (lay_focus h R1 base cs1 [(m, false)] cs2 R2 (ho_lay _ _ _ _ HF)) as [(Hs & Hp & _) _ Hn (_ & Hm & _) _ Hb _].
  apply Forall_cons in Hm as [Hm _]. pose proof Hm as [Hm1 _]. simpl in Hm1. exists (enc (lsz 8 cs1) false). split; [done|].
  rewrite enc_set by done. apply (retile h _ R1 base cs1 [(m, false)] [(m, true)] cs2 R2 F HF); try done.
  - by constructor.
  - intros x Hx. simpl in *. apply lookup_insert_ne. lia.
  - simpl. by rewrite lookup_insert_eq.
  - cbn [wr_preceding m_preceding]. by rewrite lookup_insert_ne by (simpl; lia).
Qed.

Lemma chunk_bounds nl R al x n : wf_regions nl R -> (x, n) ∈ rchunks al R ->
  16 <= n < MM_ALLOC_BIT /\ n mod gran = 0 /\ 0 < x /\ x + n + 8 < 4294967296.
Proof.
  intros [Hc Hg _] H. apply rchunks_find in H as (R1 & base & cs1 & cs2 & R2 & -> & ->).
  rewrite fmap_app in Hg. csimpl in Hg. rewrite Forall_app, Forall_cons in Hc. rewrite Forall_app, Forall_cons in Hg.
  destruct Hc as (_ & Hc & _), Hg as (_ & Hg & _). cbn [fst snd] in *. rewrite Forall_app, Forall_cons in Hc.
  destruct Hc as (Hc1 & [Hn Hn2] & Hc2). simpl in Hn, Hn2. destruct Hg as [G1 G2 G3 G4 _]. unfold geom in *. simpl in *.
  rewrite tot_app in *. simpl in *. pose proof (tot_nonneg _ (chunk_ok_pos _ Hc1)). pose proof (tot_nonneg _ (chunk_ok_pos _ Hc2)). lia.
Qed.

Lemma chunk_size h R al x n : lay_ok h R -> (x, n) ∈ rchunks al R -> m_size h !! x = Some n.
Proof.
  intros Hl H. apply rchunks_find in H as (R1 & base & cs1 & cs2 & R2 & -> & ->).
  by destruct (fo_seg _ _ _ _ _ (lay_focus h R1 base cs1 [(n, al)] cs2 R2 Hl)) as (? & _).
Qed.

(** [mm_addfreechunk] puts a chunk into the list. *)
Lemma addfree_ok h a n x R F : free_ok h ((a, n) :: x) R F ->
  exists f b F', mm_addfreechunk a h = Some (with_links f b h) /\ free_ok (with_links f b h) x R F'.
Proof.
  intros [Hl Hf HP]. assert (Hin : (a, n) ∈ rchunks false R) by (rewrite <- HP; by left).
  destruct (chunk_bounds _ _ _ _ _ (lay_wf _ _ Hl) Hin) as (Hn & _).
  destruct (perm_notin _ _ a n (x ++ F) (lay_wf _ _ Hl) HP) as [H0 _].
  assert (Ha : a ∉ fnodes (mm_nodelist h) F).
  { apply (notin_nodes _ R false a n); [apply (lay_wf _ _ Hl)|done|].
    pose proof (rchunks_NoDup _ false R (lay_wf _ _ Hl)) as Hd. rewrite <- HP in Hd. csimpl in Hd. apply NoDup_cons in Hd as [Hd _].
    rewrite fmap_app, elem_of_app in Hd. tauto. }
  destruct (mm_addfreechunk_ok h F a n Hf (chunk_size _ _ _ _ _ Hl Hin) Hn H0 Ha) as (f & b & F1 & F2 & -> & E & Hf').
  exists f, b, (F1 ++ (a, n) :: F2). split; [done|]. split; [by apply lay_links|done|].
  rewrite <- HP. simpl. by rewrite <- !Permutation_middle.
Qed.

(** [remove_free] takes one out. *)
Lemma remove_ok h a n x R F : free_ok h x R F -> (a, n) ∈ F ->
  exists f b F', remove_free a h = Some (with_links f b h) /\ free_ok (with_links f b h) ((a, n) :: x) R F'.
Proof.
  intros [Hl Hf HP] Hin. apply list_elem_of_split in Hin as (F1 & F2 & ->).
  destruct (remove_free_ok h F1 (a, n) F2 Hf) as (f & b & E & Hf'). exists f, b, (F1 ++ F2). split; [done|].
  split; [by apply lay_links|done|]. rewrite <- HP. simpl. by rewrite <- Permutation_middle, Permutation_middle.
Qed.

(** The remainder of a chunk becomes a chunk. *)
Lemma split_chunk h R1 base cs1 m cs2 R2 F k (a := base + 8 + tot cs1) :
  free_ok h [(a, m)] (R1 ++ (base, cs1 ++ (m, false) :: cs2) :: R2) F -> 16 <= k -> k mod gran = 0 -> 16 <= m - k ->
  exists np, <[a + k := k]> (m_preceding h) !! (a + m) = Some np /\
    free_ok (wr_preceding (a + m) (Z.lor (m - k) (Z.land np MM_ALLOC_BIT))
              (wr_size a k (wr_preceding (a + k) k (wr_size (a + k) (m - k) h))))
            [(a + k, m - k); (a, k)] (R1 ++ (base, cs1 ++ (k, false) :: (m - k, false) :: cs2) :: R2) F.
Proof.
  intros HF Hk Hk2 Hr.
  destruct (lay_focus h R1 base cs1 [(m, false)] cs2 R2 (ho_lay _ _ _ _ HF)) as [(Hs & Hp & _) _ Hn (_ & Hm & _) (T1 & T2 & T3) Hb [_ _ _ G4 _]].
  fold a in Hs, Hp, Hn. apply Forall_cons in Hm as [[Hm1 Hm2] _]. cbn [fst snd tot] in *. rewrite Z.add_0_r in *.
  change (lsz (lsz 8 cs1) [(m, false)]) with m in Hn.
  exists (enc m ((nextc cs2).2)). split; [by rewrite lookup_insert_ne by lia|]. rewrite enc_keep by lia.
  eapply free_ok_perm; [apply Permutation_swap|].
  apply (retile h _ R1 base cs1 [(m, false)] [(k, false); (m - k, false)] cs2 R2 F HF); heap_writes a.
Qed.

(** *** Allocation *)

Lemma no_adj_app A B : no_adj (A ++ B) <-> no_adj A /\ no_adj B /\ ((nextc (rev A)).2 = true \/ (nextc B).2 = true).
Proof.
  induction A as [|a A IH]; [simpl; tauto|]. destruct A as [|a' A].
  - destruct B as [|b B]; simpl; tauto.
  - change ((a :: a' :: A) ++ B) with (a :: a' :: (A ++ B)). simpl (no_adj (a :: _)).
    change (a' :: A ++ B) with ((a' :: A) ++ B). rewrite IH. simpl rev. destruct (rev A ++ [a']) as [|c l] eqn:E; [by destruct (rev A)|].
    simpl. tauto.
Qed.

Lemma no_adj_carve cs1 k m cs2 : no_adj (cs1 ++ (m, false) :: cs2) -> no_adj (cs1 ++ carve k m ++ cs2).
Proof.
  change ((m, false) :: cs2) with ([(m, false)] ++ cs2). rewrite !no_adj_app. unfold carve. simpl.
  destruct (decide _); simpl; intuition (auto; done).
Qed.

Lemma chunk_carve k m : 16 <= k -> k mod gran = 0 -> m mod gran = 0 -> k <= m -> tot (carve k m) = m /\ Forall chunk_ok (carve k m).
Proof.
  intros. unfold carve. destruct (decide _); simpl; (split; [lia|]); repeat constructor; simpl; (done || lia || by apply gran_sub).
Qed.

Lemma take_ok h R1 base cs1 m cs2 R2 F k (a := base + 8 + tot cs1) (R := R1 ++ (base, cs1 ++ (m, false) :: cs2) :: R2) :
  free_ok h [] R F -> (a, m) ∈ F -> 16 <= k <= m -> k mod gran = 0 ->
  exists h' F', take_chunk k a h = Some (a + 8, h') /\
    free_ok h' [] (R1 ++ (base, cs1 ++ carve k m ++ cs2) :: R2) F'.
Proof.
  intros HF Hin Hk Hk2. assert (HinR : (a, m) ∈ rchunks false R) by (by rewrite <- (ho_perm _ _ _ _ HF)).
  destruct (chunk_bounds _ _ _ _ _ (lay_wf _ _ (ho_lay _ _ _ _ HF)) HinR) as (Hm & Hm16 & Ha & Hend). unfold MM_ALLOC_BIT in Hm.
  destruct (remove_ok h a m [] R F HF Hin) as (f & b & F1 & E1 & HF1). unfold take_chunk. rewrite E1. simpl.
  rewrite (chunk_size h R false a m (ho_lay _ _ _ _ HF) HinR). simpl.
  unfold carve, SIZEOF_MM_FREENODE, SIZEOF_MM_ALLOCNODE. rewrite !u32_id by lia. set (h1 := with_links f b h) in *.
  destruct (decide (m - k < 16)) as [Hlt|Hge].
  - rewrite decide_False by lia. simpl. destruct (set_alloc h1 R1 base cs1 m cs2 R2 F1 HF1) as (p & Ep & HF2).
    fold a in Ep, HF2. simpl in Ep. rewrite Ep. simpl. by eexists _, _.
  - rewrite decide_True by lia.
    destruct (split_chunk h1 R1 base cs1 m cs2 R2 F1 k HF1 ltac:(lia) Hk2 ltac:(lia)) as (np & Enp & HF2). fold a in Enp, HF2.
    simpl in Enp. rewrite Enp. cbn [mbind option_bind]. set (h2 := wr_preceding (a + m) _ _) in *.
    destruct (addfree_ok _ _ _ _ _ _ HF2) as (f3 & b3 & F3 & E3 & HF3). rewrite E3. cbn [mbind option_bind].
    destruct (set_alloc _ R1 base cs1 k ((m - k, false) :: cs2) R2 F3 HF3) as (p & Ep & HF4). fold a in Ep, HF4. rewrite Ep. simpl.
    by eexists _, _.
Qed.

(** [mm_malloc] takes the smallest chunk that is large enough, wherever it is. *)
Lemma mm_malloc_ok h R n : heap_ok h R -> 0 < n -> n + 23 < 4294967296 ->
  ((forall x m, (x, m) ∈ rchunks false R -> m < need n) /\ mm_malloc n h = Some (0, h)) \/
  exists R1 base cs1 m cs2 R2 h', R = R1 ++ (base, cs1 ++ (m, false) :: cs2) :: R2 /\ need n <= m /\
    (forall y k, (y, k) ∈ rchunks false R -> need n <= k -> m <= k) /\
    mm_malloc n h = Some (base + 16 + tot cs1, h') /\
    heap_ok h' (R1 ++ (base, cs1 ++ carve (need n) m ++ cs2) :: R2).
Proof.
  intros [(F & HF) Hadj] Hn Hn2. destruct (need_spec n Hn Hn2) as (En & Hk1 & Hk2 & Hk3).
  pose proof (fl_sorted _ _ (ho_fl _ _ _ _ HF)) as Hs.
  destruct (sorted_split (need n) F Hs) as (F1 & F2 & -> & H1 & H2).
  destruct (search_ok h F1 F2 (need n) (ho_fl _ _ _ _ HF) ltac:(lia) H1 H2) as (f & Ef & Es).
  assert (E0 : mm_malloc n h = (let a := fst_of 0 (fst <$> F2) in if decide (a = 0) then Some (0, h) else take_chunk (need n) a h)).
  { unfold mm_malloc. rewrite decide_False by lia. rewrite En. cbv zeta.
    rewrite size2ndx_spec by lia. replace (if decide (MM_MAX_CHUNK <= need n) then _ else _) with (Some (ndx_of (need n))).
    - simpl. rewrite Ef. simpl. rewrite Es. done.
    - unfold ndx_of. by destruct (decide _). }
  pose proof (ho_perm _ _ _ _ HF) as HP. simpl in HP. rewrite Forall_forall in H1. rewrite Forall_forall in H2. rewrite E0.
  destruct F2 as [|[a m] F2].
  { left. split; [|by rewrite decide_True]. intros x m Hx. rewrite <- HP, app_nil_r in Hx. apply (H1 _ Hx). }
  right. assert (Hin : (a, m) ∈ F1 ++ (a, m) :: F2) by (apply elem_of_app; right; by left).
  assert (HinR : (a, m) ∈ rchunks false R) by (by rewrite <- HP).
  destruct (chunk_bounds _ _ _ _ _ (lay_wf _ _ (ho_lay _ _ _ _ HF)) HinR) as (Hm & Hm16 & Ha & Hend).
  pose proof (H2 (a, m) ltac:(by left)) as Hle. simpl in Hle.
  destruct (rchunks_find _ _ _ _ HinR) as (R1 & base & cs1 & cs2 & R2 & -> & ->).
  destruct (take_ok h R1 base cs1 m cs2 R2 _ (need n) HF Hin ltac:(lia) (gran_16 _ Hk2)) as (h' & F' & E & HF').
  exists R1, base, cs1, m, cs2, R2, h'. split_and!; [done|done| | |split; [by exists F'|]].
  - intros y k Hy Hyk. rewrite <- HP in Hy. apply elem_of_app in Hy as [Hy|Hy]; [specialize (H1 _ Hy); simpl in H1; lia|].
    apply elem_of_cons in Hy as [Hy|Hy]; [by simplify_eq|].
    clear - Hs Hy. induction F1 as [|z F1 IH]; simpl in Hs; apply StronglySorted_inv in Hs as [Hs Hf]; [|by apply IH].
    rewrite Forall_forall in Hf. by apply (Hf _ Hy).
  - simpl. rewrite decide_False by lia. rewrite E. do 2 f_equal. lia.
  - rewrite Forall_app, Forall_cons in Hadj. rewrite Forall_app, Forall_cons. simpl in *. destruct Hadj as (? & ? & ?).
    split_and!; [done|by apply no_adj_carve|done].
Qed.

(** *** Release *)

(** The first step of [mm_free]. *)
Lemma clear_alloc h R1 base cs1 n cs2 R2 F : free_ok h [] (R1 ++ (base, cs1 ++ (n, true) :: cs2) :: R2) F ->
  exists p, m_preceding h !! (base + 8 + tot cs1) = Some p /\
    free_ok (wr_preceding (base + 8 + tot cs1) (Z.land p (not32 MM_ALLOC_BIT)) h) [(base + 8 + tot cs1, n)]
            (R1 ++ (base, cs1 ++ (n, false) :: cs2) :: R2) F.
Proof.
  intros HF. destruct (lay_focus h R1 base cs1 [(n, true)] cs2 R2 (ho_lay _ _ _ _ HF)) as [(Hs & Hp & _) _ Hn (_ & Hm & _) _ Hb _].
  apply Forall_cons in Hm as [Hm _]. pose proof Hm as [Hm1 _]. simpl in Hm1. exists (enc (lsz 8 cs1) true). split; [done|].
  rewrite enc_clear by done. apply (retile h _ R1 base cs1 [(n, true)] [(n, false)] cs2 R2 F HF); try done.
  - by constructor.
  - intros x Hx. simpl in *. apply lookup_insert_ne. lia.
  - simpl. by rewrite lookup_insert_eq.
  - cbn [wr_preceding m_preceding]. by rewrite lookup_insert_ne by (simpl; lia).
Qed.

(** Two free chunks become one. *)
Lemma merge_chunks h R1 base cs1 n m cs2 R2 F (a := base + 8 + tot cs1) :
  free_ok h [(a + n, m); (a, n)] (R1 ++ (base, cs1 ++ (n, false) :: (m, false) :: cs2) :: R2) F ->
  exists np, m_preceding h !! (a + n + m) = Some np /\
    free_ok (wr_preceding (a + n + m) (Z.lor (n + m) (Z.land np MM_ALLOC_BIT)) (wr_size a (n + m) h)) [(a, n + m)]
            (R1 ++ (base, cs1 ++ (n + m, false) :: cs2) :: R2) F.
Proof.
  intros HF.
  destruct (lay_focus h R1 base cs1 [(n, false); (m, false)] cs2 R2 (ho_lay _ _ _ _ HF)) as [(Hs & Hp & _) _ Hn (_ & Hm & _) (T1 & T2 & T3) Hb [_ _ _ G4 _]].
  fold a in Hs, Hp, Hn. apply Forall_cons in Hm as [[Hm1 Hm2] Hm]. apply Forall_cons in Hm as [[Hm3 Hm4] _].
  cbn [fst snd tot] in *. rewrite Z.add_0_r, ?Z.add_assoc in *. change (lsz (lsz 8 cs1) _) with m in Hn.
  exists (enc m ((nextc cs2).2)). split; [done|]. rewrite enc_keep by lia.
  apply (retile h _ R1 base cs1 [(n, false); (m, false)] [(n + m, false)] cs2 R2 F); heap_writes a.
  eapply free_ok_perm; [apply Permutation_swap|]. done.
Qed.

Lemma free_in_list h x a n R F : free_ok h x R F -> (a, n) ∈ rchunks false R -> (a, n) ∉ x -> (a, n) ∈ F.
Proof. intros [_ _ HP] Hin Hx. rewrite <- HP in Hin. apply elem_of_app in Hin as [?|?]; done. Qed.

Lemma free_next_ok h R1 base cs1 n cs2 R2 F (a := base + 8 + tot cs1) :
  free_ok h [(a, n)] (R1 ++ (base, cs1 ++ (n, false) :: cs2) :: R2) F ->
  exists h' F', free_next a h = Some (a + (eat n cs2).1, h') /\
    free_ok h' [(a, (eat n cs2).1)] (R1 ++ (base, cs1 ++ ((eat n cs2).1, false) :: (eat n cs2).2) :: R2) F'.
Proof.
  intros HF. pose proof (lay_focus h R1 base cs1 [(n, false)] cs2 R2 (ho_lay _ _ _ _ HF)) as Fo. fold a in Fo.
  destruct Fo as [(Hs & Hp & _) Hn1 Hn2 (Hc1 & Hcm & Hc2) (T1 & T2 & T3) Hb [G1 G2 G3 G4 G5]]. fold a in Hs, Hp, Hn1, Hn2.
  cbn [fst snd tot lseg] in *. rewrite Z.add_0_r in *. change (lsz (lsz 8 cs1) _) with n in Hn2. unfold MM_ALLOC_BIT in G4.
  unfold free_next. rewrite Hs. simpl. rewrite !u32_id by lia. rewrite Hn2. simpl. rewrite land_bit by (unfold MM_ALLOC_BIT; lia).
  destruct cs2 as [|[m al] cs2]; [|destruct al].
  - simpl. eauto.
  - simpl. eauto.
  - simpl in Hn1 |- *. rewrite Hn1. simpl. simpl in T3. apply Forall_cons in Hc2 as [[Hm1 _] Hc2]. simpl in Hm1.
    pose proof (tot_nonneg _ (chunk_ok_pos _ Hc2)). simpl in *.
    destruct (remove_ok h (a + n) m [(a, n)] _ F HF) as (f & b & F1 & E1 & HF1).
    { eapply free_in_list; [exact HF| |].
      - rewrite (rchunks_focus false R1 base cs1 [(n, false); (m, false)] cs2 R2). simpl. fold a. right. by left.
      - intros Hx. apply list_elem_of_singleton in Hx. simplify_eq. apply Forall_cons in Hcm as [[Hx _] _]. simpl in Hx. lia. }
    rewrite E1. simpl. rewrite !u32_id by lia. destruct (merge_chunks _ R1 base cs1 n m cs2 R2 F1 HF1) as (np & Enp & HF2). fold a in Enp, HF2.
    simpl in Enp. rewrite Enp. simpl. rewrite Z.add_assoc. eauto.
Qed.

Lemma lay_guard h R1 base cs R2 : lay_ok h (R1 ++ (base, cs) :: R2) -> m_preceding h !! base = Some (enc 0 true).
Proof. intros [_ Hs _ _ _]. rewrite Forall_app, Forall_cons in Hs. destruct Hs as (_ & (_ & H & _) & _). exact H. Qed.

Lemma free_prev_ok h R1 base cs1 n cs2 R2 F (a := base + 8 + tot cs1) (l := eat n (rev cs1)) :
  free_ok h [(a, n)] (R1 ++ (base, cs1 ++ (n, false) :: cs2) :: R2) F ->
  exists h' F', free_prev a (a + n) h = Some (a + n - l.1, h') /\
    free_ok h' [(a + n - l.1, l.1)] (R1 ++ (base, rev (l.2) ++ (l.1, false) :: cs2) :: R2) F'.
Proof.
  intros HF. pose proof (lay_focus h R1 base cs1 [(n, false)] cs2 R2 (ho_lay _ _ _ _ HF)) as Fo. fold a in Fo.
  destruct Fo as [(Hs & Hp & _) _ _ (Hc1 & Hcm & Hc2) (T1 & T2 & T3) Hb [G1 G2 G3 G4 G5]]. fold a in Hs, Hp.
  cbn [fst snd tot lseg enc] in *. rewrite Z.add_0_r in *. unfold MM_ALLOC_BIT in *.
  apply Forall_cons in Hcm as [[Hn16 _] _]. simpl in Hn16.
  unfold free_prev. rewrite Hp. cbn [mbind option_bind].
  destruct cs1 as [|[p al] cs0 _] using rev_ind; [|rewrite tot_app in *; rewrite Forall_app, Forall_cons in Hc1; destruct Hc1 as (Hc0 & [Hp16 _] & _);
    simpl in Hp16; pose proof (tot_nonneg _ (chunk_ok_pos _ Hc0)) as T0; simpl in T1; unfold lsz in *; rewrite fmap_app, lst_app in *; csimpl in *].
  - change (lsz 8 []) with 8. change (tot []) with 0 in *. replace (u32 (a - 8)) with base by (rewrite u32_id; unfold a; lia).
    rewrite (lay_guard _ _ _ _ _ (ho_lay _ _ _ _ HF)). simpl in *. subst l. simpl. replace (a + n - n) with a by lia. eauto.
  - set (a0 := base + 8 + tot cs0) in *. replace a with (a0 + p) in * by (unfold a, a0; rewrite ?tot_app; simpl; lia). clear a.
    replace (u32 (a0 + p - p)) with a0 by (rewrite u32_id; lia). subst l. rewrite rev_app_distr. simpl.
    rewrite <- app_assoc in HF. simpl in HF, G3, G4.
    destruct (lay_focus h R1 base cs0 [(p, al)] ((n, false) :: cs2) R2 (ho_lay _ _ _ _ HF)) as [(Hs0 & Hp0 & _) _ _ _ _ Hb0 _].
    fold a0 in Hs0, Hp0. simpl in Hs0, Hp0. rewrite Hp0. cbn [mbind option_bind]. rewrite land_bit by done. destruct al; simpl.
    + replace (a0 + p + n - n) with (a0 + p) by lia. rewrite rev_involutive.
      rewrite <- app_assoc. eauto.
    + destruct (remove_ok h a0 p [(a0 + p, n)] _ F HF) as (f & b & F1 & E1 & HF1).
      { eapply free_in_list; [exact HF| |].
        - rewrite (rchunks_focus false R1 base cs0 [(p, false); (n, false)] cs2 R2). simpl. by left.
        - intros Hx. apply list_elem_of_singleton in Hx. simplify_eq. lia. }
      rewrite E1. simpl. rewrite Hs0. simpl. rewrite Hs. simpl. rewrite (u32_id (p + n)) by lia.
      destruct (merge_chunks _ R1 base cs0 p n cs2 R2 F1 (free_ok_perm _ _ _ _ _ (Permutation_swap _ _ _) HF1)) as (np & Enp & HF2).
      fold a0 in Enp, HF2. simpl in Enp. rewrite Enp. simpl. rewrite rev_involutive, (Z.add_comm n p).
      replace (a0 + p + n - (p + n)) with a0 by lia. eauto.
Qed.

Lemma eat_tot n cs : (eat n cs).1 + tot ((eat n cs).2) = n + tot cs.
Proof. destruct cs as [|[m []] cs]; simpl; lia. Qed.

Lemma tot_rev cs : tot (rev cs) = tot cs.
Proof. induction cs as [|c cs IH]; [done|]. simpl. rewrite tot_app, IH. simpl. lia. Qed.

Lemma eat_no_adj n cs : no_adj cs -> no_adj ((eat n cs).2) /\ (nextc ((eat n cs).2)).2 = true.
Proof.
  destruct cs as [|[m []] cs]; simpl; [done|done|]. destruct cs as [|d cs]; [done|]. intros [[?|?] ?]; [done|]. done.
Qed.

Lemma no_adj_rev cs : no_adj (rev cs) <-> no_adj cs.
Proof.
  induction cs as [|c cs IH]; [done|]. simpl rev. rewrite no_adj_app, IH, rev_involutive. destruct cs as [|d cs]; simpl; tauto.
Qed.

Lemma no_adj_release cs1 n cs2 : no_adj (cs1 ++ (n, true) :: cs2) -> no_adj (release cs1 n cs2).
Proof.
  change ((n, true) :: cs2) with ([(n, true)] ++ cs2). rewrite !no_adj_app. intros (H1 & (_ & H2 & _) & _).
  destruct (eat_no_adj n cs2 H2) as [E1 E2]. apply no_adj_rev in H1. destruct (eat_no_adj ((eat n cs2).1) _ H1) as [E3 E4].
  unfold release. set (r := eat n cs2) in *. set (l := eat (r.1) (rev cs1)) in *.
  change ((l.1, false) :: r.2) with ([(l.1, false)] ++ r.2). rewrite !no_adj_app, no_adj_rev, rev_involutive. simpl. tauto.
Qed.

(** [mm_free] marks the chunk free and joins it with its free neighbours. *)
Lemma mm_free_ok h R1 base cs1 n cs2 R2 : heap_ok h (R1 ++ (base, cs1 ++ (n, true) :: cs2) :: R2) ->
  exists h', mm_free (base + 16 + tot cs1) h = Some h' /\ heap_ok h' (R1 ++ (base, release cs1 n cs2) :: R2).
Proof.
  intros [(F & HF) Hadj]. destruct (clear_alloc _ _ _ _ _ _ _ _ HF) as (p & Ep & HF1).
  destruct (lay_focus h R1 base cs1 [(n, true)] cs2 R2 (ho_lay _ _ _ _ HF)) as [_ _ _ _ (T1 & T2 & T3) _ [G1 G2 G3 G4 G5]]. simpl in *.
  unfold mm_free. rewrite decide_False by lia. unfold SIZEOF_MM_ALLOCNODE.
  replace (u32 (base + 16 + tot cs1 - 8)) with (base + 8 + tot cs1) by (rewrite u32_id; lia). cbv zeta. rewrite Ep. cbn [mbind option_bind].
  destruct (free_next_ok _ R1 base cs1 n cs2 R2 F HF1) as (h2 & F2 & E2 & HF2). rewrite E2. cbn [mbind option_bind].
  destruct (free_prev_ok _ R1 base cs1 _ _ R2 F2 HF2) as (h3 & F3 & E3 & HF3). rewrite E3. cbn [mbind option_bind].
  destruct (addfree_ok _ _ _ _ _ _ HF3) as (f & b & F4 & E4 & HF4). eexists. split; [exact E4|]. split; [by exists F4|].
  rewrite Forall_app, Forall_cons in Hadj. rewrite Forall_app, Forall_cons. simpl in *. destruct Hadj as (? & ? & ?).
  split_and!; [done|by apply no_adj_release|done].
Qed.

(** ** Regions are added *)

Lemma align_down_spec a : 0 <= a < 4294967296 -> MM_ALIGN_DOWN a = a / 16 * 16.
Proof.
  intros Ha. pose proof (align_up_spec (a - 15)) as E. unfold MM_ALIGN_UP, MM_ALIGN_DOWN in *. change MM_GRAN_MASK with 15 in *.
  destruct (decide (15 <= a)).
  - rewrite u32_id in E by lia. replace (a - 15 + 15) with a in E by lia. apply E; lia.
  - rewrite Z.div_small by lia. assert (Hl : Z.land a (Z.ones 4) = a) by (rewrite Z.land_ones by lia; apply Z.mod_small; lia).
    rewrite <- Hl, <- Z.land_assoc. change (Z.land (Z.ones 4) (not32 15)) with 0. apply Z.land_0_r.
Qed.

(** What is in the list is inside the regions, or a head. *)
Lemma outside_nodes nl R F g x : wf_regions nl R -> F ≡ₚ rchunks false R -> geom_ok nl g -> Forall (apart g) (geom <$> R) ->
  g.1 <= x < g.1 + 16 + g.2 -> x ∉ fnodes nl F.
Proof.
  intros Hw HP Hg Ha Hx Hin. apply list_elem_of_fmap in Hin as ([y n] & -> & Hy). simpl in Hx.
  apply pheads_in in Hy as [Hy|(j & Hj & Hy)].
  - rewrite HP in Hy. apply rchunks_range in Hy as (r & Hr & Hy); [|apply (wf_chunks _ _ Hw)].
    rewrite Forall_fmap, Forall_forall in Ha. specialize (Ha r Hr). unfold apart, geom in Ha. simpl in Ha. lia.
  - simplify_eq. destruct Hg as [_ _ _ _ G]. unfold SIZEOF_MM_FREENODE in *. change MM_NNODES with 19 in G. lia.
Qed.

Lemma disj_snoc G g : disj G -> Forall (apart g) G -> disj (G ++ [g]).
Proof.
  induction G as [|x G IH]; simpl; [by split|]. intros [H1 H2] H3. apply Forall_cons in H3 as [H3 H4]. split; [|by apply IH].
  apply Forall_app. split; [done|]. constructor; [by apply apart_sym|done].
Qed.

Lemma arena_app G G' : arena_of (G ++ G') = arena_of G + arena_of G'.
Proof. induction G; simpl; lia. Qed.

(** The aligned area of a region of [size_] bytes at [start]. *)
Definition region_base (start : Z) : Z := (start + 15) / 16 * 16.
Definition region_len (start size_ : Z) : Z := (start + size_) / 16 * 16 - region_base start - 16.

Lemma mm_addregion_ok h R start size_ (base := region_base start) (n := region_len start size_) :
  heap_ok h R -> (length R < 2)%nat -> 0 < start -> 0 <= size_ -> start + size_ < 4294967296 ->
  geom_ok (mm_nodelist h) (base, n) -> Forall (apart (base, n)) (geom <$> R) ->
  exists h', mm_addregion start size_ h = Some h' /\ heap_ok h' (R ++ [(base, [(n, false)])]) /\ mm_nodelist h' = mm_nodelist h.
Proof.
  intros [(F & HF) Hadj] Hlen Hst Hsz Hend Hg Hap. destruct HF as [Hl Hf HP]. simpl in HP.
  pose proof Hg as [G1 G2 G3 G4 G5]. simpl in G1, G2, G3, G4. unfold MM_ALLOC_BIT in G4.
  assert (Hb : (start + size_) / 16 * 16 = base + 16 + n) by (unfold n, region_len, base; lia).
  assert (Hs15 : start + 15 < 4294967296).
  { assert (start <= base) by (unfold base, region_base; zlia). lia. }
  unfold mm_addregion. rewrite (align_up_spec start) by lia. rewrite (u32_id (start + size_)) by lia. rewrite align_down_spec by lia.
  fold (region_base start). fold base. rewrite Hb. replace (base + 16 + n - base) with (16 + n) by lia. unfold SIZEOF_MM_ALLOCNODE, CONFIG_MM_REGIONS.
  assert (Hl2 : (length (mm_heapstart h) < 2)%nat) by (rewrite (lay_starts _ _ Hl), length_fmap; exact Hlen).
  rewrite decide_False by lia. rewrite (u32_id (16 + n)) by lia.
  replace (16 + n - 2 * 8) with n by lia. replace (base + 16 + n - 8) with (base + 8 + n) by lia.
  rewrite (u32_id n), (u32_id (base + 8)), (u32_id (base + 8 + n)) by lia.
  cbn [wr_size wr_preceding m_size m_preceding m_flink m_blink mm_nodelist mm_heapsize mm_heapstart mm_heapend].
  rewrite lor_low by (unfold MM_ALLOC_BIT; lia). match goal with |- context [mm_addfreechunk _ ?h] => set (h1 := h) end.
  assert (HS : forall x, x < base \/ base + 16 + n <= x -> m_size h1 !! x = m_size h !! x /\ m_preceding h1 !! x = m_preceding h !! x).
  { intros x Hx. simpl. rewrite !lookup_insert_ne by lia. done. }
  assert (Hn16 : n mod gran = 0) by (apply gran_16; unfold n, region_len, base, region_base; zlia).
  assert (Eg : geom (base, [(n, false)]) = (base, n)) by (unfold geom; cbn [fst snd tot]; by rewrite Z.add_0_r).
  assert (HF1 : free_ok h1 [(base + 8, n)] (R ++ [(base, [(n, false)])]) F).
  { pose proof Hl as [[Hc Hgs Hd] Hs Hst1 He Ha]. split.
    - split.
      + split; [apply Forall_app; split; [done|]; repeat constructor; simpl; lia| |].
        * rewrite fmap_app. csimpl. apply Forall_app. split; [done|]. rewrite Eg. by constructor.
        * rewrite fmap_app. csimpl. rewrite Eg. by apply disj_snoc.
      + apply Forall_app. split.
        * rewrite Forall_forall in *. intros r Hr. eapply lseg_frame; [by apply full_pos, Hc| |by apply Hs].
          intros x Hx. rewrite tot_full in Hx. rewrite Forall_fmap, Forall_forall in Hap. specialize (Hap r Hr).
          unfold apart, geom in Hap. simpl in Hap. apply HS. lia.
        * constructor; [|constructor]. cbn [fst snd full app lseg guard tot]. unfold SIZEOF_MM_ALLOCNODE.
          rewrite <- ?Z.add_assoc. simpl. rewrite !Z.add_assoc.
          repeat first [rewrite lookup_insert_eq | rewrite lookup_insert_ne by lia]. done.
      + simpl. by rewrite Hst1, fmap_app.
      + simpl. rewrite He, fmap_app. csimpl. simpl. by rewrite Z.add_0_r.
      + cbn [h1 mm_heapsize]. rewrite Ha, fmap_app, arena_app. csimpl. unfold u32. rewrite Zplus_mod_idemp_l. f_equal. lia.
    - apply (fl_frame h); [done..|]. intros y Hy. apply HS.
      destruct (decide (y < base \/ base + 16 + n <= y)) as [|Hno]; [done|]. exfalso.
      apply (outside_nodes (mm_nodelist h) R F (base, n) y); [done|done|done|done|simpl; lia|done].
    - rewrite rchunks_app, <- HP. simpl. by rewrite Permutation_app_comm. }
  destruct (addfree_ok _ _ _ _ _ _ HF1) as (f & b & F' & E & HF2). eexists. split; [exact E|]. split; [split; [by exists F'|]|done].
  apply Forall_app. split; [done|]. by repeat constructor.
Qed.

(** *** The list heads *)

Definition rest_same (h h' : mm_heap) : Prop :=
  mm_nodelist h' = mm_nodelist h /\ mm_heapsize h' = mm_heapsize h /\ mm_heapstart h' = mm_heapstart h /\ mm_heapend h' = mm_heapend h.

Lemma clear_nodes_ok n : forall i h, rest_same h (clear_nodes n i h) /\
  forall j, (i <= j < i + Z.of_nat n -> m_size (clear_nodes n i h) !! node_at h j = Some 0 /\
               m_flink (clear_nodes n i h) !! node_at h j = Some 0 /\ m_blink (clear_nodes n i h) !! node_at h j = Some 0) /\
            (j < i -> m_size (clear_nodes n i h) !! node_at h j = m_size h !! node_at h j /\
               m_flink (clear_nodes n i h) !! node_at h j = m_flink h !! node_at h j /\
               m_blink (clear_nodes n i h) !! node_at h j = m_blink h !! node_at h j).
Proof.
  induction n as [|n IH]; intros i h; [split; [done|]; intros j; split; [lia|done]|]. simpl.
  match goal with |- context [clear_nodes n (i + 1) ?x] => set (h1 := x) end.
  destruct (IH (i + 1) h1) as [Hr Hj]. split; [exact Hr|]. intros j. destruct (Hj j) as [H1 H2].
  change (node_at h1 j) with (node_at h j) in *.
  assert (Hne : j <> i -> node_at h i <> node_at h j) by (unfold node_at, SIZEOF_MM_FREENODE; lia). split; intros Hb.
  - destruct (decide (j = i)) as [-> |Hji]; [|apply H1; lia].
    destruct H2 as (-> & -> & ->); [lia|]. simpl. by rewrite !lookup_insert_eq.
  - destruct H2 as (-> & -> & ->); [lia|]. simpl. rewrite !lookup_insert_ne by (apply Hne; lia). done.
Qed.

Lemma link_nodes_ok n : forall i h, rest_same h (link_nodes n i h) /\ m_size (link_nodes n i h) = m_size h /\
  forall j, m_flink (link_nodes n i h) !! node_at h j =
              (if decide (i - 1 <= j < i - 1 + Z.of_nat n) then Some (node_at h (j + 1)) else m_flink h !! node_at h j) /\
            m_blink (link_nodes n i h) !! node_at h j =
              (if decide (i <= j < i + Z.of_nat n) then Some (node_at h (j - 1)) else m_blink h !! node_at h j).
Proof.
  induction n as [|n IH]; intros i h.
  - split; [done|]. split; [done|]. intros j. simpl. rewrite !decide_False by lia. done.
  - simpl. match goal with |- context [link_nodes n (i + 1) ?x] => set (h1 := x) end.
    destruct (IH (i + 1) h1) as (Hr & Hm & Hj). split; [exact Hr|]. split; [exact Hm|]. intros j. destruct (Hj j) as [H1 H2].
    change (node_at h1 j) with (node_at h j) in *. change (node_at h1 (j + 1)) with (node_at h (j + 1)) in *.
    change (node_at h1 (j - 1)) with (node_at h (j - 1)) in *. rewrite H1, H2.
    assert (Hne : forall k, j <> k -> node_at h k <> node_at h j) by (unfold node_at, SIZEOF_MM_FREENODE; lia). split.
    + destruct (decide (j = i - 1)) as [-> |Hji].
      * rewrite decide_False, decide_True by lia. simpl. rewrite lookup_insert_eq. do 2 f_equal. lia.
      * simpl. rewrite lookup_insert_ne by (by apply Hne). repeat destruct (decide _); (done || lia).
    + destruct (decide (j = i)) as [-> |Hji].
      * rewrite decide_False, decide_True by lia. simpl. by rewrite lookup_insert_eq.
      * simpl. rewrite lookup_insert_ne by (by apply Hne). repeat destruct (decide _); (done || lia).
Qed.

Lemma lk_heads f b nl k : forall i p,
  (forall j, i <= j < i + Z.of_nat k ->
     b !! (nl + 16 * j) = Some (if decide (j = i) then p else nl + 16 * (j - 1)) /\
     f !! (nl + 16 * j) = Some (if decide (j = i + Z.of_nat k - 1) then 0 else nl + 16 * (j + 1))) ->
  lk f b p (fst <$> pheads nl [] i k) 0.
Proof.
  induction k as [|k IH]; intros i p H; [done|]. unfold pheads; fold pheads. csimpl. unfold SIZEOF_MM_FREENODE.
  destruct (H i) as [H1 H2]; [lia|]. rewrite decide_True in H1 by done. split_and!; [done| |].
  - rewrite H2. destruct k as [|k].
    + rewrite decide_True by lia. done.
    + rewrite decide_False by lia. done.
  - apply IH. intros j Hj. destruct (H j) as [H3 H4]; [lia|]. rewrite H3, H4. rewrite decide_False by lia. split.
    + destruct (decide (j = i + 1)) as [-> |]; [|done]. do 2 f_equal. lia.
    + destruct (decide (j = i + Z.of_nat (S k) - 1)), (decide (j = i + 1 + Z.of_nat k - 1)); (done || lia).
Qed.

Lemma heads_nodes nl k : forall i x, x ∈ fst <$> pheads nl [] i k -> exists j, i <= j < i + Z.of_nat k /\ x = nl + 16 * j.
Proof.
  intros i x Hx. apply list_elem_of_fmap in Hx as (y & -> & Hy). apply pheads_in in Hy as [Hy|(j & Hj & ->)]; [by apply elem_of_nil in Hy|].
  by exists j.
Qed.

Lemma heads_NoDup nl k : forall i, NoDup (fst <$> pheads nl [] i k).
Proof.
  induction k as [|k IH]; intros i; unfold pheads; fold pheads; [constructor|]. csimpl. constructor; [|apply IH].
  intros Hx. apply heads_nodes in Hx as (j & Hj & Hx). unfold SIZEOF_MM_FREENODE in Hx. lia.
Qed.

(** [mm_initialize] sets the heap up, whatever the memory holds. *)
Lemma mm_initialize_ok h start size_ (base := region_base start) (n := region_len start size_) :
  0 < mm_nodelist h -> 0 < start -> 0 <= size_ -> start + size_ < 4294967296 -> geom_ok (mm_nodelist h) (base, n) ->
  exists h', mm_initialize start size_ h = Some h' /\ heap_ok h' [(base, [(n, false)])] /\ mm_nodelist h' = mm_nodelist h.
Proof.
  intros Hnl Hst Hsz Hend Hg. unfold mm_initialize. change (Z.to_nat MM_NNODES) with 19%nat. change (19 - 1)%nat with 18%nat.
  set (h1 := mkHeap _ _ _ _ _ _ _ _). destruct (clear_nodes_ok 19 0 h1) as [(R1 & R2 & R3 & R4) Hc].
  set (h2 := clear_nodes 19 0 h1) in *. destruct (link_nodes_ok 18 1 h2) as ((S1 & S2 & S3 & S4) & Sm & Hk).
  set (h3 := link_nodes 18 1 h2) in *.
  assert (Hn2 : forall j, node_at h2 j = mm_nodelist h + 16 * j) by (intros j; unfold node_at; by rewrite R1).
  assert (Hn1 : forall j, node_at h1 j = mm_nodelist h + 16 * j) by done.
  assert (Hn3 : mm_nodelist h3 = mm_nodelist h) by (by rewrite S1, R1).
  clearbody h3. clearbody h2.
  assert (H3 : heap_ok h3 []).
  { split; [|constructor]. exists []. split; [| |done].
    - split; [split; [constructor|constructor|done]|constructor|by rewrite S3, R3|by rewrite S4, R4|by rewrite S2, R2].
    - split; rewrite ?Hn3.
      + apply lk_heads. intros j Hj. destruct (Hk j) as [K1 K2], (Hc j) as [(_ & C1 & C2) _]; [lia|].
        rewrite !Hn2 in K1, K2. rewrite Hn1 in C1, C2. rewrite K1, K2, C1, C2. split.
        * destruct (decide (j = 0)); [rewrite decide_False by lia; done|rewrite decide_True by lia; done].
        * destruct (decide (j = 0 + Z.of_nat 19 - 1)); [rewrite decide_False by lia; done|rewrite decide_True by lia; done].
      + constructor.
      + intros i Hi. rewrite Sm. unfold node_at. rewrite Hn3. destruct (Hc i) as [(C0 & _) _]; [lia|]. exact C0.
      + intros x Hx. by apply elem_of_nil in Hx.
      + apply heads_NoDup.
      + intros Hx. apply heads_nodes in Hx as (j & Hj & Hx). lia. }
  rewrite <- Hn3 in Hg. destruct (mm_addregion_ok h3 [] start size_ H3) as (h4 & E4 & H4 & Hn4); try done; [simpl; lia|].
  exists h4. by rewrite Hn4.
Qed.

End Regions.
