(* ===== verification/MmRealloc.v ===== *)
(** * Reallocation and aligned allocation (src/nuttx/mm/mm_heap)

    [mm_shrinkchunk], [mm_realloc], [mm_memalign], [mm_zalloc] and [mm_calloc] on the
    heap of [MmHeap].  The contents of blocks are not part of that heap: an operation
    that copies or clears memory says so in its result ([mem_effect]). *)

From S2P Require Import Prelude Queue MmHeap.

(** [memcpy (dst, src, len)] and [memset (dst, 0, len)] *)
Inductive mem_effect := NoEffect | Copy (dst src len : Z) | Clear (dst len : Z).

Definition mm_shrinkchunk (node size_ : Z) (h : mm_heap) : option mm_heap :=
  nsize ← m_size h !! node;
  let next := u32 (node + nsize) in
  np ← m_preceding h !! next;
  if decide (Z.land np MM_ALLOC_BIT = 0) then
    nextsize ← m_size h !! next;
    let andbeyond := u32 (next + nextsize) in
    h ← remove_free next h;
    let newnode := u32 (node + size_) in
    let newsize := u32 (nextsize + nsize - size_) in
    let h := wr_size newnode newsize h in
    let h := wr_preceding newnode size_ h in
    let h := wr_size node size_ h in
    ap ← m_preceding h !! andbeyond;
    let h := wr_preceding andbeyond (Z.lor newsize (Z.land ap MM_ALLOC_BIT)) h in
    mm_addfreechunk newnode h
  else if decide (u32 (size_ + SIZEOF_MM_FREENODE) <= nsize) then
    let newnode := u32 (node + size_) in
    let newsize := u32 (nsize - size_) in
    let h := wr_size newnode newsize h in
    let h := wr_preceding newnode size_ h in
    let h := wr_size node size_ h in
    let h := wr_preceding next (Z.lor newsize MM_ALLOC_BIT) h in
    mm_addfreechunk newnode h
  else Some h.

(** How much [mm_realloc] takes from the previous and from the next chunk. *)
Definition realloc_takes (prevsize nextsize needed : Z) : Z * Z :=
  let '(takeprev, takenext, needed) :=
    if decide (0 < prevsize /\ (prevsize <= nextsize \/ nextsize < 1)) then
      if decide (prevsize < needed) then (prevsize, u32 (needed - prevsize), 0) else (needed, 0, 0)
    else (0, 0, needed) in
  if decide (0 < nextsize /\ needed <> 0) then
    if decide (nextsize < needed) then (u32 (needed - nextsize), nextsize) else (0, needed)
  else (takeprev, takenext).

(** Extend into the previous free chunk. *)
Definition realloc_prev (oldnode oldsize prev prevsize next takeprev : Z) (h : mm_heap) : option (Z * mm_heap) :=
  h ← remove_free prev h;
  let newnode := u32 (oldnode - takeprev) in
  if decide (takeprev < prevsize) then
    psize ← m_size h !! prev;
    let h := wr_size prev (u32 (psize - takeprev)) h in
    let h := wr_size newnode (u32 (oldsize + takeprev)) h in
    psize ← m_size h !! prev;
    let h := wr_preceding newnode (Z.lor psize MM_ALLOC_BIT) h in
    nsize ← m_size h !! newnode;
    np ← m_preceding h !! next;
    let h := wr_preceding next (Z.lor nsize (Z.land np MM_ALLOC_BIT)) h in
    h ← mm_addfreechunk prev h;
    Some (newnode, h)
  else
    nsize ← m_size h !! newnode;
    let h := wr_size newnode (u32 (nsize + oldsize)) h in
    p ← m_preceding h !! newnode;
    let h := wr_preceding newnode (Z.lor p MM_ALLOC_BIT) h in
    np ← m_preceding h !! next;
    let h := wr_preceding next (Z.lor (u32 (nsize + oldsize)) (Z.land np MM_ALLOC_BIT)) h in
    Some (newnode, h).

(** Extend into the next free chunk. *)
Definition realloc_next (oldnode oldsize next nextsize takenext : Z) (h : mm_heap) : option mm_heap :=
  let andbeyond := u32 (next + nextsize) in
  h ← remove_free next h;
  let nsize := u32 (oldsize + takenext) in
  let h := wr_size oldnode nsize h in
  let newnode := u32 (oldnode + nsize) in
  if decide (takenext < nextsize) then
    let h := wr_size newnode (u32 (nextsize - takenext)) h in
    let h := wr_preceding newnode nsize h in
    ap ← m_preceding h !! andbeyond;
    let h := wr_preceding andbeyond (Z.lor (u32 (nextsize - takenext)) (Z.land ap MM_ALLOC_BIT)) h in
    mm_addfreechunk newnode h
  else
    ap ← m_preceding h !! andbeyond;
    Some (wr_preceding andbeyond (Z.lor nsize (Z.land ap MM_ALLOC_BIT)) h).

(** The size of a chunk when it is free, and 0 when it is not. *)
Definition free_size (node : Z) (h : mm_heap) : option Z :=
  p ← m_preceding h !! node;
  if decide (Z.land p MM_ALLOC_BIT = 0) then m_size h !! node else Some 0.

(** The chunk grows into the previous one and the contents move down: the node, its size,
    the block, the copy. *)
Definition realloc_down (oldmem oldnode oldsize prev prevsize next takeprev : Z) (h : mm_heap)
    : option (Z * Z * Z * mem_effect * mm_heap) :=
  if decide (takeprev <> 0) then
    '(newnode, h) ← realloc_prev oldnode oldsize prev prevsize next takeprev h;
    nsize ← m_size h !! newnode;
    let newmem := u32 (newnode + SIZEOF_MM_ALLOCNODE) in
    Some (newnode, nsize, newmem, Copy newmem oldmem (u32 (nsize - SIZEOF_MM_ALLOCNODE)), h)
  else Some (oldnode, oldsize, oldmem, NoEffect, h).

(** The chunk grows where it is. *)
Definition realloc_grow (oldmem oldnode oldsize prev prevsize next nextsize needed : Z) (h : mm_heap)
    : option (Z * mem_effect * mm_heap) :=
  let '(takeprev, takenext) := realloc_takes prevsize nextsize needed in
  '(node, nsize, newmem, eff, h) ← realloc_down oldmem oldnode oldsize prev prevsize next takeprev h;
  h ← (if decide (takenext <> 0) then realloc_next node nsize next nextsize takenext h else Some h);
  Some (newmem, eff, h).

Definition mm_realloc (oldmem size_ : Z) (h : mm_heap) : option (Z * mem_effect * mm_heap) :=
  if decide (oldmem = 0) then
    '(p, h) ← mm_malloc size_ h; Some (p, NoEffect, h)
  else if decide (size_ < 1) then
    h ← mm_free oldmem h; Some (0, NoEffect, h)
  else
    let newsize := MM_ALIGN_UP (u32 (size_ + SIZEOF_MM_ALLOCNODE)) in
    let oldnode := u32 (oldmem - SIZEOF_MM_ALLOCNODE) in
    oldsize ← m_size h !! oldnode;
    if decide (newsize <= oldsize) then
      h ← (if decide (newsize < oldsize) then mm_shrinkchunk oldnode newsize h else Some h);
      Some (oldmem, NoEffect, h)
    else
      let next := u32 (oldnode + oldsize) in
      nextsize ← free_size next h;
      op ← m_preceding h !! oldnode;
      let prev := u32 (oldnode - Z.land op (not32 MM_ALLOC_BIT)) in
      prevsize ← free_size prev h;
      if decide (newsize <= u32 (u32 (nextsize + prevsize) + oldsize)) then
        realloc_grow oldmem oldnode oldsize prev prevsize next nextsize (u32 (newsize - oldsize)) h
      else
        '(newmem, h) ← mm_malloc size_ h;
        if decide (newmem = 0) then Some (0, NoEffect, h)
        else h ← mm_free oldmem h; Some (newmem, Copy newmem oldmem oldsize, h).

(** [mm_memalign]: the part in front of the aligned block is split off and released. *)
Definition memalign_front (node alignedchunk alignment : Z) (h : mm_heap) : option (Z * Z * Z * mm_heap) :=
  nsize ← m_size h !! node;
  let next := u32 (node + nsize) in
  let newnode := u32 (alignedchunk - SIZEOF_MM_ALLOCNODE) in
  let precedingsize := u32 (newnode - node) in
  let '(alignedchunk, newnode, precedingsize) :=
    (if decide (precedingsize < SIZEOF_MM_FREENODE) then
       let alignedchunk := u32 (alignedchunk + alignment) in
       let newnode := u32 (alignedchunk - SIZEOF_MM_ALLOCNODE) in
       (alignedchunk, newnode, u32 (newnode - node))
     else (alignedchunk, newnode, precedingsize)) in
  let newsize := u32 (next - newnode) in
  let h := wr_size newnode newsize h in
  let h := wr_preceding newnode (Z.lor precedingsize MM_ALLOC_BIT) h in
  let h := wr_size node precedingsize h in
  p ← m_preceding h !! node;
  let h := wr_preceding node (Z.land p (not32 MM_ALLOC_BIT)) h in
  np ← m_preceding h !! next;
  let h := wr_preceding next (Z.lor newsize (Z.land np MM_ALLOC_BIT)) h in
  h ← mm_addfreechunk node h;
  Some (alignedchunk, newnode, u32 (newsize - SIZEOF_MM_ALLOCNODE), h).

Definition mm_memalign (alignment size_ : Z) (h : mm_heap) : option (Z * mm_heap) :=
  let mask := u32 (alignment - 1) in
  if decide (alignment <= MM_MIN_CHUNK) then mm_malloc size_ h
  else
    let size_ := MM_ALIGN_UP size_ in
    let allocsize := u32 (size_ + 2 * alignment) in
    '(rawchunk, h) ← mm_malloc allocsize h;
    if decide (rawchunk = 0) then Some (0, h)
    else
      let node := u32 (rawchunk - SIZEOF_MM_ALLOCNODE) in
      let alignedchunk := Z.land (u32 (rawchunk + mask)) (not32 mask) in
      '(alignedchunk, node, allocsize, h) ←
        (if decide (alignedchunk <> rawchunk) then memalign_front node alignedchunk alignment h
         else Some (alignedchunk, node, allocsize, h));
      h ← (if decide (size_ < allocsize) then mm_shrinkchunk node (u32 (size_ + SIZEOF_MM_ALLOCNODE)) h else Some h);
      Some (alignedchunk, h).

Definition mm_zalloc (size_ : Z) (h : mm_heap) : option (Z * mem_effect * mm_heap) :=
  '(alloc, h) ← mm_malloc size_ h;
  Some (alloc, (if decide (alloc = 0) then NoEffect else Clear alloc size_), h).

Definition mm_calloc (n elem_size : Z) (h : mm_heap) : option (Z * mem_effect * mm_heap) :=
  if decide (0 < n /\ 0 < elem_size) then mm_zalloc (u32 (n * elem_size)) h else Some (0, NoEffect, h).

(** ** Shrinking a chunk *)

Section Ops.
Context `{GR : Gran}.

(** A chunk of [n] bytes keeps [k]; the rest joins the free chunk behind, or becomes a free
    chunk when it is large enough. *)
Definition shrunk (n k : Z) (cs : list (Z * bool)) : list (Z * bool) :=
  match cs with
  | (m, false) :: cs' => (k, true) :: (m + n - k, false) :: cs'
  | _ => if decide (k + 16 <= n) then (k, true) :: (n - k, false) :: cs else (n, true) :: cs
  end.

Lemma heap_ok_intro h R F : free_ok h [] R F -> Forall (fun r : region => no_adj (r.2)) R -> heap_ok h R.
Proof. intros HF Ha. split; [by exists F|done]. Qed.

Lemma no_adj_at R1 base cs cs' R2 : Forall (fun r : region => no_adj (r.2)) (R1 ++ (base, cs) :: R2) -> (no_adj cs -> no_adj cs') ->
  Forall (fun r : region => no_adj (r.2)) (R1 ++ (base, cs') :: R2).
Proof. rewrite !Forall_app, !Forall_cons. simpl. tauto. Qed.

Lemma no_adj_shrunk cs1 n k cs2 : no_adj (cs1 ++ (n, true) :: cs2) -> no_adj (cs1 ++ shrunk n k cs2).
Proof.
  change ((n, true) :: cs2) with ([(n, true)] ++ cs2). rewrite !no_adj_app. intros (H1 & (_ & H2 & _) & _).
  destruct cs2 as [|[m []] cs2]; simpl; [destruct (decide _); simpl; tauto..|]. simpl in H2. destruct cs2; simpl; tauto.
Qed.

(** The free chunk behind a chunk leaves the list. *)
Lemma remove_next h R1 base cs1 n (al : bool) m cs2 R2 F (a := base + 8 + tot cs1) :
  free_ok h (if al then [] else [(a, n)]) (R1 ++ (base, cs1 ++ (n, al) :: (m, false) :: cs2) :: R2) F ->
  exists f b F', remove_free (a + n) h = Some (with_links f b h) /\
    free_ok (with_links f b h) (chunks false a [(n, al); (m, false)]) (R1 ++ (base, cs1 ++ (n, al) :: (m, false) :: cs2) :: R2) F'.
Proof.
  intros HF. destruct (fo_chunks _ _ _ _ _ (lay_focus h R1 base cs1 [(n, al)] _ R2 (ho_lay _ _ _ _ HF))) as (_ & Hn & _).
  apply Forall_cons in Hn as [[Hn _] _]. simpl in Hn.
  destruct (remove_ok h (a + n) m _ _ F HF) as (f & b & F' & E & HF').
  - eapply free_in_list; [exact HF| |].
    + rewrite (rchunks_focus false R1 base cs1 [(n, al); (m, false)] cs2 R2). fold a. apply elem_of_app. left. simpl.
      apply elem_of_app. right. by left.
    + destruct al; intros Hx; [by apply elem_of_nil in Hx|]. apply list_elem_of_singleton in Hx. simplify_eq. lia.
  - exists f, b, F'. split; [done|]. destruct al; simpl; [done|]. by eapply free_ok_perm; [apply Permutation_swap|].
Qed.

Lemma mm_shrinkchunk_ok h R1 base cs1 n cs2 R2 k (a := base + 8 + tot cs1) :
  heap_ok h (R1 ++ (base, cs1 ++ (n, true) :: cs2) :: R2) -> 16 <= k <= n -> k mod gran = 0 ->
  exists h', mm_shrinkchunk a k h = Some h' /\ heap_ok h' (R1 ++ (base, cs1 ++ shrunk n k cs2) :: R2).
Proof.
  intros [(F & HF) Hadj] Hk Hk2. pose proof (no_adj_at _ _ _ _ _ Hadj (no_adj_shrunk cs1 n k cs2)) as Hadj'.
  destruct (lay_focus h R1 base cs1 [(n, true)] cs2 R2 (ho_lay _ _ _ _ HF)) as [(Hs & Hp & _) Hn1 Hn2 (_ & Hcm & Hc2) (T1 & T2 & T3) Hb [G1 _ G3 G4 _]].
  fold a in Hs, Hp, Hn1, Hn2. cbn [fst snd tot] in *. rewrite Z.add_0_r in *. change (lsz (lsz 8 cs1) _) with n in Hn2.
  apply Forall_cons in Hcm as [[Hm1 Hm2] _]. cbn [fst] in Hm1, Hm2. unfold MM_ALLOC_BIT in G4.
  unfold mm_shrinkchunk. rewrite Hs. cbn [mbind option_bind]. rewrite (u32_id (a + n)) by lia. rewrite Hn2. cbn [mbind option_bind].
  rewrite land_bit by (unfold MM_ALLOC_BIT; lia). destruct ((nextc cs2).2) eqn:Ec; rewrite ?(decide_False (P := MM_ALLOC_BIT = 0)) by done.
  - unfold SIZEOF_MM_FREENODE. rewrite !u32_id by lia.
    assert (Esh : shrunk n k cs2 = if decide (k + 16 <= n) then (k, true) :: (n - k, false) :: cs2 else (n, true) :: cs2).
    { destruct cs2 as [|[m []] cs2]; [done|done|]. done. }
    rewrite Esh in *. destruct (decide (k + 16 <= n)) as [Hle|Hlt]; [|exists h; split; [done|by eapply heap_ok_intro]].
    rewrite (lor_low (n - k)) by (unfold MM_ALLOC_BIT; lia).
    match goal with |- context [mm_addfreechunk _ ?x] => set (h1 := x) end.
    assert (HF1 : free_ok h1 [(a + k, n - k)] (R1 ++ (base, cs1 ++ (k, true) :: (n - k, false) :: cs2) :: R2) F).
    { apply (retile h h1 R1 base cs1 [(n, true)] [(k, true); (n - k, false)] cs2 R2 F HF); unfold h1; heap_writes a.
      by rewrite lookup_insert_eq, Ec. }
    destruct (addfree_ok _ _ _ _ _ _ HF1) as (f & b & F' & E & HF2). eexists. split; [exact E|]. by eapply heap_ok_intro.
  - destruct cs2 as [|[m []] cs2]; [done|done|]. simpl in Hn1. rewrite Hn1. cbn [mbind option_bind].
    apply Forall_cons in Hc2 as [[Hm3 Hm4] Hc2]. simpl in Hm3, Hm4, T3, G3, G4. pose proof (tot_nonneg _ (chunk_ok_pos _ Hc2)) as T4.
    destruct (remove_next h R1 base cs1 n true m cs2 R2 F HF) as (f & b & F1 & E1 & HF1). fold a in E1, HF1. simpl in E1. rewrite E1. cbn [mbind option_bind].
    rewrite !u32_id by lia. heap_fields.
    destruct (lay_focus _ R1 base cs1 [(n, true); (m, false)] cs2 R2 (ho_lay _ _ _ _ HF)) as [_ _ Hn3 _ _ _ _].
    fold a in Hn3. simpl in Hn3. rewrite Z.add_0_r, Z.add_assoc in Hn3. change (lsz (lsz 8 cs1) _) with m in Hn3.
    rewrite lookup_insert_ne by lia. rewrite Hn3. cbn [mbind option_bind]. rewrite enc_keep by (unfold MM_ALLOC_BIT; lia).
    match goal with |- context [mm_addfreechunk _ ?x] => set (h1 := x) end.
    assert (HF2 : free_ok h1 [(a + k, m + n - k)] (R1 ++ (base, cs1 ++ (k, true) :: (m + n - k, false) :: cs2) :: R2) F1).
    { apply (retile _ h1 R1 base cs1 [(n, true); (m, false)] [(k, true); (m + n - k, false)] cs2 R2 F1 HF1); unfold h1; heap_writes a.
      apply Forall_cons. split; [by split; simpl; [lia|]|]. constructor; [|done]. split; simpl; [lia|]. by apply gran_sub; [apply gran_add|]. }
    destruct (addfree_ok _ _ _ _ _ _ HF2) as (f' & b' & F' & E & HF3). eexists. split; [exact E|]. by eapply heap_ok_intro.
Qed.

(** ** Growing a chunk *)

(** What is left of a free chunk of [m] bytes after [t] were taken. *)
Definition left_over (m t : Z) : list (Z * bool) := if decide (t < m) then [(m - t, false)] else [].

Lemma no_adj_grow_prev cs0 p o n t cs2 : no_adj (cs0 ++ (p, false) :: (o, true) :: cs2) -> no_adj (cs0 ++ left_over p t ++ (n, true) :: cs2).
Proof.
  change ((p, false) :: (o, true) :: cs2) with ([(p, false)] ++ [(o, true)] ++ cs2).
  change ((n, true) :: cs2) with ([(n, true)] ++ cs2). rewrite !no_adj_app. unfold left_over. destruct (decide _); simpl; tauto.
Qed.

Lemma no_adj_grow_next cs1 o m n t cs2 : no_adj (cs1 ++ (o, true) :: (m, false) :: cs2) -> no_adj (cs1 ++ (n, true) :: left_over m t ++ cs2).
Proof.
  change ((o, true) :: (m, false) :: cs2) with ([(o, true)] ++ [(m, false)] ++ cs2).
  change ((n, true) :: left_over m t ++ cs2) with ([(n, true)] ++ left_over m t ++ cs2). rewrite !no_adj_app. unfold left_over.
  destruct (decide _); simpl; tauto.
Qed.

Lemma realloc_prev_ok h R1 base cs0 p o cs2 R2 t (a := base + 8 + tot cs0) :
  heap_ok h (R1 ++ (base, cs0 ++ (p, false) :: (o, true) :: cs2) :: R2) -> 0 < t <= p -> t mod gran = 0 -> t = p \/ 16 <= p - t ->
  exists h', realloc_prev (a + p) o a p (a + p + o) t h = Some (a + p - t, h') /\
    heap_ok h' (R1 ++ (base, cs0 ++ left_over p t ++ (o + t, true) :: cs2) :: R2).
Proof.
  intros [(F & HF) Hadj] Ht Ht2 Hl. pose proof (no_adj_at _ _ _ _ _ Hadj (no_adj_grow_prev cs0 p o (o + t) t cs2)) as Hadj'.
  destruct (lay_focus h R1 base cs0 [(p, false); (o, true)] cs2 R2 (ho_lay _ _ _ _ HF)) as [(Hs & Hp & Ho & Hpo & _) _ Hn2 (_ & Hcm & Hc2) (T1 & T2 & T3) Hb [G1 _ G3 G4 _]].
  fold a in Hs, Hp, Hn2, Ho, Hpo. cbn [fst snd tot] in *. rewrite Z.add_0_r, ?Z.add_assoc in *. change (lsz (lsz 8 cs0) _) with o in Hn2.
  apply Forall_cons in Hcm as [[Hm1 Hm2] Hcm]. apply Forall_cons in Hcm as [[Hm3 Hm4] _]. cbn [fst] in *. unfold MM_ALLOC_BIT in G4.
  destruct (remove_ok h a p [] _ F HF) as (f & b & F1 & E1 & HF1).
  { eapply free_in_list; [exact HF| |by intros Hx%elem_of_nil].
    rewrite (rchunks_focus false R1 base cs0 [(p, false); (o, true)] cs2 R2). fold a. simpl. by left. }
  unfold realloc_prev. rewrite E1. cbn [mbind option_bind]. rewrite (u32_id (a + p - t)) by lia. heap_fields.
  unfold left_over in *. destruct (decide (t < p)) as [Hlt|Hge].
  - rewrite Hs. cbn [mbind option_bind]. rewrite !u32_id by lia. heap_lookups. cbn [mbind option_bind]. heap_lookups. cbn [mbind option_bind].
    heap_lookups. rewrite Hn2. cbn [mbind option_bind]. rewrite lor_low, enc_keep by (unfold MM_ALLOC_BIT; lia).
    match goal with |- context [mm_addfreechunk _ ?x] => set (h1 := x) end.
    assert (HF2 : free_ok h1 [(a, p - t)] (R1 ++ (base, cs0 ++ (p - t, false) :: (o + t, true) :: cs2) :: R2) F1).
    { apply (retile _ h1 R1 base cs0 [(p, false); (o, true)] [(p - t, false); (o + t, true)] cs2 R2 F1 HF1); unfold h1; heap_writes a.
      cbn [lseg fst snd enc]. replace (a + (p - t)) with (a + p - t) by lia. heap_lookups. done. }
    destruct (addfree_ok _ _ _ _ _ _ HF2) as (f' & b' & F' & E & HF3). rewrite E. cbn [mbind option_bind].
    eexists. split; [done|]. by eapply heap_ok_intro.
  - assert (t = p) by lia. subst t. replace (a + p - p) with a by lia. rewrite Hs. cbn [mbind option_bind]. rewrite Hp. cbn [mbind option_bind].
    heap_lookups. rewrite Hn2. cbn [mbind option_bind]. rewrite (u32_id (p + o)) by lia. rewrite enc_set by done.
    rewrite enc_keep by (unfold MM_ALLOC_BIT; lia). eexists. split; [done|]. eapply heap_ok_intro; [|exact Hadj'].
    apply (retile _ _ R1 base cs0 [(p, false); (o, true)] [(o + p, true)] cs2 R2 F1 HF1); heap_writes a.
    + simpl. heap_lookups. by rewrite Z.add_comm.
    + simpl. heap_lookups. do 2 f_equal. unfold lsz. simpl. lia.
Qed.

Lemma realloc_next_ok h R1 base cs1 o m cs2 R2 t (a := base + 8 + tot cs1) :
  heap_ok h (R1 ++ (base, cs1 ++ (o, true) :: (m, false) :: cs2) :: R2) -> 0 < t <= m -> t mod gran = 0 -> t = m \/ 16 <= m - t ->
  exists h', realloc_next a o (a + o) m t h = Some h' /\
    heap_ok h' (R1 ++ (base, cs1 ++ (o + t, true) :: left_over m t ++ cs2) :: R2).
Proof.
  intros [(F & HF) Hadj] Ht Ht2 Hl. pose proof (no_adj_at _ _ _ _ _ Hadj (no_adj_grow_next cs1 o m (o + t) t cs2)) as Hadj'.
  destruct (lay_focus h R1 base cs1 [(o, true); (m, false)] cs2 R2 (ho_lay _ _ _ _ HF)) as [(Hs & Hp & Ho & Hpo & _) _ Hn2 (_ & Hcm & Hc2) (T1 & T2 & T3) Hb [G1 _ G3 G4 _]].
  fold a in Hs, Hp, Hn2, Ho, Hpo. cbn [fst snd tot] in *. rewrite Z.add_0_r, ?Z.add_assoc in *. change (lsz (lsz 8 cs1) _) with m in Hn2.
  apply Forall_cons in Hcm as [[Hm1 Hm2] Hcm]. apply Forall_cons in Hcm as [[Hm3 Hm4] _]. cbn [fst] in *. unfold MM_ALLOC_BIT in G4.
  destruct (remove_next h R1 base cs1 o true m cs2 R2 F HF) as (f & b & F1 & E1 & HF1). fold a in E1, HF1.
  unfold realloc_next. rewrite E1. cbn [mbind option_bind]. rewrite (u32_id (o + t)) by lia. rewrite !u32_id by lia. heap_fields.
  unfold left_over in *. destruct (decide (t < m)) as [Hlt|Hge].
  - heap_lookups. rewrite Hn2. cbn [mbind option_bind]. rewrite enc_keep by (unfold MM_ALLOC_BIT; lia).
    match goal with |- context [mm_addfreechunk _ ?x] => set (h1 := x) end.
    assert (HF2 : free_ok h1 [(a + (o + t), m - t)] (R1 ++ (base, cs1 ++ (o + t, true) :: (m - t, false) :: cs2) :: R2) F1).
    { apply (retile _ h1 R1 base cs1 [(o, true); (m, false)] [(o + t, true); (m - t, false)] cs2 R2 F1 HF1); unfold h1; heap_writes a. }
    destruct (addfree_ok _ _ _ _ _ _ HF2) as (f' & b' & F' & E & HF3). eexists. split; [exact E|]. by eapply heap_ok_intro.
  - assert (t = m) by lia. subst t. rewrite Hn2. cbn [mbind option_bind]. rewrite enc_keep by (unfold MM_ALLOC_BIT; lia).
    eexists. split; [done|]. eapply heap_ok_intro; [|exact Hadj'].
    apply (retile _ _ R1 base cs1 [(o, true); (m, false)] [(o + m, true)] cs2 R2 F1 HF1); heap_writes a.
Qed.

(** *** The neighbours *)

Definition free_head (cs : list (Z * bool)) : Z := match cs with (m, false) :: _ => m | _ => 0 end.

(** [t] bytes are taken from the free chunk at the head. *)
Definition take_off (t : Z) (cs : list (Z * bool)) : list (Z * bool) :=
  match cs with
  | (m, false) :: cs' => if decide (t = 0) then cs else left_over m t ++ cs'
  | _ => cs
  end.

Lemma take_off_0 cs : take_off 0 cs = cs.
Proof. by destruct cs as [|[m []] cs]. Qed.

Lemma left_over_tot m t : 0 <= t <= m -> tot (left_over m t) = m - t.
Proof. intros H. unfold left_over. destruct (decide _); simpl; lia. Qed.

Lemma take_off_tot t cs : 0 <= t <= free_head cs -> tot (take_off t cs) = tot cs - t.
Proof.
  destruct cs as [|[m []] cs]; simpl; [lia..|]. intros Ht. destruct (decide _); simpl; [lia|]. rewrite tot_app, left_over_tot by lia. lia.
Qed.

Lemma free_next_size h R1 base cs1 o cs2 R2 : lay_ok h (R1 ++ (base, cs1 ++ (o, true) :: cs2) :: R2) ->
  free_size (base + 8 + tot cs1 + o) h = Some (free_head cs2).
Proof.
  intros Hl. destruct (lay_focus h R1 base cs1 [(o, true)] cs2 R2 Hl) as [_ Hn1 Hn2 (_ & Hcm & _) (T1 & T2 & T3) _ [_ _ G3 G4 _]].
  simpl in *. rewrite Z.add_0_r in *. change (lsz (lsz 8 cs1) _) with o in Hn2. apply Forall_cons in Hcm as [[Hm1 _] _]. simpl in Hm1.
  unfold free_size. rewrite Hn2. cbn [mbind option_bind]. rewrite land_bit by lia. destruct cs2 as [|[m []] cs2]; [done|done|]. done.
Qed.

Lemma free_prev_size h R1 base cs1 o cs2 R2 : lay_ok h (R1 ++ (base, cs1 ++ (o, true) :: cs2) :: R2) ->
  free_size (base + 8 + tot cs1 - lsz 8 cs1) h = Some (free_head (rev cs1)).
Proof.
  intros Hl. unfold free_size. destruct cs1 as [|[p al] cs0 _] using rev_ind.
  - change (lsz 8 []) with 8. change (tot []) with 0. replace (base + 8 + 0 - 8) with base by lia. rewrite (lay_guard _ _ _ _ _ Hl). done.
  - rewrite rev_app_distr. unfold lsz. rewrite fmap_app, lst_app, tot_app. csimpl. simpl. rewrite <- app_assoc in Hl. simpl in Hl.
    replace (base + 8 + (tot cs0 + (p + 0)) - p) with (base + 8 + tot cs0) by lia.
    destruct (lay_focus h R1 base cs0 [(p, al)] ((o, true) :: cs2) R2 Hl) as [(Hs & Hp & _) _ _ _ _ Hb _]. simpl in Hs, Hp.
    rewrite Hp. cbn [mbind option_bind]. rewrite land_bit by done. by destruct al.
Qed.

(** The bytes are taken where they are, and no more than needed. *)
Lemma realloc_takes_ok pv nx needed : 0 <= pv < MM_ALLOC_BIT -> 0 <= nx < MM_ALLOC_BIT -> 0 < needed <= pv + nx ->
  pv mod gran = 0 -> nx mod gran = 0 -> needed mod gran = 0 ->
  exists tp tn, realloc_takes pv nx needed = (tp, tn) /\ tp + tn = needed /\ 0 <= tp <= pv /\ 0 <= tn <= nx /\
    tp mod gran = 0 /\ tn mod gran = 0.
Proof.
  unfold MM_ALLOC_BIT, realloc_takes. intros Hp Hx Hn Gp Gx Gn. assert (G0 : 0 mod gran = 0) by (apply Z.mod_0_l; destruct gran_ok; lia).
  destruct (decide (0 < pv /\ _)) as [H1|H1].
  - destruct (decide (pv < needed)).
    + rewrite decide_False by lia. rewrite u32_id by lia. do 2 eexists. split; [done|]. split_and!; (done || lia || by apply gran_sub).
    + rewrite decide_False by lia. do 2 eexists. split; [done|]. split_and!; (done || lia).
  - destruct (decide (0 < nx /\ needed <> 0)) as [H2|H2].
    + destruct (decide (nx < needed)).
      * rewrite u32_id by lia. do 2 eexists. split; [done|]. split_and!; (done || lia || by apply gran_sub).
      * do 2 eexists. split; [done|]. split_and!; (done || lia).
    + exfalso. lia.
Qed.

Lemma grow_prev h R1 base cs1 o cs2 R2 t (a := base + 8 + tot cs1) (pv := free_head (rev cs1)) :
  heap_ok h (R1 ++ (base, cs1 ++ (o, true) :: cs2) :: R2) -> 0 < t <= pv -> t mod gran = 0 -> t = pv \/ 16 <= pv - t ->
  exists h', realloc_prev a o (a - lsz 8 cs1) pv (a + o) t h = Some (a - t, h') /\
    heap_ok h' (R1 ++ (base, rev (take_off t (rev cs1)) ++ (o + t, true) :: cs2) :: R2).
Proof.
  intros H Ht Ht2 Hl. destruct cs1 as [|[p al] cs0 _] using rev_ind; [unfold pv in Ht; simpl in Ht; lia|].
  unfold pv in *. rewrite rev_app_distr in *. simpl in Ht, Hl |- *. destruct al; [lia|].
  rewrite decide_False by lia. unfold a, lsz. rewrite fmap_app, lst_app, tot_app. csimpl. simpl. rewrite <- app_assoc in H. simpl in H.
  destruct (realloc_prev_ok h R1 base cs0 p o cs2 R2 t H Ht Ht2 Hl) as (h' & E & H').
  replace (base + 8 + (tot cs0 + (p + 0))) with (base + 8 + tot cs0 + p) by lia.
  replace (base + 8 + tot cs0 + p - p) with (base + 8 + tot cs0) by lia. exists h'. split; [done|].
  rewrite rev_app_distr, rev_involutive, <- app_assoc. unfold left_over in *. by destruct (decide _).
Qed.

Lemma grow_next h R1 base cs1 o cs2 R2 t (a := base + 8 + tot cs1) (nx := free_head cs2) :
  heap_ok h (R1 ++ (base, cs1 ++ (o, true) :: cs2) :: R2) -> 0 < t <= nx -> t mod gran = 0 -> t = nx \/ 16 <= nx - t ->
  exists h', realloc_next a o (a + o) nx t h = Some h' /\
    heap_ok h' (R1 ++ (base, cs1 ++ (o + t, true) :: take_off t cs2) :: R2).
Proof.
  intros H Ht Ht2 Hl. unfold nx in *. destruct cs2 as [|[m []] cs2]; simpl in *; [lia..|]. rewrite decide_False by lia.
  by apply realloc_next_ok.
Qed.

Lemma free_head_ok cs : Forall chunk_ok cs -> 0 <= free_head cs <= tot cs /\ free_head cs mod gran = 0.
Proof.
  intros H. assert (G0 : 0 mod gran = 0) by (apply Z.mod_0_l; destruct gran_ok; lia).
  pose proof (tot_nonneg _ (chunk_ok_pos _ H)). destruct H as [|[m []] cs [Hm Hm2] Hcs]; simpl in *; [done|split; [lia|done]|].
  pose proof (tot_nonneg _ (chunk_ok_pos _ Hcs)). split; [lia|done].
Qed.

Lemma gran_left x y : gran = 16 -> x mod gran = 0 -> y mod gran = 0 -> x <= y -> x = y \/ 16 <= y - x.
Proof. intros ->. zlia. Qed.

Lemma down_tot base cs1 t : 0 <= t <= free_head (rev cs1) -> base + 8 + tot (rev (take_off t (rev cs1))) = base + 8 + tot cs1 - t.
Proof. intros H. rewrite tot_rev, take_off_tot, tot_rev by done. lia. Qed.

Lemma realloc_down_ok h R1 base cs1 o cs2 R2 t (a := base + 8 + tot cs1) (pv := free_head (rev cs1)) : gran = 16 ->
  heap_ok h (R1 ++ (base, cs1 ++ (o, true) :: cs2) :: R2) -> 0 <= t <= pv -> t mod gran = 0 ->
  exists h', realloc_down (a + 8) a o (a - lsz 8 cs1) pv (a + o) t h =
      Some (a - t, o + t, a + 8 - t, (if decide (t = 0) then NoEffect else Copy (a + 8 - t) (a + 8) (o + t - 8)), h') /\
    heap_ok h' (R1 ++ (base, rev (take_off t (rev cs1)) ++ (o + t, true) :: cs2) :: R2).
Proof.
  intros Hg H Ht Ht2. unfold realloc_down. destruct (decide (t = 0)) as [-> |Hne].
  { exists h. simpl. by rewrite take_off_0, rev_involutive, Z.add_0_r, !Z.sub_0_r. }
  pose proof H as [(F & HF) _].
  destruct (lay_focus h R1 base cs1 [(o, true)] cs2 R2 (ho_lay _ _ _ _ HF)) as [_ _ _ (C1 & Cm & _) (T1 & T2 & T3) _ [G1 _ G3 G4 _]]. simpl in *.
  destruct (free_head_ok (rev cs1)) as [P1 P2]; [by apply Forall_rev|]. rewrite tot_rev in P1. fold pv in P1, P2.
  apply Forall_cons in Cm as [[Co _] _]. simpl in Co.
  rewrite decide_True by done. destruct (grow_prev h R1 base cs1 o cs2 R2 t H) as (h1 & E1 & H1);
    [fold pv; lia|done|apply gran_left; (done || lia)|]. fold a pv in E1. exists h1. split; [|done].
  rewrite E1. simpl. destruct H1 as [(F1 & HF1) _]. pose proof (down_tot base cs1 t Ht) as Hnd. fold a in Hnd.
  rewrite (chunk_size h1 _ true (a - t) (o + t) (ho_lay _ _ _ _ HF1)).
  - simpl. unfold SIZEOF_MM_ALLOCNODE. unfold MM_ALLOC_BIT in G4. rewrite !u32_id by lia. by replace (a - t + 8) with (a + 8 - t) by lia.
  - rewrite (rchunks_focus true R1 base (rev (take_off t (rev cs1))) [(o + t, true)] cs2 R2), Hnd. by left.
Qed.

Lemma realloc_grow_ok h R1 base cs1 o cs2 R2 needed (a := base + 8 + tot cs1) (pv := free_head (rev cs1)) (nx := free_head cs2) : gran = 16 ->
  heap_ok h (R1 ++ (base, cs1 ++ (o, true) :: cs2) :: R2) -> 0 < needed <= pv + nx -> needed mod gran = 0 ->
  exists tp tn h', realloc_takes pv nx needed = (tp, tn) /\ tp + tn = needed /\ 0 <= tp <= pv /\ 0 <= tn <= nx /\
    realloc_grow (a + 8) a o (a - lsz 8 cs1) pv (a + o) nx needed h =
      Some (a + 8 - tp, (if decide (tp = 0) then NoEffect else Copy (a + 8 - tp) (a + 8) (o + tp - 8)), h') /\
    heap_ok h' (R1 ++ (base, rev (take_off tp (rev cs1)) ++ (o + needed, true) :: take_off tn cs2) :: R2).
Proof.
  intros Hg H Hn Hn2. pose proof H as [(F & HF) _].
  destruct (lay_focus h R1 base cs1 [(o, true)] cs2 R2 (ho_lay _ _ _ _ HF)) as [_ _ _ (C1 & Cm & C2) (T1 & T2 & T3) _ [G1 _ G3 G4 _]]. simpl in *.
  apply Forall_cons in Cm as [[Co _] _]. simpl in Co. unfold MM_ALLOC_BIT in G4.
  destruct (free_head_ok cs2 C2) as [N1 N2]. destruct (free_head_ok (rev cs1)) as [P1 P2]; [by apply Forall_rev|]. rewrite tot_rev in P1.
  fold nx in N1, N2. fold pv in P1, P2.
  destruct (realloc_takes_ok pv nx needed) as (tp & tn & Et & Es & Hp & Hx & Gp & Gn); try done; [unfold MM_ALLOC_BIT; lia..|].
  exists tp, tn. unfold realloc_grow. rewrite Et.
  destruct (realloc_down_ok h R1 base cs1 o cs2 R2 tp Hg H Hp Gp) as (h1 & E1 & H1). fold a pv in E1. rewrite E1. cbn [mbind option_bind].
  pose proof (down_tot base cs1 tp Hp) as Hnd. fold a in Hnd. destruct (decide (tn = 0)) as [-> |Hne].
  - rewrite take_off_0. exists h1. simpl. split_and!; try done; try lia. by replace (o + needed) with (o + tp) by lia.
  - destruct (grow_next h1 R1 base _ (o + tp) cs2 R2 tn H1) as (h2 & E2 & H2); [fold nx; lia|done|apply gran_left; (done || lia)|].
    fold nx in E2. rewrite Hnd in E2. replace (a - tp + (o + tp)) with (a + o) in E2 by lia.
    exists h2. rewrite (decide_True (P := tn <> 0)) by done. rewrite E2. simpl. split_and!; try done; try lia. by replace (o + needed) with (o + tp + tn) by lia.
Qed.

(** [mm_realloc] of an allocated block, to a size that is not 0: in place, into the
    neighbours, or elsewhere. *)
Lemma mm_realloc_ok h R1 base cs1 o cs2 R2 n (a := base + 8 + tot cs1) (pv := free_head (rev cs1)) (nx := free_head cs2) : gran = 16 ->
  heap_ok h (R1 ++ (base, cs1 ++ (o, true) :: cs2) :: R2) -> 0 < n -> n + 23 < 4294967296 ->
  (need n <= o /\ exists h', mm_realloc (a + 8) n h = Some (a + 8, NoEffect, h') /\
     heap_ok h' (R1 ++ (base, cs1 ++ shrunk o (need n) cs2) :: R2)) \/
  (o < need n <= nx + pv + o /\
     exists tp tn h', realloc_takes pv nx (need n - o) = (tp, tn) /\ tp + tn = need n - o /\ 0 <= tp <= pv /\ 0 <= tn <= nx /\
     mm_realloc (a + 8) n h =
       Some (a + 8 - tp, (if decide (tp = 0) then NoEffect else Copy (a + 8 - tp) (a + 8) (o + tp - 8)), h') /\
     heap_ok h' (R1 ++ (base, rev (take_off tp (rev cs1)) ++ (need n, true) :: take_off tn cs2) :: R2)) \/
  (nx + pv + o < need n /\ mm_realloc (a + 8) n h =
     ('(newmem, h) ← mm_malloc n h;
      if decide (newmem = 0) then Some (0, NoEffect, h) else h ← mm_free (a + 8) h; Some (newmem, Copy newmem (a + 8) o, h))).
Proof.
  intros Hg H Hn Hn2. destruct (need_spec n Hn Hn2) as (En & Hk1 & Hk2 & Hk3). pose proof H as [(F & HF) _].
  destruct (lay_focus h R1 base cs1 [(o, true)] cs2 R2 (ho_lay _ _ _ _ HF)) as [(Hs & Hp & _) _ _ (C1 & Cm & C2) (T1 & T2 & T3) Hb [G1 _ G3 G4 _]].
  fold a in Hs, Hp. simpl in *. apply Forall_cons in Cm as [[Co Co2] _]. simpl in Co, Co2. unfold MM_ALLOC_BIT in G4.
  destruct (free_head_ok cs2 C2) as [N1 _]. destruct (free_head_ok (rev cs1)) as [P1 _]; [by apply Forall_rev|]. rewrite tot_rev in P1.
  fold nx in N1. fold pv in P1. pose proof (lsz_bound 8 cs1 C1) as Hls.
  assert (Hlb : lsz 8 cs1 <= 8 + tot cs1) by (destruct Hls; lia).
  unfold mm_realloc. rewrite decide_False by lia. rewrite decide_False by lia. rewrite En. unfold SIZEOF_MM_ALLOCNODE. cbv zeta.
  replace (u32 (a + 8 - 8)) with a by (rewrite u32_id; lia). rewrite Hs. cbn [mbind option_bind].
  destruct (decide (need n <= o)) as [Hle|Hgt].
  - left. split; [done|]. destruct (decide (need n < o)) as [Hlt|Hge].
    + destruct (mm_shrinkchunk_ok h R1 base cs1 o cs2 R2 (need n) H ltac:(lia) (gran_16 _ Hk2)) as (h' & E & H'). fold a in E.
      rewrite E. simpl. by exists h'.
    + exists h. split; [done|]. replace (need n) with o by lia. replace (shrunk o o cs2) with ((o, true) :: cs2); [done|].
      destruct cs2 as [|[m []] cs2]; simpl; [by rewrite decide_False by lia..|]. by replace (m + o - o) with m by lia.
  - rewrite (u32_id (a + o)) by lia. pose proof (free_next_size h R1 base cs1 o cs2 R2 (ho_lay _ _ _ _ HF)) as Efn. fold a in Efn. rewrite Efn. cbn [mbind option_bind].
    fold nx. rewrite Hp. cbn [mbind option_bind]. change (lsz 8 cs1 + MM_ALLOC_BIT) with (enc (lsz 8 cs1) true). rewrite enc_clear by done. rewrite (u32_id (a - lsz 8 cs1)) by lia.
    pose proof (free_prev_size h R1 base cs1 o cs2 R2 (ho_lay _ _ _ _ HF)) as Efp. fold a in Efp. rewrite Efp. cbn [mbind option_bind]. fold pv.
    rewrite (u32_id (nx + pv)) by lia. rewrite (u32_id (nx + pv + o)) by lia.
    destruct (decide (need n <= nx + pv + o)) as [Hle|Hno]; right; [left|right; split; [lia|done]].
    split; [lia|]. rewrite (u32_id (need n - o)) by lia.
    destruct (realloc_grow_ok h R1 base cs1 o cs2 R2 (need n - o) Hg H) as (tp & tn & h' & Et & Es & Hp' & Hx' & E & H');
      [fold pv nx; lia|by apply gran_sub; [apply gran_16|]|]. exists tp, tn, h'. fold a pv nx in E. rewrite E.
    replace (o + (need n - o)) with (need n) in H' by lia. done.
Qed.

(** ** Aligned allocation *)

Lemma land_mask x j : 0 <= x < 4294967296 -> 0 <= j -> Z.land x (not32 (2 ^ j - 1)) = x / 2 ^ j * 2 ^ j.
Proof.
  intros Hx Hj. unfold not32, u32. replace (-1 - (2 ^ j - 1)) with (Z.lnot (Z.ones j)) by (rewrite Z.ones_equiv; unfold Z.lnot; lia).
  change 4294967296 with (2 ^ 32). rewrite <- Z.land_ones by lia. rewrite (Z.land_comm _ (Z.ones 32)), Z.land_assoc, Z.land_ones by lia.
  rewrite Z.mod_small by (change (2 ^ 32) with 4294967296; lia). rewrite <- Z.ldiff_land, Z.ldiff_ones_r by lia.
  by rewrite Z.shiftr_div_pow2, Z.shiftl_mul_pow2 by lia.
Qed.

Definition front_chunk (front : Z) : list (Z * bool) := if decide (front = 0) then [] else [(front, false)].

(** The first or the second aligned address. *)
Definition front_of (raw aligned alignment : Z) : Z :=
  if decide (aligned - raw < 16) then aligned + alignment - raw else aligned - raw.

Lemma memalign_front_ok h R1 base cs1 c cs2 R2 aligned al (a := base + 8 + tot cs1) (front := front_of (a + 8) aligned al) :
  heap_ok h (R1 ++ (base, cs1 ++ (c, true) :: cs2) :: R2) -> (nextc (rev cs1)).2 = true ->
  a + 8 < aligned -> 0 < al -> 16 <= front -> 16 <= c - front -> front mod gran = 0 ->
  exists h', memalign_front a aligned al h = Some (a + 8 + front, a + front, c - front - 8, h') /\
    heap_ok h' (R1 ++ (base, (cs1 ++ [(front, false)]) ++ (c - front, true) :: cs2) :: R2).
Proof.
  intros [(F & HF) Hadj] Hpv Hal Hal0 Hf1 Hf2 Hfg.
  assert (Hadj' : Forall (fun r : region => no_adj (r.2)) (R1 ++ (base, (cs1 ++ [(front, false)]) ++ (c - front, true) :: cs2) :: R2)).
  { eapply no_adj_at; [exact Hadj|]. rewrite <- app_assoc. change ((c, true) :: cs2) with ([(c, true)] ++ cs2).
    change ([(front, false)] ++ (c - front, true) :: cs2) with ([(front, false)] ++ [(c - front, true)] ++ cs2).
    rewrite !no_adj_app. simpl. tauto. }
  destruct (lay_focus h R1 base cs1 [(c, true)] cs2 R2 (ho_lay _ _ _ _ HF)) as [(Hs & Hp & _) Hn1 Hn2 (_ & Hcm & Hc2) (T1 & T2 & T3) Hb [G1 _ G3 G4 _]].
  fold a in Hs, Hp, Hn1, Hn2. cbn [fst snd tot] in *. rewrite Z.add_0_r in *. change (lsz (lsz 8 cs1) _) with c in Hn2.
  apply Forall_cons in Hcm as [[Hm1 Hm2] _]. cbn [fst] in Hm1, Hm2. unfold MM_ALLOC_BIT in G4.
  unfold memalign_front. rewrite Hs. cbn [mbind option_bind]. unfold SIZEOF_MM_ALLOCNODE, SIZEOF_MM_FREENODE. rewrite (u32_id (a + c)) by lia.
  assert (Hal2 : aligned - (a + 8) <= front) by (unfold front, front_of; destruct (decide _); lia).
  rewrite (u32_id (aligned - 8)) by lia. rewrite (u32_id (aligned - 8 - a)) by lia.
  replace (aligned - 8 - a) with (aligned - (a + 8)) by lia.
  replace (if decide (aligned - (a + 8) < 16) then _ else _) with (a + 8 + front, a + front, front).
  2:{ unfold front, front_of in *. destruct (decide _); [|f_equal; first [lia | f_equal; lia]]. rewrite (u32_id (aligned + al)) by lia.
      rewrite (u32_id (aligned + al - 8)) by lia. rewrite u32_id by lia. f_equal; first [lia | f_equal; lia]. }
  rewrite (u32_id (a + c - (a + front))) by lia. replace (a + c - (a + front)) with (c - front) by lia.
  heap_fields. heap_lookups. rewrite Hp. cbn [mbind option_bind]. heap_lookups. rewrite Hn2. cbn [mbind option_bind].
  rewrite lor_low by (unfold MM_ALLOC_BIT; lia). rewrite enc_clear by done. rewrite enc_keep by (unfold MM_ALLOC_BIT; lia).
  match goal with |- context [mm_addfreechunk _ ?x] => set (h1 := x) end.
  assert (HF1 : free_ok h1 [(a, front)] (R1 ++ (base, cs1 ++ [(front, false); (c - front, true)] ++ cs2) :: R2) F).
  { apply (retile h h1 R1 base cs1 [(c, true)] [(front, false); (c - front, true)] cs2 R2 F HF); unfold h1; clearbody front; heap_writes a. }
  destruct (addfree_ok _ _ _ _ _ _ HF1) as (f & b & F' & E & HF2). rewrite E. cbn [mbind option_bind]. rewrite u32_id by lia.
  eexists. split; [done|]. eapply heap_ok_intro; [|exact Hadj']. rewrite <- app_assoc. exact HF2.
Qed.

Lemma align_facts raw t (al := 8 * t) (aligned := (raw + (al - 1)) / al * al) : 0 <= raw -> raw mod 8 = 0 -> 4 <= t ->
  raw <= aligned < raw + al /\ aligned mod 8 = 0 /\
  (aligned <> raw -> 16 <= front_of raw aligned al <= al + 8) /\ front_of raw aligned al mod 8 = 0 /\
  (aligned <> raw -> (raw + front_of raw aligned al) mod al = 0) /\ aligned mod al = 0.
Proof.
  intros H0 Hr Ht. set (q := (raw + (al - 1)) / al) in *. pose proof (Z.div_mod (raw + (al - 1)) al ltac:(lia)) as Ed.
  pose proof (Z.mod_pos_bound (raw + (al - 1)) al ltac:(lia)) as Hm. fold q in Ed.
  assert (Ea : aligned = al * q) by (unfold aligned; lia). assert (E8 : aligned = 8 * (t * q)) by (rewrite Ea; unfold al; ring).
  assert (Hb : raw <= aligned < raw + al) by lia. assert (H8 : aligned mod 8 = 0) by (rewrite E8, Z.mul_comm; apply Z_mod_mult).
  assert (Hal : aligned mod al = 0) by (rewrite Ea, Z.mul_comm; apply Z_mod_mult).
  clearbody aligned. clear Ed Hm Ea E8 q. assert (Ha8 : al mod 8 = 0) by (unfold al; rewrite Z.mul_comm; apply Z_mod_mult).
  assert (Hal32 : 32 <= al) by (unfold al; lia). clearbody al.
  unfold front_of. destruct (decide (aligned - raw < 16)) as [Hlt|Hge].
  - split; [done|]. split_and!; try done.
    + intros Hne. assert (aligned - raw = 8) by zlia. lia.
    + zlia.
    + intros _. replace (raw + (aligned + al - raw)) with (aligned + 1 * al) by lia. by rewrite Z.mod_add by lia.
  - split; [done|]. split_and!; try done.
    + lia.
    + zlia.
    + intros _. by replace (raw + (aligned - raw)) with aligned by lia.
Qed.

Lemma carve_head k m : exists c rest, carve k m = (c, true) :: rest /\ (k <= m -> k <= c).
Proof. unfold carve. destruct (decide _); do 2 eexists; (split; [done|lia]). Qed.

(** [mm_memalign]: a chunk is allocated that has an aligned address in it, what is in front
    of that address is released, and so is what is behind the block. *)
Lemma mm_memalign_ok h R j n (al := 2 ^ j) (size_ := (n + 15) / 16 * 16) (k := need (size_ + 2 * al)) : gran = 8 ->
  heap_ok h R -> 5 <= j -> 0 < n -> size_ + 2 * al + 23 < 4294967296 ->
  ((forall x m, (x, m) ∈ rchunks false R -> m < k) /\ mm_memalign al n h = Some (0, h)) \/
  exists R1 base cs1 m cs2 R2 c rest front h', R = R1 ++ (base, cs1 ++ (m, false) :: cs2) :: R2 /\ k <= m /\
    (forall y i, (y, i) ∈ rchunks false R -> k <= i -> m <= i) /\ carve k m = (c, true) :: rest /\
    0 <= front /\ (base + 16 + tot cs1 + front) mod al = 0 /\ size_ + 8 <= c - front /\
    mm_memalign al n h = Some (base + 16 + tot cs1 + front, h') /\
    heap_ok h' (R1 ++ (base, (cs1 ++ front_chunk front) ++ shrunk (c - front) (size_ + 8) (rest ++ cs2)) :: R2).
Proof.
  intros Hg H Hj Hn Hsm. assert (Hal : exists t, al = 8 * t /\ 4 <= t).
  { exists (2 ^ (j - 3)). unfold al. split; [rewrite <- (Z.pow_add_r 2 3) by lia; f_equal; lia|]. change 4 with (2 ^ 2). apply Z.pow_le_mono_r; lia. }
  destruct Hal as (t & Hal & Ht).
  assert (Hs1 : n <= size_ < n + 16 /\ size_ mod 16 = 0) by (unfold size_; split; [zlia|apply Z_mod_mult]).
  destruct (need_spec (size_ + 2 * al)) as (_ & Hk1 & Hk2 & Hk3); [lia|done|]. fold k in Hk1, Hk2, Hk3.
  assert (E0 : mm_memalign al n h =
    ('(rawchunk, h) ← mm_malloc (size_ + 2 * al) h;
     if decide (rawchunk = 0) then Some (0, h)
     else
       let node := u32 (rawchunk - 8) in
       let alignedchunk := Z.land (u32 (rawchunk + (al - 1))) (not32 (al - 1)) in
       '(alignedchunk, node, allocsize, h) ←
         (if decide (alignedchunk <> rawchunk) then memalign_front node alignedchunk al h
          else Some (alignedchunk, node, size_ + 2 * al, h));
       h ← (if decide (size_ < allocsize) then mm_shrinkchunk node (size_ + 8) h else Some h);
       Some (alignedchunk, h))).
  { unfold mm_memalign. change MM_MIN_CHUNK with 16. rewrite decide_False by lia. rewrite align_up_spec by lia. fold size_.
    unfold SIZEOF_MM_ALLOCNODE. rewrite (u32_id (al - 1)), (u32_id (size_ + 2 * al)), (u32_id (size_ + 8)) by lia. done. }
  rewrite E0. clear E0.
  destruct (mm_malloc_ok h R (size_ + 2 * al) H) as [[Hno E]|(R1 & base & cs1 & m & cs2 & R2 & h1 & -> & Hm & Hb & E & H1)]; [lia|lia|..].
  { left. split; [done|]. by rewrite E. }
  right. fold k in Hm, Hb, H1. destruct (carve_head k m) as (c & rest & Ec & Hc). specialize (Hc Hm). rewrite Ec in H1. simpl in H1.
  pose proof H1 as [(F1 & HF1) _].
  destruct (lay_focus h1 R1 base cs1 [(c, true)] (rest ++ cs2) R2 (ho_lay _ _ _ _ HF1)) as [_ _ _ (C1 & Cm & _) (T1 & T2 & T3) _ [G1 G2 G3 G4 _]].
  simpl in *. apply Forall_cons in Cm as [[Cc Cc2] _]. simpl in Cc, Cc2. unfold MM_ALLOC_BIT in G4.
  set (raw := base + 16 + tot cs1) in *.
  assert (Hraw : raw mod 8 = 0).
  { assert (Ht8 : tot cs1 mod 8 = 0). { clear - C1 Hg. induction C1 as [|x cs [_ Hx] _ IH]; [done|]. rewrite Hg in Hx. simpl. zlia. }
    unfold raw. zlia. }
  assert (Hadj : (nextc (rev cs1)).2 = true).
  { destruct H as [_ Hadj]. rewrite Forall_app, Forall_cons in Hadj. destruct Hadj as (_ & Hadj & _). simpl in Hadj.
    change ((m, false) :: cs2) with ([(m, false)] ++ cs2) in Hadj. rewrite !no_adj_app in Hadj. simpl in Hadj. by destruct Hadj as (_ & _ & [?|?]). }
  destruct (align_facts raw t ltac:(unfold raw; lia) Hraw Ht) as (A1 & A2 & A3 & A4 & A5 & A6). rewrite <- Hal in *.
  set (aligned := (raw + (al - 1)) / al * al) in *. set (front0 := front_of raw aligned al) in *.
  rewrite E. cbn [mbind option_bind]. rewrite (decide_False (P := raw = 0)) by (unfold raw; lia).
  cbv zeta. rewrite (u32_id (raw + (al - 1))) by (unfold raw; lia). 
  pose proof (land_mask (raw + (al - 1)) j ltac:(unfold raw; lia) ltac:(lia)) as Em. fold al aligned in Em. rewrite Em.
  replace (u32 (raw - 8)) with (base + 8 + tot cs1) by (unfold raw; rewrite u32_id; lia).
  exists R1, base, cs1, m, cs2, R2, c, rest, (if decide (aligned = raw) then 0 else front0).
  destruct (decide (aligned = raw)) as [Eal|Nal].
  - rewrite (decide_False (P := aligned <> raw)) by tauto. cbn [mbind option_bind]. rewrite decide_True by lia.
    destruct (mm_shrinkchunk_ok h1 R1 base cs1 c (rest ++ cs2) R2 (size_ + 8) H1) as (h2 & E2 & H2); [lia|rewrite Hg; zlia|].
    rewrite E2. simpl. exists h2. unfold front_chunk. simpl. rewrite app_nil_r, Z.add_0_r, Z.sub_0_r. split_and!; try done; try lia.
    + fold raw. by rewrite <- Eal.
    + by rewrite Eal.
  - rewrite (decide_True (P := aligned <> raw)) by done. specialize (A3 Nal). specialize (A5 Nal).
    pose proof (memalign_front_ok h1 R1 base cs1 c (rest ++ cs2) R2 aligned al H1 Hadj) as Hfr. cbv zeta in Hfr.
    replace (base + 8 + tot cs1 + 8) with raw in Hfr by (unfold raw; lia). fold front0 in Hfr.
    destruct Hfr as (h2 & E2 & H2); [lia|lia|lia|lia|by rewrite Hg|].
    rewrite E2. cbn [mbind option_bind]. rewrite decide_True by lia.
    destruct (mm_shrinkchunk_ok h2 R1 base (cs1 ++ [(front0, false)]) (c - front0) (rest ++ cs2) R2 (size_ + 8) H2) as (h3 & E3 & H3); [lia|rewrite Hg; zlia|].
    replace (base + 8 + tot (cs1 ++ [(front0, false)])) with (base + 8 + tot cs1 + front0) in E3 by (rewrite tot_app; simpl; lia).
    rewrite E3. simpl. exists h3. unfold front_chunk. rewrite (decide_False (P := front0 = 0)) by lia. split_and!; try done; lia.
Qed.

End Ops.
