(* ===== verification/MmStep.v ===== *)
(** * The memory manager as an abstract machine

    The operations of [MmHeap] and [MmRealloc] as the steps of a machine whose state is
    the regions, each a list of chunks ([mm_step]); the refinement theorem; and what a
    step does to the chunks in use ([post]). *)

From S2P Require Import Prelude Queue MmHeap MmRealloc.

Inductive mm_op :=
| Malloc (n : Z)
| Calloc (n elem_size : Z)
| Memalign (alignment n : Z)
| Realloc (mem n : Z)
| Free (mem : Z).

(** The result, what is copied or cleared, and the heap. *)
Definition mm_exec (op : mm_op) (h : mm_heap) : option (Z * mem_effect * mm_heap) :=
  match op with
  | Malloc n => '(p, h) ← mm_malloc n h; Some (p, NoEffect, h)
  | Calloc n elem_size => mm_calloc n elem_size h
  | Memalign alignment n => '(p, h) ← mm_memalign alignment n h; Some (p, NoEffect, h)
  | Realloc mem n => mm_realloc mem n h
  | Free mem => h ← mm_free mem h; Some (0, NoEffect, h)
  end.

(** The bytes asked for, and the block given back. *)
Definition requested (op : mm_op) : Z :=
  match op with Malloc n => n | Calloc n e => u32 (n * e) | Memalign _ n => n | Realloc _ n => n | Free _ => 0 end.

Definition given (op : mm_op) : Z := match op with Realloc mem _ => mem | Free mem => mem | _ => 0 end.

(** The block that is no longer in use after the result [r]: a reallocation that fails
    keeps it. *)
Definition released (op : mm_op) (r : Z) : Z :=
  match op with
  | Realloc mem n => if decide (r = 0 /\ 0 < n) then 0 else mem
  | Free mem => mem
  | _ => 0
  end.

(** The first granule multiple that holds [n] bytes. *)
Definition round16 (n : Z) : Z := (n + 15) / 16 * 16.

(** ** The abstract machine *)

Inductive mm_step : list region -> mm_op -> Z -> mem_effect -> list region -> Prop :=
| step_zero R : mm_step R (Malloc 0) 0 NoEffect R
| step_null R n : 0 < n -> (forall x m, (x, m) ∈ rchunks false R -> m < need n) -> mm_step R (Malloc n) 0 NoEffect R
| step_malloc R1 base cs1 m cs2 R2 n : 0 < n -> need n <= m ->
    (forall y k, (y, k) ∈ rchunks false (R1 ++ (base, cs1 ++ (m, false) :: cs2) :: R2) -> need n <= k -> m <= k) ->
    mm_step (R1 ++ (base, cs1 ++ (m, false) :: cs2) :: R2) (Malloc n) (base + 16 + tot cs1) NoEffect
            (R1 ++ (base, cs1 ++ carve (need n) m ++ cs2) :: R2)
| step_free_null R : mm_step R (Free 0) 0 NoEffect R
| step_free R1 base cs1 n cs2 R2 :
    mm_step (R1 ++ (base, cs1 ++ (n, true) :: cs2) :: R2) (Free (base + 16 + tot cs1)) 0 NoEffect
            (R1 ++ (base, release cs1 n cs2) :: R2)
| step_calloc_none R n e : ~ (0 < n /\ 0 < e) -> mm_step R (Calloc n e) 0 NoEffect R
| step_calloc R n e r R' : 0 < n -> 0 < e -> mm_step R (Malloc (u32 (n * e))) r NoEffect R' ->
    mm_step R (Calloc n e) r (if decide (r = 0) then NoEffect else Clear r (u32 (n * e))) R'
| step_align_small R al n r R' : al <= 16 -> mm_step R (Malloc n) r NoEffect R' -> mm_step R (Memalign al n) r NoEffect R'
| step_align_null R al n : 16 < al -> (forall x m, (x, m) ∈ rchunks false R -> m < need (round16 n + 2 * al)) ->
    mm_step R (Memalign al n) 0 NoEffect R
| step_align R1 base cs1 m cs2 R2 al n c rest front : 16 < al -> need (round16 n + 2 * al) <= m ->
    (forall y k, (y, k) ∈ rchunks false (R1 ++ (base, cs1 ++ (m, false) :: cs2) :: R2) -> need (round16 n + 2 * al) <= k -> m <= k) ->
    carve (need (round16 n + 2 * al)) m = (c, true) :: rest ->
    0 <= front -> (base + 16 + tot cs1 + front) mod al = 0 -> round16 n + 8 <= c - front ->
    mm_step (R1 ++ (base, cs1 ++ (m, false) :: cs2) :: R2) (Memalign al n) (base + 16 + tot cs1 + front) NoEffect
            (R1 ++ (base, (cs1 ++ front_chunk front) ++ shrunk (c - front) (round16 n + 8) (rest ++ cs2)) :: R2)
| step_realloc_null R n r R' : mm_step R (Malloc n) r NoEffect R' -> mm_step R (Realloc 0 n) r NoEffect R'
| step_realloc_zero R mem R' : mem <> 0 -> mm_step R (Free mem) 0 NoEffect R' -> mm_step R (Realloc mem 0) 0 NoEffect R'
| step_shrink R1 base cs1 o cs2 R2 n : 0 < n -> need n <= o ->
    mm_step (R1 ++ (base, cs1 ++ (o, true) :: cs2) :: R2) (Realloc (base + 16 + tot cs1) n) (base + 16 + tot cs1) NoEffect
            (R1 ++ (base, cs1 ++ shrunk o (need n) cs2) :: R2)
| step_grow R1 base cs1 o cs2 R2 n tp tn : 0 < n -> o < need n <= free_head cs2 + free_head (rev cs1) + o ->
    realloc_takes (free_head (rev cs1)) (free_head cs2) (need n - o) = (tp, tn) ->
    mm_step (R1 ++ (base, cs1 ++ (o, true) :: cs2) :: R2) (Realloc (base + 16 + tot cs1) n) (base + 16 + tot cs1 - tp)
            (if decide (tp = 0) then NoEffect else Copy (base + 16 + tot cs1 - tp) (base + 16 + tot cs1) (o + tp - 8))
            (R1 ++ (base, rev (take_off tp (rev cs1)) ++ (need n, true) :: take_off tn cs2) :: R2)
| step_move_null R1 base cs1 o cs2 R2 n : 0 < n -> free_head cs2 + free_head (rev cs1) + o < need n ->
    mm_step (R1 ++ (base, cs1 ++ (o, true) :: cs2) :: R2) (Malloc n) 0 NoEffect (R1 ++ (base, cs1 ++ (o, true) :: cs2) :: R2) ->
    mm_step (R1 ++ (base, cs1 ++ (o, true) :: cs2) :: R2) (Realloc (base + 16 + tot cs1) n) 0 NoEffect
            (R1 ++ (base, cs1 ++ (o, true) :: cs2) :: R2)
| step_move R1 base cs1 o cs2 R2 n r R' R'' : 0 < n -> free_head cs2 + free_head (rev cs1) + o < need n -> r <> 0 ->
    mm_step (R1 ++ (base, cs1 ++ (o, true) :: cs2) :: R2) (Malloc n) r NoEffect R' ->
    mm_step R' (Free (base + 16 + tot cs1)) 0 NoEffect R'' ->
    mm_step (R1 ++ (base, cs1 ++ (o, true) :: cs2) :: R2) (Realloc (base + 16 + tot cs1) n) r (Copy r (base + 16 + tot cs1) o) R''.

Section Steps.
Context `{GR : Gran}.

Definition size_ok (n : Z) : Prop := 0 <= n < 4294967296 - 23.

(** The block is NULL or allocated. *)
Definition valid (R : list region) (mem : Z) : Prop := mem = 0 \/ exists n, (mem - SIZEOF_MM_ALLOCNODE, n) ∈ rchunks true R.

(** An operation in its domain: the size does not wrap around; [mm_realloc] while all sizes
    are multiples of 16; [mm_memalign] while multiples of 8 will do, with a power of two and
    a size that is not 0. *)
Definition op_small (op : mm_op) : Prop :=
  match op with
  | Malloc n => size_ok n
  | Calloc n e => 0 <= n /\ 0 <= e /\ size_ok (u32 (n * e))
  | Memalign al n => size_ok n /\ (al <= 16 \/
      gran = 8 /\ 0 < n /\ size_ok (round16 n + 2 * al) /\ exists j, 5 <= j /\ al = 2 ^ j)
  | Realloc _ n => size_ok n /\ gran = 16
  | Free _ => True
  end.

Definition op_ok (R : list region) (op : mm_op) : Prop := op_small op /\ valid R (given op).

(** ** The chunks in use *)

Lemma release_tot cs1 n cs2 : tot (release cs1 n cs2) = tot (cs1 ++ (n, true) :: cs2).
Proof.
  unfold release. rewrite !tot_app, tot_rev. simpl. pose proof (eat_tot n cs2). pose proof (eat_tot (eat n cs2).1 (rev cs1)) as E.
  rewrite tot_rev in E. lia.
Qed.

Lemma chunks_eat n a cs : chunks true a cs = chunks true (a + ((eat n cs).1 - n)) ((eat n cs).2).
Proof. destruct cs as [|[m []] cs]; simpl; rewrite ?Z.sub_diag, ?Z.add_0_r; [done|done|]. f_equal. lia. Qed.

Lemma chunks_eat_rev n a cs : chunks true a cs = chunks true a (rev ((eat n (rev cs)).2)).
Proof.
  destruct cs as [|[m al] cs _] using rev_ind; [done|]. rewrite rev_app_distr. simpl. destruct al; simpl.
  - by rewrite rev_involutive.
  - rewrite rev_involutive, chunks_app. simpl. by rewrite app_nil_r.
Qed.

Lemma chunks_release a cs1 n cs2 :
  chunks true a (release cs1 n cs2) = chunks true a cs1 ++ chunks true (a + tot cs1 + n) cs2.
Proof.
  unfold release. set (r := eat n cs2). set (l := eat (r.1) (rev cs1)). rewrite chunks_app. simpl.
  rewrite (chunks_eat_rev (r.1) a cs1), (chunks_eat n (a + tot cs1 + n) cs2). fold r. fold l. f_equal. f_equal.
  pose proof (eat_tot (r.1) (rev cs1)) as E. rewrite tot_rev in *. fold l in E. lia.
Qed.

Lemma chunks_take_off t a cs : 0 <= t <= free_head cs -> chunks true (a + t) (take_off t cs) = chunks true a cs.
Proof.
  destruct cs as [|[m []] cs]; simpl; intros Ht; [done|by replace (a + t) with a by lia|].
  destruct (decide (t = 0)) as [-> |]; [by rewrite Z.add_0_r|]. unfold left_over. destruct (decide (t < m)); simpl; f_equal; lia.
Qed.

Lemma chunks_take_rev t a cs : 0 <= t <= free_head (rev cs) -> chunks true a (rev (take_off t (rev cs))) = chunks true a cs.
Proof.
  intros Ht. destruct cs as [|[m al] cs _] using rev_ind; [done|]. rewrite rev_app_distr in *. simpl in *.
  destruct al; simpl; [by rewrite rev_involutive|]. rewrite chunks_app. simpl.
  destruct (decide (t = 0)); simpl; [by rewrite rev_involutive, chunks_app|]. rewrite rev_app_distr, rev_involutive, chunks_app.
  f_equal. unfold left_over. by destruct (decide (t < m)).
Qed.

Lemma chunks_shrunk a n k cs : k <= n -> exists c, k <= c /\ chunks true a (shrunk n k cs) = (a, c) :: chunks true (a + n) cs.
Proof.
  intros Hk. destruct cs as [|[m []] cs]; simpl.
  - destruct (decide _); simpl; [exists k|exists n]; (split; [lia|done]).
  - destruct (decide _); simpl; [exists k|exists n]; (split; [lia|]); [|done]. by replace (a + k + (n - k)) with (a + n) by lia.
  - exists k. split; [lia|]. simpl. do 2 f_equal. lia.
Qed.

Lemma chunks_carve a k m cs : k <= m -> exists c, k <= c /\ chunks true a (carve k m ++ cs) = (a, c) :: chunks true (a + m) cs.
Proof.
  intros Hk. unfold carve. destruct (decide _); simpl; [exists m|exists k]; (split; [lia|]); [done|]. by replace (a + k + (m - k)) with (a + m) by lia.
Qed.

(** What the result and the effect of an operation mean for the chunks in use: [A] is given
    up, [B] is new. *)
Definition post (R : list region) (op : mm_op) (r : Z) (e : mem_effect) (R' : list region) : Prop :=
  geom <$> R' = geom <$> R /\
  exists A B X, rchunks true R ≡ₚ A ++ X /\ rchunks true R' ≡ₚ B ++ X /\
    (A = [] /\ released op r = 0 \/ released op r <> 0 /\ exists c, A = [(released op r - 8, c)]) /\
    (B = [] /\ r = 0 \/ r <> 0 /\ 0 < requested op /\ exists c, B = [(r - 8, c)] /\ requested op + 8 <= c) /\
    match e with
    | NoEffect => r = 0 \/ released op r = 0 \/ r = released op r
    | Copy dst src len => dst = r /\ src = released op r /\
        exists o c, A = [(src - 8, o)] /\ B = [(dst - 8, c)] /\ o - 8 <= len <= c - 8
    | Clear dst len => dst = r /\ len = requested op
    end.

Lemma post_same R op : released op 0 = 0 -> post R op 0 NoEffect R.
Proof. intros H. split; [done|]. exists [], [], (rchunks true R). split_and!; [done|done|by left|by left|by left]. Qed.

Lemma rchunks_at R1 base cs R2 : rchunks true (R1 ++ (base, cs) :: R2) ≡ₚ chunks true (base + 8) cs ++ (rchunks true R1 ++ rchunks true R2).
Proof.
  rewrite rchunks_app, rchunks_cons. cbn [fst snd]. rewrite !(app_assoc _ _ (rchunks true R2)).
  apply Permutation_app_tail, Permutation_app_comm.
Qed.

Lemma geom_at R1 base cs cs' R2 : tot cs' = tot cs -> geom <$> (R1 ++ (base, cs') :: R2) = geom <$> (R1 ++ (base, cs) :: R2).
Proof. intros Ht. rewrite !fmap_app. csimpl. unfold geom. simpl. by rewrite Ht. Qed.

(** The step changes one region. *)
Lemma used_at R1 base cs cs' R2 A B Y : chunks true (base + 8) cs ≡ₚ A ++ Y -> chunks true (base + 8) cs' ≡ₚ B ++ Y ->
  exists X, rchunks true (R1 ++ (base, cs) :: R2) ≡ₚ A ++ X /\ rchunks true (R1 ++ (base, cs') :: R2) ≡ₚ B ++ X.
Proof.
  intros HA HB. exists (Y ++ rchunks true R1 ++ rchunks true R2). rewrite !rchunks_at, HA, HB. by rewrite <- !app_assoc.
Qed.

Lemma heap_wf h R : heap_ok h R -> wf_regions (mm_nodelist h) R.
Proof. intros [(F & [Hl _ _]) _]. apply (lay_wf _ _ Hl). Qed.

(** The addresses of chunks are positive. *)
Lemma place_pos nl R1 base cs1 n al cs2 R2 : wf_regions nl (R1 ++ (base, cs1 ++ (n, al) :: cs2) :: R2) ->
  0 < base + 8 + tot cs1 /\ 16 <= n /\ n mod gran = 0.
Proof.
  intros Hw. destruct (chunk_bounds nl _ al (base + 8 + tot cs1) n Hw) as ([H1 _] & H2 & H3 & _); [|done].
  rewrite (rchunks_focus al R1 base cs1 [(n, al)] cs2 R2). simpl. rewrite bool_decide_true by done. by left.
Qed.

Lemma exec_malloc h R n : heap_ok h R -> size_ok n ->
  exists r h' R', mm_malloc n h = Some (r, h') /\ mm_step R (Malloc n) r NoEffect R' /\ heap_ok h' R' /\ post R (Malloc n) r NoEffect R'.
Proof.
  intros H Hn. unfold size_ok in Hn. destruct (decide (n = 0)) as [-> |Hn0].
  { exists 0, h, R. split_and!; [done|constructor|done|by apply post_same]. }
  destruct (need_spec n ltac:(lia) ltac:(lia)) as (_ & Hk1 & Hk2 & Hk3).
  destruct (mm_malloc_ok h R n H ltac:(lia) ltac:(lia)) as [[Hno E]|(R1 & base & cs1 & m & cs2 & R2 & h' & -> & Hm & Hb & E & H')].
  { exists 0, h, R. split_and!; [done|constructor; [lia|done]|done|by apply post_same]. }
  destruct (place_pos _ _ _ _ _ _ _ _ (heap_wf _ _ H)) as (Hp & _ & Hmg). exists (base + 16 + tot cs1), h'.
  eexists. split; [exact E|]. split; [constructor; [lia|done|done]|]. split; [done|].
  destruct (chunk_carve (need n) m Hk1 (gran_16 _ Hk2) Hmg Hm) as [Et _].
  destruct (chunks_carve (base + 8 + tot cs1) (need n) m cs2 Hm) as (c & Hc & Ec). split; [apply geom_at; rewrite !tot_app; simpl; lia|].
  destruct (used_at R1 base (cs1 ++ (m, false) :: cs2) (cs1 ++ carve (need n) m ++ cs2) R2 [] [(base + 8 + tot cs1, c)]
    (chunks true (base + 8) cs1 ++ chunks true (base + 8 + tot cs1 + m) cs2)) as (X & HA & HB).
  - by rewrite chunks_app.
  - rewrite chunks_app, Ec. by rewrite <- Permutation_middle.
  - exists [], [(base + 8 + tot cs1, c)], X. split_and!; [done|done|by left| |by right; left].
    right. split; [lia|]. split; [simpl; lia|]. exists c. simpl. split; [do 2 f_equal; lia|lia].
Qed.

Lemma exec_free h R mem : heap_ok h R -> valid R mem ->
  exists h' R', mm_free mem h = Some h' /\ mm_step R (Free mem) 0 NoEffect R' /\ heap_ok h' R' /\ post R (Free mem) 0 NoEffect R'.
Proof.
  intros H [-> |(n & Hin)]; [exists h, R; split_and!; [done|constructor|done|by apply post_same]|].
  apply rchunks_find in Hin as (R1 & base & cs1 & cs2 & R2 & -> & Em). unfold SIZEOF_MM_ALLOCNODE in Em.
  assert (mem = base + 16 + tot cs1) as -> by lia. destruct (mm_free_ok h R1 base cs1 n cs2 R2 H) as (h' & E & H').
  destruct (place_pos _ _ _ _ _ _ _ _ (heap_wf _ _ H)) as (Hp & _ & _).
  exists h'. eexists. split; [exact E|]. split; [constructor|]. split; [done|]. split; [apply geom_at, release_tot|].
  destruct (used_at R1 base (cs1 ++ (n, true) :: cs2) (release cs1 n cs2) R2 [(base + 8 + tot cs1, n)] []
    (chunks true (base + 8) cs1 ++ chunks true (base + 8 + tot cs1 + n) cs2)) as (X & HA & HB).
  - rewrite chunks_app. simpl. by rewrite <- Permutation_middle.
  - by rewrite chunks_release.
  - exists [(base + 8 + tot cs1, n)], [], X. split_and!; [done|done| |by left|by left].
    right. simpl. split; [lia|]. exists n. do 2 f_equal. lia.
Qed.

Lemma exec_calloc h R n e : heap_ok h R -> op_small (Calloc n e) ->
  exists r eff h' R', mm_calloc n e h = Some (r, eff, h') /\ mm_step R (Calloc n e) r eff R' /\ heap_ok h' R' /\ post R (Calloc n e) r eff R'.
Proof.
  intros H (Hn & He & Hs). unfold mm_calloc. destruct (decide (0 < n /\ 0 < e)) as [[Hn0 He0]|Hno].
  - destruct (exec_malloc h R (u32 (n * e)) H Hs) as (r & h' & R' & E & Hst & H' & (Hg & A & B & X & HA & HB & PA & PB & _)).
    unfold mm_zalloc. rewrite E. simpl. do 4 eexists. split; [done|]. split; [by constructor|]. split; [done|]. split; [done|].
    exists A, B, X. split_and!; try done. destruct (decide (r = 0)); [by left|done].
  - exists 0, NoEffect, h, R. split_and!; [done|by constructor|done|by apply post_same].
Qed.

Lemma post_malloc_like R r R' n op : requested op = n -> (forall r, released op r = 0) -> post R (Malloc n) r NoEffect R' -> post R op r NoEffect R'.
Proof.
  intros <- Hr (Hg & A & B & X & HA & HB & PA & PB & _). split; [done|]. exists A, B, X. rewrite Hr.
  split_and!; [done|done| |done|by right; left]. destruct PA as [[-> _]|[Hx _]]; [by left|done].
Qed.

Lemma shrunk_tot n k cs : tot (shrunk n k cs) = n + tot cs.
Proof. destruct cs as [|[m []] cs]; simpl; [destruct (decide _); simpl; lia..|]. lia. Qed.

Lemma front_chunk_tot f : tot (front_chunk f) = f.
Proof. unfold front_chunk. destruct (decide _) as [-> |]; simpl; lia. Qed.

Lemma exec_memalign h R al n : heap_ok h R -> op_small (Memalign al n) ->
  exists r h' R', mm_memalign al n h = Some (r, h') /\ mm_step R (Memalign al n) r NoEffect R' /\ heap_ok h' R' /\ post R (Memalign al n) r NoEffect R'.
Proof.
  intros H (Hs & [Hal|(Hg & Hn & Hs2 & j & Hj & ->)]).
  { destruct (exec_malloc h R n H Hs) as (r & h' & R' & E & Hst & H' & Hp). exists r, h', R'. unfold mm_memalign. change MM_MIN_CHUNK with 16.
    rewrite decide_True by done. split_and!; [done|by constructor|done|by apply (post_malloc_like _ _ _ n)]. }
  assert (Hal : 16 < 2 ^ j) by (apply (Z.lt_le_trans _ (2 ^ 5)); [done|apply Z.pow_le_mono_r; lia]).
  unfold size_ok in Hs2. unfold round16 in Hs2. assert (Hr : n <= round16 n) by (unfold round16; zlia).
  destruct (mm_memalign_ok h R j n Hg H Hj Hn ltac:(lia)) as [[Hno E]|(R1 & base & cs1 & m & cs2 & R2 & c & rest & front & h' & -> & Hm & Hb & Ec & Hf & Hmod & Hc & E & H')].
  { exists 0, h, R. split_and!; [done|by constructor|done|by apply post_same]. }
  fold (round16 n) in *. destruct (place_pos _ _ _ _ _ _ _ _ (heap_wf _ _ H)) as (Hp & Hm16 & Hmg).
  destruct (need_spec (round16 n + 2 * 2 ^ j)) as (_ & Hk1 & Hk2 & Hk3); [lia|lia|].
  destruct (chunk_carve _ m Hk1 (gran_16 _ Hk2) Hmg Hm) as [Et _].
  exists (base + 16 + tot cs1 + front), h'. eexists. split; [exact E|]. split; [by econstructor|]. split; [done|].
  assert (Htot : tot ((cs1 ++ front_chunk front) ++ shrunk (c - front) (round16 n + 8) (rest ++ cs2)) = tot (cs1 ++ (m, false) :: cs2)).
  { rewrite Ec in Et. simpl in Et. rewrite !tot_app, shrunk_tot, front_chunk_tot, tot_app. simpl. lia. }
  split; [by apply geom_at|].
  destruct (chunks_shrunk (base + 8 + tot cs1 + front) (c - front) (round16 n + 8) (rest ++ cs2) Hc) as (c' & Hc' & Ec').
  destruct (chunks_carve (base + 8 + tot cs1) _ m cs2 Hm) as (c0 & _ & Ec0). rewrite Ec in Ec0. simpl in Ec0. simplify_eq.
  destruct (used_at R1 base (cs1 ++ (m, false) :: cs2) ((cs1 ++ front_chunk front) ++ shrunk (c0 - front) (round16 n + 8) (rest ++ cs2)) R2 []
    [(base + 8 + tot cs1 + front, c')] (chunks true (base + 8) cs1 ++ chunks true (base + 8 + tot cs1 + m) cs2)) as (X & HA & HB).
  - by rewrite chunks_app.
  - rewrite <- app_assoc, !chunks_app, front_chunk_tot, Ec'. replace (base + 8 + tot cs1 + front + (c0 - front)) with (base + 8 + tot cs1 + c0) by lia.
    match goal with H : chunks true _ (rest ++ cs2) = _ |- _ => rewrite H end.
    replace (chunks true (base + 8 + tot cs1) (front_chunk front)) with (@nil (Z * Z)) by (unfold front_chunk; by destruct (decide _)).
    simpl. by rewrite <- Permutation_middle.
  - exists [], [(base + 8 + tot cs1 + front, c')], X. split_and!; [done|done|by left| |by right; left].
    right. split; [lia|]. split; [done|]. exists c'. simpl. split; [do 2 f_equal; lia|lia].
Qed.

(** A block that stays where it is, or moves down into the chunk before it. *)
Lemma post_realloc R1 base cs1 o cs2 R2 n cs' d c e (mem := base + 16 + tot cs1) : 0 < n -> 0 < mem - d - 8 -> n + 8 <= c ->
  tot cs' = tot (cs1 ++ (o, true) :: cs2) ->
  chunks true (base + 8) cs' ≡ₚ (mem - d - 8, c) :: chunks true (base + 8) cs1 ++ chunks true (base + 8 + tot cs1 + o) cs2 ->
  (d = 0 /\ e = NoEffect \/ e = Copy (mem - d) mem (o + d - 8) /\ 0 <= d /\ o + d <= c) -> 0 < base + 8 + tot cs1 ->
  post (R1 ++ (base, cs1 ++ (o, true) :: cs2) :: R2) (Realloc mem n) (mem - d) e (R1 ++ (base, cs') :: R2).
Proof.
  intros Hn Hd Hc Ht HB He Hp. split; [by apply geom_at|].
  destruct (used_at R1 base (cs1 ++ (o, true) :: cs2) cs' R2 [(mem - 8, o)] [(mem - d - 8, c)]
    (chunks true (base + 8) cs1 ++ chunks true (base + 8 + tot cs1 + o) cs2)) as (X & HA & HX).
  - rewrite chunks_app. simpl. rewrite <- Permutation_middle. by replace (base + 8 + tot cs1) with (mem - 8) by (unfold mem; lia).
  - done.
  - exists [(mem - 8, o)], [(mem - d - 8, c)], X. simpl. rewrite decide_False by lia. split_and!; [done|done|right; split; [unfold mem; lia|eauto]| |].
    + right. split; [lia|]. split; [done|]. eauto.
    + destruct He as [[-> ->]|(-> & H0 & H1)]; [right; right; lia|]. split_and!; [done|done|]. exists o, c. split_and!; (done || lia).
Qed.

(** Moving a block: allocation, then release. *)
Lemma post_move nl R R1 R2 mem o n r : gran = 16 -> wf_regions nl R1 -> (mem - 8, o) ∈ rchunks true R ->
  0 < n -> r <> 0 -> mem <> 0 -> o < need n -> o mod gran = 0 ->
  post R (Malloc n) r NoEffect R1 -> post R1 (Free mem) 0 NoEffect R2 -> post R (Realloc mem n) r (Copy r mem o) R2.
Proof.
  intros Hg Hw Hin Hn Hr Hm Ho Hog (G1 & A1 & B1 & X1 & HA1 & HB1 & PA1 & PB1 & _) (G2 & A2 & B2 & X2 & HA2 & HB2 & PA2 & PB2 & _).
  split; [by rewrite G2|]. simpl in *. destruct PA1 as [[-> _]|[? _]]; [|done]. destruct PB1 as [[_ ?]|(_ & _ & c & -> & Hc)]; [done|].
  destruct PA2 as [[_ ?]|(_ & o' & ->)]; [done|]. destruct PB2 as [[-> _]|[? _]]; [|done]. simpl in *.
  pose proof (rchunks_NoDup _ true R1 Hw) as Hnd. pose proof Hnd as Hnd'. rewrite HB1 in Hnd. csimpl in Hnd. apply NoDup_cons in Hnd as [Hr1 Hnd].
  rewrite HA1 in Hin. assert (Hin1 : (mem - 8, o) ∈ rchunks true R1) by (rewrite HB1; by right).
  assert (o' = o) as ->.
  { rewrite HA2 in Hnd', Hin1. csimpl in Hnd'. apply NoDup_cons in Hnd' as [Hx _]. apply elem_of_cons in Hin1 as [?|Hin1]; [by simplify_eq|].
    exfalso. apply Hx. apply list_elem_of_fmap. by exists (mem - 8, o). }
  assert (Hc16 : o + 16 <= c).
  { destruct (chunk_bounds _ _ true (r - 8) c Hw) as (_ & Hcg & _); [rewrite HB1; by left|]. rewrite Hg in *. unfold need, SIZEOF_MM_ALLOCNODE in Ho. zlia. }
  apply list_elem_of_split in Hin as (l1 & l2 & ->).
  exists [(mem - 8, o)], [(r - 8, c)], (l1 ++ l2). rewrite decide_False by tauto. split_and!.
  - rewrite HA1. simpl. by rewrite <- Permutation_middle.
  - rewrite HB2. rewrite HA2 in HB1. rewrite <- Permutation_middle in HB1. rewrite Permutation_swap in HB1. by apply Permutation_cons_inv in HB1.
  - right. eauto.
  - right. eauto.
  - done.
  - done.
  - exists o, c. split_and!; try done; lia.
Qed.

Lemma malloc_null nl R n R' : wf_regions nl R -> mm_step R (Malloc n) 0 NoEffect R' -> R' = R.
Proof.
  intros Hw Hs. remember (Malloc n) as op. remember 0 as r. destruct Hs; try done. simplify_eq.
  destruct (place_pos _ _ _ _ _ _ _ _ Hw) as (Hp & _). lia.
Qed.

Lemma exec_realloc h R mem n : heap_ok h R -> op_ok R (Realloc mem n) ->
  exists r e h' R', mm_realloc mem n h = Some (r, e, h') /\ mm_step R (Realloc mem n) r e R' /\ heap_ok h' R' /\ post R (Realloc mem n) r e R'.
Proof.
  intros H [[Hs Hg] Hv]. simpl in Hv. destruct (decide (mem = 0)) as [-> |Hm0].
  { destruct (exec_malloc h R n H Hs) as (r & h' & R' & E & Hst & H' & Hp). exists r, NoEffect, h', R'. unfold mm_realloc. rewrite decide_True by done.
    rewrite E. split_and!; [done|by constructor|done|]. apply (post_malloc_like _ _ _ n); [done| |done]. intros r'. simpl. by destruct (decide _). }
  destruct (decide (n = 0)) as [-> |Hn0].
  { destruct (exec_free h R mem H Hv) as (h' & R' & E & Hst & H' & Hp). exists 0, NoEffect, h', R'. unfold mm_realloc. rewrite decide_False by done.
    rewrite decide_True by lia. rewrite E. split_and!; [done|by constructor|done|].
    destruct Hp as (G & A & B & X & HA & HB & PA & PB & _). split; [done|]. exists A, B, X. simpl in *.
    split_and!; [done|done|done|left; destruct PB as [?|[? _]]; done|by left]. }
  destruct Hv as [|(o & Hin)]; [done|]. pose proof Hin as Hin0. apply rchunks_find in Hin as (R1 & base & cs1 & cs2 & R2 & -> & Em).
  unfold SIZEOF_MM_ALLOCNODE in *. assert (mem = base + 16 + tot cs1) as -> by lia. unfold size_ok in Hs.
  destruct (place_pos _ _ _ _ _ _ _ _ (heap_wf _ _ H)) as (Hp & Ho16 & Hog). destruct (need_spec n ltac:(lia) ltac:(lia)) as (_ & Hk1 & Hk2 & Hk3).
  pose proof (mm_realloc_ok h R1 base cs1 o cs2 R2 n Hg H ltac:(lia) ltac:(lia)) as Hcase. cbv zeta in Hcase.
  replace (base + 8 + tot cs1 + 8) with (base + 16 + tot cs1) in Hcase by lia.
  destruct Hcase as [(Hle & h' & E & H')|[(Hle & tp & tn & h' & Et & Es & Hp1 & Hn1 & E & H')|[Hgt E]]].
  - do 4 eexists. split; [exact E|]. split; [constructor; [lia|done]|]. split; [done|].
    destruct (chunks_shrunk (base + 8 + tot cs1) o (need n) cs2 Hle) as (c & Hc & Ec).
    pose proof (post_realloc R1 base cs1 o cs2 R2 n (cs1 ++ shrunk o (need n) cs2) 0 c NoEffect) as HP. cbv zeta in HP. rewrite Z.sub_0_r in HP.
    apply HP; try lia.
    + rewrite !tot_app, shrunk_tot. done.
    + rewrite chunks_app, Ec. rewrite <- Permutation_middle. by replace (base + 16 + tot cs1 - 8) with (base + 8 + tot cs1) by lia.
    + by left.
  - do 4 eexists. split; [exact E|]. split; [constructor; [lia|done|done]|]. split; [done|].
    pose proof (down_tot base cs1 tp Hp1) as Hdn. pose proof (take_off_tot tn cs2 Hn1) as Htn.
    destruct (place_pos _ _ _ _ _ _ _ _ (heap_wf _ _ H')) as (Hp' & _).
    apply (post_realloc R1 base cs1 o cs2 R2 n _ tp (need n)); try lia.
    + rewrite !tot_app. simpl. rewrite Htn. rewrite tot_rev, take_off_tot, tot_rev in * by done. lia.
    + rewrite chunks_app. simpl. rewrite chunks_take_rev by done. rewrite Hdn.
      rewrite <- (chunks_take_off tn (base + 8 + tot cs1 + o) cs2) by done. rewrite <- Permutation_middle.
      replace (base + 8 + tot cs1 - tp + need n) with (base + 8 + tot cs1 + o + tn) by lia.
      by replace (base + 16 + tot cs1 - tp - 8) with (base + 8 + tot cs1 - tp) by lia.
    + destruct (decide (tp = 0)); [by left|right]. split; [done|]. lia.
  - destruct (exec_malloc h _ n H ltac:(unfold size_ok; lia)) as (r & h1 & R' & E1 & Hst & H1 & Hpost). rewrite E1 in E. cbn [mbind option_bind] in E.
    destruct (decide (r = 0)) as [-> |Hr].
    + pose proof (malloc_null _ _ _ _ (heap_wf _ _ H) Hst) as ->. exists 0, NoEffect. do 2 eexists. split; [exact E|].
      split; [constructor; [lia|done|done]|]. split; [done|]. apply post_same. simpl. rewrite decide_True by lia. done.
    + assert (Hv : valid R' (base + 16 + tot cs1)).
      { right. exists o. unfold SIZEOF_MM_ALLOCNODE. destruct Hpost as (_ & A & B & X & HA & HB & [[-> _]|[? _]] & _); [|done].
        rewrite HB. apply elem_of_app. right. simpl in HA. by rewrite <- HA. }
      destruct (exec_free h1 R' _ H1 Hv) as (h2 & R'' & E2 & Hst2 & H2 & Hpost2). rewrite E2 in E. cbn [mbind option_bind] in E.
      do 4 eexists. split; [exact E|]. split; [econstructor; [lia|done|done|done|done]|]. split; [done|].
      apply (post_move _ _ R' _ _ o n r Hg (heap_wf _ _ H1) Hin0); try done; try lia.
      destruct H as [(F & HF) _].
      destruct (lay_focus _ R1 base cs1 [(o, true)] cs2 R2 (ho_lay _ _ _ _ HF)) as [_ _ _ (C1 & _ & C2) _ _ _].
      destruct (free_head_ok cs2 C2) as [N1 _]. destruct (free_head_ok (rev cs1)) as [N2 _]; [by apply Forall_rev|]. lia.
Qed.

Lemma exec_ok h R op : heap_ok h R -> op_ok R op ->
  exists r e h' R', mm_exec op h = Some (r, e, h') /\ mm_step R op r e R' /\ heap_ok h' R' /\ post R op r e R'.
Proof.
  intros H Hop. destruct op as [n|n e|al n|mem n|mem]; simpl.
  - destruct (exec_malloc h R n H (proj1 Hop)) as (r & h' & R' & E & ?). rewrite E. simpl. eauto 10.
  - destruct (exec_calloc h R n e H (proj1 Hop)) as (r & eff & h' & R' & E & ?). eauto 10.
  - destruct (exec_memalign h R al n H (proj1 Hop)) as (r & h' & R' & E & ?). rewrite E. simpl. eauto 10.
  - by apply exec_realloc.
  - destruct (exec_free h R mem H (proj2 Hop)) as (h' & R' & E & ?). rewrite E. simpl. eauto 10.
Qed.

End Steps.
