(* ===== verification/MmClient.v ===== *)
(** * Programs that use the heap

    What [mm_mallinfo] counts; and client programs: sequences of operations, with the
    blocks that the client holds.  The theorems hold for programs that reallocate, in
    which all sizes are multiples of 16, and for programs that ask for aligned blocks, in
    which they are multiples of 8 ([Gran]); doing both can break the heap
    ([realloc_after_memalign]). *)

From S2P Require Import Prelude Queue MmHeap MmRealloc MmStep.

Section Client.
Context `{GR : Gran}.

(** ** [mm_mallinfo] counts *)

Definition csum (l : list (Z * Z)) : Z := foldr (fun (x : Z * Z) s => x.2 + s) 0 l.
Definition cmax (l : list (Z * Z)) : Z := foldr (fun (x : Z * Z) s => Z.max (x.2) s) 0 l.

Definition info_norm (i : counts) : Prop :=
  s32 (c_ordblks i) = c_ordblks i /\ u32 (c_uordblks i) = c_uordblks i /\ u32 (c_fordblks i) = c_fordblks i /\ 0 <= c_mxordblk i.

(** The totals [i], and those of more free chunks [f] and [u] more bytes in use. *)
Definition info_add (i : counts) (f : list (Z * Z)) (u : Z) : counts :=
  mkCounts (s32 (c_ordblks i + Z.of_nat (length f))) (Z.max (c_mxordblk i) (cmax f)) (u32 (c_uordblks i + u)) (u32 (c_fordblks i + csum f)).

Lemma s32_add a b : s32 (s32 a + b) = s32 (a + b).
Proof. zlia. Qed.

Lemma u32_add a b : u32 (u32 a + b) = u32 (a + b).
Proof. unfold u32. apply Zplus_mod_idemp_l. Qed.

Lemma info_add_add i f u f' u' : info_add (info_add i f u) f' u' = info_add i (f ++ f') (u + u').
Proof.
  assert (Es : forall l, csum (f ++ l) = csum f + csum l) by (intros l; unfold csum; induction f as [|x f IH]; simpl; lia).
  assert (Em : forall l, 0 <= cmax l -> cmax (f ++ l) = Z.max (cmax f) (cmax l)) by (clear Es; unfold cmax; intros l Hl; induction f as [|x f IH]; simpl; lia).
  assert (H0 : 0 <= cmax f') by (clear; unfold cmax; induction f' as [|x f IH]; simpl; lia).
  unfold info_add. simpl. rewrite s32_add, !u32_add, Es, Em, length_app, Nat2Z.inj_add, !Z.add_assoc, !Z.max_assoc by done. done.
Qed.

Lemma info_norm_add i f u : info_norm i -> info_norm (info_add i f u).
Proof.
  intros (_ & _ & _ & H). unfold info_norm, info_add. simpl. split_and!; [|unfold u32; by rewrite Z.mod_mod..|lia].
  apply s32_id, s32_range.
Qed.

Lemma info_add_nil i : info_norm i -> info_add i [] 0 = i.
Proof. intros (H1 & H2 & H3 & H4). destruct i. unfold info_add. simpl in *. rewrite !Z.add_0_r, H1, H2, H3, Z.max_l by done. done. Qed.

(** The addresses of the chunks are all different, so that the walk ends. *)
Lemma lseg_length S P a p cs : Forall (fun c : Z * bool => 0 < c.1) cs -> lseg S P a p cs -> (length cs <= size S)%nat.
Proof.
  intros Hp Hl. assert (H : exists l : list Z, length l = length cs /\ NoDup l /\ forall x, x ∈ l -> a <= x /\ x ∈ dom S).
  { revert a p Hl. induction Hp as [|c cs Hc Hp IH]; intros a p Hl; [exists []; split_and!; [done|constructor|by intros x Hx%elem_of_nil]|].
    destruct Hl as (H1 & _ & Hl). destruct (IH _ _ Hl) as (l & El & Hn & Hx). exists (a :: l). simpl. split_and!; [by rewrite El| |].
    - constructor; [|done]. intros Ha. apply Hx in Ha. lia.
    - intros x [-> |H]%elem_of_cons; [split; [lia|]; apply elem_of_dom; eauto|]. destruct (Hx x H). split; [lia|done]. }
  destruct H as (l & <- & Hn & Hx). rewrite <- (size_list_to_set (C := gset Z) l) by done. rewrite <- (size_dom S).
  apply subseteq_size. intros x Hin%elem_of_list_to_set. by apply Hx.
Qed.

Lemma info_loop_ok h cs : forall fuel a p i, lseg (m_size h) (m_preceding h) a p cs -> Forall (fun c : Z * bool => 0 < c.1 < MM_ALLOC_BIT) cs ->
  0 <= p < MM_ALLOC_BIT -> 0 <= a -> a + tot cs < 4294967296 -> info_norm i -> (length cs < fuel)%nat ->
  info_loop fuel h a (a + tot cs) i = Some (info_add i (chunks false a cs) (csum (chunks true a cs))).
Proof.
  induction cs as [|c cs IH]; intros [|fuel] a p i Hl Hc Hp Ha He Hi Hf; simpl in Hf; try lia.
  - simpl. rewrite Z.add_0_r, decide_False by lia. by rewrite info_add_nil.
  - destruct Hl as (H1 & H2 & Hl). apply Forall_cons in Hc as [Hc Hcs]. simpl in He.
    pose proof (tot_nonneg cs ltac:(eapply Forall_impl; [exact Hcs|]; simpl; lia)) as Ht.
    simpl. rewrite decide_True by lia. rewrite H1. simpl. rewrite H2. simpl. rewrite land_bit by done. rewrite u32_id by lia. rewrite Z.add_assoc.
    destruct c as [n []]; simpl in *.
    + replace (mkCounts _ _ _ _) with (info_add i [] n).
      * rewrite (IH _ _ n); [by rewrite info_add_add|done|done|lia|lia|lia|by apply info_norm_add|lia].
      * destruct Hi as (E1 & E2 & E3 & E4). unfold info_add. simpl. rewrite !Z.add_0_r, E1, E3, Z.max_l by done. done.
    + replace (mkCounts _ _ _ _) with (info_add i [(a, n)] 0).
      * rewrite (IH _ _ n); [by rewrite info_add_add|done|done|lia|lia|lia|by apply info_norm_add|lia].
      * destruct Hi as (E1 & E2 & E3 & E4). unfold info_add. simpl. rewrite !Z.add_0_r, E2. f_equal. destruct (decide _); lia.
Qed.

#[local] Arguments info_loop : simpl never.

Lemma info_region_ok h R1 base cs R2 i : lay_ok h (R1 ++ (base, cs) :: R2) -> info_norm i ->
  info_loop (S (size (m_size h))) h base (base + 8 + tot cs) i =
  Some (info_add i (chunks false (base + 8) cs) (8 + csum (chunks true (base + 8) cs))).
Proof.
  intros Hl Hi. pose proof Hl as [[Hc Hg _] Hs _ _ _]. rewrite fmap_app in Hg. csimpl in Hg.
  rewrite Forall_app, Forall_cons in Hc. rewrite Forall_app, Forall_cons in Hg. rewrite Forall_app, Forall_cons in Hs.
  destruct Hc as (_ & Hc & _), Hg as (_ & [G1 G2 G3 G4 G5] & _), Hs as (_ & Hs & _). cbn [fst snd geom] in *.
  change (full cs) with ((guard :: cs) ++ [guard]) in Hs. apply lseg_app in Hs as [Hs _].
  replace (base + 8 + tot cs) with (base + tot (guard :: cs)) by (simpl; unfold SIZEOF_MM_ALLOCNODE; lia).
  assert (Hb : Forall (fun c : Z * bool => 0 < c.1 < MM_ALLOC_BIT) (guard :: cs)).
  { constructor; [done|]. apply Forall_forall. intros c Hin. apply list_elem_of_split in Hin as (l1 & l2 & ->).
    rewrite Forall_app, Forall_cons in Hc. destruct Hc as (C1 & [C2 _] & C3). rewrite tot_app in *. simpl in *.
    pose proof (tot_nonneg _ (chunk_ok_pos _ C1)). pose proof (tot_nonneg _ (chunk_ok_pos _ C3)). lia. }
  assert (Hn : (length (guard :: cs) < S (size (m_size h)))%nat).
  { apply Nat.lt_succ_r. eapply lseg_length; [|exact Hs]. eapply Forall_impl; [exact Hb|]. simpl. lia. }
  rewrite (info_loop_ok h (guard :: cs) _ base 0 i Hs Hb); [done|done|lia|simpl; unfold SIZEOF_MM_ALLOCNODE; lia|done|done].
Qed.

Lemma info_add_used i u : info_norm i -> info_add i [] u = mkCounts (c_ordblks i) (c_mxordblk i) (u32 (c_uordblks i + u)) (c_fordblks i).
Proof. intros (E1 & E2 & E3 & E4). unfold info_add. simpl. rewrite !Z.add_0_r, E1, E3, Z.max_l by done. done. Qed.

Lemma csum_app l1 l2 : csum (l1 ++ l2) = csum l1 + csum l2.
Proof. unfold csum. induction l1; simpl; lia. Qed.

Lemma info_regions_ok h R2 : forall R1 i, lay_ok h (R1 ++ R2) -> info_norm i ->
  info_regions h (fst <$> R2) ((fun r : region => r.1 + 8 + tot (r.2)) <$> R2) i =
  Some (info_add i (rchunks false R2) (csum (rchunks true R2) + 16 * Z.of_nat (length R2))).
Proof.
  induction R2 as [|[base cs] R2 IH]; intros R1 i Hl Hi; [csimpl; by rewrite info_add_nil|].
  rewrite !rchunks_cons. csimpl. rewrite (info_region_ok h R1 base cs R2 i Hl Hi). simpl.
  replace (mkCounts _ _ _ _) with (info_add (info_add i (chunks false (base + 8) cs) (8 + csum (chunks true (base + 8) cs))) [] 8).
  - rewrite info_add_add. rewrite (IH (R1 ++ [(base, cs)])); [|by rewrite <- app_assoc|by apply info_norm_add].
    rewrite info_add_add, csum_app, app_nil_r. do 2 f_equal. simpl. lia.
  - by rewrite info_add_used by (by apply info_norm_add).
Qed.

Lemma mm_mallinfo_ok h R : heap_ok h R -> mm_mallinfo h =
  let i := info_add (mkCounts 0 0 0 0) (rchunks false R) (csum (rchunks true R) + 16 * Z.of_nat (length R)) in
  Some (mkInfo (s32 (arena_of (geom <$> R))) (c_ordblks i) (s32 (c_mxordblk i)) (s32 (c_uordblks i)) (s32 (c_fordblks i))).
Proof.
  intros [(F & [Hl _ _]) _]. unfold mm_mallinfo. rewrite (lay_starts _ _ Hl), (lay_ends _ _ Hl), (lay_arena _ _ Hl).
  rewrite (info_regions_ok h R [] _ Hl) by done. simpl. do 2 f_equal. zlia.
Qed.

(** The bytes in use and the free bytes are all there are. *)
Lemma arena_counts R : arena_of (geom <$> R) = csum (rchunks true R) + 16 * Z.of_nat (length R) + csum (rchunks false R).
Proof.
  assert (Hc : forall cs a, csum (chunks true a cs) + csum (chunks false a cs) = tot cs).
  { induction cs as [|[n []] cs IH]; intros a; simpl; [done|..]; specialize (IH (a + n)); simpl in IH; lia. }
  induction R as [|[base cs] R IH]; [done|]. rewrite !rchunks_cons, !csum_app. csimpl. rewrite IH. simpl. specialize (Hc cs (base + 8)). lia.
Qed.

(** ** Client programs

    [live] are the blocks the client holds, with the sizes it asked for; giving anything
    else back is the client's fault. *)

(** What is asked for: of [mm_calloc], the product of its arguments. *)
Definition asked (op : mm_op) : Z := match op with Calloc n elem_size => n * elem_size | _ => requested op end.

(** The length of a block that was asked for with [n] bytes: as long, but for a product
    of 4 GB or more what is left of it modulo 2^32. *)
Definition block_len (n : Z) : Z := if decide (n < 4294967296) then n else n mod 4294967296.

Lemma block_len_u32 n : 0 <= n -> block_len n = u32 n.
Proof. intros H. unfold block_len. case_decide; [by rewrite u32_id by lia|done]. Qed.

Lemma block_len_asked op : op_small op -> block_len (asked op) = requested op.
Proof.
  assert (Hs : forall n, size_ok n -> block_len n = n) by (unfold size_ok, block_len; intros n Hn; rewrite decide_True by lia; done).
  intros H. destruct op; simpl in *; [by apply Hs| |apply Hs, H|apply Hs, H|done]. apply block_len_u32. nia.
Qed.

Inductive outcome := Done (h : mm_heap) (live : gmap Z Z) | BadFree | Undefined.

Definition hold (op : mm_op) (r : Z) (live : gmap Z Z) : gmap Z Z :=
  let live := delete (released op r) live in
  if decide (r = 0) then live else <[r := asked op]> live.

Fixpoint client (ops : list mm_op) (h : mm_heap) (live : gmap Z Z) : outcome :=
  match ops with
  | [] => Done h live
  | op :: ops' =>
    if decide (given op <> 0 /\ live !! given op = None) then BadFree
    else match mm_exec op h with
         | Some (r, _, h') => client ops' h' (hold op r live)
         | None => Undefined
         end
  end.

Record client_ok (G : list (Z * Z)) (h : mm_heap) (live : gmap Z Z) (R : list region) : Prop := {
  cl_heap : heap_ok h R;
  cl_geom : geom <$> R = G;
  cl_in p n : live !! p = Some n -> 0 < block_len n /\ exists c, (p - 8, c) ∈ rchunks true R /\ block_len n + 8 <= c;
  cl_out x c : (x, c) ∈ rchunks true R -> is_Some (live !! (x + 8))
}.

Lemma client_step G h live R op : client_ok G h live R -> op_small op -> ~ (given op <> 0 /\ live !! given op = None) ->
  exists r e h' R', mm_exec op h = Some (r, e, h') /\ client_ok G h' (hold op r live) R'.
Proof.
  intros H Hop Hbad. pose proof H as [Hh Hg Hin Hout].
  assert (Hv : valid R (given op)).
  { destruct (decide (given op = 0)) as [|Hne]; [by left|]. right. destruct (live !! given op) as [n|] eqn:E; [|exfalso; by apply Hbad].
    destruct (Hin _ _ E) as (_ & c & Hc & _). by exists c. }
  destruct (exec_ok h R op Hh (conj Hop Hv)) as (r & e & h' & R' & E & _ & Hh' & Hg' & A & B & X & HA & HB & PA & PB & _).
  exists r, e, h', R'. split; [done|]. pose proof (heap_wf _ _ Hh) as Hw. split; [done|by rewrite Hg'| |].
  - intros p n Hp. unfold hold in Hp. assert (Hcase : (p = r /\ r <> 0 /\ n = asked op) \/ delete (released op r) live !! p = Some n).
    { destruct (decide (r = 0)) as [|Hr]; [by right|]. apply lookup_insert_Some in Hp as [[? ?]|[_ Hp]]; [left|right]; done. }
    destruct Hcase as [(-> & Hr & ->)|Hd].
    + rewrite block_len_asked by done. destruct PB as [[_ ?]|(_ & Hq & c & -> & Hc)]; [done|]. split; [done|]. exists c. split; [rewrite HB; by left|done].
    + apply lookup_delete_Some in Hd as [Hne Hd]. destruct (Hin _ _ Hd) as (Hn & c & Hc & Hle). split; [done|]. exists c. split; [|done].
      rewrite HA in Hc. rewrite HB. apply elem_of_app. right. apply elem_of_app in Hc as [Hc|Hc]; [|done].
      destruct PA as [[-> _]|(_ & c' & ->)]; [by apply elem_of_nil in Hc|]. apply list_elem_of_singleton in Hc. simplify_eq. lia.
  - intros x c Hx. rewrite HB in Hx. unfold hold. apply elem_of_app in Hx as [Hx|Hx].
    + destruct PB as [[-> _]|(Hr & _ & c' & -> & _)]; [by apply elem_of_nil in Hx|]. apply list_elem_of_singleton in Hx. simplify_eq.
      rewrite decide_False by done. replace (r - 8 + 8) with r by lia. rewrite lookup_insert_eq. eauto.
    + assert (Hxr : (x, c) ∈ rchunks true R) by (rewrite HA; apply elem_of_app; by right).
      assert (Hd : released op r <> x + 8).
      { intros Hd. destruct PA as [[_ Hz]|(_ & c' & ->)].
        - apply (chunk_bounds _ _ _ _ _ Hw) in Hxr. lia.
        - pose proof (rchunks_NoDup _ true R Hw) as Hnd. rewrite HA in Hnd. csimpl in Hnd. apply NoDup_cons in Hnd as [Hnd _].
          apply Hnd. apply list_elem_of_fmap. exists (x, c). split; [simpl; lia|done]. }
      destruct (Hout _ _ Hxr) as [n Hn]. destruct (decide (r = 0)); [rewrite lookup_delete_ne by done; eauto|].
      destruct (decide (r = x + 8)) as [-> |]; [rewrite lookup_insert_eq; eauto|]. rewrite lookup_insert_ne, lookup_delete_ne by done. eauto.
Qed.

Lemma client_run G ops : forall h live R, Forall op_small ops -> client_ok G h live R ->
  match client ops h live with
  | Done h' live' => exists R', client_ok G h' live' R'
  | BadFree => True
  | Undefined => False
  end.
Proof.
  induction ops as [|op ops IH]; intros h live R Hops H; [simpl; eauto|]. apply Forall_cons in Hops as [Hop Hops]. simpl.
  destruct (decide _) as [|Hbad]; [done|]. destruct (client_step _ _ _ _ _ H Hop Hbad) as (r & e & h' & R' & -> & H').
  by apply (IH h' _ R').
Qed.

(** *** What the client sees *)

(** A piece of memory that can become a region: below 2^32, with room for the guards and
    one chunk, and not over the list heads at [nl]. *)
Record span_ok (nl start size_ : Z) : Prop := {
  sp_start : 0 < start;
  sp_size : 0 <= size_;
  sp_end : start + size_ < 4294967296;
  sp_room : 16 <= region_len start size_ < MM_ALLOC_BIT;
  sp_heads : start + size_ <= nl \/ nl + SIZEOF_MM_FREENODE * MM_NNODES <= start
}.

Definition span (start size_ : Z) : Z * Z := (region_base start, region_len start size_).

Lemma span_inside start size_ : start <= region_base start /\ region_base start mod 16 = 0 /\
  region_base start + 16 + region_len start size_ <= start + size_.
Proof. unfold region_len, region_base. split_and!; zlia. Qed.

Lemma span_geom nl start size_ : span_ok nl start size_ -> geom_ok nl (span start size_).
Proof.
  intros [H1 H2 H3 H4 H5]. pose proof (span_inside start size_) as (I1 & I2 & I3). split; simpl; try done; lia.
Qed.

Lemma single_chunk cs : no_adj cs -> Forall (fun c : Z * bool => c.2 = false) cs -> 0 < tot cs -> cs = [(tot cs, false)].
Proof.
  intros Ha Hf Ht. destruct cs as [|[n al] cs]; simpl in Ht; [lia|]. apply Forall_cons in Hf as [Hal Hf]. simpl in Hal. subst al.
  destruct cs as [|[m bl] cs]; [simpl; by rewrite Z.add_0_r|]. apply Forall_cons in Hf as [Hbl _]. simpl in *. subst bl. by destruct Ha as [[?|?] _].
Qed.

Lemma none_used a cs : chunks true a cs = [] -> Forall (fun c : Z * bool => c.2 = false) cs.
Proof.
  revert a; induction cs as [|[n []] cs IH]; intros a H; simpl in H; [constructor|done|]. constructor; [done|]. by apply (IH (a + n)).
Qed.

(** When nothing is in use, every region is one free chunk. *)
Lemma all_free nl R : Forall (fun r : region => no_adj (r.2)) R -> Forall (geom_ok nl) (geom <$> R) -> rchunks true R = [] ->
  R = (fun g : Z * Z => (g.1, [(g.2, false)])) <$> (geom <$> R).
Proof.
  intros Ha Hg HP. induction R as [|[base cs] R IH]; [done|]. rewrite rchunks_cons in HP. apply app_eq_nil in HP as [H1 H2].
  csimpl in Hg. apply Forall_cons in Hg as [[_ _ _ Hs _] Hg]. apply Forall_cons in Ha as [Ha HaR]. csimpl. simpl in *.
  rewrite <- IH by done. do 2 f_equal. apply single_chunk; [done|by eapply none_used|lia].
Qed.

Lemma need_mono n : 0 < n -> n + 8 <= need n.
Proof. unfold need, SIZEOF_MM_ALLOCNODE. zlia. Qed.

Lemma chunks_aligned al a cs x n : Forall chunk_ok cs -> (x, n) ∈ chunks al a cs -> (x - a) mod gran = 0.
Proof.
  intros Hc Hx. apply chunks_find in Hx as (cs1 & cs2 & -> & ->). rewrite Forall_app in Hc. destruct Hc as [Hc _].
  replace (a + tot cs1 - a) with (tot cs1) by lia.
  induction Hc as [|c cs1 [_ H] _ IH]; [apply Z.mod_0_l; destruct gran_ok; lia|]. by apply gran_add.
Qed.

Lemma chunks_apart al a cs x n y m : Forall chunk_ok cs -> (x, n) ∈ chunks al a cs -> (y, m) ∈ chunks al a cs -> x <> y ->
  x + n <= y \/ y + m <= x.
Proof.
  intros Hc. revert a; induction Hc as [|[k bl] cs [Hk _] Hcs IH]; intros a Hx Hy Hne; simpl in *; [by apply elem_of_nil in Hx|].
  pose proof (chunk_ok_pos _ Hcs) as Hp. apply elem_of_app in Hx, Hy.
  assert (Hd : forall z q, (z, q) ∈ (if bool_decide (bl = al) then [(a, k)] else []) -> z = a /\ q = k).
  { intros z q Hz. case_bool_decide; [|by apply elem_of_nil in Hz]. apply list_elem_of_singleton in Hz. by simplify_eq. }
  destruct Hx as [Hx|Hx], Hy as [Hy|Hy]; try (apply Hd in Hx as [-> ->]); try (apply Hd in Hy as [-> ->]); [done|..|by apply (IH (a + k))].
  - apply chunks_range in Hy; [|done]. lia.
  - apply chunks_range in Hx; [|done]. lia.
Qed.

(** The chunks of the regions are aligned, inside, and apart. *)
Lemma rchunks_aligned nl R al x n : wf_regions nl R -> (x, n) ∈ rchunks al R ->
  (x + 8) mod gran = 0 /\ exists g, g ∈ geom <$> R /\ g.1 + 8 <= x /\ x + n <= g.1 + 8 + g.2.
Proof.
  intros [Hc Hg _] H. apply list_elem_of_bind in H as (r & Hx & Hr). rewrite Forall_forall in Hc. specialize (Hc r Hr).
  rewrite Forall_fmap, Forall_forall in Hg. destruct (Hg r Hr) as [_ G2 _ _ _]. simpl in G2. split.
  - apply (chunks_aligned _ _ _ _ _ Hc) in Hx. unfold SIZEOF_MM_ALLOCNODE in Hx.
    replace (x + 8) with (x - (r.1 + 8) + (r.1 + 16)) by lia. apply gran_add; [done|]. apply gran_16. zlia.
  - exists (geom r). split; [apply list_elem_of_fmap; by exists r|]. apply chunks_range in Hx; [|by apply chunk_ok_pos].
    unfold SIZEOF_MM_ALLOCNODE in Hx. simpl in *. lia.
Qed.

Lemma rchunks_apart nl R al x n y m : wf_regions nl R -> (x, n) ∈ rchunks al R -> (y, m) ∈ rchunks al R -> x <> y ->
  x + n <= y \/ y + m <= x.
Proof.
  intros [Hc _ Hd] Hx Hy Hne. induction R as [|r R IH]; [by apply elem_of_nil in Hx|].
  apply Forall_cons in Hc as [Hr Hc]. csimpl in Hd. destruct Hd as [Hd1 Hd]. rewrite rchunks_cons, elem_of_app in Hx, Hy.
  assert (Hcross : forall z k z' k', (z, k) ∈ chunks al (r.1 + 8) (r.2) -> (z', k') ∈ rchunks al R -> z + k <= z' \/ z' + k' <= z).
  { intros z k z' k' Hz Hz'. apply chunks_range in Hz; [|by apply chunk_ok_pos]. apply rchunks_range in Hz' as (r' & Hr' & Hz'); [|done].
    rewrite Forall_fmap, Forall_forall in Hd1. specialize (Hd1 r' Hr'). unfold apart, geom in Hd1. simpl in *. lia. }
  destruct Hx as [Hx|Hx], Hy as [Hy|Hy].
  - by apply (chunks_apart _ _ _ _ _ _ _ Hr Hx Hy).
  - by apply Hcross.
  - destruct (Hcross _ _ _ _ Hy Hx); auto.
  - by apply IH.
Qed.

(** What a client that holds [live] can rely on, with the regions at [s1] and [s2]. *)
Record client_view (s1 z1 s2 z2 : Z) (h : mm_heap) (live : gmap Z Z) : Prop := {
  cv_block p n : live !! p = Some n ->
    let len := block_len n in
    0 < len /\ p mod gran = 0 /\ (s1 <= p /\ p + len <= s1 + z1 \/ s2 <= p /\ p + len <= s2 + z2);
  cv_apart p n q m : live !! p = Some n -> live !! q = Some m -> p <> q -> p + block_len n <= q \/ q + block_len m <= p;
  cv_info : exists i, mm_mallinfo h = Some i /\
    (let total := 32 + region_len s1 z1 + region_len s2 z2 in
     arena i = s32 total /\ u32 (uordblks i + fordblks i) = total /\
     (live = ∅ -> i = mkInfo (s32 total) 2 (Z.max (region_len s1 z1) (region_len s2 z2)) 32 (s32 (total - 32))))
}.

Lemma csum_nonneg l : Forall (fun x : Z * Z => 0 <= x.2) l -> 0 <= csum l.
Proof. unfold csum. induction 1; simpl; lia. Qed.

Lemma rchunks_nonneg nl al R : wf_regions nl R -> 0 <= csum (rchunks al R).
Proof.
  intros Hw. apply csum_nonneg, Forall_forall. intros [x n] Hx. apply (chunk_bounds _ _ _ _ _ Hw) in Hx. simpl. lia.
Qed.

Lemma u32_parts x y : 0 <= x -> 0 <= y -> x + y < 4294967296 -> u32 (s32 (u32 x) + s32 (u32 y)) = x + y.
Proof. intros. rewrite !(u32_id x), !(u32_id y) by lia. zlia. Qed.

(** The counts, with two regions. *)
Lemma info_view nl s1 z1 s2 z2 h R : span_ok nl s1 z1 -> span_ok nl s2 z2 -> heap_ok h R ->
  geom <$> R = [span s1 z1; span s2 z2] ->
  exists i, mm_mallinfo h = Some i /\
    (let total := 32 + region_len s1 z1 + region_len s2 z2 in
     arena i = s32 total /\ u32 (uordblks i + fordblks i) = total /\
     (rchunks true R = [] -> i = mkInfo (s32 total) 2 (Z.max (region_len s1 z1) (region_len s2 z2)) 32 (s32 (total - 32)))).
Proof.
  intros Hs1 Hs2 Hh Hg. pose proof (heap_wf _ _ Hh) as Hw. eexists. rewrite (mm_mallinfo_ok h R Hh). pose proof (arena_counts R) as Ea.
  pose proof (rchunks_nonneg _ true _ Hw) as N1. pose proof (rchunks_nonneg _ false _ Hw) as N2.
  pose proof (sp_room _ _ _ Hs1) as L1. pose proof (sp_room _ _ _ Hs2) as L2. unfold MM_ALLOC_BIT in L1, L2.
  assert (Hlen : length R = 2%nat). { rewrite <- (length_fmap geom), Hg. done. }
  rewrite Hg in Ea |- *. rewrite Hlen in *. simpl in Ea. change (16 * 2) with 32 in *.
  assert (Hin : 32 + region_len s1 z1 + region_len s2 z2 < 4294967296).
  { pose proof (wf_disj _ _ Hw) as Hd. rewrite Hg in Hd. destruct Hd as [Hd _]. apply Forall_cons in Hd as [Hd _].
    pose proof (span_geom _ _ _ Hs1) as [B1 _ E1 _ _]. pose proof (span_geom _ _ _ Hs2) as [B2 _ E2 _ _].
    unfold apart in Hd. simpl in *. lia. }
  split; [done|]. cbn [arena_of span snd]. split_and!.
  - simpl. f_equal. lia.
  - simpl. rewrite u32_parts by lia. lia.
  - intros Hl. assert (Hf : rchunks false R = [(region_base s1 + 8, region_len s1 z1); (region_base s2 + 8, region_len s2 z2)]).
    { rewrite (all_free _ R (proj2 Hh) (wf_geom _ _ Hw) Hl), Hg. done. }
    rewrite Hf, Hl. unfold info_add. simpl. rewrite !u32_id by lia. f_equal; [f_equal; lia|rewrite s32_id by lia; lia|f_equal; lia].
Qed.

Lemma client_ok_view nl s1 z1 s2 z2 h live R : span_ok nl s1 z1 -> span_ok nl s2 z2 ->
  client_ok [span s1 z1; span s2 z2] h live R -> client_view s1 z1 s2 z2 h live.
Proof.
  intros Hs1 Hs2 [Hh Hg Hin Hout]. pose proof (heap_wf _ _ Hh) as Hw. split.
  - intros p n Hp. destruct (Hin _ _ Hp) as (Hn & c & Hc & Hle). cbv zeta. split; [done|].
    destruct (rchunks_aligned _ _ _ _ _ Hw Hc) as [Ha (g & Hgin & H1 & H2)]. replace (p - 8 + 8) with p in Ha by lia.
    split; [done|]. rewrite Hg in Hgin. pose proof (span_inside s1 z1) as (I1 & _ & I2). pose proof (span_inside s2 z2) as (J1 & _ & J2).
    apply elem_of_cons in Hgin as [-> |Hgin]; [left; simpl in *; lia|]. apply list_elem_of_singleton in Hgin as ->. right. simpl in *. lia.
  - intros p n q m Hp Hq Hne. destruct (Hin _ _ Hp) as (_ & c & Hc & Hle). destruct (Hin _ _ Hq) as (_ & c' & Hc' & Hle').
    destruct (rchunks_apart _ _ _ _ _ _ _ Hw Hc Hc') as [|]; [lia|left; lia|right; lia].
  - destruct (info_view nl s1 z1 s2 z2 h R Hs1 Hs2 Hh Hg) as (i & Ei & H1 & H2 & H3). exists i. split; [done|].
    split_and!; [done|done|]. intros ->. apply H3. destruct (rchunks true R) as [|[x c] l]; [done|].
    destruct (Hout x c) as [n Hn]; [by left|done].
Qed.

(** At first the client holds nothing. *)
Lemma client_start h b1 n1 b2 n2 : heap_ok h [(b1, [(n1, false)]); (b2, [(n2, false)])] ->
  client_ok [(b1, n1); (b2, n2)] h ∅ [(b1, [(n1, false)]); (b2, [(n2, false)])].
Proof.
  intros H. split; [done|..].
  - csimpl. unfold geom. simpl. by rewrite !Z.add_0_r.
  - intros p n Hp. by rewrite lookup_empty in Hp.
  - intros x c Hx. simpl in Hx. by apply elem_of_nil in Hx.
Qed.

(** C27: The heap serves its clients: set up with two disjoint pieces of memory, whatever they hold, each below 4 GB, with room for a chunk and apart from the heads of the free lists, it never leaves defined behaviour while a client allocates, clears, releases and, with 16-byte granules, reallocates or, with 8-byte granules, asks for aligned blocks, in any order, giving back only what it holds. The client asks within these limits ([op_small]): no negative size, and none so close to 4 GB that rounding it up or adding the header wraps (of mm_calloc, this is the product modulo 2^32), and, where the alignment is more than 16, an alignment that is a power of two, for at least one byte, with room below 4 GB for the surplus. The blocks the client holds are aligned to the granule, inside the pieces, as long as asked for, and do not overlap; only where the product of the arguments of mm_calloc is 4 GB or more, the block has the length of the product modulo 2^32 ([block_len]). mm_mallinfo accounts for every byte; and when the client has released everything, each piece is one free chunk again. *)
Theorem mm_client_safe h0 s1 z1 s2 z2 ops : 0 < mm_nodelist h0 ->
  span_ok (mm_nodelist h0) s1 z1 -> span_ok (mm_nodelist h0) s2 z2 -> s1 + z1 <= s2 \/ s2 + z2 <= s1 ->
  Forall op_small ops ->
  exists h1 h2, mm_initialize s1 z1 h0 = Some h1 /\ mm_addregion s2 z2 h1 = Some h2 /\
    match client ops h2 ∅ with
    | Done h live => client_view s1 z1 s2 z2 h live
    | BadFree => True
    | Undefined => False
    end.
Proof.
  intros Hnl Hs1 Hs2 Hap Hops. pose proof (span_geom _ _ _ Hs1) as G1. pose proof (span_geom _ _ _ Hs2) as G2.
  pose proof Hs1 as [A1 B1 C1 _ _]. pose proof Hs2 as [A2 B2 C2 _ _].
  destruct (mm_initialize_ok h0 s1 z1 Hnl A1 B1 C1 G1) as (h1 & E1 & H1 & N1). exists h1.
  destruct (mm_addregion_ok h1 _ s2 z2 H1) as (h2 & E2 & H2 & N2); [simpl; lia|done|done|done|by rewrite N1| |].
  { constructor; [|constructor]. pose proof (span_inside s1 z1) as (I1 & _ & I2). pose proof (span_inside s2 z2) as (J1 & _ & J2).
    unfold apart, geom. simpl. lia. }
  exists h2. split_and!; [done|done|].
  assert (Hc : client_ok [span s1 z1; span s2 z2] h2 ∅ [(region_base s1, [(region_len s1 z1, false)]); (region_base s2, [(region_len s2 z2, false)])]).
  { by apply client_start. }
  pose proof (client_run _ ops h2 ∅ _ Hops Hc) as Hr. destruct (client ops h2 ∅) as [h live| |]; [|done|done].
  destruct Hr as (R & HR). by eapply client_ok_view.
Qed.

End Client.

Definition gran16 : Gran := {| gran := 16; gran_ok := or_intror eq_refl |}.
Definition gran8 : Gran := {| gran := 8; gran_ok := or_introl eq_refl |}.

Definition heap0 : mm_heap := mkHeap ∅ ∅ ∅ ∅ 0x10000 0 [] [].

(** A client that allocates, asks for too much, reallocates in place, downwards and
    elsewhere, and releases out of order. *)
Definition ops0 : list mm_op :=
  [Malloc 100; Malloc 500; Malloc 0; Calloc 5 40; Malloc 5000; Realloc 0x30000280 60; Realloc 0x30000010 20;
   Realloc 0x30000080 520; Free 0x30000280; Free 0; Realloc 0x30000010 900; Malloc 40].

(** One that asks for aligned blocks. *)
Definition ops1 : list mm_op := [Malloc 24; Memalign 64 100; Memalign 8 20; Free 0x30000010; Memalign 32 1; Free 0x30000040].

Lemma span_check nl start size_ :
  bool_decide (0 < start /\ 0 <= size_ /\ start + size_ < 4294967296 /\ 16 <= region_len start size_ /\
               region_len start size_ < MM_ALLOC_BIT /\
               (start + size_ <= nl \/ nl + SIZEOF_MM_FREENODE * MM_NNODES <= start)) = true -> span_ok nl start size_.
Proof. intros (? & ? & ? & ? & ? & ?)%bool_decide_eq_true. by split. Qed.

Lemma mm_client_safe_witness :
  exists h1 h2, mm_initialize 0x20000010 1000 heap0 = Some h1 /\ mm_addregion 0x30000000 999 h1 = Some h2 /\
    match client ops0 h2 ∅ with
    | Done h live => @client_view gran16 0x20000010 1000 0x30000000 999 h live
    | BadFree => True
    | Undefined => False
    end.
Proof.
  apply (@mm_client_safe gran16 heap0 0x20000010 1000 0x30000000 999 ops0); [done|by apply span_check|by apply span_check|left; done|].
  repeat (apply Forall_cons; split; [repeat split; vm_compute; (done || congruence)|]). done.
Defined.

(** What the clients hold at the end, and the counts. *)
Example ops0_outcome :
  (h ← mm_initialize 0x20000010 1000 heap0; h ← mm_addregion 0x30000000 999 h;
   match client ops0 h ∅ with Done h live => i ← mm_mallinfo h; Some (map_to_list live, i) | _ => None end) =
  Some ([(0x30000070, 520); (0x200003b0, 40); (0x20000020, 900)], mkInfo 1984 3 352 1520 464).
Proof. vm_compute. reflexivity. Qed.

Example ops1_outcome :
  (h ← mm_initialize 0x20000010 1000 heap0; h ← mm_addregion 0x30000000 999 h;
   match client ops1 h ∅ with Done h live => i ← mm_mallinfo h; Some (map_to_list live, i) | _ => None end) =
  Some ([(0x300000b8, 20); (0x30000100, 1)], mkInfo 1984 4 976 88 1896).
Proof. vm_compute. reflexivity. Qed.

(** C28: The memory manager refines the abstract machine on the list of chunks of every region: from a well-formed heap every operation in its domain is defined and does what the abstract step says (the smallest free chunk that is large enough is taken and the rest of it stays free; NULL only when no free chunk is large enough; a released chunk is joined with both free neighbours; a reallocation shrinks in place, grows into its neighbours or moves; an aligned block has its surplus released on both sides), it leaves a well-formed heap with the same regions, and only the chunks it gives up and the one it returns change their use; a copy brings the whole old block into the new one and stays inside it. *)
Theorem mm_refines `{Gran} h R op : heap_ok h R -> op_ok R op ->
  exists r e h' R', mm_exec op h = Some (r, e, h') /\ mm_step R op r e R' /\ heap_ok h' R' /\ post R op r e R'.
Proof. apply exec_ok. Qed.

Lemma mm_refines_witness : exists h R, @heap_ok gran8 h R /\ @op_ok gran8 R (Memalign 64 100) /\
  exists r e h' R', mm_exec (Memalign 64 100) h = Some (r, e, h') /\ mm_step R (Memalign 64 100) r e R' /\
    @heap_ok gran8 h' R' /\ post R (Memalign 64 100) r e R'.
Proof.
  destruct (@mm_initialize_ok gran8 heap0 0x20000010 1000) as (h & _ & H & _); [done|done|done|done|by apply span_geom, span_check|].
  assert (Hop : @op_ok gran8 [(region_base 0x20000010, [(region_len 0x20000010 1000, false)])] (Memalign 64 100)).
  { split; [|by left]. split; [done|]. right. split; [done|]. split; [done|]. split; [done|]. by exists 6. }
  exists h. eexists. split; [exact H|]. split; [exact Hop|]. by apply (@mm_refines gran8 h _ (Memalign 64 100) H).
Defined.

Lemma wrap_size n : 4294967296 - 7 <= n < 4294967296 -> MM_ALIGN_UP (u32 (n + SIZEOF_MM_ALLOCNODE)) = 16.
Proof.
  intros Hn. unfold SIZEOF_MM_ALLOCNODE. replace (u32 (n + 8)) with (n + 8 - 4294967296) by zlia. rewrite align_up_spec by lia. zlia.
Qed.

(** C35: A request for almost 4 GB is granted: the size wraps around when the header is added, and as long as any chunk is free mm_malloc returns a chunk taken for one byte instead of NULL; and the product of the arguments of mm_calloc wraps around, so that 65537 items of 65536 bytes are given 65536 bytes. *)
Theorem mm_malloc_wraps `{Gran} h R n : heap_ok h R -> rchunks false R <> [] -> 4294967296 - 7 <= n < 4294967296 ->
  exists p h' R', mm_malloc n h = Some (p, h') /\ p <> 0 /\ heap_ok h' R' /\ mm_step R (Malloc 1) p NoEffect R' /\
    mm_calloc 65537 65536 h = mm_zalloc 65536 h.
Proof.
  intros H0 Hne Hn. assert (E : mm_malloc n h = mm_malloc 1 h).
  { unfold mm_malloc. rewrite !decide_False by lia. rewrite wrap_size by done. done. }
  rewrite E. destruct (exec_malloc h R 1 H0) as (p & h' & R' & E' & Hs & H' & _); [done|]. exists p, h', R'.
  pose proof (heap_wf _ _ H0) as Hw. split_and!; try done. intros ->.
  destruct (rchunks false R) as [|[x m] l] eqn:Ef; [done|]. assert (Hin : (x, m) ∈ rchunks false R) by (rewrite Ef; by left).
  destruct (mm_malloc_ok h R 1 H0) as [[Hno _]|(R1 & base & cs1 & k & cs2 & R2 & h1 & -> & _ & _ & E1 & _)]; [done|done|..].
  - specialize (Hno _ _ Hin). apply (chunk_bounds _ _ _ _ _ Hw) in Hin. change (need 1) with 16 in Hno. lia.
  - rewrite E1 in E'. simplify_eq. destruct (place_pos _ _ _ _ _ _ _ _ Hw) as (Hp & _). lia.
Qed.

Lemma mm_malloc_wraps_witness : exists h R, @heap_ok gran16 h R /\ rchunks false R <> [] /\
  exists p h' R', mm_malloc 0xFFFFFFFA h = Some (p, h') /\ p <> 0 /\ @heap_ok gran16 h' R' /\ mm_step R (Malloc 1) p NoEffect R' /\
    mm_calloc 65537 65536 h = mm_zalloc 65536 h.
Proof.
  destruct (@mm_initialize_ok gran16 heap0 0x20000010 1000) as (h & _ & H & _); [done|done|done|done|by apply span_geom, span_check|].
  exists h. eexists. split; [exact H|]. split; [done|]. by apply (@mm_malloc_wraps gran16 h _ 0xFFFFFFFA H).
Defined.

(** When the size wraps to 0, even a list head is handed out. *)
Example mm_malloc_head :
  (h ← mm_initialize 0x20000010 1000 heap0; '(p, _) ← mm_malloc 0xFFFFFFF8 h; Some p) = Some (0x10000 + 16 + 8).
Proof. vm_compute. reflexivity. Qed.

(** An aligned block of no bytes has a chunk of 8 bytes, which cannot hold a free node. *)
Example memalign_nothing :
  (h ← mm_initialize 0x20000000 256 heap0; '(p, h) ← mm_memalign 64 0 h; n ← m_size h !! (p - 8); Some n) = Some 8.
Proof. vm_compute. reflexivity. Qed.

(** A reallocation after an aligned allocation can leave a free chunk of 8 bytes, whose
    links lie over the header of the guard node. *)
Example realloc_after_memalign :
  (h ← mm_initialize 0x20000000 256 heap0; '(_, h) ← mm_memalign 32 1 h; '(q, h) ← mm_malloc 20 h; '(q, _, h) ← mm_realloc q 184 h;
   n ← m_size h !! (q - 8); m ← m_size h !! (q - 8 + n); p ← m_preceding h !! (q - 8 + n); Some (m, Z.land p MM_ALLOC_BIT)) = Some (8, 0).
Proof. vm_compute. reflexivity. Qed.

(** A reallocation that moves a block of 40 bytes down copies 56 bytes from it. *)
Example realloc_copies_behind :
  (h ← mm_initialize 0x20000000 1024 heap0; '(p, h) ← mm_malloc 20 h; '(q, h) ← mm_malloc 40 h; '(_, h) ← mm_malloc 40 h;
   h ← mm_free p h; '(_, e, _) ← mm_realloc q 50 h; Some e) = Some (Copy 0x20000020 0x20000030 56).
Proof. vm_compute. reflexivity. Qed.
