(* ===== verification/Double.v ===== *)
(** * Doubles

    Binary64 arithmetic as the Standard Library specifies it, the conversions of C,
    and the exponential, the logarithm and the power function of src/nuttx/libc/math.

    The theorems: on integers of up to 53 binary digits the arithmetic, the
    comparisons and the conversions are those of [Z]. *)

From Stdlib Require Import SpecFloat.
From S2P Require Import Prelude.

Notation double := spec_float.

Definition double_of_int (z : Z) : double := binary_normalize 53 1024 z 0 false.

(** [(int)d]: truncation, saturating as the ARM run-time does. *)
Definition int_of_double (d : double) : Z :=
  let clamp z := Z.max (-2147483648) (Z.min 2147483647 z) in
  match d with
  | S754_zero _ | S754_nan => 0
  | S754_infinity s => if s then -2147483648 else 2147483647
  | S754_finite s m e =>
      let a := if decide (0 <= e) then Z.shiftl (Z.pos m) e else Z.shiftr (Z.pos m) (- e) in
      clamp (if s then - a else a)
  end.

(** [(size_t)d] *)
Definition size_of_double (d : double) : Z :=
  match d with
  | S754_zero _ | S754_nan => 0
  | S754_infinity s => if s then 0 else 4294967295
  | S754_finite true _ _ => 0
  | S754_finite false m e =>
      Z.min 4294967295 (if decide (0 <= e) then Z.shiftl (Z.pos m) e else Z.shiftr (Z.pos m) (- e))
  end.

Definition floor (d : double) : double :=
  match d with
  | S754_finite s m e =>
      if decide (0 <= e) then d
      else double_of_int (Z.div (if s then - Z.pos m else Z.pos m) (2 ^ (- e)))
  | _ => d
  end.

Definition fadd (a b : double) : double := SFadd 53 1024 a b.
Definition fsub (a b : double) : double := SFsub 53 1024 a b.
Definition fmul (a b : double) : double := SFmul 53 1024 a b.
Definition fdiv (a b : double) : double := SFdiv 53 1024 a b.
Definition fzero : double := S754_zero false.
Definition DBL_EPSILON : double := S754_finite false 4503599627370496 (-104).
Definition INT_MAX_d : double := double_of_int 2147483647.
Definition INT_MIN_d : double := double_of_int (-2147483648).
Definition INFINITY : double := S754_infinity false.

(** ** Exponential, logarithm and power *)

(** [1.0 / n!] for [n] up to 18, as the compiler rounds the quotients. *)
Definition _dbl_inv_fact : list double :=
  map (fun n => fdiv (double_of_int 1) (double_of_int n))
    [1; 1; 2; 6; 24; 120; 720; 5040; 40320; 362880; 3628800; 39916800; 479001600; 6227020800; 87178291200;
     1307674368000; 20922789888000; 355687428096000; 6402373705728000].

(** The double nearest to e. *)
Definition M_E : double := S754_finite false 6121026514868073 (-51).

(** [e], [e^2], [e^4] and so on, each the square of the one before. *)
Fixpoint squares (n : nat) (x : double) : list double :=
  match n with O => [] | S n => x :: squares n (fmul x x) end.
Definition g_expi_square_tbl : list double := squares 10 M_E.

(** [for (i = 0; n != 0; i++)] over the table from [i] on. *)
Fixpoint expi_loop (tbl : list double) (i n : Z) (val : double) : option double :=
  if decide (n = 0) then Some val else
  match tbl with
  | [] => None
  | x :: tbl =>
      if decide (Z.land n (Z.shiftl 1 i) <> 0)
      then expi_loop tbl (i + 1) (Z.land n (Z.lnot (Z.shiftl 1 i))) (fmul val x)
      else expi_loop tbl (i + 1) n val
  end.

Definition lib_expi (n : Z) : option double :=
  if decide (709 < n) then Some INFINITY else expi_loop g_expi_square_tbl 0 n (double_of_int 1).

Definition exp (x : double) : option double :=
  if SFeqb x fzero then Some (double_of_int 1) else
  let invert := SFltb x fzero in
  let x := if invert then SFopp x else x in
  let int_part := size_of_double x in
  let x := fsub x (double_of_int int_part) in
  let '(value, _) := fold_left (fun '(value, x0) c => (fadd value (fmul x0 c), fmul x0 x)) _dbl_inv_fact (fzero, double_of_int 1) in
  e ← lib_expi int_part;
  let value := fmul value e in
  Some (if invert then fdiv (double_of_int 1) value else value).

(** Newton's iteration. *)
Fixpoint log_loop (fuel : nat) (x y y_old epsilon : double) : option double :=
  match fuel with
  | O => None
  | S fuel =>
      if SFltb (fadd y_old epsilon) y || SFltb y (fsub y_old epsilon) then
        let y_old := y in
        ey ← exp y;
        let y := fsub y (fdiv (fsub ey x) ey) in
        let y := if SFltb (double_of_int 700) y then double_of_int 700 else y in
        let y := if SFltb y (double_of_int (-700)) then double_of_int (-700) else y in
        let epsilon := if SFltb (double_of_int 1) (SFabs y) then fmul (SFabs y) DBL_EPSILON else DBL_EPSILON in
        log_loop fuel x y y_old epsilon
      else if SFeqb y (double_of_int 700) then Some INFINITY
      else if SFeqb y (double_of_int (-700)) then Some INFINITY
      else Some y
  end.

Definition log (fuel : nat) (x : double) : option double := log_loop fuel x fzero (double_of_int 1) DBL_EPSILON.

Definition pow (fuel : nat) (b e : double) : option double := l ← log fuel b; exp (fmul e l).

(** ** Exact results *)

(** [m] has [d] binary digits. *)
Lemma digits2_range m : 2 ^ (Z.pos (digits2_pos m) - 1) <= Z.pos m < 2 ^ Z.pos (digits2_pos m).
Proof.
  induction m as [m IH|m IH|]; [| |done]; cbn [digits2_pos]; rewrite Pos2Z.inj_succ;
    replace (Z.succ (Z.pos (digits2_pos m)) - 1) with (Z.succ (Z.pos (digits2_pos m) - 1)) by lia;
    rewrite !Z.pow_succ_r by lia; lia.
Qed.

Lemma digits2_unique m d : 2 ^ (d - 1) <= Z.pos m < 2 ^ d -> 0 < d -> Z.pos (digits2_pos m) = d.
Proof.
  intros Hd H0. pose proof (digits2_range m) as Hm.
  assert (d - 1 < Z.pos (digits2_pos m)) by (apply (Z.pow_lt_mono_r_iff 2); lia).
  assert (Z.pos (digits2_pos m) - 1 < d) by (apply (Z.pow_lt_mono_r_iff 2); lia). lia.
Qed.

Lemma digits2_shift m m' k : Z.pos m = Z.pos m' * 2 ^ k -> 0 <= k -> Z.pos (digits2_pos m) = Z.pos (digits2_pos m') + k.
Proof.
  intros Hm Hk. pose proof (digits2_range m') as Hr. apply digits2_unique; [|lia].
  rewrite Hm. replace (Z.pos (digits2_pos m') + k - 1) with (Z.pos (digits2_pos m') - 1 + k) by lia.
  rewrite !Z.pow_add_r by lia. pose proof (Z.pow_pos_nonneg 2 k ltac:(lia) Hk). nia.
Qed.

(** Shifting out zeroes is exact. *)
Lemma iter_shr_exact p : forall m, 0 <= m ->
  SpecFloat.iter_pos shr_1 p (Build_shr_record (m * 2 ^ Z.pos p) false false) = Build_shr_record m false false.
Proof.
  assert (H1 : forall m, 0 <= m -> shr_1 (Build_shr_record (m * 2) false false) = Build_shr_record m false false).
  { intros [|m|m] H; [done| |lia]. by replace (Z.pos m * 2) with (Z.pos m~0) by lia. }
  induction p as [p IH|p IH|]; intros m Hm; cbn [SpecFloat.iter_pos].
  - replace (m * 2 ^ Z.pos p~1) with (m * 2 ^ Z.pos p * 2 ^ Z.pos p * 2).
    + rewrite H1 by lia. rewrite IH by lia. by rewrite IH.
    + rewrite (Pos2Z.inj_xI p). replace (2 * Z.pos p + 1) with (Z.pos p + Z.pos p + 1) by lia.
      rewrite !Z.pow_add_r by lia. lia.
  - replace (m * 2 ^ Z.pos p~0) with (m * 2 ^ Z.pos p * 2 ^ Z.pos p).
    + rewrite IH by lia. by rewrite IH.
    + rewrite (Pos2Z.inj_xO p). replace (2 * Z.pos p) with (Z.pos p + Z.pos p) by lia. rewrite Z.pow_add_r by lia. lia.
  - by apply H1.
Qed.

(** A mantissa of 53 digits with a normal exponent. *)
Definition normal (M : positive) (E : Z) : Prop := Z.pos (digits2_pos M) = 53 /\ -1074 <= E <= 971.

Lemma fexp_normal M E : normal M E -> fexp 53 1024 (53 + E) = E.
Proof. intros [_ H]. unfold fexp, emin. lia. Qed.

Lemma shr_fexp_exact m e M E : normal M E -> e <= E -> Z.pos m = Z.pos M * 2 ^ (E - e) ->
  shr_fexp 53 1024 (Z.pos m) e loc_Exact = (Build_shr_record (Z.pos M) false false, E).
Proof.
  intros HM He Hm. unfold shr_fexp. cbn [Zdigits2 shr_record_of_loc].
  rewrite (digits2_shift m M (E - e)) by (done || lia). rewrite (proj1 HM).
  replace (53 + (E - e) + e) with (53 + E) by lia. rewrite (fexp_normal M E HM).
  destruct (E - e) as [|p|p] eqn:Ed; [|rewrite Hm|lia]; simpl.
  - replace m with M by (rewrite Z.pow_0_r in Hm; lia). f_equal. lia.
  - change (Z.pow_pos 2 p) with (2 ^ Z.pos p). rewrite iter_shr_exact by lia. f_equal. lia.
Qed.

Lemma round_aux_exact s m e M E : normal M E -> e <= E -> Z.pos m = Z.pos M * 2 ^ (E - e) ->
  binary_round_aux 53 1024 s (Z.pos m) e loc_Exact = S754_finite s M E.
Proof.
  intros HM He Hm. unfold binary_round_aux. rewrite (shr_fexp_exact m e M E) by done.
  cbn [shr_m loc_of_shr_record round_nearest_even].
  rewrite (shr_fexp_exact M E M E) by (done || lia || (rewrite Z.sub_diag, Z.pow_0_r; lia)).
  cbn [shr_m]. destruct HM as [_ HE]. by rewrite (proj2 (Z.leb_le E (1024 - 53))) by lia.
Qed.

Lemma iter_xO m d : Z.pos (Pos.iter xO m d) = Z.pos m * 2 ^ Z.pos d.
Proof.
  induction d as [|d IH] using Pos.peano_ind; [simpl; lia|].
  rewrite Pos.iter_succ, Pos2Z.inj_succ, Z.pow_succ_r by lia. lia.
Qed.


(** [m * 2 ^ e] and [M * 2 ^ E] are the same number. *)
Definition same_value (m e M E : Z) : Prop := exists k, k <= e /\ k <= E /\ m * 2 ^ (e - k) = M * 2 ^ (E - k).

Lemma same_value_le m e M E : same_value m e M E -> e <= E -> m = M * 2 ^ (E - e).
Proof.
  intros (k & Hk & HK & H) He. replace (E - k) with ((E - e) + (e - k)) in H by lia.
  rewrite Z.pow_add_r, Z.mul_assoc in H by lia. apply Z.mul_reg_r in H; [done|].
  pose proof (Z.pow_pos_nonneg 2 (e - k)). lia.
Qed.

Lemma same_value_sym m e M E : same_value m e M E -> same_value M E m e.
Proof. intros (k & ? & ? & ?). by exists k. Qed.

Lemma binary_round_exact s m e M E : normal M E -> same_value (Z.pos m) e (Z.pos M) E ->
  binary_round 53 1024 s m e = S754_finite s M E.
Proof.
  intros HM Hv. unfold binary_round.
  assert (Hd : Z.pos (digits2_pos m) + e = 53 + E).
  { destruct (Z.le_ge_cases e E) as [He|He].
    - rewrite (digits2_shift m M (E - e)); [|by apply same_value_le|lia]. rewrite (proj1 HM). lia.
    - pose proof (digits2_shift M m (e - E)) as H. rewrite (proj1 HM) in H.
      rewrite H; [lia|apply same_value_le; [by apply same_value_sym|done]|lia]. }
  rewrite Hd, (fexp_normal M E HM). unfold shl_align. destruct (E - e) as [|d|d] eqn:Ed.
  - apply round_aux_exact; [done|lia|]. apply same_value_le; [done|lia].
  - apply round_aux_exact; [done|lia|]. apply same_value_le; [done|lia].
  - apply round_aux_exact; [done|lia|]. rewrite Z.sub_diag, Z.pow_0_r, iter_xO.
    rewrite (same_value_le (Z.pos M) E (Z.pos m) e); [|by apply same_value_sym|lia].
    replace (e - E) with (Z.pos d) by lia. lia.
Qed.

(** The double of an integer of up to 53 digits. *)
Definition mant (m : positive) : positive := Z.to_pos (Z.pos m * 2 ^ (53 - Z.pos (digits2_pos m))).
Definition expo (m : positive) : Z := Z.pos (digits2_pos m) - 53.

Definition small (z : Z) : Prop := - 2 ^ 53 < z < 2 ^ 53.

Lemma small_digits m : Z.pos m < 2 ^ 53 -> Z.pos (digits2_pos m) <= 53.
Proof.
  intros H. pose proof (digits2_range m). 
  assert (Z.pos (digits2_pos m) - 1 < 53) by (apply (Z.pow_lt_mono_r_iff 2); lia). lia.
Qed.

Lemma mant_eq m : Z.pos m < 2 ^ 53 -> Z.pos (mant m) = Z.pos m * 2 ^ (53 - Z.pos (digits2_pos m)).
Proof.
  intros H%small_digits. unfold mant. apply Z2Pos.id.
  pose proof (Z.pow_pos_nonneg 2 (53 - Z.pos (digits2_pos m))). lia.
Qed.

Lemma normal_mant m : Z.pos m < 2 ^ 53 -> normal (mant m) (expo m).
Proof.
  intros H. pose proof (small_digits m H). split; [|unfold expo; lia].
  rewrite (digits2_shift _ m _ (mant_eq m H)) by lia. lia.
Qed.

Lemma mant_value m : Z.pos m < 2 ^ 53 -> same_value (Z.pos (mant m)) (expo m) (Z.pos m) 0.
Proof.
  intros H. pose proof (small_digits m H). exists (expo m). unfold expo. split_and!; [lia|lia|].
  rewrite mant_eq by done. rewrite Z.sub_diag, Z.pow_0_r. 
  replace (0 - (Z.pos (digits2_pos m) - 53)) with (53 - Z.pos (digits2_pos m)) by lia. lia.
Qed.

Lemma double_of_pos m : Z.pos m < 2 ^ 53 -> double_of_int (Z.pos m) = S754_finite false (mant m) (expo m).
Proof. intros H. apply binary_round_exact; [by apply normal_mant|by apply same_value_sym, mant_value]. Qed.

Lemma double_of_neg m : Z.pos m < 2 ^ 53 -> double_of_int (Z.neg m) = S754_finite true (mant m) (expo m).
Proof. intros H. apply binary_round_exact; [by apply normal_mant|by apply same_value_sym, mant_value]. Qed.

(** [binary_normalize] of an integer scaled up. *)
Lemma normalize_scaled z e : small z -> e <= 0 -> binary_normalize 53 1024 (z * 2 ^ (- e)) e false = double_of_int z.
Proof.
  intros Hz He. pose proof (Z.pow_pos_nonneg 2 (- e)) as Hp.
  assert (Hs : forall m m', Z.pos m < 2 ^ 53 -> Z.pos m' = Z.pos m * 2 ^ (- e) -> same_value (Z.pos m') e (Z.pos (mant m)) (expo m)).
  { intros m m' Hm Hm'. destruct (mant_value m Hm) as (k & Hk1 & Hk2 & Hk). exists (Z.min k e). split_and!; [lia|lia|].
    rewrite Hm'. replace (expo m - k) with (expo m - k) in Hk by lia.
    replace (expo m - Z.min k e) with (expo m - k + (k - Z.min k e)) by lia.
    rewrite Z.pow_add_r, Z.mul_assoc, Hk by lia. rewrite <- !Z.mul_assoc, <- !Z.pow_add_r by lia. do 2 f_equal. lia. }
  unfold small in Hz. destruct z as [|m|m]; [done| |].
  - destruct (Z.pos m * 2 ^ (- e)) as [|m'|m'] eqn:Em; [lia| |lia]. cbn [binary_normalize].
    rewrite double_of_pos by lia. apply binary_round_exact; [apply normal_mant; lia|]. apply Hs; lia.
  - destruct (Z.neg m * 2 ^ (- e)) as [|m'|m'] eqn:Em; [lia|lia|]. cbn [binary_normalize].
    rewrite double_of_neg by lia. apply binary_round_exact; [apply normal_mant; lia|]. apply Hs; lia.
Qed.
Lemma shl_align_le m e e' : e' <= e -> Z.pos (fst (shl_align m e e')) = Z.pos m * 2 ^ (e - e').
Proof.
  intros He. unfold shl_align. destruct (e' - e) as [|d|d] eqn:Ed; [|lia|]; cbn [fst].
  - replace (e - e') with 0 by lia. lia.
  - replace (e - e') with (Z.pos d) by lia. apply iter_xO.
Qed.

Lemma expo_le m : Z.pos m < 2 ^ 53 -> expo m <= 0.
Proof. intros H%small_digits. unfold expo. lia. Qed.

Lemma mant_shift m e : Z.pos m < 2 ^ 53 -> e <= expo m -> Z.pos (mant m) * 2 ^ (expo m - e) = Z.pos m * 2 ^ (- e).
Proof.
  intros H He. pose proof (expo_le m H). pose proof (small_digits m H). unfold expo in *. rewrite mant_eq by done.
  rewrite <- Z.mul_assoc, <- Z.pow_add_r by lia. do 2 f_equal. lia.
Qed.

(** A double that is an integer: its sign, mantissa and exponent, or zero. *)
Lemma double_of_int_cases z : small z ->
  (z = 0 /\ double_of_int z = S754_zero false) \/
  (exists s m, z = cond_Zopp s (Z.pos m) /\ Z.pos m < 2 ^ 53 /\ double_of_int z = S754_finite s (mant m) (expo m)).
Proof.
  unfold small. intros Hz. destruct z as [|m|m]; [by left|right..].
  - exists false, m. split_and!; [done|lia|]. apply double_of_pos. lia.
  - exists true, m. split_and!; [done|lia|]. apply double_of_neg. lia.
Qed.

Lemma add_exact a b : small a -> small b -> small (a + b) ->
  SFadd 53 1024 (double_of_int a) (double_of_int b) = double_of_int (a + b).
Proof.
  intros Ha Hb Hab.
  destruct (double_of_int_cases a Ha) as [[-> Ea]|(sa & ma & -> & Hma & Ea)]; rewrite Ea.
  { destruct (double_of_int_cases b Hb) as [[-> Eb]|(sb & mb & -> & Hmb & Eb)]; rewrite ?Z.add_0_l, Eb; done. }
  destruct (double_of_int_cases b Hb) as [[-> Eb]|(sb & mb & -> & Hmb & Eb)]; rewrite Eb.
  { by rewrite Z.add_0_r, Ea. }
  cbn [SFadd]. cbv zeta. pose proof (expo_le ma Hma). rewrite !shl_align_le by lia.
  rewrite !mant_shift by (done || lia).
  assert (Hc : forall s x k, cond_Zopp s (x * k) = cond_Zopp s x * k) by (intros [] x k; simpl; lia).
  rewrite !Hc, <- Z.mul_add_distr_r. apply normalize_scaled; [done|lia].
Qed.

Lemma mul_exact a b : small a -> small b -> small (a * b) -> 0 < b ->
  SFmul 53 1024 (double_of_int a) (double_of_int b) = double_of_int (a * b).
Proof.
  intros Ha Hb Hab Hb0.
  destruct (double_of_int_cases b Hb) as [[-> _]|(sb & mb & Hbm & Hmb & Eb)]; [lia|]. rewrite Eb.
  destruct sb; simpl in Hbm; [lia|]. subst b.
  destruct (double_of_int_cases a Ha) as [[-> Ea]|(sa & ma & -> & Hma & Ea)]; rewrite Ea; [done|].
  assert (Hp : Z.pos (ma * mb) < 2 ^ 53) by (unfold small in Hab; destruct sa; simpl in Hab; lia).
  assert (Hr : double_of_int (cond_Zopp sa (Z.pos ma) * Z.pos mb) = S754_finite sa (mant (ma * mb)) (expo (ma * mb))).
  { destruct sa; simpl; [by apply double_of_neg|by apply double_of_pos]. }
  rewrite Hr. cbn [SFmul]. replace (xorb sa false) with sa by by destruct sa.
  pose proof (digits2_range ma). pose proof (digits2_range mb). pose proof (digits2_range (ma * mb)).
  pose proof (small_digits _ Hma). pose proof (small_digits _ Hmb).
  assert (Hge : Z.pos (digits2_pos ma) + Z.pos (digits2_pos mb) - 2 < Z.pos (digits2_pos (ma * mb))).
  { apply (Z.pow_lt_mono_r_iff 2); [lia|lia|].
    replace (Z.pos (digits2_pos ma) + Z.pos (digits2_pos mb) - 2) with ((Z.pos (digits2_pos ma) - 1) + (Z.pos (digits2_pos mb) - 1)) by lia.
    rewrite Z.pow_add_r by lia. nia. }
  assert (Hle : expo ma + expo mb <= expo (ma * mb)) by (unfold expo; lia).
  apply round_aux_exact; [by apply normal_mant|done|].
  rewrite mant_shift by done. rewrite !Pos2Z.inj_mul, !mant_eq by done. unfold expo.
  replace (- (Z.pos (digits2_pos ma) - 53 + (Z.pos (digits2_pos mb) - 53)))
    with ((53 - Z.pos (digits2_pos ma)) + (53 - Z.pos (digits2_pos mb))) by lia.
  rewrite Z.pow_add_r by lia. ring.
Qed.

(** The range of [int]. *)
Definition is_int (z : Z) : Prop := -2147483648 <= z <= 2147483647.

Lemma int_of_double_of_int z : is_int z -> int_of_double (double_of_int z) = z.
Proof.
  unfold is_int. intros Hz. assert (Hs : small z) by (unfold small; lia).
  destruct (double_of_int_cases z Hs) as [[-> ->]|(s & m & -> & Hm & ->)]; [done|]. cbn [int_of_double]. cbv zeta.
  assert (Ha : (if decide (0 <= expo m) then Z.shiftl (Z.pos (mant m)) (expo m) else Z.shiftr (Z.pos (mant m)) (- expo m)) = Z.pos m).
  { pose proof (expo_le m Hm). pose proof (small_digits m Hm). 
    assert (E : Z.pos (mant m) = Z.pos m * 2 ^ (- expo m)) by (rewrite mant_eq by done; unfold expo; do 2 f_equal; lia).
    rewrite E. case_decide.
    - replace (expo m) with 0 by lia. simpl. by rewrite Z.mul_1_r.
    - rewrite Z.shiftr_div_pow2 by lia. apply Z.div_mul. pose proof (Z.pow_pos_nonneg 2 (- expo m)). lia. }
  rewrite Ha. destruct s; simpl in *; lia.
Qed.
Lemma compare_mant a b : Z.pos a < 2 ^ 53 -> Z.pos b < 2 ^ 53 ->
  match Z.compare (expo a) (expo b) with Lt => Lt | Gt => Gt | Eq => Pos.compare_cont Eq (mant a) (mant b) end = Z.compare (Z.pos a) (Z.pos b).
Proof.
  intros Ha Hb. pose proof (digits2_range a). pose proof (digits2_range b).
  pose proof (small_digits a Ha). pose proof (small_digits b Hb). unfold expo.
  destruct (Z.compare_spec (Z.pos (digits2_pos a) - 53) (Z.pos (digits2_pos b) - 53)) as [He|He|He].
  - change (Pos.compare_cont Eq (mant a) (mant b)) with (Z.compare (Z.pos (mant a)) (Z.pos (mant b))).
    rewrite !mant_eq by done. replace (Z.pos (digits2_pos b)) with (Z.pos (digits2_pos a)) by lia.
    rewrite <- Zmult_compare_compat_r; [done|]. pose proof (Z.pow_pos_nonneg 2 (53 - Z.pos (digits2_pos a))). lia.
  - symmetry. apply Z.compare_lt_iff.
    assert (2 ^ Z.pos (digits2_pos a) <= 2 ^ (Z.pos (digits2_pos b) - 1)) by (apply Z.pow_le_mono_r; lia). lia.
  - symmetry. apply Z.compare_gt_iff.
    assert (2 ^ Z.pos (digits2_pos b) <= 2 ^ (Z.pos (digits2_pos a) - 1)) by (apply Z.pow_le_mono_r; lia). lia.
Qed.

Lemma compare_exact a b : small a -> small b -> SFcompare (double_of_int a) (double_of_int b) = Some (a ?= b).
Proof.
  intros Ha Hb.
  destruct (double_of_int_cases a Ha) as [[-> Ea]|(sa & ma & -> & Hma & Ea)],
    (double_of_int_cases b Hb) as [[-> Eb]|(sb & mb & -> & Hmb & Eb)]; rewrite ?Ea, ?Eb; cbn [SFcompare]; try done.
  - by destruct sb.
  - by destruct sa.
  - f_equal. pose proof (compare_mant ma mb Hma Hmb) as Hc. destruct sa, sb; simpl in *; try done.
    revert Hc. by destruct (expo ma ?= expo mb); intros <-.
Qed.

(** Subtracting an integer from itself. *)
Lemma sub_same z : small z -> SFsub 53 1024 (double_of_int z) (double_of_int z) = S754_zero false.
Proof.
  intros Hz. destruct (double_of_int_cases z Hz) as [[-> E]|(s & m & -> & Hm & E)]; rewrite E; [done|].
  cbn [SFsub]. cbv zeta. set (x := cond_Zopp _ _). by rewrite Z.sub_diag.
Qed.

Lemma eqb_exact a b : small a -> small b -> SFeqb (double_of_int a) (double_of_int b) = (a =? b).
Proof. intros Ha Hb. unfold SFeqb. rewrite compare_exact by done. by rewrite Z.eqb_compare. Qed.

Lemma leb_exact a b : small a -> small b -> SFleb (double_of_int a) (double_of_int b) = (a <=? b).
Proof. intros Ha Hb. unfold SFleb. rewrite compare_exact by done. unfold Z.leb. by destruct (a ?= b). Qed.

(** ** The logarithm of ten *)

(** The table of [lib_expi] is long enough. *)
Lemma lib_expi_total n : 0 <= n -> is_Some (lib_expi n).
Proof.
  intros Hn. unfold lib_expi. case_decide as Hle; [by eexists|].
  assert (H : forallb (fun k => match expi_loop g_expi_square_tbl 0 (Z.of_nat k) (double_of_int 1) with Some _ => true | None => false end) (seq 0 710) = true)
    by (vm_compute; reflexivity).
  rewrite forallb_forall in H. specialize (H (Z.to_nat n)). rewrite Z2Nat.id in H by lia.
  destruct (expi_loop _ _ _ _); [by eexists|]. discriminate H. apply in_seq. lia.
Qed.

Lemma size_of_double_nonneg d : 0 <= size_of_double d.
Proof.
  destruct d as [| [] | |[] m e]; simpl; try lia. apply Z.min_glb; [lia|].
  case_decide; [by apply Z.shiftl_nonneg|by apply Z.shiftr_nonneg].
Qed.

Lemma exp_total x : is_Some (exp x).
Proof.
  unfold exp. destruct (SFeqb x fzero); [by eexists|]. cbv zeta.
  destruct (fold_left _ _ _) as [value x0].
  destruct (lib_expi_total (size_of_double (if SFltb x fzero then SFopp x else x)) (size_of_double_nonneg _)) as [e ->].
  by eexists.
Qed.

(** The iteration for ten ends. *)
Lemma log_ten : log 100 (double_of_int 10) = Some (S754_finite false 5184960683398422 (-51)).
Proof. vm_compute. reflexivity. Qed.

Lemma pow_ten_zero : pow 100 (double_of_int 10) fzero = Some (double_of_int 1).
Proof. unfold pow. rewrite log_ten. reflexivity. Qed.
