(* ===== verification/Env.v ===== *)
(** * Tasks and the devices they talk to

    The application tasks are sequential C code over NuttX system calls.  A
    task is a function on its own globals and on the trace of system calls made
    so far; the drivers behind the calls are a parameter, the class [Device],
    whose answers may depend on the whole trace.  A theorem that holds for every
    [Device] holds whatever the modem, the RS485 slaves and the pins do.

    The outcome of a task is a value, undefined behaviour (an array overrun, a
    string without its NUL, an [fd_set] indexed outside its bits) or exhausted
    fuel; the weakest precondition [wp] asks for a value, so a [wp] theorem is
    one of termination and of absence of undefined behaviour too. *)

From S2P Require Import Prelude.

(** ** System calls *)

(** The commands of [ioctl] and [boardctl] the tasks use, by name. *)
Inductive ioctl_cmd := GPIOC_READ | GPIOC_WRITE | GPIOC_REGISTER | GPIOC_UNREGISTER | GPIOC_PINTYPE.
Inductive board_cmd := BOARDIOC_GPRS_PWROFF | BOARDIOC_GPRS_PWRON | BOARDIOC_GPRS_WAKEUP.

Inductive event :=
| EvOpen (path : string) (fd : Z)
| EvClose (fd : Z)
| EvWrite (fd : Z) (data : list Z) (ret : Z)
| EvRead (fd : Z) (data : option (list Z))
| EvSelect (fds : list Z) (sec : Z) (ret : Z)
| EvFlush (fd : Z)
| EvIoctl (fd : Z) (cmd : ioctl_cmd) (arg : Z) (ret : Z)
| EvSigwait (signo : Z) (sec : Z) (ret : Z)
| EvBoard (cmd : board_cmd)
| EvSleep (usec : Z).

#[global] Instance ioctl_cmd_eq_dec : EqDecision ioctl_cmd.
Proof. solve_decision. Defined.
#[global] Instance board_cmd_eq_dec : EqDecision board_cmd.
Proof. solve_decision. Defined.
#[global] Instance event_eq_dec : EqDecision event.
Proof. solve_decision. Defined.

(** Newest event first. *)
Notation trace := (list event).

(** The drivers: what a call answers after a trace. [dev_read] is [None] for a
    failed read; [dev_select] gives the return value and the descriptors left in
    the set, [dev_ioctl] the return value and what is stored through the
    argument of a query. *)
Class Device := {
  dev_open : trace -> string -> Z;
  dev_write : trace -> Z -> list Z -> Z;
  dev_read : trace -> Z -> Z -> option (list Z);
  dev_select : trace -> list Z -> Z -> Z * list Z;
  dev_ioctl : trace -> Z -> ioctl_cmd -> Z -> Z * Z;
  dev_sigtimedwait : trace -> Z -> Z -> Z
}.

(** What the calls document: a read delivers at most the bytes asked for. *)
Class DeviceLaws (D : Device) := {
  dev_read_fits t fd n l : dev_read t fd n = Some l -> Z.of_nat (length l) <= n;
  dev_read_bytes t fd n l : dev_read t fd n = Some l -> bytes l
}.

(** ** The task monad *)

Inductive outcome (A : Type) :=
| Ret (a : A)
| Undefined
| OutOfFuel.
Arguments Ret {A} a.
Arguments Undefined {A}.
Arguments OutOfFuel {A}.

Definition io (S A : Type) : Type := S -> trace -> outcome (A * S * trace).

#[global] Instance io_ret {S} : MRet (io S) := fun A a s t => Ret (a, s, t).
#[global] Instance io_bind {S} : MBind (io S) := fun A B k m s t =>
  match m s t with
  | Ret (a, s', t') => k a s' t'
  | Undefined => Undefined
  | OutOfFuel => OutOfFuel
  end.

Definition gets {S A} (f : S -> A) : io S A := fun s t => Ret (f s, s, t).
Definition modify {S} (f : S -> S) : io S () := fun s t => Ret ((), f s, t).
Definition undefined {S A} : io S A := fun s t => Undefined.
Definition of_option {S A} (o : option A) : io S A :=
  match o with Some a => mret a | None => undefined end.

(** A loop whose body says whether to go round again ([inl]) or to leave
    ([inr]). *)
Fixpoint loop {S A B} (fuel : nat) (body : A -> io S (A + B)) (a : A) : io S B :=
  match fuel with
  | O => fun s t => OutOfFuel
  | Datatypes.S fuel =>
      r ← body a;
      match r with
      | inl a' => loop fuel body a'
      | inr b => mret b
      end
  end.

Section calls.
Context `{D : Device} {S : Type}.

Definition emit (e : event) : io S () := fun s t => Ret ((), s, e :: t).

Definition io_open (path : string) : io S Z := fun s t =>
  let fd := dev_open t path in Ret (fd, s, EvOpen path fd :: t).
Definition io_close (fd : Z) : io S () := emit (EvClose fd).
Definition io_write (fd : Z) (data : list Z) : io S Z := fun s t =>
  let r := dev_write t fd data in Ret (r, s, EvWrite fd data r :: t).
Definition io_read (fd n : Z) : io S (option (list Z)) := fun s t =>
  let r := dev_read t fd n in Ret (r, s, EvRead fd r :: t).
Definition tcflush (fd : Z) : io S () := emit (EvFlush fd).
Definition io_ioctl (fd : Z) (cmd : ioctl_cmd) (arg : Z) : io S (Z * Z) := fun s t =>
  let r := dev_ioctl t fd cmd arg in Ret (r, s, EvIoctl fd cmd arg (r.1) :: t).
Definition sigtimedwait (signo sec : Z) : io S Z := fun s t =>
  let r := dev_sigtimedwait t signo sec in Ret (r, s, EvSigwait signo sec r :: t).
Definition boardctl (cmd : board_cmd) : io S () := emit (EvBoard cmd).
Definition usleep (usec : Z) : io S () := emit (EvSleep usec).

(** An [fd_set] of 16 descriptors is one 32-bit word: [FD_SET] on any other
    descriptor writes outside it. *)
Definition fd_set_ok (fd : Z) : Prop := 0 <= fd < 32.
#[global] Instance fd_set_ok_dec fd : Decision (fd_set_ok fd).
Proof. unfold fd_set_ok. apply _. Defined.

(** [FD_ZERO], [FD_SET] of every descriptor, [select] for reading with a
    timeout in seconds: the return value and the descriptors left set. *)
Definition select_read (fds : list Z) (sec : Z) : io S (Z * list Z) := fun s t =>
  if decide (Forall fd_set_ok fds) then
    let r := dev_select t fds sec in Ret (r, s, EvSelect fds sec (r.1) :: t)
  else Undefined.
End calls.

(** [read] into an array of [n] zeroed bytes; a failed read leaves it zero. *)
Definition fill (n : nat) (r : option (list Z)) : list Z :=
  match r with
  | Some l => l ++ replicate (n - length l) 0
  | None => replicate n 0
  end.

(** A read that leaves room leaves a string. *)
Lemma c_str_fill n l : (length l < n)%nat -> is_Some (c_str (fill n (Some l))).
Proof.
  intros H. apply c_str_in, elem_of_app. right. apply elem_of_replicate. lia.
Qed.

Lemma c_str_fill_None n : (0 < n)%nat -> c_str (fill n None) = Some [].
Proof. by destruct n; [lia|]. Qed.

(** ** Weakest preconditions *)

Definition wp {S A} (m : io S A) (Q : A -> S -> trace -> Prop) (s : S) (t : trace) : Prop :=
  match m s t with
  | Ret (a, s', t') => Q a s' t'
  | _ => False
  end.

Section wp_rules.
Context {S : Type}.

Lemma wp_ret {A} (a : A) (Q : A -> S -> trace -> Prop) s t :
  Q a s t -> wp (mret a) Q s t.
Proof. done. Qed.

Lemma wp_bind {A B} (m : io S A) (k : A -> io S B) Q s t :
  wp m (fun a => wp (k a) Q) s t -> wp (m ≫= k) Q s t.
Proof.
  unfold wp, mbind, io_bind. destruct (m s t) as [[[a s'] t']| |]; done.
Qed.

(** Two steps taken as one. *)
Lemma wp_assoc {A B C} (m1 : io S A) (m2 : io S B) (k : io S C) Q s t :
  wp (m1;; m2) (fun _ => wp k Q) s t -> wp (m1;; m2;; k) Q s t.
Proof.
  unfold wp, mbind, io_bind. destruct (m1 s t) as [[[a s'] t']| |]; [|done|done].
  by destruct (m2 s' t') as [[[b s2] t2]| |].
Qed.

Lemma wp_mono {A} (m : io S A) (Q R : A -> S -> trace -> Prop) s t :
  wp m Q s t -> (forall a s' t', Q a s' t' -> R a s' t') -> wp m R s t.
Proof. unfold wp. destruct (m s t) as [[[a s'] t']| |]; naive_solver. Qed.

Lemma wp_and {A} (m : io S A) (Q R : A -> S -> trace -> Prop) s t :
  wp m Q s t -> wp m R s t -> wp m (fun a s' t' => Q a s' t' /\ R a s' t') s t.
Proof. unfold wp. destruct (m s t) as [[[a s'] t']| |]; done. Qed.

Lemma wp_gets {A} (f : S -> A) (Q : A -> S -> trace -> Prop) s t :
  Q (f s) s t -> wp (gets f) Q s t.
Proof. done. Qed.

Lemma wp_modify (f : S -> S) (Q : () -> S -> trace -> Prop) s t :
  Q () (f s) t -> wp (modify f) Q s t.
Proof. done. Qed.

Lemma wp_of_option {A} (o : option A) a (Q : A -> S -> trace -> Prop) s t :
  o = Some a -> Q a s t -> wp (of_option o) Q s t.
Proof. by intros ->. Qed.

(** A loop with a measure that the body decreases returns. *)
Lemma wp_loop {A B} (I : A -> S -> trace -> Prop) (size : A -> S -> nat)
    (body : A -> io S (A + B)) (Q : B -> S -> trace -> Prop) :
  (forall a s t, I a s t ->
    wp (body a) (fun r s' t' =>
      match r with
      | inl a' => I a' s' t' /\ (size a' s' < size a s)%nat
      | inr b => Q b s' t'
      end) s t) ->
  forall fuel a s t, I a s t -> (size a s < fuel)%nat -> wp (loop fuel body a) Q s t.
Proof.
  intros Hbody. induction fuel as [|fuel IH]; intros a s t HI Hf; [lia|].
  simpl. apply wp_bind. eapply wp_mono; [by apply Hbody|].
  intros [a'|b] s' t'; [|done]. intros [HI' Hlt]. apply IH; [done|lia].
Qed.

(** What a task emitted is in front of the trace it started from. *)
Definition extends (t t' : trace) : Prop := exists new, t' = new ++ t.

#[global] Instance extends_preorder : PreOrder extends.
Proof.
  split; [by exists []|]. intros t1 t2 t3 [a ->] [b ->]. exists (b ++ a).
  by rewrite (assoc_L app).
Qed.
End wp_rules.

(** ** What a trace says *)

(** The byte strings written to a descriptor, oldest first. *)
Fixpoint sent (fd : Z) (t : trace) : list (list Z) :=
  match t with
  | [] => []
  | EvWrite fd' d _ :: t' => if decide (fd' = fd) then sent fd t' ++ [d] else sent fd t'
  | _ :: t' => sent fd t'
  end.

Definition is_write (e : event) : bool :=
  match e with EvWrite _ _ _ => true | _ => false end.

Lemma sent_app fd a b : sent fd (a ++ b) = sent fd b ++ sent fd a.
Proof.
  induction a as [|e a IH]; simpl; [by rewrite app_nil_r|].
  destruct e; try done. case_decide; [|done]. by rewrite IH, <- (assoc_L app).
Qed.

Section wp_calls.
Context `{D : Device} {S : Type}.

Lemma wp_emit e (Q : () -> S -> trace -> Prop) s t : Q () s (e :: t) -> wp (emit e) Q s t.
Proof. done. Qed.

Lemma wp_open path (Q : Z -> S -> trace -> Prop) s t :
  (let fd := dev_open t path in Q fd s (EvOpen path fd :: t)) -> wp (io_open path) Q s t.
Proof. done. Qed.

Lemma wp_write fd d (Q : Z -> S -> trace -> Prop) s t :
  (let r := dev_write t fd d in Q r s (EvWrite fd d r :: t)) -> wp (io_write fd d) Q s t.
Proof. done. Qed.

Lemma wp_read fd n (Q : option (list Z) -> S -> trace -> Prop) s t :
  (let r := dev_read t fd n in Q r s (EvRead fd r :: t)) -> wp (io_read fd n) Q s t.
Proof. done. Qed.

Lemma wp_select fds sec (Q : Z * list Z -> S -> trace -> Prop) s t :
  Forall fd_set_ok fds ->
  (let r := dev_select t fds sec in Q r s (EvSelect fds sec (r.1) :: t)) ->
  wp (select_read fds sec) Q s t.
Proof. intros H HQ. unfold wp, select_read. by rewrite decide_True. Qed.

Lemma wp_ioctl fd cmd arg (Q : Z * Z -> S -> trace -> Prop) s t :
  (let r := dev_ioctl t fd cmd arg in Q r s (EvIoctl fd cmd arg (r.1) :: t)) ->
  wp (io_ioctl fd cmd arg) Q s t.
Proof. done. Qed.
End wp_calls.

(** Step through the program of a [wp] goal. *)
Ltac wp_step :=
  lazymatch goal with
  | |- wp (_ ≫= _) _ _ _ => apply wp_bind
  | |- wp (mret _) _ _ _ => apply wp_ret
  | |- wp (gets _) _ _ _ => apply wp_gets
  | |- wp (modify _) _ _ _ => apply wp_modify
  | |- wp (emit _) _ _ _ => apply wp_emit
  | |- wp (usleep _) _ _ _ => apply wp_emit
  | |- wp (tcflush _) _ _ _ => apply wp_emit
  | |- wp (io_close _) _ _ _ => apply wp_emit
  | |- wp (boardctl _) _ _ _ => apply wp_emit
  | |- wp (io_open _) _ _ _ => apply wp_open
  | |- wp (io_write _ _) _ _ _ => apply wp_write
  | |- wp (io_read _ _) _ _ _ => apply wp_read
  | |- wp (io_ioctl _ _ _) _ _ _ => apply wp_ioctl
  | |- wp (of_option (Some _)) _ _ _ => apply wp_ret
  end; cbv beta zeta.

Ltac wp_steps := repeat wp_step.

(** Split on the condition the program of a [wp] goal branches on. *)
Tactic Notation "wp_if" "as" simple_intropattern(H) :=
  lazymatch goal with
  | |- wp (if decide ?P then _ else _) _ _ _ => destruct (decide P) as H
  | |- wp ((if decide ?P then _ else _) ≫= _) _ _ _ => destruct (decide P) as H
  end.
