(* ===== verification/Gpio.v ===== *)
(** * GPIO access

    Models src/apps/examples/NB_Iot/GPIO.c.  The functions take the address of
    the caller's descriptor; here they take its value and give back the value
    they leave there. *)

From S2P Require Import Prelude Env.

Definition EXIT_SUCCESS : Z := 0.
Definition EXIT_FAILURE : Z := 1.

Section gpio.
Context `{D : Device} {S : Type}.

(** Returns the level, or [EXIT_FAILURE] after closing the descriptor. *)
Definition GPIO_read (fd : Z) : io S (Z * Z) :=
  r ← io_ioctl fd GPIOC_READ 0;
  if decide (r.1 < 0) then
    io_close fd;; mret (EXIT_FAILURE, -1)
  else mret ((if decide (r.2 = 0) then 0 else 1), fd).

Definition GPIO_write (fd : Z) (outvalue : bool) : io S (Z * Z) :=
  r ← io_ioctl fd GPIOC_WRITE (if outvalue then 1 else 0);
  if decide (r.1 < 0) then
    io_close fd;; mret (EXIT_FAILURE, -1)
  else mret (0, fd).

(** [fd_addr] is the address of the descriptor: the last [ioctl] is given the
    pointer where it should be given the descriptor. *)
Definition GPIO_INTERRUPT (fd_addr fd signo sec : Z) : io S (Z * Z) :=
  r ← io_ioctl fd GPIOC_REGISTER signo;
  if decide (r.1 < 0) then
    io_close fd;; mret (EXIT_FAILURE, fd)
  else
    ret ← sigtimedwait signo sec;
    io_ioctl fd_addr GPIOC_UNREGISTER 1;;
    mret (ret, fd).
End gpio.

Section facts.
Context `{D : Device} {S : Type}.

Lemma wp_GPIO_write fd (v : bool) (Q : Z * Z -> S -> trace -> Prop) s t :
  (forall ret, 0 <= ret ->
    Q (0, fd) s (EvIoctl fd GPIOC_WRITE (if v then 1 else 0) ret :: t)) ->
  (forall ret, ret < 0 ->
    Q (EXIT_FAILURE, -1) s
      (EvClose fd :: EvIoctl fd GPIOC_WRITE (if v then 1 else 0) ret :: t)) ->
  wp (GPIO_write fd v) Q s t.
Proof.
  intros Hok Hfail. unfold GPIO_write. wp_steps.
  case_decide; wp_steps; [by apply Hfail|]. apply Hok. lia.
Qed.
End facts.
