(* ===== verification/DeviceInfo.v ===== *)
(** * The device record

    Models the record of src/apps/examples/NB_Iot/DeviceInfo.h and the
    initialiser and setters of DeviceInfo.c.  The record is the only state the
    modem task and the RS485 task share. *)

From S2P Require Import Prelude.

Record DEVICEINFO := mkDEVICEINFO {
  BaseName : list Z;          (* char[64] *)
  GUID : list Z;              (* char[36] *)
  Address : list Z;           (* char[128] *)
  Switch : list Z;            (* char[4] *)
  BaseTemperature : Z;        (* short, as are the next five *)
  LedTemperature : Z;
  Brightness : Z;
  ColorTemperature : Z;
  Voltage : Z;
  Current : Z
}.

(** [memset] of the whole record, then the four [strcpy]s; a string that does
    not fit its array is undefined behaviour. *)
Definition DeviceInfoInit : option DEVICEINFO :=
  base ← store_str (replicate 64 0) 0 (bs "TESTBase");
  address ← store_str (replicate 128 0) 0 (bs "TESAddressT");
  guid ← store_str (replicate 36 0) 0 (bs "B123456789012345678901234567890B");
  switch ← store_str (replicate 4 0) 0 (bs "OFF");
  Some (mkDEVICEINFO base guid address switch 0 0 0 0 0 0).

Definition setDeviceInfoGUID (g : list Z) (d : DEVICEINFO) : option DEVICEINFO :=
  guid ← store_str (GUID d) 0 g;
  Some (mkDEVICEINFO (BaseName d) guid (Address d) (Switch d) (BaseTemperature d)
    (LedTemperature d) (Brightness d) (ColorTemperature d) (Voltage d) (Current d)).

Definition setDeviceInfoBaseTemperature (v : Z) (d : DEVICEINFO) : DEVICEINFO :=
  mkDEVICEINFO (BaseName d) (GUID d) (Address d) (Switch d) (s16 v)
    (LedTemperature d) (Brightness d) (ColorTemperature d) (Voltage d) (Current d).

Definition setDeviceInfoLedTemperature (v : Z) (d : DEVICEINFO) : DEVICEINFO :=
  mkDEVICEINFO (BaseName d) (GUID d) (Address d) (Switch d) (BaseTemperature d)
    (s16 v) (Brightness d) (ColorTemperature d) (Voltage d) (Current d).

Definition setDeviceInfoBrightness (v : Z) (d : DEVICEINFO) : DEVICEINFO :=
  mkDEVICEINFO (BaseName d) (GUID d) (Address d) (Switch d) (BaseTemperature d)
    (LedTemperature d) (s16 v) (ColorTemperature d) (Voltage d) (Current d).

Definition setDeviceInfoColorTemperature (v : Z) (d : DEVICEINFO) : DEVICEINFO :=
  mkDEVICEINFO (BaseName d) (GUID d) (Address d) (Switch d) (BaseTemperature d)
    (LedTemperature d) (Brightness d) (s16 v) (Voltage d) (Current d).

Definition setDeviceInfoVoltage (v : Z) (d : DEVICEINFO) : DEVICEINFO :=
  mkDEVICEINFO (BaseName d) (GUID d) (Address d) (Switch d) (BaseTemperature d)
    (LedTemperature d) (Brightness d) (ColorTemperature d) (s16 v) (Current d).

Definition setDeviceInfoCurrent (v : Z) (d : DEVICEINFO) : DEVICEINFO :=
  mkDEVICEINFO (BaseName d) (GUID d) (Address d) (Switch d) (BaseTemperature d)
    (LedTemperature d) (Brightness d) (ColorTemperature d) (Voltage d) (s16 v).

(** ** Well-formed records *)

(** Every array has its declared size and holds a string; every number is a
    [short]. *)
Record info_ok (d : DEVICEINFO) : Prop := {
  ok_base : length (BaseName d) = 64%nat /\ is_Some (c_str (BaseName d)) /\ bytes (BaseName d);
  ok_guid : length (GUID d) = 36%nat /\ is_Some (c_str (GUID d)) /\ bytes (GUID d);
  ok_address : length (Address d) = 128%nat /\ is_Some (c_str (Address d)) /\ bytes (Address d);
  ok_switch : length (Switch d) = 4%nat /\ is_Some (c_str (Switch d)) /\ bytes (Switch d);
  ok_shorts : Forall is_short [BaseTemperature d; LedTemperature d; Brightness d;
                               ColorTemperature d; Voltage d; Current d]
}.
