(* ===== verification/Rs485Rx.v ===== *)
(** * RS485 frame receiver

    Models the receive side of src/apps/examples/NB_Iot/485.c: the frame state
    machine [comm2trm_RxUartData], [ClearCommFrame] and [process_poll].  A store
    outside [a_byRxBuf] or [Date] is undefined behaviour ([None]). *)

From S2P Require Import Prelude DeviceInfo.

(** ** The code *)

Definition COMM_TRM_HEAD : Z := 0x68.
Definition COMM_TRM_FIXED : Z := 0x45.
Definition COMM_TRM_TAIL : Z := 0x16.
Definition MAX_LEN_COMM_TRM_DATA : Z := 128.

Inductive COMM_TRM_STATUS :=
| STATUS_IDLE | STATUS_HEAD | STATUS_FIXED | STATUS_TYPE | STATUS_CMD0 | STATUS_CMD1
| STATUS_GUID | STATUS_CON0 | STATUS_CON1 | STATUS_DATA_LEN | STATUS_DATA | STATUS_CS
| STATUS_TAIL | STATUS_END.

#[global] Instance COMM_TRM_STATUS_eq_dec : EqDecision COMM_TRM_STATUS.
Proof. solve_decision. Defined.

Record COMM_TRM_DATA := mkComm {
  byCnt : Z;
  byDataLen : Z;
  byFrameLen : Z;
  eRxStatus : COMM_TRM_STATUS;
  a_byRxBuf : list Z;
  FG : Z;
  CMD0 : Z;
  CMD1 : Z;
  rxGUID : Z;
  GUIDCnt : Z;
  CON0 : Z;
  CON1 : Z;
  CS : Z;
  Date : list Z
}.

(** Field updates. *)
Definition set_status st c := mkComm (byCnt c) (byDataLen c) (byFrameLen c) st (a_byRxBuf c)
  (FG c) (CMD0 c) (CMD1 c) (rxGUID c) (GUIDCnt c) (CON0 c) (CON1 c) (CS c) (Date c).
Definition set_cnt n c := mkComm n (byDataLen c) (byFrameLen c) (eRxStatus c) (a_byRxBuf c)
  (FG c) (CMD0 c) (CMD1 c) (rxGUID c) (GUIDCnt c) (CON0 c) (CON1 c) (CS c) (Date c).
Definition set_datalen n c := mkComm (byCnt c) n (byFrameLen c) (eRxStatus c) (a_byRxBuf c)
  (FG c) (CMD0 c) (CMD1 c) (rxGUID c) (GUIDCnt c) (CON0 c) (CON1 c) (CS c) (Date c).
Definition set_rxbuf n b c := mkComm (byCnt c) (byDataLen c) n (eRxStatus c) b
  (FG c) (CMD0 c) (CMD1 c) (rxGUID c) (GUIDCnt c) (CON0 c) (CON1 c) (CS c) (Date c).
Definition set_FG x c := mkComm (byCnt c) (byDataLen c) (byFrameLen c) (eRxStatus c) (a_byRxBuf c)
  x (CMD0 c) (CMD1 c) (rxGUID c) (GUIDCnt c) (CON0 c) (CON1 c) (CS c) (Date c).
Definition set_CMD0 x c := mkComm (byCnt c) (byDataLen c) (byFrameLen c) (eRxStatus c) (a_byRxBuf c)
  (FG c) x (CMD1 c) (rxGUID c) (GUIDCnt c) (CON0 c) (CON1 c) (CS c) (Date c).
Definition set_CMD1 x c := mkComm (byCnt c) (byDataLen c) (byFrameLen c) (eRxStatus c) (a_byRxBuf c)
  (FG c) (CMD0 c) x (rxGUID c) (GUIDCnt c) (CON0 c) (CON1 c) (CS c) (Date c).
Definition set_GUID g n c := mkComm (byCnt c) (byDataLen c) (byFrameLen c) (eRxStatus c) (a_byRxBuf c)
  (FG c) (CMD0 c) (CMD1 c) g n (CON0 c) (CON1 c) (CS c) (Date c).
Definition set_CON0 x c := mkComm (byCnt c) (byDataLen c) (byFrameLen c) (eRxStatus c) (a_byRxBuf c)
  (FG c) (CMD0 c) (CMD1 c) (rxGUID c) (GUIDCnt c) x (CON1 c) (CS c) (Date c).
Definition set_CON1 x c := mkComm (byCnt c) (byDataLen c) (byFrameLen c) (eRxStatus c) (a_byRxBuf c)
  (FG c) (CMD0 c) (CMD1 c) (rxGUID c) (GUIDCnt c) (CON0 c) x (CS c) (Date c).
Definition set_CS x c := mkComm (byCnt c) (byDataLen c) (byFrameLen c) (eRxStatus c) (a_byRxBuf c)
  (FG c) (CMD0 c) (CMD1 c) (rxGUID c) (GUIDCnt c) (CON0 c) (CON1 c) x (Date c).
Definition set_Date x c := mkComm (byCnt c) (byDataLen c) (byFrameLen c) (eRxStatus c) (a_byRxBuf c)
  (FG c) (CMD0 c) (CMD1 c) (rxGUID c) (GUIDCnt c) (CON0 c) (CON1 c) (CS c) x.

(** [memset] of the whole record to zero. *)
Definition ClearCommFrame : COMM_TRM_DATA :=
  mkComm 0 0 0 STATUS_IDLE (replicate 128 0) 0 0 0 0 0 0 0 0 (replicate 128 0).

(** The four binary-coded digits of the first two data bytes, as a [short]. *)
Definition bcd4 (d0 d1 : Z) : Z :=
  s16 (Z.shiftr d0 4 * 1000 + Z.land d0 0x0f * 100 + Z.shiftr d1 4 * 10 + Z.land d1 0x0f).

(** The record printed by [process_poll] is left out; its effect is on the
    device record. *)
Definition process_poll (c : COMM_TRM_DATA) (d : DEVICEINFO) : option DEVICEINFO :=
  if decide (CON0 c = 0x11) then
    d0 ← aget (Date c) 0;
    d1 ← aget (Date c) 1;
    Some (setDeviceInfoLedTemperature (bcd4 d0 d1) d)
  else Some d.

(** The [switch] of [comm2trm_RxUartData]. *)
Inductive rx_action :=
| RxSave (c : COMM_TRM_DATA)                       (* break: save the byte *)
| RxFrame (f : COMM_TRM_DATA) (c : COMM_TRM_DATA)  (* process_poll on f, then save *)
| RxException.                                     (* goto rx_exception *)

Definition rx_switch (c : COMM_TRM_DATA) (byData : Z) : option rx_action :=
  match eRxStatus c with
  | STATUS_IDLE =>
      if decide (COMM_TRM_HEAD = byData) then Some (RxSave (set_status STATUS_HEAD c))
      else Some RxException
  | STATUS_HEAD =>
      if decide (COMM_TRM_FIXED = byData) then Some (RxSave (set_status STATUS_FIXED c))
      else Some RxException
  | STATUS_FIXED =>
      if decide (0x00 = byData) then Some (RxSave (set_FG byData (set_status STATUS_TYPE c)))
      else Some RxException
  | STATUS_TYPE => Some (RxSave (set_CMD0 byData (set_status STATUS_CMD0 c)))
  | STATUS_CMD0 =>
      Some (RxSave (set_GUID (rxGUID c) 0 (set_CMD1 byData (set_status STATUS_CMD1 c))))
  | STATUS_CMD1 =>
      if decide (0 = GUIDCnt c) then Some (RxSave (set_GUID byData (u8 (GUIDCnt c + 1)) c))
      else if decide (1 = GUIDCnt c) then
        Some (RxSave (set_status STATUS_GUID
          (set_GUID (u16 (Z.lor (Z.shiftl (rxGUID c) 8) byData)) (GUIDCnt c) c)))
      else Some RxException
  | STATUS_GUID => Some (RxSave (set_CON0 byData (set_status STATUS_CON0 c)))
  | STATUS_CON0 => Some (RxSave (set_CON1 byData (set_status STATUS_CON1 c)))
  | STATUS_CON1 =>
      if decide (byData <= MAX_LEN_COMM_TRM_DATA) then
        Some (RxSave (set_cnt 0 (set_datalen byData (set_status STATUS_DATA c))))
      else Some RxException
  | STATUS_DATA =>
      date ← aset (Date c) (byCnt c) byData;
      let c1 := set_cnt (u8 (byCnt c + 1)) (set_Date date c) in
      if decide (byCnt c1 < byDataLen c1) then Some (RxSave c1)
      else Some (RxSave (set_status STATUS_CS c1))
  | STATUS_CS => Some (RxSave (set_CS byData (set_status STATUS_TAIL c)))
  | STATUS_TAIL =>
      if decide (COMM_TRM_TAIL = byData) then Some (RxFrame c ClearCommFrame)
      else Some RxException
  | STATUS_DATA_LEN | STATUS_END => Some (RxSave c)
  end.

(** [a_byRxBuf[byFrameLen++] = byData] *)
Definition rx_save (c : COMM_TRM_DATA) (byData : Z) : option COMM_TRM_DATA :=
  buf ← aset (a_byRxBuf c) (byFrameLen c) byData;
  Some (set_rxbuf (u8 (byFrameLen c + 1)) buf c).

(** One byte: the new record and the frame handed to [process_poll], if any. *)
Definition rx_step (c : COMM_TRM_DATA) (byData : Z)
  : option (COMM_TRM_DATA * option COMM_TRM_DATA) :=
  act ← rx_switch c byData;
  match act with
  | RxSave c1 => c2 ← rx_save c1 byData; Some (c2, None)
  | RxFrame f c1 => c2 ← rx_save c1 byData; Some (c2, Some f)
  | RxException => Some (ClearCommFrame, None)
  end.

Definition comm2trm_RxUartData (st : COMM_TRM_DATA * DEVICEINFO) (byData : Z)
  : option (COMM_TRM_DATA * DEVICEINFO) :=
  let '(c, d) := st in
  r ← rx_step c byData;
  d' ← match r.2 with Some f => process_poll f d | None => Some d end;
  Some (r.1, d').

(** The loop that hands the received bytes on, one at a time. *)
Fixpoint rx_bytes (st : COMM_TRM_DATA * DEVICEINFO) (l : list Z)
  : option (COMM_TRM_DATA * DEVICEINFO) :=
  match l with
  | [] => Some st
  | b :: l' => st' ← comm2trm_RxUartData st b; rx_bytes st' l'
  end.

(** The same loop, collecting the frames handed to [process_poll]. *)
Fixpoint rx_run (c : COMM_TRM_DATA) (l : list Z) : option (COMM_TRM_DATA * list COMM_TRM_DATA) :=
  match l with
  | [] => Some (c, [])
  | b :: l' =>
      r ← rx_step c b;
      r' ← rx_run r.1 l';
      Some (r'.1, match r.2 with Some f => f :: r'.2 | None => r'.2 end)
  end.

(** ** The frame format *)

Record frame := mkFrame {
  f_cmd0 : Z; f_cmd1 : Z; f_guid1 : Z; f_guid2 : Z; f_con0 : Z; f_con1 : Z;
  f_len : Z; f_data : list Z; f_cs : Z
}.

Definition encode (f : frame) : list Z :=
  [COMM_TRM_HEAD; COMM_TRM_FIXED; 0; f_cmd0 f; f_cmd1 f; f_guid1 f; f_guid2 f;
   f_con0 f; f_con1 f; f_len f] ++ f_data f ++ [f_cs f; COMM_TRM_TAIL].

(** A length of zero still carries one data byte. *)
Record frame_ok (f : frame) : Prop := {
  fo_bytes : bytes (encode f);
  fo_len : f_len f <= MAX_LEN_COMM_TRM_DATA;
  fo_data : Z.of_nat (length (f_data f)) = Z.max 1 (f_len f)
}.

#[global] Instance frame_ok_dec f : Decision (frame_ok f).
Proof.
  refine (cast_if (decide (bytes (encode f) /\ f_len f <= MAX_LEN_COMM_TRM_DATA /\
    Z.of_nat (length (f_data f)) = Z.max 1 (f_len f)))); [abstract (split; tauto)|].
  abstract (intros []; tauto).
Defined.

(** The frame a record holds when it is handed to [process_poll]. *)
Definition frame_of (c : COMM_TRM_DATA) : frame :=
  mkFrame (CMD0 c) (CMD1 c) (rxGUID c / 256) (rxGUID c mod 256) (CON0 c) (CON1 c)
    (byDataLen c) (take (Z.to_nat (byCnt c)) (Date c)) (CS c).

(** The bytes of the frame in progress, read back from the record. *)
Definition partial (c : COMM_TRM_DATA) : list Z :=
  let data := take (Z.to_nat (byCnt c)) (Date c) in
  let g := [rxGUID c / 256; rxGUID c mod 256] in
  let h3 := [COMM_TRM_HEAD; COMM_TRM_FIXED; FG c] in
  let h10 := h3 ++ [CMD0 c; CMD1 c] ++ g ++ [CON0 c; CON1 c; byDataLen c] in
  match eRxStatus c with
  | STATUS_HEAD => [COMM_TRM_HEAD]
  | STATUS_FIXED => [COMM_TRM_HEAD; COMM_TRM_FIXED]
  | STATUS_TYPE => h3
  | STATUS_CMD0 => h3 ++ [CMD0 c]
  | STATUS_CMD1 => h3 ++ [CMD0 c; CMD1 c] ++ (if decide (GUIDCnt c = 0) then [] else [rxGUID c])
  | STATUS_GUID => h3 ++ [CMD0 c; CMD1 c] ++ g
  | STATUS_CON0 => h3 ++ [CMD0 c; CMD1 c] ++ g ++ [CON0 c]
  | STATUS_CON1 => h3 ++ [CMD0 c; CMD1 c] ++ g ++ [CON0 c; CON1 c]
  | STATUS_DATA | STATUS_CS => h10 ++ data
  | STATUS_TAIL => h10 ++ data ++ [CS c]
  | _ => []
  end.

(** ** The invariant of the receiver *)

Definition phase_ok (c : COMM_TRM_DATA) : Prop :=
  match eRxStatus c with
  | STATUS_IDLE | STATUS_HEAD | STATUS_FIXED => True
  | STATUS_CMD1 => FG c = 0 /\ (GUIDCnt c = 0 \/ GUIDCnt c = 1 /\ is_byte (rxGUID c))
  | STATUS_DATA => FG c = 0 /\ 0 <= byDataLen c <= 128 /\ 0 <= byCnt c < Z.max 1 (byDataLen c)
  | STATUS_CS | STATUS_TAIL => FG c = 0 /\ 0 <= byDataLen c <= 128 /\ byCnt c = Z.max 1 (byDataLen c)
  | STATUS_DATA_LEN | STATUS_END => False
  | _ => FG c = 0
  end.

Record rx_inv (c : COMM_TRM_DATA) : Prop := {
  ri_buf : length (a_byRxBuf c) = 128%nat;
  ri_date : length (Date c) = 128%nat;
  ri_phase : phase_ok c;
  (* the tail byte of the previous frame stays in front of this one *)
  ri_len : 0 <= byFrameLen c - Z.of_nat (length (partial c)) <= 1;
  ri_max : byFrameLen c <= 128
}.

Definition rx_idle (c : COMM_TRM_DATA) : Prop := rx_inv c /\ eRxStatus c = STATUS_IDLE.

Lemma clear_idle : rx_idle ClearCommFrame.
Proof. split; [split|]; simpl; done || lia. Qed.

Lemma rx_save_ok c b :
  length (a_byRxBuf c) = 128%nat -> 0 <= byFrameLen c < 128 ->
  exists buf, length buf = 128%nat /\ rx_save c b = Some (set_rxbuf (byFrameLen c + 1) buf c).
Proof.
  intros Hl Hr. unfold rx_save, aset. rewrite decide_True by lia. simpl.
  eexists. split; [by rewrite length_insert|].
  by rewrite u8_id by (unfold is_byte; lia).
Qed.

Lemma rx_save_None c b :
  length (a_byRxBuf c) = 128%nat -> 128 <= byFrameLen c -> rx_save c b = None.
Proof. intros Hl Hr. unfold rx_save. rewrite aset_None by lia. done. Qed.

(** What the [switch] does from a good record: it drops the frame in progress,
    adds the byte to it, or completes it. *)
Definition rx_good (c : COMM_TRM_DATA) (b : Z) (act : rx_action) : Prop :=
  match act with
  | RxException => True
  | RxSave c1 =>
      length (Date c1) = 128%nat /\ phase_ok c1 /\ partial c1 = partial c ++ [b] /\
      a_byRxBuf c1 = a_byRxBuf c /\ byFrameLen c1 = byFrameLen c
  | RxFrame f c1 =>
      f = c /\ eRxStatus c = STATUS_TAIL /\ b = COMM_TRM_TAIL /\ c1 = ClearCommFrame
  end.

Lemma guid_split g b : is_byte g -> is_byte b ->
  u16 (Z.lor (Z.shiftl g 8) b) / 256 = g /\ u16 (Z.lor (Z.shiftl g 8) b) mod 256 = b.
Proof.
  intros Hg Hb.
  assert (E : Z.lor (Z.shiftl g 8) b = g * 256 + b).
  { rewrite <- Z.add_lor_land. rewrite Z.shiftl_mul_pow2 by lia. change (2 ^ 8) with 256.
    enough (Z.land (g * 256) b = 0) by lia.
    apply Z.bits_inj'. intros i Hi. rewrite Z.bits_0, Z.land_spec.
    destruct (decide (i < 8)).
    - change 256 with (2 ^ 8). by rewrite Z.mul_pow2_bits_low by lia.
    - rewrite (Z.bits_above_log2 b), andb_false_r; [done| unfold is_byte in *; lia |].
      destruct (decide (b = 0)) as [->|]; [simpl; lia|].
      assert (Z.log2 b < 8) by (apply Z.log2_lt_pow2; unfold is_byte in *; lia). lia. }
  rewrite E. unfold u16. rewrite Z.mod_small by zlia. zlia.
Qed.

Lemma rx_switch_good c b : rx_inv c -> is_byte b ->
  exists act, rx_switch c b = Some act /\ rx_good c b act.
Proof.
  intros [Hbuf Hdate Hph Hlen _] Hb. unfold rx_good, rx_switch, phase_ok, partial in *.
  destruct (eRxStatus c) eqn:E; simpl in *; try done.
  - case_decide; eexists; (split; [done|]); simpl; subst; try done.
  - case_decide; eexists; (split; [done|]); simpl; subst; try done.
  - case_decide; eexists; (split; [done|]); simpl; subst; try done.
  - eexists; (split; [done|]); simpl; done.
  - eexists; (split; [done|]); simpl. split_and!; auto.
  - destruct Hph as [HF [H0 | [H1 Hg]]].
    + rewrite H0. simpl. eexists; (split; [done|]); simpl. rewrite E. simpl.
      split_and!; auto.
    + rewrite H1. simpl. eexists; (split; [done|]); simpl.
      destruct (guid_split _ _ Hg Hb) as [-> ->]. done.
  - eexists; (split; [done|]); simpl; done.
  - eexists; (split; [done|]); simpl; done.
  - unfold MAX_LEN_COMM_TRM_DATA. case_decide; eexists; (split; [done|]); simpl; [|done].
    rewrite take_0. split_and!; auto; unfold is_byte in *; lia.
  - destruct Hph as (HF & Hl & Hc).
    unfold aset. rewrite decide_True by lia. simpl.
    rewrite u8_id by (unfold is_byte; lia).
    assert (Htake : take (Z.to_nat (byCnt c + 1)) (<[Z.to_nat (byCnt c):=b]> (Date c))
      = take (Z.to_nat (byCnt c)) (Date c) ++ [b]).
    { rewrite Z2Nat.inj_add by lia. change (Z.to_nat 1) with 1%nat.
      rewrite Nat.add_1_r. erewrite take_S_r by (apply list_lookup_insert_eq; lia).
      by rewrite take_insert_ge by lia. }
    case_decide; eexists; (split; [done|]); simpl; rewrite ?E; simpl; rewrite ?Htake, ?length_insert;
      split_and!; auto; lia.
  - eexists; (split; [done|]); simpl. destruct_and! Hph. by split_and!.
  - case_decide; eexists; (split; [done|]); simpl; done.
Qed.

(** One byte received in a good record. *)
Lemma rx_step_cases c b : rx_inv c -> is_byte b ->
  (rx_step c b = None /\ byFrameLen c = 128 /\ eRxStatus c <> STATUS_TAIL) \/
  (rx_step c b = Some (ClearCommFrame, None) /\ rx_switch c b = Some RxException) \/
  (exists c', rx_step c b = Some (c', None) /\ rx_inv c' /\ partial c' = partial c ++ [b]) \/
  (exists c', rx_step c b = Some (c', Some c) /\ rx_idle c' /\
     eRxStatus c = STATUS_TAIL /\ b = COMM_TRM_TAIL).
Proof.
  intros HI Hb. destruct (rx_switch_good c b HI Hb) as (act & Hsw & Hg).
  pose proof HI as [Hbuf Hdate Hph Hlen Hmax].
  unfold rx_step. rewrite Hsw. destruct act as [c1 | f c1 |]; simpl in *.
  - destruct Hg as (Hd1 & Hp1 & Hpart & Hb1 & Hl1).
    destruct (decide (byFrameLen c = 128)) as [E|E].
    + left. split_and!; [|done|].
      * rewrite rx_save_None by (rewrite ?Hb1; lia). done.
      * intros Et. unfold rx_switch in Hsw. rewrite Et in Hsw. case_decide; congruence.
    + right; right; left.
      destruct (rx_save_ok c1 b) as (buf & Hbl & ->); [by rewrite Hb1|lia|].
      eexists. split; [done|]. split; [|done].
      split; try done; simpl.
      * change (0 <= byFrameLen c1 + 1 - Z.of_nat (length (partial c1)) <= 1).
        rewrite Hpart, length_app. simpl. lia.
      * lia.
  - destruct Hg as (-> & Ht & -> & ->). right; right; right.
    eexists. split_and!; [done| |done|done].
    split; [split; simpl; done || lia|done].
  - right; left. done.
Qed.

(** ** What is received was sent *)

(** [stream_of fs r l]: the bytes [l] contain the frames [fs] in order, with
    anything between them, and end in [r]. *)
Inductive stream_of : list frame -> list Z -> list Z -> Prop :=
| so_nil g r : stream_of [] r (g ++ r)
| so_cons g f fs r l : stream_of fs r l -> stream_of (f :: fs) r (g ++ encode f ++ l).

Lemma stream_of_gap g fs r l : stream_of fs r l -> stream_of fs r (g ++ l).
Proof.
  destruct 1 as [g' r | g' f fs r l H]; rewrite (assoc_L app); by constructor.
Qed.

Lemma partial_idle c : eRxStatus c = STATUS_IDLE -> partial c = [].
Proof. intros E. unfold partial. by rewrite E. Qed.

Lemma encode_frame_of c : rx_inv c -> eRxStatus c = STATUS_TAIL ->
  encode (frame_of c) = partial c ++ [COMM_TRM_TAIL].
Proof.
  intros [_ _ Hph _ _] Ht. unfold phase_ok, partial in *. rewrite Ht in *.
  destruct Hph as (HF & _). rewrite HF. unfold encode. simpl.
  by rewrite <- (assoc_L app).
Qed.

Lemma frame_of_ok c : rx_inv c -> eRxStatus c = STATUS_TAIL -> bytes (partial c) ->
  frame_ok (frame_of c).
Proof.
  intros HI Ht Hb. split.
  - rewrite encode_frame_of by done. apply bytes_app. split; [done|].
    repeat constructor; done.
  - destruct HI as [_ _ Hph _ _]. unfold phase_ok in Hph. rewrite Ht in Hph.
    simpl. unfold MAX_LEN_COMM_TRM_DATA. lia.
  - destruct HI as [_ Hd Hph _ _]. unfold phase_ok in Hph. rewrite Ht in Hph.
    simpl. rewrite length_take. lia.
Qed.

Lemma rx_run_sound l : forall c c' fs,
  rx_inv c -> bytes (partial c) -> bytes l -> rx_run c l = Some (c', fs) ->
  rx_inv c' /\ Forall frame_ok (frame_of <$> fs) /\
  stream_of (frame_of <$> fs) (partial c') (partial c ++ l).
Proof.
  induction l as [|b l IH]; intros c c' fs HI Hpb Hb Hrun; simpl in Hrun.
  - injection Hrun as <- <-. rewrite app_nil_r. split_and!; [done|constructor|].
    apply (so_nil []).
  - apply Forall_cons in Hb as [Hb Hl].
    destruct (rx_step_cases c b HI Hb) as
      [[E _] | [[E _] | [(c1 & E & HI1 & Hp1) | (c1 & E & [HI1 Hid] & Ht & ->)]]];
      rewrite E in Hrun; simpl in Hrun; [done|..];
      apply bind_Some in Hrun as ([c2 fs2] & Hrun & [= -> <-]); simpl in *.
    + destruct (IH _ _ _ (proj1 clear_idle) (Forall_nil_2 _) Hl Hrun) as (H1 & H2 & H3).
      split_and!; [done|done|]. rewrite cons_middle, (assoc_L app).
      by apply stream_of_gap.
    + assert (bytes (partial c1)) as Hpb1.
      { rewrite Hp1. apply bytes_app. by rewrite Forall_singleton. }
      destruct (IH _ _ _ HI1 Hpb1 Hl Hrun) as (H1 & H2 & H3).
      split_and!; [done|done|]. rewrite Hp1, <- (assoc_L app) in H3. done.
    + destruct (IH c1 c' fs2 HI1) as (H1 & H2 & H3); [by rewrite (partial_idle c1)|done|done|].
      split_and!; [done|constructor; [by apply frame_of_ok|done]|].
      rewrite cons_middle, (assoc_L app), <- encode_frame_of by done.
      rewrite (partial_idle c1 Hid) in H3. by apply (so_cons []).
Qed.

(** ** What is sent is received *)

Lemma encode_inj f g : frame_ok f -> frame_ok g -> encode f = encode g -> f = g.
Proof.
  intros [_ _ Hf] [_ _ Hg] E. destruct f, g. unfold encode in E. simpl in *.
  injection E as <- <- <- <- <- <- <- E.
  apply app_inj_1 in E as [<- [= <-]]; [done|lia].
Qed.

Lemma encode_length f : frame_ok f ->
  Z.of_nat (length (encode f)) = 12 + Z.max 1 (f_len f).
Proof. intros [_ _ H]. unfold encode. rewrite !length_app. simpl. lia. Qed.

(** On the bytes of a frame the receiver never falls back. *)
Lemma rx_switch_progress c b q f : rx_inv c -> frame_ok f ->
  partial c ++ b :: q = encode f ->
  rx_switch c b <> Some RxException /\
  (eRxStatus c = STATUS_TAIL -> q = [] /\ b = COMM_TRM_TAIL).
Proof.
  intros [_ Hdate Hph _ _] [_ Hmax Hlen] E.
  unfold rx_switch, phase_ok, partial, encode in *.
  destruct (eRxStatus c) eqn:Es; simpl in *; try done;
    try (simplify_eq; split; [repeat case_decide; congruence|done]).
  - destruct Hph as [_ [Hg | [Hg _]]]; rewrite Hg; by split.
  - simplify_eq. rewrite decide_True by done. by split.
  - unfold aset. rewrite decide_True by lia. simpl. split; [by case_decide|done].
  - destruct Hph as (_ & Hl & Hc).
    injection E as _ _ _ _ _ _ _ El E.
    rewrite <- (assoc_L app) in E. simpl in E.
    apply app_inj_1 in E as [_ [= _ -> ->]]; [by rewrite decide_True by done|].
    rewrite length_take. lia.
Qed.

(** How much of a frame is missing from a record that holds its beginning. *)
Lemma rest_length c q f : rx_inv c -> frame_ok f -> partial c ++ q = encode f ->
  if decide (eRxStatus c = STATUS_TAIL) then length q = 1%nat else (2 <= length q)%nat.
Proof.
  intros [_ Hdate Hph _ _] Hf E. pose proof (encode_length f Hf) as HL.
  rewrite <- E, length_app in HL.
  unfold phase_ok, partial, encode in *.
  destruct (eRxStatus c) eqn:Es; simpl in *; try done; try lia;
    try (case_decide; simpl in *; lia);
    injection E as _ _ _ _ _ _ _ El E; rewrite ?length_app, length_take in HL; simpl in HL; lia.
Qed.

(** Receiving the rest [q] of a frame of which [partial c] was received. *)
Lemma rx_run_rest q : forall c f,
  rx_inv c -> frame_ok f -> f_len f <= 116 -> partial c ++ q = encode f -> q <> [] ->
  exists c' g, rx_run c q = Some (c', [g]) /\ frame_of g = f /\ rx_idle c'.
Proof.
  induction q as [|b q IH]; intros c f HI Hf Hmax E Hq; [done|].
  assert (Hb : is_byte b).
  { destruct Hf as [Hf _ _]. rewrite <- E in Hf. apply bytes_app in Hf as [_ Hf].
    by apply Forall_cons in Hf as [? _]. }
  pose proof (encode_length f Hf) as HL.
  rewrite <- E, length_app in HL. simpl in HL.
  pose proof HI as [_ _ _ Hlen _].
  destruct (rx_switch_progress c b q f HI Hf E) as [Hne Htail]. simpl.
  destruct (rx_step_cases c b HI Hb) as
    [(_ & E2 & Hnt) | [[_ E2] | [(c1 & E2 & HI1 & Hp1) | (c1 & E2 & Hid & Ht & ->)]]].
  - exfalso. pose proof (rest_length c (b :: q) f HI Hf E) as Hr.
    rewrite decide_False in Hr by done. simpl in Hr. lia.
  - done.
  - rewrite E2. simpl.
    destruct (IH c1 f HI1 Hf Hmax) as (c' & g & Hrun & Hg & Hid).
    { by rewrite Hp1, <- (assoc_L app). }
    { intros ->. rewrite <- Hp1 in E.
      pose proof (rest_length c1 [] f HI1 Hf) as Hr. rewrite app_nil_r in Hr.
      specialize (Hr E). case_decide; simpl in Hr; lia. }
    rewrite Hrun. simpl. eauto.
  - rewrite E2. simpl. destruct (Htail Ht) as [-> _]. simpl.
    do 2 eexists. split_and!; [done| |done].
    apply encode_inj; [|done|by rewrite encode_frame_of].
    apply frame_of_ok; [done|done|]. destruct Hf as [Hf _ _].
    rewrite <- E in Hf. by apply bytes_app in Hf as [? _].
Qed.

Lemma rx_run_app l k c : rx_run c (l ++ k) =
  r ← rx_run c l; r' ← rx_run r.1 k; Some (r'.1, r.2 ++ r'.2).
Proof.
  revert c. induction l as [|b l IH]; intros c; simpl.
  - destruct (rx_run c k) as [[]|]; done.
  - destruct (rx_step c b) as [[c1 o]|]; simpl; [|done]. rewrite IH.
    destruct (rx_run c1 l) as [[c2 fs]|]; simpl; [|done].
    destruct (rx_run c2 k) as [[c3 gs]|]; simpl; [|done]. by destruct o.
Qed.

Lemma rx_run_app_Some c c1 c2 l k fs gs :
  rx_run c l = Some (c1, fs) -> rx_run c1 k = Some (c2, gs) ->
  rx_run c (l ++ k) = Some (c2, fs ++ gs).
Proof. intros E1 E2. rewrite rx_run_app, E1. simpl. by rewrite E2. Qed.

(** Bytes between frames: none of them starts one. *)
Definition gap_ok (g : list Z) : Prop := Forall (fun b => b <> COMM_TRM_HEAD) g.

Lemma rx_run_gap g c : gap_ok g -> rx_idle c ->
  exists c', rx_run c g = Some (c', []) /\ rx_idle c'.
Proof.
  intros Hg. revert c. induction Hg as [|b g Hb _ IH]; intros c Hc; simpl; [eauto|].
  assert (rx_step c b = Some (ClearCommFrame, None)) as ->.
  { unfold rx_step, rx_switch. rewrite (proj2 Hc). by rewrite decide_False. }
  simpl. destruct (IH _ clear_idle) as (c' & -> & Hid). eauto.
Qed.

Lemma rx_run_stream gfs : forall c,
  rx_idle c -> Forall (fun gf => gap_ok gf.1 /\ frame_ok gf.2 /\ f_len gf.2 <= 116) gfs ->
  exists c' fs, rx_run c (flat_map (fun gf => gf.1 ++ encode gf.2) gfs) = Some (c', fs) /\
    frame_of <$> fs = gfs.*2 /\ rx_idle c'.
Proof.
  induction gfs as [|[g f] gfs IH]; intros c Hc Hall; simpl; [by exists c, []|].
  apply Forall_cons in Hall as [(Hg & Hf & Hl) Hall]. simpl in *.
  destruct (rx_run_gap g c Hg Hc) as (c1 & E1 & Hc1).
  destruct (rx_run_rest (encode f) c1 f (proj1 Hc1) Hf Hl) as (c2 & fr & E2 & Hfr & Hc2);
    [by rewrite (partial_idle c1 (proj2 Hc1))|done|].
  destruct (IH c2 Hc2 Hall) as (c3 & fs & E3 & Hfs & Hc3).
  exists c3, (([] ++ [fr]) ++ fs). split_and!; [|by rewrite fmap_app, Hfs; simpl; rewrite Hfr|done].
  by do 2 (eapply rx_run_app_Some; [|done]).
Qed.

(** A full receive buffer belongs to a frame of more than 116 data bytes. *)
Lemma full_datalen c : rx_inv c -> byFrameLen c = 128 -> eRxStatus c <> STATUS_TAIL ->
  116 < byDataLen c <= 128.
Proof.
  intros [_ Hdate Hph Hlen _] E Hnt. unfold phase_ok, partial in *.
  destruct (eRxStatus c) eqn:Es; simpl in *; try done; try lia;
    rewrite ?length_take in Hlen; try lia; case_decide; simpl in Hlen; lia.
Qed.

(** Where the receive buffer can be overrun. *)
Lemma rx_run_None l : forall c,
  rx_inv c -> bytes l -> rx_run c l = None ->
  exists p b q c1 fs, l = p ++ b :: q /\ rx_run c p = Some (c1, fs) /\ rx_step c1 b = None /\
    rx_inv c1 /\ byFrameLen c1 = 128 /\ 116 < byDataLen c1 <= 128.
Proof.
  induction l as [|b l IH]; intros c HI Hb Hrun; simpl in Hrun; [done|].
  apply Forall_cons in Hb as [Hb Hl].
  assert (Hnext : forall c1 o, rx_step c b = Some (c1, o) -> rx_inv c1 ->
    exists p b' q c2 fs, b :: l = p ++ b' :: q /\ rx_run c p = Some (c2, fs) /\ rx_step c2 b' = None /\
      rx_inv c2 /\ byFrameLen c2 = 128 /\ 116 < byDataLen c2 <= 128).
  { intros c1 o E HI1. rewrite E in Hrun. simpl in Hrun.
    apply bind_None in Hrun as [Hrun|(? & _ & ?)]; [|done].
    destruct (IH c1 HI1 Hl Hrun) as (p & b' & q & c2 & fs & -> & Hp & HN & HI2 & Hfull & Hlen).
    exists (b :: p), b', q. simpl. rewrite E. simpl. rewrite Hp. simpl. eauto 12. }
  destruct (rx_step_cases c b HI Hb) as
    [(HN & E & Hnt) | [[E _] | [(c1 & E & HI1 & _) | (c1 & E & [HI1 _] & _)]]];
    [|by eapply Hnext, clear_idle; apply E|by eapply Hnext|by eapply Hnext].
  exists [], b, l, c, []. split_and!; [done..|by apply full_datalen|by apply full_datalen].
Qed.

Lemma rx_run_overrun q : forall c f,
  rx_inv c -> frame_ok f -> 118 <= f_len f -> partial c ++ q = encode f ->
  rx_run c q = None.
Proof.
  induction q as [|b q IH]; intros c f HI Hf Hlen E;
    pose proof (rest_length c _ f HI Hf E) as Hr.
  { case_decide; simpl in Hr; lia. }
  assert (Hb : is_byte b).
  { destruct Hf as [Hf _ _]. rewrite <- E in Hf. apply bytes_app in Hf as [_ Hf].
    by apply Forall_cons in Hf as [? _]. }
  destruct (rx_switch_progress c b q f HI Hf E) as [Hne _]. simpl.
  destruct (rx_step_cases c b HI Hb) as
    [(E2 & _ & _) | [[_ E2] | [(c1 & E2 & HI1 & Hp1) | (c1 & E2 & Hid & Ht & ->)]]];
    [by rewrite E2|done| |].
  - rewrite E2. simpl. rewrite (IH c1 f HI1 Hf Hlen); [done|].
    by rewrite Hp1, <- (assoc_L app).
  - exfalso. rewrite decide_True in Hr by done.
    pose proof (encode_length f Hf) as HL. rewrite <- E, length_app, Hr in HL.
    destruct HI as [_ _ _ Hl Hm]. lia.
Qed.

(** ** Theorems *)

(** C2: soundness of the receiver: whatever bytes arrive after start-up, the frames
    handed to [process_poll] occur in the byte stream in that order and without
    overlap, each is well formed, and the bytes of the frame in progress end the stream
    - for all the bytes, or for those up to the one that would be stored behind the end
    of the receive buffer.  That happens only with the buffer full, while a frame is in
    progress that announced more than 116 data bytes. *)
Theorem rx_sound l :
  bytes l ->
  exists p q c fs, l = p ++ q /\ rx_run ClearCommFrame p = Some (c, fs) /\
    Forall frame_ok (frame_of <$> fs) /\ stream_of (frame_of <$> fs) (partial c) p /\
    (q = [] \/ exists b q', q = b :: q' /\ rx_step c b = None /\
       byFrameLen c = 128 /\ 116 < byDataLen c <= 128).
Proof.
  intros Hb. destruct (rx_run ClearCommFrame l) as [[c fs]|] eqn:E.
  - exists l, [], c, fs. rewrite app_nil_r.
    destruct (rx_run_sound l _ _ _ (proj1 clear_idle) (Forall_nil_2 _) Hb E) as (_ & ? & ?). split_and!; auto.
  - destruct (rx_run_None l _ (proj1 clear_idle) Hb E) as (p & b & q & c & fs & -> & Hp & HN & _ & Hfull & Hlen).
    apply bytes_app in Hb as [Hb _].
    destruct (rx_run_sound p _ _ _ (proj1 clear_idle) (Forall_nil_2 _) Hb Hp) as (_ & ? & ?).
    exists p, (b :: q), c, fs. split_and!; eauto 10.
Qed.

(** C3: completeness of the receiver: every frame of at most 116 data bytes on
    the line, whatever its check byte, is handed to [process_poll] exactly once
    and in order, with any bytes other than 0x68 between frames, and the
    receiver is idle again afterwards. *)
Theorem rx_complete gfs :
  Forall (fun gf => gap_ok gf.1 /\ frame_ok gf.2 /\ f_len gf.2 <= 116) gfs ->
  exists c fs, rx_run ClearCommFrame (flat_map (fun gf => gf.1 ++ encode gf.2) gfs) = Some (c, fs)
    /\ frame_of <$> fs = gfs.*2 /\ rx_idle c.
Proof. apply rx_run_stream, clear_idle. Qed.

(** The receiver writes outside its arrays only while receiving a frame that
    announced more than 116 data bytes. *)
Theorem rx_no_overrun l :
  bytes l -> rx_run ClearCommFrame l = None ->
  exists p q c fs, l = p ++ q /\ rx_run ClearCommFrame p = Some (c, fs) /\
    116 < byDataLen c <= 128.
Proof.
  intros Hb Hrun. destruct (rx_run_None l _ (proj1 clear_idle) Hb Hrun)
    as (p & b & q & c & fs & -> & ? & _ & _ & _ & ?). by exists p, (b :: q), c, fs.
Qed.

(** The length check admits frames that overrun [a_byRxBuf]: every frame of
    118 to 128 data bytes does. *)
Theorem rx_overrun c f :
  rx_idle c -> frame_ok f -> 118 <= f_len f -> rx_run c (encode f) = None.
Proof.
  intros [HI Hs] Hf Hl. apply (rx_run_overrun _ c f); [done..|]. by rewrite partial_idle.
Qed.

(** A reading in binary-coded decimal is stored as its value: for a response
    with CON0 = 0x11 whose first two data bytes are the four decimal digits of
    [n], [process_poll] sets the LED temperature to [n] and nothing else. *)
Theorem process_poll_bcd c d n r :
  0 <= n < 10000 -> CON0 c = 0x11 ->
  Date c = (16 * (n / 1000) + n / 100 mod 10) :: (16 * (n / 10 mod 10) + n mod 10) :: r ->
  process_poll c d = Some (setDeviceInfoLedTemperature n d).
Proof.
  intros Hn HC HD. unfold process_poll. rewrite decide_True, HD by done.
  unfold aget. simpl. do 2 f_equal. unfold bcd4.
  rewrite !Z.shiftr_div_pow2 by lia. change 15 with (Z.ones 4).
  rewrite !Z.land_ones by lia. change (2 ^ 4) with 16. zlia.
Qed.

(** ** Witnesses *)

(** A voltage response: four digits after the exchange counter. *)
Definition sample_frame : frame := mkFrame 0x20 0x08 0xC0 0x00 0x13 0x10 0x03 [0x01; 0x12; 0x34] 0xA1.

(** A frame whose announced length passes the check of the receiver. *)
Definition long_frame : frame := mkFrame 0x20 0x08 0xC0 0x00 0x13 0x10 128 (replicate 128 0x55) 0x00.

Lemma rx_sound_witness :
  (exists p q c fs, 0x31 :: encode sample_frame ++ [0x68; 0x45] = p ++ q /\ rx_run ClearCommFrame p = Some (c, fs) /\
    Forall frame_ok (frame_of <$> fs) /\ stream_of (frame_of <$> fs) (partial c) p /\
    (q = [] \/ exists b q', q = b :: q' /\ rx_step c b = None /\ byFrameLen c = 128 /\ 116 < byDataLen c <= 128)) /\
  (exists c f, rx_run ClearCommFrame (0x31 :: encode sample_frame ++ [0x68; 0x45]) = Some (c, [f]) /\ frame_of f = sample_frame).
Proof.
  split; [apply rx_sound; apply (bool_decide_unpack _); vm_compute; exact I|].
  do 2 eexists. split; [vm_compute; reflexivity|reflexivity].
Defined.

Lemma rx_complete_witness :
  exists c fs, rx_run ClearCommFrame
      (flat_map (fun gf => gf.1 ++ encode gf.2) [([0xfe; 0xfe; 0xfe], sample_frame); ([], sample_frame)])
    = Some (c, fs) /\ frame_of <$> fs = [sample_frame; sample_frame] /\ rx_idle c.
Proof.
  apply (rx_complete [([0xfe; 0xfe; 0xfe], sample_frame); ([], sample_frame)]).
  unfold gap_ok. apply (bool_decide_unpack _). vm_compute. exact I.
Defined.

Lemma rx_no_overrun_witness :
  exists p q c fs, encode long_frame = p ++ q /\ rx_run ClearCommFrame p = Some (c, fs) /\
    116 < byDataLen c <= 128.
Proof.
  apply rx_no_overrun; [apply (bool_decide_unpack _); vm_compute; exact I|].
  vm_compute. reflexivity.
Defined.

Lemma rx_overrun_witness : rx_run ClearCommFrame (encode long_frame) = None.
Proof.
  apply rx_overrun; [apply clear_idle|apply (bool_decide_unpack _); vm_compute; exact I|done].
Defined.

Lemma process_poll_bcd_witness :
  process_poll (set_CON0 0x11 (set_Date [0x12; 0x34] ClearCommFrame))
    (mkDEVICEINFO [0] [0] [0] [0] 7 0 0 0 0 0)
  = Some (setDeviceInfoLedTemperature 1234 (mkDEVICEINFO [0] [0] [0] [0] 7 0 0 0 0 0)).
Proof. apply (process_poll_bcd _ _ 1234 []); [lia|reflexivity|reflexivity]. Defined.
