(* ===== verification/Rs485.v ===== *)
(** * RS485 requests and the RS485 task

    Models the transmit side and the task of src/apps/examples/NB_Iot/485.c: the
    requests that build a frame, number and checksum it and write it to the
    second port, [read_485_recv], and the task [_485], which dims the lamp up and
    down for ever. *)

From S2P Require Import Prelude Env DeviceInfo Rs485Rx.

(** ** Globals of 485.c *)

Record rs485 := mkRs485 {
  s_stComm2TrmData : COMM_TRM_DATA;
  SRB : Z;
  fd_485_USART0 : Z;
  fd_485_USART1 : Z;
  fd_max : Z;
  DeviceInfo : DEVICEINFO
}.

Definition set_rx c d g := mkRs485 c (SRB g) (fd_485_USART0 g) (fd_485_USART1 g) (fd_max g) d.
Definition set_SRB n g := mkRs485 (s_stComm2TrmData g) n (fd_485_USART0 g) (fd_485_USART1 g) (fd_max g) (DeviceInfo g).
Definition set_fd0 n g := mkRs485 (s_stComm2TrmData g) (SRB g) n (fd_485_USART1 g) (fd_max g) (DeviceInfo g).
Definition set_fd1 n g := mkRs485 (s_stComm2TrmData g) (SRB g) (fd_485_USART0 g) n (fd_max g) (DeviceInfo g).
Definition set_fdmax n g := mkRs485 (s_stComm2TrmData g) (SRB g) (fd_485_USART0 g) (fd_485_USART1 g) n (DeviceInfo g).

Definition CONFIG_EXAMPLES_RS485A_DEVPATH : string := "/dev/ttyS2".
Definition CONFIG_EXAMPLES_RS485B_DEVPATH : string := "/dev/ttyS4".

(** ** Requests *)

(** [for(i = 3; i < sizeof(senddate)-2; i++) senddate[sizeof(senddate)-2] += senddate[i];] *)
Fixpoint sum_loop (n : nat) (i : Z) (senddate : list Z) : option (list Z) :=
  match n with
  | O => Some senddate
  | S n =>
      let k := Z.of_nat (length senddate) - 2 in
      a ← aget senddate k;
      b ← aget senddate i;
      senddate' ← aset senddate k (u8 (a + b));
      sum_loop n (i + 1) senddate'
  end.

(** The check byte: cleared, then summed from the head byte on. *)
Definition set_check (senddate : list Z) : option (list Z) :=
  senddate' ← aset senddate (Z.of_nat (length senddate) - 2) 0;
  sum_loop (length senddate - 5) 3 senddate'.

Section requests.
Context `{D : Device}.

(** The end of every request: step the exchange counter, set the check byte,
    write the frame to the second port. *)
Definition send_frame (senddate : list Z) : io rs485 () :=
  modify (fun g => set_SRB (Z.rem (SRB g + 1) 16) g);;
  frame ← of_option (set_check senddate);
  fd ← gets fd_485_USART1;
  io_write fd frame;;
  mret ().

Definition getLedTemperature : io rs485 () :=
  srb ← gets SRB;
  send_frame [0xfe; 0xfe; 0xfe; 0x68; 0x45; 0x00; 0x20; 0x08; 0xC0; 0x00; 0x15; 0x30; 0x01; srb; 0xC8; 0x16].

Definition getBaseTemperature : io rs485 () :=
  srb ← gets SRB;
  send_frame [0xfe; 0xfe; 0xfe; 0x68; 0x45; 0x00; 0x20; 0x08; 0xB0; 0x00; 0x11; 0x30; 0x01; srb; 0xC8; 0x16].

Definition setColorTemperatureBrightness (led1 led2 led3 led4 : Z) : io rs485 () :=
  send_frame [0xfe; 0xfe; 0xfe; 0x68; 0x45; 0x00; 0x40; 0x08; 0xC0; 0x00; 0x43; 0x00; 0x04;
              u8 led1; u8 led2; u8 led3; u8 led4; 0xC8; 0x16].

Definition getVoltage : io rs485 () :=
  srb ← gets SRB;
  send_frame [0xfe; 0xfe; 0xfe; 0x68; 0x45; 0x00; 0x20; 0x08; 0xC0; 0x00; 0x13; 0x10; 0x01; srb; 0xC8; 0x16].

Definition getCurrent : io rs485 () :=
  srb ← gets SRB;
  send_frame [0xfe; 0xfe; 0xfe; 0x68; 0x45; 0x00; 0x20; 0x08; 0xC0; 0x00; 0x14; 0x20; 0x01; srb; 0x00; 0x16].

Definition setMainLEDSwitch (ledonoff : Z) : io rs485 () :=
  srb ← gets SRB;
  send_frame [0xfe; 0xfe; 0xfe; 0x68; 0x45; 0x00; 0x40; 0x08; 0xC0; 0x00; u8 ledonoff; 0x00; 0x01; srb; 0xC8; 0x16].

Definition setBLEDSwitch (ledonoff : Z) : io rs485 () :=
  srb ← gets SRB;
  send_frame [0xfe; 0xfe; 0xfe; 0x68; 0x45; 0x00; 0x40; 0x08; 0xC0; 0x00; u8 ledonoff; 0x00; 0x01; srb; 0xC8; 0x16].

(** ** The task *)

Definition _485_USART_Init : io rs485 () :=
  fd0 ← io_open CONFIG_EXAMPLES_RS485A_DEVPATH;
  modify (set_fd0 fd0);;
  if decide (fd0 < 0) then mret () else
  fd1 ← io_open CONFIG_EXAMPLES_RS485B_DEVPATH;
  modify (set_fd1 fd1);;
  if decide (fd1 < 0) then mret () else
  if decide (fd0 > fd1) then modify (set_fdmax fd0) else modify (set_fdmax fd1).

(** The two branches of [read_485_recv]: wait 100 ms, read, flush, print the
    array as a string, hand the bytes on. *)
Definition recv_from (fd : Z) : io rs485 () :=
  usleep 100000;;
  r ← io_read fd 256;
  tcflush fd;;
  of_option (c_str (fill 256 r));;
  g ← gets id;
  st ← of_option (rx_bytes (s_stComm2TrmData g, DeviceInfo g)
                    (match r with Some l => l | None => [] end));
  modify (set_rx st.1 st.2).

Definition read_485_recv : io rs485 () :=
  fd0 ← gets fd_485_USART0;
  fd1 ← gets fd_485_USART1;
  r ← select_read [fd0; fd1] 5;
  if decide (r.1 < 0) then mret ()
  else if decide (r.1 = 0) then mret ()
  else if decide (fd0 ∈ r.2) then recv_from fd0
  else if decide (fd1 ∈ r.2) then recv_from fd1
  else mret ().

(** Up to the inner endless loop. *)
Definition _485_start : io rs485 () :=
  _485_USART_Init;;
  usleep 5000000;;
  setMainLEDSwitch 0x41;;
  read_485_recv.

(** One turn of the inner loop, from [ledvalue] to [ledvalue]. *)
Definition led_turn (ledvalue : Z) : io rs485 Z :=
  let v := if decide (ledvalue > 1000) then 100 else ledvalue in
  usleep 2000000;;
  setColorTemperatureBrightness 0x02 0x00
    (Z.land (Z.shiftr v 8) 0xff) (Z.land v 0xff);;
  read_485_recv;;
  mret (s32 (v + 200)).

Fixpoint led_turns (n : nat) (ledvalue : Z) : io rs485 Z :=
  match n with
  | O => mret ledvalue
  | S n => v ← led_turn ledvalue; led_turns n v
  end.

(** The task up to [n] turns of its endless loop. *)
Definition _485 (n : nat) : io rs485 Z :=
  _485_start;; led_turns n 100.
End requests.

(** ** What the requests put on the line *)

Inductive request :=
| ReqLedTemperature | ReqBaseTemperature | ReqVoltage | ReqCurrent
| SetColour (led1 led2 led3 led4 : Z)
| SetMainLed (ledonoff : Z)
| SetBLed (ledonoff : Z).

Definition run_request `{D : Device} (r : request) : io rs485 () :=
  match r with
  | ReqLedTemperature => getLedTemperature
  | ReqBaseTemperature => getBaseTemperature
  | ReqVoltage => getVoltage
  | ReqCurrent => getCurrent
  | SetColour a b c d => setColorTemperatureBrightness a b c d
  | SetMainLed x => setMainLEDSwitch x
  | SetBLed x => setBLEDSwitch x
  end.

(** The request frames of the protocol, without their check byte: a read has
    CMD0 = 0x20, a setting CMD0 = 0x40; the addressed unit is 0xC000, 0xB000 for
    the base temperature; a request without data carries the counter. *)
Definition request_frame (srb : Z) (r : request) : frame :=
  match r with
  | ReqLedTemperature => mkFrame 0x20 0x08 0xC0 0x00 0x15 0x30 1 [srb] 0
  | ReqBaseTemperature => mkFrame 0x20 0x08 0xB0 0x00 0x11 0x30 1 [srb] 0
  | ReqVoltage => mkFrame 0x20 0x08 0xC0 0x00 0x13 0x10 1 [srb] 0
  | ReqCurrent => mkFrame 0x20 0x08 0xC0 0x00 0x14 0x20 1 [srb] 0
  | SetColour a b c d => mkFrame 0x40 0x08 0xC0 0x00 0x43 0x00 4 [u8 a; u8 b; u8 c; u8 d] 0
  | SetMainLed x | SetBLed x => mkFrame 0x40 0x08 0xC0 0x00 (u8 x) 0x00 1 [srb] 0
  end.

(** The sum, modulo 256, of the bytes from the head to the last data byte. *)
Definition checksum (f : frame) : Z :=
  u8 (foldr Z.add 0 (take (length (encode f) - 2) (encode f))).

Definition with_check (f : frame) : frame :=
  mkFrame (f_cmd0 f) (f_cmd1 f) (f_guid1 f) (f_guid2 f) (f_con0 f) (f_con1 f)
    (f_len f) (f_data f) (checksum f).

Definition preamble : list Z := [0xfe; 0xfe; 0xfe].

(** ** Lemmas *)

Lemma u8_add_l a b : u8 (u8 a + b) = u8 (a + b).
Proof. unfold u8. by rewrite Zplus_mod_idemp_l. Qed.

Lemma sum_loop_spec rest : forall pre c e,
  is_byte c ->
  sum_loop (length rest) (Z.of_nat (length pre)) (pre ++ rest ++ [c; e])
  = Some (pre ++ rest ++ [u8 (c + foldr Z.add 0 rest); e]).
Proof.
  induction rest as [|b rest IH]; intros pre c e Hc; simpl.
  - do 3 f_equal. by rewrite Z.add_0_r, u8_id.
  - assert (Hk : Z.of_nat (length (pre ++ b :: rest ++ [c; e])) - 2
      = Z.of_nat (length (pre ++ b :: rest))).
    { rewrite !length_app. simpl. rewrite length_app. simpl. lia. }
    rewrite Hk.
    replace (pre ++ b :: rest ++ [c; e]) with ((pre ++ b :: rest) ++ [c; e]) at 1
      by by rewrite <- (assoc_L app).
    rewrite aget_mid by done. simpl. rewrite aget_mid by done. simpl.
    replace (pre ++ b :: rest ++ [c; e]) with ((pre ++ b :: rest) ++ [c; e])
      by by rewrite <- (assoc_L app).
    rewrite aset_mid by done. simpl.
    specialize (IH (pre ++ [b]) (u8 (c + b)) e (u8_range _)).
    rewrite length_app, <- !(assoc_L app) in IH. simpl in IH.
    replace (Z.of_nat (length pre) + 1) with (Z.of_nat (length pre + 1)) by lia.
    rewrite <- (assoc_L app). simpl. by rewrite IH, u8_add_l, <- Z.add_assoc.
Qed.

Lemma set_check_spec pre body c e :
  length pre = 3%nat ->
  set_check (pre ++ body ++ [c; e]) = Some (pre ++ body ++ [u8 (foldr Z.add 0 body); e]).
Proof.
  intros Hp. unfold set_check.
  replace (pre ++ body ++ [c; e]) with ((pre ++ body) ++ [c; e]) by by rewrite <- (assoc_L app).
  rewrite aset_mid by (rewrite !length_app; simpl; lia). simpl.
  replace (length ((pre ++ body) ++ [c; e]) - 5)%nat with (length body)
    by (rewrite !length_app; simpl; lia).
  rewrite <- !(assoc_L app).
  replace 3 with (Z.of_nat (length pre)) by (rewrite Hp; done).
  rewrite sum_loop_spec by done. done.
Qed.

(** The bytes a check byte covers. *)
Definition covered (f : frame) : list Z :=
  [COMM_TRM_HEAD; COMM_TRM_FIXED; 0; f_cmd0 f; f_cmd1 f; f_guid1 f; f_guid2 f;
   f_con0 f; f_con1 f; f_len f] ++ f_data f.

Lemma encode_covered f : encode f = covered f ++ [f_cs f; COMM_TRM_TAIL].
Proof. unfold encode, covered. by rewrite <- (assoc_L app). Qed.

Lemma checksum_covered f : checksum f = u8 (foldr Z.add 0 (covered f)).
Proof.
  unfold checksum. rewrite encode_covered at 2.
  rewrite take_app_length'; [done|]. rewrite encode_covered, length_app. simpl. lia.
Qed.

(** Any frame laid out behind the preamble is sent with its check byte. *)
Lemma set_check_frame f :
  set_check (preamble ++ encode f) = Some (preamble ++ encode (with_check f)).
Proof.
  rewrite !encode_covered. simpl f_cs. rewrite checksum_covered.
  change (covered (with_check f)) with (covered f). by apply set_check_spec.
Qed.

Lemma send_frame_run `{D : Device} f g t :
  send_frame (preamble ++ encode f) g t =
  let d := preamble ++ encode (with_check f) in
  Ret ((), set_SRB (Z.rem (SRB g + 1) 16) g,
       EvWrite (fd_485_USART1 g) d (dev_write t (fd_485_USART1 g) d) :: t).
Proof.
  unfold send_frame. cbn [mbind io_bind modify]. by rewrite set_check_frame.
Qed.

(** The check byte a request is laid out with is overwritten, so the literals of
    the code do not matter. *)
Lemma run_request_frame `{D : Device} r g t :
  run_request r g t = send_frame (preamble ++ encode (request_frame (SRB g) r)) g t.
Proof. destruct r; reflexivity. Qed.

Lemma wp_run_request `{D : Device} r (Q : () -> rs485 -> trace -> Prop) g t :
  (let d := preamble ++ encode (with_check (request_frame (SRB g) r)) in
   Q () (set_SRB (Z.rem (SRB g + 1) 16) g)
     (EvWrite (fd_485_USART1 g) d (dev_write t (fd_485_USART1 g) d) :: t)) ->
  wp (run_request r) Q g t.
Proof. intros H. unfold wp. by rewrite run_request_frame, send_frame_run. Qed.

Lemma request_frame_ok srb r : 0 <= srb < 16 -> frame_ok (with_check (request_frame srb r)).
Proof.
  intros Hs. assert (Hb : is_byte srb) by (unfold is_byte; lia).
  assert (bytes (covered (request_frame srb r)) /\
    f_len (request_frame srb r) <= 128 /\
    Z.of_nat (length (f_data (request_frame srb r))) = Z.max 1 (f_len (request_frame srb r)))
    as (Hc & Hl & Hd).
  { destruct r; (split; [|split; done]); unfold covered; simpl;
      repeat (apply Forall_cons; split); try done; try apply u8_range; try apply Forall_nil_2. }
  split; [|done|done]. rewrite encode_covered. apply bytes_app. split; [done|].
  rewrite Forall_cons, Forall_singleton. split; [apply u8_range|done].
Qed.

(** The exchange counter counts modulo 16. *)
Lemma SRB_step n : 0 <= n < 16 -> Z.rem (n + 1) 16 = (n + 1) mod 16.
Proof. intros H. apply Z.rem_mod_nonneg; lia. Qed.

Fixpoint run_requests `{D : Device} (rs : list request) : io rs485 () :=
  match rs with
  | [] => mret ()
  | r :: rs => run_request r;; run_requests rs
  end.

(** The frames of a sequence of requests, the first numbered [srb]. *)
Fixpoint request_frames (srb : Z) (rs : list request) : list frame :=
  match rs with
  | [] => []
  | r :: rs => with_check (request_frame srb r) :: request_frames ((srb + 1) mod 16) rs
  end.

Lemma run_requests_sent `{D : Device} rs : forall g t,
  0 <= SRB g < 16 ->
  exists g' t', run_requests rs g t = Ret ((), g', t') /\
    fd_485_USART1 g' = fd_485_USART1 g /\ 0 <= SRB g' < 16 /\
    sent (fd_485_USART1 g) t' = sent (fd_485_USART1 g) t
      ++ ((fun f => preamble ++ encode f) <$> request_frames (SRB g) rs).
Proof.
  induction rs as [|r rs IH]; intros g t Hg; simpl.
  - exists g, t. by rewrite app_nil_r.
  - unfold mbind, io_bind. rewrite run_request_frame, send_frame_run. cbv zeta.
    destruct (IH (set_SRB (Z.rem (SRB g + 1) 16) g)
      (EvWrite (fd_485_USART1 g) (preamble ++ encode (with_check (request_frame (SRB g) r)))
         (dev_write t (fd_485_USART1 g) (preamble ++ encode (with_check (request_frame (SRB g) r)))) :: t))
      as (g' & t' & E & Hfd & Hs & Hsent).
    { simpl. rewrite SRB_step by done. zlia. }
    exists g', t'. split_and!; [done|done|lia|lia|].
    simpl in Hsent. rewrite decide_True in Hsent by done.
    rewrite Hsent, SRB_step by done. by rewrite <- (assoc_L app).
Qed.

Lemma request_frames_ok srb rs : 0 <= srb < 16 -> Forall frame_ok (request_frames srb rs).
Proof.
  revert srb. induction rs as [|r rs IH]; intros srb Hs; simpl; constructor.
  - by apply request_frame_ok.
  - apply IH. zlia.
Qed.

Lemma request_frames_short srb rs : Forall (fun f => f_len f <= 116) (request_frames srb rs).
Proof.
  revert srb. induction rs as [|r rs IH]; intros srb; simpl; constructor; [|done].
  by destruct r.
Qed.

(** ** Theorems on requests *)

(** Every request writes one frame to the second port: the preamble, the
    header, data and terminator of that request with the exchange counter, and
    the sum of its bytes modulo 256 as check byte; the frame is well formed and
    the counter steps modulo 16. *)
Theorem request_sent `{D : Device} r g t :
  0 <= SRB g < 16 ->
  frame_ok (with_check (request_frame (SRB g) r)) /\
  run_request r g t =
    Ret ((), set_SRB ((SRB g + 1) mod 16) g,
         let d := preamble ++ encode (with_check (request_frame (SRB g) r)) in
         EvWrite (fd_485_USART1 g) d (dev_write t (fd_485_USART1 g) d) :: t).
Proof.
  intros Hs. split; [by apply request_frame_ok|].
  by rewrite run_request_frame, send_frame_run, SRB_step.
Qed.

(** C26: loop-back: any sequence of requests, its bytes put on a line with a
    receiver of the same kind, is received as exactly those requests in order,
    numbered consecutively modulo 16. *)
Theorem request_loopback `{D : Device} rs g :
  0 <= SRB g < 16 ->
  exists g' t' c fs, run_requests rs g [] = Ret ((), g', t') /\
    rx_run ClearCommFrame (concat (sent (fd_485_USART1 g) t')) = Some (c, fs) /\
    frame_of <$> fs = request_frames (SRB g) rs.
Proof.
  intros Hs. destruct (run_requests_sent rs g [] Hs) as (g' & t' & E & _ & _ & Hsent).
  simpl in Hsent.
  destruct (rx_run_stream ((fun f => (preamble, f)) <$> request_frames (SRB g) rs)
    ClearCommFrame clear_idle) as (c & fs & Hrun & Hfs & _).
  { apply Forall_fmap, Forall_forall. intros f Hf.
    pose proof (request_frames_ok (SRB g) rs Hs) as Hok.
    pose proof (request_frames_short (SRB g) rs) as Hsh.
    rewrite Forall_forall in Hok, Hsh. simpl. split_and!; [|by apply Hok|by apply Hsh].
    unfold gap_ok, preamble. by repeat constructor. }
  exists g', t', c, fs. split; [done|]. rewrite Hsent. split.
  - rewrite <- Hrun. f_equal. generalize (request_frames (SRB g) rs) as l.
    induction l as [|f l IH]; [done|]. cbn [fmap list_fmap concat flat_map]. by rewrite <- IH.
  - rewrite Hfs, <- list_fmap_compose. by rewrite list_fmap_id.
Qed.

(** ** The task *)

(** Lines on which no frame announces 117 to 128 data bytes: it is enough that
    no byte has such a value. *)
Definition line_ok (l : list Z) : Prop :=
  Forall (fun b => is_byte b /\ (b <= 116 \/ 128 < b)) l.

(** The slaves answer with short texts: less than a full array, without the
    lengths that overrun the receive buffer; and the ports open. *)
Class Line485 (D : Device) := {
  line_fits t fd l : dev_read t fd 256 = Some l -> (length l < 256)%nat;
  line_bytes t fd l : dev_read t fd 256 = Some l -> line_ok l;
  line_open t path : fd_set_ok (dev_open t path)
}.

Lemma rx_step_datalen c b c' o : rx_step c b = Some (c', o) -> byDataLen c <= 116 ->
  b <= 116 \/ 128 < b -> byDataLen c' <= 116.
Proof.
  intros E Hc Hb. unfold rx_step in E. apply bind_Some in E as (act & Hsw & E).
  assert (Hact : match act with RxSave c1 | RxFrame _ c1 => byDataLen c1 <= 116 | _ => True end).
  { unfold rx_switch, MAX_LEN_COMM_TRM_DATA in Hsw. destruct (eRxStatus c);
      repeat (case_decide || apply bind_Some in Hsw as (? & ? & Hsw)); simplify_eq; simpl; lia. }
  destruct act as [c1|f c1|]; unfold rx_save in E.
  1,2: apply bind_Some in E as (c2 & E & [= <- <-]);
    apply bind_Some in E as (buf & _ & [= <-]); done.
  injection E as <- <-. simpl. lia.
Qed.

Lemma process_poll_ok c d : length (Date c) = 128%nat -> info_ok d ->
  exists d', process_poll c d = Some d' /\ info_ok d'.
Proof.
  intros Hd [H1 H2 H3 H4 H5]. unfold process_poll. case_decide; [|by eauto using Build_info_ok].
  destruct (Date c) as [|d0 [|d1 r]]; simpl in Hd; [lia|lia|].
  unfold aget. simpl. eexists. split; [done|].
  rewrite !Forall_cons in H5. destruct H5 as (? & ? & ? & ? & ? & ? & ?).
  split; try done. rewrite !Forall_cons. split_and!; try done. apply s16_range.
Qed.

Lemma rx_bytes_total l : forall c d,
  rx_inv c -> byDataLen c <= 116 -> info_ok d -> line_ok l ->
  exists c' d', rx_bytes (c, d) l = Some (c', d') /\
    rx_inv c' /\ byDataLen c' <= 116 /\ info_ok d'.
Proof.
  induction l as [|b l IH]; intros c d HI Hlen Hd Hl; [by exists c, d|].
  apply Forall_cons in Hl as [[Hb Hb'] Hl]. simpl.
  assert (exists c1 o, rx_step c b = Some (c1, o) /\ rx_inv c1 /\
    (forall f, o = Some f -> f = c)) as (c1 & o & E & HI1 & Ho).
  { destruct (rx_step_cases c b HI Hb) as
      [(_ & E & Hnt) | [[E _] | [(c1 & E & HI1 & _) | (c1 & E & [HI1 _] & _)]]].
    - destruct (full_datalen c HI E Hnt). lia.
    - do 2 eexists. split; [done|]. split; [apply clear_idle|done].
    - do 2 eexists. split; [done|]. split; [done|done].
    - do 2 eexists. split; [done|]. split; [done|]. by intros f [= ->]. }
  rewrite E. simpl.
  assert (exists d1, match o with Some f => process_poll f d | None => Some d end = Some d1 /\
    info_ok d1) as (d1 & E1 & Hd1).
  { destruct o as [f|]; [|by eauto]. rewrite (Ho f eq_refl).
    apply process_poll_ok; [apply HI|done]. }
  rewrite E1. simpl. apply IH; try done. by eapply rx_step_datalen.
Qed.

Record rs_inv (g : rs485) : Prop := {
  rs_rx : rx_inv (s_stComm2TrmData g);
  rs_len : byDataLen (s_stComm2TrmData g) <= 116;
  rs_srb : 0 <= SRB g < 16;
  rs_fds : fd_set_ok (fd_485_USART0 g) /\ fd_set_ok (fd_485_USART1 g);
  rs_info : info_ok (DeviceInfo g)
}.


(** Receiving keeps the ports, the counter and what was sent. *)
Record rs_quiet (g : rs485) (t : trace) (g' : rs485) (t' : trace) : Prop := {
  rq_inv : rs_inv g';
  rq_fd0 : fd_485_USART0 g' = fd_485_USART0 g;
  rq_fd1 : fd_485_USART1 g' = fd_485_USART1 g;
  rq_srb : SRB g' = SRB g;
  rq_sent : forall fd, sent fd t' = sent fd t
}.

Section task.
Context `{D : Device} `{HL : !Line485 D}.

Lemma wp_recv_from fd g t : rs_inv g ->
  wp (recv_from fd) (fun _ => rs_quiet g t) g t.
Proof.
  intros Hg. unfold recv_from. wp_steps. set (r := dev_read _ _ _).
  assert (is_Some (c_str (fill 256 r))) as [s Hs].
  { subst r. destruct (dev_read _ _ _) as [l|] eqn:E; [|by eexists].
    apply c_str_fill. by eapply line_fits. }
  eapply wp_of_option; [done|]. wp_steps.
  assert (line_ok (match r with Some l => l | None => [] end)) as Hline.
  { subst r. destruct (dev_read _ _ _) as [l|] eqn:E; [by eapply line_bytes|constructor]. }
  destruct (rx_bytes_total _ (s_stComm2TrmData g) (DeviceInfo g) (rs_rx g Hg) (rs_len g Hg)
    (rs_info g Hg) Hline) as (c' & d' & E & HI & Hlen & Hd).
  eapply wp_of_option; [done|]. wp_steps.
  destruct Hg as [_ _ Hsrb Hfds _]. by split.
Qed.

Lemma wp_read_485_recv g t : rs_inv g ->
  wp read_485_recv (fun _ => rs_quiet g t) g t.
Proof.
  intros Hg. unfold read_485_recv. wp_steps. destruct (rs_fds g Hg) as [H0 H1].
  apply wp_select; [by rewrite !Forall_cons|]. cbv zeta.
  set (r := dev_select _ _ _). set (t1 := EvSelect _ _ _ :: t).
  assert (Hq : rs_quiet g t g t1) by (split; done).
  assert (Hrecv : forall fd, wp (recv_from fd) (fun _ => rs_quiet g t) g t1).
  { intros fd. eapply wp_mono; [by apply wp_recv_from|].
    intros _ g' t' [? ? ? ? Hs]. by split. }
  repeat case_decide; try done.
Qed.

(** The command of turn [k]: full colour temperature, brightness rising from
    100 to 900 in steps of 200, then again. *)
Definition led_value (k : nat) : Z := 100 + 200 * Z.of_nat (k mod 5).
Definition led_frame (k : nat) : list Z :=
  preamble ++ encode (with_check
    (request_frame 0 (SetColour 0x02 0x00 (led_value k / 256) (led_value k mod 256)))).

Lemma led_value_range k : 100 <= led_value k <= 900.
Proof. unfold led_value. pose proof (Nat.mod_upper_bound k 5). lia. Qed.

(** The value the loop holds before turn [k]. *)
Definition led_before (k : nat) (v : Z) : Prop :=
  (if decide (v > 1000) then 100 else v) = led_value k.

Lemma led_before_step k : led_before (S k) (s32 (led_value k + 200)).
Proof.
  pose proof (led_value_range k). rewrite s32_id by lia.
  unfold led_before, led_value in *.
  assert (H5 : (S k mod 5 = if decide (k mod 5 = 4) then 0 else S (k mod 5))%nat).
  { pose proof (Nat.mod_upper_bound k 5). pose proof (Nat.div_mod_eq k 5).
    case_decide.
    - symmetry. apply (Nat.mod_unique _ _ (S (k / 5))); lia.
    - symmetry. apply (Nat.mod_unique _ _ (k / 5)); lia. }
  rewrite H5. pose proof (Nat.mod_upper_bound k 5).
  destruct (decide (k mod 5 = 4)%nat); case_decide; lia.
Qed.

Lemma wp_led_turn k v g t : rs_inv g -> led_before k v ->
  wp (led_turn v) (fun v' g' t' =>
    rs_inv g' /\ led_before (S k) v' /\ fd_485_USART1 g' = fd_485_USART1 g /\
    sent (fd_485_USART1 g) t' = sent (fd_485_USART1 g) t ++ [led_frame k]) g t.
Proof.
  intros Hg Hv. unfold led_turn. unfold led_before in Hv. rewrite Hv. cbv zeta.
  wp_steps. pose proof (led_value_range k) as Hr.
  change (setColorTemperatureBrightness ?a ?b ?c ?d) with (run_request (SetColour a b c d)).
  apply wp_run_request. cbv zeta. wp_steps. eapply wp_mono.
  { apply wp_read_485_recv. destruct Hg as [? ? Hsrb ? ?]. split; try done. simpl.
    rewrite SRB_step by done. zlia. }
  intros _ g' t' [Hg' _ Hfd _ Hsent]. wp_step.
  split; [done|]. split; [apply led_before_step|]. split; [done|].
  rewrite Hsent. simpl. rewrite decide_True by done. do 2 f_equal.
  unfold led_frame. simpl request_frame. simpl u8. 
  rewrite Z.shiftr_div_pow2 by lia. change 255 with (Z.ones 8).
  rewrite !Z.land_ones by lia. change (2 ^ 8) with 256.
  rewrite (Z.mod_small (led_value k / 256)) by zlia. done.
Qed.

Lemma wp_led_turns n : forall k v g t, rs_inv g -> led_before k v ->
  wp (led_turns n v) (fun _ g' t' =>
    rs_inv g' /\ fd_485_USART1 g' = fd_485_USART1 g /\
    sent (fd_485_USART1 g) t'
      = sent (fd_485_USART1 g) t ++ (led_frame <$> seq k n)) g t.
Proof.
  induction n as [|n IH]; intros k v g t Hg Hv; simpl.
  - wp_step. by rewrite app_nil_r.
  - wp_step. eapply wp_mono; [by apply wp_led_turn|].
    intros v' g' t' (Hg' & Hv' & Hfd & Hsent). eapply wp_mono; [by eapply IH|].
    intros _ g2 t2 (Hg2 & Hfd2 & Hs2). rewrite Hfd in Hfd2, Hs2.
    split; [done|]. split; [done|]. by rewrite Hs2, Hsent, <- (assoc_L app).
Qed.
End task.

(** The globals at start-up: zero, and the initialised device record. *)
Definition rs485_init (d : DEVICEINFO) : rs485 := mkRs485 ClearCommFrame 0 0 0 0 d.

(** C25: the RS485 task runs for ever without undefined behaviour on a line that
    keeps to [Line485]: after any number of turns it has sent the switch-on
    request and then, one a turn, brightness settings 100, 300, 500, 700, 900 and
    over again, each a well-formed frame with its check byte; and its receiver,
    counter and device record are in order. *)
Theorem task_485_runs `{D : Device} `{!Line485 D} n d :
  info_ok d ->
  wp (_485 n) (fun _ g t =>
    rs_inv g /\
    sent (fd_485_USART1 g) t =
      (preamble ++ encode (with_check (request_frame 0 (SetMainLed 0x41))))
      :: (led_frame <$> seq 0 n))
    (rs485_init d) [].
Proof.
  intros Hd. unfold _485, _485_start, _485_USART_Init. wp_steps.
  pose proof (line_open [] CONFIG_EXAMPLES_RS485A_DEVPATH) as H0.
  set (fd0 := dev_open [] _) in *. rewrite decide_False by (unfold fd_set_ok in H0; lia).
  wp_steps. set (t1 := [EvOpen _ fd0]).
  pose proof (line_open t1 CONFIG_EXAMPLES_RS485B_DEVPATH) as H1.
  set (fd1 := dev_open t1 _) in *. rewrite decide_False by (unfold fd_set_ok in H1; lia).
  assert (Hinit : forall m, rs_inv (mkRs485 ClearCommFrame 0 fd0 fd1 m d)).
  { intros m. by split. }
  apply (wp_mono _ (fun _ g t => exists m, g = mkRs485 ClearCommFrame 0 fd0 fd1 m d /\
    t = [EvOpen CONFIG_EXAMPLES_RS485B_DEVPATH fd1; EvOpen CONFIG_EXAMPLES_RS485A_DEVPATH fd0])).
  { case_decide; wp_steps; by eexists. }
  intros _ g t [m [-> ->]]. wp_steps.
  change (setMainLEDSwitch 0x41) with (run_request (SetMainLed 0x41)).
  apply wp_run_request. cbv zeta. wp_steps. eapply wp_mono.
  { apply wp_read_485_recv. destruct (Hinit m). by split. }
  intros _ g t [Hg _ Hfd _ Hsent]. simpl in Hfd, Hsent.
  apply (wp_mono _ _ _ _ _ (wp_led_turns n 0 100 g t Hg eq_refl)).
  intros _ g' t' (Hg' & Hfd' & Hs). split; [done|].
  rewrite Hfd', Hs, Hfd, Hsent. by rewrite decide_True by done.
Qed.

(** ** Witnesses *)

(** Slaves that keep sending one idle byte. *)
Definition idle_line : Device := {|
  dev_open t path := 3;
  dev_write t fd d := Z.of_nat (length d);
  dev_read t fd n := Some [0x31];
  dev_select t fds sec := (1, fds);
  dev_ioctl t fd cmd arg := (0, 0);
  dev_sigtimedwait t signo sec := signo
|}.

Lemma idle_line_ok : Line485 idle_line.
Proof.
  split; simpl.
  - intros t fd l [= <-]. simpl. lia.
  - intros t fd l [= <-]. unfold line_ok, is_byte. rewrite Forall_singleton. lia.
  - intros t path. unfold fd_set_ok. lia.
Qed.

Definition sample_info : DEVICEINFO :=
  mkDEVICEINFO (replicate 64 0) (replicate 36 0) (replicate 128 0) (replicate 4 0) 0 0 0 0 0 0.

Lemma sample_info_ok : info_ok sample_info.
Proof.
  split; try (split; [done|split; [by eexists|apply (bool_decide_unpack _); vm_compute; exact I]]).
  unfold is_short. simpl. repeat (apply Forall_cons; split); try done; apply Forall_nil_2.
Qed.

Lemma request_sent_witness :
  frame_ok (with_check (request_frame 5 ReqVoltage)) /\
  @run_request idle_line ReqVoltage (set_SRB 5 (rs485_init sample_info)) [] =
    Ret ((), set_SRB 6 (rs485_init sample_info),
         [EvWrite 0 (preamble ++ [0x68; 0x45; 0x00; 0x20; 0x08; 0xC0; 0x00; 0x13; 0x10; 0x01; 0x05; 0xBE; 0x16]) 16]).
Proof. apply (@request_sent idle_line ReqVoltage (set_SRB 5 (rs485_init sample_info)) []). simpl. lia. Defined.

Lemma request_loopback_witness :
  exists g' t' c fs,
    @run_requests idle_line [ReqVoltage; SetMainLed 0x41] (set_SRB 15 (rs485_init sample_info)) []
      = Ret ((), g', t') /\
    rx_run ClearCommFrame (concat (sent 0 t')) = Some (c, fs) /\
    frame_of <$> fs = request_frames 15 [ReqVoltage; SetMainLed 0x41].
Proof.
  apply (@request_loopback idle_line _ (set_SRB 15 (rs485_init sample_info))). simpl. lia.
Defined.

Lemma task_485_runs_witness :
  wp (@_485 idle_line 7) (fun _ g t =>
    rs_inv g /\
    sent (fd_485_USART1 g) t =
      (preamble ++ encode (with_check (request_frame 0 (SetMainLed 0x41))))
      :: (led_frame <$> seq 0 7))
    (rs485_init sample_info) [].
Proof. apply (@task_485_runs idle_line idle_line_ok). apply sample_info_ok. Defined.
