(* ===== verification/NbAt.v ===== *)
(** * The AT command engine of the NB-IoT modem

    Models src/apps/examples/NB_Iot/NB_Iot.c up to the main loop: opening the
    ports, one command with its expected answer, the power-on sequence of the
    BC95, the wait for the network, the number parser, and the two UDP commands.

    The theorems speak of the dialogue on the modem port: the commands written
    and, for each, the texts read before the next one. *)

From S2P Require Import Prelude Hex CString Env Gpio.

(** ** Globals of NB_Iot.c *)

Record nb := mkNb {
  fd_NB_Iot_USART : Z;
  fd_NB_Iot_USART_GPIO_INT : Z;
  fd_NB_Iot_CPU_RST_NB : Z;
  fd_NB_Iot_NB_PWR_EN : Z;
  check_ack_timeout : Z;        (* UInt8 *)
  ue_exist_flag : Z;            (* UInt8 *)
  ue_need_reboot_flag : Z;      (* UInt8 *)
  NB_Iot_rcvd_buf : list Z      (* char[256] *)
}.

Definition set_usart v g := mkNb v (fd_NB_Iot_USART_GPIO_INT g) (fd_NB_Iot_CPU_RST_NB g) (fd_NB_Iot_NB_PWR_EN g) (check_ack_timeout g) (ue_exist_flag g) (ue_need_reboot_flag g) (NB_Iot_rcvd_buf g).
Definition set_int v g := mkNb (fd_NB_Iot_USART g) v (fd_NB_Iot_CPU_RST_NB g) (fd_NB_Iot_NB_PWR_EN g) (check_ack_timeout g) (ue_exist_flag g) (ue_need_reboot_flag g) (NB_Iot_rcvd_buf g).
Definition set_rst v g := mkNb (fd_NB_Iot_USART g) (fd_NB_Iot_USART_GPIO_INT g) v (fd_NB_Iot_NB_PWR_EN g) (check_ack_timeout g) (ue_exist_flag g) (ue_need_reboot_flag g) (NB_Iot_rcvd_buf g).
Definition set_pwr v g := mkNb (fd_NB_Iot_USART g) (fd_NB_Iot_USART_GPIO_INT g) (fd_NB_Iot_CPU_RST_NB g) v (check_ack_timeout g) (ue_exist_flag g) (ue_need_reboot_flag g) (NB_Iot_rcvd_buf g).
Definition set_timeout v g := mkNb (fd_NB_Iot_USART g) (fd_NB_Iot_USART_GPIO_INT g) (fd_NB_Iot_CPU_RST_NB g) (fd_NB_Iot_NB_PWR_EN g) v (ue_exist_flag g) (ue_need_reboot_flag g) (NB_Iot_rcvd_buf g).
Definition set_exist v g := mkNb (fd_NB_Iot_USART g) (fd_NB_Iot_USART_GPIO_INT g) (fd_NB_Iot_CPU_RST_NB g) (fd_NB_Iot_NB_PWR_EN g) (check_ack_timeout g) v (ue_need_reboot_flag g) (NB_Iot_rcvd_buf g).
Definition set_reboot v g := mkNb (fd_NB_Iot_USART g) (fd_NB_Iot_USART_GPIO_INT g) (fd_NB_Iot_CPU_RST_NB g) (fd_NB_Iot_NB_PWR_EN g) (check_ack_timeout g) (ue_exist_flag g) v (NB_Iot_rcvd_buf g).
Definition set_rcvd v g := mkNb (fd_NB_Iot_USART g) (fd_NB_Iot_USART_GPIO_INT g) (fd_NB_Iot_CPU_RST_NB g) (fd_NB_Iot_NB_PWR_EN g) (check_ack_timeout g) (ue_exist_flag g) (ue_need_reboot_flag g) v.

(** The values of the globals before the task runs. *)
Definition nb_init : nb := mkNb 0 0 0 0 10 0 0 (replicate 256 0).

Definition CONFIG_EXAMPLES_NB_IOT_DEVPATH : string := "/dev/ttyS3".
Definition CONFIG_EXAMPLES_GPIO_NB_UART_INT_DEVPATH : string := "/dev/gpint10".
Definition CONFIG_EXAMPLES_CPU_RST_NB_DEVPATH : string := "/dev/gpout0".
Definition CONFIG_EXAMPLES_NB_PWR_EN_0_DEVPATH : string := "/dev/gpout1".

(** A string literal is an array that ends with its NUL. *)
Definition lit (s : string) : list Z := bs s ++ [0].

Definition UE_LOCAL_UDP_PORT : list Z := lit "3005".
Definition SERVER_HOST_UDP_IP : list Z := lit "111.198.38.70".
Definition SERVER_HOST_UDP_PORT : list Z := lit "9999".
Definition SET_UE_DEFAULT_BAND : list Z := lit "AT+NBAND=5".
Definition UE_DEFAULT_BAND : list Z := lit "+NBAND:5".
Definition SET_UE_REBOOT : list Z := lit "AT+NRB".
Definition QUERY_UE_BAND : list Z := lit "AT+NBAND?".
Definition QUERY_UE_CONNECT_MODE : list Z := lit "AT+NCONFIG?".
Definition SET_UE_AUTOCONNECT : list Z := lit "AT+NCONFIG=AUTOCONNECT,TRUE".
Definition QUERY_UE_ATTACH_STATS : list Z := lit "AT+CGATT?".
Definition UE_ATTACHED_STATS : list Z := lit "+CGATT:1".
Definition QUERY_UE_EREG_STATS : list Z := lit "AT+CEREG?".
Definition UE_EREGISTERED_STATS : list Z := lit "+CEREG:0,1".
Definition QUERY_UE_SCCON_STATS : list Z := lit "AT+CSCON?".
Definition UE_CONNECTED : list Z := lit "+CSCON:0,1".

(** ** Numbers *)

(** The scan over leading spaces, from index [i] *)
Fixpoint skip_spaces (fuel : nat) (str : list Z) (i : Z) : option Z :=
  match fuel with
  | O => None
  | S fuel =>
      c ← aget str i;
      if decide (c = 32) then skip_spaces fuel str (i + 1) else Some i
  end.

(** The digit loop; [int] arithmetic wraps. *)
Fixpoint digits_loop (fuel : nat) (str : list Z) (i s : Z) : option Z :=
  match fuel with
  | O => None
  | S fuel =>
      c ← aget str i;
      if decide (48 <= c <= 57) then
        let s' := s32 (s32 (s32 (s * 10) + c) - 48) in
        if decide (s' < 0) then Some 2147483647
        else digits_loop fuel str (i + 1) s'
      else Some s
  end.

Definition myatoi (str : list Z) : option Z :=
  i ← skip_spaces (S (length str)) str 0;
  c ← aget str i;
  let falg := decide (c = 45) in
  let i' := if decide (c = 45 \/ c = 43) then i + 1 else i in
  s ← digits_loop (S (length str)) str i' 0;
  Some (s32 (s * (if falg then -1 else 1))).

Section engine.
Context `{D : Device}.

Definition delay_ms (ms : Z) : io nb () := usleep (u16 ms * 1000).

Definition NB_Iot_USART_Init : io nb () :=
  fd ← io_open CONFIG_EXAMPLES_NB_IOT_DEVPATH;
  modify (set_usart fd);;
  if decide (fd < 0) then mret () else
  fd ← io_open CONFIG_EXAMPLES_GPIO_NB_UART_INT_DEVPATH;
  modify (set_int fd).

Definition NB_Iot_GPIO_Init : io nb () :=
  fd ← io_open CONFIG_EXAMPLES_CPU_RST_NB_DEVPATH;
  modify (set_rst fd);;
  if decide (fd < 0) then mret () else
  fd ← io_open CONFIG_EXAMPLES_NB_PWR_EN_0_DEVPATH;
  modify (set_pwr fd).

(** The answer read next, as a pointer to the expected text in the receive
    array, or null.  The array is printed as a string first. *)
Definition NB_Iot_check_ack (str : list Z) : io nb (option (list Z)) :=
  fd ← gets fd_NB_Iot_USART;
  r ← io_read fd 256;
  modify (set_rcvd (fill 256 r));;
  tcflush fd;;
  buf ← gets NB_Iot_rcvd_buf;
  of_option (c_str buf);;
  of_option (strstr buf str).

(** [ack] is [None] for a null pointer.  The local array is uninitialised; what
    is behind the string in it is never read. *)
Definition NB_Iot_send_cmd (cmd : list Z) (ack : option (list Z)) (waittime : Z) : io nb Z :=
  s ← of_option (c_str cmd);
  sendcmd ← of_option (store_str (replicate 600 0) 0 (s ++ [13; 10]));
  len ← of_option (strlen sendcmd);
  fd ← gets fd_NB_Iot_USART;
  io_write fd (take (Z.to_nat len) sendcmd);;
  match ack with
  | Some ack =>
      if decide (u16 waittime <> 0) then
        iRet ← select_read [fd] (u16 waittime);
        if decide (iRet.1 < 0) then mret 1
        else if decide (iRet.1 = 0) then mret 1
        else if decide (fd ∈ iRet.2) then
          delay_ms 100;;
          p ← NB_Iot_check_ack ack;
          match p with Some _ => mret 0 | None => mret 1 end
        else mret 1
      else mret 1
  | None => mret 1
  end.

(** ** Power-on *)

(** [while(NB_Iot_send_cmd("AT","OK",5)&&check_ack_timeout)], one round. *)
Definition at_round (_ : ()) : io nb (() + ()) :=
  r ← NB_Iot_send_cmd (lit "AT") (Some (lit "OK")) 5;
  n ← gets check_ack_timeout;
  if decide (r <> 0 /\ n <> 0) then
    (if decide (n <> 0) then
       modify (set_timeout (u8 (n - 1)));;
       modify (set_exist 0)
     else mret ());;
    delay_ms 1000;;
    mret (inl ())
  else mret (inr ()).

(** [while(check_ack_timeout)] of the connect mode, one round. *)
Definition autoconnect_round (_ : ()) : io nb (() + ()) :=
  n ← gets check_ack_timeout;
  if decide (n <> 0) then
    modify (set_timeout (u8 (n - 1)));;
    r ← NB_Iot_send_cmd SET_UE_AUTOCONNECT (Some (lit "OK")) 1;
    if decide (r <> 0) then mret (inr ())
    else delay_ms 1000;; mret (inl ())
  else mret (inr ()).

(** [while(check_ack_timeout&&!NB_Iot_check_ack("Neul"))], one round. *)
Definition neul_round (_ : ()) : io nb (() + ()) :=
  n ← gets check_ack_timeout;
  if decide (n <> 0) then
    p ← NB_Iot_check_ack (lit "Neul");
    match p with
    | Some _ => mret (inr ())
    | None =>
        q ← NB_Iot_check_ack (lit "Neul");
        match q with
        | Some _ => mret (inr ())
        | None =>
            modify (fun g => set_timeout (u8 (check_ack_timeout g - 1)) g);;
            delay_ms 1000;;
            mret (inl ())
        end
    end
  else mret (inr ()).

Definition power_on_mode : io nb () :=
  e ← gets ue_exist_flag;
  if decide (e <> 0) then
    r ← NB_Iot_send_cmd QUERY_UE_CONNECT_MODE (Some (lit "AUTOCONNECT,FALSE")) 1;
    if decide (r = 0) then
      modify (set_timeout 3);;
      loop 16 autoconnect_round ();;
      modify (set_reboot 1)
    else mret ()
  else mret ().

Definition power_on_band : io nb () :=
  e ← gets ue_exist_flag;
  if decide (e <> 0) then
    r ← NB_Iot_send_cmd QUERY_UE_BAND (Some UE_DEFAULT_BAND) 1;
    if decide (r <> 0) then
      NB_Iot_send_cmd SET_UE_DEFAULT_BAND (Some UE_DEFAULT_BAND) 1;;
      modify (set_reboot 1)
    else mret ()
  else mret ().

Definition power_on_reboot : io nb () :=
  e ← gets ue_exist_flag;
  n ← gets ue_need_reboot_flag;
  if decide (e <> 0 /\ n <> 0) then
    modify (set_reboot 0);;
    modify (set_timeout 10);;
    NB_Iot_send_cmd SET_UE_REBOOT (Some (lit "REBOOT")) 1;;
    loop 16 neul_round ()
  else mret ().

Definition BC95_power_on : io nb () :=
  modify (set_timeout 10);;
  modify (set_exist 1);;
  loop 16 at_round ();;
  power_on_mode;;
  power_on_band;;
  power_on_reboot.

(** ** Network *)

(** One round of the loop of [query_net_status]; the state is [res],
    [attached_flag], [registered_flag]. *)
Definition net_round (st : Z * bool * bool) : io nb ((Z * bool * bool) + Z) :=
  let '(res, attached, registered) := st in
  n ← gets check_ack_timeout;
  if decide (~ (attached = true /\ registered = true) /\ n <> 0) then
    r ← NB_Iot_send_cmd QUERY_UE_SCCON_STATS (Some UE_CONNECTED) 1;
    if decide (r = 0) then mret (inr 1)
    else
      st1 ← (if attached then mret (res, true)
             else
               r ← NB_Iot_send_cmd QUERY_UE_ATTACH_STATS (Some UE_ATTACHED_STATS) 1;
               if decide (r = 0) then mret (2, true) else mret (res, false));
      st2 ← (if decide (st1.2 = true /\ registered = false) then
               r ← NB_Iot_send_cmd QUERY_UE_EREG_STATS (Some UE_EREGISTERED_STATS) 1;
               if decide (r = 0) then mret (1, true) else mret (st1.1, false)
             else mret (st1.1, registered));
      modify (fun g => set_timeout (u8 (check_ack_timeout g - 1)) g);;
      delay_ms 500;;
      mret (inl (st2.1, st1.2, st2.2))
  else mret (inr res).

Definition query_net_status : io nb Z :=
  modify (set_timeout 20);;
  loop 32 net_round (0, false, false).

(** ** UDP *)

(** [pos] and [len] are [char]; the destination is the caller's array. *)
Definition get_str_data (des : list Z) (pos len : Z) : io nb (list Z) :=
  buf ← gets NB_Iot_rcvd_buf;
  of_option (c_str buf);;
  let p := Z.to_nat (u8 pos) in
  let n := Z.to_nat (u8 len) in
  if decide (p + n <= length buf /\ n <= length des)%nat
  then mret (take n (drop p buf) ++ drop n des)
  else undefined.

Definition creat_UDP_socket (local_port : list Z) : io nb Z :=
  temp ← of_option (store_str (replicate 64 0) 0 (bs "AT+NSOCR=DGRAM,17,"));
  temp ← of_option (strcat temp local_port);
  temp ← of_option (strcat temp (lit ",1"));
  r ← NB_Iot_send_cmd temp (Some (lit "OK")) 100;
  if decide (r = 0) then
    data ← get_str_data (replicate 10 0) 2 1;
    v ← of_option (myatoi data);
    mret (u8 v)
  else mret 7.

Definition send_UDP_msg (socket hostIP port dataLen data : list Z) : io nb Z :=
  ptr ← of_option (store_str (replicate 600 0) 0 (bs "AT+NSOST="));
  ptr ← of_option (strcat ptr socket);
  ptr ← of_option (strcat ptr (lit ","));
  ptr ← of_option (strcat ptr hostIP);
  ptr ← of_option (strcat ptr (lit ","));
  ptr ← of_option (strcat ptr port);
  ptr ← of_option (strcat ptr (lit ","));
  ptr ← of_option (strcat ptr dataLen);
  ptr ← of_option (strcat ptr (lit ","));
  ptr ← of_option (strcat ptr data);
  r ← NB_Iot_send_cmd ptr (Some (lit "OK")) 200;
  if decide (r = 0) then mret 0 else mret 1.
End engine.

(** ** Dialogues *)

(** A command written to the port and the texts read after it. *)
Notation exchange := (list Z * list (list Z))%type.

(** Texts read belong to the newest command. *)
Definition heard (rs : list (list Z)) (d : list exchange) : list exchange :=
  match d with
  | [] => []
  | (c, rs0) :: d => (c, rs ++ rs0) :: d
  end.

(** The dialogue on a port, newest exchange first. *)
Fixpoint dialogue (fd : Z) (t : trace) : list exchange :=
  match t with
  | [] => []
  | EvWrite fd' c _ :: t => if decide (fd' = fd) then (c, []) :: dialogue fd t else dialogue fd t
  | EvRead fd' (Some l) :: t => if decide (fd' = fd) then heard [l] (dialogue fd t) else dialogue fd t
  | _ :: t => dialogue fd t
  end.

(** The text of a read: what is in front of its first NUL. *)
Definition text_of (l : list Z) : list Z := default [] (c_str (l ++ [0])).

Definition contains (a s : list Z) : bool :=
  match find_sub a s with Some _ => true | None => false end.

Definition answered (a : list Z) (rs : list (list Z)) : bool :=
  existsb (fun l => contains a (text_of l)) rs.

(** A command as it goes over the line. *)
Definition line (s : string) : list Z := bs s ++ [13; 10].

Lemma heard_nil d : heard [] d = d.
Proof. by destruct d as [|[c rs] d]. Qed.

Lemma heard_app rs rs' d : heard rs (heard rs' d) = heard (rs ++ rs') d.
Proof. destruct d as [|[c rs0] d]; simpl; [done|]. by rewrite (assoc_L app). Qed.

Lemma c_str_zeros l n : (0 < n)%nat -> c_str (l ++ replicate n 0) = c_str (l ++ [0]).
Proof.
  intros Hn. induction l as [|c l IH]; simpl.
  - by destruct n; [lia|].
  - by rewrite IH.
Qed.

Lemma c_str_text_of l : c_str (l ++ [0]) = Some (text_of l).
Proof.
  unfold text_of. destruct (c_str_in (l ++ [0])) as [s ->]; [|done].
  apply elem_of_app. right. apply elem_of_cons; by left.
Qed.

Lemma c_str_fill_text l n : (length l < n)%nat -> c_str (fill n (Some l)) = Some (text_of l).
Proof. intros H. simpl. rewrite c_str_zeros by lia. apply c_str_text_of. Qed.

Lemma strlen_c_str a s : c_str a = Some s -> strlen a = Some (Z.of_nat (length s)).
Proof. intros H. by rewrite strlen_spec, H. Qed.

(** The answers of the modem fit the receive array with its NUL. *)
Class Modem (D : Device) := {
  modem_fits t fd l : dev_read t fd 256 = Some l -> (length l < 256)%nat
}.

Definition buf_ok (buf : list Z) : Prop := length buf = 256%nat /\ is_Some (c_str buf).

Lemma fill_ok r : (forall l, r = Some l -> (length l < 256)%nat) -> buf_ok (fill 256 r).
Proof.
  intros H. split.
  - destruct r as [l|]; simpl; [|done]. specialize (H l eq_refl).
    rewrite length_app, length_replicate. lia.
  - destruct r as [l|]; [by apply c_str_fill, H|by eexists].
Qed.

(** What one read-and-look leaves: the replies heard, the array, nothing else. *)
Record looked (a : list Z) (rs : list (list Z)) (g g' : nb) : Prop := {
  lk_buf : exists buf, g' = set_rcvd buf g /\
             (buf_ok buf \/ buf = NB_Iot_rcvd_buf g);
  lk_last : answered a rs = true -> exists l, rs = [l] /\
             NB_Iot_rcvd_buf g' = fill 256 (Some l) /\ (length l < 256)%nat
}.

Section engine_facts.
Context `{D : Device} `{HM : !Modem D}.

Lemma wp_check_ack str a g t :
  c_str str = Some a -> a <> [] ->
  wp (NB_Iot_check_ack str) (fun p g' t' => exists rs,
    dialogue (fd_NB_Iot_USART g) t' = heard rs (dialogue (fd_NB_Iot_USART g) t) /\
    (match p with Some _ => true | None => false end) = answered a rs /\
    looked a rs g g') g t.
Proof.
  intros Ha Hne. unfold NB_Iot_check_ack. wp_steps.
  set (r := dev_read _ _ _).
  assert (Hfit : forall l, r = Some l -> (length l < 256)%nat).
  { intros l. subst r. apply modem_fits. }
  destruct (fill_ok r Hfit) as [Hlen [s Hs]].
  eapply wp_of_option; [done|]. wp_steps.
  eapply wp_of_option; [by apply strstr_spec|].
  simpl NB_Iot_rcvd_buf in *. destruct r as [l|] eqn:Er; simpl dialogue.
  - exists [l]. rewrite decide_True by done. split; [done|].
    rewrite (c_str_fill_text l 256) in Hs by auto. injection Hs as <-.
    split; [|split].
    + unfold answered, contains. simpl. rewrite orb_false_r. by destruct (find_sub _ _).
    + eexists. split; [done|]. left. by apply fill_ok.
    + intros _. exists l. auto.
  - exists []. rewrite heard_nil. split; [done|].
    simpl in Hs. injection Hs as <-. split; [|split].
    + simpl. destruct a as [|c a]; done.
    + eexists. split; [done|]. left. by apply fill_ok.
    + done.
Qed.

(** One command: it is written with its line end; the answer is 0 when a text
    read within the time holds the expected one, 1 in every other case. *)
Lemma wp_send_cmd cmd s str a wait g t :
  c_str cmd = Some s -> (length s <= 597)%nat ->
  c_str str = Some a -> a <> [] -> 0 < wait < 65536 ->
  fd_set_ok (fd_NB_Iot_USART g) ->
  wp (NB_Iot_send_cmd cmd (Some str) wait) (fun r g' t' => exists rs,
    dialogue (fd_NB_Iot_USART g) t' = (s ++ [13; 10], rs) :: dialogue (fd_NB_Iot_USART g) t /\
    r = (if answered a rs then 0 else 1) /\
    looked a rs g g') g t.
Proof.
  intros Hs Hlen Ha Hne Hw Hfd. unfold NB_Iot_send_cmd. wp_steps.
  eapply wp_of_option; [done|]. wp_steps.
  pose proof (proj1 (c_str_Some _ _ Hs)) as Hnz.
  assert (Hnz' : Forall (fun c => c <> 0) (s ++ [13; 10])).
  { apply Forall_app. split; [done|]. by repeat constructor. }
  eapply wp_of_option; [apply store_str_0; rewrite length_app, length_replicate; simpl; lia|].
  wp_steps. eapply wp_of_option; [apply strlen_c_str, c_str_app; exact Hnz'|]. wp_steps.
  rewrite Nat2Z.id, take_app_length.
  rewrite decide_True by (unfold u16; rewrite Z.mod_small; lia).
  set (t1 := EvWrite _ _ _ :: t).
  assert (Hd1 : dialogue (fd_NB_Iot_USART g) t1
    = (s ++ [13; 10], []) :: dialogue (fd_NB_Iot_USART g) t).
  { simpl. by rewrite decide_True. }
  wp_step. apply wp_select; [by rewrite Forall_singleton|]. cbv zeta.
  assert (Hno : forall e, dialogue (fd_NB_Iot_USART g) (e :: t1) = dialogue (fd_NB_Iot_USART g) t1 ->
    wp (mret 1 : io nb Z) (fun r g' t' => exists rs,
      dialogue (fd_NB_Iot_USART g) t' = (s ++ [13; 10], rs) :: dialogue (fd_NB_Iot_USART g) t /\
      r = (if answered a rs then 0 else 1) /\ looked a rs g g') g (e :: t1)).
  { intros e He. wp_step. exists []. rewrite He, Hd1. split; [done|]. split; [done|].
    split; [|done]. exists (NB_Iot_rcvd_buf g). split; [by destruct g|by right]. }
  repeat case_decide; try by apply Hno.
  unfold delay_ms. wp_steps. eapply wp_mono; [by eapply wp_check_ack|].
  intros p g' t' (rs & Hd & Hp & Hlk).
  destruct p; wp_step; exists rs; simpl in Hd; rewrite Hd, decide_True by done;
    simpl; rewrite app_nil_r; by rewrite <- Hp.
Qed.
End engine_facts.

(** ** The power-on dialogue *)

(** The port can be waited on and the receive array holds a string. *)
Definition nb_ok (g : nb) : Prop :=
  fd_set_ok (fd_NB_Iot_USART g) /\ buf_ok (NB_Iot_rcvd_buf g).

Definition asks (c : string) (e : exchange) : Prop := e.1 = line c.
Definition yes (a : string) (e : exchange) : bool := answered (bs a) e.2.

(** Dialogues below are oldest first.  AT until the module answers, eleven times
    at most. *)
Definition at_phase (d : list exchange) : Prop :=
  exists k e, d = k ++ [e] /\ Forall (fun e => asks "AT" e /\ yes "OK" e = false) k /\
    asks "AT" e /\ (length k <= 10)%nat /\ (yes "OK" e = true \/ length k = 10%nat).

(** The connect mode is asked for; when it is manual, automatic mode is set, as
    often as the module answers OK, three times at most. *)
Definition mode_phase (d : list exchange) (reboot : bool) : Prop :=
  exists q sets, d = q :: sets /\ asks "AT+NCONFIG?" q /\
    reboot = yes "AUTOCONNECT,FALSE" q /\
    Forall (asks "AT+NCONFIG=AUTOCONNECT,TRUE") sets /\
    if reboot then
      exists k e, sets = k ++ [e] /\ Forall (fun e => yes "OK" e = true) k /\
        (length k <= 2)%nat /\ (yes "OK" e = true -> length k = 2%nat)
    else sets = [].

(** The band is asked for and set when it is not the default one. *)
Definition band_phase (d : list exchange) (reboot : bool) : Prop :=
  exists q, asks "AT+NBAND?" q /\ reboot = negb (yes "+NBAND:5" q) /\
    if reboot then exists e, d = [q; e] /\ asks "AT+NBAND=5" e else d = [q].

Definition reboot_phase (d : list exchange) (reboot : bool) : Prop :=
  if reboot then exists e, d = [e] /\ asks "AT+NRB" e else d = [].

(** A run from [g], [t] to [g'], [t'] that held the dialogue [d] and keeps the
    port and the array in order. *)
Record talked (d : list exchange) (g : nb) (t : trace) (g' : nb) (t' : trace) : Prop := {
  tk_dialogue : dialogue (fd_NB_Iot_USART g) t' = rev d ++ dialogue (fd_NB_Iot_USART g) t;
  tk_fd : fd_NB_Iot_USART g' = fd_NB_Iot_USART g;
  tk_ok : nb_ok g'
}.

Lemma talked_nil g t : nb_ok g -> talked [] g t g t.
Proof. by split. Qed.

Lemma talked_trans d1 d2 g1 t1 g2 t2 g3 t3 :
  talked d1 g1 t1 g2 t2 -> talked d2 g2 t2 g3 t3 -> talked (d1 ++ d2) g1 t1 g3 t3.
Proof.
  intros [D1 F1 _] [D2 F2 O2]. split; [|congruence|done].
  rewrite F1 in D2. rewrite D2, D1. rewrite rev_app_distr. by rewrite (assoc_L app).
Qed.

(** Steps that change neither the port, nor the array, nor the dialogue. *)
Lemma talked_frame d g t g1 t1 g' t' :
  talked d g t g1 t1 -> fd_NB_Iot_USART g' = fd_NB_Iot_USART g1 ->
  NB_Iot_rcvd_buf g' = NB_Iot_rcvd_buf g1 ->
  dialogue (fd_NB_Iot_USART g) t' = dialogue (fd_NB_Iot_USART g) t1 ->
  talked d g t g' t'.
Proof.
  intros [Hd Hf [Ho Hb]] Hfd Hbuf Ht. split; [congruence|congruence|].
  split; congruence.
Qed.

Section power_on_facts.
Context `{D : Device} `{HM : !Modem D}.

(** The rule for a command given by literals. *)
Lemma wp_cmd (c a : string) wait g t (Q : Z -> nb -> trace -> Prop) :
  bool_decide (Forall (fun x => x <> 0) (bs c) /\ (length (bs c) <= 597)%nat /\
    Forall (fun x => x <> 0) (bs a) /\ bs a <> [] /\ 0 < wait < 65536) = true ->
  nb_ok g ->
  (forall e buf t', asks c e -> talked [e] g t (set_rcvd buf g) t' ->
    Q (if yes a e then 0 else 1) (set_rcvd buf g) t') ->
  wp (NB_Iot_send_cmd (lit c) (Some (lit a)) wait) Q g t.
Proof.
  intros (Hc & Hlen & Ha & Hne & Hw)%bool_decide_eq_true [Hfd Hbuf] HQ. eapply wp_mono.
  { eapply wp_send_cmd; try done; unfold lit; by apply c_str_app. }
  intros r g' t' (rs & Hd & -> & [(buf & -> & Hb) _]).
  apply (HQ (line c, rs)); [done|]. split; [done|done|]. split; [done|].
  by destruct Hb as [?| ->].
Qed.
End power_on_facts.

(** Step over a command given by literals. *)
Ltac wp_cmd_step :=
  wp_step; apply wp_cmd; [vm_compute; reflexivity | try done | ].

Section power_on_proof.
Context `{D : Device} `{HM : !Modem D}.

Lemma wp_at_loop g t :
  nb_ok g -> check_ack_timeout g = 10 -> ue_exist_flag g = 1 ->
  wp (loop 16 at_round ()) (fun _ g' t' => exists d,
    talked d g t g' t' /\ at_phase d /\
    ue_need_reboot_flag g' = ue_need_reboot_flag g /\
    ue_exist_flag g' = (if decide (length d = 1)%nat then 1 else 0)) g t.
Proof.
  intros Hg Hn He.
  apply (wp_loop (fun _ g' t' => exists k, talked k g t g' t' /\
    Forall (fun e => asks "AT" e /\ yes "OK" e = false) k /\ (length k <= 10)%nat /\
    check_ack_timeout g' = 10 - Z.of_nat (length k) /\
    ue_need_reboot_flag g' = ue_need_reboot_flag g /\
    ue_exist_flag g' = (if decide (length k = 0)%nat then 1 else 0))
    (fun _ g' => Z.to_nat (check_ack_timeout g'))).
  2: { exists []. rewrite Hn, He. split; [by apply talked_nil|]. split_and!; simpl; done || lia. }
  2: { rewrite Hn. vm_compute. lia. }
  intros [] g1 t1 (k & Hk & Hall & Hlen & Hn1 & Hrb & He1).
  unfold at_round, delay_ms. wp_cmd_step; [apply Hk|]. intros e buf t' Hask Hd.
  pose proof (talked_trans _ _ _ _ _ _ _ _ Hk Hd) as Hke.
  wp_steps. change (check_ack_timeout (set_rcvd buf g1)) with (check_ack_timeout g1).
  wp_if as [Hr|Hr]; wp_steps.
  - destruct Hr as [Hr Hnz]. rewrite (decide_True (P := check_ack_timeout g1 <> 0)) by done.
    wp_steps. destruct (yes "OK" e) eqn:Hy; [done|]. simpl. rewrite u8_id by (unfold is_byte; lia).
    split; [|lia]. exists (k ++ [e]). split; [by eapply talked_frame|].
    rewrite length_app, decide_False by (simpl; lia). simpl. split_and!; try done; try lia.
    apply Forall_app. by rewrite Forall_singleton.
  - exists (k ++ [e]). split; [done|]. split; [|split; [done|]].
    + exists k, e. split_and!; try done. destruct (yes "OK" e); [by left|right]. lia.
    + rewrite length_app. simpl. rewrite He1. repeat case_decide; lia.
Qed.

Lemma wp_autoconnect_loop g t :
  nb_ok g -> check_ack_timeout g = 3 ->
  wp (loop 16 autoconnect_round ()) (fun _ g' t' => exists k e,
    talked (k ++ [e]) g t g' t' /\ Forall (asks "AT+NCONFIG=AUTOCONNECT,TRUE") (k ++ [e]) /\
    Forall (fun e => yes "OK" e = true) k /\ (length k <= 2)%nat /\
    (yes "OK" e = true -> length k = 2%nat) /\ ue_exist_flag g' = ue_exist_flag g) g t.
Proof.
  intros Hg Hn.
  apply (wp_loop (fun _ g' t' => exists k, talked k g t g' t' /\
    Forall (asks "AT+NCONFIG=AUTOCONNECT,TRUE") k /\
    Forall (fun e => yes "OK" e = true) k /\ (length k <= 3)%nat /\
    check_ack_timeout g' = 3 - Z.of_nat (length k) /\ ue_exist_flag g' = ue_exist_flag g)
    (fun _ g' => Z.to_nat (check_ack_timeout g'))).
  2: { exists []. rewrite Hn. split; [by apply talked_nil|]. split_and!; simpl; done || lia. }
  2: { rewrite Hn. vm_compute. lia. }
  intros [] g1 t1 (k & Hk & Hall & Hy & Hlen & Hn1 & He1).
  unfold autoconnect_round, delay_ms. wp_steps. wp_if as [Hnz|Hnz].
  - wp_steps. apply wp_cmd; [by vm_compute|apply Hk|]. intros e buf t' Hask Hd.
    assert (Hke : talked (k ++ [e]) g t (set_rcvd buf (set_timeout (u8 (check_ack_timeout g1 - 1)) g1)) t').
    { eapply talked_trans; [|done]. by eapply talked_frame. }
    wp_if as [Hr|Hr]; wp_steps.
    + destruct (yes "OK" e) eqn:Hye; [done|]. exists k, e. split_and!; try done; [|lia|congruence].
      apply Forall_app. by rewrite Forall_singleton.
    + destruct (yes "OK" e) eqn:Hye; [|lia]. simpl. rewrite u8_id by (unfold is_byte; lia).
      split; [|lia]. exists (k ++ [e]). rewrite length_app. simpl.
      split; [by eapply talked_frame|]. split_and!; try done; try lia;
        apply Forall_app; by rewrite Forall_singleton.
  - wp_step. assert (Hl : length k = 3%nat) by lia.
    destruct k as [|a [|b [|c [|? ?]]]]; simpl in Hl; try lia.
    exists [a; b], c. rewrite !Forall_cons in Hy. rewrite (Forall_cons _ a), (Forall_cons _ b), Forall_nil.
    split_and!; try done; simpl; try lia; tauto.
Qed.

(** Waiting for the banner only listens. *)
Lemma wp_neul_loop g t :
  nb_ok g -> 0 <= check_ack_timeout g <= 10 ->
  wp (loop 16 neul_round ()) (fun _ g' t' => exists rs,
    dialogue (fd_NB_Iot_USART g) t' = heard rs (dialogue (fd_NB_Iot_USART g) t) /\
    fd_NB_Iot_USART g' = fd_NB_Iot_USART g /\ nb_ok g' /\
    ue_need_reboot_flag g' = ue_need_reboot_flag g /\ ue_exist_flag g' = ue_exist_flag g) g t.
Proof.
  intros Hg Hn.
  assert (Hstep : forall rs g1 t1 a rs' g2 t2,
    dialogue (fd_NB_Iot_USART g) t1 = heard rs (dialogue (fd_NB_Iot_USART g) t) ->
    fd_NB_Iot_USART g1 = fd_NB_Iot_USART g -> nb_ok g1 ->
    dialogue (fd_NB_Iot_USART g1) t2 = heard rs' (dialogue (fd_NB_Iot_USART g1) t1) ->
    looked a rs' g1 g2 ->
    dialogue (fd_NB_Iot_USART g) t2 = heard (rs' ++ rs) (dialogue (fd_NB_Iot_USART g) t) /\
    nb_ok g2 /\ exists buf, g2 = set_rcvd buf g1).
  { intros rs g1 t1 a rs' g2 t2 Hd1 Hf1 [Ho Hb] Hd2 [(buf & -> & Hbuf) _].
    rewrite Hf1, Hd1, heard_app in Hd2. split; [done|]. split; [|by eexists].
    split; [done|]. by destruct Hbuf as [?| ->]. }
  apply (wp_loop (fun _ g' t' => exists rs,
    dialogue (fd_NB_Iot_USART g) t' = heard rs (dialogue (fd_NB_Iot_USART g) t) /\
    fd_NB_Iot_USART g' = fd_NB_Iot_USART g /\ nb_ok g' /\
    ue_need_reboot_flag g' = ue_need_reboot_flag g /\ ue_exist_flag g' = ue_exist_flag g /\
    0 <= check_ack_timeout g' <= 10)
    (fun _ g' => Z.to_nat (check_ack_timeout g'))).
  2: { exists []. by rewrite heard_nil. }
  2: { lia. }
  intros [] g1 t1 (rs & Hd & Hfd & Hg1 & Hrb & He & Hn1).
  unfold neul_round, delay_ms. wp_steps. wp_if as [Hnz|Hnz]; [|wp_step; eauto 10].
  wp_step. eapply wp_mono; [by apply (wp_check_ack _ (bs "Neul"))|].
  intros p g2 t2 (rs2 & Hd2 & _ & Hlk).
  destruct (Hstep _ _ _ _ _ _ _ Hd Hfd Hg1 Hd2 Hlk) as (Hd2' & Hg2 & buf & ->).
  destruct p as [p|]; wp_step; [by eexists|].
  eapply wp_mono; [by apply (wp_check_ack _ (bs "Neul"))|].
  intros q g3 t3 (rs3 & Hd3 & _ & Hlk').
  destruct (Hstep _ (set_rcvd buf g1) _ _ _ _ _ Hd2' Hfd Hg2 Hd3 Hlk') as (Hd3' & Hg3 & buf' & ->).
  destruct q as [q|]; wp_steps; [by eexists|].
  simpl. rewrite u8_id by (unfold is_byte; lia). split; [|lia].
  eexists. split; [exact Hd3'|]. split_and!; try done; try lia; apply Hg3.
Qed.

Lemma wp_power_on_mode g t :
  nb_ok g -> ue_exist_flag g = 1 -> ue_need_reboot_flag g = 0 ->
  wp power_on_mode (fun _ g' t' => exists d b, talked d g t g' t' /\ mode_phase d b /\
    ue_exist_flag g' = 1 /\ ue_need_reboot_flag g' = if b then 1 else 0) g t.
Proof.
  intros Hg He Hrb. unfold power_on_mode. wp_steps. rewrite He, decide_True by done.
  wp_cmd_step. intros q buf t' Hq Hd. wp_if as [Hr|Hr].
  - destruct (yes "AUTOCONNECT,FALSE" q) eqn:Hy; [|done]. wp_steps.
    eapply wp_mono; [apply wp_autoconnect_loop; [apply Hd|done]|].
    intros _ g' t'' (k & e & Hk & Hask & Hyes & Hlen & Hlast & He'). wp_steps.
    exists ([q] ++ k ++ [e]), true. split; [|split; [|split; [simpl in *; congruence|done]]].
    + eapply talked_frame; [eapply talked_trans; [|exact Hk]|..]; try done.
      by eapply talked_frame.
    + exists q, (k ++ [e]). split_and!; try done. by exists k, e.
  - destruct (yes "AUTOCONNECT,FALSE" q) eqn:Hy; [done|]. wp_steps.
    exists [q], false. split_and!; try done. exists q, []. rewrite Hy. by split_and!.
Qed.

Lemma wp_power_on_band (b0 : bool) g t :
  nb_ok g -> ue_exist_flag g = 1 -> ue_need_reboot_flag g = (if b0 then 1 else 0) ->
  wp power_on_band (fun _ g' t' => exists d b, talked d g t g' t' /\ band_phase d b /\
    ue_exist_flag g' = 1 /\ ue_need_reboot_flag g' = if b0 || b then 1 else 0) g t.
Proof.
  intros Hg He Hrb. unfold power_on_band. wp_steps. rewrite He, decide_True by done.
  wp_cmd_step. intros q buf t' Hq Hd. wp_if as [Hr|Hr].
  - destruct (yes "+NBAND:5" q) eqn:Hy; [done|].
    wp_cmd_step; [apply Hd|]. intros e buf' t'' He' Hd'. wp_steps.
    exists [q; e], true. split; [|split; [|split; [done|]]].
    + eapply talked_frame; [exact (talked_trans _ _ _ _ _ _ _ _ Hd Hd')|..]; done.
    + exists q. rewrite Hy. split_and!; try done. by exists e.
    + by rewrite orb_true_r.
  - destruct (yes "+NBAND:5" q) eqn:Hy; [|lia]. wp_steps.
    exists [q], false. rewrite orb_false_r. split_and!; try done. exists q. by rewrite Hy.
Qed.

Lemma wp_power_on_reboot (b : bool) g t :
  nb_ok g -> ue_exist_flag g = 1 -> ue_need_reboot_flag g = (if b then 1 else 0) ->
  wp power_on_reboot (fun _ g' t' => exists d, talked d g t g' t' /\ reboot_phase d b /\
    ue_exist_flag g' = 1 /\ ue_need_reboot_flag g' = 0) g t.
Proof.
  intros Hg He Hrb. unfold power_on_reboot. wp_steps. rewrite He, Hrb. wp_if as [Hr|Hr].
  - destruct b; [|tauto]. wp_steps. apply wp_cmd; [by vm_compute|done|].
    intros [c rs0] buf t' Hq Hd.
    eapply wp_mono; [apply wp_neul_loop; [apply Hd|simpl; lia]|].
    intros _ g' t'' (rs & Hd' & Hfd & Hok & Hrb' & He').
    simpl in *. destruct Hd as [Hd _ _]. simpl in Hd. rewrite Hd in Hd'. simpl in Hd'.
    exists [(c, rs ++ rs0)]. split; [by split|]. split; [by eexists|]. split; [congruence|done].
  - wp_step. destruct b; [lia|]. exists []. split_and!; try done.
Qed.

Lemma wp_power_on_absent g t :
  ue_exist_flag g = 0 ->
  wp (power_on_mode;; power_on_band;; power_on_reboot) (fun _ g' t' => g' = g /\ t' = t) g t.
Proof.
  intros He. unfold power_on_mode, power_on_band, power_on_reboot.
  wp_steps. rewrite He. wp_if as [?|_]; [done|]. wp_steps. rewrite He. wp_if as [?|_]; [done|].
  wp_steps. rewrite He. wp_if as [[? _]|_]; [done|]. by wp_steps.
Qed.
End power_on_proof.

Lemma wp_BC95_power_on `{D : Device} `{!Modem D} g t :
  nb_ok g -> ue_need_reboot_flag g = 0 ->
  wp BC95_power_on (fun _ g' t' => exists d1 d2 d3 d4,
    dialogue (fd_NB_Iot_USART g) t' = rev (d1 ++ d2 ++ d3 ++ d4) ++ dialogue (fd_NB_Iot_USART g) t /\
    nb_ok g' /\ fd_NB_Iot_USART g' = fd_NB_Iot_USART g /\
    ue_need_reboot_flag g' = 0 /\ at_phase d1 /\
    if decide (length d1 = 1)%nat then
      ue_exist_flag g' = 1 /\
      exists b1 b2, mode_phase d2 b1 /\ band_phase d3 b2 /\ reboot_phase d4 (b1 || b2)
    else ue_exist_flag g' = 0 /\ d2 = [] /\ d3 = [] /\ d4 = []) g t.
Proof.
  intros Hg Hrb. unfold BC95_power_on. wp_steps.
  eapply wp_mono; [by apply wp_at_loop|].
  intros _ g1 t1 (d1 & Hd1 & Hat & Hrb1 & He1). simpl in Hrb1.
  apply (talked_trans [] _ g t) in Hd1; [|by split]. simpl in Hd1.
  destruct (decide (length d1 = 1)%nat) as [Hl|Hl].
  - wp_step. eapply wp_mono; [apply wp_power_on_mode; [apply Hd1|done|congruence]|].
    intros _ g2 t2 (d2 & b1 & Hd2 & Hm & He2 & Hrb2).
    wp_step. eapply wp_mono; [apply (wp_power_on_band b1); [apply Hd2|done|done]|].
    intros _ g3 t3 (d3 & b2 & Hd3 & Hb & He3 & Hrb3).
    eapply wp_mono; [apply (wp_power_on_reboot (b1 || b2)); [apply Hd3|done|done]|].
    intros _ g4 t4 (d4 & Hd4 & Hr & He4 & Hrb4).
    pose proof (talked_trans _ _ _ _ _ _ _ _ Hd3 Hd4) as H34.
    pose proof (talked_trans _ _ _ _ _ _ _ _ Hd2 H34) as H24.
    destruct (talked_trans _ _ _ _ _ _ _ _ Hd1 H24) as [Hd Hf Hok].
    exists d1, d2, d3, d4. rewrite decide_True by done. split_and!; try done; try apply Hok.
    eauto 10.
  - eapply wp_mono; [by apply wp_power_on_absent|]. intros _ g' t' [-> ->].
    exists d1, [], [], []. rewrite decide_False by done. rewrite !app_nil_r.
    destruct Hd1 as [Hd Hf Hok]. split_and!; try done; try apply Hok. congruence.
Qed.

(** C21: the power-on sequence with a modem whose every read leaves room in the receive
    array, that is, delivers less than its 256 bytes ([Modem]; a longer one is printed
    beyond the array), from a state in which the port is open with a descriptor below 32,
    the receive array holds a string ([nb_ok]) and no reboot is pending.  It then returns
    within its bounds, without undefined behaviour, leaves such a state, and holds this
    dialogue: AT until an OK, eleven times at most; and, when the very first AT was
    answered and only then, the connect mode with its setting, the band with its setting,
    and a reboot if either was set.  A module that answers later is left unconfigured and
    marked absent. *)
Theorem power_on_dialogue `{D : Device} `{!Modem D} g t :
  nb_ok g -> ue_need_reboot_flag g = 0 ->
  wp BC95_power_on (fun _ g' t' => exists d1 d2 d3 d4,
    dialogue (fd_NB_Iot_USART g) t' = rev (d1 ++ d2 ++ d3 ++ d4) ++ dialogue (fd_NB_Iot_USART g) t /\
    nb_ok g' /\ fd_NB_Iot_USART g' = fd_NB_Iot_USART g /\
    ue_need_reboot_flag g' = 0 /\ at_phase d1 /\
    if decide (length d1 = 1)%nat then
      ue_exist_flag g' = 1 /\
      exists b1 b2, mode_phase d2 b1 /\ band_phase d3 b2 /\ reboot_phase d4 (b1 || b2)
    else ue_exist_flag g' = 0 /\ d2 = [] /\ d3 = [] /\ d4 = []) g t.
Proof. apply wp_BC95_power_on. Qed.

(** ** The network *)

(** Somewhere in the dialogue the command [c] was answered with [a]. *)
Definition said (c a : string) (d : list exchange) : bool :=
  existsb (fun e => bool_decide (e.1 = line c) && yes a e) d.

Definition net_connected (d : list exchange) : bool := said "AT+CSCON?" "+CSCON:0,1" d.
Definition net_attached (d : list exchange) : bool := said "AT+CGATT?" "+CGATT:1" d.
Definition net_registered (d : list exchange) : bool := said "AT+CEREG?" "+CEREG:0,1" d.

Lemma said_snoc c a d e c0 : asks c0 e ->
  said c a (d ++ [e]) = said c a d || (bool_decide (line c0 = line c) && yes a e).
Proof.
  intros He. unfold said. rewrite existsb_app. simpl. rewrite orb_false_r. by rewrite He.
Qed.

Ltac eval_lines :=
  repeat match goal with
  | |- context [bool_decide (line ?a = line ?b)] =>
      let v := eval vm_compute in (bool_decide (line a = line b)) in
      change (bool_decide (line a = line b)) with v
  end; rewrite ?andb_false_l, ?andb_true_l, ?orb_false_r.

(** What a dialogue says about the network, one command further. *)
Lemma net_snoc_scon d e : asks "AT+CSCON?" e ->
  net_connected (d ++ [e]) = net_connected d || yes "+CSCON:0,1" e /\
  net_attached (d ++ [e]) = net_attached d /\ net_registered (d ++ [e]) = net_registered d.
Proof.
  intros He. unfold net_connected, net_attached, net_registered.
  rewrite !(said_snoc _ _ _ _ _ He). by eval_lines.
Qed.

Lemma net_snoc_gatt d e : asks "AT+CGATT?" e ->
  net_connected (d ++ [e]) = net_connected d /\
  net_attached (d ++ [e]) = net_attached d || yes "+CGATT:1" e /\
  net_registered (d ++ [e]) = net_registered d.
Proof.
  intros He. unfold net_connected, net_attached, net_registered.
  rewrite !(said_snoc _ _ _ _ _ He). by eval_lines.
Qed.

Lemma net_snoc_ereg d e : asks "AT+CEREG?" e ->
  net_connected (d ++ [e]) = net_connected d /\ net_attached (d ++ [e]) = net_attached d /\
  net_registered (d ++ [e]) = net_registered d || yes "+CEREG:0,1" e.
Proof.
  intros He. unfold net_connected, net_attached, net_registered.
  rewrite !(said_snoc _ _ _ _ _ He). by eval_lines.
Qed.

(** The result the dialogue calls for. *)
Definition net_result (d : list exchange) : Z :=
  if net_connected d || net_registered d then 1 else if net_attached d then 2 else 0.

(** The queries of the loop. *)
Definition net_cmd (e : exchange) : Prop :=
  asks "AT+CSCON?" e \/ asks "AT+CGATT?" e \/ asks "AT+CEREG?" e.

(** The state of the loop after the dialogue [d]. *)
Record net_inv (d : list exchange) (st : Z * bool * bool) (g : nb) : Prop := {
  ni_conn : net_connected d = false;
  ni_att : st.1.2 = net_attached d;
  ni_reg : st.2 = net_registered d;
  ni_res : st.1.1 = net_result d;
  ni_order : net_registered d = true -> net_attached d = true;
  ni_time : 0 <= check_ack_timeout g <= 20;
  ni_len : Z.of_nat (length d) <= 3 * (20 - check_ack_timeout g);
  ni_cmds : Forall net_cmd d
}.

Lemma net_cmds_snoc d e : Forall net_cmd d -> net_cmd e -> Forall net_cmd (d ++ [e]).
Proof. intros Hd He. apply Forall_app. by rewrite Forall_singleton. Qed.

Section network.
Context `{D : Device} `{HM : !Modem D}.

(** The two optional queries of a round. *)
Lemma wp_net_attach (res : Z) (attached : bool) d g0 t0 g t (Q : Z * bool -> nb -> trace -> Prop) :
  talked d g0 t0 g t -> attached = net_attached d -> res = net_result d ->
  net_connected d = false -> (net_registered d = true -> net_attached d = true) ->
  Forall net_cmd d ->
  (forall d' buf t', talked d' g0 t0 (set_rcvd buf g) t' ->
    net_connected d' = false -> net_registered d' = net_registered d ->
    (net_registered d' = true -> net_attached d' = true) ->
    (length d' <= length d + 1)%nat -> Forall net_cmd d' ->
    Q (net_result d', net_attached d') (set_rcvd buf g) t') ->
  wp (if attached then mret (res, true)
      else
        r ← NB_Iot_send_cmd QUERY_UE_ATTACH_STATS (Some UE_ATTACHED_STATS) 1;
        if decide (r = 0) then mret (2, true) else mret (res, false)) Q g t.
Proof.
  intros Hd Ha Hr Hc Ho Hcm HQ. subst res attached. destruct (net_attached d) eqn:Ha.
  - wp_step. rewrite <- Ha. replace g with (set_rcvd (NB_Iot_rcvd_buf g) g) by by destruct g.
    apply HQ; try done; [|lia]. by destruct g.
  - assert (Hreg : net_registered d = false).
    { destruct (net_registered d); [|done]. specialize (Ho eq_refl). congruence. }
    wp_cmd_step; [apply Hd|]. intros e buf t' Hask He.
    pose proof (talked_trans _ _ _ _ _ _ _ _ Hd He) as Hde.
    destruct (net_snoc_gatt d e Hask) as (Ec & Ea & Er).
    specialize (HQ _ buf t' Hde). rewrite Ec, Er, length_app in HQ.
    specialize (HQ Hc eq_refl). unfold net_result in *. rewrite Ec, Er, Ea, Ha, Hc, Hreg in *.
    simpl in HQ.
    assert (Hcm' : Forall net_cmd (d ++ [e])) by (apply net_cmds_snoc; [done|right; by left]).
    destruct (yes "+CGATT:1" e); wp_if as [?|?]; try done; wp_step; apply HQ; try done; lia.
Qed.

Lemma wp_net_register (registered : bool) st1 d g0 t0 g t (Q : Z * bool -> nb -> trace -> Prop) :
  talked d g0 t0 g t -> st1 = (net_result d, net_attached d) -> registered = net_registered d ->
  net_connected d = false -> (net_registered d = true -> net_attached d = true) ->
  Forall net_cmd d ->
  (forall d' buf t', talked d' g0 t0 (set_rcvd buf g) t' ->
    net_connected d' = false -> net_attached d' = net_attached d ->
    (net_registered d' = true -> net_attached d' = true) ->
    (length d' <= length d + 1)%nat -> Forall net_cmd d' ->
    Q (net_result d', net_registered d') (set_rcvd buf g) t') ->
  wp (if decide (st1.2 = true /\ registered = false) then
        r ← NB_Iot_send_cmd QUERY_UE_EREG_STATS (Some UE_EREGISTERED_STATS) 1;
        if decide (r = 0) then mret (1, true) else mret (st1.1, false)
      else mret (st1.1, registered)) Q g t.
Proof.
  intros Hd Hst Hr Hc Ho Hcm HQ. subst st1 registered. simpl fst. simpl snd.
  wp_if as [[Ha Hreg]|_].
  - wp_cmd_step; [apply Hd|]. intros e buf t' Hask He.
    pose proof (talked_trans _ _ _ _ _ _ _ _ Hd He) as Hde.
    destruct (net_snoc_ereg d e Hask) as (Ec & Ea & Er).
    specialize (HQ _ buf t' Hde). rewrite Ec, Ea, length_app in HQ.
    specialize (HQ Hc eq_refl (fun _ => Ha)).
    unfold net_result in *. rewrite Ec, Er, Ea, Ha, Hc, Hreg in *. simpl in HQ.
    assert (Hcm' : Forall net_cmd (d ++ [e])) by (apply net_cmds_snoc; [done|by right; right]).
    destruct (yes "+CEREG:0,1" e); wp_if as [?|?]; try done; wp_step; apply HQ; try done; lia.
  - wp_step. replace g with (set_rcvd (NB_Iot_rcvd_buf g) g) by by destruct g.
    apply HQ; try done; [|lia]. by destruct g.
Qed.
End network.

Lemma wp_query_net_status `{D : Device} `{!Modem D} g t :
  nb_ok g ->
  wp query_net_status (fun r g' t' => exists d,
    dialogue (fd_NB_Iot_USART g) t' = rev d ++ dialogue (fd_NB_Iot_USART g) t /\
    nb_ok g' /\ fd_NB_Iot_USART g' = fd_NB_Iot_USART g /\
    (length d <= 60)%nat /\ r = net_result d /\ Forall net_cmd d) g t.
Proof.
  intros Hg. unfold query_net_status. wp_steps.
  apply (wp_loop (fun st g' t' => exists d, talked d g t g' t' /\ net_inv d st g')
    (fun _ g' => Z.to_nat (check_ack_timeout g'))).
  2: { exists []. split; [by split|]. split; simpl; try done; lia. }
  2: { simpl. lia. }
  intros [[res att] reg] g1 t1 (d & Hd & [Hc Ha Hr Hres Ho Ht Hl Hcm]). simpl in *.
  unfold net_round, delay_ms. wp_steps. wp_if as [[Hloop Hnz]|Hloop].
  - wp_cmd_step; [apply Hd|]. intros e buf t' Hask He.
    pose proof (talked_trans _ _ _ _ _ _ _ _ Hd He) as Hde.
    destruct (net_snoc_scon d e Hask) as (Ec & Ea & Er). rewrite Hc in Ec. simpl in Ec.
    destruct (yes "+CSCON:0,1" e) eqn:Hy; wp_if as [?|?]; try done; wp_step.
    { exists (d ++ [e]). split; [apply Hde|]. split; [apply Hde|]. split; [apply Hde|].
      rewrite length_app. simpl. split; [lia|]. split; [unfold net_result; by rewrite Ec|].
      apply net_cmds_snoc; [done|by left]. }
    assert (Eres : net_result (d ++ [e]) = net_result d).
    { unfold net_result. by rewrite Ec, Ea, Er, Hc. }
    eapply wp_net_attach; [exact Hde|congruence|congruence|congruence|by rewrite Er, Ea|apply net_cmds_snoc; [done|by left]|].
    intros d2 buf2 t2 Hd2 Hc2 Hr2 Ho2 Hl2 Hcm2. wp_step.
    eapply wp_net_register; [exact Hd2|done|congruence|done|done|done|].
    intros d3 buf3 t3 Hd3 Hc3 Ha3 Ho3 Hl3 Hcm3. wp_steps.
    rewrite length_app in Hl2. simpl in *. rewrite u8_id by (unfold is_byte; lia).
    split; [|lia]. exists d3. split; [by eapply talked_frame|].
    split; simpl; try done; [lia|lia].
  - wp_step. exists d. split; [apply Hd|]. split; [apply Hd|]. split; [apply Hd|].
    split; [lia|]. by split.
Qed.

(** The wait for the network ends after at most twenty rounds, sixty
    commands, without undefined behaviour, and its result says what the modem
    answered: 1 when it was connected or registered, 2 when it was attached only,
    0 when it was neither. *)
Theorem query_net_status_result `{D : Device} `{!Modem D} g t :
  nb_ok g ->
  wp query_net_status (fun r g' t' => exists d,
    dialogue (fd_NB_Iot_USART g) t' = rev d ++ dialogue (fd_NB_Iot_USART g) t /\
    nb_ok g' /\ fd_NB_Iot_USART g' = fd_NB_Iot_USART g /\
    (length d <= 60)%nat /\ r = net_result d) g t.
Proof.
  intros Hg. eapply wp_mono; [by apply wp_query_net_status|].
  intros r g' t' (d & ? & ? & ? & ? & ? & _). eauto 10.
Qed.

(** ** Numbers *)

Lemma digits_loop_spec ds : forall fuel pre c rest s,
  Forall is_digit ds -> ~ is_digit c -> 0 <= s -> dval s ds < 2147483648 ->
  (length ds < fuel)%nat ->
  digits_loop fuel (pre ++ ds ++ c :: rest) (Z.of_nat (length pre)) s = Some (dval s ds).
Proof.
  induction ds as [|x ds IH]; intros fuel pre c rest s Hd Hc Hs Hv Hf;
    (destruct fuel as [|fuel]; simpl in Hf; [lia|]); simpl; rewrite aget_mid by done; simpl.
  - by rewrite decide_False.
  - apply Forall_cons in Hd as [Hx Hd]. unfold is_digit in Hx. rewrite decide_True by done.
    simpl in Hv. pose proof (dval_ge ds (s * 10 + x - 48) Hd ltac:(lia)) as Hge.
    unfold dval in Hv, Hge.
    rewrite (s32_id (s * 10)) by lia.
    replace (s32 (s32 (s * 10 + x) - 48)) with (s * 10 + x - 48) by zlia.
    rewrite decide_False by lia.
    specialize (IH fuel (pre ++ [x]) c rest (s * 10 + x - 48) Hd Hc ltac:(lia) Hv ltac:(lia)).
    rewrite length_app, <- (assoc_L app) in IH. simpl in IH.
    replace (Z.of_nat (length pre) + 1) with (Z.of_nat (length pre + 1)) by lia. done.
Qed.

Lemma skip_spaces_spec n : forall fuel pre c rest,
  c <> 32 -> (n < fuel)%nat ->
  skip_spaces fuel (pre ++ replicate n 32 ++ c :: rest) (Z.of_nat (length pre))
  = Some (Z.of_nat (length pre + n)).
Proof.
  induction n as [|n IH]; intros fuel pre c rest Hc Hf;
    (destruct fuel as [|fuel]; [lia|]); simpl; rewrite aget_mid by done; simpl.
  - rewrite decide_False by done. f_equal. lia.
  - specialize (IH fuel (pre ++ [32]) c rest Hc ltac:(lia)).
    rewrite length_app, <- (assoc_L app) in IH. simpl in IH.
    replace (Z.of_nat (length pre) + 1) with (Z.of_nat (length pre + 1)) by lia.
    rewrite IH. f_equal. lia.
Qed.

(** Spaces, an optional sign [sg], digits, another character. *)
Lemma myatoi_spec k sg ds c rest :
  sg = [] \/ sg = [45] \/ sg = [43] ->
  Forall is_digit ds -> ds <> [] -> ~ is_digit c -> dval 0 ds < 2147483648 ->
  myatoi (replicate k 32 ++ sg ++ ds ++ c :: rest)
  = Some (s32 (dval 0 ds * (if decide (sg = [45]) then -1 else 1))).
Proof.
  intros Hsg Hd Hne Hc Hv. set (str := replicate k 32 ++ sg ++ ds ++ c :: rest).
  assert (Hlen : (k + length sg + length ds < length str)%nat).
  { subst str. rewrite !length_app, length_replicate. simpl. lia. }
  assert (exists y tail, sg ++ ds ++ c :: rest = y :: tail /\ y <> 32 /\
    (y = 45 <-> sg = [45]) /\ (y = 45 \/ y = 43 <-> sg <> [])) as (y & tail & E & Hy & H45 & H43).
  { destruct ds as [|x ds]; [done|]. apply Forall_cons in Hd as [Hx _]. unfold is_digit in Hx.
    destruct Hsg as [-> | [-> | ->]]; simpl; do 2 eexists; (split; [done|]);
      (split; [lia|]); split; split; intros; try done; try lia; try tauto. }
  assert (Hsk : skip_spaces (S (length str)) str 0 = Some (Z.of_nat k)).
  { unfold str at 2. rewrite E. apply (skip_spaces_spec k _ [] y tail); [done|lia]. }
  assert (Hget : aget str (Z.of_nat k) = Some y).
  { unfold str. rewrite E. apply aget_mid. by rewrite length_replicate. }
  assert (Hi : (if decide (y = 45 \/ y = 43) then Z.of_nat k + 1 else Z.of_nat k)
    = Z.of_nat (length (replicate k 32 ++ sg))).
  { rewrite length_app, length_replicate. case_decide as Hdec.
    - destruct Hsg as [-> | [-> | ->]]; simpl; try lia. tauto.
    - destruct Hsg as [-> | [-> | ->]]; simpl; try lia; exfalso; apply Hdec, H43; done. }
  assert (Hlp : digits_loop (S (length str)) str (Z.of_nat (length (replicate k 32 ++ sg))) 0
    = Some (dval 0 ds)).
  { unfold str at 2. rewrite (assoc_L app). apply digits_loop_spec; try done; lia. }
  unfold myatoi. rewrite Hsk. cbn [mbind option_bind]. rewrite Hget. cbn [mbind option_bind].
  rewrite Hi, Hlp. cbn [mbind option_bind]. do 3 f_equal.
  destruct (decide (y = 45)), (decide (sg = [45])); tauto.
Qed.

(** The number parser reads back decimal text: leading spaces, an optional
    minus and digits, up to the first other character, for every [int] but the
    least one. *)
Theorem myatoi_roundtrip k n c rest :
  -2147483648 < n < 2147483648 -> ~ is_digit c ->
  myatoi (replicate k 32 ++ fmt_d n ++ c :: rest) = Some n.
Proof.
  intros Hn Hc. unfold fmt_d. case_decide as Hsign.
  - destruct (print_nat_dec_spec (- n)) as (Hd & Hne & Hv); [lia|].
    change ((45 :: print_nat_dec (- n)) ++ c :: rest)
      with ([45] ++ print_nat_dec (- n) ++ c :: rest).
    rewrite myatoi_spec by (try done; try lia; tauto).
    rewrite Hv, decide_True by done. f_equal. rewrite s32_id; lia.
  - destruct (print_nat_dec_spec n) as (Hd & Hne & Hv); [lia|].
    change (print_nat_dec n ++ c :: rest) with ([] ++ print_nat_dec n ++ c :: rest).
    rewrite myatoi_spec by (try done; try lia; tauto).
    rewrite Hv, decide_False by done. f_equal. rewrite s32_id; lia.
Qed.

(** Past the range of [int] the parser saturates only when the wrapped value
    happens to be negative: 2147483648 gives the greatest [int], 4294967297 gives 1. *)
Theorem myatoi_wraps :
  myatoi (lit "2147483648") = Some 2147483647 /\ myatoi (lit "4294967297") = Some 1.
Proof. split; vm_compute; reflexivity. Qed.

(** ** UDP *)

Lemma strcat_spec a b s r :
  c_str a = Some s -> c_str b = Some r -> (length s + length r < length a)%nat ->
  exists a', strcat a b = Some a' /\ c_str a' = Some (s ++ r) /\ length a' = length a.
Proof.
  intros Ha Hb Hl. unfold strcat. rewrite (strlen_c_str _ _ Ha), Hb. simpl.
  rewrite Nat2Z.id. unfold store_str. rewrite decide_True by lia.
  eexists. split; [done|].
  destruct (c_str_Some _ _ Ha) as [Hs [ra ->]]. destruct (c_str_Some _ _ Hb) as [Hr _].
  rewrite take_app_length. split.
  - rewrite (assoc_L app). apply c_str_app. by apply Forall_app.
  - rewrite !length_app, length_drop, !length_app in *. simpl in *. lia.
Qed.

Lemma wp_strcat {S} a b s r (Q : list Z -> S -> trace -> Prop) g t :
  c_str a = Some s -> c_str b = Some r -> (length s + length r < length a)%nat ->
  (forall a', c_str a' = Some (s ++ r) -> length a' = length a -> Q a' g t) ->
  wp (of_option (strcat a b)) Q g t.
Proof.
  intros Ha Hb Hl HQ. destruct (strcat_spec a b s r Ha Hb Hl) as (a' & -> & Hc & Hlen).
  by apply HQ.
Qed.

(** The socket number in the answer to AT+NSOCR: its third character. *)
Definition socket_digit (l : list Z) : Z :=
  match l !! 2%nat with
  | Some c => if decide (48 <= c <= 57) then c - 48 else 0
  | None => 0
  end.

Lemma myatoi_byte : forall c, 0 <= c < 256 ->
  myatoi (c :: replicate 9 0) = Some (if decide (48 <= c <= 57) then c - 48 else 0).
Proof. by_evaluation 256. Qed.

Lemma myatoi_one c :
  myatoi (c :: replicate 9 0) = Some (if decide (48 <= c <= 57) then c - 48 else 0).
Proof.
  destruct (decide (is_byte c)) as [H|H]; [by apply myatoi_byte|]. unfold is_byte in H.
  pose proof (skip_spaces_spec 0 11 [] c (replicate 9 0) ltac:(lia) ltac:(lia)) as Hsk.
  pose proof (digits_loop_spec [] 11 [] c (replicate 9 0) 0) as Hdl.
  unfold is_digit in Hdl. cbn [app replicate length dval fold_left] in Hsk, Hdl.
  change (Z.of_nat (0 + 0)) with 0 in Hsk. change (Z.of_nat 0) with 0 in *.
  unfold myatoi. cbn [replicate length]. rewrite Hsk. cbn [mbind option_bind].
  change (aget [c; 0; 0; 0; 0; 0; 0; 0; 0; 0] 0) with (Some c). cbn [mbind option_bind].
  rewrite (decide_False (P := c = 45 \/ c = 43)) by lia.
  rewrite Hdl by (done || lia). cbn [mbind option_bind].
  by rewrite (decide_False (P := c = 45)), (decide_False (P := 48 <= c <= 57)) by lia.
Qed.

Lemma fill_lookup n l i : (i < n)%nat ->
  drop i (fill n (Some l)) = default 0 (l !! i) :: drop (S i) (fill n (Some l)).
Proof.
  intros Hi. apply drop_S. simpl. destruct (l !! i) as [x|] eqn:E; simpl.
  - by apply lookup_app_l_Some.
  - apply lookup_ge_None in E. rewrite lookup_app_r by done. apply lookup_replicate. split; [done|lia].
Qed.

(** One command of the engine, for every modem whose answers fit the receive
    array: the command and a line end are written, nothing else; the result is 0
    exactly when a text read within the waiting time contains the expected
    answer, and 1 when it does not, on a timeout and on a failed wait. *)
Theorem send_cmd_result `{D : Device} `{!Modem D} cmd s str a wait g t :
  c_str cmd = Some s -> (length s <= 597)%nat ->
  c_str str = Some a -> a <> [] -> 0 < wait < 65536 -> fd_set_ok (fd_NB_Iot_USART g) ->
  wp (NB_Iot_send_cmd cmd (Some str) wait) (fun r g' t' => exists rs buf,
    dialogue (fd_NB_Iot_USART g) t' = (s ++ [13; 10], rs) :: dialogue (fd_NB_Iot_USART g) t /\
    r = (if answered a rs then 0 else 1) /\ g' = set_rcvd buf g) g t.
Proof.
  intros. eapply wp_mono; [by eapply wp_send_cmd|].
  intros r g' t' (rs & Hd & Hr & [(buf & -> & _) _]). by exists rs, buf.
Qed.

(** 597 characters are the limit of a command: a longer one overruns the
    600-byte array it is formatted into, before anything is written. *)
Theorem send_cmd_overrun `{D : Device} cmd s ack wait g t :
  c_str cmd = Some s -> (598 <= length s)%nat ->
  NB_Iot_send_cmd cmd ack wait g t = Undefined.
Proof.
  intros Hs Hl. unfold NB_Iot_send_cmd, mbind, io_bind. rewrite Hs. cbn [of_option mret io_ret].
  unfold store_str. destruct (decide _) as [H|_]; [|done].
  rewrite length_app, length_replicate in H. simpl in H. lia.
Qed.

Lemma wp_creat_UDP_socket `{D : Device} `{!Modem D} local_port port g t :
  c_str local_port = Some port -> (length port <= 43)%nat -> nb_ok g ->
  wp (creat_UDP_socket local_port) (fun r g' t' => exists rs,
    dialogue (fd_NB_Iot_USART g) t'
      = (bs "AT+NSOCR=DGRAM,17," ++ port ++ bs ",1" ++ [13; 10], rs) :: dialogue (fd_NB_Iot_USART g) t /\
    nb_ok g' /\ fd_NB_Iot_USART g' = fd_NB_Iot_USART g /\
    (if answered (bs "OK") rs then exists l, rs = [l] /\ r = socket_digit l
     else r = 7)) g t.
Proof.
  intros Hp Hl [Hfd Hbuf]. unfold creat_UDP_socket. wp_step.
  eapply wp_of_option; [apply store_str_0; vm_compute; lia|]. wp_step.
  eapply wp_strcat; [by apply c_str_app; apply (bool_decide_unpack _); vm_compute|exact Hp|simpl; lia|].
  intros temp Ht Hlen. wp_step.
  eapply wp_strcat; [exact Ht|done|rewrite Hlen, length_app; simpl; lia|].
  intros temp2 Ht2 Hlen2. wp_step. eapply wp_mono.
  { eapply wp_send_cmd; [exact Ht2| |exact (eq_refl : c_str (lit "OK") = Some (bs "OK"))|done|lia|done].
    rewrite !length_app. simpl. lia. }
  intros r g' t' (rs & Hd & -> & [(buf & -> & Hb) Hlast]). simpl NB_Iot_rcvd_buf in Hlast.
  assert (Hok : nb_ok (set_rcvd buf g)). { split; [done|]. by destruct Hb as [?| ->]. }
  rewrite <- !(assoc_L app) in Hd.
  destruct (answered (bs "OK") rs) eqn:Ha.
  - destruct (Hlast eq_refl) as (l & -> & -> & Hlt). wp_if as [_|?]; [|done].
    unfold get_str_data. wp_steps. pose proof Hok as [_ [Hblen [s Hs]]].
    eapply wp_of_option; [exact Hs|]. wp_steps.
    change (Z.to_nat (u8 2)) with 2%nat. change (Z.to_nat (u8 1)) with 1%nat.
    wp_if as [_|H]; [|destruct H; rewrite Hblen, length_replicate; lia]. wp_steps.
    change (NB_Iot_rcvd_buf (set_rcvd (fill 256 (Some l)) g)) with (fill 256 (Some l)).
    rewrite fill_lookup by lia. cbn [take drop replicate app].
    eapply wp_of_option; [apply myatoi_one|]. wp_step. exists [l]. rewrite Ha.
    split; [done|]. split; [done|]. split; [done|]. exists l. split; [done|].
    unfold socket_digit. destruct (l !! 2%nat) as [c|]; simpl; [|done].
    case_decide; [|done]. apply u8_id. unfold is_byte. lia.
  - wp_if as [?|_]; [done|]. wp_step. exists rs. by rewrite Ha.
Qed.

(** Creating a socket sends AT+NSOCR=DGRAM,17,port,1; the result is 7 when
    the modem does not answer OK, and otherwise the digit in the third place of
    its answer, 0 when there is none. *)
Theorem creat_UDP_socket_result `{D : Device} `{!Modem D} local_port port g t :
  c_str local_port = Some port -> (length port <= 43)%nat -> nb_ok g ->
  wp (creat_UDP_socket local_port) (fun r g' t' => exists rs,
    dialogue (fd_NB_Iot_USART g) t'
      = (bs "AT+NSOCR=DGRAM,17," ++ port ++ bs ",1" ++ [13; 10], rs) :: dialogue (fd_NB_Iot_USART g) t /\
    nb_ok g' /\ fd_NB_Iot_USART g' = fd_NB_Iot_USART g /\
    (if answered (bs "OK") rs then exists l, rs = [l] /\ r = socket_digit l
     else r = 7)) g t.
Proof. apply wp_creat_UDP_socket. Qed.

(** The command text of a datagram. *)
Definition nsost (socket hostIP port dataLen data : list Z) : list Z :=
  bs "AT+NSOST=" ++ socket ++ bs "," ++ hostIP ++ bs "," ++ port ++ bs "," ++ dataLen ++ bs "," ++ data.

(** Append the string of [H] to the one of [E]. *)
Ltac cat_step E H :=
  eapply wp_strcat; [exact E | exact H | rewrite !length_app; simpl; lia | ].

Lemma wp_send_UDP_msg `{D : Device} `{!Modem D} a1 a2 a3 a4 a5 s1 s2 s3 s4 s5 g t :
  c_str a1 = Some s1 -> c_str a2 = Some s2 -> c_str a3 = Some s3 ->
  c_str a4 = Some s4 -> c_str a5 = Some s5 ->
  (length (nsost s1 s2 s3 s4 s5) <= 597)%nat -> nb_ok g ->
  wp (send_UDP_msg a1 a2 a3 a4 a5) (fun r g' t' => exists rs,
    dialogue (fd_NB_Iot_USART g) t' = (nsost s1 s2 s3 s4 s5 ++ [13; 10], rs) :: dialogue (fd_NB_Iot_USART g) t /\
    nb_ok g' /\ (exists buf, g' = set_rcvd buf g) /\
    r = (if answered (bs "OK") rs then 0 else 1)) g t.
Proof.
  intros H1 H2 H3 H4 H5 Hl [Hfd Hbuf].
  assert (Hlen : (9 + length s1 + 1 + length s2 + 1 + length s3 + 1 + length s4 + 1 + length s5 <= 597)%nat).
  { unfold nsost in Hl. rewrite !length_app in Hl. simpl in Hl. lia. }
  unfold send_UDP_msg. wp_step.
  eapply wp_of_option; [apply store_str_0; vm_compute; lia|]. wp_step.
  eapply wp_strcat; [by apply c_str_app; apply (bool_decide_unpack _); vm_compute|exact H1|simpl; lia|].
  intros p1 E1 L1. simpl in L1. wp_step.
  assert (Hcomma : c_str (lit ",") = Some (bs ",")) by done.
  cat_step E1 Hcomma. intros p2 E2 L2. wp_step. cat_step E2 H2. intros p3 E3 L3. wp_step.
  cat_step E3 Hcomma. intros p4 E4 L4. wp_step. cat_step E4 H3. intros p5 E5 L5. wp_step.
  cat_step E5 Hcomma. intros p6 E6 L6. wp_step. cat_step E6 H4. intros p7 E7 L7. wp_step.
  cat_step E7 Hcomma. intros p8 E8 L8. wp_step. cat_step E8 H5.
  intros p9 E9 L9. wp_step. rewrite <- !(assoc_L app) in E9. eapply wp_mono.
  { eapply wp_send_cmd; [exact E9|exact Hl|exact (eq_refl : c_str (lit "OK") = Some (bs "OK"))|done|lia|done]. }
  intros r g' t' (rs & Hd & -> & [(buf & -> & Hb) _]).
  assert (Hok : nb_ok (set_rcvd buf g)). { split; [done|]. by destruct Hb as [?| ->]. }
  destruct (answered (bs "OK") rs) eqn:Ha; (wp_if as [?|?]; [|]); try done; wp_step;
    exists rs; rewrite Ha; eauto.
Qed.

(** ** Modems for the witnesses *)

(** The newest command in a trace. *)
Fixpoint last_write (t : trace) : list Z :=
  match t with
  | [] => []
  | EvWrite _ d _ :: _ => d
  | _ :: t => last_write t
  end.

(** A modem that answers every command at once, with [reply] of the trace and the
    command. *)
Definition modem (reply : trace -> list Z -> list Z) : Device := {|
  dev_open t path := 3;
  dev_write t fd d := Z.of_nat (length d);
  dev_read t fd n := Some (take 255 (reply t (last_write t)));
  dev_select t fds sec := (1, fds);
  dev_ioctl t fd cmd arg := (0, 0);
  dev_sigtimedwait t signo sec := signo
|}.

Lemma modem_ok reply : Modem (modem reply).
Proof. split. simpl. intros t fd l [= <-]. rewrite length_take. lia. Qed.

(** A module that is configured and connected. *)
Definition good_reply (t : trace) (c : list Z) : list Z :=
  if decide (c = line "AT+NCONFIG?") then line "+NCONFIG:AUTOCONNECT,TRUE"
  else if decide (c = line "AT+NBAND?") then line "+NBAND:5"
  else if decide (c = line "AT+CSCON?") then line "+CSCON:0,1"
  else if decide (c = line "AT+NSOCR=DGRAM,17,3005,1") then [13; 10] ++ line "4" ++ line "OK"
  else line "OK".

(** A module in manual mode that misses the first command. *)
Definition late_reply (t : trace) (c : list Z) : list Z :=
  if decide (length (sent 3 t) <= 1)%nat then []
  else if decide (c = line "AT+NCONFIG?") then line "+NCONFIG:AUTOCONNECT,FALSE"
  else line "OK".

(** A module in manual mode. *)
Definition manual_reply (t : trace) (c : list Z) : list Z :=
  if decide (c = line "AT+NCONFIG?") then line "+NCONFIG:AUTOCONNECT,FALSE"
  else if decide (c = line "AT+NBAND?") then line "+NBAND:5"
  else line "OK".

Definition nb_up : nb := set_usart 3 nb_init.

Lemma nb_up_ok : nb_ok nb_up.
Proof. split; [unfold fd_set_ok; simpl; lia|]. split; [done|]. by eexists. Qed.

(** A module that misses the first AT, answers the second with OK and is in
    manual mode is never configured: only the two ATs are sent, and the task goes
    on as if there were no module. *)
Theorem late_module_unconfigured : exists g t,
  @BC95_power_on (modem late_reply) nb_up [] = Ret ((), g, t) /\
  sent 3 t = [line "AT"; line "AT"] /\ ue_exist_flag g = 0.
Proof. eexists _, _. split; [vm_compute; reflexivity|]. split; vm_compute; reflexivity. Qed.

(** A module in manual mode that acknowledges the automatic mode is sent the
    setting three times: the loop ends early only when the module fails to
    acknowledge. *)
Theorem autoconnect_repeated : exists g t,
  @BC95_power_on (modem manual_reply) nb_up [] = Ret ((), g, t) /\
  sent 3 t = [line "AT"; line "AT+NCONFIG?"; line "AT+NCONFIG=AUTOCONNECT,TRUE";
    line "AT+NCONFIG=AUTOCONNECT,TRUE"; line "AT+NCONFIG=AUTOCONNECT,TRUE";
    line "AT+NBAND?"; line "AT+NRB"].
Proof. eexists _, _. split; [vm_compute; reflexivity|]. vm_compute; reflexivity. Qed.

(** A read of 256 bytes fills the receive array, and printing it runs behind it. *)
Definition long_modem : Device := {|
  dev_open t path := 3;
  dev_write t fd d := Z.of_nat (length d);
  dev_read t fd n := Some (replicate 256 65);
  dev_select t fds sec := (1, fds);
  dev_ioctl t fd cmd arg := (0, 0);
  dev_sigtimedwait t signo sec := signo
|}.

Example full_read_overruns : @BC95_power_on long_modem nb_up [] = Undefined.
Proof. vm_compute. reflexivity. Qed.

(** ** Witnesses *)

Lemma power_on_dialogue_witness :
  wp (@BC95_power_on (modem good_reply)) (fun _ g' t' => exists d1 d2 d3 d4,
    dialogue 3 t' = rev (d1 ++ d2 ++ d3 ++ d4) ++ [] /\
    nb_ok g' /\ fd_NB_Iot_USART g' = 3 /\
    ue_need_reboot_flag g' = 0 /\ at_phase d1 /\
    if decide (length d1 = 1)%nat then
      ue_exist_flag g' = 1 /\
      exists b1 b2, mode_phase d2 b1 /\ band_phase d3 b2 /\ reboot_phase d4 (b1 || b2)
    else ue_exist_flag g' = 0 /\ d2 = [] /\ d3 = [] /\ d4 = []) nb_up [].
Proof. exact (@power_on_dialogue (modem good_reply) (modem_ok _) nb_up [] nb_up_ok eq_refl). Defined.

Lemma query_net_status_result_witness :
  wp (@query_net_status (modem good_reply)) (fun r g' t' => exists d,
    dialogue 3 t' = rev d ++ [] /\ nb_ok g' /\ fd_NB_Iot_USART g' = 3 /\
    (length d <= 60)%nat /\ r = net_result d) nb_up [].
Proof. exact (@query_net_status_result (modem good_reply) (modem_ok _) nb_up [] nb_up_ok). Defined.

Lemma myatoi_roundtrip_witness : myatoi (bs "  -273" ++ [0]) = Some (-273).
Proof. refine (myatoi_roundtrip 2 (-273) 0 [] _ _); [lia | unfold is_digit; lia]. Defined.

Lemma send_cmd_result_witness :
  wp (@NB_Iot_send_cmd (modem good_reply) (lit "AT") (Some (lit "OK")) 5) (fun r g' t' => exists rs buf,
    dialogue 3 t' = (bs "AT" ++ [13; 10], rs) :: [] /\
    r = (if answered (bs "OK") rs then 0 else 1) /\ g' = set_rcvd buf nb_up) nb_up [].
Proof.
  apply (@send_cmd_result (modem good_reply) (modem_ok _) (lit "AT") (bs "AT") (lit "OK") (bs "OK") 5 nb_up []);
    try reflexivity; simpl; try lia; try done.
Defined.

Lemma send_cmd_overrun_witness :
  @NB_Iot_send_cmd (modem good_reply) (replicate 598 65 ++ [0]) None 0 nb_up [] = Undefined.
Proof.
  apply (@send_cmd_overrun (modem good_reply) _ (replicate 598 65)); [vm_compute; reflexivity|].
  rewrite length_replicate. lia.
Defined.

Lemma creat_UDP_socket_result_witness :
  wp (@creat_UDP_socket (modem good_reply) UE_LOCAL_UDP_PORT) (fun r g' t' => exists rs,
    dialogue 3 t' = (bs "AT+NSOCR=DGRAM,17," ++ bs "3005" ++ bs ",1" ++ [13; 10], rs) :: [] /\
    nb_ok g' /\ fd_NB_Iot_USART g' = 3 /\
    (if answered (bs "OK") rs then exists l, rs = [l] /\ r = socket_digit l
     else r = 7)) nb_up [].
Proof.
  apply (@creat_UDP_socket_result (modem good_reply) (modem_ok _) UE_LOCAL_UDP_PORT (bs "3005") nb_up []);
    [reflexivity | simpl; lia | apply nb_up_ok].
Defined.
