(* ===== verification/Cjson.v ===== *)
(** * Building and printing JSON

    Models the part of src/apps/examples/NB_Iot/cJSON.c the firmware uses: the
    constructors, adding items to objects, the unbuffered printer and the
    deletion of a tree, on a store of allocated blocks with an allocator that may
    refuse any request.  The parser is in CjsonParse.

    Then how a tree of values lies in the store, and the printing of its leaves;
    CjsonPrint and CjsonDelete are about whole trees. *)

From Stdlib Require Import SpecFloat.
From S2P Require Import Prelude CString Double Env.

(** The floating conversions of [sprintf], and the three constants they are
    chosen by. *)
Class FloatPrint := {
  fmt_0f : double -> list Z;
  fmt_e : double -> list Z;
  fmt_f : double -> list Z;
  d_1e60 : double;
  d_1em6 : double;
  d_1e9 : double
}.

(** ** The store *)

Definition cJSON_False : Z := 0.
Definition cJSON_True : Z := 1.
Definition cJSON_NULL : Z := 2.
Definition cJSON_Number : Z := 3.
Definition cJSON_String : Z := 4.
Definition cJSON_Array : Z := 5.
Definition cJSON_Object : Z := 6.
Definition cJSON_IsReference : Z := 256.
Definition cJSON_StringIsConst : Z := 512.

(** Addresses of blocks; 0 is the null pointer. *)
Notation addr := Z.

Record cJSON := mkCJSON {
  next : addr;
  prev : addr;
  child : addr;
  type : Z;
  valuestring : addr;
  valueint : Z;
  valuedouble : double;
  string_ : addr
}.

Definition cJSON_zero : cJSON := mkCJSON 0 0 0 0 0 0 (S754_zero false) 0.

Definition set_next v c := mkCJSON v (prev c) (child c) (type c) (valuestring c) (valueint c) (valuedouble c) (string_ c).
Definition set_prev v c := mkCJSON (next c) v (child c) (type c) (valuestring c) (valueint c) (valuedouble c) (string_ c).
Definition set_child v c := mkCJSON (next c) (prev c) v (type c) (valuestring c) (valueint c) (valuedouble c) (string_ c).
Definition set_type v c := mkCJSON (next c) (prev c) (child c) v (valuestring c) (valueint c) (valuedouble c) (string_ c).
Definition set_valuestring v c := mkCJSON (next c) (prev c) (child c) (type c) v (valueint c) (valuedouble c) (string_ c).
Definition set_valueint v c := mkCJSON (next c) (prev c) (child c) (type c) (valuestring c) v (valuedouble c) (string_ c).
Definition set_number d c := mkCJSON (next c) (prev c) (child c) (type c) (valuestring c) (int_of_double d) d (string_ c).
Definition set_string v c := mkCJSON (next c) (prev c) (child c) (type c) (valuestring c) (valueint c) (valuedouble c) v.

Inductive block :=
| BNode (c : cJSON)
| BChars (l : list Z)
| BPtrs (l : list addr).

(** The allocated blocks, and the number of requests made. *)
Record mem := mkMem { blocks : gmap Z block; brk : Z }.

(** What the allocator answers to its [n]th request: refusal, or a block of the
    size asked for, with whatever it holds. *)
Class Allocator := {
  fresh : Z -> Z -> option (list Z);
  fresh_length n sz l : fresh n sz = Some l -> length l = Z.to_nat sz
}.

Section cjson.
Context `{A : Allocator} `{P : FloatPrint}.

Definition malloc_as (sz : Z) (b : list Z -> block) : io mem addr := fun m t =>
  match fresh (brk m) sz with
  | Some l => Ret (brk m, mkMem (<[brk m := b l]> (blocks m)) (brk m + 1), t)
  | None => Ret (0, mkMem (blocks m) (brk m + 1), t)
  end.

Definition cJSON_malloc (sz : Z) : io mem addr := malloc_as sz BChars.

(** [malloc] of [n] pointers, and the [memset] that follows. *)
Definition malloc_ptrs (n : nat) : io mem addr :=
  malloc_as (4 * Z.of_nat n) (fun _ => BPtrs (replicate n 0)).

Definition cJSON_free (p : addr) : io mem () := fun m t =>
  if decide (p = 0) then Ret ((), m, t) else
  match blocks m !! p with
  | Some _ => Ret ((), mkMem (delete p (blocks m)) (brk m), t)
  | None => Undefined
  end.

Definition get_node (p : addr) : io mem cJSON := fun m t =>
  match blocks m !! p with Some (BNode c) => Ret (c, m, t) | _ => Undefined end.
Definition upd_node (p : addr) (f : cJSON -> cJSON) : io mem () := fun m t =>
  match blocks m !! p with
  | Some (BNode c) => Ret ((), mkMem (<[p := BNode (f c)]> (blocks m)) (brk m), t)
  | _ => Undefined
  end.

(** The string at the start of a block. *)
Definition get_str (p : addr) : io mem (list Z) := fun m t =>
  match blocks m !! p with
  | Some (BChars l) => match c_str l with Some s => Ret (s, m, t) | None => Undefined end
  | _ => Undefined
  end.

(** [memcpy] of bytes to an offset of a block. *)
Definition put_bytes (p off : Z) (s : list Z) : io mem () := fun m t =>
  match blocks m !! p with
  | Some (BChars l) =>
      if decide (0 <= off /\ off + Z.of_nat (length s) <= Z.of_nat (length l)) then
        Ret ((), mkMem (<[p := BChars (take (Z.to_nat off) l ++ s
                            ++ drop (Z.to_nat off + length s) l)]> (blocks m)) (brk m), t)
      else Undefined
  | _ => Undefined
  end.

Definition get_ptr (p i : Z) : io mem addr := fun m t =>
  match blocks m !! p with
  | Some (BPtrs l) => match aget l i with Some q => Ret (q, m, t) | None => Undefined end
  | _ => Undefined
  end.
Definition put_ptr (p i q : Z) : io mem () := fun m t =>
  match blocks m !! p with
  | Some (BPtrs l) =>
      match aset l i q with
      | Some l' => Ret ((), mkMem (<[p := BPtrs l']> (blocks m)) (brk m), t)
      | None => Undefined
      end
  | _ => Undefined
  end.

(** ** Constructors *)

Definition cJSON_strdup (str : list Z) : io mem addr :=
  copy ← cJSON_malloc (Z.of_nat (length str) + 1);
  if decide (copy = 0) then mret 0 else
  put_bytes copy 0 (str ++ [0]);;
  mret copy.

(** 40 bytes, zeroed. *)
Definition cJSON_New_Item : io mem addr := malloc_as 40 (fun _ => BNode cJSON_zero).

Definition cJSON_CreateObject : io mem addr :=
  item ← cJSON_New_Item;
  (if decide (item = 0) then mret () else upd_node item (set_type cJSON_Object));;
  mret item.

Definition cJSON_CreateNumber (num : double) : io mem addr :=
  item ← cJSON_New_Item;
  (if decide (item = 0) then mret () else
     upd_node item (fun c => set_number num (set_type cJSON_Number c)));;
  mret item.

Definition cJSON_CreateString (s : list Z) : io mem addr :=
  item ← cJSON_New_Item;
  (if decide (item = 0) then mret () else
     upd_node item (set_type cJSON_String);;
     v ← cJSON_strdup s;
     upd_node item (set_valuestring v));;
  mret item.

(** [while (c && c->next) c=c->next;] *)
Fixpoint last_of (fuel : nat) (c : addr) : io mem addr :=
  match fuel with
  | O => fun m t => OutOfFuel
  | S fuel =>
      n ← get_node c;
      if decide (next n = 0) then mret c else last_of fuel (next n)
  end.

Definition suffix_object (prev_ item : addr) : io mem () :=
  upd_node prev_ (set_next item);; upd_node item (set_prev prev_).

Definition cJSON_AddItemToArray (array item : addr) : io mem () :=
  a ← get_node array;
  if decide (item = 0) then mret ()
  else if decide (child a = 0) then upd_node array (set_child item)
  else
    m ← gets blocks;
    c ← last_of (S (size m)) (child a);
    suffix_object c item.

Definition cJSON_AddItemToObject (object : addr) (str : list Z) (item : addr) : io mem () :=
  if decide (item = 0) then mret ()
  else
    i ← get_node item;
    (if decide (string_ i = 0) then mret () else cJSON_free (string_ i));;
    s ← cJSON_strdup str;
    upd_node item (set_string s);;
    cJSON_AddItemToArray object item.

(** ** Deletion *)

Fixpoint cJSON_Delete (fuel : nat) (c : addr) : io mem () :=
  match fuel with
  | O => fun m t => OutOfFuel
  | S fuel =>
      if decide (c = 0) then mret () else
      n ← get_node c;
      (if decide (Z.land (type n) cJSON_IsReference = 0 /\ child n <> 0)
       then cJSON_Delete fuel (child n) else mret ());;
      (if decide (Z.land (type n) cJSON_IsReference = 0 /\ valuestring n <> 0)
       then cJSON_free (valuestring n) else mret ());;
      (if decide (Z.land (type n) cJSON_StringIsConst = 0 /\ string_ n <> 0)
       then cJSON_free (string_ n) else mret ());;
      cJSON_free c;;
      cJSON_Delete fuel (next n)
  end.

(** ** Printing, without a print buffer *)

Definition print_number (item : addr) : io mem addr :=
  i ← get_node item;
  let d := valuedouble i in
  if SFeqb d (S754_zero false) then
    str ← cJSON_malloc 2;
    if decide (str = 0) then mret 0 else
    put_bytes str 0 (bs "0" ++ [0]);; mret str
  else if SFleb (SFabs (fsub (double_of_int (valueint i)) d)) DBL_EPSILON
          && SFleb d INT_MAX_d && SFleb INT_MIN_d d then
    str ← cJSON_malloc 21;
    if decide (str = 0) then mret 0 else
    put_bytes str 0 (fmt_d (valueint i) ++ [0]);; mret str
  else
    str ← cJSON_malloc 64;
    if decide (str = 0) then mret 0 else
    (if SFleb (SFabs (fsub (floor d) d)) DBL_EPSILON && SFltb (SFabs d) d_1e60
     then put_bytes str 0 (fmt_0f d ++ [0])
     else if SFltb (SFabs d) d_1em6 || SFltb d_1e9 (SFabs d)
     then put_bytes str 0 (fmt_e d ++ [0])
     else put_bytes str 0 (fmt_f d ++ [0]));;
    mret str.

(** A character that calls for an escape. *)
Definition needs_escape (c : Z) : bool :=
  bool_decide (0 < c < 32) || bool_decide (c = 34) || bool_decide (c = 92).

(** The characters with an escape of two: quote, backslash, \b \f \n \r \t. *)
Definition short_escapes : list Z := [34; 92; 8; 12; 10; 13; 9].

Definition escaped_len (s : list Z) : Z :=
  foldr (fun c n => n + 1 + (if decide (c ∈ short_escapes) then 1 else if decide (c < 32) then 5 else 0)) 0 s.

(** ["u%04x"] *)
Definition hex_lower (n : Z) : Z := if decide (n < 10) then 48 + n else 87 + n.
Definition u04x (c : Z) : list Z := [117; 48; 48; hex_lower (c / 16); hex_lower (c mod 16)].

(** The letter of a two-character escape. *)
Definition escape_letter (c : Z) : option Z :=
  if decide (c = 92) then Some 92 else if decide (c = 34) then Some 34
  else if decide (c = 8) then Some 98 else if decide (c = 12) then Some 102
  else if decide (c = 10) then Some 110 else if decide (c = 13) then Some 114
  else if decide (c = 9) then Some 116 else None.

Fixpoint escape_loop (out off : Z) (s : list Z) : io mem Z :=
  match s with
  | [] => mret off
  | c :: s =>
      if decide (31 < c /\ c <> 34 /\ c <> 92) then
        put_bytes out off [c];; escape_loop out (off + 1) s
      else
        put_bytes out off [92];;
        match escape_letter c with
        | Some x => put_bytes out (off + 1) [x];; escape_loop out (off + 2) s
        | None => put_bytes out (off + 1) (u04x c ++ [0]);; escape_loop out (off + 6) s
        end
  end.

Definition print_string_ptr (str : addr) : io mem addr :=
  s ← get_str str;
  if existsb needs_escape s then
    out ← cJSON_malloc (escaped_len s + 3);
    if decide (out = 0) then mret 0 else
    put_bytes out 0 [34];;
    off ← escape_loop out 1 s;
    put_bytes out off [34];;
    put_bytes out (off + 1) [0];;
    mret out
  else
    let len := Z.of_nat (length s) in
    out ← cJSON_malloc (len + 3);
    if decide (out = 0) then mret 0 else
    put_bytes out 0 [34];;
    put_bytes out 1 (s ++ [0]);;
    put_bytes out (1 + len) [34];;
    put_bytes out (1 + len + 1) [0];;
    mret out.

(** [while (child) numentries++,child=child->next;] *)
Fixpoint count_entries (fuel : nat) (c : addr) : io mem nat :=
  match fuel with
  | O => fun m t => OutOfFuel
  | S fuel =>
      if decide (c = 0) then mret 0%nat else
      n ← get_node c; k ← count_entries fuel (next n); mret (S k)
  end.

(** [n] copies of a tab at an offset. *)
Definition tabs (p off n : Z) : io mem Z :=
  put_bytes p off (replicate (Z.to_nat n) 9);; mret (off + Z.max 0 n).

Definition if_fmt (fmt : bool) (l : list Z) : list Z := if fmt then l else [].

(** The loop of [print_object] that prints names and values into the two arrays
    and adds up their lengths; [pv] prints a value. *)
Fixpoint collect_object (pv : addr -> Z -> bool -> io mem addr) (fuel : nat)
    (names entries : addr) (c : addr) (i depth : Z) (fmt : bool) (len : Z) (fail : bool)
  : io mem (Z * bool) :=
  match fuel with
  | O => fun m t => OutOfFuel
  | S fuel =>
      if decide (c = 0) then mret (len, fail) else
      n ← get_node c;
      str ← print_string_ptr (string_ n);
      put_ptr names i str;;
      ret ← pv c depth fmt;
      put_ptr entries i ret;;
      r ← (if decide (str <> 0 /\ ret <> 0) then
             a ← get_str ret;
             b ← get_str str;
             mret (s32 (len + (Z.of_nat (length a) + Z.of_nat (length b) + 2
                          + (if fmt then 2 + depth else 0))), fail)
           else mret (len, true));
      collect_object pv fuel names entries (next n) (i + 1) depth fmt (r.1) (r.2)
  end.

(** The loop that frees what was printed after a failure. *)
Fixpoint free_entries (names entries : addr) (i : Z) (k : nat) : io mem () :=
  match k with
  | O => mret ()
  | S k =>
      a ← get_ptr names i;
      (if decide (a = 0) then mret () else cJSON_free a);;
      b ← get_ptr entries i;
      (if decide (b = 0) then mret () else cJSON_free b);;
      free_entries names entries (i + 1) k
  end.

(** The loop that composes the text; [k] entries are left, [ptr] is the offset in
    the output. *)
Fixpoint compose_object (out names entries : addr) (i ptr depth : Z) (fmt : bool) (k : nat)
  : io mem Z :=
  match k with
  | O => mret ptr
  | S k =>
      ptr ← (if fmt then tabs out ptr depth else mret ptr);
      na ← get_ptr names i;
      name ← get_str na;
      put_bytes out ptr name;;
      let ptr := ptr + Z.of_nat (length name) in
      put_bytes out ptr ([58] ++ if_fmt fmt [9]);;
      let ptr := ptr + 1 + (if fmt then 1 else 0) in
      ea ← get_ptr entries i;
      entry ← get_str ea;
      put_bytes out ptr (entry ++ [0]);;
      let ptr := ptr + Z.of_nat (length entry) in
      let sep := (match k with O => [] | S _ => [44] end) ++ if_fmt fmt [10] in
      put_bytes out ptr (sep ++ [0]);;
      cJSON_free na;;
      cJSON_free ea;;
      compose_object out names entries (i + 1) (ptr + Z.of_nat (length sep)) depth fmt k
  end.

Definition print_object (pv : addr -> Z -> bool -> io mem addr) (fuel : nat)
    (item : addr) (depth : Z) (fmt : bool) : io mem addr :=
  it ← get_node item;
  numentries ← count_entries fuel (child it);
  if decide (numentries = 0)%nat then
    out ← cJSON_malloc (if fmt then depth + 4 else 3);
    if decide (out = 0) then mret 0 else
    put_bytes out 0 ([123] ++ if_fmt fmt [10]);;
    ptr ← (if fmt then tabs out 2 (depth - 1) else mret 1);
    put_bytes out ptr [125; 0];;
    mret out
  else
    entries ← malloc_ptrs numentries;
    if decide (entries = 0) then mret 0 else
    names ← malloc_ptrs numentries;
    if decide (names = 0) then cJSON_free entries;; mret 0 else
    let depth := depth + 1 in
    r ← collect_object pv fuel names entries (child it) 0 depth fmt
          (7 + if fmt then depth else 0) false;
    out ← (if (r.2 : bool) then mret 0 else cJSON_malloc (r.1));
    if decide (out = 0) then
      free_entries names entries 0 numentries;;
      cJSON_free names;; cJSON_free entries;; mret 0
    else
      put_bytes out 0 ([123] ++ if_fmt fmt [10] ++ [0]);;
      ptr ← compose_object out names entries 0 (1 + if fmt then 1 else 0) depth fmt numentries;
      cJSON_free names;;
      cJSON_free entries;;
      ptr ← (if fmt then tabs out ptr (depth - 1) else mret ptr);
      put_bytes out ptr [125; 0];;
      mret out.

(** The loop of [print_array] that prints the values, until one fails. *)
Fixpoint collect_array (pv : addr -> Z -> bool -> io mem addr) (fuel : nat)
    (entries : addr) (c : addr) (i depth : Z) (fmt : bool) (len : Z) : io mem (Z * bool) :=
  match fuel with
  | O => fun m t => OutOfFuel
  | S fuel =>
      if decide (c = 0) then mret (len, false) else
      ret ← pv c (depth + 1) fmt;
      put_ptr entries i ret;;
      if decide (ret = 0) then mret (len, true) else
      a ← get_str ret;
      n ← get_node c;
      collect_array pv fuel entries (next n) (i + 1) depth fmt
        (s32 (len + (Z.of_nat (length a) + 2 + (if fmt then 1 else 0))))
  end.

Fixpoint free_array (entries : addr) (i : Z) (k : nat) : io mem () :=
  match k with
  | O => mret ()
  | S k =>
      b ← get_ptr entries i;
      (if decide (b = 0) then mret () else cJSON_free b);;
      free_array entries (i + 1) k
  end.

Fixpoint compose_array (out entries : addr) (i ptr : Z) (fmt : bool) (k : nat) : io mem Z :=
  match k with
  | O => mret ptr
  | S k =>
      ea ← get_ptr entries i;
      entry ← get_str ea;
      put_bytes out ptr entry;;
      let ptr := ptr + Z.of_nat (length entry) in
      ptr ← (match k with
             | O => mret ptr
             | S _ =>
                 put_bytes out ptr ([44] ++ if_fmt fmt [32] ++ [0]);;
                 mret (ptr + 1 + (if fmt then 1 else 0))
             end);
      cJSON_free ea;;
      compose_array out entries (i + 1) ptr fmt k
  end.

Definition print_array (pv : addr -> Z -> bool -> io mem addr) (fuel : nat)
    (item : addr) (depth : Z) (fmt : bool) : io mem addr :=
  it ← get_node item;
  numentries ← count_entries fuel (child it);
  if decide (numentries = 0)%nat then
    out ← cJSON_malloc 3;
    if decide (out = 0) then mret 0 else
    put_bytes out 0 (bs "[]" ++ [0]);;
    mret out
  else
    entries ← malloc_ptrs numentries;
    if decide (entries = 0) then mret 0 else
    r ← collect_array pv fuel entries (child it) 0 depth fmt 5;
    out ← (if (r.2 : bool) then mret 0 else cJSON_malloc (r.1));
    if decide (out = 0) then
      free_array entries 0 numentries;;
      cJSON_free entries;; mret 0
    else
      put_bytes out 0 [91; 0];;
      ptr ← compose_array out entries 0 1 fmt numentries;
      cJSON_free entries;;
      put_bytes out ptr [93; 0];;
      mret out.

Fixpoint print_value (fuel : nat) (item : addr) (depth : Z) (fmt : bool) : io mem addr :=
  match fuel with
  | O => fun m t => OutOfFuel
  | S fuel =>
      if decide (item = 0) then mret 0 else
      it ← get_node item;
      let ty := Z.land (type it) 255 in
      if decide (ty = cJSON_NULL) then cJSON_strdup (bs "null")
      else if decide (ty = cJSON_False) then cJSON_strdup (bs "false")
      else if decide (ty = cJSON_True) then cJSON_strdup (bs "true")
      else if decide (ty = cJSON_Number) then print_number item
      else if decide (ty = cJSON_String) then print_string_ptr (valuestring it)
      else if decide (ty = cJSON_Array) then print_array (print_value fuel) fuel item depth fmt
      else if decide (ty = cJSON_Object) then print_object (print_value fuel) fuel item depth fmt
      else mret 0
  end.

Definition cJSON_PrintUnformatted (fuel : nat) (item : addr) : io mem addr :=
  print_value fuel item 0 false.
Definition cJSON_Print (fuel : nat) (item : addr) : io mem addr :=
  print_value fuel item 0 true.
End cjson.

(** ** Texts *)

Inductive json :=
| JNull | JFalse | JTrue
| JInt (z : Z)
| JStr (s : list Z)
| JArr (l : list json)
| JObj (l : list (list Z * json)).

Definition escape (c : Z) : list Z :=
  if decide (31 < c /\ c <> 34 /\ c <> 92) then [c]
  else match escape_letter c with
       | Some x => [92; x]
       | None => 92 :: u04x c
       end.

Definition quote (s : list Z) : list Z := [34] ++ flat_map escape s ++ [34].

Fixpoint comma (l : list (list Z)) : list Z :=
  match l with
  | [] => []
  | [x] => x
  | x :: l => x ++ [44] ++ comma l
  end.

Fixpoint text (j : json) : list Z :=
  match j with
  | JNull => bs "null"
  | JFalse => bs "false"
  | JTrue => bs "true"
  | JInt z => fmt_d z
  | JStr s => quote s
  | JArr l => [91] ++ comma (map text l) ++ [93]
  | JObj l => [123] ++ comma (map (fun p => quote (p.1) ++ [58] ++ text (p.2)) l) ++ [125]
  end.

(** ** Writing *)

(** The store is in order: every block has an address that was given out. *)
Definition wf (m : mem) : Prop :=
  0 < brk m /\ forall a, is_Some (blocks m !! a) -> 0 < a < brk m.

Lemma wf_fresh m : wf m -> blocks m !! brk m = None.
Proof.
  intros [_ H]. destruct (blocks m !! brk m) eqn:E; [|done].
  specialize (H (brk m)). rewrite E in H. specialize (H ltac:(by eexists)). lia.
Qed.

Lemma wf_update m h b : wf m -> brk m <= b ->
  (forall a, is_Some (h !! a) -> is_Some (blocks m !! a) \/ a = brk m /\ brk m < b) ->
  wf (mkMem h b).
Proof.
  intros [H0 H] Hb Hh. split; simpl; [lia|]. intros a Ha.
  destruct (Hh a Ha) as [Hm|[-> Hlt]]; [specialize (H a Hm); lia|lia].
Qed.

Lemma wf_insert m a b : wf m -> is_Some (blocks m !! a) -> wf (mkMem (<[a := b]> (blocks m)) (brk m)).
Proof.
  intros Hm Ha. apply (wf_update m); [done|lia|]. intros a' Ha'. left.
  destruct (decide (a = a')) as [<-|]; [done|]. by rewrite lookup_insert_ne in Ha'.
Qed.

Lemma wf_delete m a : wf m -> wf (mkMem (delete a (blocks m)) (brk m)).
Proof.
  intros Hm. apply (wf_update m); [done|lia|]. intros a' [x Ha']. left.
  apply lookup_delete_Some in Ha' as [_ ->]. by eexists.
Qed.

(** The allocator has refused a request. *)
Definition refused `{A : Allocator} : Prop := exists n sz, fresh n sz = None.

(** The outcome of a printing function: null and the store as it was, after a
    refusal, or one new block that holds the text. *)
Definition printed `{A : Allocator} (s : list Z) (m : mem) (out : addr) (m' : mem) : Prop :=
  brk m <= brk m' /\ wf m' /\
  ((out = 0 /\ refused /\ blocks m' = blocks m) \/
   (out <> 0 /\ blocks m !! out = None /\
    exists junk, blocks m' = <[out := BChars (s ++ 0 :: junk)]> (blocks m))).

Section printing.
Context `{A : Allocator} `{P : FloatPrint}.

Lemma wp_malloc_as sz b (Q : addr -> mem -> trace -> Prop) m t :
  wf m ->
  (forall m', blocks m' = blocks m -> brk m' = brk m + 1 -> wf m' -> refused -> Q 0 m' t) ->
  (forall l m', length l = Z.to_nat sz -> blocks m' = <[brk m := b l]> (blocks m) ->
    brk m' = brk m + 1 -> wf m' -> brk m <> 0 -> blocks m !! brk m = None -> Q (brk m) m' t) ->
  wp (malloc_as sz b) Q m t.
Proof.
  intros Hm Hno Hyes. unfold wp, malloc_as. destruct (fresh (brk m) sz) as [l|] eqn:E.
  - apply (Hyes l); try done.
    + by eapply fresh_length.
    + apply (wf_update m); [done|lia|]. intros a Ha.
      destruct (decide (a = brk m)) as [->|]; [right; lia|left].
      by rewrite lookup_insert_ne in Ha.
    + destruct Hm. lia.
    + by apply wf_fresh.
  - apply Hno; try done; [|by exists (brk m), sz]. apply (wf_update m); [done|lia|]. auto.
Qed.

Lemma wp_free p (Q : () -> mem -> trace -> Prop) m t :
  is_Some (blocks m !! p) -> wf m ->
  (wf (mkMem (delete p (blocks m)) (brk m)) -> Q () (mkMem (delete p (blocks m)) (brk m)) t) ->
  wp (cJSON_free p) Q m t.
Proof.
  intros [b Hb] Hm HQ. unfold wp, cJSON_free. rewrite decide_False, Hb.
  - apply HQ. by apply wf_delete.
  - intros ->. destruct Hm as [_ H]. specialize (H 0 ltac:(by eexists)). lia.
Qed.

Lemma wp_get_node p c (Q : cJSON -> mem -> trace -> Prop) m t :
  blocks m !! p = Some (BNode c) -> Q c m t -> wp (get_node p) Q m t.
Proof. intros H HQ. unfold wp, get_node. by rewrite H. Qed.

Lemma wp_get_str p s junk (Q : list Z -> mem -> trace -> Prop) m t :
  blocks m !! p = Some (BChars (s ++ 0 :: junk)) -> Forall (fun c => c <> 0) s ->
  Q s m t -> wp (get_str p) Q m t.
Proof. intros H Hs HQ. unfold wp, get_str. by rewrite H, c_str_app. Qed.

(** Writing [s] and [extra] behind [w]; the next write goes behind [s]. *)
Lemma wp_put out w tail s extra off (Q : () -> mem -> trace -> Prop) m t :
  blocks m !! out = Some (BChars (w ++ tail)) -> off = Z.of_nat (length w) ->
  (length s + length extra <= length tail)%nat -> wf m ->
  (forall tail' m', (length tail' + length s = length tail)%nat ->
    blocks m' = <[out := BChars ((w ++ s) ++ tail')]> (blocks m) ->
    brk m' = brk m -> wf m' -> Q () m' t) ->
  wp (put_bytes out off (s ++ extra)) Q m t.
Proof.
  intros Hout -> Hl Hm HQ. unfold wp, put_bytes. rewrite Hout.
  rewrite decide_True by (rewrite !length_app; lia).
  rewrite Nat2Z.id, take_app_length, drop_app_add.
  apply (HQ (extra ++ drop (length s + length extra) tail)).
  - rewrite length_app, length_drop. lia.
  - simpl. by rewrite length_app, <- !(assoc_L app).
  - done.
  - apply wf_insert; [done|by eexists].
Qed.

Lemma wp_put' out w tail s off (Q : () -> mem -> trace -> Prop) m t :
  blocks m !! out = Some (BChars (w ++ tail)) -> off = Z.of_nat (length w) ->
  (length s <= length tail)%nat -> wf m ->
  (forall tail' m', (length tail' + length s = length tail)%nat ->
    blocks m' = <[out := BChars ((w ++ s) ++ tail')]> (blocks m) ->
    brk m' = brk m -> wf m' -> Q () m' t) ->
  wp (put_bytes out off s) Q m t.
Proof.
  intros. rewrite <- (app_nil_r s). eapply wp_put; try done. simpl. lia.
Qed.

(** ** Strings *)

Lemma escape_nonzero c : is_byte c -> c <> 0 -> Forall (fun x => x <> 0) (escape c).
Proof.
  intros Hc Hne. unfold is_byte in Hc. unfold escape. case_decide.
  - by rewrite Forall_singleton.
  - unfold escape_letter. repeat case_decide; rewrite ?Forall_cons, ?Forall_nil; try done.
    unfold u04x, hex_lower. rewrite !Forall_cons, Forall_nil.
    pose proof (Z.mod_pos_bound c 16 ltac:(lia)). pose proof (Z.div_pos c 16 ltac:(lia) ltac:(lia)).
    split_and!; try done; try case_decide; lia.
Qed.

Lemma flat_escape_nonzero s : bytes s -> Forall (fun x => x <> 0) s ->
  Forall (fun x => x <> 0) (flat_map escape s).
Proof.
  intros Hb. induction Hb as [|c s Hc Hs IH]; intros Hn; simpl; [constructor|].
  apply Forall_cons in Hn as [Hc0 Hn]. apply Forall_app. split; [by apply escape_nonzero|auto].
Qed.

Lemma quote_nonzero s : bytes s -> Forall (fun x => x <> 0) s -> Forall (fun x => x <> 0) (quote s).
Proof.
  intros Hb Hn. unfold quote. rewrite !Forall_app. split_and!; [by repeat constructor| |by repeat constructor].
  by apply flat_escape_nonzero.
Qed.

Lemma quote_length s : (2 <= length (quote s))%nat.
Proof. unfold quote. rewrite !length_app. simpl. lia. Qed.

(** The length computed in advance is the length of the escaped text. *)
Lemma escape_length c : is_byte c -> c <> 0 ->
  Z.of_nat (length (escape c)) =
  1 + (if decide (c ∈ short_escapes) then 1 else if decide (c < 32) then 5 else 0).
Proof.
  unfold is_byte. revert c. by_evaluation 256.
Qed.

Lemma escaped_len_spec s : bytes s -> Forall (fun x => x <> 0) s ->
  escaped_len s = Z.of_nat (length (flat_map escape s)).
Proof.
  induction 1 as [|c s Hc Hs IH]; intros Hn; [done|]. simpl.
  apply Forall_cons in Hn as [Hc0 Hn]. rewrite length_app. rewrite IH by done.
  rewrite Nat2Z.inj_add, escape_length by done. lia.
Qed.

Lemma no_escape s : bytes s -> Forall (fun x => x <> 0) s ->
  existsb needs_escape s = false -> flat_map escape s = s.
Proof.
  induction 1 as [|c s Hc Hs IH]; intros Hn Hf; [done|]. simpl in *.
  apply Forall_cons in Hn as [Hc0 Hn]. apply orb_false_iff in Hf as [Hf1 Hf2].
  rewrite IH by done. unfold needs_escape in Hf1. rewrite !orb_false_iff, !bool_decide_eq_false in Hf1.
  unfold escape. unfold is_byte in Hc. by rewrite decide_True by lia.
Qed.

Lemma wp_escape_loop s : forall out w tail (Q : Z -> mem -> trace -> Prop) m t,
  blocks m !! out = Some (BChars (w ++ tail)) -> bytes s -> wf m ->
  (length (flat_map escape s) + 1 <= length tail)%nat ->
  (forall tail' m', (length tail' + length (flat_map escape s) = length tail)%nat ->
    blocks m' = <[out := BChars ((w ++ flat_map escape s) ++ tail')]> (blocks m) ->
    brk m' = brk m -> wf m' ->
    Q (Z.of_nat (length (w ++ flat_map escape s))) m' t) ->
  wp (escape_loop out (Z.of_nat (length w)) s) Q m t.
Proof.
  induction s as [|c s IH]; intros out w tail Q m t Hout Hb Hm Hl HQ.
  - simpl in *. wp_step. rewrite app_nil_r in HQ. apply (HQ tail); try done; try lia.
    by rewrite insert_id.
  - apply Forall_cons in Hb as [Hc Hb]. cbn [escape_loop flat_map] in *.
    assert (Hnext : forall w1 tail1 m1,
      (length tail1 + length w1 = length tail)%nat -> w1 = escape c ->
      blocks m1 = <[out := BChars ((w ++ w1) ++ tail1)]> (blocks m) -> brk m1 = brk m -> wf m1 ->
      wp (escape_loop out (Z.of_nat (length (w ++ w1))) s) Q m1 t).
    { intros w1 tail1 m1 Hl1 -> Hm1 Hb1 Hw1. rewrite length_app in Hl.
      apply (IH out (w ++ escape c) tail1); try done.
      - by rewrite Hm1, lookup_insert_eq.
      - lia.
      - intros tail' m' Hl' Hm' Hb' Hw'. rewrite <- (assoc_L app w). apply (HQ tail'); try done.
        + rewrite length_app. lia.
        + by rewrite Hm', Hm1, insert_insert_eq, !(assoc_L app).
        + congruence. }
    unfold escape in Hnext, Hl. destruct (decide (31 < c /\ c <> 34 /\ c <> 92)) as [Hp|Hp].
    + wp_step. eapply wp_put'; [done|done|simpl in *; lia|done|].
      intros tail1 m1 Hl1 Hm1 Hb1 Hw1. specialize (Hnext [c] tail1 m1 Hl1 eq_refl Hm1 Hb1 Hw1).
      rewrite length_app in Hnext. simpl in Hnext.
      by replace (Z.of_nat (length w) + 1) with (Z.of_nat (length w + 1)) by lia.
    + wp_step. eapply wp_put'; [done|done|destruct (escape_letter c); simpl in *; lia|done|].
      intros tail1 m1 Hl1 Hm1 Hb1 Hw1. simpl in Hl1.
      assert (Hout1 : blocks m1 !! out = Some (BChars ((w ++ [92]) ++ tail1)))
        by by rewrite Hm1, lookup_insert_eq.
      destruct (escape_letter c) as [x|].
      * wp_step. eapply wp_put'; [exact Hout1|rewrite length_app; simpl; lia|simpl in *; lia|done|].
        intros tail2 m2 Hl2 Hm2 Hb2 Hw2. simpl in Hl2.
        specialize (Hnext [92; x] tail2 m2). rewrite length_app in Hnext. simpl in Hnext.
        replace (Z.of_nat (length w) + 2) with (Z.of_nat (length w + 2)) by lia.
        apply Hnext; [lia|done| |congruence|done].
        by rewrite Hm2, Hm1, insert_insert_eq, <- !(assoc_L app).
      * wp_step. eapply wp_put; [exact Hout1|rewrite length_app; simpl; lia|simpl in *; lia|done|].
        intros tail2 m2 Hl2 Hm2 Hb2 Hw2. simpl in Hl2.
        specialize (Hnext (92 :: u04x c) tail2 m2). rewrite length_app in Hnext. simpl in Hnext.
        replace (Z.of_nat (length w) + 6) with (Z.of_nat (length w + 6)) by lia.
        apply Hnext; [lia|done| |congruence|done].
        by rewrite Hm2, Hm1, insert_insert_eq, <- !(assoc_L app).
Qed.

Lemma printed_none s m m' :
  blocks m' = blocks m -> brk m <= brk m' -> wf m' -> refused -> printed s m 0 m'.
Proof. intros Hm Hb Hw Hr. split; [lia|]. split; [done|]. by left. Qed.

Lemma printed_block s m m' junk b0 : wf m ->
  blocks m' = <[brk m := BChars (s ++ 0 :: junk)]> (<[brk m := b0]> (blocks m)) ->
  brk m' = brk m + 1 -> wf m' -> printed s m (brk m) m'.
Proof.
  intros Hm E Hb Hw. split; [lia|]. split; [done|]. right. rewrite insert_insert_eq in E.
  split; [destruct Hm; lia|]. split; [by apply wf_fresh|]. by exists junk.
Qed.

End printing.

(** Ask for a block; the first goal is refusal. *)
Ltac malloc_step l m1 Hl Hm1 Hb1 Hw1 :=
  wp_step; apply wp_malloc_as; [assumption |
    intros m1 Hm1 Hb1 Hw1 ?Hr1; rewrite decide_True by done; wp_step;
      split; [done | apply printed_none; [assumption | lia | assumption | assumption]] |
    intros l m1 Hl Hm1 Hb1 Hw1 ?Hne ?Hfresh; rewrite decide_False by done ].

Section printing_atoms.
Context `{A : Allocator} `{P : FloatPrint}.

Lemma wp_strdup str m t : wf m ->
  wp (cJSON_strdup str) (fun out m' t' => t' = t /\ printed str m out m') m t.
Proof.
  intros Hm. unfold cJSON_strdup, cJSON_malloc. malloc_step l m1 Hl Hm1 Hb1 Hw1.
  wp_step. apply (wp_put' _ [] l (str ++ [0])); try done.
  - by rewrite Hm1, lookup_insert_eq.
  - rewrite length_app. simpl. lia.
  - intros tail m2 _ Hm2 Hb2 Hw2. wp_step. split; [done|].
    rewrite Hm1 in Hm2. rewrite app_nil_l, <- (assoc_L app) in Hm2. simpl in Hm2.
    eapply printed_block; [done|exact Hm2|congruence|done].
Qed.

Lemma wp_print_string str s junk m t :
  wf m -> blocks m !! str = Some (BChars (s ++ 0 :: junk)) -> bytes s -> Forall (fun c => c <> 0) s ->
  wp (print_string_ptr str) (fun out m' t' => t' = t /\ printed (quote s) m out m') m t.
Proof.
  intros Hm Hstr Hb Hn. unfold print_string_ptr, cJSON_malloc. wp_step.
  eapply wp_get_str; [done|done|]. destruct (existsb needs_escape s) eqn:Hesc.
  - rewrite escaped_len_spec by done. malloc_step l m1 Hl Hm1 Hb1 Hw1.
    wp_step. apply (wp_put' _ [] l); try done; [by rewrite Hm1, lookup_insert_eq|simpl; lia|].
    intros tail2 m2 Hl2 Hm2 Hb2 Hw2. simpl in Hl2, Hm2.
    wp_step. apply (wp_escape_loop s (brk m) [34] tail2); try done;
      [by rewrite Hm2, lookup_insert_eq|lia|].
    intros tail3 m3 Hl3 Hm3 Hb3 Hw3. rewrite Hm2, insert_insert_eq in Hm3.
    wp_step. eapply wp_put'; [by rewrite Hm3, lookup_insert_eq|done|simpl; lia|done|].
    intros tail4 m4 Hl4 Hm4 Hb4 Hw4. rewrite Hm3, insert_insert_eq in Hm4. simpl in Hl4.
    wp_step. eapply wp_put'; [by rewrite Hm4, lookup_insert_eq|rewrite !length_app; simpl; lia|simpl; lia|done|].
    intros tail5 m5 Hl5 Hm5 Hb5 Hw5. rewrite Hm4, insert_insert_eq, Hm1 in Hm5.
    wp_step. split; [done|]. eapply printed_block; [done| |congruence|done].
    rewrite Hm5. unfold quote. by rewrite <- !(assoc_L app).
  - cbv zeta. malloc_step l m1 Hl Hm1 Hb1 Hw1.
    wp_step. apply (wp_put' _ [] l); try done; [by rewrite Hm1, lookup_insert_eq|simpl; lia|].
    intros tail2 m2 Hl2 Hm2 Hb2 Hw2. simpl in Hl2, Hm2.
    wp_step. apply (wp_put (brk m) [34] tail2); try done;
      [by rewrite Hm2, lookup_insert_eq|simpl; lia|].
    intros tail3 m3 Hl3 Hm3 Hb3 Hw3. rewrite Hm2, insert_insert_eq in Hm3.
    wp_step. eapply wp_put'; [by rewrite Hm3, lookup_insert_eq|rewrite length_app; simpl; lia|simpl; lia|done|].
    intros tail4 m4 Hl4 Hm4 Hb4 Hw4. rewrite Hm3, insert_insert_eq in Hm4. simpl in Hl4.
    wp_step. eapply wp_put'; [by rewrite Hm4, lookup_insert_eq|rewrite !length_app; simpl; lia|simpl; lia|done|].
    intros tail5 m5 Hl5 Hm5 Hb5 Hw5. rewrite Hm4, insert_insert_eq, Hm1 in Hm5.
    wp_step. split; [done|]. eapply printed_block; [done| |congruence|done].
    rewrite Hm5. unfold quote. rewrite no_escape by done. by rewrite <- !(assoc_L app).
Qed.

Definition number_at (c : cJSON) (z : Z) : Prop :=
  is_int z /\ valueint c = z /\ valuedouble c = double_of_int z.

Lemma wp_print_number item c z m t :
  wf m -> blocks m !! item = Some (BNode c) -> number_at c z ->
  wp (print_number item) (fun out m' t' => t' = t /\ printed (fmt_d z) m out m') m t.
Proof.
  intros Hm Hitem (Hz & Hi & Hd). unfold print_number, cJSON_malloc. wp_step.
  eapply wp_get_node; [done|]. cbv zeta. rewrite Hd, Hi.
  assert (Hsm : small z) by (unfold small; unfold is_int in Hz; lia).
  assert (H0 : SFeqb (double_of_int z) (S754_zero false) = (z =? 0)).
  { change (S754_zero false) with (double_of_int 0). by rewrite eqb_exact. }
  assert (Hput : forall s (n : Z) b m1, (length s < Z.to_nat n)%nat -> length b = Z.to_nat n ->
    blocks m1 = <[brk m := BChars b]> (blocks m) -> brk m1 = brk m + 1 -> wf m1 ->
    wp (put_bytes (brk m) 0 (s ++ [0]);; mret (brk m))
      (fun out m' t' => t' = t /\ printed s m out m') m1 t).
  { intros s n b m1 Hs Hb Hm1 Hb1 Hw1. wp_step. apply (wp_put' _ [] b); try done.
    - by rewrite Hm1, lookup_insert_eq.
    - rewrite length_app. simpl. lia.
    - intros tail m2 _ Hm2 Hb2 Hw2. wp_step. split; [done|]. rewrite Hm1 in Hm2.
      rewrite app_nil_l, <- (assoc_L app) in Hm2. simpl in Hm2.
      eapply printed_block; [done|exact Hm2|congruence|done]. }
  destruct (z =? 0) eqn:Ez.
  - rewrite H0. apply Z.eqb_eq in Ez as ->. cbv iota. malloc_step l m1 Hl Hm1 Hb1 Hw1. eapply (Hput _ 2); try done.
    simpl. lia.
  - assert (Hbr : SFleb (SFabs (fsub (double_of_int z) (double_of_int z))) DBL_EPSILON
      && SFleb (double_of_int z) INT_MAX_d && SFleb INT_MIN_d (double_of_int z) = true).
    { unfold fsub. rewrite sub_same by done. unfold INT_MAX_d, INT_MIN_d. unfold is_int in Hz.
      rewrite !leb_exact by (done || (unfold small; lia)). rewrite !andb_true_iff. split_and!; [done|lia|lia]. }
    rewrite H0, Hbr. cbv iota. malloc_step l m1 Hl Hm1 Hb1 Hw1. eapply (Hput _ 21); try done.
    unfold is_int in Hz. pose proof (fmt_d_length z 9) as H. simpl Z.of_nat in *.
    enough (length (fmt_d z) <= 11)%nat by lia. apply H. change (10 ^ Z.of_nat 10) with 10000000000. lia.
Qed.
End printing_atoms.

(** ** Trees in the store

    [value_at h c j fp]: the node [c] holds the value [j], in the blocks [fp];
    [elems_at h p l fp]: from [p] a chain of values without names;
    [chain_at h p l fp]: from [p] a chain of named values. *)

Inductive value_at (h : gmap Z block) : cJSON -> json -> list Z -> Prop :=
| va_null c : type c = cJSON_NULL -> child c = 0 -> valuestring c = 0 -> value_at h c JNull []
| va_false c : type c = cJSON_False -> child c = 0 -> valuestring c = 0 -> value_at h c JFalse []
| va_true c : type c = cJSON_True -> child c = 0 -> valuestring c = 0 -> value_at h c JTrue []
| va_int c z : type c = cJSON_Number -> child c = 0 -> valuestring c = 0 -> number_at c z ->
    value_at h c (JInt z) []
| va_str c s junk : type c = cJSON_String -> child c = 0 -> valuestring c <> 0 ->
    h !! valuestring c = Some (BChars (s ++ 0 :: junk)) -> bytes s -> Forall (fun x => x <> 0) s ->
    value_at h c (JStr s) [valuestring c]
| va_arr c l fp : type c = cJSON_Array -> valuestring c = 0 -> elems_at h (child c) l fp ->
    value_at h c (JArr l) fp
| va_obj c l fp : type c = cJSON_Object -> valuestring c = 0 -> chain_at h (child c) l fp ->
    value_at h c (JObj l) fp
with elems_at (h : gmap Z block) : addr -> list json -> list Z -> Prop :=
| ea_nil : elems_at h 0 [] []
| ea_cons p c j l fp1 fp2 :
    p <> 0 -> h !! p = Some (BNode c) -> string_ c = 0 ->
    value_at h c j fp1 -> elems_at h (next c) l fp2 ->
    elems_at h p (j :: l) (p :: fp1 ++ fp2)
with chain_at (h : gmap Z block) : addr -> list (list Z * json) -> list Z -> Prop :=
| ca_nil : chain_at h 0 [] []
| ca_cons p c k junk j l fp1 fp2 :
    p <> 0 -> h !! p = Some (BNode c) ->
    string_ c <> 0 -> h !! string_ c = Some (BChars (k ++ 0 :: junk)) ->
    bytes k -> Forall (fun x => x <> 0) k ->
    value_at h c j fp1 -> chain_at h (next c) l fp2 ->
    chain_at h p ((k, j) :: l) (p :: string_ c :: fp1 ++ fp2).

Scheme value_at_mut := Induction for value_at Sort Prop
with elems_at_mut := Induction for elems_at Sort Prop
with chain_at_mut := Induction for chain_at Sort Prop.

(** A tree depends on its own blocks only, and they are allocated. *)
Lemma value_at_agree h c j fp : value_at h c j fp -> forall h',
  (forall a, a ∈ fp -> h' !! a = h !! a) -> value_at h' c j fp.
Proof.
  intros H. induction H using value_at_mut with
    (P0 := fun p l fp (_ : elems_at h p l fp) => forall h',
      (forall a, a ∈ fp -> h' !! a = h !! a) -> elems_at h' p l fp)
    (P1 := fun p l fp (_ : chain_at h p l fp) => forall h',
      (forall a, a ∈ fp -> h' !! a = h !! a) -> chain_at h' p l fp);
    intros h' Hag; try by constructor.
  - econstructor; try done. rewrite Hag; [done|set_solver].
  - econstructor; try done; auto.
  - econstructor; try done; auto.
  - econstructor; try done.
    + rewrite Hag; [done|set_solver].
    + apply IHvalue_at. set_solver.
    + apply IHvalue_at0. set_solver.
  - econstructor; try done.
    + rewrite Hag; [done|set_solver].
    + rewrite Hag; [done|set_solver].
    + apply IHvalue_at. set_solver.
    + apply IHvalue_at0. set_solver.
Qed.

Lemma value_at_dom h c j fp : value_at h c j fp -> forall a, a ∈ fp -> is_Some (h !! a).
Proof.
  intros H. induction H using value_at_mut with
    (P0 := fun p l fp (_ : elems_at h p l fp) => forall a, a ∈ fp -> is_Some (h !! a))
    (P1 := fun p l fp (_ : chain_at h p l fp) => forall a, a ∈ fp -> is_Some (h !! a));
    intros a Ha; try (by apply elem_of_nil in Ha); try (by auto).
  - apply list_elem_of_singleton in Ha as ->. by eexists.
  - rewrite !elem_of_cons, elem_of_app in Ha. destruct Ha as [->|[Ha|Ha]]; eauto.
  - rewrite !elem_of_cons, elem_of_app in Ha. destruct Ha as [->|[->|[Ha|Ha]]]; eauto.
Qed.

(** The value of a node does not depend on its links and name. *)
Lemma value_at_fields h c c' j fp : value_at h c j fp ->
  type c' = type c -> child c' = child c -> valuestring c' = valuestring c ->
  valueint c' = valueint c -> valuedouble c' = valuedouble c -> value_at h c' j fp.
Proof.
  intros Hv Ht Hc Hs Hi Hd. destruct Hv as [c ? ? ?|c ? ? ?|c ? ? ?|c z ? ? ? (? & ? & ?)|c s junk ? ? ? Hstr ? ?|c l fp ? ? Hl|c l fp ? ? Hl].
  1-3: constructor; congruence.
  - constructor; try congruence. split; [done|]. split; congruence.
  - rewrite <- Hs. rewrite <- Hs in Hstr. apply (va_str _ c' s junk); try done; congruence.
  - constructor; [congruence|congruence|]. by rewrite Hc.
  - constructor; [congruence|congruence|]. by rewrite Hc.
Qed.

(** The number of blocks below a node. *)
Fixpoint fpsize (j : json) : nat :=
  match j with
  | JStr _ => 1
  | JArr l => foldr (fun j n => 1 + fpsize j + n) 0 l
  | JObj l => foldr (fun p n => 2 + fpsize (p.2) + n) 0 l
  | _ => 0
  end%nat.

Lemma value_at_fpsize h c j fp : value_at h c j fp -> length fp = fpsize j.
Proof.
  intros H. induction H using value_at_mut with
    (P0 := fun p l fp (_ : elems_at h p l fp) => length fp = fpsize (JArr l))
    (P1 := fun p l fp (_ : chain_at h p l fp) => length fp = fpsize (JObj l)); try done; simpl in *; rewrite length_app; lia.
Qed.

Lemma wp_upd_node p c f (Q : () -> mem -> trace -> Prop) m t :
  blocks m !! p = Some (BNode c) -> wf m ->
  (forall m', blocks m' = <[p := BNode (f c)]> (blocks m) -> brk m' = brk m -> wf m' -> Q () m' t) ->
  wp (upd_node p f) Q m t.
Proof.
  intros Hp Hm HQ. unfold wp, upd_node. rewrite Hp. apply HQ; [done|done|].
  apply wf_insert; [done|by eexists].
Qed.
