(* ===== verification/CjsonPrint.v ===== *)
(** * Printing a JSON tree

    The unformatted printer of cJSON.c on a tree in the store: its text, or null when
    the allocator refused a request, and in both cases no temporary is left. *)

From Stdlib Require Import SpecFloat.
From S2P Require Import Prelude CString Double Env Cjson.

(** ** Temporaries of the printer

    [h] is [h0] with the blocks [K] and the strings [T] on top. *)
Notation strings := (list (addr * list Z)).

Definition holds (h : gmap Z block) (x : addr * list Z) : Prop :=
  exists junk, h !! x.1 = Some (BChars (x.2 ++ 0 :: junk)).

Record tmp (h0 h : gmap Z block) (K : list addr) (T : strings) : Prop := {
  t_frame : forall a, a ∉ K ++ T.*1 -> h !! a = h0 !! a;
  t_fresh : forall a, a ∈ K ++ T.*1 -> h0 !! a = None;
  t_nodup : NoDup (K ++ T.*1);
  t_live : Forall (fun a => is_Some (h !! a)) K;
  t_strs : Forall (holds h) T
}.

Lemma tmp_start h : tmp h h [] [].
Proof. split; try done; [by intros a ?%elem_of_nil|constructor]. Qed.

Lemma tmp_done h0 h : tmp h0 h [] [] -> h = h0.
Proof. intros [Hf _ _ _ _]. apply map_eq. intros a. apply Hf. apply not_elem_of_nil. Qed.

Lemma tmp_agree h0 h K T a : tmp h0 h K T -> is_Some (h0 !! a) -> h !! a = h0 !! a.
Proof.
  intros [Hf Hr _ _ _] [x Ha]. apply Hf. intros Hin. specialize (Hr a Hin). congruence.
Qed.

Lemma tmp_perm h0 h K T T' : T ≡ₚ T' -> tmp h0 h K T -> tmp h0 h K T'.
Proof.
  intros Hp [Hf Hr Hn Hl Hs]. assert (Hp' : K ++ T.*1 ≡ₚ K ++ T'.*1) by by rewrite Hp.
  split.
  - intros a Ha. apply Hf. by rewrite Hp'.
  - intros a Ha. apply Hr. by rewrite Hp'.
  - by rewrite <- Hp'.
  - done.
  - by rewrite <- Hp.
Qed.

Lemma tmp_perm_blocks h0 h K K' T : K ≡ₚ K' -> tmp h0 h K T -> tmp h0 h K' T.
Proof.
  intros Hp [Hf Hr Hn Hl Hs]. assert (Hp' : K ++ T.*1 ≡ₚ K' ++ T.*1) by by rewrite Hp.
  split.
  - intros a Ha. apply Hf. by rewrite Hp'.
  - intros a Ha. apply Hr. by rewrite Hp'.
  - by rewrite <- Hp'.
  - by rewrite <- Hp.
  - done.
Qed.

(** One block left. *)
Lemma tmp_one h0 h a b : tmp h0 h [a] [] -> h !! a = Some b -> h = <[a := b]> h0 /\ h0 !! a = None.
Proof.
  intros [Hf Hr _ _ _] Ha. split.
  - apply map_eq. intros x. destruct (decide (a = x)) as [<-|Hx].
    + by rewrite lookup_insert_eq.
    + rewrite lookup_insert_ne by done. apply Hf. rewrite app_nil_r, list_elem_of_singleton. congruence.
  - apply Hr. rewrite app_nil_r. by apply list_elem_of_singleton.
Qed.

Lemma holds_agree h h' T : (forall a, a ∈ T.*1 -> h' !! a = h !! a) ->
  Forall (holds h) T -> Forall (holds h') T.
Proof.
  intros Hag HT. rewrite Forall_forall in *. intros [a s] Hx. destruct (HT _ Hx) as [junk Hj].
  exists junk. simpl in *. rewrite Hag; [done|]. apply list_elem_of_fmap. by exists (a, s).
Qed.

Lemma tmp_disjoint h0 h K T a x : tmp h0 h K T -> a ∈ K -> x ∈ T.*1 -> a <> x.
Proof.
  intros [_ _ Hn _ _] Ha Hx ->. apply NoDup_app in Hn as (_ & Hd & _). by eapply Hd.
Qed.

Lemma tmp_upd h0 h K T a b : a ∈ K -> tmp h0 h K T -> tmp h0 (<[a := b]> h) K T.
Proof.
  intros Ha Ht. pose proof Ht as [Hf Hr Hn Hl Hs]. split; try done.
  - intros x Hx. rewrite lookup_insert_ne; [auto|]. intros <-. apply Hx, elem_of_app. by left.
  - eapply Forall_impl; [exact Hl|]. intros x Hx. simpl.
    destruct (decide (a = x)) as [<-|]; [rewrite lookup_insert_eq; by eexists|].
    by rewrite lookup_insert_ne.
  - eapply holds_agree; [|done]. intros x Hx. apply lookup_insert_ne. by eapply tmp_disjoint.
Qed.

Lemma tmp_unused h0 h K T a : tmp h0 h K T -> h !! a = None -> a ∉ K ++ T.*1.
Proof.
  intros [Hf Hr Hn Hl Hs] Ha [HK|HT]%elem_of_app.
  - rewrite Forall_forall in Hl. destruct (Hl _ HK). congruence.
  - apply list_elem_of_fmap in HT as ([x s] & -> & Hx). rewrite Forall_forall in Hs.
    destruct (Hs _ Hx) as [junk Hj]. simpl in *. congruence.
Qed.

Lemma tmp_new h0 h K T a b : h !! a = None -> tmp h0 h K T -> tmp h0 (<[a := b]> h) (a :: K) T.
Proof.
  intros Ha Ht. pose proof (tmp_unused _ _ _ _ _ Ht Ha) as Hu. destruct Ht as [Hf Hr Hn Hl Hs].
  assert (Hne : forall x, x ∈ K ++ T.*1 -> a <> x) by (intros x Hx ->; done).
  split.
  - intros x Hx. simpl in Hx. apply not_elem_of_cons in Hx as [Hx Hx'].
    rewrite lookup_insert_ne by done. auto.
  - intros x Hx. simpl in Hx. apply elem_of_cons in Hx as [->|Hx]; [|auto]. by rewrite <- Hf.
  - simpl. by constructor.
  - constructor; [rewrite lookup_insert_eq; by eexists|]. rewrite Forall_forall in *.
    intros x Hx. rewrite lookup_insert_ne; [auto|]. apply Hne, elem_of_app. by left.
  - eapply holds_agree; [|done]. intros x Hx. apply lookup_insert_ne, Hne, elem_of_app. by right.
Qed.

Lemma tmp_del h0 h K T a : tmp h0 h (a :: K) T -> tmp h0 (delete a h) K T.
Proof.
  intros [Hf Hr Hn Hl Hs]. simpl in *. apply NoDup_cons in Hn as [Hni Hn].
  apply Forall_cons in Hl as [_ Hl].
  assert (Hne : forall x, x ∈ K ++ T.*1 -> a <> x) by (intros x Hx ->; done).
  split; try done.
  - intros x Hx. destruct (decide (a = x)) as [<-|Hax].
    + rewrite lookup_delete_eq. symmetry. apply Hr, elem_of_cons. by left.
    + rewrite lookup_delete_ne by done. apply Hf. rewrite elem_of_cons. naive_solver.
  - intros x Hx. apply Hr, elem_of_cons. by right.
  - rewrite Forall_forall in *. intros x Hx. rewrite lookup_delete_ne; [auto|].
    apply Hne, elem_of_app. by left.
  - eapply holds_agree; [|done]. intros x Hx. apply lookup_delete_ne, Hne, elem_of_app. by right.
Qed.

(** A string is a block like another. *)
Lemma tmp_str_block h0 h K T a s : tmp h0 h K ((a, s) :: T) -> tmp h0 h (a :: K) T.
Proof.
  intros [Hf Hr Hn Hl Hs]. simpl in *. apply Forall_cons in Hs as [[junk Ha] Hs].
  assert (Hp : K ++ a :: T.*1 ≡ₚ a :: K ++ T.*1) by by rewrite Permutation_middle.
  split; try done; simpl.
  - intros x Hx. apply Hf. by rewrite Hp.
  - intros x Hx. apply Hr. by rewrite Hp.
  - by rewrite <- Hp.
  - constructor; [by eexists|done].
Qed.

Lemma tmp_block_str h0 h K T a s junk : h !! a = Some (BChars (s ++ 0 :: junk)) ->
  tmp h0 h (a :: K) T -> tmp h0 h K ((a, s) :: T).
Proof.
  intros Ha [Hf Hr Hn Hl Hs]. simpl in *. apply Forall_cons in Hl as [_ Hl].
  assert (Hp : K ++ a :: T.*1 ≡ₚ a :: K ++ T.*1) by by rewrite Permutation_middle.
  split; try done; simpl.
  - intros x Hx. apply Hf. by rewrite <- Hp.
  - intros x Hx. apply Hr. by rewrite <- Hp.
  - by rewrite Hp.
  - constructor; [by eexists|done].
Qed.

(** A string or nothing. *)
Definition nz (a : addr) (s : list Z) : strings := if decide (a = 0) then [] else [(a, s)].

Lemma tmp_printed `{A : Allocator} h0 m m' K T s out :
  printed s m out m' -> tmp h0 (blocks m) K T -> tmp h0 (blocks m') K (nz out s ++ T).
Proof.
  intros (_ & _ & Hp) Ht. unfold nz. destruct Hp as [(-> & _ & ->)|(Hne & Hu & junk & ->)]; [done|].
  rewrite decide_False by done. simpl. eapply (tmp_block_str _ _ _ _ _ _ junk).
  - by rewrite lookup_insert_eq.
  - by apply tmp_new.
Qed.

(** ** Printing a tree *)

(** Fuel enough to print. *)
Fixpoint jsize (j : json) : nat :=
  match j with
  | JArr l => 2 + foldr (fun j n => jsize j + n) 0 l
  | JObj l => 2 + foldr (fun p n => jsize (p.2) + n) 0 l
  | _ => 1
  end%nat.

Definition lsize (l : list (list Z * json)) : nat := foldr (fun p n => jsize (p.2) + n)%nat 0%nat l.

Lemma jsize_pos j : (1 <= jsize j)%nat.
Proof. destruct j; simpl; lia. Qed.

Lemma lsize_length l : (length l <= lsize l)%nat.
Proof. induction l as [|[k j] l IH]; simpl; [lia|]. pose proof (jsize_pos j). lia. Qed.

Definition asize (l : list json) : nat := foldr (fun j n => jsize j + n)%nat 0%nat l.

Lemma asize_length l : (length l <= asize l)%nat.
Proof. induction l as [|j l IH]; simpl; [lia|]. pose proof (jsize_pos j). lia. Qed.

(** The length the loop over an array adds up. *)
Definition atotal (l : list json) : Z := foldr (fun j n => Z.of_nat (length (text j)) + 2 + n) 0 l.

Lemma atotal_cons j l : atotal (j :: l) = Z.of_nat (length (text j)) + 2 + atotal l.
Proof. done. Qed.

Lemma atotal_nonneg l : 0 <= atotal l.
Proof. induction l as [|j l IH]; [done|]. rewrite atotal_cons. lia. Qed.

(** One value of an array with what separates it from the next. *)
Lemma comma_text_cons j l : comma (map text (j :: l)) = text j ++ match l with [] => [] | _ => [44] end ++ comma (map text l).
Proof. destruct l; cbn [map comma]; [by rewrite !app_nil_r|done]. Qed.

Lemma acomma_length l : Z.of_nat (length (comma (map text l))) <= atotal l.
Proof.
  induction l as [|j l IH]; [done|]. rewrite comma_text_cons, atotal_cons, !length_app.
  destruct l; simpl in *; lia.
Qed.

Lemma acomma_total l : atotal l <= 2 * Z.of_nat (length (comma (map text l))) + 2.
Proof.
  induction l as [|j l IH]; [unfold atotal; simpl; lia|]. rewrite comma_text_cons, atotal_cons, !length_app.
  destruct l; [unfold atotal; simpl; lia|]. cbn [length] in *. lia.
Qed.

(** A bound on the text of every value. *)
Definition short_texts (l : list json) : Prop := Forall (fun j => Z.of_nat (length (text j)) < 1073741000) l.

Lemma acomma_short l : Z.of_nat (length (comma (map text l))) < 1073741000 -> short_texts l.
Proof.
  induction l as [|j l IH]; intros H; [constructor|]. rewrite comma_text_cons, !length_app in H.
  constructor; [lia|]. apply IH. lia.
Qed.

Definition entry (p : list Z * json) : list Z := quote (p.1) ++ [58] ++ text (p.2).

(** The length the first loop adds up. *)
Definition total (l : list (list Z * json)) : Z :=
  foldr (fun p n => Z.of_nat (length (text (p.2))) + Z.of_nat (length (quote (p.1))) + 2 + n) 0 l.

Lemma total_cons k j l : total ((k, j) :: l) =
  Z.of_nat (length (text j)) + Z.of_nat (length (quote k)) + 2 + total l.
Proof. done. Qed.

Lemma total_nonneg l : 0 <= total l.
Proof. induction l as [|[k j] l IH]; [done|]. rewrite total_cons. lia. Qed.

Lemma comma_length l : l <> [] ->
  Z.of_nat (length (comma (map entry l))) = total l - 1.
Proof.
  induction l as [|[k j] l IH]; intros Hne; [done|].
  destruct l as [|q l].
  - simpl. unfold entry. rewrite !length_app. simpl. lia.
  - specialize (IH ltac:(done)). cbn [map comma total foldr] in *.
    change (comma (entry q :: map entry l)) with (comma (map entry (q :: l))) in *.
    cbn [map] in *. unfold entry at 1. rewrite !length_app. simpl in *. lia.
Qed.

#[local] Arguments total : simpl never.
#[local] Arguments atotal : simpl never.

(** The strings printed for the entries [l], at the addresses [W]. *)
Fixpoint live (l : list (list Z * json)) (W : list (addr * addr)) : strings :=
  match l, W with
  | (k, j) :: l, (n, e) :: W => nz n (quote k) ++ nz e (text j) ++ live l W
  | _, _ => []
  end.

Definition all_printed (W : list (addr * addr)) : Prop := Forall (fun w => w.1 <> 0 /\ w.2 <> 0) W.
#[global] Instance all_printed_dec W : Decision (all_printed W).
Proof. unfold all_printed. apply _. Defined.

(** The same for the values of an array. *)
Fixpoint alive (l : list json) (W : list addr) : strings :=
  match l, W with
  | j :: l, e :: W => nz e (text j) ++ alive l W
  | _, _ => []
  end.

Definition aprinted (W : list addr) : Prop := Forall (fun e => e <> 0) W.
#[global] Instance aprinted_dec W : Decision (aprinted W).
Proof. unfold aprinted. apply _. Defined.

Lemma alive_none l : forall n, alive l (replicate n 0) = [].
Proof. induction l as [|j l IH]; intros [|n]; [done..|]. simpl. apply IH. Qed.

Definition is_json_text (s : list Z) : Prop := Forall (fun c => c <> 0) s.

Section print_tree.
Context `{A : Allocator} `{P : FloatPrint}.

Lemma wp_get_ptr p l i q (Q : addr -> mem -> trace -> Prop) m t :
  blocks m !! p = Some (BPtrs l) -> aget l i = Some q -> Q q m t -> wp (get_ptr p i) Q m t.
Proof. intros H Hq HQ. unfold wp, get_ptr. by rewrite H, Hq. Qed.

Lemma wp_put_ptr p l i q l' (Q : () -> mem -> trace -> Prop) m t :
  blocks m !! p = Some (BPtrs l) -> aset l i q = Some l' -> wf m ->
  (forall m', blocks m' = <[p := BPtrs l']> (blocks m) -> brk m' = brk m -> wf m' -> Q () m' t) ->
  wp (put_ptr p i q) Q m t.
Proof.
  intros H Hq Hm HQ. unfold wp, put_ptr. rewrite H, Hq. apply HQ; try done.
  apply wf_insert; [done|by eexists].
Qed.

(** What [printed] leaves of the other blocks. *)
Lemma printed_other s m out m' a x :
  printed s m out m' -> blocks m !! a = Some x -> blocks m' !! a = Some x.
Proof.
  intros (_ & _ & [(_ & _ & ->)|(_ & Hu & junk & ->)]) Ha; [done|].
  rewrite lookup_insert_ne; [done|]. intros ->. congruence.
Qed.

Lemma printed_str s m out m' : printed s m out m' -> out <> 0 ->
  exists junk, blocks m' !! out = Some (BChars (s ++ 0 :: junk)).
Proof.
  intros (_ & _ & [(-> & _)|(_ & _ & junk & ->)]) Hne; [done|]. exists junk. by rewrite lookup_insert_eq.
Qed.

(** Freeing the strings of the entries, printed or not. *)
Lemma wp_free_opt a s h0 K T (Q : () -> mem -> trace -> Prop) m t :
  tmp h0 (blocks m) K (nz a s ++ T) -> wf m ->
  (forall m', tmp h0 (blocks m') K T -> wf m' -> brk m' = brk m ->
    (forall x b, x ∈ K -> blocks m !! x = Some b -> blocks m' !! x = Some b) -> Q () m' t) ->
  wp (if decide (a = 0) then mret () else cJSON_free a) Q m t.
Proof.
  intros Ht Hw HQ. unfold nz in Ht. destruct (decide (a = 0)) as [->|Hne].
  - wp_step. by apply HQ.
  - simpl in Ht. pose proof (t_strs _ _ _ _ Ht) as Hs. apply Forall_cons in Hs as [[junk Ha] _].
    apply wp_free; [by eexists|done|]. intros Hw'. apply HQ; try done; simpl.
    + apply tmp_del. by eapply tmp_str_block.
    + intros x b Hx Hb. rewrite lookup_delete_ne; [done|].
      intros ->. eapply tmp_disjoint; [exact Ht|exact Hx| |done]. simpl. apply elem_of_cons. by left.
Qed.

Lemma wp_free_entries l : forall W names entries pn pe h0 (Q : () -> mem -> trace -> Prop) m t,
  length W = length l ->
  tmp h0 (blocks m) [names; entries] (live l W) -> wf m ->
  blocks m !! names = Some (BPtrs (pn ++ W.*1)) ->
  blocks m !! entries = Some (BPtrs (pe ++ W.*2)) ->
  length pn = length pe ->
  (forall m', tmp h0 (blocks m') [names; entries] [] -> wf m' -> brk m' = brk m -> Q () m' t) ->
  wp (free_entries names entries (Z.of_nat (length pn)) (length l)) Q m t.
Proof.
  induction l as [|[k j] l IH]; intros [|[n e] W] names entries pn pe h0 Q m t HW Ht Hm Hn He Hlen HQ;
    try done; simpl in *.
  - wp_step. auto.
  - wp_step. eapply wp_get_ptr; [done|by apply aget_mid|]. wp_step.
    eapply wp_free_opt; [done|done|]. intros m1 Ht1 Hm1 Hbk1 Hk1.
    assert (HnK : names ∈ [names; entries]) by set_solver.
    assert (HeK : entries ∈ [names; entries]) by set_solver.
    apply (Hk1 _ _ HnK) in Hn. apply (Hk1 _ _ HeK) in He.
    wp_step. eapply wp_get_ptr; [done|apply aget_mid; lia|]. wp_step.
    eapply wp_free_opt; [done|done|]. intros m2 Ht2 Hm2 Hbk2 Hk2.
    apply (Hk2 _ _ HnK) in Hn. apply (Hk2 _ _ HeK) in He.
    replace (Z.of_nat (length pn) + 1) with (Z.of_nat (length (pn ++ [n])))
      by (rewrite length_app; simpl; lia).
    eapply (IH W names entries (pn ++ [n]) (pe ++ [e])); try done.
    + lia.
    + by rewrite <- (assoc_L app).
    + by rewrite <- (assoc_L app).
    + rewrite !length_app. simpl. lia.
    + intros m' Ht' Hw' Hb'. apply HQ; [done|done|congruence].
Qed.

Lemma wp_free_str a s h0 K T (Q : () -> mem -> trace -> Prop) m t :
  a <> 0 -> tmp h0 (blocks m) K (nz a s ++ T) -> wf m ->
  (forall m', tmp h0 (blocks m') K T -> wf m' -> brk m' = brk m ->
    (forall x b, x ∈ K -> blocks m !! x = Some b -> blocks m' !! x = Some b) -> Q () m' t) ->
  wp (cJSON_free a) Q m t.
Proof.
  intros Hne Ht Hw HQ. pose proof (wp_free_opt a s h0 K T Q m t Ht Hw HQ) as H.
  by rewrite decide_False in H.
Qed.

(** The strings of the entries have no NUL inside. *)
Definition entries_ok (l : list (list Z * json)) : Prop :=
  Forall (fun p => is_json_text (quote (p.1)) /\ is_json_text (text (p.2))) l.

(** The text of one entry with what separates it from the next. *)
Lemma comma_cons p l :
  comma (map entry (p :: l)) =
  quote (p.1) ++ [58] ++ text (p.2) ++ (match length l with O => [] | S _ => [44] end ++ [])
    ++ comma (map entry l).
Proof.
  destruct l as [|q l]; cbn [map length].
  - simpl. unfold entry. by rewrite app_nil_r.
  - change (comma (entry p :: entry q :: map entry l))
      with (entry p ++ [44] ++ comma (entry q :: map entry l)).
    unfold entry at 1. by rewrite <- !(assoc_L app).
Qed.

Lemma wp_compose_object l : forall W out names entries pn pe w tail depth h0
    (Q : Z -> mem -> trace -> Prop) m t,
  length W = length l -> all_printed W -> entries_ok l ->
  tmp h0 (blocks m) [out; names; entries] (live l W) -> wf m ->
  blocks m !! out = Some (BChars (w ++ tail)) ->
  blocks m !! names = Some (BPtrs (pn ++ W.*1)) ->
  blocks m !! entries = Some (BPtrs (pe ++ W.*2)) ->
  length pn = length pe ->
  (length (comma (map entry l)) + 1 <= length tail)%nat ->
  (forall m' tail', (length tail' + length (comma (map entry l)) = length tail)%nat ->
    tmp h0 (blocks m') [out; names; entries] [] -> wf m' -> brk m' = brk m ->
    blocks m' !! out = Some (BChars ((w ++ comma (map entry l)) ++ tail')) ->
    Q (Z.of_nat (length (w ++ comma (map entry l)))) m' t) ->
  wp (compose_object out names entries (Z.of_nat (length pn)) (Z.of_nat (length w)) depth false
        (length l)) Q m t.
Proof.
  induction l as [|[k j] l IH];
    intros [|[n e] W] out names entries pn pe w tail depth h0 Q m t HW Hall Hok Ht Hm Hout Hn He Hlen Htl HQ;
    try done.
  - simpl in *. wp_step. rewrite app_nil_r in HQ. apply (HQ m tail); try done; lia.
  - apply Forall_cons in Hall as [[Hn0 He0] Hall]. apply Forall_cons in Hok as [[Hk0 Hj0] Hok].
    simpl in Hn0, He0, Hk0, Hj0.
    pose proof (comma_cons (k, j) l) as Hcomma. simpl fst in Hcomma. simpl snd in Hcomma.
    rewrite Hcomma in Htl, HQ. clear Hcomma.
    set (sep := match length l with O => [] | S _ => [44] end ++ []) in *.
    assert (Hno : out <> names /\ out <> entries).
    { pose proof (t_nodup _ _ _ _ Ht) as Hd. simpl in Hd. apply NoDup_cons in Hd as [Hd _].
      rewrite !not_elem_of_cons in Hd. tauto. }
    destruct Hno as [Hon Hoe].
    assert (HoK : out ∈ [out; names; entries]) by set_solver.
    assert (Hstr : forall a s junk, blocks m !! a = Some (BChars (s ++ 0 :: junk)) -> a <> out ->
      forall m1 b, blocks m1 = <[out := b]> (blocks m) -> blocks m1 !! a = Some (BChars (s ++ 0 :: junk))).
    { intros a s junk Ha Hao m1 b ->. by rewrite lookup_insert_ne. }
    pose proof Ht as Ht0. simpl in Ht. unfold nz in Ht0. simpl in Ht0. unfold nz in Ht0.
    rewrite !decide_False in Ht0 by done. simpl in Ht0.
    pose proof (t_strs _ _ _ _ Ht0) as Hs. rewrite !Forall_cons in Hs.
    destruct Hs as ([jn Hna] & [je Hea] & _). cbn [fst snd] in Hna, Hea.
    assert (Hno : n <> out /\ e <> out).
    { split; intros ->; (eapply tmp_disjoint; [exact Ht0|exact HoK| |done]); simpl; set_solver. }
    destruct Hno as [Hno Heo]. rewrite !length_app in Htl.
    cbn [length compose_object fmap list_fmap fst snd] in *.
    wp_steps. eapply wp_get_ptr; [done|by apply aget_mid|].
    wp_step. eapply wp_get_str; [exact Hna|exact Hk0|].
    wp_step. eapply wp_put'; [done|done|simpl in *; lia|done|].
    intros t1 m1 Hl1 Hm1 Hb1 Hw1. cbv zeta.
    wp_step. eapply wp_put; [by rewrite Hm1, lookup_insert_eq|rewrite length_app; lia|simpl in *; lia|done|].
    intros t2 m2 Hl2 Hm2 Hb2 Hw2. rewrite Hm1, insert_insert_eq in Hm2. simpl in Hl2.
    wp_step. eapply wp_get_ptr; [rewrite Hm2, lookup_insert_ne by done; exact He|apply aget_mid; lia|].
    wp_step. eapply wp_get_str; [by eapply Hstr|done|].
    wp_step. eapply wp_put; [by rewrite Hm2, lookup_insert_eq|rewrite !length_app; simpl; lia|simpl in *; lia|done|].
    intros t3 m3 Hl3 Hm3 Hb3 Hw3. rewrite Hm2, insert_insert_eq in Hm3.
    wp_step. change (if_fmt false [10]) with (@nil Z). fold sep.
    eapply wp_put; [by rewrite Hm3, lookup_insert_eq|rewrite !length_app; simpl; lia|simpl in *; lia|done|].
    intros t4 m4 Hl4 Hm4 Hb4 Hw4. rewrite Hm3, insert_insert_eq in Hm4.
    assert (Ht4 : tmp h0 (blocks m4) [out; names; entries]
      (nz n (quote k) ++ nz e (text j) ++ live l W)).
    { rewrite Hm4. by apply tmp_upd. }
    wp_step. eapply wp_free_str; [done|exact Ht4|done|]. intros m5 Ht5 Hw5 Hb5 Hk5.
    wp_step. eapply wp_free_str; [done|exact Ht5|done|]. intros m6 Ht6 Hw6 Hb6 Hk6.
    assert (Hkeep : forall x b, x ∈ [out; names; entries] -> blocks m4 !! x = Some b ->
      blocks m6 !! x = Some b) by auto.
    match goal with |- wp (compose_object _ _ _ ?i ?q _ _ _) _ _ _ =>
      replace i with (Z.of_nat (length (pn ++ [n]))) by (rewrite length_app; simpl; lia);
      replace q with (Z.of_nat (length ((((w ++ quote k) ++ [58]) ++ text j) ++ sep)))
        by (rewrite !length_app; simpl; lia)
    end.
    eapply (IH W out names entries (pn ++ [n]) (pe ++ [e]) _ t4); try done.
    + lia.
    + apply Hkeep; [done|]. by rewrite Hm4, lookup_insert_eq.
    + rewrite <- (assoc_L app). apply Hkeep; [set_solver|]. by rewrite Hm4, lookup_insert_ne.
    + rewrite <- (assoc_L app). apply Hkeep; [set_solver|]. by rewrite Hm4, lookup_insert_ne.
    + rewrite !length_app. simpl. lia.
    + simpl in *. lia.
    + intros m' tail' Hl' Ht' Hw' Hb' Ho'.
      rewrite <- !(assoc_L app) in Ho'. rewrite <- !(assoc_L app). apply (HQ m' tail'); try done.
      * rewrite !length_app. simpl in *. lia.
      * congruence.
      * by rewrite <- !(assoc_L app).
Qed.

Lemma value_at_text h c j fp : value_at h c j fp -> is_json_text (text j).
Proof.
  intros H. induction H using value_at_mut with
    (P0 := fun p l fp (_ : elems_at h p l fp) => Forall (fun j => is_json_text (text j)) l)
    (P1 := fun p l fp (_ : chain_at h p l fp) => entries_ok l); unfold is_json_text in *; simpl.
  1-3: by apply (bool_decide_unpack _); vm_compute.
  - apply fmt_d_nonzero.
  - by apply quote_nonzero.
  - constructor; [done|]. apply Forall_app. split; [|by repeat constructor].
    clear -IHvalue_at. induction l as [|j l IH]; [constructor|].
    apply Forall_cons in IHvalue_at as [Hj Hl]. specialize (IH Hl).
    rewrite comma_text_cons. rewrite !Forall_app. split_and!; try done. destruct l; repeat constructor; done.
  - constructor; [done|]. apply Forall_app. split; [|by repeat constructor].
    clear -IHvalue_at. induction l as [|p l IH]; [constructor|].
    apply Forall_cons in IHvalue_at as [[Hk Hj] Hl]. specialize (IH Hl).
    rewrite comma_cons. rewrite !Forall_app. split_and!; try done; [by repeat constructor|].
    destruct (length l); repeat constructor; done.
  - constructor.
  - by constructor.
  - constructor.
  - constructor; [|done]. split; [by apply quote_nonzero|done].
Qed.

Lemma chain_at_ok h p l fp : chain_at h p l fp -> entries_ok l.
Proof.
  induction 1; constructor; [|done]. split; [by apply quote_nonzero|by eapply value_at_text].
Qed.

Lemma wp_count_entries h p l fp : chain_at h p l fp -> forall fuel m t,
  (forall a, a ∈ fp -> blocks m !! a = h !! a) -> (length l < fuel)%nat ->
  wp (count_entries fuel p) (fun n m' t' => n = length l /\ m' = m /\ t' = t) m t.
Proof.
  induction 1 as [|p c k junk j l fp1 fp2 Hp Hc Hs Hk Hb Hn Hv Hl IH];
    intros [|fuel] m t Hag Hf; simpl in *; try lia.
  - by wp_step.
  - rewrite decide_False by done. wp_step. eapply wp_get_node; [rewrite Hag; [done|set_solver]|].
    wp_step. eapply wp_mono; [apply IH; [set_solver|lia]|].
    intros n m' t' (-> & -> & ->). by wp_step.
Qed.

(** The statement for a chain: the first loop prints every entry it can. *)
Definition collects (h : gmap Z block) (p : addr) (l : list (list Z * json)) (fp : list Z) : Prop :=
  forall h0, (forall a, a ∈ fp -> h0 !! a = h !! a) ->
  forall f fuel names entries pn pe depth len fail T m t,
  (lsize l <= f)%nat -> (length l < fuel)%nat ->
  tmp h0 (blocks m) [names; entries] T -> wf m ->
  blocks m !! names = Some (BPtrs (pn ++ replicate (length l) 0)) ->
  blocks m !! entries = Some (BPtrs (pe ++ replicate (length l) 0)) ->
  length pn = length pe -> 7 <= len -> len + total l < 1073741010 ->
  wp (collect_object (print_value f) fuel names entries p (Z.of_nat (length pn)) depth false len fail)
    (fun r m' t' => t' = t /\ exists W, length W = length l /\
      tmp h0 (blocks m') [names; entries] (live l W ++ T) /\ wf m' /\ brk m <= brk m' /\
      blocks m' !! names = Some (BPtrs (pn ++ W.*1)) /\
      blocks m' !! entries = Some (BPtrs (pe ++ W.*2)) /\
      r.2 = (if decide (all_printed W) then fail else true) /\
      (all_printed W -> r.1 = len + total l) /\ (all_printed W \/ refused)) m t.

(** The statement for a value. *)
Definition prints (h : gmap Z block) (c : cJSON) (j : json) (fp : list Z) : Prop :=
  forall f p depth m t, wf m -> (forall a, a ∈ fp -> blocks m !! a = h !! a) ->
  blocks m !! p = Some (BNode c) -> (jsize j <= f)%nat ->
  Z.of_nat (length (text j)) < 1073741000 ->
  wp (print_value f p depth false)
    (fun out m' t' => t' = t /\ printed (text j) m out m') m t.

Lemma collects_cons h p c k junk j l fp1 fp2 :
  p <> 0 -> h !! p = Some (BNode c) ->
  h !! string_ c = Some (BChars (k ++ 0 :: junk)) ->
  bytes k -> Forall (fun x => x <> 0) k ->
  value_at h c j fp1 -> prints h c j fp1 -> collects h (next c) l fp2 ->
  collects h p ((k, j) :: l) (p :: string_ c :: fp1 ++ fp2).
Proof.
  intros Hp Hc Hk Hb Hn Hv Hpr Hcol h0 Hag f [|fuel] names entries pn pe depth len fail T m t
    Hf Hfu Ht Hm Hna Hea Hlen H0 Htot; simpl in *; [lia|]. rewrite total_cons in *.
  rewrite <- Hag in Hc, Hk by set_solver.
  assert (Hv0 : value_at h0 c j fp1) by (eapply value_at_agree; [done|set_solver]).
  rewrite decide_False by done. pose proof (total_nonneg l) as Htl. pose proof (quote_length k).
  wp_step. eapply wp_get_node; [by rewrite (tmp_agree _ _ _ _ _ Ht) by by eexists|].
  wp_step. eapply wp_mono.
  { eapply wp_print_string; [done| |done|done]. by rewrite (tmp_agree _ _ _ _ _ Ht) by by eexists. }
  intros n m1 t1 [-> Hp1]. pose proof (tmp_printed _ _ _ _ _ _ _ Hp1 Ht) as Ht1.
  apply (printed_other _ _ _ _ _ _ Hp1) in Hna as Hna1.
  apply (printed_other _ _ _ _ _ _ Hp1) in Hea as Hea1.
  destruct Hp1 as (Hb1 & Hw1 & Hp1).
  wp_step. eapply wp_put_ptr; [done|by apply aset_mid|done|]. intros m2 Hm2 Hb2 Hw2.
  assert (Hne : names <> entries).
  { pose proof (t_nodup _ _ _ _ Ht) as Hd. simpl in Hd. apply NoDup_cons in Hd as [Hd _].
    rewrite not_elem_of_cons in Hd. tauto. }
  assert (Ht2 : tmp h0 (blocks m2) [names; entries] (nz n (quote k) ++ T)).
  { rewrite Hm2. apply tmp_upd; [set_solver|done]. }
  wp_step. eapply wp_mono.
  { apply Hpr; [done| | |lia|lia].
    - intros a Ha. rewrite (tmp_agree _ _ _ _ _ Ht2); [set_solver|by eapply value_at_dom].
    - rewrite (tmp_agree _ _ _ _ _ Ht2); [done|by eexists]. }
  intros e m3 t3 [-> Hp3]. pose proof (tmp_printed _ _ _ _ _ _ _ Hp3 Ht2) as Ht3.
  assert (Hea2 : blocks m2 !! entries = Some (BPtrs (pe ++ 0 :: replicate (length l) 0))).
  { by rewrite Hm2, lookup_insert_ne. }
  assert (Hna2 : blocks m2 !! names = Some (BPtrs (pn ++ n :: replicate (length l) 0))).
  { by rewrite Hm2, lookup_insert_eq. }
  apply (printed_other _ _ _ _ _ _ Hp3) in Hna2 as Hna3.
  apply (printed_other _ _ _ _ _ _ Hp3) in Hea2 as Hea3.
  pose proof Hp3 as (Hb3 & Hw3 & _).
  wp_step. eapply wp_put_ptr; [done|apply aset_mid; lia|done|]. intros m4 Hm4 Hb4 Hw4.
  assert (Ht4 : tmp h0 (blocks m4) [names; entries] (nz e (text j) ++ nz n (quote k) ++ T)).
  { rewrite Hm4. apply tmp_upd; [set_solver|done]. }
  assert (Hna4 : blocks m4 !! names = Some (BPtrs ((pn ++ [n]) ++ replicate (length l) 0))).
  { rewrite Hm4, lookup_insert_ne by done. by rewrite <- (assoc_L app). }
  assert (Hea4 : blocks m4 !! entries = Some (BPtrs ((pe ++ [e]) ++ replicate (length l) 0))).
  { rewrite Hm4, lookup_insert_eq. by rewrite <- (assoc_L app). }
  wp_step.
  apply (wp_mono _ (fun r m' t' => m' = m4 /\ t' = t /\
    r = if decide (n <> 0 /\ e <> 0)
        then (len + (Z.of_nat (length (text j)) + Z.of_nat (length (quote k)) + 2), fail)
        else (len, true))).
  { destruct (decide (n <> 0 /\ e <> 0)) as [[Hn0 He0]|Hz]; [|by wp_step].
    pose proof (t_strs _ _ _ _ Ht4) as Hs. unfold nz in Hs. rewrite !decide_False in Hs by done.
    simpl in Hs. rewrite !Forall_cons in Hs. destruct Hs as ([je Hje] & [jn Hjn] & _).
    cbn [fst snd] in Hje, Hjn.
    wp_step. eapply wp_get_str; [exact Hje|by eapply value_at_text|].
    wp_step. eapply wp_get_str; [exact Hjn|by apply quote_nonzero|]. wp_step.
    split_and!; try done. f_equal. cbv iota. rewrite s32_id by lia. lia. }
  intros r m' t' (-> & -> & Hr).
  replace (Z.of_nat (length pn) + 1) with (Z.of_nat (length (pn ++ [n])))
    by (rewrite length_app; simpl; lia).
  eapply wp_mono.
  { eapply (Hcol h0 ltac:(set_solver) f fuel names entries (pn ++ [n]) (pe ++ [e]) depth (r.1) (r.2)); try done; try lia.
    - rewrite !length_app. simpl. lia.
    - rewrite Hr. case_decide; cbn [fst]; lia.
    - rewrite Hr. case_decide; cbn [fst]; lia. }
  intros r' m' t' (-> & W & HW & HtW & HwW & HbW & HnW & HeW & Hr2 & Hr1 & Href). split; [done|].
  exists ((n, e) :: W). rewrite <- !(assoc_L app) in HnW, HeW.
  split_and!; try done; [simpl; lia| |lia| | |].
  - cbn [live]. eapply tmp_perm; [|exact HtW]. solve_Permutation.
  - rewrite Hr2, Hr. unfold all_printed. rewrite (decide_ext _ _ _ _ (Forall_cons _ (n, e) W)). 
    repeat case_decide; simpl in *; try done; tauto.
  - intros Hall. apply Forall_cons in Hall as [Hne0 Hall]. simpl in Hne0.
    rewrite (Hr1 Hall), Hr, decide_True, ?total_cons by done. cbn [fst]. lia.
  - destruct Href as [Hall|?]; [|by right].
    destruct Hp1 as [(_ & ? & _)|(Hn0 & _)]; [by right|].
    destruct Hp3 as (_ & _ & [(_ & ? & _)|(He0 & _)]); [by right|]. left. by constructor.
Qed.

(** After a failure everything that was allocated is freed. *)
Lemma wp_object_failed s m0 names entries l W m t :
  length W = length l -> tmp (blocks m0) (blocks m) [names; entries] (live l W) -> wf m ->
  brk m0 <= brk m -> refused ->
  blocks m !! names = Some (BPtrs (W.*1)) -> blocks m !! entries = Some (BPtrs (W.*2)) ->
  wp (free_entries names entries 0 (length l);; cJSON_free names;; cJSON_free entries;; mret 0)
    (fun out m' t' => t' = t /\ printed s m0 out m') m t.
Proof.
  intros HW Ht Hw Hb Href Hn He. wp_step.
  apply (wp_free_entries l W names entries [] [] (blocks m0)); try done.
  intros m1 Ht1 Hw1 Hb1. wp_step.
  pose proof (t_live _ _ _ _ Ht1) as Hl. rewrite !Forall_cons in Hl. destruct Hl as (Hn1 & He1 & _).
  apply wp_free; [done|done|]. intros Hw2. apply tmp_del in Ht1. wp_step.
  pose proof (t_live _ _ _ _ Ht1) as Hl. rewrite Forall_singleton in Hl.
  apply wp_free; [done|done|]. intros Hw3. apply tmp_del in Ht1. wp_step.
  split; [done|]. apply printed_none; [by apply tmp_done| |done|done]. simpl. lia.
Qed.

(** With every entry printed and room for the text, it is composed and the
    temporaries are freed. *)
Lemma wp_object_composed m0 out names entries l W tail depth m t :
  length W = length l -> all_printed W -> entries_ok l -> l <> [] ->
  tmp (blocks m0) (blocks m) [out; names; entries] (live l W) -> wf m -> brk m0 <= brk m -> out <> 0 ->
  blocks m !! out = Some (BChars tail) ->
  blocks m !! names = Some (BPtrs (W.*1)) -> blocks m !! entries = Some (BPtrs (W.*2)) ->
  Z.of_nat (length tail) = 7 + total l ->
  wp (put_bytes out 0 ([123] ++ if_fmt false [10] ++ [0]);;
      ptr ← compose_object out names entries 0 (1 + 0) depth false (length l);
      cJSON_free names;; cJSON_free entries;;
      ptr ← mret ptr;
      put_bytes out ptr [125; 0];; mret out)
    (fun out m' t' => t' = t /\ printed (text (JObj l)) m0 out m') m t.
Proof.
  intros HW Hall Hok Hne Ht Hw Hb Ho0 Hout Hn He Hlen.
  pose proof (comma_length l Hne) as Hcl. pose proof (total_nonneg l).
  assert (Hd : out <> names /\ out <> entries /\ names <> entries).
  { pose proof (t_nodup _ _ _ _ Ht) as Hd. simpl in Hd. rewrite !NoDup_cons, !not_elem_of_cons in Hd.
    tauto. }
  destruct Hd as (Hon & Hoe & Hne').
  change ([123] ++ if_fmt false [10] ++ [0]) with ([123] ++ [0]).
  wp_step. apply (wp_put out [] tail [123] [0]); try done; [simpl; lia|].
  intros t1 m1 Hl1 Hm1 Hb1 Hw1. simpl in Hl1.
  wp_step. apply (wp_compose_object l W out names entries [] [] [123] t1 depth (blocks m0)); try done.
  - rewrite Hm1. apply tmp_upd; [set_solver|done].
  - by rewrite Hm1, lookup_insert_eq.
  - by rewrite Hm1, lookup_insert_ne.
  - by rewrite Hm1, lookup_insert_ne.
  - lia.
  - intros m2 t2 Hl2 Ht2 Hw2 Hb2 Ho2.
    assert (Hp : [out; names; entries] ≡ₚ [names; entries; out]) by solve_Permutation.
    apply (tmp_perm_blocks _ _ _ _ _ Hp) in Ht2.
    assert (Hlive : forall K, tmp (blocks m0) (blocks m2) K [] -> Forall (fun a => is_Some (blocks m2 !! a)) K)
      by (intros K HK; apply (t_live _ _ _ _ HK)).
    specialize (Hlive _ Ht2). rewrite !Forall_cons in Hlive. destruct Hlive as (Hn2 & He2 & _).
    wp_step. apply wp_free; [done|done|]. intros Hw3. apply tmp_del in Ht2.
    wp_step. apply wp_free; [cbn [blocks]; by rewrite lookup_delete_ne|done|]. intros Hw4. apply tmp_del in Ht2.
    wp_steps.
    eapply wp_put'; [cbn [blocks]; rewrite !lookup_delete_ne by done; exact Ho2|done|simpl; lia|done|].
    intros t5 m5 Hl5 Hm5 Hb5 Hw5. wp_step. split; [done|].
    split; [simpl in Hb5; lia|]. split; [done|]. right. split; [done|].
    assert (Ht5 : tmp (blocks m0) (blocks m5) [out] []).
    { rewrite Hm5. apply tmp_upd; [by apply list_elem_of_singleton|done]. }
    assert (Ho5 : blocks m5 !! out = Some (BChars (text (JObj l) ++ 0 :: t5))).
    { rewrite Hm5, lookup_insert_eq. cbn [text].
      change (map (fun p => quote p.1 ++ [58] ++ text p.2) l) with (map entry l).
      by rewrite <- !(assoc_L app). }
    destruct (tmp_one _ _ _ _ Ht5 Ho5) as [-> Hfr]. split; [done|]. by exists t5.
Qed.

Lemma collects_nil h : collects h 0 [] [].
Proof.
  intros h0 Hag f [|fuel] names entries pn pe depth len fail T m t Hf Hfu Ht Hm Hna Hea Hlen H0 Htot;
    simpl in *; [lia|].
  wp_step. split; [done|]. exists []. simpl. unfold total. simpl. split_and!; try done; try lia.
  left. constructor.
Qed.

(** Printing an object, from the loop over its chain. *)
Lemma prints_object h c l fp :
  chain_at h (child c) l fp -> collects h (child c) l fp -> type c = cJSON_Object ->
  prints h c (JObj l) fp.
Proof.
  intros Hch Hcol Hty [|f] p depth m t Hm Hag Hp Hf Hlen; [simpl in Hf; lia|].
  assert (Hp0 : p <> 0). { intros ->. destruct Hm as [_ H]. specialize (H 0 ltac:(by eexists)). lia. }
  cbn [print_value]. rewrite decide_False by done. wp_step. eapply wp_get_node; [done|].
  rewrite Hty. cbv zeta. simpl Z.land.
  repeat (rewrite decide_False by done). rewrite decide_True by done.
  unfold print_object, cJSON_malloc. wp_step. eapply wp_get_node; [done|].
  assert (Hls : (lsize l < f)%nat) by (simpl in Hf; unfold lsize; lia).
  pose proof (lsize_length l) as Hll.
  wp_step. eapply wp_mono; [eapply wp_count_entries; [done|done|lia]|].
  intros k m' t' (-> & -> & ->). wp_if as [Hnil|Hnil].
  { destruct l; [|done]. cbv iota. malloc_step b m1 Hb Hm1 Hb1 Hw1.
    wp_step. apply (wp_put' _ [] b [123]); try done; [by rewrite Hm1, lookup_insert_eq|simpl; lia|].
    intros t2 m2 Hl2 Hm2 Hb2 Hw2. simpl in Hl2, Hm2. rewrite Hm1 in Hm2. wp_steps.
    apply (wp_put' _ [123] t2 [125; 0]); try done; [by rewrite Hm2, lookup_insert_eq|simpl; lia|].
    intros t3 m3 Hl3 Hm3 Hb3 Hw3. rewrite Hm2, insert_insert_eq in Hm3. wp_step. split; [done|].
    eapply (printed_block _ _ _ t3); [done|exact Hm3|congruence|done]. }
  unfold malloc_ptrs. malloc_step b1 m1 Hl1 Hm1 Hb1 Hw1.
  wp_step. apply wp_malloc_as; [done| |].
  { intros m2 Hm2 Hb2 Hw2 Hr2. rewrite decide_True by done. wp_step.
    apply wp_free; [rewrite Hm2, Hm1, lookup_insert_eq; by eexists|done|]. intros Hw3. wp_step.
    split; [done|]. apply printed_none; [simpl|simpl; lia|done|done].
    by rewrite Hm2, Hm1, delete_insert_id. }
  intros b2 m2 Hl2 Hm2 Hb2 Hw2 Hne2 Hfr2. rewrite decide_False by done. cbv zeta.
  set (entries := brk m) in *. set (names := brk m1) in *.
  assert (Htmp : tmp (blocks m) (blocks m2) [names; entries] []).
  { rewrite Hm2. apply tmp_new; [done|]. rewrite Hm1. apply tmp_new; [done|]. apply tmp_start. }
  assert (Hlne : l <> []) by (intros ->; done).
  assert (Htot : 7 + total l < 1073741010).
  { pose proof (comma_length l Hlne) as Hc. cbn [text] in Hlen.
    change (map (fun p0 => quote p0.1 ++ [58] ++ text p0.2) l) with (map entry l) in Hlen.
    rewrite !length_app in Hlen. simpl in Hlen. lia. }
  wp_step. eapply wp_mono.
  { apply (Hcol (blocks m) Hag f f names entries [] [] (depth + 1) (7 + 0) false [] m2 t);
      [lia|lia|exact Htmp|exact Hw2| | |done|lia|lia].
    - by rewrite Hm2, lookup_insert_eq.
    - rewrite Hm2, lookup_insert_ne, Hm1, lookup_insert_eq; [done|]. unfold names, entries. lia. }
  intros r m3 t3 (-> & W & HW & Ht3 & Hw3 & Hb3 & Hn3 & He3 & Hr2 & Hr1 & Href).
  rewrite app_nil_r in Ht3. wp_step. rewrite Hr2.
  destruct (decide (all_printed W)) as [Hall|Hnot].
  - rewrite (Hr1 Hall). apply wp_malloc_as; [done| |].
    + intros m4 Hm4 Hb4 Hw4 Hr4. rewrite decide_True by done.
      apply (wp_object_failed _ m names entries l W); rewrite ?Hm4; try done; lia.
    + intros b4 m4 Hl4 Hm4 Hb4 Hw4 Hne4 Hfr4. rewrite decide_False by done.
      eapply wp_object_composed; rewrite ?Hm4; try done; try lia.
      * by eapply chain_at_ok.
      * by apply tmp_new.
      * by rewrite lookup_insert_eq.
      * rewrite lookup_insert_ne; [done|]. intros E. rewrite E in Hfr4. congruence.
      * rewrite lookup_insert_ne; [done|]. intros E. rewrite E in Hfr4. congruence.
      * pose proof (total_nonneg l). rewrite Hl4, Z2Nat.id; lia.
  - destruct Href as [?|Href]; [done|]. wp_step. rewrite decide_True by done.
    apply (wp_object_failed _ m names entries l W); try done; lia.
Qed.

(** ** Arrays *)

Lemma wp_count_elems h p l fp : elems_at h p l fp -> forall fuel m t,
  (forall a, a ∈ fp -> blocks m !! a = h !! a) -> (length l < fuel)%nat ->
  wp (count_entries fuel p) (fun n m' t' => n = length l /\ m' = m /\ t' = t) m t.
Proof.
  induction 1 as [|p c j l fp1 fp2 Hp Hc Hs Hv Hl IH]; intros [|fuel] m t Hag Hf; simpl in *; try lia.
  - by wp_step.
  - rewrite decide_False by done. wp_step. eapply wp_get_node; [rewrite Hag; [done|set_solver]|].
    wp_step. eapply wp_mono; [apply IH; [set_solver|lia]|].
    intros n m' t' (-> & -> & ->). by wp_step.
Qed.

Lemma wp_free_array l : forall W entries pe h0 (Q : () -> mem -> trace -> Prop) m t,
  length W = length l -> tmp h0 (blocks m) [entries] (alive l W) -> wf m ->
  blocks m !! entries = Some (BPtrs (pe ++ W)) ->
  (forall m', tmp h0 (blocks m') [entries] [] -> wf m' -> brk m' = brk m -> Q () m' t) ->
  wp (free_array entries (Z.of_nat (length pe)) (length l)) Q m t.
Proof.
  induction l as [|j l IH]; intros [|e W] entries pe h0 Q m t HW Ht Hm He HQ; try done; simpl in *.
  - wp_step. auto.
  - wp_step. eapply wp_get_ptr; [done|by apply aget_mid|]. wp_step.
    eapply wp_free_opt; [done|done|]. intros m1 Ht1 Hm1 Hbk1 Hk1.
    apply Hk1 in He; [|by apply list_elem_of_singleton].
    replace (Z.of_nat (length pe) + 1) with (Z.of_nat (length (pe ++ [e]))) by (rewrite length_app; simpl; lia).
    eapply (IH W entries (pe ++ [e])); try done; [lia|by rewrite <- (assoc_L app)|].
    intros m' Ht' Hw' Hb'. apply HQ; [done|done|congruence].
Qed.

Lemma wp_compose_array l : forall W out entries pe w tail h0 (Q : Z -> mem -> trace -> Prop) m t,
  length W = length l -> aprinted W -> Forall (fun j => is_json_text (text j)) l ->
  tmp h0 (blocks m) [out; entries] (alive l W) -> wf m ->
  blocks m !! out = Some (BChars (w ++ tail)) -> blocks m !! entries = Some (BPtrs (pe ++ W)) ->
  (length (comma (map text l)) + 1 <= length tail)%nat ->
  (forall m' tail', (length tail' + length (comma (map text l)) = length tail)%nat ->
    tmp h0 (blocks m') [out; entries] [] -> wf m' -> brk m' = brk m ->
    blocks m' !! out = Some (BChars ((w ++ comma (map text l)) ++ tail')) ->
    Q (Z.of_nat (length (w ++ comma (map text l)))) m' t) ->
  wp (compose_array out entries (Z.of_nat (length pe)) (Z.of_nat (length w)) false (length l)) Q m t.
Proof.
  induction l as [|j l IH]; intros [|e W] out entries pe w tail h0 Q m t HW Hall Hok Ht Hm Hout He Htl HQ; try done.
  - simpl in *. wp_step. rewrite app_nil_r in HQ. apply (HQ m tail); try done; lia.
  - apply Forall_cons in Hall as [He0 Hall]. apply Forall_cons in Hok as [Hj0 Hok].
    rewrite comma_text_cons in Htl, HQ. rewrite !length_app in Htl.
    assert (HoK : out ∈ [out; entries]) by set_solver. assert (HeK : entries ∈ [out; entries]) by set_solver.
    assert (Hoe : out <> entries).
    { pose proof (t_nodup _ _ _ _ Ht) as Hd. simpl in Hd. apply NoDup_cons in Hd as [Hd _].
      rewrite not_elem_of_cons in Hd. tauto. }
    pose proof Ht as Ht0. cbn [alive] in Ht, Ht0. unfold nz in Ht0. rewrite decide_False in Ht0 by done. simpl in Ht0.
    pose proof (t_strs _ _ _ _ Ht0) as Hs. rewrite Forall_cons in Hs. destruct Hs as ([je Hea] & _).
    cbn [fst snd] in Hea. cbn [length compose_array].
    wp_step. eapply wp_get_ptr; [done|by apply aget_mid|].
    wp_step. eapply wp_get_str; [exact Hea|exact Hj0|].
    wp_step. eapply wp_put'; [done|done|lia|done|]. intros t1 m1 Hl1 Hm1 Hb1 Hw1. cbv zeta.
    set (sep := match l with [] => [] | _ => [44] end) in *.
    wp_step. apply (wp_mono _ (fun q m2 t2 => t2 = t /\ q = Z.of_nat (length ((w ++ text j) ++ sep)) /\
      wf m2 /\ brk m2 = brk m /\ exists tail2, (length tail2 + length (text j) + length sep = length tail)%nat /\
        blocks m2 = <[out := BChars (((w ++ text j) ++ sep) ++ tail2)]> (blocks m))).
    { destruct l as [|j2 l]; cbn [length].
      - wp_step. unfold sep. rewrite app_nil_r, length_app. split_and!; try done; [lia|].
        exists t1. split; [simpl; lia|]. done.
      - wp_step. apply (wp_put out (w ++ text j) t1 [44] [0]);
          [by rewrite Hm1, lookup_insert_eq|rewrite length_app; lia|unfold sep in Htl; simpl in *; lia|done|].
        intros t2 m2 Hl2 Hm2 Hb2 Hw2. wp_step. rewrite Hm1, insert_insert_eq in Hm2. unfold sep.
        split_and!; try done; [rewrite !length_app; simpl; lia|congruence|]. exists t2. split; [simpl in *; lia|done]. }
    intros q m2 t2 (-> & -> & Hw2 & Hb2 & tail2 & Hl2 & Hm2).
    assert (Ht2 : tmp h0 (blocks m2) [out; entries] (nz e (text j) ++ alive l W)) by (rewrite Hm2; by apply tmp_upd).
    wp_step. eapply wp_free_str; [done|exact Ht2|done|]. intros m3 Ht3 Hw3 Hb3 Hk3.
    replace (Z.of_nat (length pe) + 1) with (Z.of_nat (length (pe ++ [e]))) by (rewrite length_app; simpl; lia).
    eapply (IH W out entries (pe ++ [e]) ((w ++ text j) ++ sep) tail2); try done.
    + simpl in HW. lia.
    + apply Hk3; [done|]. by rewrite Hm2, lookup_insert_eq.
    + rewrite <- (assoc_L app). apply Hk3; [done|]. by rewrite Hm2, lookup_insert_ne.
    + lia.
    + intros m' tail' Hl' Ht' Hw' Hb' Ho'. rewrite <- !(assoc_L app) in Ho'. rewrite <- !(assoc_L app).
      apply (HQ m' tail'); try done; [rewrite !length_app; lia|congruence|by rewrite <- !(assoc_L app)].
Qed.

(** The statement for a chain without names: the loop prints until it fails. *)
Definition acollects (h : gmap Z block) (p : addr) (l : list json) (fp : list Z) : Prop :=
  forall h0, (forall a, a ∈ fp -> h0 !! a = h !! a) ->
  forall f fuel entries pe depth len T m t,
  (asize l <= f)%nat -> (length l < fuel)%nat ->
  tmp h0 (blocks m) [entries] T -> wf m ->
  blocks m !! entries = Some (BPtrs (pe ++ replicate (length l) 0)) ->
  5 <= len -> len + atotal l < 2147483640 -> short_texts l ->
  wp (collect_array (print_value f) fuel entries p (Z.of_nat (length pe)) depth false len)
    (fun r m' t' => t' = t /\ exists W, length W = length l /\
      tmp h0 (blocks m') [entries] (alive l W ++ T) /\ wf m' /\ brk m <= brk m' /\
      blocks m' !! entries = Some (BPtrs (pe ++ W)) /\
      r.2 = (if decide (aprinted W) then false else true) /\
      (aprinted W -> r.1 = len + atotal l) /\ (aprinted W \/ refused)) m t.

Lemma acollects_nil h : acollects h 0 [] [].
Proof.
  intros h0 Hag f [|fuel] entries pe depth len T m t Hf Hfu Ht Hm Hea H0 Htot _; simpl in *; [lia|].
  wp_step. split; [done|]. exists []. simpl. unfold atotal. simpl. split_and!; try done; try lia. left. constructor.
Qed.

Lemma acollects_cons h p c j l fp1 fp2 :
  p <> 0 -> h !! p = Some (BNode c) -> value_at h c j fp1 -> prints h c j fp1 -> acollects h (next c) l fp2 ->
  acollects h p (j :: l) (p :: fp1 ++ fp2).
Proof.
  intros Hp Hc Hv Hpr Hcol h0 Hag f [|fuel] entries pe depth len T m t Hf Hfu Ht Hm Hea H0 Htot Hsh; simpl in *; [lia|].
  apply Forall_cons in Hsh as [Hsj Hsh]. rewrite atotal_cons in *. rewrite <- Hag in Hc by set_solver. pose proof (atotal_nonneg l) as Htl.
  assert (Hv0 : value_at h0 c j fp1) by (eapply value_at_agree; [done|set_solver]).
  rewrite decide_False by done. wp_step. eapply wp_mono.
  { apply Hpr; [done| | |lia|lia].
    - intros a Ha. rewrite (tmp_agree _ _ _ _ _ Ht); [set_solver|by eapply value_at_dom].
    - rewrite (tmp_agree _ _ _ _ _ Ht); [done|by eexists]. }
  intros e m1 t1 [-> Hp1]. pose proof (tmp_printed _ _ _ _ _ _ _ Hp1 Ht) as Ht1.
  apply (printed_other _ _ _ _ _ _ Hp1) in Hea as Hea1. pose proof Hp1 as (Hb1 & Hw1 & Hor).
  wp_step. eapply wp_put_ptr; [done|by apply aset_mid|done|]. intros m2 Hm2 Hb2 Hw2.
  assert (Ht2 : tmp h0 (blocks m2) [entries] (nz e (text j) ++ T)).
  { rewrite Hm2. apply tmp_upd; [by apply list_elem_of_singleton|done]. }
  assert (Hea2 : blocks m2 !! entries = Some (BPtrs ((pe ++ [e]) ++ replicate (length l) 0))).
  { rewrite Hm2, lookup_insert_eq. by rewrite <- (assoc_L app). }
  wp_if as [->|He0].
  - wp_step. split; [done|]. exists (0 :: replicate (length l) 0). cbn [alive]. rewrite alive_none.
    rewrite <- (assoc_L app) in Hea2. destruct Hor as [(_ & Href & _)|[? _]]; [|done].
    assert (Hnp : ~ aprinted (0 :: replicate (length l) 0)) by by intros [? _]%Forall_cons.
    split_and!; try done; try (by right); [simpl; by rewrite length_replicate|lia].
  - pose proof (t_strs _ _ _ _ Ht2) as Hs. unfold nz in Hs. rewrite decide_False in Hs by done. simpl in Hs.
    apply Forall_cons in Hs as [[je Hje] _]. cbn [fst snd] in Hje.
    wp_step. eapply wp_get_str; [exact Hje|by eapply value_at_text|].
    wp_step. eapply wp_get_node; [rewrite (tmp_agree _ _ _ _ _ Ht2); [done|by eexists]|].
    replace (Z.of_nat (length pe) + 1) with (Z.of_nat (length (pe ++ [e]))) by (rewrite length_app; simpl; lia).
    rewrite s32_id by lia. eapply wp_mono.
    { eapply (Hcol h0 ltac:(set_solver) f fuel entries (pe ++ [e])); try done; lia. }
    intros r' m' t' (-> & W & HW & HtW & HwW & HbW & HeW & Hr2 & Hr1 & Href). split; [done|].
    exists (e :: W). rewrite <- (assoc_L app) in HeW. split_and!; try done; [simpl; lia| |lia| | |].
    + cbn [alive]. eapply tmp_perm; [|exact HtW]. solve_Permutation.
    + rewrite Hr2. unfold aprinted. rewrite (decide_ext _ _ _ _ (Forall_cons _ e W)). repeat case_decide; tauto.
    + intros [_ Hall]%Forall_cons. rewrite (Hr1 Hall). lia.
    + destruct Href as [Hall|?]; [|by right]. left. by constructor.
Qed.

Lemma wp_array_failed s m0 entries l W m t :
  length W = length l -> tmp (blocks m0) (blocks m) [entries] (alive l W) -> wf m ->
  brk m0 <= brk m -> refused -> blocks m !! entries = Some (BPtrs W) ->
  wp (free_array entries 0 (length l);; cJSON_free entries;; mret 0)
    (fun out m' t' => t' = t /\ printed s m0 out m') m t.
Proof.
  intros HW Ht Hw Hb Href He. wp_step. apply (wp_free_array l W entries [] (blocks m0)); try done.
  intros m1 Ht1 Hw1 Hb1. wp_step. pose proof (t_live _ _ _ _ Ht1) as Hl. rewrite Forall_singleton in Hl.
  apply wp_free; [done|done|]. intros Hw2. apply tmp_del in Ht1. wp_step.
  split; [done|]. apply printed_none; [by apply tmp_done| |done|done]. simpl. lia.
Qed.

Lemma wp_array_composed m0 out entries l W tail m t :
  length W = length l -> aprinted W -> Forall (fun j => is_json_text (text j)) l ->
  tmp (blocks m0) (blocks m) [out; entries] (alive l W) -> wf m -> brk m0 <= brk m -> out <> 0 ->
  blocks m !! out = Some (BChars tail) -> blocks m !! entries = Some (BPtrs W) ->
  Z.of_nat (length tail) = 5 + atotal l ->
  wp (put_bytes out 0 [91; 0];; ptr ← compose_array out entries 0 1 false (length l);
      cJSON_free entries;; put_bytes out ptr [93; 0];; mret out)
    (fun out m' t' => t' = t /\ printed (text (JArr l)) m0 out m') m t.
Proof.
  intros HW Hall Hok Ht Hw Hb Ho0 Hout He Hlen. pose proof (acomma_length l) as Hcl. pose proof (atotal_nonneg l).
  assert (Hoe : out <> entries).
  { pose proof (t_nodup _ _ _ _ Ht) as Hd. simpl in Hd. rewrite !NoDup_cons, !not_elem_of_cons in Hd. tauto. }
  change [91; 0] with ([91] ++ [0]). wp_step. apply (wp_put out [] tail [91] [0]); try done; [simpl; lia|].
  intros t1 m1 Hl1 Hm1 Hb1 Hw1. simpl in Hl1.
  wp_step. apply (wp_compose_array l W out entries [] [91] t1 (blocks m0)); try done.
  - rewrite Hm1. apply tmp_upd; [set_solver|done].
  - by rewrite Hm1, lookup_insert_eq.
  - by rewrite Hm1, lookup_insert_ne.
  - lia.
  - intros m2 t2 Hl2 Ht2 Hw2 Hb2 Ho2.
    apply (tmp_perm_blocks _ _ _ [entries; out]) in Ht2; [|solve_Permutation].
    pose proof (t_live _ _ _ _ Ht2) as Hlive. rewrite Forall_cons in Hlive. destruct Hlive as (He2 & _).
    wp_step. apply wp_free; [done|done|]. intros Hw3. apply tmp_del in Ht2. wp_step.
    eapply wp_put'; [cbn [blocks]; rewrite !lookup_delete_ne by done; exact Ho2|done|simpl; lia|done|].
    intros t5 m5 Hl5 Hm5 Hb5 Hw5. wp_step. split; [done|].
    split; [simpl in Hb5; lia|]. split; [done|]. right. split; [done|].
    assert (Ht5 : tmp (blocks m0) (blocks m5) [out] []).
    { rewrite Hm5. apply tmp_upd; [by apply list_elem_of_singleton|done]. }
    assert (Ho5 : blocks m5 !! out = Some (BChars (text (JArr l) ++ 0 :: t5))).
    { rewrite Hm5, lookup_insert_eq. cbn [text]. by rewrite <- !(assoc_L app). }
    destruct (tmp_one _ _ _ _ Ht5 Ho5) as [-> Hfr]. split; [done|]. by exists t5.
Qed.

Lemma elems_at_ok h p l fp : elems_at h p l fp -> Forall (fun j => is_json_text (text j)) l.
Proof. induction 1; constructor; [by eapply value_at_text|done]. Qed.

Lemma prints_array h c l fp :
  elems_at h (child c) l fp -> acollects h (child c) l fp -> type c = cJSON_Array -> prints h c (JArr l) fp.
Proof.
  intros Hch Hcol Hty [|f] p depth m t Hm Hag Hp Hf Hlen; [simpl in Hf; lia|].
  assert (Hp0 : p <> 0). { intros ->. destruct Hm as [_ H]. specialize (H 0 ltac:(by eexists)). lia. }
  cbn [print_value]. rewrite decide_False by done. wp_step. eapply wp_get_node; [done|].
  rewrite Hty. cbv zeta. simpl Z.land. repeat (rewrite decide_False by done). rewrite decide_True by done.
  unfold print_array, cJSON_malloc. wp_step. eapply wp_get_node; [done|].
  assert (Hls : (asize l < f)%nat) by (simpl in Hf; unfold asize; lia). pose proof (asize_length l) as Hll.
  wp_step. eapply wp_mono; [eapply wp_count_elems; [done|done|lia]|].
  intros k m' t' (-> & -> & ->). wp_if as [Hnil|Hnil].
  { destruct l; [|done]. malloc_step b m1 Hb Hm1 Hb1 Hw1.
    wp_step. apply (wp_put' _ [] b (bs "[]" ++ [0])); try done; [by rewrite Hm1, lookup_insert_eq|simpl; lia|].
    intros t2 m2 Hl2 Hm2 Hb2 Hw2. rewrite Hm1 in Hm2. wp_step. split; [done|].
    eapply (printed_block _ _ _ t2); [done|exact Hm2|congruence|done]. }
  unfold malloc_ptrs. malloc_step b1 m1 Hl1 Hm1 Hb1 Hw1. set (entries := brk m) in *.
  assert (Htmp : tmp (blocks m) (blocks m1) [entries] []).
  { rewrite Hm1. apply tmp_new; [by apply wf_fresh|]. apply tmp_start. }
  assert (Htot : 5 + atotal l < 2147483640) by (pose proof (acomma_total l); cbn [text] in Hlen; rewrite !length_app in Hlen; lia).
  assert (Hsh : short_texts l) by (apply acomma_short; cbn [text] in Hlen; rewrite !length_app in Hlen; lia).
  wp_step. eapply wp_mono.
  { apply (Hcol (blocks m) Hag f f entries [] depth 5 [] m1 t); [lia|lia|exact Htmp|exact Hw1| |lia|lia|exact Hsh].
    by rewrite Hm1, lookup_insert_eq. }
  intros r m3 t3 (-> & W & HW & Ht3 & Hw3 & Hb3 & He3 & Hr2 & Hr1 & Href).
  rewrite app_nil_r in Ht3. wp_step. rewrite Hr2.
  destruct (decide (aprinted W)) as [Hall|Hnot].
  - rewrite (Hr1 Hall). apply wp_malloc_as; [done| |].
    + intros m4 Hm4 Hb4 Hw4 Hr4. rewrite decide_True by done.
      apply (wp_array_failed _ m entries l W); rewrite ?Hm4; try done; lia.
    + intros b4 m4 Hl4 Hm4 Hb4 Hw4 Hne4 Hfr4. rewrite decide_False by done.
      eapply wp_array_composed; rewrite ?Hm4; try done; try lia.
      * by eapply elems_at_ok.
      * by apply tmp_new.
      * by rewrite lookup_insert_eq.
      * rewrite lookup_insert_ne; [done|]. intros E. rewrite E in Hfr4. congruence.
      * pose proof (atotal_nonneg l). rewrite Hl4, Z2Nat.id; lia.
  - destruct Href as [?|Href]; [done|]. wp_step. rewrite decide_True by done.
    apply (wp_array_failed _ m entries l W); try done; lia.
Qed.

Lemma prints_atom h c j fp :
  value_at h c j fp -> (forall l, j <> JArr l) -> (forall l, j <> JObj l) -> prints h c j fp.
Proof.
  intros Hv Hna Hno [|f] p depth m t Hm Hag Hp Hf Hlen; [pose proof (jsize_pos j); lia|].
  assert (Hp0 : p <> 0). { intros ->. destruct Hm as [_ H]. specialize (H 0 ltac:(by eexists)). lia. }
  cbn [print_value]. rewrite decide_False by done. wp_step. eapply wp_get_node; [done|]. cbv zeta.
  destruct Hv as [c Hty _ _|c Hty _ _|c Hty _ _|c z Hty _ _ Hz|c s junk Hty _ _ Hs Hb Hn|c l fp Hty _ _|c l fp Hty _ _];
    rewrite Hty; simpl Z.land; repeat (rewrite decide_False by done); rewrite ?decide_True by done;
    try by apply wp_strdup.
  - by eapply wp_print_number.
  - eapply wp_print_string; try done. rewrite Hag; [done|by apply list_elem_of_singleton].
  - by destruct (Hna l).
  - by destruct (Hno l).
Qed.

Lemma value_at_prints h c j fp : value_at h c j fp -> prints h c j fp.
Proof.
  intros H. induction H using value_at_mut with
    (P0 := fun p l fp (_ : elems_at h p l fp) => acollects h p l fp)
    (P1 := fun p l fp (_ : chain_at h p l fp) => collects h p l fp).
  1-5: apply prints_atom; [by econstructor|done|done].
  - by apply prints_array.
  - by apply prints_object.
  - apply acollects_nil.
  - by eapply acollects_cons.
  - apply collects_nil.
  - by eapply collects_cons.
Qed.
End print_tree.

(** C14: the unformatted printer, on every allocator: applied to a tree in the
    store it returns, and gives either a new block with the JSON text of the
    tree, or null when a request was refused; in both cases every other block of
    the store, the tree included, is as before: no temporary is left behind. *)
Theorem print_unformatted_correct `{A : Allocator} `{P : FloatPrint} fuel m t p c j fp :
  wf m -> blocks m !! p = Some (BNode c) -> value_at (blocks m) c j fp ->
  (jsize j <= fuel)%nat -> Z.of_nat (length (text j)) < 1073741000 ->
  wp (cJSON_PrintUnformatted fuel p) (fun out m' t' => t' = t /\
    ((out = 0 /\ refused /\ blocks m' = blocks m) \/
     (out <> 0 /\ blocks m !! out = None /\
      exists junk, blocks m' = <[out := BChars (text j ++ 0 :: junk)]> (blocks m)))) m t.
Proof.
  intros Hm Hp Hv Hf Hl. eapply wp_mono; [by eapply (value_at_prints (blocks m))|].
  intros out m' t' [-> (_ & _ & H)]. done.
Qed.

