(* ===== verification/CjsonDelete.v ===== *)
(** * Deleting a JSON tree

    [cJSON_Delete] of cJSON.c frees the blocks of a tree, each once, and no other. *)

From Stdlib Require Import SpecFloat.
From S2P Require Import Prelude CString Double Env Cjson CjsonPrint.

(** ** Deleting a tree *)

(** The blocks [fp] are gone, nothing else changed. *)
Definition erased (fp : list Z) (m m' : mem) : Prop :=
  wf m' /\ brk m' = brk m /\
  forall a, blocks m' !! a = if decide (a ∈ fp) then None else blocks m !! a.

Lemma erased_nil m : wf m -> erased [] m m.
Proof. intros Hm. split; [done|]. split; [done|]. intros a. by rewrite decide_False by apply not_elem_of_nil. Qed.

Lemma erased_trans fp1 fp2 m1 m2 m3 :
  erased fp1 m1 m2 -> erased fp2 m2 m3 -> erased (fp1 ++ fp2) m1 m3.
Proof.
  intros (_ & B1 & E1) (W2 & B2 & E2). split; [done|]. split; [congruence|].
  intros a. rewrite E2, E1. destruct (decide (a ∈ fp1)), (decide (a ∈ fp2)), (decide (a ∈ fp1 ++ fp2)) as [H|H];
    try done; rewrite elem_of_app in H; tauto.
Qed.

Lemma erased_perm fp fp' m m' : fp ≡ₚ fp' -> erased fp m m' -> erased fp' m m'.
Proof.
  intros Hp (W & B & E). split; [done|]. split; [done|]. intros a. rewrite E.
  destruct (decide (a ∈ fp)), (decide (a ∈ fp')) as [H|H]; try done; rewrite <- Hp in H; done.
Qed.

(** What is outside the erased blocks keeps its contents. *)
Lemma erased_agree fp m m' (h : gmap Z block) (fp2 : list Z) : erased fp m m' -> (forall a, a ∈ fp2 -> blocks m !! a = h !! a) ->
  (forall a, a ∈ fp2 -> a ∉ fp) -> forall a, a ∈ fp2 -> blocks m' !! a = h !! a.
Proof. intros (_ & _ & E) Hag Hd a Ha. rewrite E, decide_False by auto. auto. Qed.

Section delete_tree.
Context `{A : Allocator} `{P : FloatPrint}.

Lemma wp_free_erased p (Q : () -> mem -> trace -> Prop) m t :
  is_Some (blocks m !! p) -> wf m -> (forall m', erased [p] m m' -> Q () m' t) ->
  wp (cJSON_free p) Q m t.
Proof.
  intros Hp Hm HQ. apply wp_free; [done|done|]. intros Hw. apply HQ. split; [done|]. split; [done|].
  intros a. simpl. destruct (decide (a ∈ [p])) as [Ha|Ha].
  - apply list_elem_of_singleton in Ha as ->. apply lookup_delete_eq.
  - rewrite lookup_delete_ne; [done|]. rewrite list_elem_of_singleton in Ha. congruence.
Qed.

(** A string a node owns, or none. *)
Definition own_str (h : gmap Z block) (a : addr) (fp : list Z) : Prop :=
  if decide (a = 0) then fp = [] else fp = [a] /\ is_Some (h !! a).

Lemma own_str_agree h h' a fp : own_str h a fp -> (forall x, x ∈ fp -> h' !! x = h !! x) -> own_str h' a fp.
Proof.
  unfold own_str. case_decide; [done|]. intros [-> Ha] Hag. split; [done|]. rewrite Hag; [done|by apply list_elem_of_singleton].
Qed.

Lemma own_str_none h : own_str h 0 [].
Proof. done. Qed.

Lemma own_str_some h a b : a <> 0 -> h !! a = Some b -> own_str h a [a].
Proof. intros Ha Hb. unfold own_str. rewrite decide_False by done. split; [done|by eexists]. Qed.

(** A chain of nodes that own their children, texts and names, complete or not: what
    [cJSON_Delete] takes.  [fp] are its blocks. *)
Inductive forest (h : gmap Z block) : addr -> list Z -> Prop :=
| forest_nil : forest h 0 []
| forest_cons p c fs fc fv fn :
    p <> 0 -> h !! p = Some (BNode c) ->
    Z.land (type c) cJSON_IsReference = 0 -> Z.land (type c) cJSON_StringIsConst = 0 ->
    own_str h (string_ c) fs -> forest h (child c) fc -> own_str h (valuestring c) fv -> forest h (next c) fn ->
    forest h p (p :: fs ++ fc ++ fv ++ fn).

Lemma forest_agree h p fp : forest h p fp -> forall h', (forall a, a ∈ fp -> h' !! a = h !! a) -> forest h' p fp.
Proof.
  induction 1 as [|p c fs fc fv fn Hp Hc Ht1 Ht2 Hs Hfc IHc Hv Hfn IHn]; intros h' Hag; [constructor|].
  apply (forest_cons _ _ c); try done.
  - rewrite Hag; [done|set_solver].
  - eapply own_str_agree; [done|set_solver].
  - apply IHc. set_solver.
  - eapply own_str_agree; [done|set_solver].
  - apply IHn. set_solver.
Qed.

Lemma wp_free_own h a fp (cond : Prop) `{Decision cond} (Q : () -> mem -> trace -> Prop) m t :
  own_str h a fp -> (cond <-> a <> 0) -> wf m -> (forall x, x ∈ fp -> blocks m !! x = h !! x) ->
  (forall m', erased fp m m' -> Q () m' t) ->
  wp (if decide cond then cJSON_free a else mret ()) Q m t.
Proof.
  intros Ho Hc Hm Hag HQ. unfold own_str in Ho. wp_if as [Hcd|Hcd].
  - rewrite decide_False in Ho by tauto. destruct Ho as [-> Ha].
    apply wp_free_erased; [rewrite Hag; [done|by apply list_elem_of_singleton]|done|done].
  - rewrite decide_True in Ho by (destruct (decide (a = 0)); tauto). subst. wp_step. apply HQ. by apply erased_nil.
Qed.

Lemma wp_delete_forest h p fp : forest h p fp -> forall fuel m t, wf m -> (forall a, a ∈ fp -> blocks m !! a = h !! a) ->
  NoDup fp -> (length fp < fuel)%nat ->
  wp (cJSON_Delete fuel p) (fun _ m' t' => t' = t /\ erased fp m m') m t.
Proof.
  induction 1 as [|p c fs fc fv fn Hp Hc Ht1 Ht2 Hs Hfc IHc Hv Hfn IHn]; intros [|fuel] m t Hm Hag Hnd Hf;
    simpl in Hf; try lia; cbn [cJSON_Delete].
  { rewrite decide_True by done. wp_step. split; [done|]. by apply erased_nil. }
  rewrite !length_app in Hf. rewrite decide_False by done.
  apply NoDup_cons in Hnd as [Hnp Hnd]. apply NoDup_app in Hnd as (Hnds & Hds & Hnd).
  apply NoDup_app in Hnd as (Hndc & Hdc & Hnd). apply NoDup_app in Hnd as (Hndv & Hdv & Hndn).
  rewrite !not_elem_of_app in Hnp. wp_step. eapply wp_get_node; [rewrite Hag; [done|set_solver]|].
  wp_step. apply (wp_mono _ (fun _ m' t' => t' = t /\ erased fc m m')).
  { wp_if as [_|Hno].
    - apply IHc; [done|set_solver|done|lia].
    - wp_step. split; [done|]. destruct Hfc; [by apply erased_nil|]. by destruct Hno. }
  intros _ m1 t1 [-> He1]. pose proof He1 as (Hw1 & _ & E1).
  wp_step. apply (wp_free_own h _ fv); [done|tauto|done| |].
  { eapply erased_agree; [exact He1|set_solver|set_solver]. }
  intros m2 He2. pose proof (erased_trans _ _ _ _ _ He1 He2) as He12. pose proof He2 as (Hw2 & _ & _).
  wp_step. apply (wp_free_own h _ fs); [done|tauto|done| |].
  { eapply erased_agree; [exact He12|set_solver|set_solver]. }
  intros m3 He3. pose proof (erased_trans _ _ _ _ _ He12 He3) as He13. pose proof He3 as (Hw3 & _ & _).
  wp_step. apply wp_free_erased; [|done|].
  { destruct He13 as (_ & _ & E). rewrite E, decide_False by set_solver. rewrite Hag; [by eexists|set_solver]. }
  intros m4 He4. pose proof (erased_trans _ _ _ _ _ He13 He4) as He14. pose proof He4 as (Hw4 & _ & _).
  eapply wp_mono.
  { apply IHn; [done| |done|lia]. eapply erased_agree; [exact He14|set_solver|set_solver]. }
  intros _ m5 t5 [-> He5]. split; [done|].
  eapply erased_perm; [|exact (erased_trans _ _ _ _ _ He14 He5)]. solve_Permutation.
Qed.

(** ** A tree of values is such a chain *)

(** What the node of a value owns. *)
Definition owns (h : gmap Z block) (c : cJSON) (fp : list Z) : Prop :=
  Z.land (type c) cJSON_IsReference = 0 /\ Z.land (type c) cJSON_StringIsConst = 0 /\
  exists fc fv, fp = fc ++ fv /\ forest h (child c) fc /\ own_str h (valuestring c) fv.

Lemma value_at_owns h c j fp : value_at h c j fp -> owns h c fp.
Proof.
  intros H. induction H using value_at_mut with
    (P0 := fun p l fp (_ : elems_at h p l fp) => forest h p fp)
    (P1 := fun p l fp (_ : chain_at h p l fp) => forest h p fp).
  1-4: rename select (type _ = _) into Hty; rename select (child _ = 0) into Hch; rename select (valuestring _ = 0) into Hvs;
    unfold owns; rewrite Hty, Hch, Hvs; split_and!; [done|done|]; exists [], []; split_and!; [done|constructor|done].
  - unfold owns. rewrite e, e0. split_and!; [done|done|]. exists [], [valuestring c].
    split_and!; [done|constructor|]. by eapply own_str_some.
  - unfold owns. rewrite e, e0. split_and!; [done|done|]. exists fp, []. rewrite app_nil_r. done.
  - unfold owns. rewrite e, e0. split_and!; [done|done|]. exists fp, []. rewrite app_nil_r. done.
  - constructor.
  - destruct IHvalue_at as (? & ? & fc & fv & -> & Hfc & Hfv). rewrite <- (assoc_L app).
    apply (forest_cons _ _ c []); try done. rewrite e0. done.
  - constructor.
  - destruct IHvalue_at as (? & ? & fc & fv & -> & Hfc & Hfv). rewrite <- (assoc_L app).
    apply (forest_cons _ _ c [string_ c]); try done. by eapply own_str_some.
Qed.
End delete_tree.

(** A root: a node of its own, with no name. *)
Definition item_at (h : gmap Z block) (p : addr) (j : json) (fp : list Z) : Prop :=
  exists c, h !! p = Some (BNode c) /\ next c = 0 /\ string_ c = 0 /\ value_at h c j fp.

Lemma wp_delete_tree `{A : Allocator} `{P : FloatPrint} fuel m t p j fp :
  wf m -> item_at (blocks m) p j fp -> NoDup (p :: fp) -> (length fp + 1 < fuel)%nat ->
  wp (cJSON_Delete fuel p) (fun _ m' t' => t' = t /\ erased (p :: fp) m m') m t.
Proof.
  intros Hm (c & Hc & Hn & Hs & Hv) Hnd Hf.
  assert (Hp0 : p <> 0). { intros ->. destruct Hm as [_ H]. specialize (H 0 ltac:(by eexists)). lia. }
  destruct (value_at_owns _ _ _ _ Hv) as (? & ? & fc & fv & -> & Hfc & Hfv).
  eapply wp_delete_forest; [|done|done|done|simpl; lia].
  replace (p :: fc ++ fv) with (p :: [] ++ fc ++ fv ++ []) by by rewrite app_nil_r.
  apply (forest_cons _ _ c []); try done; [by rewrite Hs|rewrite Hn; constructor].
Qed.

(** C17: deleting a tree frees every block of it, once, and no other: it returns,
    no block is freed twice, and the rest of the store is as before. *)
Theorem delete_frees_tree `{A : Allocator} `{P : FloatPrint} fuel m t p j fp :
  wf m -> item_at (blocks m) p j fp -> NoDup (p :: fp) -> (length fp + 1 < fuel)%nat ->
  wp (cJSON_Delete fuel p) (fun _ m' t' => t' = t /\ erased (p :: fp) m m') m t.
Proof. apply wp_delete_tree. Qed.

(** An allocator that refuses nothing. *)
Class Generous (A : Allocator) := { grants n sz : is_Some (fresh n sz) }.

(** ** Witnesses *)

(** An allocator with unlimited memory, full of old bytes. *)
Lemma ample_length (n sz : Z) l : Some (replicate (Z.to_nat sz) 0xAA) = Some l -> length l = Z.to_nat sz.
Proof. intros [= <-]. apply length_replicate. Qed.

Definition ample : Allocator :=
  {| fresh n sz := Some (replicate (Z.to_nat sz) 0xAA); fresh_length := ample_length |}.

Lemma ample_generous : Generous ample.
Proof. split. intros n sz. by eexists. Qed.

Definition no_floats : FloatPrint :=
  {| fmt_0f d := []; fmt_e d := []; fmt_f d := [];
     d_1e60 := S754_infinity false; d_1em6 := S754_zero false; d_1e9 := S754_infinity false |}.

Definition empty_store : mem := mkMem ∅ 1.

Lemma empty_store_wf : wf empty_store.
Proof. split; [done|]. intros a [x Hx]. unfold empty_store, blocks in Hx. by rewrite lookup_empty in Hx. Qed.

(** The object {"a":"b"} in a store. *)
Definition small_store : mem := mkMem (list_to_map
  [(1, BNode (mkCJSON 0 0 2 6 0 0 (S754_zero false) 0));
   (2, BNode (mkCJSON 0 0 0 4 4 0 (S754_zero false) 3));
   (3, BChars (bs "a" ++ [0])); (4, BChars (bs "b" ++ [0]))]) 5.

Definition small_tree : json := JObj [(bs "a", JStr (bs "b"))].

Lemma small_store_wf : wf small_store.
Proof.
  split; [done|]. intros a [x Hx]. unfold small_store, blocks, brk in *.
  apply elem_of_list_to_map_2 in Hx. rewrite !elem_of_cons, elem_of_nil in Hx. naive_solver lia.
Qed.

Lemma small_tree_at : item_at (blocks small_store) 1 small_tree [2; 3; 4].
Proof.
  eexists. split; [reflexivity|]. split; [done|]. split; [done|]. apply va_obj; try done.
  apply (ca_cons _ 2 (mkCJSON 0 0 0 4 4 0 (S754_zero false) 3) (bs "a") [] (JStr (bs "b")) [] [4] []);
    try done; try (apply (bool_decide_unpack _); vm_compute; exact I); [|constructor].
  apply (va_str _ (mkCJSON 0 0 0 4 4 0 (S754_zero false) 3) (bs "b") []); try done;
    apply (bool_decide_unpack _); vm_compute; exact I.
Qed.

Lemma delete_frees_tree_witness :
  wp (cJSON_Delete 8 1) (fun _ m' t' => t' = [] /\ erased [1; 2; 3; 4] small_store m') small_store [].
Proof.
  refine (@delete_frees_tree ample no_floats 8 small_store [] 1 small_tree [2; 3; 4]
    small_store_wf small_tree_at _ _).
  - apply (bool_decide_unpack _). vm_compute. exact I.
  - simpl. lia.
Defined.

Lemma print_unformatted_correct_witness :
  wp (@cJSON_PrintUnformatted ample no_floats 8 1) (fun out m' t' => t' = [] /\
    ((out = 0 /\ @refused ample /\ blocks m' = blocks small_store) \/
     (out <> 0 /\ blocks small_store !! out = None /\
      exists junk, blocks m' = <[out := BChars (bs "{" ++ quote (bs "a") ++ bs ":" ++ quote (bs "b") ++ bs "}" ++ 0 :: junk)]>
        (blocks small_store)))) small_store [].
Proof.
  destruct small_tree_at as (c & Hc & _ & _ & Hv).
  refine (@print_unformatted_correct ample no_floats 8 small_store [] 1 c small_tree [2; 3; 4]
    small_store_wf Hc Hv _ _).
  - simpl. lia.
  - vm_compute. reflexivity.
Defined.
