(* ===== verification/CjsonParse.v ===== *)
(** * Parsing JSON

    The parser of src/apps/examples/NB_Iot/cJSON.c: numbers, strings, arrays and
    objects, with the error pointer [ep] and the clean-up after a failure, on the store
    of [Cjson].  The text is an array [txt] that the parser only reads; a pointer into it
    is an offset, [None] the null pointer, and reading outside the array is undefined.

    The grammar [says] is the JSON the parser is meant for: values with any white
    space between the tokens, strings with every escape.  CjsonRead has the theorems. *)

From Stdlib Require Import SpecFloat.
From S2P Require Import Prelude CString Double Env Cjson.

(** The heap and the static [ep]. *)
Record pmem := mkP { heap : mem; ep : option Z }.

Definition lift {A} (m : io mem A) : io pmem A := fun s t =>
  match m (heap s) t with
  | Ret (a, h, t') => Ret (a, mkP h (ep s), t')
  | Undefined => Undefined
  | OutOfFuel => OutOfFuel
  end.

Definition set_ep (p : option Z) : io pmem () := modify (fun s => mkP (heap s) p).
Definition out_of_fuel {A} : io pmem A := fun s t => OutOfFuel.

Definition is_digit_c (c : Z) : bool := bool_decide (48 <= c <= 57).
Definition ten : double := double_of_int 10.

Section parser.
Context `{A : Allocator}.
Variable txt : list Z.

(** [*p] *)
Definition rd (p : Z) : io pmem Z := of_option (aget txt p).

(** ** Numbers *)

(** The [do] loop over the digits of the integral part. *)
Fixpoint int_digits (fuel : nat) (num : Z) (n : double) : io pmem (Z * double) :=
  match fuel with
  | O => out_of_fuel
  | S fuel =>
      c ← rd num;
      let n := fadd (fmul n ten) (double_of_int (c - 48)) in
      d ← rd (num + 1);
      if is_digit_c d then int_digits fuel (num + 1) n else mret (num + 1, n)
  end.

(** The same with [scale--]. *)
Fixpoint frac_digits (fuel : nat) (num : Z) (n scale : double) : io pmem (Z * double * double) :=
  match fuel with
  | O => out_of_fuel
  | S fuel =>
      c ← rd num;
      let n := fadd (fmul n ten) (double_of_int (c - 48)) in
      let scale := fsub scale (double_of_int 1) in
      d ← rd (num + 1);
      if is_digit_c d then frac_digits fuel (num + 1) n scale else mret (num + 1, n, scale)
  end.

(** The [while] loop over the digits of the exponent. *)
Fixpoint exp_digits (fuel : nat) (num subscale : Z) : io pmem (Z * Z) :=
  match fuel with
  | O => out_of_fuel
  | S fuel =>
      c ← rd num;
      if is_digit_c c then exp_digits fuel (num + 1) (s32 (s32 (subscale * 10) + (c - 48)))
      else mret (num, subscale)
  end.

Definition parse_number (item : addr) (num : Z) : io pmem (option Z) :=
  let fuel := S (length txt) in
  c ← rd num;
  let '(sign, num) := if decide (c = 45) then (double_of_int (-1), num + 1) else (double_of_int 1, num) in
  c ← rd num;
  let num := if decide (c = 48) then num + 1 else num in
  c ← rd num;
  '(num, n) ← (if decide (49 <= c <= 57) then int_digits fuel num fzero else mret (num, fzero));
  c ← rd num;
  '(num, n, scale) ←
    (if decide (c = 46) then
       d ← rd (num + 1);
       if is_digit_c d then frac_digits fuel (num + 1) n fzero else mret (num, n, fzero)
     else mret (num, n, fzero));
  c ← rd num;
  '(num, subscale, signsubscale) ←
    (if decide (c = 101 \/ c = 69) then
       let num := num + 1 in
       c ← rd num;
       let '(num, sg) := if decide (c = 43) then (num + 1, 1) else if decide (c = 45) then (num + 1, -1) else (num, 1) in
       '(num, subscale) ← exp_digits fuel num 0;
       mret (num, subscale, sg)
     else mret (num, 0, 1));
  match pow 100 ten (fadd scale (double_of_int (s32 (subscale * signsubscale)))) with
  | None => out_of_fuel
  | Some p =>
      let n := fmul (fmul sign n) p in
      lift (upd_node item (fun x => set_type cJSON_Number (set_number n x)));;
      mret (Some num)
  end.

(** ** Strings *)

Definition hex_digit (c : Z) : option Z :=
  if decide (48 <= c <= 57) then Some (c - 48)
  else if decide (65 <= c <= 70) then Some (10 + c - 65)
  else if decide (97 <= c <= 102) then Some (10 + c - 97)
  else None.

(** [k] more digits. *)
Fixpoint hex_digits (k : nat) (str h : Z) : io pmem Z :=
  match k with
  | O => mret h
  | S k =>
      c ← rd str;
      match hex_digit c with
      | None => mret 0
      | Some d =>
          let h := u32 (h + d) in
          match k with
          | O => mret h
          | S _ => hex_digits k (str + 1) (u32 (Z.shiftl h 4))
          end
      end
  end.

Definition parse_hex4 (str : Z) : io pmem Z := hex_digits 4 str 0.

Definition firstByteMark (len : nat) : Z := nth len [0; 0; 192; 224; 240; 248; 252] 0.

(** The [switch (len)] that falls through: the bytes from the last to the first. *)
Fixpoint put_utf8 (len : nat) (out ptr2 uc mark : Z) : io pmem () :=
  match len with
  | O => mret ()
  | S O => lift (put_bytes out (ptr2 - 1) [u8 (Z.lor uc mark)])
  | S len =>
      lift (put_bytes out (ptr2 - 1) [u8 (Z.land (Z.lor uc 128) 191)]);;
      put_utf8 len out (ptr2 - 1) (Z.shiftr uc 6) mark
  end.

Definition utf8_len (uc : Z) : nat :=
  if decide (uc < 128) then 1 else if decide (uc < 2048) then 2 else if decide (uc < 65536) then 3 else 4.

(** The case of [u], from the [u] on. *)
Definition unescape_u (out ptr ptr2 : Z) : io pmem (Z * Z) :=
  uc ← parse_hex4 (ptr + 1);
  let ptr := ptr + 4 in
  if decide (56320 <= uc <= 57343 \/ uc = 0) then mret (ptr, ptr2) else
  r ← (if decide (55296 <= uc <= 56319) then
         c1 ← rd (ptr + 1);
         if decide (c1 <> 92) then mret (ptr, None) else
         c2 ← rd (ptr + 2);
         if decide (c2 <> 117) then mret (ptr, None) else
         uc2 ← parse_hex4 (ptr + 3);
         let ptr := ptr + 6 in
         if decide (uc2 < 56320 \/ 57343 < uc2) then mret (ptr, None) else
         mret (ptr, Some (65536 + Z.lor (Z.shiftl (Z.land uc 1023) 10) (Z.land uc2 1023)))
       else mret (ptr, Some uc));
  match r with
  | (ptr, None) => mret (ptr, ptr2)
  | (ptr, Some uc) =>
      let len := utf8_len uc in
      put_utf8 len out (ptr2 + Z.of_nat len) uc (firstByteMark len);;
      mret (ptr, ptr2 + Z.of_nat len)
  end.

(** The [switch] behind a backslash. *)
Definition unescape (out ptr ptr2 : Z) : io pmem (Z * Z) :=
  c ← rd ptr;
  if decide (c = 117) then unescape_u out ptr ptr2
  else
    let x := if decide (c = 98) then 8 else if decide (c = 102) then 12 else if decide (c = 110) then 10
             else if decide (c = 114) then 13 else if decide (c = 116) then 9 else c in
    lift (put_bytes out ptr2 [x]);; mret (ptr, ptr2 + 1).

(** The first loop of [parse_string]: the characters up to the closing quote, an
    escape counted as one. *)
Fixpoint string_len (fuel : nat) (ptr len : Z) : io pmem Z :=
  match fuel with
  | O => out_of_fuel
  | S fuel =>
      c ← rd ptr;
      if decide (c <> 34 /\ c <> 0) then
        let len := s32 (len + 1) in
        if decide (len = 0) then mret len else
        string_len fuel (if decide (c = 92) then ptr + 2 else ptr + 1) len
      else mret len
  end.

Fixpoint copy_loop (fuel : nat) (out ptr ptr2 : Z) : io pmem (Z * Z) :=
  match fuel with
  | O => out_of_fuel
  | S fuel =>
      c ← rd ptr;
      if decide (c <> 34 /\ c <> 0) then
        if decide (c <> 92) then
          lift (put_bytes out ptr2 [c]);; copy_loop fuel out (ptr + 1) (ptr2 + 1)
        else
          '(ptr, ptr2) ← unescape out (ptr + 1) ptr2;
          copy_loop fuel out (ptr + 1) ptr2
      else mret (ptr, ptr2)
  end.

Definition parse_string (item : addr) (str : Z) : io pmem (option Z) :=
  c ← rd str;
  if decide (c <> 34) then set_ep (Some str);; mret None else
  len ← string_len (S (length txt)) (str + 1) 0;
  out ← lift (cJSON_malloc (u32 (len + 1)));
  if decide (out = 0) then mret None else
  '(ptr, ptr2) ← copy_loop (S (length txt)) out (str + 1) 0;
  lift (put_bytes out ptr2 [0]);;
  c ← rd ptr;
  let ptr := if decide (c = 34) then ptr + 1 else ptr in
  lift (upd_node item (fun x => set_type cJSON_String (set_valuestring out x)));;
  mret (Some ptr).

(** ** White space *)

Fixpoint skip_loop (fuel : nat) (p : Z) : io pmem Z :=
  match fuel with
  | O => out_of_fuel
  | S fuel =>
      c ← rd p;
      if decide (c <> 0 /\ c <= 32) then skip_loop fuel (p + 1) else mret p
  end.

(** [skip] passes a null pointer on. *)
Definition skip (p : option Z) : io pmem (option Z) :=
  match p with
  | None => mret None
  | Some p => q ← skip_loop (S (length txt)) p; mret (Some q)
  end.

(** [skip] of a pointer that is not null. *)
Definition skip_at (p : Z) : io pmem Z := skip_loop (S (length txt)) p.

(** ** Arrays and objects; [pv] parses a value *)

(** [skip(parse_value(child,skip(value)))] *)
Definition parse_elem (pv : addr -> option Z -> io pmem (option Z)) (child_ : addr) (value : Z) : io pmem (option Z) :=
  v ← skip_at value;
  r ← pv child_ (Some v);
  skip r.

Fixpoint array_loop (pv : addr -> option Z -> io pmem (option Z)) (fuel : nat) (child_ : addr) (value : Z) : io pmem (option Z) :=
  match fuel with
  | O => out_of_fuel
  | S fuel =>
      c ← rd value;
      if decide (c = 44) then
        new_item ← lift cJSON_New_Item;
        if decide (new_item = 0) then mret None else
        lift (upd_node child_ (set_next new_item));;
        lift (upd_node new_item (set_prev child_));;
        value ← parse_elem pv new_item (value + 1);
        match value with
        | None => mret None
        | Some value => array_loop pv fuel new_item value
        end
      else if decide (c = 93) then mret (Some (value + 1))
      else set_ep (Some value);; mret None
  end.

Definition parse_array (pv : addr -> option Z -> io pmem (option Z)) (fuel : nat) (item : addr) (value : Z) : io pmem (option Z) :=
  c ← rd value;
  if decide (c <> 91) then set_ep (Some value);; mret None else
  lift (upd_node item (set_type cJSON_Array));;
  value ← skip_at (value + 1);
  c ← rd value;
  if decide (c = 93) then mret (Some (value + 1)) else
  child_ ← lift cJSON_New_Item;
  lift (upd_node item (set_child child_));;
  if decide (child_ = 0) then mret None else
  value ← parse_elem pv child_ value;
  match value with
  | None => mret None
  | Some value => array_loop pv fuel child_ value
  end.

(** A name, a colon and a value into the node [child_]. *)
Definition parse_member (pv : addr -> option Z -> io pmem (option Z)) (child_ : addr) (value : Z) : io pmem (option Z) :=
  v ← skip_at value;
  r ← parse_string child_ v;
  value ← skip r;
  match value with
  | None => mret None
  | Some value =>
      lift (upd_node child_ (fun x => set_valuestring 0 (set_string (valuestring x) x)));;
      c ← rd value;
      if decide (c <> 58) then set_ep (Some value);; mret None else
      parse_elem pv child_ (value + 1)
  end.

Fixpoint object_loop (pv : addr -> option Z -> io pmem (option Z)) (fuel : nat) (child_ : addr) (value : Z) : io pmem (option Z) :=
  match fuel with
  | O => out_of_fuel
  | S fuel =>
      c ← rd value;
      if decide (c = 44) then
        new_item ← lift cJSON_New_Item;
        if decide (new_item = 0) then mret None else
        lift (upd_node child_ (set_next new_item));;
        lift (upd_node new_item (set_prev child_));;
        value ← parse_member pv new_item (value + 1);
        match value with
        | None => mret None
        | Some value => object_loop pv fuel new_item value
        end
      else if decide (c = 125) then mret (Some (value + 1))
      else set_ep (Some value);; mret None
  end.

Definition parse_object (pv : addr -> option Z -> io pmem (option Z)) (fuel : nat) (item : addr) (value : Z) : io pmem (option Z) :=
  c ← rd value;
  if decide (c <> 123) then set_ep (Some value);; mret None else
  lift (upd_node item (set_type cJSON_Object));;
  value ← skip_at (value + 1);
  c ← rd value;
  if decide (c = 125) then mret (Some (value + 1)) else
  child_ ← lift cJSON_New_Item;
  lift (upd_node item (set_child child_));;
  if decide (child_ = 0) then mret None else
  value ← parse_member pv child_ value;
  match value with
  | None => mret None
  | Some value => object_loop pv fuel child_ value
  end.

(** [strncmp(value, word, strlen(word))] *)
Definition starts (value : Z) (word : list Z) : io pmem bool :=
  d ← of_option (strncmp (drop (Z.to_nat value) txt) (word ++ [0]) (length word));
  mret (bool_decide (d = 0)).

Fixpoint parse_value (fuel : nat) (item : addr) (value : option Z) : io pmem (option Z) :=
  match fuel with
  | O => out_of_fuel
  | S fuel =>
      match value with
      | None => mret None
      | Some value =>
          b ← starts value (bs "null");
          if (b : bool) then lift (upd_node item (set_type cJSON_NULL));; mret (Some (value + 4)) else
          b ← starts value (bs "false");
          if (b : bool) then lift (upd_node item (set_type cJSON_False));; mret (Some (value + 5)) else
          b ← starts value (bs "true");
          if (b : bool) then
            lift (upd_node item (fun x => set_valueint 1 (set_type cJSON_True x)));; mret (Some (value + 4)) else
          c ← rd value;
          if decide (c = 34) then parse_string item value
          else if decide (c = 45 \/ 48 <= c <= 57) then parse_number item value
          else if decide (c = 91) then parse_array (parse_value fuel) fuel item value
          else if decide (c = 123) then parse_object (parse_value fuel) fuel item value
          else set_ep (Some value);; mret None
      end
  end.

(** [cJSON_Delete] with fuel for every block there is. *)
Definition delete_item (c : addr) : io pmem () :=
  n ← gets (fun s => size (blocks (heap s)));
  lift (cJSON_Delete (S n) c).

(** The item, and what [*return_parse_end] is set to, if it is. *)
Definition cJSON_ParseWithOpts (value : Z) (require_null_terminated : bool) : io pmem (addr * option Z) :=
  c ← lift cJSON_New_Item;
  set_ep None;;
  if decide (c = 0) then mret (0, None) else
  v ← skip_at value;
  end_ ← parse_value (S (length txt)) c (Some v);
  match end_ with
  | None => delete_item c;; mret (0, None)
  | Some e =>
      if require_null_terminated then
        e ← skip_at e;
        x ← rd e;
        if decide (x <> 0) then delete_item c;; set_ep (Some e);; mret (0, None)
        else mret (c, Some e)
      else mret (c, Some e)
  end.

Definition cJSON_Parse (value : Z) : io pmem addr :=
  r ← cJSON_ParseWithOpts value false; mret (r.1).
End parser.
