(* ===== verification/CjsonRead.v ===== *)
(** * What the JSON parser accepts

    The grammar of JSON texts and the proof that the parser of [CjsonParse] builds the
    tree of every such text, or gives up when the allocator refuses a request, and then
    leaves nothing behind.  With the printer's theorem this gives the round trip of
    [cJSON_PrintUnformatted] and [cJSON_Parse]. *)

From Stdlib Require Import SpecFloat.
From S2P Require Import Prelude CString Double Env Cjson CjsonPrint CjsonDelete CjsonParse.

(** ** The grammar *)

(** White space, as [skip] takes it. *)
Definition ws (w : list Z) : Prop := Forall (fun c => 0 < c <= 32) w.

(** The value of four hexadecimal digits. *)
Definition hex4 (a b c d : Z) : option Z :=
  x ← hex_digit a; y ← hex_digit b; z ← hex_digit c; w ← hex_digit d; Some (((x * 16 + y) * 16 + z) * 16 + w).

(** UTF-8. *)
Definition utf8 (uc : Z) : list Z :=
  if decide (uc < 128) then [uc]
  else if decide (uc < 2048) then [192 + uc / 64; 128 + uc mod 64]
  else if decide (uc < 65536) then [224 + uc / 4096; 128 + uc / 64 mod 64; 128 + uc mod 64]
  else [240 + uc / 262144; 128 + uc / 4096 mod 64; 128 + uc / 64 mod 64; 128 + uc mod 64].

(** The escapes of two characters. *)
Definition short_escape (e : Z) : option Z :=
  if decide (e = 34) then Some 34 else if decide (e = 92) then Some 92 else if decide (e = 47) then Some 47
  else if decide (e = 98) then Some 8 else if decide (e = 102) then Some 12 else if decide (e = 110) then Some 10
  else if decide (e = 114) then Some 13 else if decide (e = 116) then Some 9 else None.

(** The text between the quotes that stands for a string. *)
Inductive chars_of : list Z -> list Z -> Prop :=
| co_nil : chars_of [] []
| co_plain c s t : is_byte c -> c <> 0 -> c <> 34 -> c <> 92 -> chars_of s t -> chars_of (c :: s) (c :: t)
| co_short e x s t : short_escape e = Some x -> chars_of s t -> chars_of (x :: s) (92 :: e :: t)
| co_u a b c d uc s t : hex4 a b c d = Some uc -> uc <> 0 -> ~ 55296 <= uc <= 57343 -> chars_of s t ->
    chars_of (utf8 uc ++ s) (92 :: 117 :: a :: b :: c :: d :: t)
| co_pair a b c d a' b' c' d' hi lo s t :
    hex4 a b c d = Some hi -> hex4 a' b' c' d' = Some lo -> 55296 <= hi <= 56319 -> 56320 <= lo <= 57343 -> chars_of s t ->
    chars_of (utf8 (65536 + (hi - 55296) * 1024 + (lo - 56320)) ++ s)
      (92 :: 117 :: a :: b :: c :: d :: 92 :: 117 :: a' :: b' :: c' :: d' :: t).

(** The texts of a value; [elems] and [members] are what follows the opening bracket. *)
Inductive says : json -> list Z -> Prop :=
| says_null : says JNull (bs "null")
| says_false : says JFalse (bs "false")
| says_true : says JTrue (bs "true")
| says_int z : is_int z -> says (JInt z) (fmt_d z)
| says_str s t : chars_of s t -> says (JStr s) (34 :: t ++ [34])
| says_arr0 w : ws w -> says (JArr []) (91 :: w ++ [93])
| says_arr l t : elems l t -> says (JArr l) (91 :: t)
| says_obj0 w : ws w -> says (JObj []) (123 :: w ++ [125])
| says_obj l t : members l t -> says (JObj l) (123 :: t)
with elems : list json -> list Z -> Prop :=
| el_last w1 j t w2 : ws w1 -> says j t -> ws w2 -> elems [j] (w1 ++ t ++ w2 ++ [93])
| el_more w1 j t w2 l u : ws w1 -> says j t -> ws w2 -> elems l u -> elems (j :: l) (w1 ++ t ++ w2 ++ 44 :: u)
with members : list (list Z * json) -> list Z -> Prop :=
| mb_last w1 k kt w2 w3 j t w4 : ws w1 -> chars_of k kt -> ws w2 -> ws w3 -> says j t -> ws w4 ->
    members [(k, j)] (w1 ++ (34 :: kt ++ [34]) ++ w2 ++ 58 :: w3 ++ t ++ w4 ++ [125])
| mb_more w1 k kt w2 w3 j t w4 l u : ws w1 -> chars_of k kt -> ws w2 -> ws w3 -> says j t -> ws w4 -> members l u ->
    members ((k, j) :: l) (w1 ++ (34 :: kt ++ [34]) ++ w2 ++ 58 :: w3 ++ t ++ w4 ++ 44 :: u).

Scheme says_mut := Induction for says Sort Prop
with elems_mut := Induction for elems Sort Prop
with members_mut := Induction for members Sort Prop.

(** ** Reading the text *)

(** From offset [p] on the text is [l]. *)
Definition sfx (txt : list Z) (p : Z) (l : list Z) : Prop := 0 <= p /\ drop (Z.to_nat p) txt = l.

Lemma sfx_app txt p a l : sfx txt p (a ++ l) -> sfx txt (p + Z.of_nat (length a)) l.
Proof.
  intros [Hp Hd]. split; [lia|]. rewrite Z2Nat.inj_add, Nat2Z.id by lia.
  by rewrite <- drop_drop, Hd, drop_app_length.
Qed.

Lemma sfx_cons txt p c l : sfx txt p (c :: l) -> sfx txt (p + 1) l.
Proof. intros H. apply (sfx_app txt p [c] l) in H. done. Qed.

Lemma sfx_get txt p c l : sfx txt p (c :: l) -> aget txt p = Some c.
Proof.
  intros [Hp Hd]. unfold aget. rewrite decide_True by done.
  rewrite <- (Nat.add_0_r (Z.to_nat p)), <- lookup_drop, Hd. done.
Qed.

Lemma sfx_length txt p l : sfx txt p l -> (length l <= length txt)%nat.
Proof. intros [_ <-]. rewrite length_drop. lia. Qed.

Lemma sfx_start txt : sfx txt 0 txt.
Proof. done. Qed.

Section reading.
Context `{A : Allocator}.

Lemma wp_lift {B} (m : io mem B) (Q : B -> pmem -> trace -> Prop) st t :
  wp m (fun a h t' => Q a (mkP h (ep st)) t') (heap st) t -> wp (lift m) Q st t.
Proof. unfold wp, lift. by destruct (m (heap st) t) as [[[a h] t']| |]. Qed.

Lemma wp_rd txt p c l (Q : Z -> pmem -> trace -> Prop) st t : sfx txt p (c :: l) -> Q c st t -> wp (rd txt p) Q st t.
Proof. intros H HQ. unfold rd. by eapply wp_of_option; [by eapply sfx_get|]. Qed.

(** The end of white space. *)
Definition dark (l : list Z) : Prop := match l with [] => False | c :: _ => c = 0 \/ 32 < c end.

Lemma wp_skip_loop txt w : forall fuel p l (Q : Z -> pmem -> trace -> Prop) st t,
  ws w -> dark l -> sfx txt p (w ++ l) -> (length w < fuel)%nat -> Q (p + Z.of_nat (length w)) st t ->
  wp (skip_loop txt fuel p) Q st t.
Proof.
  induction w as [|c w IH]; intros [|fuel] p l Q st t Hw Hl Hs Hf HQ; simpl in Hf; try lia; cbn [skip_loop].
  - destruct l as [|c l]; [done|]. simpl in Hl, Hs. wp_step. eapply wp_rd; [done|]. wp_if as [?|_]; [lia|].
    wp_step. by replace p with (p + Z.of_nat (@length Z [])) by (simpl; lia).
  - apply Forall_cons in Hw as [Hc Hw]. simpl in Hs. wp_step. eapply wp_rd; [done|]. wp_if as [_|?]; [|lia].
    eapply (IH _ _ l); [done|done|by eapply sfx_cons|lia|]. simpl in HQ.
    by replace (p + 1 + Z.of_nat (length w)) with (p + Z.of_nat (S (length w))) by lia.
Qed.

Lemma wp_skip_at txt w p l (Q : Z -> pmem -> trace -> Prop) st t :
  ws w -> dark l -> sfx txt p (w ++ l) -> Q (p + Z.of_nat (length w)) st t -> wp (skip_at txt p) Q st t.
Proof.
  intros Hw Hl Hs HQ. apply sfx_length in Hs as Hlen. rewrite length_app in Hlen.
  eapply wp_skip_loop; [done|done|done|lia|done].
Qed.

Lemma wp_skip txt w p l (Q : option Z -> pmem -> trace -> Prop) st t :
  ws w -> dark l -> sfx txt p (w ++ l) -> Q (Some (p + Z.of_nat (length w))) st t -> wp (skip txt (Some p)) Q st t.
Proof. intros. unfold skip. wp_step. by eapply (wp_skip_at txt w p l). Qed.

(** ** Numbers *)

(** What may not follow a number. *)
Definition stops (l : list Z) : Prop :=
  match l with [] => False | c :: _ => ~ is_digit c /\ c <> 46 /\ c <> 101 /\ c <> 69 end.

Lemma is_digit_c_true c : is_digit c -> is_digit_c c = true.
Proof. intros H. by apply bool_decide_eq_true. Qed.

Lemma is_digit_c_false c : ~ is_digit c -> is_digit_c c = false.
Proof. intros H. by apply bool_decide_eq_false. Qed.

Lemma wp_int_digits txt ds : forall fuel a p l (Q : Z * double -> pmem -> trace -> Prop) st t,
  ds <> [] -> Forall is_digit ds -> stops l -> sfx txt p (ds ++ l) -> (length ds <= fuel)%nat ->
  0 <= a -> dval a ds < 2 ^ 53 -> Q (p + Z.of_nat (length ds), double_of_int (dval a ds)) st t ->
  wp (int_digits txt fuel p (double_of_int a)) Q st t.
Proof.
  induction ds as [|c ds IH]; intros [|fuel] a p l Q st t Hne Hd Hl Hs Hf Ha Hv HQ; simpl in Hf; try done; try lia.
  apply Forall_cons in Hd as [Hc Hd]. unfold is_digit in Hc. cbn [int_digits].
  change (dval a (c :: ds)) with (dval (a * 10 + c - 48) ds) in *.
  assert (Hge : a * 10 + c - 48 <= dval (a * 10 + c - 48) ds) by (apply dval_ge; [done|lia]).
  assert (Hn : fadd (fmul (double_of_int a) ten) (double_of_int (c - 48)) = double_of_int (a * 10 + c - 48)).
  { unfold fadd, fmul, ten. rewrite mul_exact by (unfold small; lia). rewrite add_exact by (unfold small; lia).
    f_equal. lia. }
  simpl in Hs. wp_step. eapply wp_rd; [done|]. apply sfx_cons in Hs. cbv zeta. rewrite Hn.
  destruct ds as [|d ds].
  - destruct l as [|x l]; [done|]. simpl in Hl, Hs. wp_step. eapply wp_rd; [done|].
    rewrite is_digit_c_false by tauto. wp_step. done.
  - wp_step. eapply wp_rd; [exact Hs|]. apply Forall_cons in Hd as Hd'. rewrite is_digit_c_true by tauto.
    eapply (IH fuel _ (p + 1) l); try done; [lia|lia|]. 
    replace (p + 1 + Z.of_nat (length (d :: ds))) with (p + Z.of_nat (length (c :: d :: ds))) by (simpl; lia). done.
Qed.
End reading.

(** The first digit of a positive number is not zero. *)
Lemma dec_digits_head fuel : forall n acc, 0 < n -> n < 2 ^ Z.of_nat fuel ->
  exists c ds, dec_digits fuel n acc = c :: ds /\ 49 <= c <= 57.
Proof.
  induction fuel as [|fuel IH]; intros n acc Hn Hf; [simpl in Hf; lia|]. cbn [dec_digits].
  rewrite Nat2Z.inj_succ, Z.pow_succ_r in Hf by lia. case_decide.
  - exists (48 + n mod 10), acc. split; [done|]. rewrite Z.mod_small by lia. lia.
  - apply IH; zlia.
Qed.

Lemma print_nat_dec_head n : 0 < n -> exists c ds, print_nat_dec n = c :: ds /\ 49 <= c <= 57.
Proof.
  intros Hn. apply dec_digits_head; [done|].
  rewrite Nat2Z.inj_succ, Z2Nat.id by apply Z.log2_nonneg. apply Z.log2_spec. lia.
Qed.

Section numbers.
Context `{A : Allocator}.

Ltac number_tail Hl :=
  wp_step; eapply wp_rd; [exact Hl|]; wp_step; wp_if as [?|_]; [lia|]; wp_step; cbv iota beta;
  wp_step; eapply wp_rd; [exact Hl|]; wp_step; wp_if as [?|_]; [lia|]; wp_step; cbv iota beta.

Lemma pow_none : pow 100 ten (fadd fzero (double_of_int (s32 (0 * 1)))) = Some (double_of_int 1).
Proof. exact pow_ten_zero. Qed.

Lemma wp_parse_number txt z p l item c0 (Q : option Z -> pmem -> trace -> Prop) st t :
  is_int z -> stops l -> sfx txt p (fmt_d z ++ l) -> wf (heap st) -> blocks (heap st) !! item = Some (BNode c0) ->
  (forall m', blocks m' = <[item := BNode (set_type cJSON_Number (set_number (double_of_int z) c0))]> (blocks (heap st)) ->
    brk m' = brk (heap st) -> wf m' -> Q (Some (p + Z.of_nat (length (fmt_d z)))) (mkP m' (ep st)) t) ->
  wp (parse_number txt item p) Q st t.
Proof.
  intros Hz Hl Hs Hw Hi HQ. unfold is_int in Hz. pose proof (sfx_length _ _ _ Hs) as Hlen. rewrite length_app in Hlen.
  assert (Hend : forall q, q = p + Z.of_nat (length (fmt_d z)) ->
    wp (lift (upd_node item (fun x => set_type cJSON_Number (set_number (double_of_int z) x)));; mret (Some q)) Q st t).
  { intros q ->. wp_step. apply wp_lift. eapply wp_upd_node; [done|done|]. intros m' Hm Hb Hw'. wp_step. by apply HQ. }
  clear HQ. unfold parse_number, fmt_d in *. destruct l as [|x l]; [done|]. simpl in Hl. unfold is_digit in Hl.
  destruct (decide (z < 0)) as [Hneg|Hpos].
  - destruct (print_nat_dec_spec (- z)) as (Hd & Hne & Hv); [lia|].
    destruct (print_nat_dec_head (- z)) as (c & ds & E & Hc); [lia|]. rewrite E in *.
    simpl in Hs. wp_step. eapply wp_rd; [exact Hs|]. rewrite decide_True by done. cbv iota beta. apply sfx_cons in Hs.
    wp_step. eapply wp_rd; [exact Hs|]. rewrite decide_False by lia. cbv zeta.
    wp_step. eapply wp_rd; [exact Hs|]. wp_step. wp_if as [_|?]; [|lia]. change fzero with (double_of_int 0).
    eapply (wp_int_digits txt (c :: ds) _ 0 _ (x :: l)); [done|done| |exact Hs|simpl in *; lia|lia|rewrite Hv; lia|].
    { simpl. unfold is_digit. lia. }
    rewrite Hv. cbv iota beta. apply (sfx_app txt (p + 1) (c :: ds) (x :: l)) in Hs as Hs'. number_tail Hs'.
    change (double_of_int 0) with fzero. rewrite pow_none.
    replace (fmul (fmul (double_of_int (-1)) (double_of_int (- z))) (double_of_int 1)) with (double_of_int z).
    + apply Hend. simpl. lia.
    + unfold fmul. rewrite !mul_exact by (unfold small; lia). f_equal. lia.
  - destruct (print_nat_dec_spec z) as (Hd & Hne & Hv); [lia|].
    destruct (decide (z = 0)) as [->|Hz0].
    + change (print_nat_dec 0) with [48] in *. simpl in Hs. wp_step. eapply wp_rd; [exact Hs|].
      rewrite decide_False by done. cbv iota beta. wp_step. eapply wp_rd; [exact Hs|]. rewrite decide_True by done. cbv zeta.
      apply sfx_cons in Hs. wp_step. eapply wp_rd; [exact Hs|]. wp_step. wp_if as [?|_]; [lia|]. wp_step. cbv iota beta.
      number_tail Hs. rewrite pow_none. by apply Hend.
    + destruct (print_nat_dec_head z) as (c & ds & E & Hc); [lia|]. rewrite E in *.
      simpl in Hs. wp_step. eapply wp_rd; [exact Hs|]. rewrite decide_False by lia. cbv iota beta.
      wp_step. eapply wp_rd; [exact Hs|]. rewrite decide_False by lia. cbv zeta.
      wp_step. eapply wp_rd; [exact Hs|]. wp_step. wp_if as [_|?]; [|lia]. change fzero with (double_of_int 0).
      eapply (wp_int_digits txt (c :: ds) _ 0 _ (x :: l)); [done|done| |exact Hs|simpl in *; lia|lia|rewrite Hv; lia|].
      { simpl. unfold is_digit. lia. }
      rewrite Hv. cbv iota beta. apply (sfx_app txt p (c :: ds) (x :: l)) in Hs as Hs'. number_tail Hs'.
      change (double_of_int 0) with fzero. rewrite pow_none.
      replace (fmul (fmul (double_of_int 1) (double_of_int z)) (double_of_int 1)) with (double_of_int z).
      * by apply Hend.
      * unfold fmul. rewrite !mul_exact by (unfold small; lia). f_equal. lia.
Qed.
End numbers.

(** ** Strings *)

(** The bytes [put_utf8] writes, from the first to the last. *)
Fixpoint enc (len : nat) (uc mark : Z) : list Z :=
  match len with
  | O => []
  | S O => [u8 (Z.lor uc mark)]
  | S len => enc len (Z.shiftr uc 6) mark ++ [u8 (Z.land (Z.lor uc 128) 191)]
  end.

Lemma enc_length len uc mark : length (enc len uc mark) = len.
Proof.
  revert uc. induction len as [|[|len] IH]; intros uc; [done|done|].
  change (enc (S (S len)) uc mark) with (enc (S len) (Z.shiftr uc 6) mark ++ [u8 (Z.land (Z.lor uc 128) 191)]).
  rewrite length_app, IH. simpl. lia.
Qed.

Lemma cont_byte uc : 0 <= uc -> u8 (Z.land (Z.lor uc 128) 191) = 128 + uc mod 64.
Proof.
  intros Hu. assert (H : Z.land (Z.lor uc 128) 191 = Z.land (Z.lor (uc mod 256) 128) 191).
  { change 256 with (2 ^ 8). rewrite <- Z.land_ones by lia. change (Z.ones 8) with 255.
    rewrite !Z.land_lor_distr_l, <- (Z.land_assoc uc 255 191). done. }
  rewrite H. replace (uc mod 64) with ((uc mod 256) mod 64) by zlia.
  pose proof (Z.mod_pos_bound uc 256 ltac:(lia)) as Hr. revert Hr. generalize (uc mod 256). by_evaluation 256.
Qed.

Lemma enc_utf8 uc : 0 <= uc < 1114112 -> enc (utf8_len uc) uc (firstByteMark (utf8_len uc)) = utf8 uc.
Proof.
  intros Hu. unfold utf8, utf8_len. repeat case_decide; try lia; cbn [enc app firstByteMark nth].
  - rewrite Z.lor_0_r. f_equal. zlia.
  - rewrite !Z.shiftr_div_pow2 by lia. change (2 ^ 6) with 64. rewrite cont_byte by lia. f_equal.
    assert (Hr : 0 <= uc / 64 < 32) by zlia. revert Hr. generalize (uc / 64). by_evaluation 32.
  - rewrite !Z.shiftr_div_pow2 by lia. change (2 ^ 6) with 64. rewrite !cont_byte by zlia.
    replace (uc / 64 / 64) with (uc / 4096) by (rewrite Z.div_div by lia; done). f_equal.
    assert (Hr : 0 <= uc / 4096 < 16) by zlia. revert Hr. generalize (uc / 4096). by_evaluation 16.
  - rewrite !Z.shiftr_div_pow2 by lia. change (2 ^ 6) with 64. rewrite !cont_byte by zlia.
    replace (uc / 64 / 64 / 64) with (uc / 262144) by (rewrite !Z.div_div by lia; done).
    replace (uc / 64 / 64) with (uc / 4096) by (rewrite Z.div_div by lia; done). f_equal.
    assert (Hr : 0 <= uc / 262144 < 8) by zlia. revert Hr. generalize (uc / 262144). by_evaluation 8.
Qed.

Lemma utf8_good uc : 0 < uc < 1114112 -> bytes (utf8 uc) /\ Forall (fun x => x <> 0) (utf8 uc) /\ length (utf8 uc) = utf8_len uc.
Proof.
  intros Hu. unfold utf8, utf8_len. repeat case_decide; try lia;
    rewrite !Forall_cons, !Forall_nil; unfold is_byte; split_and!; try done; zlia.
Qed.

Lemma utf8_len_le uc : (1 <= utf8_len uc <= 4)%nat /\ (uc < 65536 -> (utf8_len uc <= 3)%nat).
Proof. unfold utf8_len. repeat case_decide; lia. Qed.

Section strings.
Context `{A : Allocator}.

(** One byte in the middle of a block. *)
Lemma wp_put_mid out l x r b off (Q : () -> mem -> trace -> Prop) m t :
  blocks m !! out = Some (BChars (l ++ x :: r)) -> off = Z.of_nat (length l) -> wf m ->
  (forall m', blocks m' = <[out := BChars (l ++ b :: r)]> (blocks m) -> brk m' = brk m -> wf m' -> Q () m' t) ->
  wp (put_bytes out off [b]) Q m t.
Proof.
  intros Ho -> Hm HQ. unfold wp, put_bytes. rewrite Ho. rewrite decide_True by (rewrite length_app; simpl; lia).
  rewrite Nat2Z.id, take_app_length. replace (drop (length l + length [b]) (l ++ x :: r)) with r
    by (rewrite <- drop_drop, drop_app_length; done).
  apply HQ; [done|done|]. apply wf_insert; [done|by eexists].
Qed.

Lemma wp_put_utf8 len : forall out w x tail uc mark q (Q : () -> pmem -> trace -> Prop) st t,
  blocks (heap st) !! out = Some (BChars (w ++ x ++ tail)) -> length x = len -> q = Z.of_nat (length w + len) -> wf (heap st) ->
  (forall m', blocks m' = <[out := BChars (w ++ enc len uc mark ++ tail)]> (blocks (heap st)) ->
    brk m' = brk (heap st) -> wf m' -> Q () (mkP m' (ep st)) t) ->
  wp (put_utf8 len out q uc mark) Q st t.
Proof.
  induction len as [|[|len] IH]; intros out w x tail uc mark q Q [m e] t Ho Hx -> Hw HQ; cbn [heap ep] in *.
  - destruct x; [|done]. cbn [put_utf8]. wp_step. apply HQ; try done. cbn [enc app] in *. by rewrite insert_id.
  - destruct x as [|y [|? ?]]; try done. cbn [put_utf8]. apply wp_lift. cbn [heap].
    eapply (wp_put_mid _ w y tail); [done|lia|done|]. done.
  - cbn [put_utf8]. destruct (exists_last (l := x)) as (x' & y & ->); [by intros ->|].
    rewrite length_app in Hx. simpl in Hx. wp_step. apply wp_lift. cbn [heap].
    eapply (wp_put_mid _ (w ++ x') y tail);
      [rewrite Ho; by rewrite <- !(assoc_L app)|rewrite length_app; lia|done|].
    intros m1 Hm1 Hb1 Hw1. cbn [ep].
    eapply (IH out w x' (u8 (Z.land (Z.lor uc 128) 191) :: tail)); cbn [heap ep]; [|lia|lia|done|].
    + by rewrite Hm1, lookup_insert_eq, <- (assoc_L app).
    + intros m2 Hm2 Hb2 Hw2. apply HQ; [|congruence|done]. rewrite Hm2, Hm1, insert_insert_eq.
      change (enc (S (S len)) uc mark) with (enc (S len) (Z.shiftr uc 6) mark ++ [u8 (Z.land (Z.lor uc 128) 191)]).
      by rewrite <- (assoc_L app).
Qed.

Lemma json_digit_range c d : hex_digit c = Some d -> 0 <= d < 16 /\ c <> 34 /\ c <> 92 /\ c <> 0.
Proof. unfold hex_digit. repeat case_decide; intros ?; simplify_eq; lia. Qed.

Lemma hex4_range a b c d v : hex4 a b c d = Some v -> 0 <= v < 65536.
Proof.
  unfold hex4. intros H. destruct (hex_digit a) as [x|] eqn:Ea, (hex_digit b) as [y|] eqn:Eb, (hex_digit c) as [z|] eqn:Ec,
    (hex_digit d) as [w|] eqn:Ed; simpl in H; simplify_eq.
  apply json_digit_range in Ea, Eb, Ec, Ed. lia.
Qed.

Lemma hex4_chars a b c d v : hex4 a b c d = Some v -> Forall (fun x => x <> 34 /\ x <> 92 /\ x <> 0) [a; b; c; d].
Proof.
  unfold hex4. intros H. destruct (hex_digit a) as [x|] eqn:Ea, (hex_digit b) as [y|] eqn:Eb, (hex_digit c) as [z|] eqn:Ec,
    (hex_digit d) as [w|] eqn:Ed; simpl in H; simplify_eq.
  apply json_digit_range in Ea, Eb, Ec, Ed. repeat constructor; tauto.
Qed.

Lemma wp_parse_hex4 txt p a b c d v l (Q : Z -> pmem -> trace -> Prop) st t :
  sfx txt p (a :: b :: c :: d :: l) -> hex4 a b c d = Some v -> Q v st t -> wp (parse_hex4 txt p) Q st t.
Proof.
  intros Hs H HQ. unfold hex4 in H. destruct (hex_digit a) as [x|] eqn:Ea, (hex_digit b) as [y|] eqn:Eb, (hex_digit c) as [z|] eqn:Ec,
    (hex_digit d) as [w|] eqn:Ed; simpl in H; simplify_eq.
  pose proof (json_digit_range _ _ Ea). pose proof (json_digit_range _ _ Eb). pose proof (json_digit_range _ _ Ec). pose proof (json_digit_range _ _ Ed).
  unfold parse_hex4. cbn [hex_digits].
  wp_step. eapply wp_rd; [exact Hs|]. rewrite Ea. apply sfx_cons in Hs.
  wp_step. eapply wp_rd; [exact Hs|]. rewrite Eb. apply sfx_cons in Hs.
  wp_step. eapply wp_rd; [exact Hs|]. rewrite Ec. apply sfx_cons in Hs.
  wp_step. eapply wp_rd; [exact Hs|]. rewrite Ed. wp_step.
  rewrite !Z.shiftl_mul_pow2 by lia. change (2 ^ 4) with 16.
  match goal with |- Q ?v _ _ => replace v with (((x * 16 + y) * 16 + z) * 16 + w) end; [done|].
  unfold u32. rewrite (Z.mod_small (0 + x)) by lia. rewrite (Z.mod_small ((0 + x) * 16)) by lia.
  rewrite (Z.mod_small ((0 + x) * 16 + y)) by lia. rewrite (Z.mod_small (((0 + x) * 16 + y) * 16)) by lia.
  rewrite (Z.mod_small (((0 + x) * 16 + y) * 16 + z)) by lia. rewrite (Z.mod_small ((((0 + x) * 16 + y) * 16 + z) * 16)) by lia.
  rewrite Z.mod_small by lia. lia.
Qed.

(** The surrogate pair of the code and of UTF-16. *)
Lemma pair_value hi lo : 55296 <= hi <= 56319 -> 56320 <= lo <= 57343 ->
  65536 + Z.lor (Z.shiftl (Z.land hi 1023) 10) (Z.land lo 1023) = 65536 + (hi - 55296) * 1024 + (lo - 56320).
Proof.
  intros Hh Hl. change 1023 with (Z.ones 10). rewrite !Z.land_ones, Z.shiftl_mul_pow2 by lia. change (2 ^ 10) with 1024.
  assert (Hd : Z.land (hi mod 1024 * 1024) (lo mod 1024) = 0).
  { apply Z.bits_inj'. intros n Hn. rewrite Z.land_spec, Z.bits_0. change 1024 with (2 ^ 10). rewrite <- Z.shiftl_mul_pow2 by lia.
    destruct (decide (n < 10)).
    - rewrite Z.shiftl_spec_low by lia. done.
    - rewrite andb_comm, Z.mod_pow2_bits_high by lia. done. }
  pose proof (Z.add_lor_land (hi mod 1024 * 1024) (lo mod 1024)) as Hp. rewrite Hd in Hp.
  zlia.
Qed.
End strings.

Section string_values.
Context `{A : Allocator}.

Lemma wp_len_plain txt fuel p c l len (Q : Z -> pmem -> trace -> Prop) st t :
  sfx txt p (c :: l) -> c <> 34 -> c <> 92 -> c <> 0 -> 0 <= len < 2147483647 ->
  wp (string_len txt fuel (p + 1) (len + 1)) Q st t -> wp (string_len txt (S fuel) p len) Q st t.
Proof.
  intros Hs H1 H2 H3 Hl HQ. cbn [string_len]. wp_step. eapply wp_rd; [exact Hs|]. wp_if as [_|?]; [|lia].
  cbv zeta. rewrite s32_id by lia. rewrite decide_False by lia. by rewrite decide_False.
Qed.

Lemma wp_len_escape txt fuel p l len (Q : Z -> pmem -> trace -> Prop) st t :
  sfx txt p (92 :: l) -> 0 <= len < 2147483647 ->
  wp (string_len txt fuel (p + 2) (len + 1)) Q st t -> wp (string_len txt (S fuel) p len) Q st t.
Proof.
  intros Hs Hl HQ. cbn [string_len]. wp_step. eapply wp_rd; [exact Hs|]. wp_if as [_|?]; [|lia].
  cbv zeta. rewrite s32_id by lia. rewrite decide_False by lia. by rewrite decide_True.
Qed.

(** Four hexadecimal digits are counted one by one. *)
Lemma wp_len_hex txt fuel p a b c d v l len (Q : Z -> pmem -> trace -> Prop) st t :
  sfx txt p (92 :: 117 :: a :: b :: c :: d :: l) -> hex4 a b c d = Some v -> 0 <= len -> len + 5 < 2147483647 ->
  wp (string_len txt fuel (p + 6) (len + 5)) Q st t -> wp (string_len txt (5 + fuel) p len) Q st t.
Proof.
  intros Hs H4 Hl0 Hl HQ. apply hex4_chars in H4. rewrite !Forall_cons in H4. destruct H4 as (Ha & Hb & Hc & Hd & _).
  apply (wp_len_escape txt (4 + fuel) p (117 :: a :: b :: c :: d :: l)); [done|lia|].
  apply (sfx_app txt p [92; 117]) in Hs. replace (p + Z.of_nat (length [92; 117])) with (p + 2) in Hs by (simpl; lia).
  eapply (wp_len_plain txt (3 + fuel)); [exact Hs|tauto|tauto|tauto|lia|]. apply sfx_cons in Hs.
  eapply (wp_len_plain txt (2 + fuel)); [exact Hs|tauto|tauto|tauto|lia|]. apply sfx_cons in Hs.
  eapply (wp_len_plain txt (1 + fuel)); [exact Hs|tauto|tauto|tauto|lia|]. apply sfx_cons in Hs.
  eapply (wp_len_plain txt fuel); [exact Hs|tauto|tauto|tauto|lia|].
  by replace (p + 2 + 1 + 1 + 1 + 1) with (p + 6) by lia; replace (len + 1 + 1 + 1 + 1 + 1) with (len + 5) by lia.
Qed.

Lemma wp_string_len txt s u : chars_of s u -> forall fuel p l len (Q : Z -> pmem -> trace -> Prop) st t,
  sfx txt p (u ++ 34 :: l) -> (length u < fuel)%nat -> 0 <= len -> len + Z.of_nat (length u) < 2147483647 ->
  (forall k : nat, (length s <= k <= length u)%nat -> Q (len + Z.of_nat k) st t) ->
  wp (string_len txt fuel p len) Q st t.
Proof.
  induction 1 as [|c s u Hc H0 H34 H92 Hr IH|e x s u He Hr IH|a b c d uc s u H4 Hne Hsur Hr IH|
    a b c d a' b' c' d' hi lo s u H4 H4' Hhi Hlo Hr IH];
    intros fuel p l len Q st t Hs Hf Hl0 Hl HQ; cbn [app length] in *.
  - destruct fuel as [|fuel]; [lia|]. cbn [string_len]. wp_step. eapply wp_rd; [exact Hs|].
    wp_if as [?|_]; [lia|]. wp_step. specialize (HQ 0%nat ltac:(lia)). by rewrite Z.add_0_r in HQ.
  - destruct fuel as [|fuel]; [lia|]. eapply wp_len_plain; [exact Hs|done|done|done|lia|].
    apply sfx_cons in Hs. eapply IH; [exact Hs|lia|lia|lia|].
    intros k Hk. specialize (HQ (S k) ltac:(lia)). by replace (len + 1 + Z.of_nat k) with (len + Z.of_nat (S k)) by lia.
  - destruct fuel as [|fuel]; [lia|]. eapply wp_len_escape; [exact Hs|lia|].
    apply (sfx_app txt p [92; e]) in Hs. replace (p + Z.of_nat (length [92; e])) with (p + 2) in Hs by (simpl; lia).
    eapply IH; [exact Hs|lia|lia|lia|].
    intros k Hk. specialize (HQ (S k) ltac:(lia)). by replace (len + 1 + Z.of_nat k) with (len + Z.of_nat (S k)) by lia.
  - do 5 (destruct fuel as [|fuel]; [lia|]). eapply (wp_len_hex txt fuel); [exact Hs|done|lia|lia|].
    apply (sfx_app txt p [92; 117; a; b; c; d]) in Hs.
    replace (p + Z.of_nat (length [92; 117; a; b; c; d])) with (p + 6) in Hs by (simpl; lia).
    pose proof (hex4_range _ _ _ _ _ H4). pose proof (utf8_len_le uc).
    destruct (utf8_good uc) as (_ & _ & Hlen); [lia|]. rewrite length_app, Hlen in HQ.
    eapply IH; [exact Hs|lia|lia|lia|].
    intros k Hk. specialize (HQ (5 + k)%nat ltac:(lia)).
    by replace (len + 5 + Z.of_nat k) with (len + Z.of_nat (5 + k)) by lia.
  - do 10 (destruct fuel as [|fuel]; [lia|]). eapply (wp_len_hex txt (5 + fuel)); [exact Hs|done|lia|lia|].
    apply (sfx_app txt p [92; 117; a; b; c; d]) in Hs.
    replace (p + Z.of_nat (length [92; 117; a; b; c; d])) with (p + 6) in Hs by (simpl; lia).
    eapply (wp_len_hex txt fuel); [exact Hs|done|lia|lia|].
    apply (sfx_app txt _ [92; 117; a'; b'; c'; d']) in Hs.
    replace (p + 6 + Z.of_nat (length [92; 117; a'; b'; c'; d'])) with (p + 6 + 6) in Hs by (simpl; lia).
    set (uc := 65536 + (hi - 55296) * 1024 + (lo - 56320)) in *. pose proof (utf8_len_le uc).
    destruct (utf8_good uc) as (_ & _ & Hlen); [unfold uc; lia|]. rewrite length_app, Hlen in HQ.
    eapply IH; [exact Hs|lia|lia|lia|].
    intros k Hk. specialize (HQ (10 + k)%nat ltac:(lia)).
    by replace (len + 5 + 5 + Z.of_nat k) with (len + Z.of_nat (10 + k)) by lia.
Qed.

(** The end of the case of [u]. *)
Lemma wp_unescape_u out ptr x tail w uc st t (Q : Z * Z -> pmem -> trace -> Prop) :
  0 < uc < 1114112 -> length x = utf8_len uc -> wf (heap st) ->
  blocks (heap st) !! out = Some (BChars (w ++ x ++ tail)) ->
  (forall m', blocks m' = <[out := BChars ((w ++ utf8 uc) ++ tail)]> (blocks (heap st)) -> brk m' = brk (heap st) -> wf m' ->
    Q (ptr, Z.of_nat (length (w ++ utf8 uc))) (mkP m' (ep st)) t) ->
  wp (put_utf8 (utf8_len uc) out (Z.of_nat (length w) + Z.of_nat (utf8_len uc)) uc (firstByteMark (utf8_len uc));;
      mret (ptr, Z.of_nat (length w) + Z.of_nat (utf8_len uc))) Q st t.
Proof.
  intros Hu Hx Hw Ho HQ. destruct (utf8_good uc Hu) as (_ & _ & Hlen). wp_step.
  eapply wp_put_utf8; [exact Ho|done|lia|done|]. intros m' Hm Hb Hw'. rewrite enc_utf8 in Hm by lia. wp_step.
  rewrite length_app, Hlen, Nat2Z.inj_add in HQ. apply HQ; [|done|done]. by rewrite Hm, <- (assoc_L app).
Qed.

(** A tail that has room, split. *)
Lemma split_room (tail : list Z) n : (n <= length tail)%nat -> exists x r, tail = x ++ r /\ length x = n /\ length r = (length tail - n)%nat.
Proof.
  intros H. exists (take n tail), (drop n tail). rewrite take_drop, length_take, length_drop. split_and!; [done|lia|done].
Qed.
End string_values.

Section string_copies.
Context `{A : Allocator}.

Lemma chars_of_good s u : chars_of s u -> bytes s /\ Forall (fun x => x <> 0) s.
Proof.
  induction 1 as [|c s u Hc H0 H34 H92 Hr IH|e x s u He Hr IH|a b c d uc s u H4 Hne Hsur Hr IH|
    a b c d a' b' c' d' hi lo s u H4 H4' Hhi Hlo Hr IH].
  - split; constructor.
  - rewrite !Forall_cons. tauto.
  - assert (Hx : is_byte x /\ x <> 0) by (unfold short_escape in He; unfold is_byte; repeat case_decide; simplify_eq; lia).
    rewrite !Forall_cons. tauto.
  - pose proof (hex4_range _ _ _ _ _ H4). destruct (utf8_good uc) as (? & ? & _); [lia|].
    rewrite !Forall_app. tauto.
  - destruct (utf8_good (65536 + (hi - 55296) * 1024 + (lo - 56320))) as (? & ? & _); [lia|].
    rewrite !Forall_app. tauto.
Qed.

(** Copying the text [u] of [s]. *)
Definition copies (txt s u : list Z) : Prop := forall fuel out p l w tail (Q : Z * Z -> pmem -> trace -> Prop) st t,
  sfx txt p (u ++ 34 :: l) -> (length u < fuel)%nat -> wf (heap st) ->
  blocks (heap st) !! out = Some (BChars (w ++ tail)) -> (length s <= length tail)%nat ->
  (forall m' tail', (length tail' + length s = length tail)%nat ->
    blocks m' = <[out := BChars ((w ++ s) ++ tail')]> (blocks (heap st)) -> brk m' = brk (heap st) -> wf m' ->
    Q (p + Z.of_nat (length u), Z.of_nat (length (w ++ s))) (mkP m' (ep st)) t) ->
  wp (copy_loop txt fuel out p (Z.of_nat (length w))) Q st t.

Lemma copies_nil txt : copies txt [] [].
Proof.
  intros [|fuel] out p l w tail Q st t Hs Hf Hw Ho Hroom HQ; cbn [app length] in *; try lia; cbn [copy_loop].
  wp_step. eapply wp_rd; [exact Hs|]. wp_if as [?|_]; [lia|]. wp_step.
  specialize (HQ (heap st) tail ltac:(lia)). rewrite app_nil_r in HQ. rewrite Z.add_0_r in HQ.
  destruct st as [m0 e0]. apply HQ; try done. simpl in Ho |- *. by rewrite insert_id.
Qed.

Lemma copies_plain txt c s u : c <> 0 -> c <> 34 -> c <> 92 -> copies txt s u -> copies txt (c :: s) (c :: u).
Proof.
  intros H0 H34 H92 IH [|fuel] out p l w tail Q st t Hs Hf Hw Ho Hroom HQ; cbn [app length] in *; try lia; cbn [copy_loop].
  wp_step. eapply wp_rd; [exact Hs|]. wp_if as [_|?]; [|lia]. rewrite decide_True by done.
  apply sfx_cons in Hs. wp_step. apply wp_lift. eapply (wp_put' out w tail [c]); [done|done|simpl; lia|done|].
  intros tail1 m1 Hl1 Hm1 Hb1 Hw1. simpl in Hl1.
  replace (Z.of_nat (length w) + 1) with (Z.of_nat (length (w ++ [c]))) by (rewrite length_app; simpl; lia).
  eapply (IH fuel out (p + 1) l (w ++ [c]) tail1); [exact Hs|lia|done|cbn [heap]; by rewrite Hm1, lookup_insert_eq|lia|].
  cbn [heap ep]. intros m' tail' Hl' Hm' Hb' Hw'. rewrite Hm1, insert_insert_eq in Hm'.
  rewrite <- !(assoc_L app) in Hm' |- *. cbn [app] in *. 
  replace (p + 1 + Z.of_nat (length u)) with (p + Z.of_nat (S (length u))) by lia.
  apply (HQ m' tail'); [lia|by rewrite Hm', <- !(assoc_L app)|congruence|done].
Qed.

Lemma copies_short txt e x s u : short_escape e = Some x -> copies txt s u -> copies txt (x :: s) (92 :: e :: u).
Proof.
  intros He IH [|fuel] out p l w tail Q st t Hs Hf Hw Ho Hroom HQ; cbn [app length] in *; try lia; cbn [copy_loop].
  wp_step. eapply wp_rd; [exact Hs|]. wp_if as [_|?]; [|lia]. rewrite decide_False by lia.
  apply sfx_cons in Hs. wp_step. unfold unescape. wp_step. eapply wp_rd; [exact Hs|].
  assert (He' : e <> 117 /\ (if decide (e = 98) then 8 else if decide (e = 102) then 12 else if decide (e = 110) then 10
           else if decide (e = 114) then 13 else if decide (e = 116) then 9 else e) = x).
  { unfold short_escape in He. repeat case_decide; simplify_eq; split; lia. }
  destruct He' as [He1 He2]. rewrite decide_False by done. cbv zeta. rewrite He2. apply sfx_cons in Hs.
  wp_step. apply wp_lift. eapply (wp_put' out w tail [x]); [done|done|simpl; lia|done|].
  intros tail1 m1 Hl1 Hm1 Hb1 Hw1. simpl in Hl1. wp_step. cbv iota beta.
  replace (Z.of_nat (length w) + 1) with (Z.of_nat (length (w ++ [x]))) by (rewrite length_app; simpl; lia).
  eapply (IH fuel out (p + 1 + 1) l (w ++ [x]) tail1); [exact Hs|lia|done|cbn [heap]; by rewrite Hm1, lookup_insert_eq|lia|].
  cbn [heap ep]. intros m' tail' Hl' Hm' Hb' Hw'. rewrite Hm1, insert_insert_eq in Hm'.
  rewrite <- !(assoc_L app) in Hm' |- *. cbn [app] in *.
  replace (p + 1 + 1 + Z.of_nat (length u)) with (p + Z.of_nat (S (S (length u)))) by lia.
  apply (HQ m' tail'); [lia|by rewrite Hm', <- !(assoc_L app)|congruence|done].
Qed.

Lemma copies_u txt a b c d uc s u : hex4 a b c d = Some uc -> uc <> 0 -> ~ 55296 <= uc <= 57343 -> copies txt s u ->
  copies txt (utf8 uc ++ s) (92 :: 117 :: a :: b :: c :: d :: u).
Proof.
  intros H4 Hne Hsur IH [|fuel] out p l w tail Q st t Hs Hf Hw Ho Hroom HQ; cbn [app length] in *; try lia; cbn [copy_loop].
  pose proof (hex4_range _ _ _ _ _ H4) as Hr4. destruct (utf8_good uc) as (_ & _ & Hlen); [lia|].
  rewrite length_app, Hlen in Hroom, HQ.
  destruct (split_room tail (utf8_len uc)) as (x & r & -> & Hx & _); [lia|]. rewrite length_app in Hroom.
  wp_step. eapply wp_rd; [exact Hs|]. wp_if as [_|?]; [|lia]. rewrite decide_False by lia.
  apply sfx_cons in Hs. wp_step. unfold unescape. wp_step. eapply wp_rd; [exact Hs|]. rewrite decide_True by done.
  apply sfx_cons in Hs. unfold unescape_u. wp_step. eapply wp_parse_hex4; [exact Hs|done|]. cbv zeta.
  wp_if as [?|_]; [lia|]. wp_step. wp_if as [?|_]; [lia|]. wp_step. cbv iota beta zeta.
  eapply (wp_unescape_u out _ x r w uc); [lia|done|done|done|]. intros m1 Hm1 Hb1 Hw1. cbv iota beta.
  apply (sfx_app txt _ [a; b; c; d]) in Hs.
  eapply (IH fuel out _ l (w ++ utf8 uc) r); [|lia|done|cbn [heap]; by rewrite Hm1, lookup_insert_eq|lia|].
  { replace (p + 1 + 4 + 1) with (p + 1 + 1 + Z.of_nat (length [a; b; c; d])) by (simpl; lia). exact Hs. }
  cbn [heap ep]. intros m' tail' Hl' Hm' Hb' Hw'. rewrite Hm1, insert_insert_eq in Hm'.
  rewrite <- !(assoc_L app) in Hm' |- *.
  replace (p + 1 + 4 + 1 + Z.of_nat (length u)) with (p + Z.of_nat (S (S (S (S (S (S (length u)))))))) by lia.
  apply (HQ m' tail'); [rewrite length_app; lia|by rewrite Hm', <- !(assoc_L app)|congruence|done].
Qed.

Lemma copies_pair txt a b c d a' b' c' d' hi lo s u :
  hex4 a b c d = Some hi -> hex4 a' b' c' d' = Some lo -> 55296 <= hi <= 56319 -> 56320 <= lo <= 57343 -> copies txt s u ->
  copies txt (utf8 (65536 + (hi - 55296) * 1024 + (lo - 56320)) ++ s)
    (92 :: 117 :: a :: b :: c :: d :: 92 :: 117 :: a' :: b' :: c' :: d' :: u).
Proof.
  intros H4 H4' Hhi Hlo IH [|fuel] out p l w tail Q st t Hs Hf Hw Ho Hroom HQ; cbn [app length] in *; try lia; cbn [copy_loop].
  set (uc := 65536 + (hi - 55296) * 1024 + (lo - 56320)) in *.
  assert (Hu : 65536 <= uc < 1114112) by (unfold uc; lia). destruct (utf8_good uc) as (_ & _ & Hlen); [lia|].
  rewrite length_app, Hlen in Hroom, HQ.
  destruct (split_room tail (utf8_len uc)) as (x & r & -> & Hx & _); [lia|]. rewrite length_app in Hroom.
  wp_step. eapply wp_rd; [exact Hs|]. wp_if as [_|?]; [|lia]. rewrite decide_False by lia.
  apply sfx_cons in Hs. wp_step. unfold unescape. wp_step. eapply wp_rd; [exact Hs|]. rewrite decide_True by done.
  apply sfx_cons in Hs. unfold unescape_u. wp_step. eapply wp_parse_hex4; [exact Hs|done|]. cbv zeta.
  wp_if as [?|_]; [lia|]. wp_step. wp_if as [_|?]; [|lia].
  apply (sfx_app txt _ [a; b; c; d]) in Hs.
  replace (p + 1 + 1 + Z.of_nat (length [a; b; c; d])) with (p + 1 + 4 + 1) in Hs by (simpl; lia).
  wp_step. eapply wp_rd; [exact Hs|]. rewrite decide_False by lia. apply sfx_cons in Hs.
  wp_step. eapply wp_rd; [replace (p + 1 + 4 + 2) with (p + 1 + 4 + 1 + 1) by lia; exact Hs|]. rewrite decide_False by lia.
  apply sfx_cons in Hs. wp_step.
  eapply wp_parse_hex4; [replace (p + 1 + 4 + 3) with (p + 1 + 4 + 1 + 1 + 1) by lia; exact Hs|done|].
  cbv zeta. rewrite decide_False by lia. wp_step. rewrite pair_value by done. fold uc. cbv iota beta zeta.
  eapply (wp_unescape_u out _ x r w uc); [lia|done|done|done|]. intros m1 Hm1 Hb1 Hw1. cbv iota beta.
  apply (sfx_app txt _ [a'; b'; c'; d']) in Hs.
  eapply (IH fuel out _ l (w ++ utf8 uc) r); [|lia|done|cbn [heap]; by rewrite Hm1, lookup_insert_eq|lia|].
  { replace (p + 1 + 4 + 6 + 1) with (p + 1 + 4 + 1 + 1 + 1 + Z.of_nat (length [a'; b'; c'; d'])) by (simpl; lia). exact Hs. }
  cbn [heap ep]. intros m' tail' Hl' Hm' Hb' Hw'. rewrite Hm1, insert_insert_eq in Hm'.
  rewrite <- !(assoc_L app) in Hm' |- *.
  match goal with |- Q (?z, _) _ _ => match type of HQ with forall m' tail', _ -> _ -> _ -> _ -> Q (?y, _) _ _ => replace z with y by lia end end.
  apply (HQ m' tail'); [rewrite length_app; lia|by rewrite Hm', <- !(assoc_L app)|congruence|done].
Qed.

Lemma wp_copy_loop txt s u : chars_of s u -> copies txt s u.
Proof.
  induction 1; [apply copies_nil|by apply copies_plain|by apply copies_short|by apply copies_u|by apply copies_pair].
Qed.
End string_copies.

(** ** Blocks that are added *)

(** From [m] to [m'] the blocks [fp] are new; beside them only [item] has changed. *)
Record grew (item : addr) (fp : list Z) (m m' : mem) : Prop := {
  g_wf : wf m';
  g_brk : brk m <= brk m';
  g_nodup : NoDup fp;
  g_fresh : forall a, a ∈ fp -> blocks m !! a = None;
  g_other : forall a, a <> item -> a ∉ fp -> blocks m' !! a = blocks m !! a
}.

Lemma grew_upd item b m m' : wf m' -> brk m' = brk m -> blocks m' = <[item := b]> (blocks m) -> grew item [] m m'.
Proof.
  intros Hw Hb Hm. split; [done|lia|constructor|by intros a ?%elem_of_nil|]. intros a Ha _. rewrite Hm. by apply lookup_insert_ne.
Qed.

Lemma grew_refl item m : wf m -> grew item [] m m.
Proof. intros Hw. split; [done|lia|constructor|by intros a ?%elem_of_nil|done]. Qed.

(** Old blocks keep their contents. *)
Lemma grew_old item fp m m' a b : grew item fp m m' -> a <> item -> blocks m !! a = Some b -> blocks m' !! a = Some b.
Proof.
  intros Hg Ha Hb. rewrite (g_other _ _ _ _ Hg); [done|done|]. intros Hin. apply (g_fresh _ _ _ _ Hg) in Hin. congruence.
Qed.

(** Growing at [item], then at [item] or at a block that was added. *)
Lemma grew_trans item x fp1 fp2 m1 m2 m3 : x = item \/ x ∈ fp1 -> is_Some (blocks m2 !! item) ->
  (forall a, a ∈ fp1 -> is_Some (blocks m2 !! a)) ->
  grew item fp1 m1 m2 -> grew x fp2 m2 m3 -> grew item (fp1 ++ fp2) m1 m3.
Proof.
  intros Hx Hi Hd [W1 B1 N1 F1 O1] [W2 B2 N2 F2 O2].
  assert (Hold : forall a, is_Some (blocks m2 !! a) -> a ∉ fp2).
  { intros a [b Hb] Ha. specialize (F2 a Ha). congruence. }
  split; [done|lia| | |].
  - apply NoDup_app. split_and!; [done| |done]. intros a Ha. auto.
  - intros a [Ha|Ha]%elem_of_app; [auto|]. destruct (decide (a ∈ fp1)) as [?|Hn]; [auto|].
    rewrite <- O1; [auto| |done]. intros ->. by apply (Hold item).
  - intros a Hne [H1 H2]%not_elem_of_app. rewrite O2, O1; [done|done|done| |done]. intros ->. by destruct Hx.
Qed.

(** ** Fresh nodes *)

(** A node with nothing in it but its links and name. *)
Definition blank (c : cJSON) : Prop :=
  child c = 0 /\ valuestring c = 0 /\ Z.land (type c) cJSON_IsReference = 0 /\ Z.land (type c) cJSON_StringIsConst = 0.

Lemma owns_blank h c : blank c -> owns h c [].
Proof.
  intros (Hc & Hv & Hr & Hs). split_and!; [done|done|]. exists [], []. rewrite Hc, Hv. split_and!; [done|constructor|done].
Qed.

(** [c'] has the links and the name of [c]. *)
Definition same_links (c c' : cJSON) : Prop := next c' = next c /\ prev c' = prev c /\ string_ c' = string_ c.

Section parse_strings.
Context `{A : Allocator}.

Lemma wp_new_item (Q : addr -> pmem -> trace -> Prop) st t : wf (heap st) ->
  (forall m', blocks m' = blocks (heap st) -> brk m' = brk (heap st) + 1 -> wf m' -> refused -> Q 0 (mkP m' (ep st)) t) ->
  (forall n m', n <> 0 -> blocks (heap st) !! n = None -> blocks m' = <[n := BNode cJSON_zero]> (blocks (heap st)) ->
    brk m' = brk (heap st) + 1 -> wf m' -> Q n (mkP m' (ep st)) t) ->
  wp (lift cJSON_New_Item) Q st t.
Proof.
  intros Hw Hno Hyes. apply wp_lift, wp_malloc_as; [done| |].
  - intros m' Hm Hb Hw' Hr. by apply Hno.
  - intros l m' _ Hm Hb Hw' Hne Hfr. by apply (Hyes (brk (heap st)) m').
Qed.

(** The outcome of [parse_string] on the text of [s]. *)
Definition string_read (item : addr) (c0 : cJSON) (s : list Z) (q : Z) (st : pmem) (r : option Z) (st' : pmem) : Prop :=
  ep st' = ep st /\
  ((r = None /\ refused /\ blocks (heap st') = blocks (heap st) /\ wf (heap st') /\ brk (heap st) <= brk (heap st')) \/
   (r = Some q /\ exists out junk, out <> 0 /\ out <> item /\ grew item [out] (heap st) (heap st') /\
     blocks (heap st') !! item = Some (BNode (set_type cJSON_String (set_valuestring out c0))) /\
     blocks (heap st') !! out = Some (BChars (s ++ 0 :: junk)))).

Lemma wp_parse_string txt s u p l item c0 st t :
  chars_of s u -> sfx txt p (34 :: u ++ 34 :: l) -> l <> [] -> Z.of_nat (length txt) < 2147483647 ->
  wf (heap st) -> blocks (heap st) !! item = Some (BNode c0) ->
  wp (parse_string txt item p) (fun r st' t' => t' = t /\ string_read item c0 s (p + Z.of_nat (length u) + 2) st r st') st t.
Proof.
  intros Hu Hs Hl Htxt Hw Hi. pose proof (sfx_length _ _ _ Hs) as Hlen. simpl in Hlen. rewrite length_app in Hlen. simpl in Hlen.
  unfold parse_string, cJSON_malloc. wp_step. eapply wp_rd; [exact Hs|]. rewrite decide_False by lia. apply sfx_cons in Hs.
  wp_step. eapply wp_string_len; [done|exact Hs|lia|lia|lia|]. intros k Hk. rewrite Z.add_0_l.
  wp_step. apply wp_lift, wp_malloc_as; [done| |].
  { intros m' Hm Hb Hw' Hr. rewrite decide_True by done. wp_step. split; [done|]. split; [done|]. left. cbn [heap].
    split_and!; [done|done|done|done|lia]. }
  intros b m1 Hlb Hm1 Hb1 Hw1 Hne Hfr. rewrite decide_False by done. set (out := brk (heap st)) in *.
  assert (Hbl : length b = S k) by (rewrite Hlb; unfold u32; rewrite Z.mod_small by lia; lia).
  wp_step. eapply (wp_copy_loop txt s u Hu _ out _ l [] b); [exact Hs|lia|done|cbn [heap]; by rewrite Hm1, lookup_insert_eq|lia|].
  cbn [heap ep app]. intros m2 tail Htl Hm2 Hb2 Hw2. cbv iota beta. rewrite Hm1, insert_insert_eq in Hm2.
  wp_step. apply wp_lift. eapply (wp_put' out s tail [0]); [cbn [heap]; by rewrite Hm2, lookup_insert_eq|done|simpl; lia|done|].
  cbn [heap ep]. intros tail3 m3 Htl3 Hm3 Hb3 Hw3. rewrite Hm2, insert_insert_eq in Hm3.
  apply (sfx_app txt _ u (34 :: l)) in Hs. wp_step. eapply wp_rd; [exact Hs|]. rewrite decide_True by done. cbv zeta.
  assert (Hio : item <> out) by (intros ->; congruence).
  wp_step. apply wp_lift. eapply wp_upd_node; [cbn [heap]; by rewrite Hm3, lookup_insert_ne|done|].
  cbn [heap ep]. intros m4 Hm4 Hb4 Hw4. wp_step. split; [done|]. split; [done|]. right. split; [f_equal; lia|].
  exists out, tail3. cbn [heap]. split_and!; [done|done| | |].
  - split; [done|lia|apply NoDup_singleton| |].
    + intros a ->%list_elem_of_singleton. done.
    + intros a Ha Hno. rewrite list_elem_of_singleton in Hno. rewrite Hm4, lookup_insert_ne, Hm3, lookup_insert_ne by congruence. done.
  - by rewrite Hm4, lookup_insert_eq.
  - rewrite Hm4, lookup_insert_ne, Hm3, lookup_insert_eq by done. by rewrite <- (assoc_L app).
Qed.
End parse_strings.

(** ** Values *)

Lemma forest_dom h p fp : forest h p fp -> forall a, a ∈ fp -> is_Some (h !! a).
Proof.
  assert (Ho : forall a f, own_str h a f -> forall x, x ∈ f -> is_Some (h !! x)).
  { intros a f H x Hx. unfold own_str in H. case_decide as Hz; [subst; by apply elem_of_nil in Hx|].
    destruct H as [-> Ha]. by apply list_elem_of_singleton in Hx as ->. }
  induction 1 as [|p c fs fc fv fn Hp Hc Ht1 Ht2 Hs Hfc IHc Hv Hfn IHn]; intros a Ha; [by apply elem_of_nil in Ha|].
  rewrite elem_of_cons, !elem_of_app in Ha. destruct Ha as [->|[Ha|[Ha|[Ha|Ha]]]]; eauto.
Qed.

Lemma owns_dom h c fp : owns h c fp -> forall a, a ∈ fp -> is_Some (h !! a).
Proof.
  intros (_ & _ & fc & fv & -> & Hf & Hv) a [Ha|Ha]%elem_of_app; [by eapply forest_dom|].
  unfold own_str in Hv. case_decide as Hz; [subst; by apply elem_of_nil in Ha|].
  destruct Hv as [-> Hv]. by apply list_elem_of_singleton in Ha as ->.
Qed.

Lemma owns_agree h h' c c' fp : owns h c fp -> (forall a, a ∈ fp -> h' !! a = h !! a) ->
  type c' = type c -> child c' = child c -> valuestring c' = valuestring c -> owns h' c' fp.
Proof.
  intros (Hr & Hs & fc & fv & -> & Hf & Hv) Hag Ht Hc Hvs. unfold owns. rewrite Ht, Hc, Hvs. split_and!; [done|done|].
  exists fc, fv. split_and!; [done| |]; [eapply forest_agree; [done|]|eapply own_str_agree; [done|]]; set_solver.
Qed.

(** Blocks that existed are kept. *)
Lemma grew_kept item fp m m' (fp' : list Z) : grew item fp m m' -> item ∉ fp' -> (forall a, a ∈ fp' -> is_Some (blocks m !! a)) ->
  forall a, a ∈ fp' -> blocks m' !! a = blocks m !! a.
Proof.
  intros Hg Hi Hd a Ha. destruct (Hd a Ha) as [b Hb]. rewrite Hb. eapply grew_old; [done| |done]. intros ->. done.
Qed.

Section parse_values.
Context `{A : Allocator}.

(** The outcome of parsing a text of [j] into the node [item]. *)
Definition value_read (item : addr) (c0 : cJSON) (j : json) (q : Z) (st : pmem) (r : option Z) (st' : pmem) : Prop :=
  ep st' = ep st /\ exists fp c', grew item fp (heap st) (heap st') /\ blocks (heap st') !! item = Some (BNode c') /\
    same_links c0 c' /\
    ((r = Some q /\ value_at (blocks (heap st')) c' j fp) \/ (r = None /\ refused /\ owns (blocks (heap st')) c' fp)).

Definition reads (j : json) (s : list Z) : Prop := forall txt fuel p rest item c0 st t,
  sfx txt p (s ++ rest) -> stops rest -> Z.of_nat (length txt) < 2147483647 -> (length s <= fuel)%nat ->
  wf (heap st) -> blocks (heap st) !! item = Some (BNode c0) -> blank c0 ->
  wp (parse_value txt fuel item (Some p)) (fun r st' t' => t' = t /\ value_read item c0 j (p + Z.of_nat (length s)) st r st') st t.

(** [strncmp] with a word that is there, or not. *)
Lemma strncmp_there w r x : Forall (fun c => c <> 0) w -> strncmp (w ++ r) (w ++ x) (length w) = Some 0.
Proof.
  induction w as [|c w IH]; intros Hn; [done|]. apply Forall_cons in Hn as [Hc Hn]. cbn [app length strncmp].
  rewrite decide_False by lia. auto.
Qed.

Lemma wp_starts_yes txt p w l (Q : bool -> pmem -> trace -> Prop) st t :
  sfx txt p (w ++ l) -> Forall (fun c => c <> 0) w -> Q true st t -> wp (starts txt p w) Q st t.
Proof.
  intros [_ Hs] Hn HQ. unfold starts. rewrite Hs. wp_step. eapply wp_of_option; [by apply strncmp_there|]. by wp_step.
Qed.

Lemma wp_starts_no txt p c l d w (Q : bool -> pmem -> trace -> Prop) st t :
  sfx txt p (c :: l) -> c <> d -> Q false st t -> wp (starts txt p (d :: w)) Q st t.
Proof.
  intros [_ Hs] Hn HQ. unfold starts. rewrite Hs. wp_step. cbn [app length strncmp]. rewrite decide_True by lia.
  eapply wp_of_option; [done|]. wp_step. by rewrite bool_decide_eq_false_2 by lia.
Qed.

(** A node that is set to something without children or text. *)
Lemma set_value_read item c0 j q st f m' :
  blocks (heap st) !! item = Some (BNode c0) -> blocks m' = <[item := BNode (f c0)]> (blocks (heap st)) ->
  brk m' = brk (heap st) -> wf m' -> same_links c0 (f c0) -> value_at (blocks m') (f c0) j [] ->
  value_read item c0 j q st (Some q) (mkP m' (ep st)).
Proof.
  intros Hi Hm Hb Hw Hl Hv. split; [done|]. exists [], (f c0). cbn [heap]. split_and!; try done.
  - by eapply grew_upd.
  - by rewrite Hm, lookup_insert_eq.
  - by left.
Qed.

Ltac not_word Hs :=
  change (bs "null") with [110; 117; 108; 108]; change (bs "false") with [102; 97; 108; 115; 101];
  change (bs "true") with [116; 114; 117; 101]; wp_step; eapply wp_starts_no; [exact Hs|lia|]; cbv iota.

Lemma reads_null : reads JNull (bs "null").
Proof.
  intros txt [|fuel] p rest item c0 st t Hs Hr Ht Hf Hw Hi (Hc & Hv & _ & _); [simpl in Hf; lia|]. cbn [parse_value].
  wp_step. eapply wp_starts_yes; [exact Hs|by repeat constructor|]. wp_step. apply wp_lift.
  eapply wp_upd_node; [done|done|]. intros m' Hm Hb Hw'. wp_step. split; [done|].
  by apply (set_value_read item c0 JNull _ st (set_type cJSON_NULL)); try done; constructor.
Qed.

Lemma reads_false : reads JFalse (bs "false").
Proof.
  intros txt [|fuel] p rest item c0 st t Hs Hr Ht Hf Hw Hi (Hc & Hv & _ & _); [simpl in Hf; lia|]. cbn [parse_value].
  pose proof Hs as Hs0. change (bs "false") with [102; 97; 108; 115; 101] in Hs0. cbn [app] in Hs0.
  not_word Hs0. wp_step. eapply wp_starts_yes; [exact Hs|by repeat constructor|]. wp_step. apply wp_lift.
  eapply wp_upd_node; [done|done|]. intros m' Hm Hb Hw'. wp_step. split; [done|].
  by apply (set_value_read item c0 JFalse _ st (set_type cJSON_False)); try done; constructor.
Qed.

Lemma reads_true : reads JTrue (bs "true").
Proof.
  intros txt [|fuel] p rest item c0 st t Hs Hr Ht Hf Hw Hi (Hc & Hv & _ & _); [simpl in Hf; lia|]. cbn [parse_value].
  pose proof Hs as Hs0. change (bs "true") with [116; 114; 117; 101] in Hs0. cbn [app] in Hs0.
  do 2 not_word Hs0. wp_step. eapply wp_starts_yes; [exact Hs|by repeat constructor|]. wp_step. apply wp_lift.
  eapply wp_upd_node; [done|done|]. intros m' Hm Hb Hw'. wp_step. split; [done|].
  by apply (set_value_read item c0 JTrue _ st (fun x => set_valueint 1 (set_type cJSON_True x))); try done; constructor.
Qed.

Lemma reads_int z : is_int z -> reads (JInt z) (fmt_d z).
Proof.
  intros Hz txt [|fuel] p rest item c0 st t Hs Hr Ht Hf Hw Hi (Hc & Hv & _ & _).
  { assert (fmt_d z <> []); [|destruct (fmt_d z); [done|simpl in Hf; lia]]. unfold fmt_d. case_decide; [done|].
    destruct (print_nat_dec_spec z) as (_ & ? & _); [lia|done]. }
  assert (Hh : exists c l, fmt_d z = c :: l /\ (c = 45 \/ 48 <= c <= 57)).
  { unfold fmt_d. case_decide; [by do 2 eexists; split; [done|left]|].
    destruct (print_nat_dec_spec z) as (Hd & Hne & _); [lia|]. destruct (print_nat_dec z) as [|c l]; [done|].
    apply Forall_cons in Hd as [Hd _]. exists c, l. split; [done|by right]. }
  destruct Hh as (c & l & E & Hcc). pose proof Hs as Hs'. rewrite E in Hs'. simpl in Hs'. cbn [parse_value].
  do 3 not_word Hs'. wp_step. eapply wp_rd; [exact Hs'|]. rewrite decide_False by lia. rewrite decide_True by done.
  eapply wp_parse_number; [done|exact Hr|exact Hs|done|done|]. intros m' Hm Hb Hw'. split; [done|].
  apply (set_value_read item c0 (JInt z) _ st (fun x => set_type cJSON_Number (set_number (double_of_int z) x))); try done.
  constructor; try done. split_and!; [done|simpl; by apply int_of_double_of_int|done].
Qed.

Lemma reads_str s u : chars_of s u -> reads (JStr s) (34 :: u ++ [34]).
Proof.
  intros Hu txt [|fuel] p rest item c0 st t Hs Hr Ht Hf Hw Hi Hbl; [simpl in Hf; lia|]. cbn [app] in Hs.
  rewrite <- (assoc_L app) in Hs. cbn [app] in Hs. cbn [parse_value].
  do 3 not_word Hs. wp_step. eapply wp_rd; [exact Hs|]. rewrite decide_True by done.
  eapply wp_mono; [eapply wp_parse_string; [done|exact Hs|by destruct rest|done|done|done]|].
  intros r st' t' [-> [He Hor]]. split; [done|]. split; [done|].
  destruct Hor as [(-> & Href & Hm & Hw' & Hb)|(-> & out & junk & Hne & Hni & Hg & Hi' & Ho)].
  - exists [], c0. rewrite Hm. split_and!; try done; [|by right; split_and!; [done|done|by apply owns_blank]].
    split; [done|done|constructor|by intros a ?%elem_of_nil|]. intros. by rewrite Hm.
  - eexists [out], _. split_and!; try done. left. split.
    + f_equal. simpl. rewrite length_app. simpl. lia.
    + destruct (chars_of_good _ _ Hu). destruct Hbl as (Hc & _). 
      apply (va_str _ (set_type cJSON_String (set_valuestring out c0)) s junk); done.
Qed.
End parse_values.

(** ** Elements *)

Lemma says_head j t : says j t -> exists c u, t = c :: u /\ 32 < c /\ c <> 93 /\ c <> 125.
Proof.
  destruct 1 as [| | |z Hz| | | | |]; try (by do 2 eexists; split; [done|lia]); try (by do 2 eexists; split; [vm_compute; reflexivity|lia]).
  unfold fmt_d. case_decide; [by do 2 eexists; split; [done|lia]|].
  destruct (print_nat_dec_spec z) as (Hd & Hne & _); [lia|]. destruct (print_nat_dec z) as [|c l]; [done|].
  apply Forall_cons in Hd as [Hd _]. unfold is_digit in Hd. exists c, l. split; [done|lia].
Qed.

(** What is neither white space nor a closing bracket. *)
Definition opens (s : list Z) : Prop := match s with [] => False | c :: _ => 32 < c /\ c <> 93 /\ c <> 125 end.

Lemma says_dark j t r : says j t -> dark (t ++ r).
Proof. intros H. destruct (says_head _ _ H) as (c & u & -> & Hc & _). simpl. lia. Qed.

Definition closes (c : Z) : Prop := c = 44 \/ c = 93 \/ c = 125 \/ c = 0.

Lemma stops_ws w c l : ws w -> closes c -> stops (w ++ c :: l).
Proof.
  intros Hw Hc. unfold closes in Hc. destruct Hw as [|x w Hx Hw]; simpl; unfold is_digit; lia.
Qed.

Section parse_chains.
Context `{A : Allocator}.

Lemma value_read_at item c0 j q q' st r st' : q = q' -> value_read item c0 j q st r st' -> value_read item c0 j q' st r st'.
Proof. by intros ->. Qed.

(** White space, a value, white space. *)
Lemma wp_parse_elem txt fuel p w1 j u w2 c rest item c0 st t :
  reads j u -> says j u -> ws w1 -> ws w2 -> closes c -> sfx txt p (w1 ++ u ++ w2 ++ c :: rest) ->
  Z.of_nat (length txt) < 2147483647 -> (length u <= fuel)%nat ->
  wf (heap st) -> blocks (heap st) !! item = Some (BNode c0) -> blank c0 ->
  wp (parse_elem txt (parse_value txt fuel) item p)
    (fun r st' t' => t' = t /\ value_read item c0 j (p + Z.of_nat (length w1) + Z.of_nat (length u) + Z.of_nat (length w2)) st r st') st t.
Proof.
  intros Hrd Hsy Hw1 Hw2 Hc Hs Ht Hf Hw Hi Hbl. unfold parse_elem. wp_step.
  eapply (wp_skip_at txt w1 p (u ++ w2 ++ c :: rest)); [done|by eapply says_dark|exact Hs|].
  apply sfx_app in Hs. wp_step. eapply wp_mono; [eapply Hrd; [exact Hs|by apply stops_ws|done|done|done|done|done]|].
  intros r st' t' (-> & He & fp & c' & Hg & Hi' & Hl & [[-> Hv]|(-> & Href & Ho)]).
  - apply sfx_app in Hs. eapply (wp_skip txt w2 _ (c :: rest)); [done|simpl; unfold closes in Hc; lia|exact Hs|].
    split; [done|]. split; [done|]. exists fp, c'. split_and!; [done..|]. by left.
  - unfold skip. wp_step. split; [done|]. split; [done|]. exists fp, c'. split_and!; [done..|]. by right.
Qed.

(** A new node behind [cur]. *)
Lemma wp_link_new cur c1 (K : addr -> io pmem (option Z)) (Q : option Z -> pmem -> trace -> Prop) st t :
  wf (heap st) -> blocks (heap st) !! cur = Some (BNode c1) ->
  (forall m', refused -> blocks m' = blocks (heap st) -> brk (heap st) <= brk m' -> wf m' -> Q None (mkP m' (ep st)) t) ->
  (forall n m', n <> 0 -> n <> cur -> grew cur [n] (heap st) m' ->
    blocks m' !! cur = Some (BNode (set_next n c1)) -> blocks m' !! n = Some (BNode (set_prev cur cJSON_zero)) ->
    wp (K n) Q (mkP m' (ep st)) t) ->
  wp (new_item ← lift cJSON_New_Item;
      if decide (new_item = 0) then mret None else
      lift (upd_node cur (set_next new_item));; lift (upd_node new_item (set_prev cur));; K new_item) Q st t.
Proof.
  intros Hw Hc Hno Hyes. wp_step. apply wp_new_item; [done| |].
  - intros m' Hm Hb Hw' Hr. rewrite decide_True by done. wp_step. apply Hno; [done|done|lia|done].
  - intros n m1 Hne Hfr Hm1 Hb1 Hw1. rewrite decide_False by done. assert (Hnc : n <> cur) by (intros ->; congruence).
    wp_step. apply wp_lift. eapply wp_upd_node; [cbn [heap]; by rewrite Hm1, lookup_insert_ne|done|].
    cbn [heap ep]. intros m2 Hm2 Hb2 Hw2. wp_step. apply wp_lift.
    eapply wp_upd_node; [cbn [heap]; by rewrite Hm2, lookup_insert_ne, Hm1, lookup_insert_eq|done|].
    cbn [heap ep]. intros m3 Hm3 Hb3 Hw3. apply (Hyes n m3); [done|done| | |].
    + split; [done|lia|apply NoDup_singleton| |].
      * intros a ->%list_elem_of_singleton. done.
      * intros a Ha Hn. rewrite list_elem_of_singleton in Hn.
        rewrite Hm3, lookup_insert_ne, Hm2, lookup_insert_ne, Hm1, lookup_insert_ne by congruence. done.
    + by rewrite Hm3, lookup_insert_ne, Hm2, lookup_insert_eq.
    + by rewrite Hm3, lookup_insert_eq.
Qed.

Lemma blank_new p : blank (set_prev p cJSON_zero).
Proof. done. Qed.

(** The outcome of parsing the elements [l] into the node [new] and nodes behind it. *)
Definition elems_read (new : addr) (c0 : cJSON) (l : list json) (q : Z) (st : pmem) (r : option Z) (st' : pmem) : Prop :=
  ep st' = ep st /\ exists fp1 fp2 c', grew new (fp1 ++ fp2) (heap st) (heap st') /\ blocks (heap st') !! new = Some (BNode c') /\
    string_ c' = string_ c0 /\
    ((r = Some q /\ exists j l', l = j :: l' /\ value_at (blocks (heap st')) c' j fp1 /\ elems_at (blocks (heap st')) (next c') l' fp2) \/
     (r = None /\ refused /\ owns (blocks (heap st')) c' fp1 /\ forest (blocks (heap st')) (next c') fp2)).

Definition elem_chain txt f fuel new p : io pmem (option Z) :=
  value ← parse_elem txt (parse_value txt f) new p;
  match value with
  | None => mret None
  | Some value => array_loop txt (parse_value txt f) fuel new value
  end.

Definition reads_elems (l : list json) (s : list Z) : Prop := forall txt f fuel p rest new c0 st t,
  sfx txt p (s ++ rest) -> Z.of_nat (length txt) < 2147483647 -> (length s <= f)%nat -> (length s <= fuel)%nat ->
  wf (heap st) -> blocks (heap st) !! new = Some (BNode c0) -> blank c0 -> next c0 = 0 ->
  wp (elem_chain txt f fuel new p) (fun r st' t' => t' = t /\ elems_read new c0 l (p + Z.of_nat (length s)) st r st') st t.

(** The value failed: nothing behind it. *)
Lemma elems_read_failed new c0 l q st st' fp c' :
  ep st' = ep st -> next c0 = 0 -> grew new fp (heap st) (heap st') -> blocks (heap st') !! new = Some (BNode c') ->
  same_links c0 c' -> refused -> owns (blocks (heap st')) c' fp -> elems_read new c0 l q st None st'.
Proof.
  intros He Hn Hg Hi (Hl1 & _ & Hl3) Href Ho. split; [done|]. exists fp, [], c'. rewrite app_nil_r.
  split_and!; [done|done|done|]. right. rewrite Hl1, Hn. split_and!; [done|done|done|constructor].
Qed.

Lemma reads_el_last w1 j u w2 : ws w1 -> says j u -> ws w2 -> reads j u -> reads_elems [j] (w1 ++ u ++ w2 ++ [93]).
Proof.
  intros Hw1 Hsy Hw2 Hrd txt f fuel p rest new c0 st t Hs Ht Hf Hfu Hw Hi Hbl Hn.
  rewrite !length_app in *. rewrite <- !(assoc_L app) in Hs. cbn [app length] in *.
  unfold elem_chain. wp_step. eapply wp_mono; [apply (wp_parse_elem txt f p w1 j u w2 93 rest new c0); [done|done|done|done| |exact Hs|done|lia|done|done|done]|].
  { unfold closes. tauto. }
  intros r st' t' (-> & He & fp & c' & Hg & Hi' & Hl & [[-> Hv]|(-> & Href & Ho)]).
  - destruct fuel as [|fuel]; [lia|]. cbn [array_loop]. do 3 apply sfx_app in Hs.
    wp_step. eapply wp_rd; [exact Hs|]. rewrite decide_False, decide_True by lia. wp_step. split; [done|]. split; [done|].
    destruct Hl as (Hl1 & _ & Hl3). exists fp, [], c'. rewrite app_nil_r. split_and!; [done|done|done|]. left.
    split; [f_equal; lia|]. exists j, []. rewrite Hl1, Hn. split_and!; [done|done|constructor].
  - wp_step. split; [done|]. by eapply elems_read_failed.
Qed.
End parse_chains.

(** Growing at [cur], then a node [n] behind it, then growing at [n]. *)
Lemma grew_link cur n fp1 fp' m0 m1 m2 m3 b0 b1 b2 bn :
  blocks m0 !! cur = Some b0 -> grew cur fp1 m0 m1 -> (forall a, a ∈ fp1 -> is_Some (blocks m1 !! a)) ->
  blocks m1 !! cur = Some b1 -> grew cur [n] m1 m2 -> n <> cur -> blocks m2 !! cur = Some b2 -> blocks m2 !! n = Some bn ->
  grew n fp' m2 m3 ->
  grew cur (fp1 ++ n :: fp') m0 m3 /\ (forall a, a ∈ fp1 -> blocks m3 !! a = blocks m1 !! a) /\ blocks m3 !! cur = Some b2.
Proof.
  intros H0 G1 D1 H1 G2 Hn H2 Hbn G3.
  assert (Hcur : cur ∉ fp1) by (intros Hin; apply (g_fresh _ _ _ _ G1) in Hin; congruence).
  assert (Hnfr : blocks m1 !! n = None) by (apply (g_fresh _ _ _ _ G2); by apply list_elem_of_singleton).
  assert (Hnn : n ∉ fp1) by (intros Hin; destruct (D1 _ Hin); congruence).
  pose proof (grew_kept _ _ _ _ fp1 G2 Hcur D1) as K2.
  assert (D2 : forall a, a ∈ fp1 -> is_Some (blocks m2 !! a)) by (intros a Ha; rewrite K2; auto).
  pose proof (grew_kept _ _ _ _ fp1 G3 Hnn D2) as K3.
  split_and!.
  - replace (fp1 ++ n :: fp') with ((fp1 ++ [n]) ++ fp') by by rewrite <- (assoc_L app).
    apply (grew_trans cur n _ _ m0 m2 m3); [right; set_solver|by eexists| | |done].
    + intros a [Ha| ->%list_elem_of_singleton]%elem_of_app; [auto|by eexists].
    + by apply (grew_trans cur cur _ _ m0 m1 m2); [left|eexists| | |].
  - intros a Ha. by rewrite K3, K2.
  - by eapply grew_old.
Qed.

Section parse_more.
Context `{A : Allocator}.

Lemma reads_el_more w1 j u w2 l s : ws w1 -> says j u -> ws w2 -> reads j u -> reads_elems l s ->
  reads_elems (j :: l) (w1 ++ u ++ w2 ++ 44 :: s).
Proof.
  intros Hw1 Hsy Hw2 Hrd IH txt f fuel p rest new c0 st t Hs Ht Hf Hfu Hw Hi Hbl Hn.
  rewrite !length_app in *. rewrite <- !(assoc_L app) in Hs. cbn [app length] in *.
  unfold elem_chain. wp_step.
  eapply wp_mono; [apply (wp_parse_elem txt f p w1 j u w2 44 (s ++ rest) new c0); [done|done|done|done| |exact Hs|done|lia|done|done|done]|].
  { unfold closes. tauto. }
  intros r st1 t' (-> & He & fp1 & c1 & Hg & Hi1 & Hl & [[-> Hv]|(-> & Href & Ho)]).
  2: { wp_step. split; [done|]. by eapply elems_read_failed. }
  destruct fuel as [|fuel]; [lia|]. cbn [array_loop]. do 3 apply sfx_app in Hs.
  wp_step. eapply wp_rd; [exact Hs|]. rewrite decide_True by done. apply sfx_cons in Hs.
  destruct Hl as (Hl1 & _ & Hl3). pose proof (g_wf _ _ _ _ Hg) as Hwf1.
  eapply wp_link_new; [done|done| |].
  - intros m' Hr Hm Hb Hw'. split; [done|]. split; [done|]. exists fp1, [], c1. rewrite app_nil_r. cbn [heap]. rewrite Hm.
    split_and!; [|done|done|].
    + destruct Hg as [_ B1 N1 F1 O1]. split; [done|lia|done|done|]. intros a ? ?. rewrite Hm. auto.
    + right. rewrite Hl1, Hn. split_and!; [done|done|by eapply value_at_owns|constructor].
  - intros n m2 Hne Hnc Hg2 Hc2 Hn2.
    eapply wp_mono; [apply (IH txt f fuel _ rest n (set_prev new cJSON_zero)); [exact Hs|done|lia|lia|by destruct Hg2|done|done|done]|].
    intros r st3 t' (-> & He3 & fpa & fpb & c3 & Hg3 & Hc3 & Hs3 & Hor). split; [done|].
    split; [by rewrite He3|]. cbn [heap] in Hg3.
    destruct (grew_link new n fp1 (fpa ++ fpb) _ _ _ _ _ _ _ _ Hi Hg (value_at_dom _ _ _ _ Hv) Hi1 Hg2 Hnc Hc2 Hn2 Hg3)
      as (Hgg & Hk & Hcur).
    assert (Hv3 : value_at (blocks (heap st3)) (set_next n c1) j fp1).
    { eapply value_at_fields; [by eapply value_at_agree|done..]. }
    exists fp1, (n :: fpa ++ fpb), (set_next n c1). split_and!; [done|done|done|].
    destruct Hor as [(-> & j2 & l2 & -> & Hv2 & Hel)|(-> & Href & Ho2 & Hf2)].
    + left. split; [f_equal; lia|]. exists j, (j2 :: l2). split_and!; [done|done|]. by eapply ea_cons.
    + right. split_and!; [done|done|by eapply value_at_owns|]. destruct Ho2 as (Hr & Hsc & fc & fv & -> & Hfc & Hfv).
      rewrite <- (assoc_L app). apply (forest_cons _ n c3 []); try done. rewrite Hs3. done.
Qed.

(** ** Arrays *)

(** The text between the brackets. *)
Lemma reads_arr0 w : ws w -> reads (JArr []) (91 :: w ++ [93]).
Proof.
  intros Hws txt [|fuel] p rest item c0 st t Hs Hr Ht Hf Hw Hi (Hc & Hv & _ & _); [simpl in Hf; lia|].
  cbn [app] in Hs. rewrite <- (assoc_L app) in Hs. cbn [app] in Hs. cbn [parse_value].
  change (bs "null") with [110; 117; 108; 108]; change (bs "false") with [102; 97; 108; 115; 101]; change (bs "true") with [116; 114; 117; 101].
  do 3 (wp_step; eapply wp_starts_no; [exact Hs|lia|]; cbv iota).
  wp_step. eapply wp_rd; [exact Hs|]. rewrite decide_False, decide_False, decide_True by lia.
  unfold parse_array. wp_step. eapply wp_rd; [exact Hs|]. rewrite decide_False by lia. apply sfx_cons in Hs.
  wp_step. apply wp_lift. eapply wp_upd_node; [done|done|]. intros m' Hm Hb Hw'.
  wp_step. eapply (wp_skip_at txt w _ (93 :: rest)); [done|simpl; lia|exact Hs|]. apply sfx_app in Hs.
  wp_step. eapply wp_rd; [exact Hs|]. rewrite decide_True by done. wp_step. split; [done|].
  cbn [length]. rewrite length_app. cbn [length].
  match goal with |- value_read _ _ _ ?q _ (Some ?q') _ => replace q' with q by lia end.
  apply (set_value_read item c0 (JArr []) _ st (set_type cJSON_Array)); try done. constructor; [done|done|]. simpl. rewrite Hc. constructor.
Qed.
End parse_more.

(** ** Members *)

(** The name of a node. *)
Definition name_at (h : gmap Z block) (c : cJSON) (k : list Z) (fs : list Z) : Prop :=
  string_ c <> 0 /\ fs = [string_ c] /\ bytes k /\ Forall (fun x => x <> 0) k /\
  exists junk, h !! string_ c = Some (BChars (k ++ 0 :: junk)).

Lemma name_at_own h c k fs : name_at h c k fs -> own_str h (string_ c) fs.
Proof. intros (Hs & -> & _ & _ & junk & H). by eapply own_str_some. Qed.

Lemma name_at_agree h h' c c' k fs : name_at h c k fs -> (forall a, a ∈ fs -> h' !! a = h !! a) -> string_ c' = string_ c ->
  name_at h' c' k fs.
Proof.
  intros (Hs & -> & Hb & Hn & junk & H) Hag He. unfold name_at. rewrite He. split_and!; try done. exists junk.
  rewrite Hag; [done|by apply list_elem_of_singleton].
Qed.

Lemma own_str_dom h a f : own_str h a f -> forall x, x ∈ f -> is_Some (h !! x).
Proof.
  intros H x Hx. unfold own_str in H. case_decide as Hz; [subst; by apply elem_of_nil in Hx|].
  destruct H as [-> Ha]. by apply list_elem_of_singleton in Hx as ->.
Qed.

Section parse_members.
Context `{A : Allocator}.

(** The outcome of parsing a name and a value into the node [new]. *)
Definition member_read (new : addr) (c0 : cJSON) (k : list Z) (j : json) (q : Z) (st : pmem) (r : option Z) (st' : pmem) : Prop :=
  ep st' = ep st /\ exists fs fp c', grew new (fs ++ fp) (heap st) (heap st') /\ blocks (heap st') !! new = Some (BNode c') /\
    next c' = next c0 /\
    ((r = Some q /\ name_at (blocks (heap st')) c' k fs /\ value_at (blocks (heap st')) c' j fp) \/
     (r = None /\ refused /\ own_str (blocks (heap st')) (string_ c') fs /\ owns (blocks (heap st')) c' fp)).

Lemma wp_parse_member txt fuel p w1 k kt w2 w3 j u w4 c rest new c0 st t :
  chars_of k kt -> reads j u -> says j u -> ws w1 -> ws w2 -> ws w3 -> ws w4 -> closes c ->
  sfx txt p (w1 ++ 34 :: kt ++ 34 :: w2 ++ 58 :: w3 ++ u ++ w4 ++ c :: rest) ->
  Z.of_nat (length txt) < 2147483647 -> (length u <= fuel)%nat ->
  wf (heap st) -> blocks (heap st) !! new = Some (BNode c0) -> blank c0 -> string_ c0 = 0 ->
  wp (parse_member txt (parse_value txt fuel) new p)
    (fun r st' t' => t' = t /\ member_read new c0 k j
       (p + Z.of_nat (length w1) + Z.of_nat (length kt) + 2 + Z.of_nat (length w2) + 1 + Z.of_nat (length w3) + Z.of_nat (length u) + Z.of_nat (length w4)) st r st') st t.
Proof.
  intros Hk Hrd Hsy Hw1 Hw2 Hw3 Hw4 Hc Hs Ht Hf Hw Hi Hbl Hs0. unfold parse_member. wp_step.
  eapply (wp_skip_at txt w1 p (34 :: _)); [done|simpl; lia|exact Hs|]. apply sfx_app in Hs.
  wp_step. eapply wp_mono; [eapply wp_parse_string; [done|exact Hs|by destruct w2|done|done|done]|].
  intros r st1 t' [-> [He Hor]].
  destruct Hor as [(-> & Href & Hm & Hw' & Hb)|(-> & out & junk & Hne & Hni & Hg & Hi1 & Ho)].
  - unfold skip. wp_steps. split; [done|]. split; [done|]. exists [], [], c0. rewrite Hm. split_and!; try done.
    + split; [done|done|constructor|by intros a ?%elem_of_nil|]. intros. by rewrite Hm.
    + right. rewrite Hs0. split_and!; [done|done|done|by apply owns_blank].
  - apply sfx_cons, sfx_app, sfx_cons in Hs.
    replace (p + Z.of_nat (length w1) + 1 + Z.of_nat (length kt) + 1) with (p + Z.of_nat (length w1) + Z.of_nat (length kt) + 2) in Hs by lia.
    wp_step. eapply (wp_skip txt w2 _ (58 :: _)); [done|simpl; lia|exact Hs|]. apply sfx_app in Hs. cbv iota.
    wp_step. apply wp_lift. pose proof (g_wf _ _ _ _ Hg) as Hwf1. eapply wp_upd_node; [done|done|].
    intros m2 Hm2 Hb2 Hw2'. wp_step. eapply wp_rd; [exact Hs|]. rewrite decide_False by lia. apply sfx_cons in Hs.
    set (c2 := set_valuestring 0 (set_string out (set_type cJSON_String (set_valuestring out c0)))).
    assert (Hi2 : blocks m2 !! new = Some (BNode c2)) by by rewrite Hm2, lookup_insert_eq.
    assert (Hbl2 : blank c2) by (destruct Hbl as (? & ? & ? & ?); done).
    eapply wp_mono; [apply (wp_parse_elem txt fuel _ w3 j u w4 c rest new c2 (mkP m2 (ep st1))); done|].
    intros r st3 t' (-> & He3 & fp & c' & Hg3 & Hi3 & (Hl1 & _ & Hl3) & Hor). split; [done|]. split; [by rewrite He3|].
    cbn [heap] in Hg3.
    assert (Hg2 : grew new [] (heap st1) m2) by by eapply grew_upd.
    assert (Hdo : forall a, a ∈ [out] -> is_Some (blocks (heap st1) !! a)) by (intros a ->%list_elem_of_singleton; by eexists).
    assert (Hno : new ∉ [out]) by by intros ->%list_elem_of_singleton.
    assert (Ho2 : blocks m2 !! out = Some (BChars (k ++ 0 :: junk))) by by rewrite Hm2, lookup_insert_ne.
    assert (Hgg : grew new ([out] ++ fp) (heap st) (heap st3)).
    { apply (grew_trans new new [out] fp _ m2); [by left|by eexists|intros a ->%list_elem_of_singleton; by eexists| |done].
      rewrite <- (app_nil_r [out]). apply (grew_trans new new _ _ _ (heap st1)); [by left|by eexists|done|done|done]. }
    assert (Ho3 : blocks (heap st3) !! out = Some (BChars (k ++ 0 :: junk))) by (by eapply grew_old; [exact Hg3| |]).
    destruct (chars_of_good _ _ Hk). exists [out], fp, c'. split_and!; [done|done|done|].
    destruct Hor as [[-> Hv]|(-> & Href & Hown)].
    + left. split_and!; [f_equal; lia| |done]. split_and!; [by rewrite Hl3|by rewrite Hl3|done|done|]. exists junk. by rewrite Hl3.
    + right. split_and!; [done|done| |done]. rewrite Hl3. by eapply own_str_some.
Qed.

(** The outcome of parsing the members [l] into the node [new] and nodes behind it. *)
Definition members_read (new : addr) (l : list (list Z * json)) (q : Z) (st : pmem) (r : option Z) (st' : pmem) : Prop :=
  ep st' = ep st /\ exists fs fp1 fp2 c', grew new ((fs ++ fp1) ++ fp2) (heap st) (heap st') /\
    blocks (heap st') !! new = Some (BNode c') /\
    ((r = Some q /\ exists k j l', l = (k, j) :: l' /\ name_at (blocks (heap st')) c' k fs /\
        value_at (blocks (heap st')) c' j fp1 /\ chain_at (blocks (heap st')) (next c') l' fp2) \/
     (r = None /\ refused /\ own_str (blocks (heap st')) (string_ c') fs /\ owns (blocks (heap st')) c' fp1 /\
        forest (blocks (heap st')) (next c') fp2)).

Definition member_chain txt f fuel new p : io pmem (option Z) :=
  value ← parse_member txt (parse_value txt f) new p;
  match value with
  | None => mret None
  | Some value => object_loop txt (parse_value txt f) fuel new value
  end.

Definition reads_members (l : list (list Z * json)) (s : list Z) : Prop := forall txt f fuel p rest new c0 st t,
  sfx txt p (s ++ rest) -> Z.of_nat (length txt) < 2147483647 -> (length s <= f)%nat -> (length s <= fuel)%nat ->
  wf (heap st) -> blocks (heap st) !! new = Some (BNode c0) -> blank c0 -> next c0 = 0 -> string_ c0 = 0 ->
  wp (member_chain txt f fuel new p) (fun r st' t' => t' = t /\ members_read new l (p + Z.of_nat (length s)) st r st') st t.

Lemma members_read_failed new l q st st' fs fp c' :
  ep st' = ep st -> next c' = 0 -> grew new (fs ++ fp) (heap st) (heap st') -> blocks (heap st') !! new = Some (BNode c') ->
  refused -> own_str (blocks (heap st')) (string_ c') fs -> owns (blocks (heap st')) c' fp -> members_read new l q st None st'.
Proof.
  intros He Hn Hg Hi Href Hs Ho. split; [done|]. exists fs, fp, [], c'. rewrite app_nil_r.
  split_and!; [done|done|]. right. rewrite Hn. split_and!; [done|done|done|done|constructor].
Qed.

Lemma reads_mb_last w1 k kt w2 w3 j u w4 : ws w1 -> chars_of k kt -> ws w2 -> ws w3 -> says j u -> ws w4 -> reads j u ->
  reads_members [(k, j)] (w1 ++ (34 :: kt ++ [34]) ++ w2 ++ 58 :: w3 ++ u ++ w4 ++ [125]).
Proof.
  intros Hw1 Hk Hw2 Hw3 Hsy Hw4 Hrd txt f fuel p rest new c0 st t Hs Ht Hf Hfu Hw Hi Hbl Hn Hs0.
  repeat (rewrite length_app in * || cbn [length app] in *). repeat (rewrite <- (assoc_L app) in Hs || cbn [app] in Hs).
  unfold member_chain. wp_step.
  eapply wp_mono; [apply (wp_parse_member txt f p w1 k kt w2 w3 j u w4 125 rest new c0); try done; [unfold closes; tauto|lia]|].
  intros r st' t' (-> & He & fs & fp & c' & Hg & Hi' & Hl & [(-> & Hnm & Hv)|(-> & Href & Hos & Ho)]).
  - destruct fuel as [|fuel]; [lia|]. cbn [object_loop]. apply sfx_app, sfx_cons, sfx_app, sfx_cons, sfx_app, sfx_cons, sfx_app, sfx_app, sfx_app in Hs.
    wp_step. eapply wp_rd; [match goal with |- sfx _ ?x _ => match type of Hs with sfx _ ?y _ => replace x with y by lia end end; exact Hs|].
    rewrite decide_False, decide_True by lia. wp_step. split; [done|]. split; [done|].
    exists fs, fp, [], c'. rewrite app_nil_r. split_and!; [done|done|]. left. split; [f_equal; lia|].
    exists k, j, []. rewrite Hl, Hn. split_and!; [done|done|done|constructor].
  - wp_step. split; [done|]. eapply members_read_failed; [done| |done|done|done|done|done]. congruence.
Qed.
End parse_members.

Section parse_trees.
Context `{A : Allocator}.

Lemma reads_mb_more w1 k kt w2 w3 j u w4 l s : ws w1 -> chars_of k kt -> ws w2 -> ws w3 -> says j u -> ws w4 -> reads j u ->
  reads_members l s -> reads_members ((k, j) :: l) (w1 ++ (34 :: kt ++ [34]) ++ w2 ++ 58 :: w3 ++ u ++ w4 ++ 44 :: s).
Proof.
  intros Hw1 Hk Hw2 Hw3 Hsy Hw4 Hrd IH txt f fuel p rest new c0 st t Hs Ht Hf Hfu Hw Hi Hbl Hn Hs0.
  repeat (rewrite length_app in * || cbn [length app] in *). repeat (rewrite <- (assoc_L app) in Hs || cbn [app] in Hs).
  unfold member_chain. wp_step.
  eapply wp_mono; [apply (wp_parse_member txt f p w1 k kt w2 w3 j u w4 44 (s ++ rest) new c0); try done; [unfold closes; tauto|lia]|].
  intros r st1 t' (-> & He & fs & fp1 & c1 & Hg & Hi1 & Hl & [(-> & Hnm & Hv)|(-> & Href & Hos & Ho)]).
  2: { wp_step. split; [done|]. eapply members_read_failed; [done| |done|done|done|done|done]. congruence. }
  destruct fuel as [|fuel]; [lia|]. cbn [object_loop].
  apply sfx_app, sfx_cons, sfx_app, sfx_cons, sfx_app, sfx_cons, sfx_app, sfx_app, sfx_app in Hs.
  wp_step. eapply wp_rd; [match goal with |- sfx _ ?x _ => match type of Hs with sfx _ ?y _ => replace x with y by lia end end; exact Hs|].
  rewrite decide_True by done. apply sfx_cons in Hs. pose proof (g_wf _ _ _ _ Hg) as Hwf1.
  assert (Hd1 : forall a, a ∈ fs ++ fp1 -> is_Some (blocks (heap st1) !! a)).
  { intros a [Ha|Ha]%elem_of_app; [|by eapply value_at_dom]. eapply own_str_dom; [by eapply name_at_own|done]. }
  eapply wp_link_new; [done|done| |].
  - intros m' Hr Hm Hb Hw'. split; [done|]. eapply (members_read_failed _ _ _ _ _ fs fp1 c1); cbn [heap]; rewrite ?Hm; try done.
    + congruence.
    + destruct Hg as [_ B1 N1 F1 O1]. split; [done|lia|done|done|]. intros a ? ?. rewrite Hm. auto.
    + by eapply name_at_own.
    + by eapply value_at_owns.
  - intros n m2 Hne Hnc Hg2 Hc2 Hn2.
    eapply wp_mono; [eapply (IH txt f fuel _ rest n (set_prev new cJSON_zero)); [|done|lia|lia|by destruct Hg2|done|done|done|done]|].
    { match goal with |- sfx _ ?x _ => match type of Hs with sfx _ ?y _ => replace x with y by lia end end. exact Hs. }
    intros r st3 t' (-> & He3 & fsa & fpa & fpb & c3 & Hg3 & Hc3 & Hor). split; [done|].
    split; [by rewrite He3|]. cbn [heap] in Hg3.
    destruct (grew_link new n (fs ++ fp1) ((fsa ++ fpa) ++ fpb) _ _ _ _ _ _ _ _ Hi Hg Hd1 Hi1 Hg2 Hnc Hc2 Hn2 Hg3)
      as (Hgg & Hk3 & Hcur).
    assert (Hv3 : value_at (blocks (heap st3)) (set_next n c1) j fp1).
    { eapply value_at_fields; [eapply value_at_agree; [done|]|done..]. intros a Ha. apply Hk3, elem_of_app. by right. }
    assert (Hnm3 : name_at (blocks (heap st3)) (set_next n c1) k fs).
    { eapply name_at_agree; [done| |done]. intros a Ha. apply Hk3, elem_of_app. by left. }
    exists fs, fp1, (n :: (fsa ++ fpa) ++ fpb), (set_next n c1). split_and!; [done|done|].
    destruct Hor as [(-> & k2 & j2 & l2 & -> & Hnm2 & Hv2 & Hel)|(-> & Href & Hos2 & Ho2 & Hf2)].
    + left. split; [f_equal; lia|]. exists k, j, ((k2, j2) :: l2). split_and!; [done|done|done|].
      destruct Hnm2 as (Hs3 & -> & Hb2 & Hz2 & junk & Hj). by apply (ca_cons _ n c3 k2 junk j2 l2 fpa fpb).
    + right. split_and!; [done|done|by eapply name_at_own|by eapply value_at_owns|].
      destruct Ho2 as (Hr & Hsc & fc & fv & -> & Hfc & Hfv). rewrite <- !(assoc_L app). by apply (forest_cons _ n c3).
Qed.

(** An opening bracket. *)
Lemma wp_brackets txt fuel p c l item (Q : option Z -> pmem -> trace -> Prop) st t :
  sfx txt p (c :: l) -> c = 91 \/ c = 123 ->
  wp (if decide (c = 91) then parse_array txt (parse_value txt fuel) fuel item p
      else parse_object txt (parse_value txt fuel) fuel item p) Q st t ->
  wp (parse_value txt (S fuel) item (Some p)) Q st t.
Proof.
  intros Hs Hc HQ. cbn [parse_value].
  change (bs "null") with [110; 117; 108; 108]; change (bs "false") with [102; 97; 108; 115; 101]; change (bs "true") with [116; 114; 117; 101].
  do 3 (wp_step; eapply wp_starts_no; [exact Hs|lia|]; cbv iota).
  wp_step. eapply wp_rd; [exact Hs|]. rewrite decide_False, decide_False by lia.
  destruct (decide (c = 91)); [done|]. by rewrite decide_True by lia.
Qed.

(** The first node of an array or object that is not empty; [K] parses into it. *)
Lemma wp_first_node item c0 ty j q st st0 t (K : addr -> io pmem (option Z)) :
  ty = cJSON_Array \/ ty = cJSON_Object ->
  wf (heap st) -> blocks (heap st) !! item = Some (BNode c0) -> blank c0 ->
  blocks (heap st0) = <[item := BNode (set_type ty c0)]> (blocks (heap st)) -> brk (heap st0) = brk (heap st) -> wf (heap st0) ->
  ep st0 = ep st ->
  (forall n m', n <> 0 -> n <> item -> wf m' -> blocks m' !! n = Some (BNode cJSON_zero) ->
    wp (K n) (fun r st' t' => t' = t /\ ep st' = ep st0 /\ exists fp c', grew n fp m' (heap st') /\
      blocks (heap st') !! n = Some (BNode c') /\ forest (blocks (heap st')) n (n :: fp) /\
      ((r = Some q /\ value_at (blocks (heap st')) (set_child n (set_type ty c0)) j (n :: fp)) \/
       (r = None /\ refused))) (mkP m' (ep st0)) t) ->
  wp (child_ ← lift cJSON_New_Item;
      lift (upd_node item (set_child child_));;
      if decide (child_ = 0) then mret None else K child_)
    (fun r st' t' => t' = t /\ value_read item c0 j q st r st') st0 t.
Proof.
  intros Hty Hw Hi (Hc & Hv & _ & _) Hm0 Hb0 Hw0 He0 HK.
  assert (Hown : forall h ch fp, forest h ch fp -> owns h (set_child ch (set_type ty c0)) fp).
  { intros h ch fp Hf. split_and!; [destruct Hty as [-> | ->]; done..|]. exists fp, []. rewrite app_nil_r.
    split_and!; [done|done|]. simpl. rewrite Hv. done. }
  wp_step. apply wp_new_item; [done| |].
  - intros m1 Hm1 Hb1 Hw1 Hr. wp_step. apply wp_lift. eapply wp_upd_node; [cbn [heap]; by rewrite Hm1, Hm0, lookup_insert_eq|done|].
    cbn [heap ep]. intros m2 Hm2 Hb2 Hw2. rewrite decide_True by done. wp_step. split; [done|]. split; [done|].
    rewrite Hm1, Hm0, insert_insert_eq in Hm2. exists [], (set_child 0 (set_type ty c0)). cbn [heap]. split_and!; try done.
    + split; [done|lia|constructor|by intros a ?%elem_of_nil|]. intros a Ha _. by rewrite Hm2, lookup_insert_ne.
    + by rewrite Hm2, lookup_insert_eq.
    + right. split_and!; [done|done|]. apply Hown. constructor.
  - intros n m1 Hne Hfr Hm1 Hb1 Hw1.
    assert (Hni : n <> item) by (intros ->; rewrite Hm0, lookup_insert_eq in Hfr; done).
    wp_step. apply wp_lift. eapply wp_upd_node; [cbn [heap]; by rewrite Hm1, lookup_insert_ne, Hm0, lookup_insert_eq|done|].
    cbn [heap ep]. intros m2 Hm2 Hb2 Hw2. rewrite decide_False by done.
    eapply wp_mono; [apply (HK n m2); [done|done|done|by rewrite Hm2, lookup_insert_ne, Hm1, lookup_insert_eq]|].
    intros r st3 t' (-> & He & fp & c' & Hg & Hc' & Hf & Hor). split; [done|]. split; [congruence|].
    assert (Hfr0 : blocks (heap st) !! n = None) by (rewrite Hm0, lookup_insert_ne in Hfr; done).
    assert (Hg2 : grew item [n] (heap st) m2).
    { split; [done|lia|apply NoDup_singleton|by intros a ->%list_elem_of_singleton|].
      intros a Ha Hno. rewrite list_elem_of_singleton in Hno.
      by rewrite Hm2, lookup_insert_ne, Hm1, lookup_insert_ne, Hm0, lookup_insert_ne. }
    exists (n :: fp), (set_child n (set_type ty c0)). split_and!; try done.
    + apply (grew_trans item n [n] fp _ m2); [right; by apply list_elem_of_singleton| | |done|done].
      * rewrite Hm2, lookup_insert_eq. by eexists.
      * intros a ->%list_elem_of_singleton. rewrite Hm2, lookup_insert_ne, Hm1, lookup_insert_eq; [by eexists|done].
    + eapply grew_old; [done|done|]. by rewrite Hm2, lookup_insert_eq.
    + destruct Hor as [[-> Hval]|[-> Href]]; [by left|right]. split_and!; [done|done|]. by apply Hown.
Qed.
End parse_trees.

Section parse_all.
Context `{A : Allocator}.

(** Up to the first element. *)
Definition strips {B} (P : B -> list Z -> Prop) (l : B) (s : list Z) : Prop :=
  P l s /\ exists w s', ws w /\ s = w ++ s' /\ opens s' /\ P l s'.

Lemma opens_dark s r : opens s -> dark (s ++ r).
Proof. destruct s as [|c s]; simpl; [done|lia]. Qed.

Lemma opens_says j u r : says j u -> opens (u ++ r).
Proof. intros H. destruct (says_head _ _ H) as (c & v & -> & ?). simpl. lia. Qed.

(** The opening bracket is consumed, the type is set, and the white space behind it is skipped. *)
Lemma reads_chain j c ty (kf : nat -> list Z -> addr -> Z -> io pmem (option Z)) w s' :
  (c = 91 /\ ty = cJSON_Array /\ kf = (fun f txt n v => elem_chain txt f f n v)) \/
  (c = 123 /\ ty = cJSON_Object /\ kf = (fun f txt n v => member_chain txt f f n v)) ->
  ws w -> opens s' ->
  (forall txt f p rest n st t q, sfx txt p (s' ++ rest) -> Z.of_nat (length txt) < 2147483647 -> (length s' <= f)%nat ->
    q = p + Z.of_nat (length s') -> n <> 0 -> wf (heap st) -> blocks (heap st) !! n = Some (BNode cJSON_zero) ->
    wp (kf f txt n p) (fun r st' t' => t' = t /\ ep st' = ep st /\ exists fp c', grew n fp (heap st) (heap st') /\
      blocks (heap st') !! n = Some (BNode c') /\ forest (blocks (heap st')) n (n :: fp) /\
      ((r = Some q /\ forall x, type x = ty -> valuestring x = 0 -> child x = n -> value_at (blocks (heap st')) x j (n :: fp)) \/
       (r = None /\ refused))) st t) ->
  reads j (c :: w ++ s').
Proof.
  intros Hcase Hws Hop HK txt [|fuel] p rest item c0 st t Hs Hr Ht Hf Hw Hi Hbl; [simpl in Hf; lia|].
  cbn [app] in Hs. rewrite <- (assoc_L app) in Hs. apply sfx_cons in Hs as Hs1. pose proof (sfx_app _ _ _ _ Hs1) as Hs2.
  simpl in Hf. rewrite length_app in Hf.
  assert (Hh : exists x r', s' ++ rest = x :: r' /\ x <> 93 /\ x <> 125).
  { destruct s' as [|x s']; [done|]. exists x, (s' ++ rest). simpl in Hop. split; [done|lia]. }
  destruct Hh as (x & r' & Ex & Hx1 & Hx2).
  eapply wp_brackets; [exact Hs|destruct Hcase as [(-> & _)|(-> & _)]; [by left|by right]|].
  assert (Hq : p + 1 + Z.of_nat (length w) + Z.of_nat (length s') = p + Z.of_nat (length (c :: w ++ s')))
    by (cbn [length]; rewrite length_app; lia).
  assert (Hfirst : forall st0, blocks (heap st0) = <[item := BNode (set_type ty c0)]> (blocks (heap st)) ->
    brk (heap st0) = brk (heap st) -> wf (heap st0) -> ep st0 = ep st ->
    wp (child_ ← lift cJSON_New_Item; lift (upd_node item (set_child child_));;
        if decide (child_ = 0) then mret None else kf fuel txt child_ (p + 1 + Z.of_nat (length w)))
      (fun r st' t' => t' = t /\ value_read item c0 j (p + Z.of_nat (length (c :: w ++ s'))) st r st') st0 t).
  { intros st0 Hm0 Hb0 Hw0 He0. eapply wp_first_node; try done; [destruct Hcase as [(_ & -> & _)|(_ & -> & _)]; [by left|by right]|].
    intros n m' Hn Hni Hw' Hn'. eapply wp_mono; [apply (HK txt fuel _ rest n (mkP m' (ep st0))); [exact Hs2|done|lia|by symmetry|done|done|done]|].
    intros r st' t' (-> & He & fp & c' & Hg & Hc' & Hf' & Hor). split; [done|]. split; [done|]. exists fp, c'. split_and!; try done.
    destruct Hor as [[-> Hv]|?]; [left|by right]. split; [done|]. apply Hv; [done| |done]. by destruct Hbl as (_ & ? & _). }
  destruct Hcase as [(-> & -> & ->)|(-> & -> & ->)].
  - rewrite decide_True by done. unfold parse_array. wp_step. eapply wp_rd; [exact Hs|]. rewrite decide_False by lia.
    wp_step. apply wp_lift. eapply wp_upd_node; [done|done|]. intros m1 Hm1 Hb1 Hw1.
    wp_step. eapply (wp_skip_at txt w _ (s' ++ rest)); [done|by apply opens_dark|done|].
    wp_step. eapply wp_rd; [rewrite <- Ex; exact Hs2|]. rewrite decide_False by done.
    specialize (Hfirst (mkP m1 (ep st)) Hm1 Hb1 Hw1 eq_refl).
    apply (wp_mono _ _ _ _ _ Hfirst). done.
  - rewrite decide_False by lia. unfold parse_object. wp_step. eapply wp_rd; [exact Hs|]. rewrite decide_False by lia.
    wp_step. apply wp_lift. eapply wp_upd_node; [done|done|]. intros m1 Hm1 Hb1 Hw1.
    wp_step. eapply (wp_skip_at txt w _ (s' ++ rest)); [done|by apply opens_dark|done|].
    wp_step. eapply wp_rd; [rewrite <- Ex; exact Hs2|]. rewrite decide_False by done.
    specialize (Hfirst (mkP m1 (ep st)) Hm1 Hb1 Hw1 eq_refl).
    apply (wp_mono _ _ _ _ _ Hfirst). done.
Qed.
End parse_all.

Section parse_any.
Context `{A : Allocator}.

Lemma reads_arr l s : strips reads_elems l s -> reads (JArr l) (91 :: s).
Proof.
  intros (_ & w & s' & Hw & -> & Hop & Hrd). eapply reads_chain; [left; by split_and!|done|done|].
  intros txt f p rest n st t q Hs Ht Hf -> Hne Hwf Hn.
  eapply wp_mono; [apply (Hrd txt f f p rest n cJSON_zero); done|].
  intros r st' t' (-> & He & fp1 & fp2 & c' & Hg & Hc' & Hstr & Hor). split; [done|]. split; [done|].
  exists (fp1 ++ fp2), c'. split; [done|]. split; [done|].
  destruct Hor as [(-> & j & l' & -> & Hv & Hel)|(-> & Href & (Hr & Hsc & fc & fv & -> & Hfc & Hfv) & Hfo)].
  - assert (Hch : elems_at (blocks (heap st')) n (j :: l') (n :: fp1 ++ fp2)) by by eapply ea_cons.
    split; [|left; split; [done|]; intros x Hx1 Hx2 Hx3; constructor; [done|done|by rewrite Hx3]].
    assert (Hv' : value_at (blocks (heap st')) (set_child n (set_type cJSON_Array cJSON_zero)) (JArr (j :: l')) (n :: fp1 ++ fp2)) by by constructor.
    apply value_at_owns in Hv' as (_ & _ & fc & fv & Hfp & Hfc & Hfv). simpl in Hfc, Hfv. unfold own_str in Hfv. simpl in Hfv. subst fv.
    rewrite app_nil_r in Hfp. by rewrite Hfp.
  - split; [|by right]. rewrite <- (assoc_L app). apply (forest_cons _ n c' []); try done. rewrite Hstr. done.
Qed.

Lemma reads_obj l s : strips reads_members l s -> reads (JObj l) (123 :: s).
Proof.
  intros (_ & w & s' & Hw & -> & Hop & Hrd). eapply reads_chain; [right; by split_and!|done|done|].
  intros txt f p rest n st t q Hs Ht Hf -> Hne Hwf Hn.
  eapply wp_mono; [apply (Hrd txt f f p rest n cJSON_zero); done|].
  intros r st' t' (-> & He & fs & fp1 & fp2 & c' & Hg & Hc' & Hor). split; [done|]. split; [done|].
  exists ((fs ++ fp1) ++ fp2), c'. split; [done|]. split; [done|].
  destruct Hor as [(-> & k & j & l' & -> & (Hs0 & -> & Hb & Hz & junk & Hj) & Hv & Hel)|(-> & Href & Hos & (Hr & Hsc & fc & fv & -> & Hfc & Hfv) & Hfo)].
  - assert (Hch : chain_at (blocks (heap st')) n ((k, j) :: l') (n :: string_ c' :: fp1 ++ fp2)).
    { by apply (ca_cons _ n c' k junk j l' fp1 fp2). }
    split; [|left; split; [done|]; intros x Hx1 Hx2 Hx3; constructor; [done|done|by rewrite Hx3]].
    assert (Hv' : value_at (blocks (heap st')) (set_child n (set_type cJSON_Object cJSON_zero)) (JObj ((k, j) :: l')) (n :: string_ c' :: fp1 ++ fp2)) by by constructor.
    apply value_at_owns in Hv' as (_ & _ & fc & fv & Hfp & Hfc & Hfv). simpl in Hfc, Hfv. unfold own_str in Hfv. simpl in Hfv. subst fv.
    rewrite app_nil_r in Hfp. simpl. by rewrite Hfp.
  - split; [|by right]. rewrite <- !(assoc_L app). by apply (forest_cons _ n c').
Qed.

Lemma reads_obj0 w : ws w -> reads (JObj []) (123 :: w ++ [125]).
Proof.
  intros Hws txt [|fuel] p rest item c0 st t Hs Hr Ht Hf Hw Hi (Hc & Hv & _ & _); [simpl in Hf; lia|].
  cbn [app] in Hs. rewrite <- (assoc_L app) in Hs. cbn [app] in Hs.
  eapply wp_brackets; [exact Hs|by right|]. rewrite decide_False by lia.
  unfold parse_object. wp_step. eapply wp_rd; [exact Hs|]. rewrite decide_False by lia. apply sfx_cons in Hs.
  wp_step. apply wp_lift. eapply wp_upd_node; [done|done|]. intros m' Hm Hb Hw'.
  wp_step. eapply (wp_skip_at txt w _ (125 :: rest)); [done|simpl; lia|exact Hs|]. apply sfx_app in Hs.
  wp_step. eapply wp_rd; [exact Hs|]. rewrite decide_True by done. wp_step. split; [done|].
  cbn [length]. rewrite length_app. cbn [length].
  match goal with |- value_read _ _ _ ?q _ (Some ?q') _ => replace q' with q by lia end.
  apply (set_value_read item c0 (JObj []) _ st (set_type cJSON_Object)); try done. constructor; [done|done|]. simpl. rewrite Hc. constructor.
Qed.

(** Every text of a value is read as that value. *)
Lemma says_reads j s : says j s -> reads j s.
Proof.
  intros H. induction H using says_mut with (P0 := fun l s (_ : elems l s) => strips reads_elems l s)
    (P1 := fun l s (_ : members l s) => strips reads_members l s).
  - apply reads_null.
  - apply reads_false.
  - apply reads_true.
  - by apply reads_int.
  - by apply reads_str.
  - by apply reads_arr0.
  - by apply reads_arr.
  - by apply reads_obj0.
  - by apply reads_obj.
  - split; [by apply reads_el_last|]. eexists w1, _. split_and!; [done|done|by eapply opens_says|].
    by apply (reads_el_last []); [constructor|..].
  - destruct IHsays0 as [IH _]. split; [by apply reads_el_more|]. eexists w1, _. split_and!; [done|done|by eapply opens_says|].
    by apply (reads_el_more []); [constructor|..].
  - split; [by apply reads_mb_last|]. eexists w1, _. split_and!; [done|done|simpl; lia|].
    by apply (reads_mb_last []); [constructor|..].
  - destruct IHsays0 as [IH _]. split; [by apply reads_mb_more|]. eexists w1, _. split_and!; [done|done|simpl; lia|].
    by apply (reads_mb_more []); [constructor|..].
Qed.

(** ** The parser *)

Lemma wp_delete_item p fp c (Q : () -> pmem -> trace -> Prop) st t :
  wf (heap st) -> blocks (heap st) !! p = Some (BNode c) -> p <> 0 -> next c = 0 -> string_ c = 0 -> owns (blocks (heap st)) c fp ->
  NoDup (p :: fp) -> (forall m', erased (p :: fp) (heap st) m' -> Q () (mkP m' (ep st)) t) -> wp (delete_item p) Q st t.
Proof.
  intros Hw Hp Hp0 Hn Hs (Hr & Hsc & fc & fv & -> & Hfc & Hfv) Hnd HQ. unfold delete_item. wp_steps. apply wp_lift.
  assert (Hf : forest (blocks (heap st)) p (p :: fc ++ fv)).
  { replace (p :: fc ++ fv) with (p :: [] ++ fc ++ fv ++ []) by by rewrite app_nil_r.
    apply (forest_cons _ p c []); try done; [by rewrite Hs|rewrite Hn; constructor]. }
  eapply wp_mono; [eapply wp_delete_forest; [exact Hf|done|done|done|]|].
  - assert (Hsub : list_to_set (p :: fc ++ fv) ⊆@{gset Z} dom (blocks (heap st))).
    { intros a Ha. apply elem_of_list_to_set in Ha. apply elem_of_dom. by eapply forest_dom. }
    apply subseteq_size in Hsub. rewrite size_list_to_set, size_dom in Hsub by done. lia.
  - intros [] m' t' [-> He]. by apply HQ.
Qed.
End parse_any.

(** The text behind a value: white space and the terminating NUL, or, when that is not asked
    for, anything that cannot continue a number. *)
Definition text_end (require : bool) (w2 rest : list Z) : Prop :=
  if require then ws w2 /\ head rest = Some 0 else w2 = [] /\ stops rest.

Section parse_whole.
Context `{A : Allocator}.

Lemma wp_ParseWithOpts txt w j s w2 rest require st t :
  txt = w ++ s ++ w2 ++ rest -> ws w -> says j s -> text_end require w2 rest -> Z.of_nat (length txt) < 2147483647 -> wf (heap st) ->
  wp (cJSON_ParseWithOpts txt 0 require) (fun r st' t' => t' = t /\ ep st' = None /\ wf (heap st') /\
    ((r.1 = 0 /\ refused /\ blocks (heap st') = blocks (heap st)) \/
     (r = (r.1, Some (Z.of_nat (length (w ++ s ++ w2)))) /\ exists fp, item_at (blocks (heap st')) (r.1) j fp /\
       NoDup (r.1 :: fp) /\ (forall a, a ∈ r.1 :: fp -> blocks (heap st) !! a = None) /\
       (forall a, a ∉ r.1 :: fp -> blocks (heap st') !! a = blocks (heap st) !! a)))) st t.
Proof.
  intros Htx Hw Hsy Hend Hlen Hwf. pose proof (sfx_start txt) as Hs. rewrite Htx in Hs at 2.
  assert (Hst : stops (w2 ++ rest)).
  { destruct require; simpl in Hend; [|by destruct Hend as [-> ?]]. destruct Hend as [Hw2 Hr].
    destruct rest as [|c rest]; [done|]. simplify_eq/=. apply stops_ws; [done|]. unfold closes. tauto. }
  unfold cJSON_ParseWithOpts. wp_step. apply wp_new_item; [done| |].
  { intros m' Hm Hb Hw' Hr. wp_step. unfold set_ep. wp_step. rewrite decide_True by done. wp_step.
    split_and!; [done|done|done|]. left. done. }
  intros n m1 Hne Hfr Hm1 Hb1 Hw1. wp_step. unfold set_ep. wp_step. cbn [heap ep]. rewrite decide_False by done.
  wp_step. eapply (wp_skip_at txt w 0 (s ++ w2 ++ rest)); [done|by eapply says_dark|exact Hs|]. apply sfx_app in Hs.
  wp_step. eapply wp_mono.
  { apply (says_reads j s Hsy txt _ _ (w2 ++ rest) n cJSON_zero (mkP m1 None)); [exact Hs|done|done| |done| |done].
    - rewrite Htx, !length_app. lia.
    - cbn [heap]. by rewrite Hm1, lookup_insert_eq. }
  intros r st2 t' (-> & He & fp & c' & Hg & Hc' & (Hl1 & _ & Hl3) & Hor). cbn [heap ep] in *.
  assert (Hnfp : n ∉ fp).
  { intros Hin. apply (g_fresh _ _ _ _ Hg) in Hin. rewrite Hm1, lookup_insert_eq in Hin. done. }
  assert (Hnd : NoDup (n :: fp)) by (constructor; [done|by eapply g_nodup]).
  assert (Hall : forall a, a ∈ n :: fp -> blocks (heap st) !! a = None).
  { intros a [->|Ha]%elem_of_cons; [done|]. pose proof (g_fresh _ _ _ _ Hg a Ha) as Hx. rewrite Hm1, lookup_insert_ne in Hx; [done|].
    intros ->. done. }
  assert (Hrest : forall a, a ∉ n :: fp -> blocks (heap st2) !! a = blocks (heap st) !! a).
  { intros a [Hn Ha]%not_elem_of_cons. rewrite (g_other _ _ _ _ Hg), Hm1, lookup_insert_ne by done. done. }
  destruct Hor as [[-> Hv]|(-> & Href & Ho)].
  - assert (Hitem : item_at (blocks (heap st2)) n j fp) by (exists c'; by rewrite Hl1, Hl3). apply sfx_app in Hs.
    destruct require; simpl in Hend.
    + destruct Hend as [Hw2 Hr]. destruct rest as [|c rest]; [done|]. simplify_eq/=.
      wp_step. eapply (wp_skip_at _ w2 _ (0 :: rest)); [done|by left|exact Hs|]. apply sfx_app in Hs.
      wp_step. eapply wp_rd; [exact Hs|]. rewrite decide_False by lia. wp_step. split_and!; [done|done|by destruct Hg|].
      right. cbn [fst]. split; [do 2 f_equal; rewrite !length_app; lia|]. exists fp. done.
    + destruct Hend as [-> _]. wp_step. split_and!; [done|done|by destruct Hg|]. right. cbn [fst].
      split; [do 2 f_equal; rewrite !length_app; simpl; lia|]. exists fp. done.
  - wp_step. eapply wp_delete_item; [by destruct Hg|done|done|done|done|done|done|].
    intros m3 (Hw3 & _ & E3). wp_step. split_and!; [done|done|done|]. left. split_and!; [done|done|].
    apply map_eq. intros a. cbn [heap]. rewrite E3. destruct (decide (a ∈ n :: fp)) as [Ha|Ha]; [by rewrite Hall|auto].
Qed.

(** C15: the parser reads JSON: of a text that the grammar derives from a value, with white
    space around it, it builds the tree of that value in new blocks, each used once, and
    changes no other; the end that it reports is the end of the value, or the NUL behind
    it when that was asked for; or it returns null because a request for memory was
    refused, and then everything it had allocated has been freed again. *)
Theorem parse_correct txt w j s w2 rest require st t :
  txt = w ++ s ++ w2 ++ rest -> ws w -> says j s -> text_end require w2 rest -> Z.of_nat (length txt) < 2147483647 -> wf (heap st) ->
  wp (cJSON_ParseWithOpts txt 0 require) (fun r st' t' => t' = t /\ ep st' = None /\ wf (heap st') /\
    ((r.1 = 0 /\ refused /\ blocks (heap st') = blocks (heap st)) \/
     (r = (r.1, Some (Z.of_nat (length (w ++ s ++ w2)))) /\ exists fp, item_at (blocks (heap st')) (r.1) j fp /\
       NoDup (r.1 :: fp) /\ (forall a, a ∈ r.1 :: fp -> blocks (heap st) !! a = None) /\
       (forall a, a ∉ r.1 :: fp -> blocks (heap st') !! a = blocks (heap st) !! a)))) st t.
Proof. apply wp_ParseWithOpts. Qed.
End parse_whole.
