(* ===== verification/CjsonRound.v ===== *)
(** * Round trip and limits of the JSON parser

    Printing a tree and parsing the text gives the tree again.  Then what the parser does
    with texts outside the grammar of [CjsonRead]: the numbers that have a fraction or an
    exponent go through the power function of the C library, and a [\u] escape that is
    cut short makes the parser run over its buffers. *)

From Stdlib Require Import SpecFloat.
From S2P Require Import Prelude CString Double Env Cjson CjsonPrint CjsonDelete CjsonParse CjsonRead.

(** ** Printed texts are in the grammar *)

Lemma hex_lower_val n : 0 <= n < 16 -> hex_digit (hex_lower n) = Some n.
Proof. revert n. by_evaluation 16. Qed.

Lemma chars_of_escape c s t : is_byte c -> c <> 0 -> chars_of s t -> chars_of (c :: s) (escape c ++ t).
Proof.
  intros Hb H0 Ht. unfold escape. case_decide as Hp.
  - apply co_plain; [done|done|lia|lia|done].
  - destruct (escape_letter c) as [x|] eqn:Ex; cbn [app].
    + apply co_short; [|done]. unfold escape_letter in Ex. repeat case_decide; simplify_eq; done.
    + assert (Hc : 0 < c < 32).
      { unfold is_byte in Hb. unfold escape_letter in Ex. repeat case_decide; simplify_eq; lia. }
      assert (Hd : 0 <= c / 16 < 16 /\ 0 <= c mod 16 < 16) by zlia.
      replace (c :: s) with (utf8 c ++ s) by (unfold utf8; by rewrite decide_True by lia).
      unfold u04x. apply co_u; [|lia|lia|done]. unfold hex4.
      rewrite !hex_lower_val by tauto. change (hex_digit 48) with (Some 0). simpl. f_equal. zlia.
Qed.

Lemma chars_of_quote s : bytes s -> Forall (fun x => x <> 0) s -> chars_of s (flat_map escape s).
Proof.
  induction 1 as [|c s Hc Hs IH]; intros Hn; [constructor|]. apply Forall_cons in Hn as [H0 Hn]. simpl.
  apply chars_of_escape; auto.
Qed.

Lemma value_at_says h c j fp : value_at h c j fp -> says j (text j).
Proof.
  intros H. induction H using value_at_mut with
    (P0 := fun p l fp (_ : elems_at h p l fp) => l = [] \/ elems l (comma (map text l) ++ [93]))
    (P1 := fun p l fp (_ : chain_at h p l fp) => l = [] \/ members l (comma (map entry l) ++ [125])).
  1-3: constructor.
  - constructor. by destruct n as [? _].
  - constructor. by apply chars_of_quote.
  - cbn [text]. destruct IHvalue_at as [->|He]; [apply (says_arr0 []); constructor|by apply says_arr].
  - cbn [text]. change (map (fun p => quote p.1 ++ [58] ++ text p.2) l) with (map entry l).
    destruct IHvalue_at as [->|He]; [apply (says_obj0 []); constructor|by apply says_obj].
  - by left.
  - right. rewrite comma_text_cons. destruct IHvalue_at0 as [->|He].
    + cbn [map comma]. rewrite !app_nil_r. apply (el_last [] j (text j) []); [constructor|done|constructor].
    + destruct l as [|j2 l]; [inversion He|]. rewrite <- !(assoc_L app).
      apply (el_more [] j (text j) [] (j2 :: l)); [constructor|done|constructor|done].
  - by left.
  - right. rewrite comma_cons. cbn [fst snd]. destruct IHvalue_at0 as [->|He].
    + cbn [length map comma app]. rewrite ?app_nil_r, <- ?(assoc_L app). cbn [app]. rewrite ?app_nil_r.
      apply (mb_last [] k (flat_map escape k) [] [] j (text j) []); try constructor; [by apply chars_of_quote|done].
    + destruct l as [|kj l]; [inversion He|]. cbn [length]. rewrite <- !(assoc_L app).
      apply (mb_more [] k (flat_map escape k) [] [] j (text j) [] (kj :: l)); try constructor; [by apply chars_of_quote|done|done].
Qed.

Section round.
Context `{A : Allocator} `{P : FloatPrint}.

(** [cJSON_Parse(cJSON_PrintUnformatted(p))]; the text ends at its NUL. *)
Definition print_parse (fuel : nat) (p : addr) : io pmem addr :=
  out ← lift (cJSON_PrintUnformatted fuel p);
  if decide (out = 0) then mret 0 else
  s ← lift (get_str out);
  cJSON_Parse (s ++ [0]) 0.

(** C16: parsing what the unformatted printer has printed gives the same tree again, in
    new blocks, next to the old one, or null because a request for memory was refused. *)
Theorem print_parse_roundtrip fuel st t p c j fp :
  wf (heap st) -> blocks (heap st) !! p = Some (BNode c) -> value_at (blocks (heap st)) c j fp ->
  (jsize j <= fuel)%nat -> Z.of_nat (length (text j)) < 1073741000 ->
  wp (print_parse fuel p) (fun q st' t' => t' = t /\
    ((q = 0 /\ refused) \/
     (exists fpq, item_at (blocks (heap st')) q j fpq /\ NoDup (q :: fpq) /\
       (forall a, a ∈ q :: fpq -> blocks (heap st) !! a = None) /\
       (forall a x, blocks (heap st) !! a = Some x -> blocks (heap st') !! a = Some x)))) st t.
Proof.
  intros Hw Hp Hv Hf Hl. unfold print_parse. wp_step. apply wp_lift.
  eapply wp_mono; [by eapply (value_at_prints (blocks (heap st)))|].
  intros out m1 t1 [-> (Hb1 & Hw1 & Hor)]. wp_if as [Hz|Hnz].
  { wp_step. split; [done|]. left. split; [done|]. by destruct Hor as [(_ & ? & _)|[? _]]. }
  destruct Hor as [(? & _)|(_ & Hfr & junk & Hm1)]; [done|]. pose proof (value_at_text _ _ _ _ Hv) as Hz.
  wp_step. apply wp_lift. eapply wp_get_str; [cbn [heap]; by rewrite Hm1, lookup_insert_eq|done|]. cbn [heap ep].
  unfold cJSON_Parse. wp_step. eapply wp_mono.
  { apply (wp_ParseWithOpts (text j ++ [0]) [] j (text j) [] [0] false); [done|constructor|by eapply value_at_says| | |done].
    - split; [done|]. simpl. unfold is_digit. lia.
    - rewrite length_app. simpl. lia. }
  intros [q e] st2 t2 (-> & _ & Hw2 & Hor). cbn [fst heap] in *. wp_step. split; [done|].
  destruct Hor as [(-> & Href & _)|(_ & fpq & Hi & Hnd & Hfresh & Hother)]; [by left|right].
  assert (Hold : forall a x, blocks (heap st) !! a = Some x -> blocks m1 !! a = Some x).
  { intros a x Ha. rewrite Hm1, lookup_insert_ne; [done|]. intros ->. congruence. }
  exists fpq. split_and!; [done|done| |].
  - intros a Ha. specialize (Hfresh a Ha). destruct (blocks (heap st) !! a) as [x|] eqn:E; [|done].
    apply Hold in E. congruence.
  - intros a x Ha. rewrite Hother; [by apply Hold|]. intros Hin. specialize (Hfresh a Hin). apply Hold in Ha. congruence.
Qed.
End round.

(** ** Numbers with a fraction or an exponent *)

Section numbers.
Context `{A : Allocator}.

Lemma wp_rd_at txt p c (Q : Z -> pmem -> trace -> Prop) st t : aget txt p = Some c -> Q c st t -> wp (rd txt p) Q st t.
Proof. intros H HQ. unfold rd. by eapply wp_of_option. Qed.

(** Run the scanner of numbers on a text that is given. *)
Ltac scan :=
  repeat lazymatch goal with
  | |- wp (rd _ _) _ _ _ => eapply wp_rd_at; [vm_compute; reflexivity|]
  | |- wp (int_digits _ _ _ _) _ _ _ => progress cbn [int_digits length]
  | |- wp (frac_digits _ _ _ _ _) _ _ _ => progress cbn [frac_digits length]
  | |- wp (exp_digits _ _ _ _) _ _ _ => progress cbn [exp_digits length]
  | |- wp (if decide ?P then _ else _) _ _ _ =>
      first [rewrite (decide_True (P := P)) by (vm_compute; intuition congruence) | rewrite (decide_False (P := P)) by (vm_compute; intuition congruence)]
  | |- wp (if is_digit_c ?c then _ else _) _ _ _ =>
      let b := eval vm_compute in (is_digit_c c) in change (is_digit_c c) with b; cbv iota
  | |- wp (let '(_, _) := (if decide ?P then _ else _) in _) _ _ _ =>
      first [rewrite (decide_True (P := P)) by (vm_compute; intuition congruence) | rewrite (decide_False (P := P)) by (vm_compute; intuition congruence)]; cbv iota beta zeta
  | |- _ => progress (cbv beta iota zeta) || wp_step
  end.

(** What a number is read as. *)
Definition number_read (s : list Z) (z : Z) : Prop := forall item c0 st t,
  wf (heap st) -> blocks (heap st) !! item = Some (BNode c0) ->
  wp (parse_number (s ++ [0]) item 0) (fun r st' t' => r = Some (Z.of_nat (length s)) /\
    exists c', blocks (heap st') !! item = Some (BNode c') /\ valueint c' = z) st t.

Ltac scan_number :=
  let item := fresh "item" in let c0 := fresh "c0" in let st := fresh "st" in let t := fresh "t" in
  let Hw := fresh "Hw" in let Hi := fresh "Hi" in
  intros item c0 st t Hw Hi;
  match goal with |- wp (parse_number ?s _ _) _ _ _ => let v := eval vm_compute in s in change s with v end;
  unfold parse_number; scan;
  match goal with |- context [pow ?f ?b ?e] => let v := eval vm_compute in (pow f b e) in
    replace (pow f b e) with v by (vm_compute; reflexivity) end;
  scan; apply wp_lift; eapply wp_upd_node; [exact Hi|exact Hw|]; intros m' Hm Hb Hw'; wp_step;
  split; [reflexivity|]; eexists; cbn [heap]; rewrite Hm, lookup_insert_eq; split; [reflexivity|vm_compute; reflexivity].

(** A fraction or an exponent goes through the power function of the C library, whose
    result is rounded, and the conversion to an integer cuts off: the texts 1.00 and 1e7 are
    read as the integers 0 and 9999999, and 12.5e1 as 125. *)
Theorem parse_number_cuts_off : number_read (bs "1.00") 0 /\ number_read (bs "1e7") 9999999 /\ number_read (bs "12.5e1") 125.
Proof. split_and!; scan_number. Qed.
End numbers.

(** ** Texts that are cut short *)

Lemma wrong_bind {S B C} (m : io S B) (k : B -> io S C) (Q : B -> S -> trace -> Prop) s t :
  wp m Q s t -> (forall b s' t', Q b s' t' -> k b s' t' = Undefined) -> (m ≫= k) s t = Undefined.
Proof. unfold wp, mbind, io_bind. intros H Hk. by destruct (m s t) as [[[b s'] t']| |]; [apply Hk| |]. Qed.

Lemma wrong_first {S B C} (m : io S B) (k : B -> io S C) s t : m s t = Undefined -> (m ≫= k) s t = Undefined.
Proof. unfold mbind, io_bind. by intros ->. Qed.

Section overruns.
Context `{A : Allocator} `{HG : !Generous A}.

Lemma wrong_rd {B} txt p c (k : Z -> io pmem B) st t : aget txt p = Some c -> k c st t = Undefined -> (rd txt p ≫= k) st t = Undefined.
Proof. intros H Hk. unfold mbind, io_bind, rd. by rewrite H. Qed.

Lemma put_outside out l b off st t : blocks (heap st) !! out = Some (BChars l) -> Z.of_nat (length l) <= off ->
  lift (put_bytes out off [b]) st t = Undefined.
Proof. intros Ho Hoff. unfold lift, put_bytes. rewrite Ho, decide_False by (simpl; lia). done. Qed.

(** Copying three characters into a block of two. *)
Lemma copy_overruns txt fuel out p l x y a b d rest st t :
  sfx txt p (a :: b :: d :: rest) -> Forall (fun c => c <> 34 /\ c <> 0 /\ c <> 92) [a; b; d] -> wf (heap st) ->
  l = [x; y] -> blocks (heap st) !! out = Some (BChars l) ->
  copy_loop txt (3 + fuel) out p 0 st t = Undefined.
Proof.
  intros Hs Hpl Hw -> Ho. rewrite !Forall_cons in Hpl. destruct Hpl as (Ha & Hb & Hd & _).
  pose proof (sfx_cons _ _ _ _ Hs) as Hs1. pose proof (sfx_cons _ _ _ _ Hs1) as Hs2.
  cbn [Nat.add copy_loop]. eapply wrong_rd; [by eapply sfx_get|].
  rewrite decide_True, decide_True by tauto.
  eapply (wrong_bind _ _ (fun _ s' t' => wf (heap s') /\ blocks (heap s') !! out = Some (BChars [a; y]))).
  { apply wp_lift. eapply (wp_put_mid out [] x [y]); [done|done|done|]. intros m' Hm Hbk Hw'. cbn [heap]. by rewrite Hm, lookup_insert_eq. }
  intros _ st1 t1 (Hw1 & Ho1). eapply wrong_rd; [by eapply sfx_get|].
  rewrite decide_True, decide_True by tauto.
  eapply (wrong_bind _ _ (fun _ s' t' => wf (heap s') /\ blocks (heap s') !! out = Some (BChars [a; b]))).
  { apply wp_lift. eapply (wp_put_mid out [a] y []); [done|done|done|]. intros m' Hm Hbk Hw'. cbn [heap]. by rewrite Hm, lookup_insert_eq. }
  intros _ st2 t2 (Hw2 & Ho2). eapply wrong_rd; [by eapply sfx_get|].
  rewrite decide_True, decide_True by tauto. apply wrong_first.
  eapply put_outside; [done|simpl; lia].
Qed.

(** The text: a quote, an escape [\u] without digits, the closing quote, and more. *)
Definition short_u (x y z a b d : Z) (rest : list Z) : list Z := 34 :: 92 :: 117 :: 34 :: x :: y :: z :: a :: b :: d :: rest.

Lemma parse_string_overruns x y z a b d rest item st t :
  Forall (fun c => c <> 34 /\ c <> 0 /\ c <> 92) [a; b; d] -> wf (heap st) ->
  parse_string (short_u x y z a b d rest) item 0 st t = Undefined.
Proof.
  intros Hpl Hw. set (txt := short_u x y z a b d rest). pose proof (sfx_start txt) as Hs. unfold txt in Hs at 2. unfold short_u in Hs.
  pose proof (sfx_cons _ _ _ _ Hs) as Hs1. pose proof (sfx_cons _ _ _ _ Hs1) as Hs2. pose proof (sfx_cons _ _ _ _ Hs2) as Hs3.
  assert (Hlen : exists f, length txt = (3 + f)%nat) by (by exists (7 + length rest)%nat). destruct Hlen as [f Hf].
  unfold parse_string. remember (length txt) as len0 eqn:Elen. clear Elen.
  eapply wrong_rd; [by eapply sfx_get|]. rewrite decide_False by lia.
  eapply (wrong_bind _ _ (fun len s' t' => len = 1 /\ s' = st)).
  { apply (wp_len_escape txt _ _ _ _ _ _ _ Hs1); [lia|]. rewrite Hf. cbn [Nat.add string_len].
    wp_step. eapply wp_rd; [exact Hs3|]. rewrite decide_False by lia. by wp_step. }
  intros len st1 t1 (-> & ->).
  eapply (wrong_bind _ _ (fun out s' t' => out <> 0 /\ wf (heap s') /\ exists p q, blocks (heap s') !! out = Some (BChars [p; q]))).
  { apply wp_lift, wp_malloc_as; [done| |].
    - intros m' _ _ _ (n & sz & Hr). destruct (grants n sz). congruence.
    - intros l m' Hl Hm _ Hw' Hne _. split_and!; [done|done|]. cbn [heap]. rewrite Hm, lookup_insert_eq.
      change (u32 (1 + 1)) with 2 in Hl. destruct l as [|p [|q [|? ?]]]; try done. by exists p, q. }
  intros out st1 t2 (Hne & Hw1 & p & q & Ho). rewrite decide_False by done. apply wrong_first.
  cbn [copy_loop]. eapply wrong_rd; [by eapply sfx_get|]. rewrite decide_True, decide_False by lia.
  eapply (wrong_bind _ _ (fun r s' t' => r = (6, 0) /\ s' = st1)).
  { unfold unescape. wp_step. eapply wp_rd; [exact Hs2|]. rewrite decide_True by done. unfold unescape_u, parse_hex4. wp_step.
    cbn [hex_digits]. wp_step. eapply wp_rd; [exact Hs3|].
    change (hex_digit 34) with (@None Z). cbv iota. wp_step. cbv zeta. rewrite decide_True by (by right). by wp_step. }
  intros r st2 t3 (-> & ->). cbv iota beta.
  rewrite Hf. eapply (copy_overruns txt f out _ [p; q] p q a b d rest); [|done|done|done|done].
  apply (sfx_app txt 0 [34; 92; 117; 34; x; y; z] (a :: b :: d :: rest)). done.
Qed.

(** C40: a text whose [\u] has no digits makes the parser write past the block that it has
    allocated: the first pass counts the escape as one character and stops at the quote behind
    it, the second skips four characters, the quote among them, and goes on copying. *)
Theorem short_escape_overruns x y z a b d rest require st t :
  Forall (fun c => c <> 34 /\ c <> 0 /\ c <> 92) [a; b; d] -> wf (heap st) ->
  cJSON_ParseWithOpts (short_u x y z a b d rest) 0 require st t = Undefined.
Proof.
  intros Hpl Hw. set (txt := short_u x y z a b d rest). pose proof (sfx_start txt) as Hs. unfold txt in Hs at 2. unfold short_u in Hs.
  unfold cJSON_ParseWithOpts.
  eapply (wrong_bind _ _ (fun c s' t' => c <> 0 /\ wf (heap s'))).
  { apply wp_new_item; [done| |].
    - intros m' _ _ _ (n & sz & Hr). destruct (grants n sz). congruence.
    - intros n m' Hne _ _ _ Hw'. done. }
  intros c st1 t1 (Hne & Hw1). eapply (wrong_bind _ _ (fun _ s' t' => wf (heap s'))); [done|].
  intros _ st2 t2 Hw2. rewrite decide_False by done.
  eapply (wrong_bind _ _ (fun v s' t' => v = 0 /\ s' = st2)).
  { eapply (wp_skip_at txt [] 0 (34 :: _)); [constructor|simpl; lia|exact Hs|]. done. }
  intros v st3 t3 (-> & ->). apply wrong_first. cbn [parse_value].
  change (bs "null") with [110; 117; 108; 108]; change (bs "false") with [102; 97; 108; 115; 101]; change (bs "true") with [116; 114; 117; 101].
  do 3 (eapply (wrong_bind _ _ (fun b s' t' => b = false /\ s' = st2)); [eapply wp_starts_no; [exact Hs|lia|done]|];
    intros ? ? ? (-> & ->); cbv iota beta).
  eapply wrong_rd; [by eapply sfx_get|]. rewrite decide_True by done. by apply parse_string_overruns.
Qed.
End overruns.

(** ** Witnesses *)

(** An array of a number, an escaped string and an object, with white space. *)
Definition sample_value : json := JArr [JInt (-20); JStr [195; 169; 10]; JObj [(bs "a", JTrue)]].
Definition sample_members : list Z := [32] ++ (34 :: bs "a" ++ [34]) ++ [] ++ 58 :: [9] ++ bs "true" ++ [] ++ [125].
Definition sample_elems : list Z :=
  [32] ++ fmt_d (-20) ++ [32] ++ 44 ::
  ([] ++ (34 :: (92 :: 117 :: 48 :: 48 :: 101 :: 57 :: 92 :: 110 :: []) ++ [34]) ++ [] ++ 44 ::
   ([10] ++ (123 :: sample_members) ++ [] ++ [93])).
Definition sample_text : list Z := 91 :: sample_elems.

Lemma sample_says : says sample_value sample_text.
Proof.
  assert (Hws : forall c, 0 < c <= 32 -> ws [c]) by (intros c Hc; constructor; [exact Hc|constructor]).
  apply says_arr, el_more; [by apply Hws|by apply says_int; unfold is_int|by apply Hws|].
  apply el_more; [constructor| |constructor|].
  - apply says_str. apply (co_u 48 48 101 57 233 [10]); [reflexivity|lia|lia|]. by apply co_short; [reflexivity|constructor].
  - apply el_last; [by apply Hws| |constructor]. apply says_obj, mb_last; [by apply Hws| |constructor|by apply Hws|constructor|constructor].
    apply (co_plain 97); [done|lia|lia|lia|constructor].
Qed.

Lemma parse_correct_witness :
  wp (@cJSON_ParseWithOpts ample ([9] ++ sample_text ++ [32] ++ [0]) 0 true) (fun r st' t' => t' = [] /\ ep st' = None /\ wf (heap st') /\
    ((r.1 = 0 /\ @refused ample /\ blocks (heap st') = blocks small_store) \/
     (r = (r.1, Some (Z.of_nat (length ([9] ++ sample_text ++ [32])))) /\ exists fp, item_at (blocks (heap st')) (r.1) sample_value fp /\
       NoDup (r.1 :: fp) /\ (forall a, a ∈ r.1 :: fp -> blocks small_store !! a = None) /\
       (forall a, a ∉ r.1 :: fp -> blocks (heap st') !! a = blocks small_store !! a)))) (mkP small_store None) [].
Proof.
  apply (@parse_correct ample _ [9] sample_value sample_text [32] [0] true (mkP small_store None) []).
  - reflexivity.
  - constructor; [lia|constructor].
  - apply sample_says.
  - split; [constructor; [lia|constructor]|reflexivity].
  - vm_compute. reflexivity.
  - apply small_store_wf.
Defined.

Lemma print_parse_roundtrip_witness :
  wp (@print_parse ample no_floats 8 1) (fun q st' t' => t' = [] /\
    ((q = 0 /\ @refused ample) \/
     (exists fpq, item_at (blocks (heap st')) q small_tree fpq /\ NoDup (q :: fpq) /\
       (forall a, a ∈ q :: fpq -> blocks small_store !! a = None) /\
       (forall a x, blocks small_store !! a = Some x -> blocks (heap st') !! a = Some x)))) (mkP small_store None) [].
Proof.
  destruct small_tree_at as (c & Hc & _ & _ & Hv).
  apply (@print_parse_roundtrip ample no_floats 8 (mkP small_store None) [] 1 c small_tree [2; 3; 4]);
    [apply small_store_wf|exact Hc|exact Hv|simpl; lia|vm_compute; reflexivity].
Defined.

Lemma short_escape_overruns_witness :
  @cJSON_ParseWithOpts ample (short_u 44 34 65 66 67 68 [34; 0]) 0 false (mkP small_store None) [] = Undefined.
Proof.
  apply (@short_escape_overruns ample ample_generous 44 34 65 66 67 68 [34; 0] false (mkP small_store None) []).
  - repeat constructor; lia.
  - apply small_store_wf.
Defined.
