(* ===== verification/CjsonMinify.v ===== *)
(** * Minifying JSON

    [cJSON_Minify] of cJSON.c, which takes white space and comments out of a text in
    place: what it leaves is the text without them, whatever lies behind the NUL, so
    that the parser reads it. *)

From S2P Require Import Prelude CString Double Env Cjson CjsonPrint CjsonDelete CjsonParse CjsonRead.

(** ** The code *)

(** [while ( *json && *json!='\n') json++;] *)
Fixpoint line_comment (fuel : nat) (a : list Z) (json : Z) : option Z :=
  match fuel with
  | O => None
  | S fuel =>
      c ← aget a json;
      if decide (c <> 0 /\ c <> 10) then line_comment fuel a (json + 1) else Some json
  end.

(** [while ( *json && !( *json=='*' && json[1]=='/')) json++;] *)
Fixpoint block_comment (fuel : nat) (a : list Z) (json : Z) : option Z :=
  match fuel with
  | O => None
  | S fuel =>
      c ← aget a json;
      if decide (c = 0) then Some json
      else if decide (c = 42) then
        d ← aget a (json + 1);
        if decide (d = 47) then Some json else block_comment fuel a (json + 1)
      else block_comment fuel a (json + 1)
  end.

(** [*into++=*json++] *)
Definition move_char (a : list Z) (into json : Z) : option (list Z * Z * Z) :=
  c ← aget a json; a ← aset a into c; Some (a, into + 1, json + 1).

(** The loop of a string literal, behind its first quote. *)
Fixpoint string_literal (fuel : nat) (a : list Z) (into json : Z) : option (list Z * Z * Z) :=
  match fuel with
  | O => None
  | S fuel =>
      c ← aget a json;
      if decide (c <> 0 /\ c <> 34) then
        '(a, into, json) ← (if decide (c = 92) then move_char a into json else Some (a, into, json));
        '(a, into, json) ← move_char a into json;
        string_literal fuel a into json
      else Some (a, into, json)
  end.

Definition is_blank (c : Z) : bool := bool_decide (c = 32 \/ c = 9 \/ c = 13 \/ c = 10).

Fixpoint minify_loop (fuel : nat) (a : list Z) (into json : Z) : option (list Z * Z) :=
  match fuel with
  | O => None
  | S fuel' =>
      c ← aget a json;
      if decide (c = 0) then Some (a, into)
      else if is_blank c then minify_loop fuel' a into (json + 1)
      else
        d ← (if decide (c = 47) then aget a (json + 1) else Some 0);
        if decide (c = 47 /\ d = 47) then
          json ← line_comment fuel a json; minify_loop fuel' a into json
        else if decide (c = 47 /\ d = 42) then
          json ← block_comment fuel a json; minify_loop fuel' a into (json + 2)
        else if decide (c = 34) then
          '(a, into, json) ← move_char a into json;
          '(a, into, json) ← string_literal fuel a into json;
          '(a, into, json) ← move_char a into json;
          minify_loop fuel' a into json
        else
          '(a, into, json) ← move_char a into json;
          minify_loop fuel' a into json
  end.

(** On the array [json]; [None] is an access outside it. *)
Definition cJSON_Minify (json : list Z) : option (list Z) :=
  '(a, into) ← minify_loop (S (length json)) json 0 0;
  aset a into 0.

(** ** What it is meant to do *)

(** The characters between the quotes of a literal. *)
Inductive quoted : list Z -> Prop :=
| q_nil : quoted []
| q_char c l : c <> 0 -> c <> 34 -> c <> 92 -> quoted l -> quoted (c :: l)
| q_escape d l : d <> 0 -> quoted l -> quoted (92 :: d :: l).

(** No end of a comment inside [l], which another star follows. *)
Fixpoint unclosed (l : list Z) : Prop :=
  match l with
  | [] => True
  | c :: l => c <> 0 /\ ~ (c = 42 /\ head (l ++ [42]) = Some 47) /\ unclosed l
  end.

(** [minifies s t]: [t] is [s] without white space and comments outside of literals. *)
Inductive minifies : list Z -> list Z -> Prop :=
| mf_nil : minifies [] []
| mf_blank c s t : is_blank c = true -> minifies s t -> minifies (c :: s) t
| mf_line l s t : Forall (fun c => c <> 0 /\ c <> 10) l -> head (s ++ [10]) = Some 10 -> minifies s t ->
    minifies (47 :: 47 :: l ++ s) t
| mf_block l s t : unclosed (42 :: l) -> minifies s t -> minifies (47 :: 42 :: l ++ 42 :: 47 :: s) t
| mf_literal l s t : quoted l -> minifies s t -> minifies (34 :: l ++ 34 :: s) (34 :: l ++ 34 :: t)
| mf_char c s t : c <> 0 -> c <> 34 -> is_blank c = false -> c <> 47 -> minifies s t -> minifies (c :: s) (c :: t).

(** ** The loops *)

Lemma aget_here (a l : list Z) i : i = Z.of_nat (length a) -> aget (a ++ l) i = head l.
Proof. intros ->. destruct l as [|x l]; [|by apply aget_mid]. unfold aget. rewrite decide_True, Nat2Z.id by lia. by apply lookup_ge_None; rewrite app_nil_r. Qed.

Lemma aget_next (a l : list Z) x : aget (a ++ x :: l) (Z.of_nat (length a) + 1) = head l.
Proof. rewrite (cons_middle x a), (assoc_L app). apply aget_here. rewrite length_app. simpl. lia. Qed.

Lemma line_comment_ok l : forall fuel a s, Forall (fun c => c <> 0 /\ c <> 10) l -> head s = Some 0 \/ head s = Some 10 ->
  (length l < fuel)%nat -> line_comment fuel (a ++ l ++ s) (Z.of_nat (length a)) = Some (Z.of_nat (length (a ++ l))).
Proof.
  induction l as [|c l IH]; intros [|fuel] a s Hl Hs Hf; simpl in Hf; try lia; cbn [line_comment].
  - rewrite aget_here, app_nil_r by done. simpl. by destruct Hs as [-> | ->].
  - apply Forall_cons in Hl as [Hc Hl]. cbn [app]. rewrite aget_mid by done. simpl. rewrite decide_True by done.
    specialize (IH fuel (a ++ [c]) s Hl Hs ltac:(lia)). rewrite <- !(assoc_L app) in IH. simpl in IH.
    rewrite <- IH. f_equal. rewrite length_app. simpl. lia.
Qed.

Lemma block_comment_ok l : forall fuel a s, unclosed l -> (length l < fuel)%nat ->
  block_comment fuel (a ++ l ++ 42 :: 47 :: s) (Z.of_nat (length a)) = Some (Z.of_nat (length (a ++ l))).
Proof.
  induction l as [|c l IH]; intros [|fuel] a s Hl Hf; simpl in Hf; try lia; cbn [block_comment].
  - rewrite app_nil_r. cbn [app]. rewrite (aget_here a _ _ eq_refl). simpl. by rewrite aget_next.
  - destruct Hl as (Hc & Hcl & Hl). cbn [app]. rewrite (aget_here a _ _ eq_refl). simpl. rewrite decide_False by done.
    specialize (IH fuel (a ++ [c]) s Hl ltac:(lia)). rewrite <- !(assoc_L app) in IH. simpl in IH.
    replace (Z.of_nat (length (a ++ [c]))) with (Z.of_nat (length a) + 1) in IH by (rewrite length_app; simpl; lia).
    case_decide as Hs; [|done]. subst c. rewrite aget_next.
    assert (exists d, head (l ++ 42 :: 47 :: s) = Some d /\ d <> 47) as (d & -> & Hd).
    { destruct l as [|d l]; [by exists 42|]. exists d. split; [done|]. intros ->. by apply Hcl. }
    simpl. rewrite decide_False by done. exact IH.
Qed.

(** A state of the minifier: [t] is done, [g] is to be overwritten, [s] is left. *)
Lemma move_char_ok t g c s : exists g', length g' = length g /\
  move_char (t ++ g ++ c :: s) (Z.of_nat (length t)) (Z.of_nat (length (t ++ g))) =
    Some ((t ++ [c]) ++ g' ++ s, Z.of_nat (length (t ++ [c])), Z.of_nat (length ((t ++ [c]) ++ g'))).
Proof.
  unfold move_char. rewrite (assoc_L app t g), aget_mid by done. cbn [mbind option_bind]. rewrite <- (assoc_L app t g).
  exists (drop 1 (g ++ [c])). split; [rewrite length_drop, length_app; simpl; lia|].
  destruct g as [|x g]; simpl.
  - rewrite aset_mid by done. simpl. rewrite <- !(assoc_L app). simpl. rewrite app_nil_r, !length_app. simpl.
    do 2 f_equal; [f_equal|]; lia.
  - rewrite aset_mid by done. simpl. rewrite drop_0, <- !(assoc_L app). simpl. rewrite !length_app. simpl. rewrite !length_app. simpl.
    do 2 f_equal; [f_equal|]; lia.
Qed.

Lemma string_literal_ok l : quoted l -> forall fuel t g s, head s = Some 34 -> (length l < fuel)%nat -> exists g', length g' = length g /\
  string_literal fuel (t ++ g ++ l ++ s) (Z.of_nat (length t)) (Z.of_nat (length (t ++ g))) =
    Some ((t ++ l) ++ g' ++ s, Z.of_nat (length (t ++ l)), Z.of_nat (length ((t ++ l) ++ g'))).
Proof.
  induction 1 as [|c l Hc0 Hc1 Hc2 Hl IH|d l Hd Hl IH]; intros [|fuel] t g s Hs Hf; simpl in Hf; try lia; cbn [string_literal].
  - exists g. split; [done|]. rewrite app_nil_r. cbn [app]. rewrite (assoc_L app), (aget_here (t ++ g) _ _ eq_refl), Hs. done.
  - cbn [app]. rewrite (assoc_L app t g), (aget_here (t ++ g) _ _ eq_refl). cbn [head mbind option_bind].
    rewrite decide_True by done. rewrite (decide_False (P := c = 92)) by done. cbn [mbind option_bind]. rewrite <- (assoc_L app t g).
    destruct (move_char_ok t g c (l ++ s)) as (g1 & Hg1 & ->). cbn [mbind option_bind].
    destruct (IH fuel (t ++ [c]) g1 s Hs ltac:(lia)) as (g2 & Hg2 & E). exists g2. split; [congruence|].
    rewrite E. by rewrite <- !(assoc_L app).
  - cbn [app]. rewrite (assoc_L app t g), (aget_here (t ++ g) _ _ eq_refl). cbn [head mbind option_bind].
    rewrite !decide_True by done. rewrite <- (assoc_L app t g).
    destruct (move_char_ok t g 92 (d :: l ++ s)) as (g1 & Hg1 & ->). cbn [mbind option_bind].
    destruct (move_char_ok (t ++ [92]) g1 d (l ++ s)) as (g2 & Hg2 & ->). cbn [mbind option_bind].
    destruct (IH fuel ((t ++ [92]) ++ [d]) g2 s Hs ltac:(lia)) as (g3 & Hg3 & E). exists g3. split; [congruence|].
    rewrite E. by rewrite <- !(assoc_L app).
Qed.

Lemma minify_loop_ok s t : minifies s t -> forall fuel u g rest, (length s < fuel)%nat -> exists g',
  (length t + length g' = length s + length g)%nat /\
  minify_loop fuel (u ++ g ++ s ++ 0 :: rest) (Z.of_nat (length u)) (Z.of_nat (length (u ++ g))) =
    Some ((u ++ t) ++ g' ++ 0 :: rest, Z.of_nat (length (u ++ t))).
Proof.
  induction 1 as [|c s t Hb Hs IH|l s t Hl Hh Hs IH|l s t Hl Hs IH|l s t Hl Hs IH|c s t H0 H1 H2 H3 Hs IH];
    intros [|fuel] u g rest Hf; simpl in Hf; try lia; cbn [minify_loop];
    cbn [app]; rewrite (assoc_L app u g), (aget_here (u ++ g) _ _ eq_refl); cbn [head mbind option_bind].
  - exists g. split; [simpl; lia|]. by rewrite decide_True, <- (assoc_L app), app_nil_r by done.
  - rewrite decide_False by (intros ->; done). rewrite Hb.
    destruct (IH fuel u (g ++ [c]) rest ltac:(lia)) as (g' & El & E). exists g'.
    split; [rewrite length_app in El; simpl in *; lia|]. rewrite <- E. rewrite <- !(assoc_L app). cbn [app].
    f_equal. rewrite !length_app. simpl. lia.
  - rewrite decide_False by done. change (is_blank 47) with false. cbv iota. rewrite (decide_True (P := 47 = 47)) by done.
    rewrite aget_next. cbn [head mbind option_bind]. rewrite decide_True by done.
    assert (Hd : head (s ++ 0 :: rest) = Some 0 \/ head (s ++ 0 :: rest) = Some 10) by (destruct s; simpl in *; [by left|by right]).
    rewrite length_app in Hf. rewrite <- (assoc_L app l).
    pose proof (line_comment_ok (47 :: 47 :: l) (S fuel) (u ++ g) (s ++ 0 :: rest)) as E. cbn [app] in E.
    rewrite E; [|by rewrite !Forall_cons|done|simpl; lia]. cbn [mbind option_bind].
    destruct (IH fuel u (g ++ 47 :: 47 :: l) rest ltac:(lia)) as (g' & El & E'). exists g'.
    split; [repeat (rewrite length_app in * || simpl in * ); lia|]. rewrite <- E'.
    by rewrite <- !(assoc_L app).
  - rewrite decide_False by done. change (is_blank 47) with false. cbv iota. rewrite (decide_True (P := 47 = 47)) by done.
    rewrite aget_next. cbn [head mbind option_bind].
    rewrite (decide_False (P := 47 = 47 /\ 42 = 47)) by (by intros [_ ?]). rewrite (decide_True (P := 47 = 47 /\ 42 = 42)) by done.
    rewrite length_app in Hf. simpl in Hf. rewrite <- (assoc_L app l).
    pose proof (block_comment_ok (47 :: 42 :: l) (S fuel) (u ++ g) (s ++ 0 :: rest)) as E. cbn [app] in E.
    cbn [app]. rewrite E; [|split; [done|split; [by intros [? _]|exact Hl]]|simpl; lia]. cbn [mbind option_bind].
    destruct (IH fuel u (g ++ 47 :: 42 :: l ++ [42; 47]) rest ltac:(lia)) as (g' & El & E'). exists g'.
    split; [repeat (rewrite length_app in * || simpl in * ); lia|]. rewrite <- E'.
    rewrite <- !(assoc_L app). cbn [app]. rewrite <- !(assoc_L app). cbn [app]. f_equal. rewrite !length_app. simpl. rewrite !length_app. simpl. lia.
  - rewrite decide_False by done. change (is_blank 34) with false. cbv iota. rewrite (decide_False (P := 34 = 47)) by done.
    cbn [mbind option_bind]. rewrite (decide_False (P := 34 = 47 /\ 0 = 47)), (decide_False (P := 34 = 47 /\ 0 = 42)) by (by intros [? _]).
    rewrite (decide_True (P := 34 = 34)) by done. rewrite <- (assoc_L app u g).
    rewrite length_app in Hf. simpl in Hf. rewrite <- (assoc_L app l). cbn [app].
    destruct (move_char_ok u g 34 (l ++ 34 :: s ++ 0 :: rest)) as (g1 & Hg1 & ->). cbn [mbind option_bind].
    destruct (string_literal_ok l Hl (S fuel) (u ++ [34]) g1 (34 :: s ++ 0 :: rest) eq_refl ltac:(lia)) as (g2 & Hg2 & ->).
    cbn [mbind option_bind].
    destruct (move_char_ok ((u ++ [34]) ++ l) g2 34 (s ++ 0 :: rest)) as (g3 & Hg3 & ->). cbn [mbind option_bind].
    destruct (IH fuel (((u ++ [34]) ++ l) ++ [34]) g3 rest ltac:(lia)) as (g4 & El & ->). exists g4.
    split; [repeat (rewrite length_app in * || simpl in * ); lia|]. rewrite <- !(assoc_L app). cbn [app].
    by rewrite <- !(assoc_L app).
  - rewrite decide_False, H2 by done. rewrite (decide_False (P := c = 47)) by done. cbn [mbind option_bind].
    rewrite (decide_False (P := c = 47 /\ 0 = 47)), (decide_False (P := c = 47 /\ 0 = 42)), (decide_False (P := c = 34)) by (done || by intros [? _]).
    rewrite <- (assoc_L app u g).
    destruct (move_char_ok u g c (s ++ 0 :: rest)) as (g1 & Hg1 & ->). cbn [mbind option_bind].
    destruct (IH fuel (u ++ [c]) g1 rest ltac:(lia)) as (g2 & El & ->). exists g2. split; [simpl in *; lia|]. by rewrite <- !(assoc_L app).
Qed.

Lemma minify_ok s t rest : minifies s t -> exists rest', cJSON_Minify (s ++ 0 :: rest) = Some (t ++ 0 :: rest') /\
  length (t ++ 0 :: rest') = length (s ++ 0 :: rest).
Proof.
  intros H. unfold cJSON_Minify. destruct (minify_loop_ok s t H (S (length (s ++ 0 :: rest))) [] [] rest) as (g & El & E).
  { rewrite length_app. simpl. lia. }
  cbn [app] in E. change (Z.of_nat (length (@nil Z))) with 0 in E. rewrite E. cbn [mbind option_bind].
  destruct g as [|x g]; [exists rest|exists (g ++ 0 :: rest)]; cbn [app]; rewrite aset_mid by done; (split; [done|]);
    repeat (rewrite length_app in * || simpl in * ); lia.
Qed.

(** ** Texts of the grammar *)

(** [s] becomes [s'] in every text. *)
Definition becomes (s s' : list Z) : Prop := forall r u, minifies r u -> minifies (s ++ r) (s' ++ u).

Lemma becomes_nil : becomes [] [].
Proof. by intros r u. Qed.
Lemma becomes_app a a' b b' : becomes a a' -> becomes b b' -> becomes (a ++ b) (a' ++ b').
Proof. intros Ha Hb r u H. rewrite <- !(assoc_L app). by apply Ha, Hb. Qed.

(** A character that is kept. *)
Definition kept (c : Z) : Prop := c <> 0 /\ c <> 34 /\ is_blank c = false /\ c <> 47.

Lemma becomes_cons c s s' : kept c -> becomes s s' -> becomes (c :: s) (c :: s').
Proof. intros (?&?&?&?) Hs r u Hm. cbn [app]. apply mf_char; auto. Qed.

Lemma becomes_kept s : Forall kept s -> becomes s s.
Proof. induction 1; [apply becomes_nil|by apply becomes_cons]. Qed.

Lemma becomes_drop c s s' : is_blank c = true -> becomes s s' -> becomes (c :: s) s'.
Proof. intros Hc Hs r u H. cbn [app]. apply mf_blank; auto. Qed.

Lemma becomes_literal l s s' : quoted l -> becomes s s' -> becomes ((34 :: l ++ [34]) ++ s) ((34 :: l ++ [34]) ++ s').
Proof. intros Hl Hs r u H. cbn [app]. rewrite <- !(assoc_L app). cbn [app]. apply mf_literal; auto. Qed.

(** White space becomes white space: none but control characters. *)
Lemma becomes_ws w : ws w -> exists w', ws w' /\ becomes w w'.
Proof.
  induction 1 as [|c w Hc _ (w' & Hw' & Hb)]; [exists []; split; [constructor|apply becomes_nil]|].
  destruct (is_blank c) eqn:E.
  - exists w'. split; [done|]. by apply becomes_drop.
  - exists (c :: w'). split; [by constructor|]. apply becomes_cons; [|done].
    unfold kept. split_and!; (done || lia).
Qed.

Ltac kept_chars := repeat first [apply Forall_nil_2 | apply Forall_cons_2; [by vm_compute|]].

Lemma kept_digit c : is_digit c -> kept c.
Proof. unfold is_digit, kept, is_blank. intros. rewrite bool_decide_false by lia. split_and!; (done || lia). Qed.

Lemma kept_int z : Forall kept (fmt_d z).
Proof.
  assert (H : forall m, 0 <= m -> Forall kept (print_nat_dec m)).
  { intros m Hm. destruct (print_nat_dec_spec m Hm) as [Hd _]. eapply Forall_impl; [exact Hd|]. apply kept_digit. }
  unfold fmt_d. case_decide; [apply Forall_cons_2; [by vm_compute|]|]; apply H; lia.
Qed.

Lemma hex_digit_quoted a x : hex_digit a = Some x -> a <> 0 /\ a <> 34 /\ a <> 92.
Proof. unfold hex_digit. intros H. split_and!; intros ->; done. Qed.

Lemma hex4_quoted a b c d x l : hex4 a b c d = Some x -> quoted l -> quoted (a :: b :: c :: d :: l).
Proof.
  unfold hex4. intros H Hl. destruct (hex_digit a) eqn:Ea; [|done]. destruct (hex_digit b) eqn:Eb; [|done].
  destruct (hex_digit c) eqn:Ec; [|done]. destruct (hex_digit d) eqn:Ed; [|done].
  apply hex_digit_quoted in Ea as (?&?&?), Eb as (?&?&?), Ec as (?&?&?), Ed as (?&?&?). by repeat (constructor; [done..|]).
Qed.

Lemma chars_quoted s t : chars_of s t -> quoted t.
Proof.
  induction 1 as [|c s t Hb H0 H1 H2 _ IH|e x s t He _ IH|a b c d uc s t H _ _ _ IH|a b c d a' b' c' d' hi lo s t H1 H2 _ _ _ IH].
  - constructor.
  - by constructor.
  - constructor; [|done]. intros ->. done.
  - constructor; [done|]. by eapply hex4_quoted.
  - constructor; [done|]. eapply hex4_quoted; [done|]. constructor; [done|]. by eapply hex4_quoted.
Qed.

Ltac becomes_parts :=
  repeat first
    [ eassumption
    | apply becomes_literal; [by eapply chars_quoted|]
    | apply becomes_cons; [by vm_compute|]
    | apply becomes_nil
    | apply becomes_app; [eassumption|] ].

Lemma says_becomes j s : says j s -> exists s', says j s' /\ becomes s s'.
Proof.
  intros Hsy. induction Hsy using says_mut with
    (P0 := fun l s (_ : elems l s) => exists s', elems l s' /\ becomes s s')
    (P1 := fun l s (_ : members l s) => exists s', members l s' /\ becomes s s');
    repeat match goal with Hw : ws _ |- _ => apply becomes_ws in Hw end;
    repeat match goal with He : exists _, _ /\ _ |- _ => destruct He as (? & ? & ?) end.
  1-3: eexists; (split; [constructor|]); apply becomes_kept; kept_chars.
  - eexists. split; [by constructor|]. apply becomes_kept, kept_int.
  - eexists. split; [by constructor|]. rewrite <- (app_nil_r (34 :: t ++ [34])).
    apply becomes_literal; [by eapply chars_quoted|apply becomes_nil].
  - eexists. split; cycle 1; [becomes_parts|by apply says_arr0].
  - eexists. split; cycle 1; [becomes_parts|by apply says_arr].
  - eexists. split; cycle 1; [becomes_parts|by apply says_obj0].
  - eexists. split; cycle 1; [becomes_parts|by apply says_obj].
  - eexists. split; cycle 1; [becomes_parts|by apply el_last].
  - eexists. split; cycle 1; [becomes_parts|by apply el_more].
  - eexists. split; cycle 1; [becomes_parts|by apply mb_last].
  - eexists. split; cycle 1; [becomes_parts|by apply mb_more].
Qed.

(** ** Theorems *)

(** A text of the grammar is minified to a text of the same value. *)
Lemma says_minifies j s : says j s -> exists t, minifies s t /\ says j t.
Proof.
  intros H. destruct (says_becomes _ _ H) as (t & Ht & Hb). exists t. split; [|done].
  rewrite <- (app_nil_r s), <- (app_nil_r t). apply Hb. constructor.
Qed.

(** A JSON text with comments and white space is minified in place to the text
    without them, behind which the parser reads its value: for a text [s] whose literals
    are closed, which is a text of [j] when white space and comments outside of literals
    are taken out, the array holds that text and its NUL afterwards, no access has been
    outside the array, and [cJSON_ParseWithOpts] builds the tree of [j] or returns null
    because memory was refused.  Every text of the grammar is such a text. *)
Theorem minify_then_parse `{A : Allocator} s u j rest st t :
  minifies s u -> says j u -> Z.of_nat (length (s ++ 0 :: rest)) < 2147483647 -> wf (heap st) ->
  exists rest', cJSON_Minify (s ++ 0 :: rest) = Some (u ++ 0 :: rest') /\
    wp (cJSON_ParseWithOpts (u ++ 0 :: rest') 0 true) (fun r st' t' => t' = t /\ wf (heap st') /\
      ((r.1 = 0 /\ refused /\ blocks (heap st') = blocks (heap st)) \/
       exists fp, item_at (blocks (heap st')) (r.1) j fp /\ NoDup (r.1 :: fp) /\
         (forall a, a ∈ r.1 :: fp -> blocks (heap st) !! a = None) /\
         (forall a, a ∉ r.1 :: fp -> blocks (heap st') !! a = blocks (heap st) !! a))) st t.
Proof.
  intros Hm Hj Hl Hw. destruct (minify_ok s u rest Hm) as (rest' & E & Hlen). exists rest'. split; [done|].
  eapply wp_mono; [apply (wp_ParseWithOpts _ [] j u [] (0 :: rest') true)|].
  - done.
  - constructor.
  - done.
  - by split; [constructor|].
  - lia.
  - done.
  - intros r st' t' (-> & _ & Hw' & [H|(_ & H)]); (split; [done|]); (split; [done|]); [by left|by right].
Qed.

(** A comment that is not closed takes the minifier over the NUL, as does a literal; and
    a comment that starts with a slash ends there. *)
Lemma minify_overruns :
  cJSON_Minify (bs "1/*" ++ [0]) = None /\ cJSON_Minify (34 :: bs "a" ++ [0]) = None /\
  cJSON_Minify (bs "/*/1*/" ++ [0]) = Some (bs "1*/" ++ 0 :: bs "*/" ++ [0]).
Proof. by vm_compute. Qed.

(** ** Witness *)

Definition commented : list Z := bs "[ 1, /* two */ {} ]" ++ bs "//end".
Definition uncommented : list Z := bs "[1,{}]".

Lemma minify_then_parse_witness :
  exists rest', cJSON_Minify (commented ++ [0]) = Some (uncommented ++ 0 :: rest') /\
    wp (@cJSON_ParseWithOpts ample (uncommented ++ 0 :: rest') 0 true) (fun r st' t' => t' = [] /\ wf (heap st') /\
      ((r.1 = 0 /\ @refused ample /\ blocks (heap st') = ∅) \/
       exists fp, item_at (blocks (heap st')) (r.1) (JArr [JInt 1; JObj []]) fp /\ NoDup (r.1 :: fp) /\
         (forall a, a ∈ r.1 :: fp -> (∅ : gmap Z block) !! a = None) /\
         (forall a, a ∉ r.1 :: fp -> blocks (heap st') !! a = (∅ : gmap Z block) !! a))) (mkP empty_store None) [].
Proof.
  apply (@minify_then_parse ample commented uncommented (JArr [JInt 1; JObj []]) [] (mkP empty_store None) []).
  - apply mf_char; [done|done|done|done|]. apply mf_blank; [done|]. do 2 (apply mf_char; [done|done|done|done|]). apply mf_blank; [done|].
    apply (mf_block (bs " two ")); [vm_compute; naive_solver|]. apply mf_blank; [done|].
    do 2 (apply mf_char; [done|done|done|done|]). apply mf_blank; [done|]. apply mf_char; [done|done|done|done|].
    apply (mf_line (bs "end") []); [|done|constructor]. by repeat (constructor; [done|]); constructor.
  - apply (says_arr _ (bs "1,{}]")). apply (el_more [] (JInt 1) (fmt_d 1) [] [JObj []] (bs "{}]")); [constructor|by constructor|constructor|].
    apply (el_last [] (JObj []) (123 :: [] ++ [125]) []); constructor; constructor.
  - vm_compute. reflexivity.
  - apply empty_store_wf.
Defined.
