(* ===== verification/DeviceJson.v ===== *)
(** * The device record as JSON

    Models [DeviveInfotoJson] of src/apps/examples/NB_Iot/DeviceInfo.c on the
    store of [Cjson]: the tree is built, printed, copied to the caller's array and
    deleted.  The lemmas about building carry the tree under construction; the
    theorem gives the text, and the one block the function does not free. *)

From Stdlib Require Import SpecFloat.
From S2P Require Import Prelude CString Env DeviceInfo Double Cjson CjsonPrint CjsonDelete.

Section report.
Context `{A : Allocator} `{P : FloatPrint}.

Definition cJSON_AddStringToObject (object : addr) (name s : list Z) : io mem () :=
  item ← cJSON_CreateString s; cJSON_AddItemToObject object name item.

Definition cJSON_AddNumberToObject (object : addr) (name : list Z) (n : double) : io mem () :=
  item ← cJSON_CreateNumber n; cJSON_AddItemToObject object name item.

(** The array of the caller is a parameter and part of the result. *)
Definition DeviveInfotoJson (d : DEVICEINFO) (jsonbuff : list Z) : io mem (list Z) :=
  json ← cJSON_CreateObject;
  object ← cJSON_CreateObject;
  cJSON_AddItemToObject json (bs "DeviceInfo") object;;
  s ← of_option (c_str (BaseName d)); cJSON_AddStringToObject object (bs "BaseName") s;;
  s ← of_option (c_str (GUID d)); cJSON_AddStringToObject object (bs "GUID") s;;
  s ← of_option (c_str (Address d)); cJSON_AddStringToObject object (bs "Address") s;;
  s ← of_option (c_str (Switch d)); cJSON_AddStringToObject object (bs "Switch") s;;
  cJSON_AddNumberToObject object (bs "BaseTemperature") (double_of_int (BaseTemperature d));;
  cJSON_AddNumberToObject object (bs "LedTemperature") (double_of_int (LedTemperature d));;
  cJSON_AddNumberToObject object (bs "Brightness") (double_of_int (Brightness d));;
  cJSON_AddNumberToObject object (bs "ColorTemperature") (double_of_int (ColorTemperature d));;
  cJSON_AddNumberToObject object (bs "Voltage") (double_of_int (Voltage d));;
  cJSON_AddNumberToObject object (bs "Current") (double_of_int (Current d));;
  buf ← cJSON_PrintUnformatted 64 json;
  s ← get_str buf;
  jsonbuff' ← of_option (store_str jsonbuff 0 s);
  cJSON_Delete 64 json;;
  mret jsonbuff'.
End report.

(** ** Building *)

(** [m'] is [m] outside the blocks [F]. *)
Definition changes (F : list Z) (m m' : mem) : Prop :=
  forall a, a ∉ F -> blocks m' !! a = blocks m !! a.

Section build.
Context `{A : Allocator} `{HG : !Generous A} `{P : FloatPrint}.

Lemma wp_malloc_granted sz b (Q : addr -> mem -> trace -> Prop) m t :
  wf m ->
  (forall l m', length l = Z.to_nat sz -> blocks m' = <[brk m := b l]> (blocks m) ->
    brk m' = brk m + 1 -> wf m' -> brk m <> 0 -> blocks m !! brk m = None -> Q (brk m) m' t) ->
  wp (malloc_as sz b) Q m t.
Proof.
  intros Hm HQ. destruct (grants (brk m) sz) as [l Hl].
  unfold wp, malloc_as. rewrite Hl. pose proof (wf_fresh m Hm). apply (HQ l); try done.
  - by eapply fresh_length.
  - apply (wf_update m); [done|lia|]. intros a Ha.
    destruct (decide (a = brk m)) as [->|]; [right; lia|left]. by rewrite lookup_insert_ne in Ha.
  - destruct Hm. lia.
Qed.

Lemma wp_strdup_granted s (Q : addr -> mem -> trace -> Prop) m t :
  wf m ->
  (forall m', blocks m' = <[brk m := BChars (s ++ [0])]> (blocks m) -> brk m' = brk m + 1 ->
    wf m' -> brk m <> 0 -> blocks m !! brk m = None -> Q (brk m) m' t) ->
  wp (cJSON_strdup s) Q m t.
Proof.
  intros Hm HQ. unfold cJSON_strdup, cJSON_malloc. wp_step. apply wp_malloc_granted; [done|].
  intros l m1 Hl Hm1 Hb1 Hw1 Hne Hfr. rewrite decide_False by done. wp_step.
  apply (wp_put' _ [] l (s ++ [0])); try done.
  - by rewrite Hm1, lookup_insert_eq.
  - rewrite length_app. simpl. lia.
  - intros tail m2 Hl2 Hm2 Hb2 Hw2. wp_step. apply HQ; try done; [|congruence].
    rewrite length_app in Hl2. simpl in Hl2. destruct tail; [|simpl in Hl2; lia].
    by rewrite Hm2, Hm1, insert_insert_eq, app_nil_r.
Qed.

(** What a constructor leaves: a new root, in new blocks. *)
Definition made (j : json) (m : mem) (p : addr) (m' : mem) : Prop :=
  exists fp, item_at (blocks m') p j fp /\ NoDup (p :: fp) /\ wf m' /\
    changes (p :: fp) m m' /\ Forall (fun a => brk m <= a) (p :: fp) /\ brk m <= brk m'.

Lemma wp_create_object m t : wf m ->
  wp cJSON_CreateObject (fun p m' t' => t' = t /\ made (JObj []) m p m') m t.
Proof.
  intros Hm. unfold cJSON_CreateObject, cJSON_New_Item. wp_step. apply wp_malloc_granted; [done|].
  intros l m1 _ Hm1 Hb1 Hw1 Hne Hfr. rewrite decide_False by done. wp_step.
  eapply wp_upd_node; [by rewrite Hm1, lookup_insert_eq|done|]. intros m2 Hm2 Hb2 Hw2. wp_step.
  split; [done|]. rewrite Hm1, insert_insert_eq in Hm2. exists []. split_and!; try done.
  - eexists. rewrite Hm2, lookup_insert_eq. split_and!; try done. constructor; try done. constructor.
  - apply NoDup_singleton.
  - intros a Ha. rewrite Hm2, lookup_insert_ne; [done|]. rewrite list_elem_of_singleton in Ha. congruence.
  - constructor; [lia|constructor].
  - lia.
Qed.

Lemma wp_create_number z m t : wf m -> is_short z ->
  wp (cJSON_CreateNumber (double_of_int z)) (fun p m' t' => t' = t /\ made (JInt z) m p m') m t.
Proof.
  intros Hm Hz. unfold cJSON_CreateNumber, cJSON_New_Item. wp_step. apply wp_malloc_granted; [done|].
  intros l m1 _ Hm1 Hb1 Hw1 Hne Hfr. rewrite decide_False by done. wp_step.
  eapply wp_upd_node; [by rewrite Hm1, lookup_insert_eq|done|]. intros m2 Hm2 Hb2 Hw2. wp_step.
  split; [done|]. rewrite Hm1, insert_insert_eq in Hm2. exists []. split_and!; try done.
  - eexists. rewrite Hm2, lookup_insert_eq. split_and!; try done. constructor; try done.
    unfold is_short in Hz. assert (Hi : is_int z) by (unfold is_int; lia).
    split_and!; [done| |done]. by apply int_of_double_of_int.
  - apply NoDup_singleton.
  - intros a Ha. rewrite Hm2, lookup_insert_ne; [done|]. rewrite list_elem_of_singleton in Ha. congruence.
  - constructor; [lia|constructor].
  - lia.
Qed.

Lemma wp_create_string s m t : wf m -> bytes s -> Forall (fun c => c <> 0) s ->
  wp (cJSON_CreateString s) (fun p m' t' => t' = t /\ made (JStr s) m p m') m t.
Proof.
  intros Hm Hb Hn. unfold cJSON_CreateString, cJSON_New_Item. wp_step. apply wp_malloc_granted; [done|].
  intros l m1 _ Hm1 Hb1 Hw1 Hne Hfr. rewrite decide_False by done. wp_steps.
  eapply wp_upd_node; [by rewrite Hm1, lookup_insert_eq|done|]. intros m2 Hm2 Hb2 Hw2.
  rewrite Hm1, insert_insert_eq in Hm2. wp_step.
  apply wp_strdup_granted; [done|]. intros m3 Hm3 Hb3 Hw3 Hne3 Hfr3.
  assert (Hd : brk m <> brk m2) by lia.
  eapply wp_upd_node; [by rewrite Hm3, lookup_insert_ne, Hm2, lookup_insert_eq by done|done|].
  intros m4 Hm4 Hb4 Hw4. wp_step. split; [done|]. exists [brk m2].
  assert (Hs4 : blocks m4 !! brk m2 = Some (BChars (s ++ [0]))).
  { by rewrite Hm4, lookup_insert_ne, Hm3, lookup_insert_eq. }
  split_and!; try done.
  - eexists. rewrite Hm4, lookup_insert_eq. split_and!; try done.
    apply (va_str _ (set_valuestring (brk m2) (set_type cJSON_String cJSON_zero)) s []); try done.
    simpl. by rewrite <- Hm4.
  - constructor; [|apply NoDup_singleton]. rewrite list_elem_of_singleton. done.
  - intros a Ha. rewrite !not_elem_of_cons in Ha. destruct Ha as (Ha1 & Ha2 & _).
    by rewrite Hm4, lookup_insert_ne, Hm3, lookup_insert_ne, Hm2, lookup_insert_ne by done.
  - constructor; [lia|]. constructor; [lia|constructor].
  - lia.
Qed.

(** ** Adding to an object *)

(** The end of a chain, and the chain with one more entry behind it. *)
Record chain_end (h : gmap Z block) (p : addr) (l : list (list Z * json)) (fp : list Z)
    (q : addr) (cq : cJSON) : Prop := {
  ce_in : q ∈ fp;
  ce_node : h !! q = Some (BNode cq);
  ce_find : forall fuel m t, (length l <= fuel)%nat -> (forall a, a ∈ fp -> blocks m !! a = h !! a) ->
    wp (last_of fuel p) (fun r m' t' => r = q /\ m' = m /\ t' = t) m t;
  ce_snoc : forall h' it x fpx, (forall a, a ∈ fp -> a <> q -> h' !! a = h !! a) ->
    h' !! q = Some (BNode (set_next it cq)) -> chain_at h' it [x] fpx ->
    chain_at h' p (l ++ [x]) (fp ++ fpx)
}.

Lemma chain_has_end h p l fp : chain_at h p l fp -> l <> [] -> NoDup fp ->
  exists q cq, chain_end h p l fp q cq.
Proof.
  induction 1 as [|p c k junk j l fp1 fp2 Hp Hc Hs Hk Hb Hn Hv Hl IH]; intros Hne Hnd; [done|].
  apply NoDup_cons in Hnd as [Hnp Hnd]. apply NoDup_cons in Hnd as [Hns Hnd].
  apply NoDup_app in Hnd as (Hnd1 & Hdisj & Hnd2).
  destruct l as [|x l].
  - inversion Hl as [Hnil|]; subst. rewrite app_nil_r in *. exists p, c. split.
    + set_solver.
    + done.
    + intros [|fuel] m t Hf Hag; simpl in *; [lia|]. wp_step.
      eapply wp_get_node; [rewrite Hag; [done|set_solver]|]. rewrite decide_True by done. by wp_step.
    + intros h' it x fpx Hag Hq Hx. simpl.
      apply (ca_cons h' p (set_next it c) k junk j [x] fp1 fpx); try done.
      * simpl. rewrite Hag; [done|set_solver|set_solver].
      * apply (value_at_fields _ c); [|done..]. apply (value_at_agree h); [exact Hv|].
        intros a Ha. apply Hag; set_solver.
  - destruct (IH ltac:(done) Hnd2) as (q & cq & [Hin Hq Hfind Hsnoc]). exists q, cq.
    assert (Hpq : p <> q) by set_solver. split.
    + set_solver.
    + done.
    + intros [|fuel] m t Hf Hag; simpl in *; [lia|]. wp_step.
      eapply wp_get_node; [rewrite Hag; [done|set_solver]|].
      rewrite decide_False by (inversion Hl; congruence). apply Hfind; [lia|set_solver].
    + intros h' it y fpy Hag Hq' Hy. simpl. rewrite <- (assoc_L app).
      apply (ca_cons h' p c k junk j (x :: l ++ [y]) fp1 (fp2 ++ fpy)); try done.
      * rewrite Hag; [done|set_solver|done].
      * rewrite Hag; [done|set_solver|]. set_solver.
      * eapply value_at_agree; [done|]. intros a Ha. apply Hag; [set_solver|]. set_solver.
      * apply (Hsnoc h' it y fpy); [|done|done]. intros a Ha Haq. apply Hag; [set_solver|done].
Qed.

Lemma footprint_size (h : gmap Z block) (fp : list Z) : NoDup fp -> (forall a, a ∈ fp -> is_Some (h !! a)) ->
  (length fp <= size h)%nat.
Proof.
  intros Hnd Hin. rewrite <- (size_list_to_set (C := gset Z) fp) by done.
  rewrite <- size_dom. apply subseteq_size. intros a Ha. apply elem_of_list_to_set in Ha.
  by apply elem_of_dom, Hin.
Qed.

Lemma chain_length h p l fp : chain_at h p l fp -> (length l <= length fp)%nat.
Proof. induction 1; simpl; [lia|]. rewrite length_app. lia. Qed.

Lemma chain_at_dom h p l fp : chain_at h p l fp -> forall a, a ∈ fp -> is_Some (h !! a).
Proof.
  induction 1 as [|p c k junk j l fp1 fp2 Hp Hc Hs Hk Hb Hn Hv Hl IH]; intros a Ha; [by apply elem_of_nil in Ha|].
  rewrite !elem_of_cons, elem_of_app in Ha.
  destruct Ha as [->|[->|[Ha|Ha]]]; [by eexists|by eexists| |by auto]. by eapply value_at_dom.
Qed.

Lemma chain_at_agree h h' p l fp : chain_at h p l fp ->
  (forall a, a ∈ fp -> h' !! a = h !! a) -> chain_at h' p l fp.
Proof.
  induction 1 as [|p c k junk j l fp1 fp2 Hp Hc Hs Hk Hb Hn Hv Hl IH]; intros Hag; [constructor|].
  econstructor; try done.
  - rewrite Hag; [done|set_solver].
  - rewrite Hag; [done|set_solver].
  - eapply value_at_agree; [done|set_solver].
  - apply IH. set_solver.
Qed.

(** An object under construction: its entries, its blocks, its own name. *)
Definition object_at (m : mem) (o : addr) (l : list (list Z * json)) (fp : list Z) (st : addr) : Prop :=
  NoDup (o :: fp) /\ exists c, blocks m !! o = Some (BNode c) /\ type c = cJSON_Object /\
    valuestring c = 0 /\ next c = 0 /\ string_ c = st /\ chain_at (blocks m) (child c) l fp.

(** A new root, given a name, is a chain of one entry. *)
Lemma named_chain h it c name j fpi s junk :
  it <> 0 -> s <> 0 -> h !! it = Some (BNode c) -> next c = 0 -> string_ c = s ->
  h !! s = Some (BChars (name ++ 0 :: junk)) -> bytes name -> Forall (fun x => x <> 0) name ->
  value_at h c j fpi -> chain_at h it [(name, j)] (it :: s :: fpi).
Proof.
  intros Hit Hs Hc Hn <- Hstr Hb Hnz Hv. rewrite <- (app_nil_r fpi).
  apply (ca_cons h it c name junk j [] fpi []); try done. rewrite Hn. constructor.
Qed.

Lemma wp_add_to_array o l fp st it ci name j fpi s junk m t :
  wf m -> object_at m o l fp st ->
  blocks m !! it = Some (BNode ci) -> next ci = 0 -> string_ ci = s -> s <> 0 ->
  blocks m !! s = Some (BChars (name ++ 0 :: junk)) -> bytes name -> Forall (fun x => x <> 0) name ->
  value_at (blocks m) ci j fpi ->
  NoDup (o :: fp ++ it :: s :: fpi) ->
  wp (cJSON_AddItemToArray o it) (fun _ m' t' => t' = t /\ wf m' /\ brk m' = brk m /\
    object_at m' o (l ++ [(name, j)]) (fp ++ it :: s :: fpi) st /\
    changes (o :: fp ++ it :: s :: fpi) m m') m t.
Proof.
  intros Hm (_ & co & Ho & Hty & Hvs & Hnx & Hst & Hch) Hit Hin Hs Hs0 Hstr Hb Hnz Hv Hnd.
  assert (Hit0 : it <> 0). { intros ->. destruct Hm as [_ H]. specialize (H 0 ltac:(by eexists)). lia. }
  unfold cJSON_AddItemToArray. wp_step. eapply wp_get_node; [done|]. rewrite decide_False by done.
  pose proof Hnd as Hnd0. apply NoDup_cons in Hnd0 as [Hno Hnd0].
  apply NoDup_app in Hnd0 as (Hnfp & Hdisj & Hnit).
  apply NoDup_cons in Hnit as [Hnit Hns]. apply NoDup_cons in Hns as [Hns Hnfi].
  destruct l as [|x l].
  - inversion Hch as [Hc0 Hl0 Hf0|]; subst fp. rewrite decide_True by done.
    eapply wp_upd_node; [done|done|]. intros m1 Hm1 Hb1 Hw1. split_and!; try done.
    + split; [done|]. exists (set_child it co). rewrite Hm1, lookup_insert_eq.
      split_and!; try done. simpl.
      apply (named_chain _ it ci name j fpi s junk); try done.
      * rewrite lookup_insert_ne by set_solver. done.
      * rewrite lookup_insert_ne by set_solver. done.
      * apply (value_at_agree (blocks m)); [done|]. intros a Ha. apply lookup_insert_ne. set_solver.
    + intros a Ha. rewrite Hm1. apply lookup_insert_ne. set_solver.
  - assert (Hcn : child co <> 0) by (inversion Hch; congruence).
    destruct (chain_has_end _ _ _ _ Hch ltac:(done) Hnfp) as (q & cq & [Hqin Hq Hfind Hsnoc]).
    rewrite decide_False by done. wp_steps. eapply wp_mono.
    { apply Hfind; [|done]. pose proof (chain_length _ _ _ _ Hch).
      pose proof (footprint_size (blocks m) fp Hnfp (chain_at_dom _ _ _ _ Hch)). lia. }
    intros r m' t' (-> & -> & ->). unfold suffix_object. wp_step.
    assert (Hqit : q <> it) by set_solver. assert (Hqs : q <> s) by set_solver.
    assert (Hqo : q <> o) by set_solver.
    eapply wp_upd_node; [done|done|]. intros m1 Hm1 Hb1 Hw1.
    eapply wp_upd_node; [by rewrite Hm1, lookup_insert_ne|done|]. intros m2 Hm2 Hb2 Hw2.
    assert (Hsame : forall a, a <> q -> a <> it -> blocks m2 !! a = blocks m !! a).
    { intros a Ha1 Ha2. by rewrite Hm2, lookup_insert_ne, Hm1, lookup_insert_ne by done. }
    split_and!; try done; [congruence| |].
    + split; [done|]. exists co. rewrite Hsame by set_solver. split_and!; try done.
      apply (Hsnoc (blocks m2) it).
      * intros a Ha Haq. apply Hsame; [done|]. set_solver.
      * by rewrite Hm2, lookup_insert_ne, Hm1, lookup_insert_eq by done.
      * apply (named_chain _ it (set_prev q ci) name j fpi s junk); try done.
        -- by rewrite Hm2, lookup_insert_eq.
        -- rewrite Hsame by set_solver. done.
        -- apply (value_at_fields _ ci); [|done..]. apply (value_at_agree (blocks m)); [done|].
           intros a Ha. apply Hsame; set_solver.
    + intros a Ha. apply Hsame; set_solver.
Qed.

Lemma object_at_agree m m' o l fp st : object_at m o l fp st ->
  (forall a, a ∈ o :: fp -> blocks m' !! a = blocks m !! a) -> object_at m' o l fp st.
Proof.
  intros (Hnd & c & Ho & Ht & Hv & Hn & Hs & Hc) Hag. split; [done|]. exists c.
  rewrite Hag by set_solver. split_and!; try done. eapply chain_at_agree; [done|]. set_solver.
Qed.

Lemma object_at_dom m o l fp st a : object_at m o l fp st -> a ∈ o :: fp -> is_Some (blocks m !! a).
Proof.
  intros (Hnd & c & Ho & Ht & Hv & Hn & Hs & Hc) Ha. apply elem_of_cons in Ha as [->|Ha]; [by eexists|].
  by eapply chain_at_dom.
Qed.

Lemma wp_add_item o l fp st it name j fpi m t :
  wf m -> object_at m o l fp st -> item_at (blocks m) it j fpi ->
  NoDup (o :: fp ++ it :: fpi) -> bytes name -> Forall (fun x => x <> 0) name ->
  wp (cJSON_AddItemToObject o name it) (fun _ m' t' => t' = t /\ wf m' /\ brk m' = brk m + 1 /\
    object_at m' o (l ++ [(name, j)]) (fp ++ it :: brk m :: fpi) st /\
    changes (o :: fp ++ it :: brk m :: fpi) m m') m t.
Proof.
  intros Hm Ho (ci & Hit & Hnx & Hst & Hv) Hnd Hb Hnz.
  assert (Hit0 : it <> 0). { intros ->. destruct Hm as [_ H]. specialize (H 0 ltac:(by eexists)). lia. }
  unfold cJSON_AddItemToObject. rewrite decide_False by done.
  wp_step. eapply wp_get_node; [done|]. rewrite (decide_True (P := string_ ci = 0)) by done. wp_steps.
  apply wp_strdup_granted; [done|]. intros m1 Hm1 Hb1 Hw1 Hs0 Hfr. set (s := brk m) in *.
  assert (Hfresh : forall a, is_Some (blocks m !! a) -> a <> s) by (intros a [x Ha] ->; congruence).
  assert (Hits : it <> s) by (apply Hfresh; by eexists).
  wp_step. eapply wp_upd_node; [by rewrite Hm1, lookup_insert_ne|done|]. intros m2 Hm2 Hb2 Hw2.
  assert (Hsame : forall a, a <> s -> a <> it -> blocks m2 !! a = blocks m !! a).
  { intros a Ha1 Ha2. by rewrite Hm2, lookup_insert_ne, Hm1, lookup_insert_ne by done. }
  assert (Hofp : forall a, a ∈ o :: fp -> a <> s /\ a <> it).
  { intros a Ha. split; [by eapply Hfresh, object_at_dom|]. intros ->.
    change (o :: fp ++ it :: fpi) with ((o :: fp) ++ it :: fpi) in Hnd.
    apply NoDup_app in Hnd as (_ & Hd & _). specialize (Hd it Ha). set_solver. }
  assert (Hfpi : forall a, a ∈ fpi -> a <> s /\ a <> it).
  { intros a Ha. split; [by eapply Hfresh, value_at_dom|]. intros ->.
    change (o :: fp ++ it :: fpi) with ((o :: fp) ++ it :: fpi) in Hnd.
    apply NoDup_app in Hnd as (_ & _ & Hd). apply NoDup_cons in Hd. tauto. }
  eapply wp_mono.
  { apply (wp_add_to_array o l fp st it (set_string s ci) name j fpi s []); try done.
    - eapply object_at_agree; [done|]. intros a Ha. destruct (Hofp a Ha). by apply Hsame.
    - by rewrite Hm2, lookup_insert_eq.
    - by rewrite Hm2, lookup_insert_ne, Hm1, lookup_insert_eq.
    - apply (value_at_fields _ ci); [|done..]. apply (value_at_agree (blocks m)); [done|].
      intros a Ha. destruct (Hfpi a Ha). by apply Hsame.
    - assert (Hp : o :: fp ++ it :: s :: fpi ≡ₚ s :: o :: fp ++ it :: fpi) by solve_Permutation.
      rewrite Hp. constructor; [|done]. intros Hin.
      change (o :: fp ++ it :: fpi) with ((o :: fp) ++ it :: fpi) in Hin.
      apply elem_of_app in Hin as [Hin|Hin]; [by destruct (Hofp s Hin)|].
      apply elem_of_cons in Hin as [Hin|Hin]; [done|]. by destruct (Hfpi s Hin). }
  intros _ m3 t3 (-> & Hw3 & Hb3 & Ho3 & Hc3). split_and!; try done; [congruence|].
  intros a Ha. rewrite Hc3 by done. apply Hsame; set_solver.
Qed.
End build.

(** ** The report *)

(** The text of the record: its four strings and six numbers. *)
Definition info_entries (base guid address switch : list Z) (d : DEVICEINFO) : list (list Z * json) :=
  [(bs "BaseName", JStr base); (bs "GUID", JStr guid); (bs "Address", JStr address);
   (bs "Switch", JStr switch);
   (bs "BaseTemperature", JInt (BaseTemperature d)); (bs "LedTemperature", JInt (LedTemperature d));
   (bs "Brightness", JInt (Brightness d)); (bs "ColorTemperature", JInt (ColorTemperature d));
   (bs "Voltage", JInt (Voltage d)); (bs "Current", JInt (Current d))].

Definition info_json (base guid address switch : list Z) (d : DEVICEINFO) : json :=
  JObj [(bs "DeviceInfo", JObj (info_entries base guid address switch d))].

(** An object being filled, from the state [mb] on. *)
Definition building (mb : mem) (o st : addr) (l : list (list Z * json)) (m : mem) : Prop :=
  exists F, object_at m o l F st /\ wf m /\ brk mb <= brk m /\ changes (o :: F) mb m /\
    Forall (fun a => brk mb <= a) F.

Definition c_name (s : list Z) : Prop := bytes s /\ Forall (fun c => c <> 0) s.
#[global] Instance c_name_dec s : Decision (c_name s).
Proof. unfold c_name. apply _. Defined.

Section report_facts.
Context `{A : Allocator} `{HG : !Generous A} `{P : FloatPrint}.

Lemma wp_add_made (create : io mem addr) name j mb o st l m t :
  (forall m t, wf m -> wp create (fun p m' t' => t' = t /\ made j m p m') m t) ->
  c_name name -> building mb o st l m ->
  wp (item ← create; cJSON_AddItemToObject o name item)
    (fun _ m' t' => t' = t /\ building mb o st (l ++ [(name, j)]) m') m t.
Proof.
  intros Hcr [Hnb Hnz] (F & Ho & Hm & Hb & Hch & HF). wp_step. eapply wp_mono; [by apply Hcr|].
  intros p m1 t1 [-> (fp & Hit & Hnd & Hw1 & Hc1 & Hnew & Hb1)].
  assert (Hold : forall a, a ∈ o :: F -> a ∉ p :: fp).
  { intros a Ha Hin. rewrite Forall_forall in Hnew. specialize (Hnew a Hin). simpl in Hnew.
    destruct Hm as [_ Hm]. pose proof (Hm a (object_at_dom _ _ _ _ _ _ Ho Ha)). lia. }
  eapply wp_mono.
  { apply (wp_add_item o l F st p name j fp); try done.
    - eapply object_at_agree; [done|]. intros a Ha. apply Hc1, Hold, Ha.
    - change (o :: F ++ p :: fp) with ((o :: F) ++ p :: fp). apply NoDup_app. split_and!; try done.
      apply Ho. }
  intros _ m2 t2 (-> & Hw2 & Hb2 & Ho2 & Hc2). split; [done|].
  exists (F ++ p :: brk m1 :: fp). split_and!; try done; [lia| |].
  - intros a Ha. rewrite Hc2 by done. rewrite Hc1 by set_solver. apply Hch. set_solver.
  - apply Forall_app. split; [done|]. apply Forall_cons in Hnew as [Hp Hnew].
    constructor; [lia|]. constructor; [lia|]. eapply Forall_impl; [exact Hnew|]. simpl. lia.
Qed.

Lemma wp_add_string name s mb o st l m t :
  c_name name -> c_name s -> building mb o st l m ->
  wp (cJSON_AddStringToObject o name s)
    (fun _ m' t' => t' = t /\ building mb o st (l ++ [(name, JStr s)]) m') m t.
Proof.
  intros Hn [Hb Hz] HB. apply wp_add_made; [|done|done]. intros. by apply wp_create_string.
Qed.

Lemma wp_add_number name z mb o st l m t :
  c_name name -> is_short z -> building mb o st l m ->
  wp (cJSON_AddNumberToObject o name (double_of_int z))
    (fun _ m' t' => t' = t /\ building mb o st (l ++ [(name, JInt z)]) m') m t.
Proof. intros Hn Hz HB. apply wp_add_made; [|done|done]. intros. by apply wp_create_number. Qed.

(** A chain of one empty object. *)
Lemma chain_one_inv h p k o s : chain_at h p [(k, JObj [])] [o; s] ->
  p = o /\ s <> 0 /\ exists c junk, h !! o = Some (BNode c) /\ string_ c = s /\
    h !! s = Some (BChars (k ++ 0 :: junk)) /\ next c = 0 /\ type c = cJSON_Object /\
    valuestring c = 0 /\ child c = 0.
Proof.
  intros H. inversion H as [|p' c k' junk j l f1 f2 Hp Hc Hs Hstr _ _ Hv Hl]; subst.
  inversion Hl as [Hn|]; subst. inversion Hv as [| | | | | |c1 l1 f3 Ht Hvs Hch]; subst.
  inversion Hch as [Hch0|]; subst. split; [done|]. split; [done|]. exists c, junk. by split_and!.
Qed.

(** The root with an empty object under its name. *)
Lemma wp_start m t (Q : addr * addr -> mem -> trace -> Prop) :
  wf m ->
  (forall J O m3 cJ, wf m3 -> brk m <= brk m3 -> blocks m3 !! J = Some (BNode cJ) ->
    type cJ = cJSON_Object -> valuestring cJ = 0 -> next cJ = 0 -> string_ cJ = 0 -> child cJ = O ->
    (exists s0 junk, s0 <> 0 /\ NoDup [J; O; s0] /\
      blocks m3 !! s0 = Some (BChars (bs "DeviceInfo" ++ 0 :: junk)) /\
      Forall (fun a => brk m <= a < brk m3) [J; O; s0] /\ changes [J; O; s0] m m3 /\
      building m3 O s0 [] m3) ->
    Q (J, O) m3 t) ->
  wp (json ← cJSON_CreateObject; object ← cJSON_CreateObject;
      cJSON_AddItemToObject json (bs "DeviceInfo") object;; mret (json, object)) Q m t.
Proof.
  intros Hm HQ. wp_step. eapply wp_mono; [by apply wp_create_object|].
  intros J m1 t1 [-> (fJ & (cJ & HJ & HJn & HJs & HJv) & HndJ & Hw1 & Hc1 & HnJ & Hb1)].
  inversion HJv as [| | | | | |c0 l0 f0 HtJ HvJ HcJ]; subst.
  inversion HcJ as [HcJ0|]; subst. 
  wp_step. eapply wp_mono; [by apply wp_create_object|].
  intros O m2 t2 [-> (fO & HO & HndO & Hw2 & Hc2 & HnO & Hb2)].
  assert (fO = []) as ->.
  { destruct HO as (cO & _ & _ & _ & HOv). inversion HOv as [| | | | | |? ? ? ? ? HcO]; subst.
    by inversion HcO. }
  apply Forall_inv in HnJ, HnO. cbv beta in HnJ, HnO.
  assert (HJlt : J < brk m1). { destruct Hw1 as [_ H]. specialize (H J ltac:(by eexists)). lia. }
  assert (HJO : J <> O) by lia.
  assert (HJ2 : blocks m2 !! J = Some (BNode cJ)).
  { rewrite Hc2; [done|]. rewrite list_elem_of_singleton. done. }
  assert (HOlt : O < brk m2).
  { destruct HO as (cO & HO & _). destruct Hw2 as [_ H]. specialize (H O ltac:(by eexists)). lia. }
  wp_step. eapply wp_mono.
  { apply (wp_add_item J [] [] 0 O (bs "DeviceInfo") (JObj []) []); try done.
    - split; [apply NoDup_singleton|]. exists cJ. split_and!; try done. rewrite <- HcJ0. constructor.
    - simpl. apply NoDup_cons. split; [set_solver|apply NoDup_singleton].
    - by apply (bool_decide_unpack _); vm_compute.
    - by apply (bool_decide_unpack _); vm_compute. }
  intros _ m3 t3 (-> & Hw3 & Hb3 & (Hnd3 & cJ3 & HJ3 & Ht3 & Hv3 & Hn3 & Hs3 & Hch3) & Hc3). wp_step.
  rewrite app_nil_l in Hch3, Hnd3, Hc3.
  apply chain_one_inv in Hch3 as (HcO & Hs0 & cO & junk & HO3 & HOs & Hstr & HOn & HOt & HOv & HOc).
  apply (HQ J O m3 cJ3); try done; [lia|].
  exists (brk m2), junk. split_and!; try done.
  - repeat constructor; lia.
  - intros a Ha. rewrite Hc3 by done. rewrite Hc2 by set_solver. apply Hc1. set_solver.
  - exists []. split_and!; try done.
    split; [apply NoDup_singleton|]. exists cO. split_and!; try done. rewrite HOc. constructor.
Qed.

Lemma wp_start_then {B} (C : addr -> addr -> io mem ()) (K : addr -> addr -> io mem B) Q m t :
  wp (a ← cJSON_CreateObject; b ← cJSON_CreateObject; C a b;; mret (a, b))
    (fun ab => wp (K (ab.1) (ab.2)) Q) m t ->
  wp (a ← cJSON_CreateObject; b ← cJSON_CreateObject; C a b;; K a b) Q m t.
Proof.
  unfold wp, mbind, io_bind. destruct (cJSON_CreateObject m t) as [[[a m1] t1]| |]; try done.
  destruct (cJSON_CreateObject m1 t1) as [[[b m2] t2]| |]; try done.
  by destruct (C a b m2 t2) as [[[c m3] t3]| |].
Qed.

(** The root over the filled object. *)
Lemma building_root mb m J O s0 cJ junk l :
  wf mb -> blocks mb !! J = Some (BNode cJ) -> type cJ = cJSON_Object -> valuestring cJ = 0 ->
  next cJ = 0 -> string_ cJ = 0 -> child cJ = O -> s0 <> 0 -> NoDup [J; O; s0] ->
  blocks mb !! s0 = Some (BChars (bs "DeviceInfo" ++ 0 :: junk)) ->
  building mb O s0 l m ->
  exists F, item_at (blocks m) J (JObj [(bs "DeviceInfo", JObj l)]) (O :: s0 :: F) /\
    NoDup (J :: O :: s0 :: F) /\ changes (O :: F) mb m /\ Forall (fun a => brk mb <= a) F.
Proof.
  intros Hm HJ HtJ HvJ HnJ HsJ HcJ Hs0 Hnd Hstr (F & (HndO & cO & HO & HtO & HvO & HnO & HsO & Hch) & Hw & Hb & Hc & HF).
  assert (Hout : forall a, is_Some (blocks mb !! a) -> a <> O -> a ∉ O :: F).
  { intros a Ha HaO [->|Hin]%elem_of_cons; [done|]. rewrite Forall_forall in HF. specialize (HF a Hin).
    destruct Hm as [_ Hm]. specialize (Hm a Ha). simpl in HF. lia. }
  rewrite !NoDup_cons, !not_elem_of_cons in Hnd. destruct Hnd as ((HJO & HJs & _) & (HOs & _) & _).
  assert (HJF : J ∉ O :: F) by (apply Hout; [by eexists|done]).
  assert (HsF : s0 ∉ O :: F) by (apply Hout; [by eexists|congruence]).
  exists F. split_and!; try done.
  - exists cJ. rewrite Hc by done. split_and!; try done. apply va_obj; try done. rewrite HcJ.
    assert (HO0 : O <> 0). { intros ->. destruct Hw as [_ Hw]. specialize (Hw 0 ltac:(by eexists)). lia. }
    rewrite <- HsO, <- (app_nil_r F).
    apply (ca_cons _ O cO (bs "DeviceInfo") junk (JObj l) [] F []); try done; try congruence.
    + rewrite HsO, Hc by done. done.
    + by apply (bool_decide_unpack _); vm_compute.
    + by apply (bool_decide_unpack _); vm_compute.
    + by apply va_obj.
    + rewrite HnO. constructor.
  - apply NoDup_cons in HndO as [HOF HndF]. rewrite !NoDup_cons, !not_elem_of_cons.
    rewrite not_elem_of_cons in HJF, HsF. split_and!; try done; try tauto; congruence.
Qed.
End report_facts.

(** Print, copy, delete. *)
Lemma wp_report_end `{A : Allocator} `{!Generous A} `{P : FloatPrint} j jsonbuff m0 mb mf J O s0 F t :
  wf m0 -> wf mf -> item_at (blocks mf) J j (O :: s0 :: F) -> NoDup (J :: O :: s0 :: F) ->
  Forall (fun a => brk m0 <= a < brk mb) [J; O; s0] -> changes [J; O; s0] m0 mb -> brk m0 <= brk mb ->
  changes (O :: F) mb mf -> Forall (fun a => brk mb <= a) F ->
  (jsize j <= 64)%nat -> (fpsize j < 60)%nat ->
  length jsonbuff = 256%nat -> (length (text j) < 256)%nat ->
  wp (buf ← cJSON_PrintUnformatted 64 J; s ← get_str buf; r ← of_option (store_str jsonbuff 0 s);
      cJSON_Delete 64 J;; mret r)
    (fun r m' t' => t' = t /\ wf m' /\ length r = 256%nat /\ c_str r = Some (text j) /\
      exists buf junk, blocks m0 !! buf = None /\
        blocks m' = <[buf := BChars (text j ++ 0 :: junk)]> (blocks m0)) mf t.
Proof.
  intros Hm0 Hmf Hroot Hnd Hnew Hch0 Hbk HcF HF Hj Hfp Hbuf Htxt.
  pose proof Hroot as (cJ & HJ & _ & _ & Hv). pose proof (value_at_fpsize _ _ _ _ Hv) as Hfl.
  wp_step. eapply wp_mono.
  { apply (value_at_prints (blocks mf) cJ j _ Hv); [done|done|done|done|lia]. }
  intros buf m1 t1 [-> (Hb1 & Hw1 & [(_ & (n & sz & Href) & _)|(Hne & Hfr & junk & Hm1)])].
  { destruct (grants n sz). congruence. }
  assert (Hsame : forall a, is_Some (blocks mf !! a) -> blocks m1 !! a = blocks mf !! a).
  { intros a [x Ha]. rewrite Hm1, lookup_insert_ne; [done|]. intros ->. congruence. }
  wp_step. eapply wp_get_str; [by rewrite Hm1, lookup_insert_eq|by eapply value_at_text|].
  wp_step. eapply wp_of_option; [apply store_str_0; lia|].
  wp_step. eapply wp_mono.
  { apply (wp_delete_tree 64 m1 t J j (O :: s0 :: F)); [done| |done|simpl in *; lia].
    exists cJ. destruct Hroot as (c & Hc & Hn & Hs & Hvc). rewrite HJ in Hc. injection Hc as <-.
    rewrite Hsame by by eexists. split_and!; try done.
    eapply value_at_agree; [done|]. intros a Ha. apply Hsame. by eapply value_at_dom. }
  intros _ m2 t2 [-> (Hw2 & Hb2 & E2)]. wp_step. split_and!; try done.
  - rewrite length_app. simpl. rewrite length_drop. lia.
  - apply c_str_app. by eapply value_at_text.
  - exists buf, junk.
    assert (Htree : forall a, a ∈ J :: O :: s0 :: F -> blocks m0 !! a = None /\ a <> buf).
    { intros a Ha. split.
      - assert (Hge : brk m0 <= a).
        { rewrite !elem_of_cons in Ha. rewrite !Forall_cons in Hnew. rewrite Forall_forall in HF.
          destruct Ha as [->|[->|[->|Ha]]]; try lia. specialize (HF a Ha). simpl in HF. lia. }
        destruct (blocks m0 !! a) eqn:E; [|done]. destruct Hm0 as [_ Hm0].
        specialize (Hm0 a ltac:(by eexists)). lia.
      - intros ->. apply elem_of_cons in Ha as [->|Ha]; [congruence|].
        destruct (value_at_dom _ _ _ _ Hv _ Ha). congruence. }
    assert (Hmf0 : forall a, a ∉ J :: O :: s0 :: F -> blocks mf !! a = blocks m0 !! a).
    { intros a Ha. rewrite HcF by set_solver. apply Hch0. set_solver. }
    split.
    + destruct (decide (buf ∈ J :: O :: s0 :: F)) as [Hin|Hin]; [by destruct (Htree buf Hin)|].
      by rewrite <- Hmf0.
    + apply map_eq. intros a. rewrite E2. destruct (decide (a ∈ J :: O :: s0 :: F)) as [Hin|Hin].
      * destruct (Htree a Hin). rewrite lookup_insert_ne by done. done.
      * rewrite Hm1. destruct (decide (buf = a)) as [<-|Hne']; [by rewrite !lookup_insert_eq|].
        rewrite !lookup_insert_ne by done. by apply Hmf0.
Qed.

Ltac add_step lem :=
  wp_step; eapply wp_mono; [apply lem; [by apply (bool_decide_unpack _); vm_compute | done | eassumption] |];
  intros _ ?m ?t [-> ?HB].

Lemma wp_DeviveInfotoJson `{A : Allocator} `{!Generous A} `{P : FloatPrint}
    d base guid address switch jsonbuff m t :
  wf m ->
  c_str (BaseName d) = Some base -> c_str (GUID d) = Some guid ->
  c_str (Address d) = Some address -> c_str (Switch d) = Some switch ->
  bytes (base ++ guid ++ address ++ switch) ->
  Forall is_short [BaseTemperature d; LedTemperature d; Brightness d;
                   ColorTemperature d; Voltage d; Current d] ->
  length jsonbuff = 256%nat ->
  (length (text (info_json base guid address switch d)) < 256)%nat ->
  wp (DeviveInfotoJson d jsonbuff) (fun r m' t' => t' = t /\ wf m' /\ length r = 256%nat /\
    c_str r = Some (text (info_json base guid address switch d)) /\
    exists buf junk, blocks m !! buf = None /\
      blocks m' = <[buf := BChars (text (info_json base guid address switch d) ++ 0 :: junk)]> (blocks m)) m t.
Proof.
  intros Hm Hs1 Hs2 Hs3 Hs4 Hbytes Hshort Hlen Htxt.
  rewrite !bytes_app in Hbytes. destruct Hbytes as (Hb1 & Hb2 & Hb3 & Hb4).
  assert (Hn1 : c_name base) by (split; [done|by apply (c_str_Some _ _ Hs1)]).
  assert (Hn2 : c_name guid) by (split; [done|by apply (c_str_Some _ _ Hs2)]).
  assert (Hn3 : c_name address) by (split; [done|by apply (c_str_Some _ _ Hs3)]).
  assert (Hn4 : c_name switch) by (split; [done|by apply (c_str_Some _ _ Hs4)]).
  rewrite !Forall_cons in Hshort. destruct Hshort as (Hz1 & Hz2 & Hz3 & Hz4 & Hz5 & Hz6 & _).
  unfold DeviveInfotoJson. apply wp_start_then. apply wp_start; [done|].
  intros J O mb cJ Hmb Hbk HJ HtJ HvJ HnJ HsJ HcJ (s0 & junk & Hs0 & Hnd & Hstr & Hnew & Hch & HB0).
  rewrite Hs1, Hs2, Hs3, Hs4. cbn [fst snd of_option].
  wp_step. wp_step. add_step wp_add_string. wp_step. wp_step. add_step wp_add_string.
  wp_step. wp_step. add_step wp_add_string. wp_step. wp_step. add_step wp_add_string.
  do 6 add_step wp_add_number. rename select (building _ _ _ (_ ++ [(_, JInt (Current d))]) _) into HBf.
  lazymatch type of HBf with building _ _ _ _ ?mm => rename mm into mf end.
  change (building mb O s0 (info_entries base guid address switch d) mf) in HBf.
  destruct (building_root _ _ _ _ _ _ _ _ Hmb HJ HtJ HvJ HnJ HsJ HcJ Hs0 Hnd Hstr HBf)
    as (F & Hroot & HndF & HcF & HF).
  change (JObj [(bs "DeviceInfo", JObj (info_entries base guid address switch d))])
    with (info_json base guid address switch d) in Hroot.
  apply wp_report_end with (mb := mb) (J := J) (F := F) (O := O) (s0 := s0); try done.
  - by destruct HBf as (? & _ & ? & _).
  - simpl. lia.
  - simpl. lia.
Qed.

(** C18: the report text, when memory suffices: into an array that has room the
    function stores exactly the JSON text of the device record, in order, with
    every string escaped and every [short] in decimal; it returns, frees the tree
    and all temporaries, and leaves one new block behind, the printed text. *)
Theorem device_json_text `{A : Allocator} `{!Generous A} `{P : FloatPrint}
    d base guid address switch jsonbuff m t :
  wf m ->
  c_str (BaseName d) = Some base -> c_str (GUID d) = Some guid ->
  c_str (Address d) = Some address -> c_str (Switch d) = Some switch ->
  bytes (base ++ guid ++ address ++ switch) ->
  Forall is_short [BaseTemperature d; LedTemperature d; Brightness d;
                   ColorTemperature d; Voltage d; Current d] ->
  length jsonbuff = 256%nat ->
  (length (text (info_json base guid address switch d)) < 256)%nat ->
  wp (DeviveInfotoJson d jsonbuff) (fun r m' t' => t' = t /\ wf m' /\ length r = 256%nat /\
    c_str r = Some (text (info_json base guid address switch d)) /\
    exists buf junk, blocks m !! buf = None /\
      blocks m' = <[buf := BChars (text (info_json base guid address switch d) ++ 0 :: junk)]> (blocks m)) m t.
Proof. apply wp_DeviveInfotoJson. Qed.

(** ** The firmware's record *)

(** The record as [DeviceInfoInit] names it, with any measurements. *)
Definition info_named (d : DEVICEINFO) : Prop :=
  c_str (BaseName d) = Some (bs "TESTBase") /\
  c_str (GUID d) = Some (bs "B123456789012345678901234567890B") /\
  c_str (Address d) = Some (bs "TESAddressT") /\ c_str (Switch d) = Some (bs "OFF") /\
  Forall is_short [BaseTemperature d; LedTemperature d; Brightness d;
                   ColorTemperature d; Voltage d; Current d].

Definition info_text (d : DEVICEINFO) : list Z :=
  text (info_json (bs "TESTBase") (bs "B123456789012345678901234567890B") (bs "TESAddressT")
          (bs "OFF") d).

Lemma short_text z : is_short z -> (length (fmt_d z) <= 6)%nat.
Proof.
  intros Hz. unfold is_short in Hz. apply (fmt_d_length z 4). change (10 ^ Z.of_nat 5) with 100000. lia.
Qed.

(** The text of the record in pieces: constant texts around the numbers. *)
Lemma info_text_length d : info_named d -> (length (info_text d) <= 248)%nat.
Proof.
  intros (_ & _ & _ & _ & Hz). rewrite !Forall_cons in Hz. destruct Hz as (H1 & H2 & H3 & H4 & H5 & H6 & _).
  apply short_text in H1, H2, H3, H4, H5, H6.
  unfold info_text, info_json, info_entries. cbn [text map comma fst snd].
  rewrite !length_app. cbn [length].
  assert (Hq : forall s n, bool_decide (length (quote (bs s)) = n) = true -> length (quote (bs s)) = n)
    by (intros s n H; by apply bool_decide_eq_true in H).
  rewrite (Hq "DeviceInfo" 12%nat), (Hq "BaseName" 10%nat), (Hq "GUID" 6%nat), (Hq "Address" 9%nat),
    (Hq "Switch" 8%nat), (Hq "BaseTemperature" 17%nat), (Hq "LedTemperature" 16%nat),
    (Hq "Brightness" 12%nat), (Hq "ColorTemperature" 18%nat), (Hq "Voltage" 9%nat), (Hq "Current" 9%nat),
    (Hq "TESTBase" 10%nat), (Hq "B123456789012345678901234567890B" 34%nat), (Hq "TESAddressT" 13%nat),
    (Hq "OFF" 5%nat) by (vm_compute; reflexivity).
  lia.
Qed.

(** C19: the report of the record the firmware initialises always fits: whatever
    the six measurements are, its text has at most 248 characters, so the copy
    into the 256-byte array of the modem task is in bounds. *)
Theorem device_json_fits `{A : Allocator} `{!Generous A} `{P : FloatPrint} d m t :
  wf m -> info_named d ->
  wp (DeviveInfotoJson d (replicate 256 0)) (fun r m' t' =>
    c_str r = Some (info_text d) /\ (length (info_text d) <= 248)%nat) m t.
Proof.
  intros Hm Hd. pose proof (info_text_length d Hd) as Hl. destruct Hd as (H1 & H2 & H3 & H4 & Hz).
  eapply wp_mono; [eapply wp_DeviveInfotoJson; try done|].
  - by apply (bool_decide_unpack _); vm_compute.
  - unfold info_text in Hl. lia.
  - by intros r m' t' (_ & _ & _ & Hr & _).
Qed.

(** ** Witnesses *)

Definition sample_record : DEVICEINFO :=
  mkDEVICEINFO (bs "TESTBase" ++ replicate 56 0) (bs "B123456789012345678901234567890B" ++ replicate 4 0)
    (bs "TESAddressT" ++ replicate 117 0) (bs "OFF" ++ [0]) (-273) 2550 0 100 22000 35.

Lemma sample_record_named : info_named sample_record.
Proof.
  unfold info_named. split_and!; try reflexivity.
  rewrite !Forall_cons. unfold is_short. simpl. split_and!; try lia. constructor.
Qed.

Lemma device_json_text_witness :
  wp (@DeviveInfotoJson ample no_floats sample_record (replicate 256 0)) (fun r m' t' =>
    t' = [] /\ wf m' /\ length r = 256%nat /\ c_str r = Some (info_text sample_record) /\
    exists buf junk, blocks empty_store !! buf = None /\
      blocks m' = <[buf := BChars (info_text sample_record ++ 0 :: junk)]> (blocks empty_store))
    empty_store [].
Proof.
  apply (@device_json_text ample ample_generous no_floats sample_record (bs "TESTBase")
    (bs "B123456789012345678901234567890B") (bs "TESAddressT") (bs "OFF"));
    try reflexivity; [apply empty_store_wf|..].
  - apply (bool_decide_unpack _). vm_compute. exact I.
  - apply sample_record_named.
  - vm_compute. lia.
Defined.

Lemma device_json_fits_witness :
  wp (@DeviveInfotoJson ample no_floats sample_record (replicate 256 0)) (fun r m' t' =>
    c_str r = Some (info_text sample_record) /\ (length (info_text sample_record) <= 248)%nat)
    empty_store [].
Proof.
  exact (@device_json_fits ample ample_generous no_floats sample_record empty_store []
    empty_store_wf sample_record_named).
Defined.
