(* ===== verification/NbTask.v ===== *)
(** * The modem task

    Models [NB_Iot] of src/apps/examples/NB_Iot/NB_Iot.c: bringing the modem up,
    waiting for the network, opening a socket, and the endless loop that reports
    the device record after ten quiet seconds and fetches announced datagrams.

    The task runs over its own globals and the C heap.  The device record is
    shared with the RS485 task: its contents at any moment are a parameter. *)

From S2P Require Import Prelude Hex CString Env Gpio DeviceInfo NbAt Double Cjson CjsonPrint CjsonDelete DeviceJson.

Record task := mkTask { t_nb : nb; t_mem : mem }.

(** The record as the task finds it after a trace. *)
Class Shared := { info_at : trace -> DEVICEINFO }.

(** A program over a part of the state. *)
Definition lift_nb {A} (m : io nb A) : io task A := fun s t =>
  match m (t_nb s) t with
  | Ret (a, g, t') => Ret (a, mkTask g (t_mem s), t')
  | Undefined => Undefined
  | OutOfFuel => OutOfFuel
  end.
Definition lift_mem {A} (m : io mem A) : io task A := fun s t =>
  match m (t_mem s) t with
  | Ret (a, h, t') => Ret (a, mkTask (t_nb s) h, t')
  | Undefined => Undefined
  | OutOfFuel => OutOfFuel
  end.

Section task.
Context `{D : Device} `{A : Allocator} `{P : FloatPrint} `{S : Shared}.

Definition read_info : io task DEVICEINFO := fun s t => Ret (info_at t, s, t).

(** [GPIO_write] on the address of a global descriptor. *)
Definition gpio_out (get : nb -> Z) (set : Z -> nb -> nb) (v : bool) : io nb () :=
  fd ← gets get;
  r ← GPIO_write fd v;
  modify (set (r.2)).

(** Up to the network. *)
Definition NB_Iot_start : io nb () :=
  NB_Iot_GPIO_Init;;
  NB_Iot_USART_Init;;
  gpio_out fd_NB_Iot_NB_PWR_EN set_pwr false;;
  delay_ms 1000;;
  gpio_out fd_NB_Iot_CPU_RST_NB set_rst false;;
  delay_ms 200;;
  gpio_out fd_NB_Iot_CPU_RST_NB set_rst true;;
  delay_ms 200;;
  gpio_out fd_NB_Iot_CPU_RST_NB set_rst false;;
  delay_ms 1000;;
  BC95_power_on.

(** The report: [if(timeout.tv_sec == 0)]. *)
Definition report : io task () :=
  d ← read_info;
  date ← lift_mem (DeviveInfotoJson d (replicate 256 0));
  n ← of_option (strlen date);
  senddate ← of_option (ByteToHexStr date (replicate 512 0) n);
  of_option (strlen senddate);;
  n ← of_option (strlen date);
  sendlen ← of_option (store_str (replicate 32 0) 0 (fmt_d n));
  lift_nb (send_UDP_msg (lit "0") SERVER_HOST_UDP_IP SERVER_HOST_UDP_PORT sendlen senddate);;
  mret ().

(** A datagram was announced: [cArray] holds the text of the modem. *)
Definition fetch (cArray : list Z) : io task () :=
  rest ← of_option (c_str (drop 10 cArray));
  temp ← of_option (store_str (replicate 64 0) 0 (bs "AT+NSORF=" ++ rest));
  r ← lift_nb (NB_Iot_send_cmd temp (Some (lit "OK")) 100);
  if decide (r = 0) then
    data ← lift_nb (get_str_data (replicate 256 0) 0 256);
    of_option (strtok_all 300 data (Some 0) (lit ",") None);;
    mret ()
  else mret ().

(** One turn of the endless loop; [tv_sec] is the timeout it starts with. *)
Definition nb_turn (tv_sec : Z) : io task Z :=
  sec ← (if decide (tv_sec = 0) then report;; mret 10 else mret tv_sec);
  fd ← lift_nb (gets fd_NB_Iot_USART);
  iRet ← lift_nb (select_read [fd] sec);
  if decide (iRet.1 < 0) then mret sec
  else if decide (iRet.1 = 0) then mret 0
  else if decide (fd ∈ iRet.2) then
    lift_nb (usleep 100000);;
    r ← lift_nb (io_read fd 256);
    lift_nb (tcflush fd);;
    let cArray := fill 256 r in
    of_option (c_str cArray);;
    strx ← of_option (strstr cArray (lit "+NSONMI:0,"));
    (match strx with Some _ => fetch cArray | None => mret () end);;
    mret sec
  else mret sec.

Fixpoint nb_turns (n : nat) (tv_sec : Z) : io task Z :=
  match n with
  | O => mret tv_sec
  | Datatypes.S n => sec ← nb_turn tv_sec; nb_turns n sec
  end.

(** The task, up to [n] turns of its loop: [inr] when it has ended, [inl] when it
    is still in the loop. *)
Definition NB_Iot (n : nat) : io task (Z + Z) :=
  lift_nb NB_Iot_start;;
  r ← lift_nb query_net_status;
  if decide (r <> 0) then
    lift_nb (creat_UDP_socket UE_LOCAL_UDP_PORT);;
    sec ← nb_turns n 0;
    mret (inl sec)
  else mret (inr EXIT_FAILURE).
End task.

(** ** Rules *)

Section lift_rules.
Lemma wp_lift_nb {A} (m : io nb A) (Q : A -> task -> trace -> Prop) s t :
  wp m (fun a g t' => Q a (mkTask g (t_mem s)) t') (t_nb s) t -> wp (lift_nb m) Q s t.
Proof. unfold wp, lift_nb. by destruct (m (t_nb s) t) as [[[a g] t']| |]. Qed.

Lemma wp_lift_mem {A} (m : io mem A) (Q : A -> task -> trace -> Prop) s t :
  wp m (fun a h t' => Q a (mkTask (t_nb s) h) t') (t_mem s) t -> wp (lift_mem m) Q s t.
Proof. unfold wp, lift_mem. by destruct (m (t_mem s) t) as [[[a h] t']| |]. Qed.
End lift_rules.

(** ** What the task sends *)

Definition is_nsost (c : list Z) : Prop := is_prefix (bs "AT+NSOST=") c = true.
#[global] Instance is_nsost_dec c : Decision (is_nsost c).
Proof. unfold is_nsost. apply _. Defined.

(** The command that reports the record [d]. *)
Definition report_line (d : DEVICEINFO) : list Z :=
  nsost (bs "0") (bs "111.198.38.70") (bs "9999")
    (fmt_d (Z.of_nat (length (info_text d)))) (hex_encode (info_text d)) ++ [13; 10].

(** The reports among the commands sent, oldest first. *)
Definition reports (l : list (list Z)) : list (list Z) := filter is_nsost l.

(** The records behind the datagram commands of a trace, oldest first: for each of them
    the contents of the device record at the moment it was sent. *)
Fixpoint records_sent `{S : Shared} (fd : Z) (t : trace) : list DEVICEINFO :=
  match t with
  | [] => []
  | EvWrite fd' c _ :: t =>
      if decide (fd' = fd /\ is_nsost c) then records_sent fd t ++ [info_at t] else records_sent fd t
  | _ :: t => records_sent fd t
  end.

(** Announcements of a datagram are short lines. *)
Class Announcements (D : Device) := {
  announce_short t fd l : dev_read t fd 256 = Some l ->
    contains (bs "+NSONMI:0,") (text_of l) = true -> (length (text_of l) <= 64)%nat
}.

(** The record the other task leaves has its names. *)
Class SharedOk (S : Shared) := { shared_named t : info_named (info_at t) }.

(** ** Lemmas *)

Lemma dialogue_sent fd t : (dialogue fd t).*1 = rev (sent fd t).
Proof.
  assert (Hh : forall rs d, (heard rs d).*1 = d.*1) by by intros rs [|[c rs0] d].
  induction t as [|e t IH]; simpl; [done|]. destruct e as [| | fd' c r | fd' [l|] | | | | | |]; try done.
  - case_decide; [|done]. by rewrite rev_app_distr, <- IH.
  - case_decide; [|done]. by rewrite Hh.
Qed.

(** One exchange more is one command more. *)
Lemma sent_exchange fd t t' c rs : dialogue fd t' = (c, rs) :: dialogue fd t ->
  sent fd t' = sent fd t ++ [c].
Proof.
  intros H. apply rev_inj. rewrite rev_app_distr, <- !dialogue_sent, H. done.
Qed.

Lemma sent_talked d fd t t' : dialogue fd t' = rev d ++ dialogue fd t ->
  sent fd t' = sent fd t ++ d.*1.
Proof.
  intros H. apply rev_inj. rewrite rev_app_distr, <- !dialogue_sent, H, fmap_app. f_equal.
  unfold fmap. change list_fmap with map. apply map_rev.
Qed.

Lemma fmt_d_bytes n : bytes (fmt_d n).
Proof.
  assert (H : forall m, 0 <= m -> bytes (print_nat_dec m)).
  { intros m Hm. destruct (print_nat_dec_spec m Hm) as [Hd _].
    eapply Forall_impl; [exact Hd|]. unfold is_digit, is_byte. lia. }
  unfold fmt_d. case_decide; [constructor; [done|]|]; apply H; lia.
Qed.

Lemma info_text_bytes d : bytes (info_text d).
Proof.
  unfold info_text, info_json, info_entries. cbn [text map comma fst snd].
  rewrite !bytes_app. split_and!; try apply fmt_d_bytes; by apply (bool_decide_unpack _); vm_compute.
Qed.

Lemma info_text_nonzero d : Forall (fun c => c <> 0) (info_text d).
Proof.
  unfold info_text, info_json, info_entries. cbn [text map comma fst snd].
  rewrite !Forall_app. split_and!; try apply fmt_d_nonzero; by apply (bool_decide_unpack _); vm_compute.
Qed.

Definition task_ok (s : task) : Prop := nb_ok (t_nb s) /\ wf (t_mem s).

(** What a stretch of the task leaves: the commands [new] sent, the records [ds]
    reported at their moments, and a block more for each of them. *)
Record went `{S : Shared} (new : list (list Z)) (ds : list DEVICEINFO) (s : task) (t : trace) (s' : task) (t' : trace) : Prop := {
  wt_sent : sent (fd_NB_Iot_USART (t_nb s)) t' = sent (fd_NB_Iot_USART (t_nb s)) t ++ new;
  wt_records : records_sent (fd_NB_Iot_USART (t_nb s)) t' = records_sent (fd_NB_Iot_USART (t_nb s)) t ++ ds;
  wt_fd : fd_NB_Iot_USART (t_nb s') = fd_NB_Iot_USART (t_nb s);
  wt_ok : task_ok s';
  wt_size : size (blocks (t_mem s')) = (size (blocks (t_mem s)) + length ds)%nat
}.

Lemma went_nil `{S : Shared} s t : task_ok s -> went [] [] s t s t.
Proof. intros H. split; rewrite ?app_nil_r; done || (simpl; lia). Qed.

Lemma went_trans `{S : Shared} n1 k1 n2 k2 s1 t1 s2 t2 s3 t3 :
  went n1 k1 s1 t1 s2 t2 -> went n2 k2 s2 t2 s3 t3 -> went (n1 ++ n2) (k1 ++ k2) s1 t1 s3 t3.
Proof.
  intros [A1 R1 B1 _ S1] [A2 R2 B2 C2 S2]. rewrite B1 in A2, R2. split; [| |congruence|done|rewrite length_app; lia].
  - by rewrite A2, A1, (assoc_L app).
  - by rewrite R2, R1, (assoc_L app).
Qed.

(** Where no datagram was sent, none was reported. *)
Lemma records_none `{S : Shared} fd t : Forall (fun c => ~ is_nsost c) (sent fd t) -> records_sent fd t = [].
Proof.
  induction t as [|e t IH]; [done|]. destruct e; simpl; try done. destruct (decide (fd0 = fd)) as [->|Hne].
  - rewrite Forall_app, Forall_singleton. intros [Hf Hn]. rewrite decide_False by tauto. auto.
  - rewrite decide_False by tauto. auto.
Qed.

Lemma records_quiet `{S : Shared} fd p t : Forall (fun c => ~ is_nsost c) (sent fd p) -> records_sent fd (p ++ t) = records_sent fd t.
Proof.
  induction p as [|e p IH]; [done|]. destruct e; simpl; try done. destruct (decide (fd0 = fd)) as [->|Hne].
  - rewrite Forall_app, Forall_singleton. intros [Hf Hn]. rewrite decide_False by tauto. auto.
  - rewrite decide_False by tauto. auto.
Qed.

(** ** The first thing a command does is to send it *)

Lemma wp_with {S A} (m : io S A) (Q : A -> S -> trace -> Prop) (R : A -> S -> trace -> Prop) s t :
  wp m Q s t -> (forall a s' t', m s t = Ret (a, s', t') -> R a s' t') -> wp m (fun a s' t' => Q a s' t' /\ R a s' t') s t.
Proof. unfold wp. intros H HR. destruct (m s t) as [[[a s'] t']| |] eqn:E; [|done..]. split; [done|by apply HR]. Qed.

Definition writes_first `{D : Device} {A} (m : io nb A) : Prop := forall g t a g' t', m g t = Ret (a, g', t') ->
  exists p c k, t' = p ++ EvWrite (fd_NB_Iot_USART g) c k :: t.

Lemma writes_option `{D : Device} {A B} (o : option A) (k : A -> io nb B) : (forall x, writes_first (k x)) -> writes_first (x ← of_option o; k x).
Proof. intros H g t b g' t'. destruct o as [x|]; [apply H|done]. Qed.

Lemma writes_then `{D : Device} {A B} (m : io nb A) (f : A -> B) : writes_first m -> writes_first (x ← m; mret (f x)).
Proof. intros H g t b g' t' E. unfold mbind, io_bind in E. destruct (m g t) as [[[x g1] t1]| |] eqn:E1; [|done..]. injection E as <- <- <-. by eapply H. Qed.

Lemma send_cmd_first `{D : Device} cmd ack wait : writes_first (NB_Iot_send_cmd cmd ack wait).
Proof.
  unfold NB_Iot_send_cmd. do 3 (apply writes_option; intros ?). intros g t r g' t' E.
  set (w := take _ _) in E. set (k := dev_write t (fd_NB_Iot_USART g) w). change (gets fd_NB_Iot_USART) with (gets (S:=nb) fd_NB_Iot_USART) in E.
  assert (H : exists p, t' = p ++ EvWrite (fd_NB_Iot_USART g) w k :: t); [|destruct H as [p ->]; eauto].
  unfold NB_Iot_check_ack, delay_ms, usleep, tcflush, emit, io_read, select_read, io_write, gets, modify, of_option, mbind, io_bind, mret, io_ret, undefined in E.
  repeat (case_match; try done; simplify_eq).
  all: first [by eexists [_] | by eexists [_; _; _; _] | by eexists []].
Qed.

Lemma send_UDP_msg_first `{D : Device} a1 a2 a3 a4 a5 : writes_first (send_UDP_msg a1 a2 a3 a4 a5).
Proof.
  unfold send_UDP_msg. do 10 (apply writes_option; intros ?). intros g t r g' t' E. unfold mbind, io_bind in E.
  destruct (NB_Iot_send_cmd _ _ _ g t) as [[[r1 g1] t1]| |] eqn:E1; [|done..].
  assert (t' = t1) as -> by (destruct (decide (r1 = 0)); by injection E). by eapply send_cmd_first.
Qed.

Lemma info_text_eq d : info_text d =
  text (info_json (bs "TESTBase") (bs "B123456789012345678901234567890B") (bs "TESAddressT")
          (bs "OFF") d).
Proof. done. Qed.

#[local] Opaque info_text.

Section task_facts.
Context `{D : Device} `{HM : !Modem D} `{HA : !Announcements D} `{A : Allocator} `{HG : !Generous A}
  `{P : FloatPrint} `{S : Shared} `{HS : !SharedOk S}.

(** The command for a report fits, and what follows is exactly the record. *)
Lemma report_line_fits d : info_named d ->
  (length (nsost (bs "0") (bs "111.198.38.70") (bs "9999")
     (fmt_d (Z.of_nat (length (info_text d)))) (hex_encode (info_text d))) <= 597)%nat.
Proof.
  intros Hd. pose proof (info_text_length d Hd) as Hl.
  pose proof (fmt_d_length (Z.of_nat (length (info_text d))) 3) as Hf.
  change (10 ^ Z.of_nat 4) with 10000 in Hf. specialize (Hf ltac:(lia)).
  unfold nsost. rewrite !length_app, hex_encode_length.
  generalize dependent (length (fmt_d (Z.of_nat (length (info_text d))))).
  generalize dependent (length (info_text d)). intros. simpl. lia.
Qed.

Lemma wp_read_info (Q : DEVICEINFO -> task -> trace -> Prop) s t :
  Q (info_at t) s t -> wp read_info Q s t.
Proof. done. Qed.

(** What the report puts on the line, at once, and what follows on the modem port. *)
Lemma wp_report_line s t : task_ok s ->
  wp report (fun _ s' t' => (exists p k, t' = p ++ EvWrite (fd_NB_Iot_USART (t_nb s)) (report_line (info_at t)) k :: t /\
      sent (fd_NB_Iot_USART (t_nb s)) p = []) /\
    fd_NB_Iot_USART (t_nb s') = fd_NB_Iot_USART (t_nb s) /\ task_ok s' /\ size (blocks (t_mem s')) = (size (blocks (t_mem s)) + 1)%nat) s t.
Proof.
  intros [Hnb Hm]. pose proof (shared_named t) as Hd. set (d := info_at t) in *.
  pose proof (info_text_length d Hd) as Hl. pose proof (info_text_bytes d) as Hbytes.
  pose proof (info_text_nonzero d) as Hnz.
  unfold report. wp_step. apply wp_read_info. wp_step. apply wp_lift_mem. fold d.
  pose proof Hd as (H1 & H2 & H3 & H4 & Hz). eapply wp_mono.
  { eapply wp_DeviveInfotoJson; try done; [by apply (bool_decide_unpack _); vm_compute|].
    rewrite info_text_eq in Hl. lia. }
  intros date m' t' (-> & Hm' & Hlen & Hdate & buf & junk & Hfr & Hbl).
  rewrite <- info_text_eq in Hdate, Hbl.
  assert (Hsl : strlen date = Some (Z.of_nat (length (info_text d)))) by by apply strlen_c_str.
  wp_step. eapply wp_of_option; [exact Hsl|].
  assert (exists r, date = info_text d ++ 0 :: r) as [r ->] by by apply c_str_Some in Hdate as [_ ?].
  wp_step. eapply wp_of_option.
  { unfold ByteToHexStr. rewrite byte_to_hex_loop_prefix by lia.
    apply ByteToHexStr_spec; [done|lia|]. rewrite length_replicate. lia. }
  wp_step. assert (Hhex : c_str (hex_encode (info_text d) ++ 0 :: drop (2 * length (info_text d) + 1) (replicate 512 0))
    = Some (hex_encode (info_text d))) by by apply c_str_app, hex_encode_nonzero.
  eapply wp_of_option; [by apply strlen_c_str|].
  wp_step. eapply wp_of_option; [exact Hsl|].
  pose proof (fmt_d_length (Z.of_nat (length (info_text d))) 3) as Hf.
  change (10 ^ Z.of_nat 4) with 10000 in Hf. specialize (Hf ltac:(lia)).
  wp_step. eapply wp_of_option; [apply store_str_0; rewrite length_replicate; lia|].
  wp_step. apply wp_lift_nb. eapply wp_mono.
  { apply wp_with; [|intros ? ? ?; apply send_UDP_msg_first].
    apply (wp_send_UDP_msg _ _ _ _ _ (bs "0") (bs "111.198.38.70") (bs "9999")
      (fmt_d (Z.of_nat (length (info_text d)))) (hex_encode (info_text d)));
      [done|done|done|apply c_str_app, fmt_d_nonzero|exact Hhex|by apply report_line_fits|exact Hnb]. }
  intros r' g' t' [(rs & Hdlg & Hok & (buf' & ->) & _) (p & c & k & ->)]. wp_step. apply sent_exchange in Hdlg. cbn [t_nb].
  rewrite sent_app in Hdlg. cbn [sent] in Hdlg. rewrite decide_True, <- (assoc_L app) in Hdlg by done.
  apply app_inv_head in Hdlg. injection Hdlg as -> Hp. split_and!; [by exists p, k|done|by split|]. simpl. rewrite Hbl.
  rewrite map_size_insert_None by done. lia.
Qed.

Lemma wp_report s t : task_ok s ->
  wp report (fun _ s' t' => went [report_line (info_at t)] [info_at t] s t s' t') s t.
Proof.
  intros Hs. eapply wp_mono; [by apply wp_report_line|]. intros _ s' t' ((p & k & -> & Hp) & Hfd & Hok & Hsz). split; try done.
  - rewrite sent_app, Hp, app_nil_r. simpl. by rewrite decide_True.
  - rewrite records_quiet by (rewrite Hp; constructor). simpl. by rewrite decide_True.
Qed.

(** A datagram is fetched with one command, which is no report. *)
Lemma wp_fetch l s t : task_ok s -> (length l < 256)%nat ->
  contains (bs "+NSONMI:0,") (text_of l) = true -> (length (text_of l) <= 64)%nat ->
  wp (fetch (fill 256 (Some l))) (fun _ s' t' => exists c, ~ is_nsost c /\ went [c] [] s t s' t') s t.
Proof.
  intros [Hnb Hm] Hl Hc Hshort. unfold fetch.
  assert (H10 : (10 <= length (text_of l))%nat).
  { unfold contains in Hc. destruct (find_sub _ _) as [k|] eqn:E; [|done].
    apply find_sub_Some in E as (x & y & -> & _). rewrite !length_app. simpl. lia. }
  pose proof (c_str_fill_text l 256 Hl) as Hfill.
  apply c_str_Some in Hfill as [Hnz [r Hr]]. rewrite Hr.
  rewrite drop_app_le by lia.
  wp_step. eapply wp_of_option.
  { apply c_str_app. by apply Forall_drop. }
  set (rest := drop 10 (text_of l)) in *.
  assert (Hrl : (length rest <= 54)%nat) by (subst rest; rewrite length_drop; lia).
  wp_step. eapply wp_of_option; [apply store_str_0; rewrite length_app, length_replicate; simpl; lia|].
  wp_step. apply wp_lift_nb. eapply wp_mono.
  { apply wp_with; [|intros ? ? ?; apply send_cmd_first].
    eapply wp_send_cmd; [apply c_str_app; apply Forall_app; split| |
      exact (eq_refl : c_str (lit "OK") = Some (bs "OK"))|done|lia|apply Hnb].
    - by apply (bool_decide_unpack _); vm_compute.
    - by apply Forall_drop.
    - rewrite length_app. simpl. lia. }
  intros r0 g' t' [(rs & Hdlg & -> & [(buf & -> & Hb) _]) (p & c & k & ->)]. apply sent_exchange in Hdlg.
  assert (Hok : nb_ok (set_rcvd buf (t_nb s))).
  { split; [apply Hnb|]. destruct Hb as [?| ->]; [done|apply Hnb]. }
  assert (Hnr : ~ is_nsost ((bs "AT+NSORF=" ++ rest) ++ [13; 10])) by done.
  set (t' := p ++ EvWrite _ _ _ :: t) in *.
  assert (Hw : went [(bs "AT+NSORF=" ++ rest) ++ [13; 10]] [] s t (mkTask (set_rcvd buf (t_nb s)) (t_mem s)) t').
  { split; [done| |done|done|simpl; lia]. rewrite app_nil_r. unfold t' in *. rewrite cons_middle, (assoc_L app) in Hdlg |- *.
    rewrite sent_app in Hdlg. apply app_inv_head in Hdlg. apply records_quiet. rewrite Hdlg. by rewrite Forall_singleton. }
  clearbody t'.
  wp_if as [_|_]; [|wp_step; eauto].
  wp_step. apply wp_lift_nb. unfold get_str_data. wp_steps.
  pose proof Hok as [_ [Hblen [s0 Hs0]]]. eapply wp_of_option; [exact Hs0|]. cbv zeta. wp_steps.
  change (Z.to_nat (u8 256)) with 0%nat. change (Z.to_nat (u8 0)) with 0%nat.
  wp_if as [_|Hno]; [|destruct Hno; simpl; lia]. wp_steps. cbn [take drop app].
  eapply wp_of_option; [vm_compute; reflexivity|]. wp_step. eauto.
Qed.

Lemma reports_app l k : reports (l ++ k) = reports l ++ reports k.
Proof. apply filter_app. Qed.

Lemma reports_none l : Forall (fun c => ~ is_nsost c) l -> reports l = [].
Proof.
  unfold reports. induction 1 as [|c l Hc _ IH]; [done|]. by rewrite filter_cons_False.
Qed.

Lemma report_is_nsost d : reports [report_line d] = [report_line d].
Proof. reflexivity. Qed.

(** The records reported in a stretch that sent [new]. *)
Definition reported (ds : list DEVICEINFO) (new : list (list Z)) : Prop :=
  reports new = report_line <$> ds /\ Forall info_named ds.

Lemma reported_nil new : Forall (fun c => ~ is_nsost c) new -> reported [] new.
Proof. intros H. split; [by apply reports_none|constructor]. Qed.

Lemma reported_app ds1 new1 ds2 new2 :
  reported ds1 new1 -> reported ds2 new2 -> reported (ds1 ++ ds2) (new1 ++ new2).
Proof.
  intros [H1 F1] [H2 F2]. split; [by rewrite reports_app, fmap_app, H1, H2|by apply Forall_app].
Qed.

(** The part of a turn behind the report. *)
Lemma wp_nb_wait sec s t : task_ok s ->
  wp (fd ← lift_nb (gets fd_NB_Iot_USART);
      iRet ← lift_nb (select_read [fd] sec);
      if decide (iRet.1 < 0) then mret sec
      else if decide (iRet.1 = 0) then mret 0
      else if decide (fd ∈ iRet.2) then
        lift_nb (usleep 100000);;
        r ← lift_nb (io_read fd 256);
        lift_nb (tcflush fd);;
        let cArray := fill 256 r in
        of_option (c_str cArray);;
        strx ← of_option (strstr cArray (lit "+NSONMI:0,"));
        (match strx with Some _ => fetch cArray | None => mret () end);;
        mret sec
      else mret sec)
    (fun sec' s' t' => (sec' = 0 \/ sec' = sec) /\
      exists new, Forall (fun c => ~ is_nsost c) new /\ went new [] s t s' t') s t.
Proof.
  intros Hs. wp_step. apply wp_lift_nb. wp_step. wp_step. apply wp_lift_nb.
  destruct s as [g h]. cbn [t_nb t_mem] in *. destruct Hs as [[Hfd Hbuf] Hm]. cbn [t_nb t_mem] in *.
  apply wp_select; [by rewrite Forall_singleton|]. cbv zeta.
  set (r := dev_select _ _ _). set (t1 := EvSelect _ _ _ :: t).
  assert (Hw : went [] [] (mkTask g h) t (mkTask g h) t1) by (split; simpl; rewrite ?app_nil_r; done || lia).
  assert (Hquiet : forall sec', sec' = 0 \/ sec' = sec ->
    wp (mret sec') (fun sec' s' t' => (sec' = 0 \/ sec' = sec) /\
      exists new, Forall (fun c => ~ is_nsost c) new /\ went new [] (mkTask g h) t s' t') (mkTask g h) t1).
  { intros sec' Hsec. wp_step. split; [done|]. exists []. split; [constructor|done]. }
  repeat (wp_if as [?|?]; [apply Hquiet; by auto|]). wp_if as [_|?]; [|apply Hquiet; by auto].
  wp_step. apply wp_lift_nb. wp_steps. apply wp_lift_nb. wp_steps. set (rd := dev_read _ _ _).
  apply wp_lift_nb. wp_steps.
  assert (Hfit : forall l, rd = Some l -> (length l < 256)%nat) by (intros l; apply modem_fits).
  assert (Hann : forall l, rd = Some l -> contains (bs "+NSONMI:0,") (text_of l) = true ->
    (length (text_of l) <= 64)%nat) by (intros l; apply announce_short).
  destruct (fill_ok rd Hfit) as [_ [s0 Hs0]]. eapply wp_of_option; [exact Hs0|]. cbn [t_mem t_nb].
  set (t2 := EvFlush _ :: _).
  assert (Hw2 : went [] [] (mkTask g h) t (mkTask g h) t2) by (split; simpl; rewrite ?app_nil_r; done || lia).
  wp_steps. eapply wp_of_option.
  { by apply strstr_spec; [exact Hs0|exact (eq_refl : c_str (lit "+NSONMI:0,") = Some (bs "+NSONMI:0,"))]. }
  wp_step. destruct (find_sub (bs "+NSONMI:0,") s0) as [k|] eqn:Hfind.
  - destruct rd as [l|]; [|by simpl in Hs0; injection Hs0 as <-].
    rewrite (c_str_fill_text l 256) in Hs0 by auto. injection Hs0 as <-.
    assert (Hc : contains (bs "+NSONMI:0,") (text_of l) = true) by (unfold contains; by rewrite Hfind).
    cbn [fmap option_fmap option_map]. eapply wp_mono; [apply wp_fetch; auto; by split|].
    intros _ s' t' (c & Hc' & Hw'). wp_step. split; [by right|]. exists [c].
    split; [by rewrite Forall_singleton|]. exact (went_trans _ _ _ _ _ _ _ _ _ _ Hw2 Hw').
  - cbn [fmap option_fmap option_map]. wp_steps. split; [by right|]. exists []. split; [constructor|done].
Qed.

Lemma wp_nb_turn sec s t : task_ok s -> (sec = 0 \/ sec = 10) ->
  wp (nb_turn sec) (fun sec' s' t' => (sec' = 0 \/ sec' = 10) /\
    exists new ds, went new ds s t s' t' /\ reported ds new /\
      length ds = if decide (sec = 0) then 1%nat else 0%nat) s t.
Proof.
  intros Hs Hsec. unfold nb_turn. wp_step.
  apply (wp_mono _ (fun sec1 s1 t1 => sec1 = 10 /\ exists new ds, went new ds s t s1 t1 /\
    reported ds new /\ length ds = if decide (sec = 0) then 1%nat else 0%nat)).
  { wp_if as [H0|H0].
    - wp_step. eapply wp_mono; [by apply wp_report|]. intros ? s' t' Hw. cbv beta in Hw. wp_step.
      split; [done|]. exists [report_line (info_at t)], [info_at t]. split_and!; try done.
      split; [apply report_is_nsost|]. rewrite Forall_singleton. apply shared_named.
    - wp_step. destruct Hsec as [?|Hsec]; [done|]. split; [done|]. exists [], [].
      split_and!; [by apply went_nil|by apply reported_nil|done]. }
  intros sec1 s1 t1 (-> & new & ds & Hw & Hrep & Hlen).
  eapply wp_mono; [apply wp_nb_wait, Hw|].
  intros sec' s' t' (Hsec' & new2 & Hno & Hw2). split; [done|]. exists (new ++ new2), ds.
  split_and!; [|rewrite <- (app_nil_r ds); apply reported_app; [done|by apply reported_nil]|done].
  rewrite <- (app_nil_r ds). by eapply went_trans.
Qed.

Lemma wp_nb_turns n : forall sec s t, task_ok s -> (sec = 0 \/ sec = 10) ->
  wp (nb_turns n sec) (fun _ s' t' => exists new ds, went new ds s t s' t' /\ reported ds new /\
    (sec = 0 -> (Nat.min 1 n <= length ds)%nat)) s t.
Proof.
  induction n as [|n IH]; intros sec s t Hs Hsec; cbn [nb_turns].
  - wp_step. exists [], []. split_and!; [by apply went_nil|by apply reported_nil|simpl; lia].
  - wp_step. eapply wp_mono; [by apply wp_nb_turn|].
    intros sec1 s1 t1 (Hsec1 & new & ds & Hw & Hrep & Hlen).
    eapply wp_mono; [apply IH; [apply Hw|done]|].
    intros _ s2 t2 (new2 & ds2 & Hw2 & Hrep2 & _). exists (new ++ new2), (ds ++ ds2).
    split_and!; [by eapply went_trans|by apply reported_app|].
    intros ->. rewrite decide_True in Hlen by done. rewrite length_app. lia.
Qed.

(** Driving a pin leaves no trace on the modem port. *)
Lemma wp_gpio_out get set v (Q : () -> nb -> trace -> Prop) g t :
  (forall fd t', (forall p, dialogue p t' = dialogue p t) -> Q () (set fd g) t') ->
  wp (gpio_out get set v) Q g t.
Proof.
  intros HQ. unfold gpio_out. wp_steps. apply wp_GPIO_write; intros ret _; wp_step; by apply HQ.
Qed.

Lemma asks_no_report c e : asks c e -> bool_decide (is_nsost (line c)) = false -> ~ is_nsost (e.1).
Proof. intros -> H. by apply bool_decide_eq_false in H. Qed.

Lemma no_reports (R : exchange -> Prop) d :
  (forall e, R e -> ~ is_nsost (e.1)) -> Forall R d -> Forall (fun c => ~ is_nsost c) (d.*1).
Proof. intros HR Hd. rewrite Forall_fmap. eapply Forall_impl; [exact Hd|]. exact HR. Qed.

Lemma power_on_no_reports d1 d2 d3 d4 : at_phase d1 ->
  (d2 = [] /\ d3 = [] /\ d4 = [] \/
   exists b1 b2, mode_phase d2 b1 /\ band_phase d3 b2 /\ reboot_phase d4 (b1 || b2)) ->
  Forall (fun c => ~ is_nsost c) ((d1 ++ d2 ++ d3 ++ d4).*1).
Proof.
  intros (k & e & -> & Hk & He & _) Hrest.
  assert (H1 : forall c e, asks c e -> bool_decide (is_nsost (line c)) = false ->
    Forall (fun c => ~ is_nsost c) ([e].*1)).
  { intros c e' Ha Hb. simpl. rewrite Forall_singleton. by eapply asks_no_report. }
  rewrite !fmap_app, !Forall_app. split.
  - split; [|by eapply H1]. eapply no_reports; [|exact Hk]. intros e' [Ha _]. by eapply asks_no_report.
  - destruct Hrest as [(-> & -> & ->)|(b1 & b2 & (q & sets & -> & Hq & _ & Hsets & _) & (q3 & Hq3 & _ & H3) & H4)];
      [done|]. split_and!.
    + simpl. constructor; [by eapply asks_no_report|].
      eapply no_reports; [|exact Hsets]. intros e' Ha. by eapply asks_no_report.
    + destruct b2; [destruct H3 as (e3 & -> & H3)|subst d3]; simpl; rewrite ?Forall_cons;
        split_and!; try constructor; try by eapply asks_no_report.
    + unfold reboot_phase in H4. destruct (b1 || b2); [destruct H4 as (e4 & -> & H4)|by subst d4].
      by eapply H1.
Qed.

(** Bringing the modem up. *)
Lemma wp_NB_Iot_start g :
  (forall t, fd_set_ok (dev_open t CONFIG_EXAMPLES_NB_IOT_DEVPATH)) ->
  buf_ok (NB_Iot_rcvd_buf g) -> ue_need_reboot_flag g = 0 ->
  wp NB_Iot_start (fun _ g' t' => nb_ok g' /\
    Forall (fun c => ~ is_nsost c) (sent (fd_NB_Iot_USART g') t')) g [].
Proof.
  intros Hopen Hbuf Hrb. unfold NB_Iot_start, delay_ms. wp_step.
  apply (wp_mono _ (fun _ g' t' => NB_Iot_rcvd_buf g' = NB_Iot_rcvd_buf g /\
    ue_need_reboot_flag g' = 0 /\ forall p, dialogue p t' = [])).
  { unfold NB_Iot_GPIO_Init. wp_steps. wp_if as [?|?]; wp_steps; by split_and!. }
  intros _ g1 t1 (Hb1 & Hr1 & Ht1). wp_step.
  apply (wp_mono _ (fun _ g' t' => nb_ok g' /\ ue_need_reboot_flag g' = 0 /\
    forall p, dialogue p t' = [])).
  { unfold NB_Iot_USART_Init. wp_steps. pose proof (Hopen t1) as Hf. unfold fd_set_ok in Hf.
    wp_if as [?|?]; [lia|]. wp_steps. unfold nb_ok. simpl. rewrite Hb1. by split_and!. }
  clear g1 t1 Hb1 Hr1 Ht1. intros _ g1 t1 (Hok1 & Hr1 & Ht1).
  wp_step. apply wp_gpio_out. intros f1 t2 Ht2. wp_steps.
  apply wp_gpio_out. intros f2 t3 Ht3. wp_steps. apply wp_gpio_out. intros f3 t4 Ht4. wp_steps.
  apply wp_gpio_out. intros f4 t5 Ht5. wp_steps.
  eapply wp_mono; [apply wp_BC95_power_on; [done|done]|].
  intros _ g' t' (d1 & d2 & d3 & d4 & Hd & Hok & Hfd & _ & Hat & Hrest). split; [done|].
  rewrite Hfd. cbn [fd_NB_Iot_USART set_rst set_pwr] in Hd |- *.
  rewrite (sent_talked (d1 ++ d2 ++ d3 ++ d4) _ t1).
  2: { rewrite Hd. cbn [dialogue]. rewrite Ht5. cbn [dialogue]. rewrite Ht4. cbn [dialogue].
       rewrite Ht3. cbn [dialogue]. by rewrite Ht2. }
  assert (Hs1 : forall p, sent p t1 = []).
  { intros p. pose proof (dialogue_sent p t1) as H. rewrite Ht1 in H. by apply (f_equal (@rev _)) in H; rewrite rev_involutive in H. }
  rewrite Hs1. apply power_on_no_reports; [done|]. destruct (decide (length d1 = 1%nat)); [right|left]; tauto.
Qed.
End task_facts.

(** C1: the modem task runs for ever without undefined behaviour, when opening the modem
    port gives a descriptor below 32, every read from the modem leaves room in the array
    of 256 bytes, announcements of datagrams are short lines, the other task leaves the
    names in the device record alone, and memory suffices.  After
    any number of turns it has either ended, because the network was not found, and
    reported nothing; or it is in its loop and has sent at least one report.  Every
    datagram command it sent is AT+NSOST=0,111.198.38.70,9999,length,data with the length
    of the JSON text of the device record as it was at the moment of this command, and
    that text in hexadecimal; and the heap holds one block more for each report. *)
Theorem nb_iot_reports `{D : Device} `{!Modem D} `{!Announcements D} `{A : Allocator} `{!Generous A}
    `{P : FloatPrint} `{S : Shared} `{!SharedOk S} n h :
  (forall t, fd_set_ok (dev_open t CONFIG_EXAMPLES_NB_IOT_DEVPATH)) -> wf h ->
  wp (NB_Iot n) (fun r s t => let ds := records_sent (fd_NB_Iot_USART (t_nb s)) t in
    reports (sent (fd_NB_Iot_USART (t_nb s)) t) = report_line <$> ds /\
    size (blocks (t_mem s)) = (size (blocks h) + length ds)%nat /\
    match r with
    | inl _ => (Nat.min 1 n <= length ds)%nat
    | inr c => c = EXIT_FAILURE /\ ds = []
    end) (mkTask nb_init h) [].
Proof.
  intros Hopen Hh. unfold NB_Iot. wp_step. apply wp_lift_nb. eapply wp_mono.
  { apply wp_NB_Iot_start; [done| |done]. split; [done|by eexists]. }
  intros _ g t (Hg & Hno). cbn [t_mem t_nb] in *. wp_step. apply wp_lift_nb. eapply wp_mono.
  { by apply wp_query_net_status. }
  intros r g1 t1 (d & Hd & Hg1 & Hfd1 & _ & _ & Hcmd). cbn [t_mem t_nb].
  assert (Hno1 : Forall (fun c => ~ is_nsost c) (sent (fd_NB_Iot_USART g1) t1)).
  { rewrite Hfd1, (sent_talked d _ t) by done. apply Forall_app. split; [done|].
    eapply no_reports; [|exact Hcmd].
    intros e [Ha|[Ha|Ha]]; by eapply asks_no_report. }
  wp_if as [_|_].
  - wp_step. apply wp_lift_nb. eapply wp_mono.
    { apply (wp_creat_UDP_socket _ (bs "3005")); [done|simpl; lia|done]. }
    intros r2 g2 t2 (rs & Hd2 & Hg2 & Hfd2 & _). cbn [t_mem t_nb].
    assert (Hno2 : Forall (fun c => ~ is_nsost c) (sent (fd_NB_Iot_USART g2) t2)).
    { rewrite Hfd2. apply sent_exchange in Hd2. rewrite Hd2. apply Forall_app. split; [done|].
      by rewrite Forall_singleton. }
    wp_step. eapply wp_mono; [apply wp_nb_turns; [by split|by left]|].
    intros sec s' t' (new & ds & [Hsent Hrec Hfd Hok Hsize] & [Hrep Hnamed] & Hmin). wp_step.
    cbn [t_mem t_nb] in Hsent, Hrec, Hfd, Hsize. rewrite (records_none _ _ Hno2) in Hrec. cbv zeta.
    rewrite Hfd, Hsent, Hrec, reports_app, (reports_none _ Hno2), Hrep. split_and!; try done. by apply Hmin.
  - wp_step. cbv zeta. cbn [t_nb t_mem]. rewrite (reports_none _ Hno1), (records_none _ _ Hno1).
    split_and!; done || (simpl; lia).
Qed.

(** C20: what the server receives for a report.  The first thing the task does when it
    reports, in any state with an open modem port, is to send the datagram command with a
    length and data; the length is that of the JSON text of the device record as it is at
    this moment, and decoding the data with the firmware's own [HexStrToByte], into any
    array with room for so many bytes, gives this text.  Nothing else is sent on the
    modem port.  The reads from the modem leave room in the array of 256 bytes, memory
    suffices, and the names in the record are those of its initialisation. *)
Theorem report_decodes `{D : Device} `{!Modem D} `{A : Allocator} `{!Generous A}
    `{P : FloatPrint} `{S : Shared} `{!SharedOk S} s t : task_ok s ->
  wp report (fun _ s' t' => exists p k n data,
    t' = p ++ EvWrite (fd_NB_Iot_USART (t_nb s))
           (bs "AT+NSOST=0,111.198.38.70,9999," ++ fmt_d n ++ [44] ++ data ++ [13; 10]) k :: t /\
    sent (fd_NB_Iot_USART (t_nb s)) p = [] /\ n = Z.of_nat (length (info_text (info_at t))) /\
    forall back, n <= Z.of_nat (length back) ->
      HexStrToByte (data ++ [0]) back (2 * n) = Some (info_text (info_at t) ++ drop (Z.to_nat n) back)) s t.
Proof.
  intros Hs. pose proof (info_text_length _ (shared_named t)). eapply wp_mono; [by apply wp_report_line|].
  intros _ s' t' ((p & k & -> & Hp) & _). exists p, k, (Z.of_nat (length (info_text (info_at t)))), (hex_encode (info_text (info_at t))).
  split_and!; [|done|done|].
  - unfold report_line, nsost. by rewrite <- !(assoc_L app).
  - intros back Hback. rewrite Nat2Z.id. apply HexStrToByte_spec; [apply info_text_bytes|lia|lia].
Qed.

(** ** Start-up *)

(** The state [NB_IOT_main] works on: its guard, the shared record, the tasks it
    has created. *)
Record board := mkBoard {
  g_NB_Iot_started : bool;
  DeviceInfo_ : option DEVICEINFO;
  tasks : list string
}.

Inductive main_result := Returned (code : Z) | Sleeping.

(** [create] is what [task_create] answers for a task; a positive or zero answer
    starts it. *)
Definition NB_IOT_main (create : string -> Z) (b : board) : main_result * board :=
  let b := mkBoard (g_NB_Iot_started b) DeviceInfoInit (tasks b) in
  if g_NB_Iot_started b then (Returned EXIT_SUCCESS, b) else
  let b := mkBoard true (DeviceInfo_ b) (tasks b) in
  if decide (create "NB_Iot" < 0) then (Returned EXIT_FAILURE, b) else
  let b := mkBoard true (DeviceInfo_ b) (tasks b ++ ["NB_Iot"%string]) in
  if decide (create "_485" < 0) then (Returned EXIT_FAILURE, b) else
  (Sleeping, mkBoard true (DeviceInfo_ b) (tasks b ++ ["_485"%string])).

(** Runs of the command, one after the other. *)
Fixpoint main_runs (create : nat -> string -> Z) (n : nat) (b : board) : board :=
  match n with
  | O => b
  | S n => snd (NB_IOT_main (create n) (main_runs create n b))
  end.

Definition board_off : board := mkBoard false None [].

(** However often the command is run, and whatever task creation answers, the
    two tasks are each started at most once, the modem task first; and after the
    first run the shared record is the initial one again: a further run resets
    the measurements although it starts nothing. *)
Theorem main_starts_once create n :
  let b := main_runs create n board_off in
  (tasks b = [] \/ tasks b = ["NB_Iot"%string] \/ tasks b = ["NB_Iot"%string; "_485"%string]) /\
  ((n > 0)%nat -> g_NB_Iot_started b = true /\
    exists d, DeviceInfo_ b = Some d /\ info_named d /\ BaseTemperature d = 0 /\ Voltage d = 0).
Proof.
  assert (Hinit : exists d, DeviceInfoInit = Some d /\ info_named d /\ BaseTemperature d = 0 /\ Voltage d = 0).
  { eexists. split; [reflexivity|]. split; [|done]. unfold info_named. split_and!; try reflexivity.
    rewrite !Forall_cons. unfold is_short. simpl. split_and!; try lia. constructor. }
  destruct Hinit as (d & Hd & Hrest).
  induction n as [|n IH]; cbv zeta in *; [split; [by left|lia]|].
  cbn [main_runs]. unfold NB_IOT_main. rewrite Hd. cbn [g_NB_Iot_started DeviceInfo_ tasks].
  destruct IH as [Ht Hn]. destruct (g_NB_Iot_started (main_runs create n board_off)) eqn:Hg.
  - split; [exact Ht|]. intros _. eauto.
  - assert (n = 0%nat) as ->. { destruct n; [done|]. destruct (Hn ltac:(lia)). congruence. }
    split; [|intros _; repeat case_decide; eauto].
    repeat case_decide; simpl; tauto.
Qed.

(** ** Witnesses *)

(** A modem that also announces a datagram whenever it is asked nothing. *)
Definition busy_reply (t : trace) (c : list Z) : list Z :=
  if is_prefix (bs "AT+NSOST=") c then line "OK" else good_reply t c.

Lemma busy_announcements : Announcements (modem busy_reply).
Proof.
  split. intros t fd l E. injection E as E. rewrite <- E. unfold busy_reply, good_reply.
  repeat case_match; vm_compute; done.
Qed.

(** The same modem with nothing to announce: a wait of ten seconds is in vain. *)
Definition quiet_modem : Device := {|
  dev_open t path := 3;
  dev_write t fd d := Z.of_nat (length d);
  dev_read t fd n := Some (take 255 (busy_reply t (last_write t)));
  dev_select t fds sec := if decide (sec = 10) then (0, []) else (1, fds);
  dev_ioctl t fd cmd arg := (0, 0);
  dev_sigtimedwait t signo sec := signo
|}.

Lemma quiet_modem_ok : Modem quiet_modem.
Proof. split. intros t fd l E. injection E as <-. rewrite length_take. lia. Qed.

Lemma quiet_announcements : Announcements quiet_modem.
Proof. split. intros t fd l E. by apply (@announce_short _ busy_announcements t fd l). Qed.

(** The other task has stored as many degrees as there were system calls. *)
Definition sample_shared : Shared := {| info_at t := setDeviceInfoLedTemperature (Z.of_nat (length t)) sample_record |}.

Lemma sample_shared_ok : SharedOk sample_shared.
Proof.
  split. intros t. destruct sample_record_named as (H1 & H2 & H3 & H4 & H5). unfold info_named, sample_shared. cbn [info_at].
  split_and!; try done. rewrite !Forall_cons in *. destruct H5 as (? & _ & ?). split_and!; try tauto. apply s16_range.
Qed.

Lemma nb_iot_reports_witness :
  wp (@NB_Iot quiet_modem ample no_floats sample_shared 4) (fun r s t => let ds := @records_sent sample_shared (fd_NB_Iot_USART (t_nb s)) t in
    reports (sent (fd_NB_Iot_USART (t_nb s)) t) = report_line <$> ds /\
    size (blocks (t_mem s)) = (0 + length ds)%nat /\
    match r with
    | inl _ => (1 <= length ds)%nat
    | inr c => c = EXIT_FAILURE /\ ds = []
    end) (mkTask nb_init empty_store) [] /\
  match @NB_Iot quiet_modem ample no_floats sample_shared 4 (mkTask nb_init empty_store) [] with
  | Ret (_, _, t) => LedTemperature <$> @records_sent sample_shared 3 t = [37; 43; 49; 55]
  | _ => False
  end.
Proof.
  split; [|vm_compute; reflexivity].
  apply (@nb_iot_reports quiet_modem quiet_modem_ok quiet_announcements ample ample_generous
    no_floats sample_shared sample_shared_ok 4 empty_store).
  - intros t. unfold fd_set_ok. simpl. lia.
  - apply empty_store_wf.
Defined.

Lemma report_decodes_witness :
  wp (@report (modem busy_reply) ample no_floats sample_shared) (fun _ s' t' => exists p k n data,
    t' = p ++ EvWrite 3 (bs "AT+NSOST=0,111.198.38.70,9999," ++ fmt_d n ++ [44] ++ data ++ [13; 10]) k :: [] /\
    sent 3 p = [] /\ n = Z.of_nat (length (info_text (@info_at sample_shared []))) /\
    forall back, n <= Z.of_nat (length back) ->
      HexStrToByte (data ++ [0]) back (2 * n) = Some (info_text (@info_at sample_shared []) ++ drop (Z.to_nat n) back))
    (mkTask nb_up empty_store) [].
Proof.
  apply (@report_decodes (modem busy_reply) (modem_ok _) ample ample_generous no_floats sample_shared sample_shared_ok
    (mkTask nb_up empty_store) []).
  split; [apply nb_up_ok|apply empty_store_wf].
Defined.
