(* ===== verification/Serial.v ===== *)
(** * The serial driver

    Models src/nuttx/drivers/serial/serial.c and serial_io.c with the interrupt
    handler of src/nuttx/arch/arm/src/stm32l4/stm32l4_serial.c: the ring buffers of a
    port, filled and emptied by interrupts on one side and by the tasks on the other.

    An interrupt is taken between any two accesses of a task to the port, runs to its
    end, and is held off inside a critical section.  What the outside world and the
    other tasks do is a [plan]: before every access the next entry of the plan
    happens.  A theorem for every plan is one for every interleaving.  The hardware is
    its data registers: the bytes received and not yet read, the room of the
    transmitter, the bytes sent.  The semaphores are counts; Sem shows that the
    kernel's are.

    The configuration is the repository's: no DMA, no flow control, no removable
    devices, with termios. *)

From S2P Require Import Prelude.

(** ** Data *)

(** One direction: [struct uart_buffer_s], its semaphore [lock], the flag and the
    semaphore of the task that waits ([recvwaiting], [recvsem] and [xmitwaiting],
    [xmitsem]), the interrupt enable bit, and all bytes ever put into the buffer. *)
Record side := mkSide {
  head : Z; tail : Z; size : Z; buffer : list Z;
  waiting : bool; wsem : Z; lock : Z; ie : bool;
  pushed : list Z
}.

Record pollfd := mkPoll { events : Z; revents : Z; psem : Z; priv : option nat }.

(** [struct uart_dev_s]; [fds] holds the addresses of the pollers, 0 for none. *)
Record uart := mkUart {
  recv : side; xmit : side; tc_iflag : Z; tc_oflag : Z; isconsole : bool;
  fds : list Z; polls : gmap Z pollfd; pollsem : Z;
  rdr : list Z; room : nat; wire : list Z
}.

Definition set_head (v : Z) (r : side) : side :=
  mkSide v (tail r) (size r) (buffer r) (waiting r) (wsem r) (lock r) (ie r) (pushed r).
Definition set_tail (v : Z) (r : side) : side :=
  mkSide (head r) v (size r) (buffer r) (waiting r) (wsem r) (lock r) (ie r) (pushed r).
Definition set_waiting (b : bool) (r : side) : side :=
  mkSide (head r) (tail r) (size r) (buffer r) b (wsem r) (lock r) (ie r) (pushed r).
Definition set_wsem (v : Z) (r : side) : side :=
  mkSide (head r) (tail r) (size r) (buffer r) (waiting r) v (lock r) (ie r) (pushed r).
Definition set_lock (v : Z) (r : side) : side :=
  mkSide (head r) (tail r) (size r) (buffer r) (waiting r) (wsem r) v (ie r) (pushed r).
Definition set_ie (b : bool) (r : side) : side :=
  mkSide (head r) (tail r) (size r) (buffer r) (waiting r) (wsem r) (lock r) b (pushed r).
(** [buffer[head] = ch; head = next]. *)
Definition put_char (ch next : Z) (r : side) : option side :=
  b ← aset (buffer r) (head r) ch;
  Some (mkSide next (tail r) (size r) b (waiting r) (wsem r) (lock r) (ie r) (pushed r ++ [ch])).

Definition set_recv (r : side) (u : uart) : uart :=
  mkUart r (xmit u) (tc_iflag u) (tc_oflag u) (isconsole u) (fds u) (polls u) (pollsem u) (rdr u) (room u) (wire u).
Definition set_xmit (r : side) (u : uart) : uart :=
  mkUart (recv u) r (tc_iflag u) (tc_oflag u) (isconsole u) (fds u) (polls u) (pollsem u) (rdr u) (room u) (wire u).
Definition set_polls (f : list Z) (p : gmap Z pollfd) (u : uart) : uart :=
  mkUart (recv u) (xmit u) (tc_iflag u) (tc_oflag u) (isconsole u) f p (pollsem u) (rdr u) (room u) (wire u).
Definition set_hw (l : list Z) (n : nat) (w : list Z) (u : uart) : uart :=
  mkUart (recv u) (xmit u) (tc_iflag u) (tc_oflag u) (isconsole u) (fds u) (polls u) (pollsem u) l n w.

Definition POLLIN : Z := 1.
Definition POLLOUT : Z := 2.
Definition EPERM : Z := 1.
Definition INLCR : Z := 32.
Definition IGNCR : Z := 8.
Definition ICRNL : Z := 2.
Definition OPOST : Z := 1.
Definition ONLCR : Z := 4.
Definition OCRNL : Z := 8.
Definition ONLRET : Z := 32.

(** ** The interrupt side *)

(** [next >= size ? 0 : next] behind an increment of an index. *)
Definition bump (i : Z) (r : side) : Z := let i := i + 1 in if decide (size r <= i) then 0 else i.

Definition notify_one (eventset : Z) (polls : gmap Z pollfd) (p : Z) : option (gmap Z pollfd) :=
  if decide (p = 0) then Some polls else
  f ← polls !! p;
  let rev := Z.lor (revents f) (Z.land (events f) eventset) in
  Some (<[p := mkPoll (events f) rev (if decide (rev = 0) then psem f else psem f + 1) (priv f)]> polls).

Definition uart_pollnotify (eventset : Z) (u : uart) : option uart :=
  ps ← foldl (fun acc p => acc ≫= fun ps => notify_one eventset ps p) (Some (polls u)) (fds u);
  Some (set_polls (fds u) ps u).

Definition uart_datareceived (u : uart) : option uart :=
  let u := if waiting (recv u) then set_recv (set_wsem (wsem (recv u) + 1) (set_waiting false (recv u))) u else u in
  uart_pollnotify POLLIN u.

Definition uart_datasent (u : uart) : option uart :=
  let u := if waiting (xmit u) then set_xmit (set_wsem (wsem (xmit u) + 1) (set_waiting false (xmit u))) u else u in
  uart_pollnotify POLLOUT u.

(** The loop of [uart_recvchars], for the bytes in the receive register. *)
Fixpoint recv_loop (hw : list Z) (r : side) (nexthead nbytes : Z) : option (side * Z) :=
  match hw with
  | [] => Some (r, nbytes)
  | ch :: hw =>
      if decide (nexthead = tail r) then recv_loop hw r nexthead nbytes
      else
        r ← put_char ch (s16 nexthead) r;
        recv_loop hw r (bump nexthead r) (u16 (nbytes + 1))
  end.

Definition uart_recvchars (u : uart) : option uart :=
  '(r, nbytes) ← recv_loop (rdr u) (recv u) (bump (head (recv u)) (recv u)) 0;
  let u := set_recv r (set_hw [] (room u) (wire u) u) in
  if decide (nbytes = 0) then Some u else uart_datareceived u.

(** The loop of [uart_xmitchars], while the transmitter has room. *)
Fixpoint xmit_loop (n : nat) (r : side) (out : list Z) (nbytes : Z) : option (nat * side * list Z * Z) :=
  if decide (head r = tail r) then Some (n, r, out, nbytes) else
  match n with
  | O => Some (O, r, out, nbytes)
  | S n =>
      ch ← aget (buffer r) (tail r);
      xmit_loop n (set_tail (s16 (bump (tail r) r)) r) (out ++ [ch]) (u16 (nbytes + 1))
  end.

Definition uart_xmitchars (u : uart) : option uart :=
  '(n, r, w, nbytes) ← xmit_loop (room u) (xmit u) (wire u) 0;
  let r := if decide (head r = tail r) then set_ie false r else r in
  let u := set_xmit r (set_hw (rdr u) n w u) in
  if decide (nbytes = 0) then Some u else uart_datasent u.

(** [up_interrupt]: passes until nothing is left to handle. *)
Fixpoint up_interrupt (passes : nat) (u : uart) : option uart :=
  match passes with
  | O => Some u
  | S passes =>
      let rx := ie (recv u) && negb (bool_decide (rdr u = [])) in
      u ← (if rx then uart_recvchars u else Some u);
      let tx := ie (xmit u) && negb (bool_decide (room u = 0%nat)) in
      u ← (if tx then uart_xmitchars u else Some u);
      if rx || tx then up_interrupt passes u else Some u
  end.

(** ** Tasks *)

(** What can happen around a task: bytes arrive, the transmitter gets room, a signal
    is delivered to the task, another task works on the port. *)
Inductive happening :=
| Arrive (l : list Z)
| Ready (n : nat)
| Signal
| Other (f : uart -> uart).

Definition happen (h : happening) (u : uart) : uart :=
  match h with
  | Arrive l => set_hw (rdr u ++ l) (room u) (wire u) u
  | Ready n => set_hw (rdr u) (room u + n) (wire u) u
  | Signal => u
  | Other f => f u
  end.

Definition is_signal (h : happening) : bool := match h with Signal => true | _ => false end.

Record st := mkSt { dv : uart; plan : list (list happening); masked : bool }.

(** A task returns, does something undefined, runs out of fuel, or waits when the plan
    is over. *)
Inductive res (A : Type) :=
| Fine (a : A) (s : st)
| Wrong
| NoFuel
| Starved (s : st).
Arguments Fine {A} a s.
Arguments Wrong {A}.
Arguments NoFuel {A}.
Arguments Starved {A} s.

Definition ser (A : Type) : Type := st -> res A.
#[global] Instance ser_ret : MRet ser := fun A a s => Fine a s.
#[global] Instance ser_bind : MBind ser := fun A B k m s =>
  match m s with Fine a s => k a s | Wrong => Wrong | NoFuel => NoFuel | Starved s => Starved s end.

(** The next entry of the plan happens, and pending interrupts are taken. *)
Definition touch : ser () := fun s =>
  let '(u, p) := match plan s with [] => (dv s, []) | b :: p => (foldl (flip happen) (dv s) b, p) end in
  if masked s then Fine tt (mkSt u p true) else
  match up_interrupt 256 u with Some u => Fine tt (mkSt u p false) | None => Wrong end.

(** An access to the port. *)
Definition look {A} (f : uart -> A) : ser A := fun s => Fine (f (dv s)) s.
Definition change (f : uart -> option uart) : ser () := fun s =>
  match f (dv s) with Some u => Fine tt (mkSt u (plan s) (masked s)) | None => Wrong end.
Definition rd {A} (f : uart -> A) : ser A := touch;; look f.
Definition wr (f : uart -> option uart) : ser () := touch;; change f.
Definition of_some {A} (o : option A) : ser A := match o with Some a => mret a | None => fun _ => Wrong end.
Definition out_of_fuel {A} : ser A := fun _ => NoFuel.

Definition enter_critical_section : ser () := fun s => Fine tt (mkSt (dv s) (plan s) true).
Definition leave_critical_section : ser () := fun s => Fine tt (mkSt (dv s) (plan s) false).

(** [wait_sem]: while the task waits, interrupts are enabled. *)
Fixpoint wait_sem_loop (get : uart -> Z) (put : Z -> uart -> uart) (p : list (list happening)) (u : uart) (m : bool) : res bool :=
  if decide (0 < get u) then Fine true (mkSt (put (get u - 1) u) p m) else
  match up_interrupt 256 u with
  | None => Wrong
  | Some u =>
      if decide (0 < get u) then Fine true (mkSt (put (get u - 1) u) p m) else
      match p with
      | [] => Starved (mkSt u [] m)
      | b :: p =>
          let u := foldl (flip happen) u b in
          if decide (get u <= 0) then
            if existsb is_signal b then Fine false (mkSt u p m) else wait_sem_loop get put p u m
          else wait_sem_loop get put p u m
      end
  end.
Definition wait_sem (get : uart -> Z) (put : Z -> uart -> uart) : ser bool := fun s =>
  wait_sem_loop get put (plan s) (dv s) (masked s).

Definition recv_lock (u : uart) : Z := lock (recv u).
Definition put_recv_lock (v : Z) (u : uart) : uart := set_recv (set_lock v (recv u)) u.
Definition xmit_lock (u : uart) : Z := lock (xmit u).
Definition put_xmit_lock (v : Z) (u : uart) : uart := set_xmit (set_lock v (xmit u)) u.
Definition recvsem (u : uart) : Z := wsem (recv u).
Definition put_recvsem (v : Z) (u : uart) : uart := set_recv (set_wsem v (recv u)) u.
Definition xmitsem (u : uart) : Z := wsem (xmit u).
Definition put_xmitsem (v : Z) (u : uart) : uart := set_xmit (set_wsem v (xmit u)) u.

(** [uart_takesem] with [errout] set: a signal ends the wait with -EINTR. *)
Definition uart_takesem (get : uart -> Z) (put : Z -> uart -> uart) : ser Z :=
  ok ← wait_sem get put; mret (if (ok : bool) then OK else - EINTR).
Definition uart_givesem (get : uart -> Z) (put : Z -> uart -> uart) : ser () :=
  wr (fun u => Some (put (get u + 1) u)).

(** [stm32l4serial_rxint] and [stm32l4serial_txint]; enabling the transmit interrupt
    runs [uart_xmitchars] at once. *)
Definition rxint (b : bool) : ser () := wr (fun u => Some (set_recv (set_ie b (recv u)) u)).
Definition txint (b : bool) : ser () :=
  wr (fun u => let u := set_xmit (set_ie b (xmit u)) u in if b then uart_xmitchars u else Some u).

(** ** Reading *)

(** Input processing of a character: what the task gets, if anything. The last test is
    a bitwise [&] of the source. *)
Definition input_char (iflag ch : Z) : option Z :=
  if decide (Z.land iflag (Z.lor INLCR (Z.lor IGNCR ICRNL)) <> 0) then
    let ch := if decide (ch = 10 /\ Z.land iflag INLCR <> 0) then 13
              else if decide (ch = 13 /\ Z.land iflag ICRNL <> 0) then 10 else ch in
    if decide (Z.land (if decide (ch = 13) then 1 else 0) (Z.land iflag IGNCR) <> 0) then None else Some ch
  else Some ch.

(** So IGNCR by itself discards nothing. *)
Example ignore_cr_ineffective : input_char IGNCR 13 = Some 13.
Proof. reflexivity. Qed.

(** The loop of [uart_read]: the result and the bytes stored. *)
Fixpoint read_loop (fuel : nat) (nonblock : bool) (buflen : Z) (data : list Z) : ser (Z * list Z) :=
  let recvd := Z.of_nat (length data) in
  if decide (buflen <= recvd) then mret (recvd, data) else
  match fuel with
  | O => out_of_fuel
  | S fuel =>
      t ← rd (fun u => tail (recv u));
      h ← rd (fun u => head (recv u));
      if decide (h <> t) then
        ch ← rd (fun u => aget (buffer (recv u)) t);
        ch ← of_some ch;
        wr (fun u => Some (set_recv (set_tail (s16 (bump t (recv u))) (recv u)) u));;
        iflag ← rd tc_iflag;
        match input_char iflag ch with
        | None => read_loop fuel nonblock buflen data
        | Some ch => read_loop fuel nonblock buflen (data ++ [ch])
        end
      else if decide (0 < recvd) then mret (recvd, data)
      else if nonblock then mret (- EAGAIN, data)
      else
        rxint false;;
        h ← rd (fun u => head (recv u));
        t ← rd (fun u => tail (recv u));
        if decide (h = t) then
          enter_critical_section;;
          rxint true;;
          wr (fun u => Some (set_recv (set_waiting true (recv u)) u));;
          ret ← uart_takesem recvsem put_recvsem;
          leave_critical_section;;
          if decide (ret < 0) then mret (if decide (recvd = 0) then - EINTR else recvd, data)
          else read_loop fuel nonblock buflen data
        else
          rxint true;;
          read_loop fuel nonblock buflen data
  end.

Definition uart_read (fuel : nat) (nonblock : bool) (buflen : Z) : ser (Z * list Z) :=
  ret ← uart_takesem recv_lock put_recv_lock;
  if decide (ret < 0) then mret (ret, []) else
  r ← read_loop fuel nonblock buflen [];
  uart_givesem recv_lock put_recv_lock;;
  mret r.

(** ** Writing *)

(** The loop of [uart_putxmitchar]; [nexthead] is computed in front of it. *)
Fixpoint putxmit_loop (fuel : nat) (ch nexthead : Z) (oktoblock : bool) : ser Z :=
  match fuel with
  | O => out_of_fuel
  | S fuel =>
      t ← rd (fun u => tail (xmit u));
      if decide (nexthead <> t) then
        wr (fun u => r ← put_char ch (s16 nexthead) (xmit u); Some (set_xmit r u));;
        mret OK
      else if oktoblock then
        enter_critical_section;;
        t ← rd (fun u => tail (xmit u));
        ret ← (if decide (nexthead <> t) then mret OK
               else
                 wr (fun u => Some (set_xmit (set_waiting true (xmit u)) u));;
                 txint true;;
                 ret ← uart_takesem xmitsem put_xmitsem;
                 txint false;;
                 mret ret);
        leave_critical_section;;
        if decide (ret < 0) then mret (- EINTR) else putxmit_loop fuel ch nexthead oktoblock
      else mret (- EAGAIN)
  end.

Definition uart_putxmitchar (fuel : nat) (ch : Z) (oktoblock : bool) : ser Z :=
  nexthead ← rd (fun u => bump (head (xmit u)) (xmit u));
  putxmit_loop fuel ch nexthead oktoblock.

(** One turn of the loop of [uart_write]: [Some] error, or [None]; the flag tells the
    error that [break]s at once. *)
Definition write_char (fuel : nat) (oktoblock : bool) (ch : Z) : ser (option (Z * bool)) :=
  oflag ← rd tc_oflag;
  if decide (Z.land oflag OPOST <> 0) then
    let ch := if decide (ch = 13 /\ Z.land oflag OCRNL <> 0) then 10 else ch in
    ret ← (if decide (ch = 10 /\ Z.land oflag (Z.lor ONLCR ONLRET) <> 0) then uart_putxmitchar fuel 13 oktoblock else mret OK);
    if decide (ret < 0) then mret (Some (ret, true)) else
    ret ← uart_putxmitchar fuel ch oktoblock;
    if decide (ret < 0) then mret (Some (ret, false)) else mret None
  else
    ret ← uart_putxmitchar fuel ch oktoblock;
    if decide (ret < 0) then mret (Some (ret, false)) else mret None.

(** The characters left, and the result so far ([nwritten] is the length of all). *)
Fixpoint write_loop (fuel : nat) (oktoblock : bool) (chars : list Z) (nwritten : Z) : ser Z :=
  match chars with
  | [] => mret nwritten
  | ch :: rest =>
      e ← write_char fuel oktoblock ch;
      match e with
      | None => write_loop fuel oktoblock rest nwritten
      | Some (ret, true) => mret ret
      | Some (ret, false) =>
          let buflen := Z.of_nat (length chars) in
          mret (if decide (buflen < nwritten) then nwritten - buflen else ret)
      end
  end.

(** [uart_irqwrite]: the characters go out at once, line ends as CR LF. *)
Definition uart_irqwrite (chars : list Z) (u : uart) : uart :=
  set_hw (rdr u) (room u) (wire u ++ flat_map (fun ch => if decide (ch = 10) then [13; ch] else [ch]) chars) u.

(** [from_idle]: called from an interrupt handler or the idle task. *)
Definition uart_write (fuel : nat) (from_idle nonblock : bool) (chars : list Z) : ser Z :=
  if from_idle then
    console ← rd isconsole;
    if (console : bool) then
      enter_critical_section;;
      wr (fun u => Some (uart_irqwrite chars u));;
      leave_critical_section;;
      mret (Z.of_nat (length chars))
    else mret (- EPERM)
  else
    ret ← uart_takesem xmit_lock put_xmit_lock;
    if decide (ret < 0) then mret ret else
    txint false;;
    nwritten ← write_loop fuel (negb nonblock) chars (Z.of_nat (length chars));
    h ← rd (fun u => head (xmit u));
    t ← rd (fun u => tail (xmit u));
    (if decide (h <> t) then txint true else mret ());;
    uart_givesem xmit_lock put_xmit_lock;;
    mret nwritten.

(** ** Ring buffers *)

(** The number of bytes buffered, and the bytes, oldest first. *)
Definition count (r : side) : Z :=
  if decide (tail r <= head r) then head r - tail r else size r - (tail r - head r).
Definition cell (r : side) (i : nat) : Z :=
  let p := tail r + Z.of_nat i in
  default 0 (buffer r !! Z.to_nat (if decide (p < size r) then p else p - size r)).
Definition content (r : side) : list Z := cell r <$> seq 0 (Z.to_nat (count r)).

Definition ring_ok (r : side) : Prop :=
  2 <= size r < 32768 /\ Z.of_nat (length (buffer r)) = size r /\ 0 <= head r < size r /\ 0 <= tail r < size r.

(** What stays when bytes are put in or taken out. *)
Definition same_side (r r' : side) : Prop :=
  size r' = size r /\ waiting r' = waiting r /\ wsem r' = wsem r /\ lock r' = lock r /\ ie r' = ie r.

#[global] Instance same_side_preorder : PreOrder same_side.
Proof. split; [done|]. intros a b c (?&?&?&?&?) (?&?&?&?&?). unfold same_side. split_and!; congruence. Qed.

Lemma count_range r : ring_ok r -> 0 <= count r < size r.
Proof. unfold ring_ok, count. intros. case_decide; lia. Qed.

Lemma content_length r : ring_ok r -> Z.of_nat (length (content r)) = count r.
Proof. intros H. pose proof (count_range r H). unfold content. rewrite length_fmap, length_seq. lia. Qed.

Lemma content_empty r : ring_ok r -> content r = [] <-> head r = tail r.
Proof.
  intros H. rewrite <- length_zero_iff_nil. pose proof (content_length r H). unfold ring_ok, count in *.
  case_decide; lia.
Qed.

Lemma ring_full r : ring_ok r -> bump (head r) r = tail r <-> count r = size r - 1.
Proof. unfold ring_ok, bump, count. intros. repeat case_decide; lia. Qed.

Lemma bump_range i r : 0 <= i < size r -> 0 <= bump i r < size r.
Proof. unfold bump. intros. case_decide; lia. Qed.

Lemma bump_small i r : ring_ok r -> 0 <= i < size r -> s16 (bump i r) = bump i r.
Proof. intros H Hi. apply s16_id. pose proof (bump_range i r Hi). destruct H as [? _]. lia. Qed.

Lemma ring_put_ok ch r : ring_ok r -> bump (head r) r <> tail r ->
  exists r', put_char ch (s16 (bump (head r) r)) r = Some r' /\ ring_ok r' /\ same_side r r' /\
    content r' = content r ++ [ch] /\ pushed r' = pushed r ++ [ch] /\ tail r' = tail r /\ head r' = bump (head r) r.
Proof.
  intros H Hf. rewrite bump_small by (done || apply H). pose proof H as (Hs & Hb & Hh & Ht).
  unfold put_char, aset. rewrite decide_True by lia. cbn [mbind option_bind].
  set (b := <[Z.to_nat (head r):=ch]> (buffer r)).
  set (r' := mkSide (bump (head r) r) (tail r) (size r) b (waiting r) (wsem r) (lock r) (ie r) (pushed r ++ [ch])).
  exists r'. pose proof (bump_range (head r) r Hh). split; [done|].
  assert (Hok : ring_ok r') by (unfold ring_ok; simpl; unfold b; rewrite length_insert; lia).
  assert (Hc : count r' = count r + 1).
  { unfold count; simpl. revert Hf. unfold bump in *. repeat case_decide; lia. }
  split_and!; try done.
  pose proof (count_range r H). unfold content. rewrite Hc, Z2Nat.inj_add, Nat.add_1_r, seq_S, fmap_app by lia.
  f_equal; [apply list_fmap_ext; intros i x [-> Hi]%lookup_seq|]; simpl; [|f_equal]; unfold cell; simpl; unfold b.
  - rewrite list_lookup_insert_ne; [done|]. revert Hi Hf. unfold bump, count in *. repeat case_decide; lia.
  - match goal with |- context [_ !! ?i] => assert (i = Z.to_nat (head r)) as -> by (unfold count in *; repeat case_decide; lia) end.
    by rewrite list_lookup_insert_eq by lia.
Qed.

Lemma ring_take_ok r : ring_ok r -> head r <> tail r ->
  exists ch l r', r' = set_tail (s16 (bump (tail r) r)) r /\ aget (buffer r) (tail r) = Some ch /\
    content r = ch :: l /\ content r' = l /\ ring_ok r' /\ same_side r r' /\ pushed r' = pushed r /\ head r' = head r.
Proof.
  intros H Hf. rewrite bump_small by (done || apply H). pose proof H as (Hs & Hb & Hh & Ht).
  destruct (lookup_lt_is_Some_2 (buffer r) (Z.to_nat (tail r))) as [ch Hch]; [lia|].
  set (r' := set_tail (bump (tail r) r) r). pose proof (bump_range (tail r) r Ht).
  assert (Hok : ring_ok r') by done.
  assert (Hc : count r = count r' + 1).
  { unfold r', count; simpl. unfold bump in *. repeat case_decide; lia. }
  exists ch, (content r'), r'. split_and!; try done.
  - unfold aget. rewrite decide_True by lia. done.
  - pose proof (count_range r' Hok). unfold content. rewrite Hc, Z2Nat.inj_add, Nat.add_comm by lia. simpl. f_equal.
    + unfold cell. simpl. rewrite Z.add_0_r. case_decide; [|lia]. by rewrite Hch.
    + rewrite <- fmap_S_seq, <- list_fmap_compose. apply list_fmap_ext. intros i x [-> Hi]%lookup_seq.
      simpl. unfold cell. simpl. do 2 f_equal. change (size r') with (size r) in *. unfold bump. repeat case_decide; lia.
Qed.

(** ** The interrupts *)

(** Every poller registered exists. *)
Definition polls_ok (u : uart) : Prop := Forall (fun p => p = 0 \/ is_Some (polls u !! p)) (fds u).

Definition port_ok (u : uart) : Prop := ring_ok (recv u) /\ ring_ok (xmit u) /\ polls_ok u.

Lemma notify_ok e l : forall ps, Forall (fun p => p = 0 \/ is_Some (ps !! p)) l ->
  exists ps', foldl (fun acc p => acc ≫= fun ps => notify_one e ps p) (Some ps) l = Some ps' /\
    forall p, is_Some (ps !! p) -> is_Some (ps' !! p).
Proof.
  induction l as [|p l IH]; intros ps H; simpl; [by exists ps|].
  apply Forall_cons in H as [Hp H].
  assert (exists ps1, notify_one e ps p = Some ps1 /\ forall q, is_Some (ps !! q) -> is_Some (ps1 !! q)) as (ps1 & E & Hd).
  { unfold notify_one. case_decide; [by exists ps|]. destruct Hp as [->|[f Hf]]; [done|]. rewrite Hf. simpl.
    eexists. split; [done|]. intros q Hq. rewrite lookup_insert_is_Some. destruct (decide (p = q)); auto. }
  rewrite E. destruct (IH ps1) as (ps' & E' & Hd'); [|exists ps'; auto].
  eapply Forall_impl; [exact H|]. simpl. intros q [->|Hq]; auto.
Qed.

(** What a notification leaves alone. *)
Lemma pollnotify_ok e u : polls_ok u ->
  exists ps, uart_pollnotify e u = Some (set_polls (fds u) ps u) /\ polls_ok (set_polls (fds u) ps u).
Proof.
  intros H. destruct (notify_ok e (fds u) (polls u) H) as (ps & E & Hd). unfold uart_pollnotify. rewrite E.
  exists ps. split; [done|]. eapply Forall_impl; [exact H|]. simpl. intros p [->|Hp]; auto.
Qed.

Lemma recv_loop_ok hw : forall r nb, ring_ok r -> 0 <= nb -> nb + (size r - 1 - count r) < 65536 ->
  let acc := take (Z.to_nat (size r - 1 - count r)) hw in
  exists r', recv_loop hw r (bump (head r) r) nb = Some (r', nb + Z.of_nat (length acc)) /\
    ring_ok r' /\ same_side r r' /\ tail r' = tail r /\
    content r' = content r ++ acc /\ pushed r' = pushed r ++ acc.
Proof.
  induction hw as [|ch hw IH]; intros r nb Hr Hnb Hlim; cbv zeta; cbn [recv_loop].
  - rewrite take_nil. exists r. rewrite !app_nil_r, Z.add_0_r. done.
  - pose proof (count_range r Hr) as Hc. case_decide as Hf.
    + pose proof (proj1 (ring_full r Hr) Hf) as Hfull.
      destruct (IH r nb Hr Hnb Hlim) as (r' & E & H). rewrite Hfull, Z.sub_diag in *. rewrite !take_0 in *. exists r'. done.
    + destruct (ring_put_ok ch r Hr Hf) as (r1 & E1 & Hr1 & Hs1 & Hc1 & Hp1 & Ht1 & Hh1).
      rewrite E1. cbn [mbind option_bind]. rewrite <- Hh1.
      pose proof Hs1 as (Hsz & _).
      assert (Hcnt : count r1 = count r + 1).
      { rewrite <- !content_length, Hc1, length_app by done. simpl. lia. }
      assert (Hlt : count r < size r - 1).
      { destruct (decide (count r = size r - 1)) as [E|]; [|lia]. by apply (ring_full r Hr) in E. }
      replace (u16 (nb + 1)) with (nb + 1) by (unfold u16; rewrite Z.mod_small; lia).
      destruct (IH r1 (nb + 1)) as (r' & E & Hr' & Hs' & Ht' & Hc' & Hp'); [done|lia|lia|].
      exists r'. rewrite E. rewrite Hcnt, Hsz in *.
      replace (Z.to_nat (size r - 1 - count r)) with (S (Z.to_nat (size r - 1 - (count r + 1)))) by lia.
      rewrite firstn_cons. simpl length. split_and!.
      * do 2 f_equal. lia.
      * done.
      * by etrans.
      * congruence.
      * by rewrite Hc', Hc1, <- (assoc_L app).
      * by rewrite Hp', Hp1, <- (assoc_L app).
Qed.

Lemma xmit_loop_ok n : forall r out nb, ring_ok r -> 0 <= nb -> nb + count r < 65536 ->
  let sent := take n (content r) in
  exists r', xmit_loop n r out nb = Some ((n - length sent)%nat, r', out ++ sent, nb + Z.of_nat (length sent)) /\
    ring_ok r' /\ same_side r r' /\ head r' = head r /\ content r' = drop n (content r) /\ pushed r' = pushed r.
Proof.
  induction n as [|n IH]; intros r out nb Hr Hnb Hlim; cbv zeta; cbn [xmit_loop].
  - exists r. simpl. rewrite take_0, app_nil_r, Z.add_0_r. by case_decide.
  - case_decide as Hf.
    + pose proof (proj2 (content_empty r Hr) Hf) as He. exists r. rewrite He. simpl. rewrite app_nil_r, Z.add_0_r. done.
    + destruct (ring_take_ok r Hr Hf) as (ch & l & r1 & Er1 & E1 & Hc & Hc1 & Hr1 & Hs1 & Hp1 & Hh1).
      rewrite E1. cbn [mbind option_bind]. rewrite <- Er1.
      pose proof (count_range r1 Hr1) as Hc1r. pose proof (content_length r Hr) as Hlen. pose proof (content_length r1 Hr1) as Hlen1.
      rewrite Hc in Hlen. rewrite Hc1 in Hlen1. simpl in Hlen. destruct Hr as [Hsz _].
      replace (u16 (nb + 1)) with (nb + 1) by (unfold u16; rewrite Z.mod_small; lia).
      destruct (IH r1 (out ++ [ch]) (nb + 1)) as (r' & E & Hr' & Hs' & Hh' & Hc' & Hp'); [done|lia|lia|].
      exists r'. rewrite E, Hc, Hc1 in *. simpl. split_and!; try done.
      * rewrite <- (assoc_L app). simpl. do 2 f_equal. lia.
      * by etrans.
      * congruence.
      * congruence.
Qed.

(** A side that bytes were put into by interrupts: the task that waited was woken. *)
Definition woken (moved : list Z) (r r' : side) : Prop :=
  match moved with
  | [] => waiting r' = waiting r /\ wsem r' = wsem r
  | _ => waiting r' = false /\ wsem r' = wsem r + Z.b2z (waiting r)
  end.
Definition grows (acc : list Z) (r r' : side) : Prop :=
  size r' = size r /\ lock r' = lock r /\ ie r' = ie r /\ tail r' = tail r /\
  content r' = content r ++ acc /\ pushed r' = pushed r ++ acc /\ woken acc r r'.
Definition drains (out : list Z) (r r' : side) : Prop :=
  size r' = size r /\ lock r' = lock r /\ head r' = head r /\
  content r = out ++ content r' /\ pushed r' = pushed r /\ woken out r r'.

(** What is not changed by interrupts at all. *)
Definition same_cfg (u u' : uart) : Prop :=
  tc_iflag u' = tc_iflag u /\ tc_oflag u' = tc_oflag u /\ isconsole u' = isconsole u /\ fds u' = fds u.
#[global] Instance same_cfg_preorder : PreOrder same_cfg.
Proof. split; [done|]. intros a b c (?&?&?&?) (?&?&?&?). unfold same_cfg. split_and!; congruence. Qed.

Lemma woken_app a b r1 r2 r3 : woken a r1 r2 -> woken b r2 r3 -> woken (a ++ b) r1 r3.
Proof.
  destruct a as [|x a], b as [|y b]; simpl; intros [H1 H2] [H3 H4]; rewrite H1 in *; split; simpl in *; congruence || lia.
Qed.

Lemma grows_refl r : grows [] r r.
Proof. unfold grows. by rewrite !app_nil_r. Qed.
Lemma grows_trans a b r1 r2 r3 : grows a r1 r2 -> grows b r2 r3 -> grows (a ++ b) r1 r3.
Proof.
  intros (?&?&?&?&G1&G2&G3) (?&?&?&?&G4&G5&G6). unfold grows.
  rewrite G4, G1, G5, G2, <- !(assoc_L app). split_and!; try congruence. by eapply woken_app.
Qed.
Lemma drains_refl r : drains [] r r.
Proof. done. Qed.
Lemma drains_trans a b r1 r2 r3 : drains a r1 r2 -> drains b r2 r3 -> drains (a ++ b) r1 r3.
Proof.
  intros (?&?&?&G1&?&G3) (?&?&?&G4&?&G6). unfold drains.
  rewrite G1, G4, <- (assoc_L app). split_and!; try congruence. by eapply woken_app.
Qed.

(** Room left in a buffer. *)
Definition space (r : side) : nat := Z.to_nat (size r - 1 - count r).

(** [uart_recvchars] takes every byte of the receive register: as many as fit into the
    buffer, the others are lost. *)
Lemma recvchars_ok u : port_ok u -> exists u', uart_recvchars u = Some u' /\ port_ok u' /\
  grows (take (space (recv u)) (rdr u)) (recv u) (recv u') /\ xmit u' = xmit u /\ same_cfg u u' /\
  rdr u' = [] /\ room u' = room u /\ wire u' = wire u.
Proof.
  intros (Hr & Hx & Hp). pose proof (count_range _ Hr) as Hc. pose proof Hr as [Hsz _].
  destruct (recv_loop_ok (rdr u) (recv u) 0 Hr) as (r' & E & Hr' & Hs & Ht & Hco & Hpu); [lia|lia|].
  fold (space (recv u)) in *. set (acc := take (space (recv u)) (rdr u)) in *.
  unfold uart_recvchars. rewrite E. cbn [mbind option_bind]. destruct Hs as (S1&S2&S3&S4&S5). clearbody acc.
  destruct acc as [|x acc]; [rewrite decide_True by done|rewrite decide_False by (simpl; lia)].
  - eexists. split; [done|]. split; [by split_and!|]. simpl. by split_and!.
  - unfold uart_datareceived. simpl. set (u1 := if waiting r' then _ else _).
    assert (Hp1 : polls_ok u1) by (unfold u1; by destruct (waiting r')).
    destruct (pollnotify_ok POLLIN u1 Hp1) as (ps & E' & Hp'). rewrite E'. eexists. split; [done|].
    unfold u1 in *. destruct (waiting r') eqn:Hw; simpl; (split; [by split_and!|]); (split_and!; try done);
      unfold grows; simpl; split_and!; try done; simpl; rewrite <- S2; simpl; lia.
Qed.

(** [uart_xmitchars] sends what the transmitter has room for, and disables its interrupt
    when nothing is left. *)
Lemma xmitchars_ok u : port_ok u -> let sent := take (room u) (content (xmit u)) in
  exists u', uart_xmitchars u = Some u' /\ port_ok u' /\
  drains sent (xmit u) (xmit u') /\ recv u' = recv u /\ same_cfg u u' /\
  rdr u' = rdr u /\ wire u' = wire u ++ sent /\ room u' = (room u - length sent)%nat /\
  ie (xmit u') = (if decide (content (xmit u') = []) then false else ie (xmit u)).
Proof.
  intros (Hr & Hx & Hp). cbv zeta. pose proof (count_range _ Hx) as Hc. pose proof Hx as [Hsz _].
  destruct (xmit_loop_ok (room u) (xmit u) (wire u) 0 Hx) as (r' & E & Hr' & Hs & Hh & Hco & Hpu); [lia|lia|].
  unfold uart_xmitchars. rewrite E. cbn [mbind option_bind]. destruct Hs as (S1&S2&S3&S4&S5).
  set (r2 := if decide (head r' = tail r') then set_ie false r' else r').
  assert (Hr2 : ring_ok r2) by (unfold r2; by case_decide).
  assert (H2 : content r2 = content r' /\ pushed r2 = pushed r' /\ size r2 = size r' /\ lock r2 = lock r' /\ head r2 = head r' /\
    waiting r2 = waiting r' /\ wsem r2 = wsem r' /\ ie r2 = (if decide (content r2 = []) then false else ie (xmit u))).
  { pose proof (content_empty r' Hr') as He. unfold r2. case_decide as Hd.
    - apply He in Hd as Hd'. change (content (set_ie false r')) with (content r'). rewrite decide_True by done. done.
    - rewrite decide_False by tauto. done. }
  destruct H2 as (E1&E2&E3&E4&E5&E6&E7&E8). clearbody r2.
  pose proof (take_drop (room u) (content (xmit u))) as Htd. rewrite <- Hco in Htd. clear Hco E.
  set (sent := take (room u) (content (xmit u))) in *. clearbody sent.
  destruct sent as [|x sent]; [rewrite decide_True by done|rewrite decide_False by (simpl; lia)].
  - eexists. split; [done|]. split; [by split_and!|]. simpl. unfold drains. rewrite app_nil_r. simpl.
    split_and!; try done; try congruence. by rewrite E1, <- Htd.
  - unfold uart_datasent. simpl. set (u1 := if waiting r2 then _ else _).
    assert (Hp1 : polls_ok u1) by (unfold u1; by destruct (waiting r2)).
    destruct (pollnotify_ok POLLOUT u1 Hp1) as (ps & E' & Hp'). rewrite E'. eexists. split; [done|].
    unfold u1 in *. destruct (waiting r2) eqn:Hw; simpl; (split; [by split_and!|]); unfold drains; simpl;
      (split_and!; try done); try congruence; first [by rewrite <- Htd, <- E1 | rewrite E7, S3, <- S2, <- E6; simpl; lia].
Qed.

(** What one run of the interrupt handler does to the port. *)
Record interrupted (u u' : uart) (acc out : list Z) : Prop := {
  int_ok : port_ok u';
  int_recv : grows acc (recv u) (recv u');
  int_xmit : drains out (xmit u) (xmit u');
  int_wire : wire u' = wire u ++ out;
  int_cfg : same_cfg u u';
  int_rdr : acc = (if ie (recv u) then take (space (recv u)) (rdr u) else []) /\ rdr u' = (if ie (recv u) then [] else rdr u);
  int_room : (room u' + length out)%nat = room u /\ (ie (xmit u') = true -> room u' = 0%nat);
  int_out : ie (xmit u) = false -> out = [] /\ ie (xmit u') = false;
  int_ie : ie (xmit u) = true -> ie (xmit u') = true \/ content (xmit u') = []
}.

Lemma interrupt_quiet n u : (ie (recv u) = true -> rdr u = []) -> (ie (xmit u) = true -> room u = 0%nat) ->
  up_interrupt n u = Some u.
Proof.
  intros H1 H2. destruct n as [|n]; [done|]. simpl.
  assert (ie (recv u) && negb (bool_decide (rdr u = [])) = false) as ->.
  { destruct (ie (recv u)); [|done]. by rewrite H1, bool_decide_true. }
  simpl. assert (ie (xmit u) && negb (bool_decide (room u = 0%nat)) = false) as ->; [|done].
  destruct (ie (xmit u)); [|done]. by rewrite H2, bool_decide_true.
Qed.

(** The receiving half of a pass. *)
Lemma rx_pass u : port_ok u ->
  exists u1, (if ie (recv u) && negb (bool_decide (rdr u = [])) then uart_recvchars u else Some u) = Some u1 /\ port_ok u1 /\
    grows (if ie (recv u) then take (space (recv u)) (rdr u) else []) (recv u) (recv u1) /\ xmit u1 = xmit u /\ same_cfg u u1 /\
    rdr u1 = (if ie (recv u) then [] else rdr u) /\ room u1 = room u /\ wire u1 = wire u.
Proof.
  intros Hp. destruct (ie (recv u)) eqn:Hie; simpl.
  - case_bool_decide as Hh; simpl.
    + exists u. rewrite Hh, take_nil. split_and!; try done; try apply Hp; apply grows_refl.
    + destruct (recvchars_ok u Hp) as (u1 & ? & ? & ? & ? & ? & ? & ? & ?). exists u1. by split_and!.
  - exists u. split_and!; try done; try apply Hp; apply grows_refl.
Qed.

Lemma interrupt_ok u : port_ok u -> exists u' acc out, up_interrupt 256 u = Some u' /\ interrupted u u' acc out.
Proof.
  intros Hp. destruct (rx_pass u Hp) as (u1 & E1 & Hp1 & Hg & Hx & Hcfg & Hrdr & Hroom & Hwire).
  set (acc := if ie (recv u) then take (space (recv u)) (rdr u) else []) in *.
  change (up_interrupt 256 u) with (
    u1 ← (if ie (recv u) && negb (bool_decide (rdr u = [])) then uart_recvchars u else Some u);
    u2 ← (if ie (xmit u1) && negb (bool_decide (room u1 = 0%nat)) then uart_xmitchars u1 else Some u1);
    if (ie (recv u) && negb (bool_decide (rdr u = []))) || (ie (xmit u1) && negb (bool_decide (room u1 = 0%nat)))
    then up_interrupt 255 u2 else Some u2).
  rewrite E1. cbn [mbind option_bind].
  assert (exists u2 out, (if ie (xmit u1) && negb (bool_decide (room u1 = 0%nat)) then uart_xmitchars u1 else Some u1) = Some u2 /\
    interrupted u u2 acc out) as (u2 & out & E2 & Hi).
  { assert (Hnone : (ie (xmit u1) = true -> room u1 = 0%nat) -> interrupted u u1 acc []).
    { intros Hz. rewrite Hx, Hroom in Hz. split; try done.
      - by rewrite Hx.
      - by rewrite Hwire, app_nil_r.
      - rewrite Hx, Hroom. split; [simpl; lia|exact Hz].
      - by rewrite Hx.
      - rewrite Hx. by left. }
    destruct (ie (xmit u1)) eqn:Hie; simpl;
      [destruct (decide (room u1 = 0%nat)) as [Hrm|Hrm]; [rewrite bool_decide_true by done|rewrite bool_decide_false by done]; simpl|].
    - exists u1, []. split; [done|]. by apply Hnone.
    - destruct (xmitchars_ok u1 Hp1) as (u2 & E2 & Hp2 & Hd & Hr2 & Hc2 & Hrd2 & Hw2 & Hro2 & Hie2).
      set (sent := take (room u1) (content (xmit u1))) in *. exists u2, sent. split; [done|].
      assert (Hln : (length sent <= room u1)%nat) by (unfold sent; rewrite length_take; lia).
      split; rewrite ?Hr2, <- ?Hx; try done.
      + congruence.
      + by etrans.
      + split; [done|]. congruence.
      + split; [lia|]. rewrite Hie2. case_decide as Hem; [done|]. intros _.
        destruct (decide (room u1 <= length (content (xmit u1)))%nat).
        * rewrite Hro2. unfold sent. rewrite length_take. lia.
        * destruct Hem. destruct Hd as (_&_&_&Hcon&_). unfold sent in Hcon. rewrite take_ge in Hcon by lia.
          apply (f_equal length) in Hcon. rewrite length_app in Hcon. apply length_zero_iff_nil. lia.
      + congruence.
      + intros _. rewrite Hie2. case_decide; [by right|by left].
    - exists u1, []. split; [done|]. by apply Hnone. }
  exists u2, acc, out. split; [|done]. rewrite E2. cbn [mbind option_bind].
  destruct (_ || _); [|done]. apply interrupt_quiet.
  - intros Hie. destruct Hi as [_ (_&_&Hie2&_) _ _ _ [_ ->] _ _ _]. rewrite Hie2 in Hie. by rewrite Hie.
  - apply (int_room _ _ _ _ Hi).
Qed.

(** ** What happened to a task *)

(** From [s] to [s'] the task has gone on in its plan; and a signal was in that part. *)
Definition later (s s' : st) : Prop := exists pre, plan s = pre ++ plan s'.
Definition signalled (s s' : st) : Prop := exists pre, plan s = pre ++ plan s' /\ Exists (fun b => Signal ∈ b) pre.

#[global] Instance later_refl : Reflexive later.
Proof. intros s. by exists []. Qed.
#[global] Instance later_trans : Transitive later.
Proof. intros s1 s2 s3 [p1 E1] [p2 E2]. exists (p1 ++ p2). by rewrite E1, E2, (assoc_L app). Qed.

Lemma signalled_l s1 s2 s3 : later s1 s2 -> signalled s2 s3 -> signalled s1 s3.
Proof. intros [p1 E1] (p2 & E2 & H). exists (p1 ++ p2). rewrite E1, E2, (assoc_L app), Exists_app. auto. Qed.
Lemma signalled_r s1 s2 s3 : signalled s1 s2 -> later s2 s3 -> signalled s1 s3.
Proof. intros (p1 & E1 & H) [p2 E2]. exists (p1 ++ p2). rewrite E1, E2, (assoc_L app), Exists_app. auto. Qed.

Lemma signal_interrupts u u' b p m m' : existsb is_signal b = true -> signalled (mkSt u (b :: p) m) (mkSt u' p m').
Proof.
  intros (h & Hin & Hh)%existsb_exists. exists [b]. split; [done|]. left. apply list_elem_of_In. by destruct h.
Qed.

Lemma later_batch u u' b p m m' : later (mkSt u (b :: p) m) (mkSt u' p m').
Proof. by exists [b]. Qed.

(** ** Rules for the tasks of a port *)

Definition swp {A} (m : ser A) (Q : A -> st -> Prop) (R : st -> Prop) (s : st) : Prop :=
  match m s with Fine a s' => Q a s' | Starved s' => R s' | _ => False end.

Lemma swp_bind {A B} (m : ser A) (k : A -> ser B) Q R s :
  swp m (fun a s' => swp (k a) Q R s') R s -> swp (m ≫= k) Q R s.
Proof. unfold swp, mbind, ser_bind. by destruct (m s). Qed.

Lemma swp_mono {A} (m : ser A) (Q Q' : A -> st -> Prop) (R R' : st -> Prop) s :
  swp m Q R s -> (forall a s', Q a s' -> Q' a s') -> (forall s', R s' -> R' s') -> swp m Q' R' s.
Proof. unfold swp. destruct (m s); naive_solver. Qed.

Lemma swp_ret {A} (a : A) (Q : A -> st -> Prop) R s : Q a s -> swp (mret a) Q R s.
Proof. done. Qed.

Lemma swp_look {A} (f : uart -> A) (Q : A -> st -> Prop) R s : Q (f (dv s)) s -> swp (look f) Q R s.
Proof. done. Qed.

Lemma swp_change f u (Q : () -> st -> Prop) R s : f (dv s) = Some u -> Q tt (mkSt u (plan s) (masked s)) -> swp (change f) Q R s.
Proof. unfold swp, change. by intros ->. Qed.
