(* ===== verification/SerialRead.v ===== *)
(** * Reading from a serial port

    [uart_read] against the receive interrupt: whatever the plan, the task gets the
    bytes that the interrupt put into the buffer, each once and in order, and it is
    never left waiting while a byte is there. *)

From S2P Require Import Prelude Serial.

(** ** What happens around a reading task *)

(** Other tasks leave the receiving side alone, but for its semaphore [lock]. *)
Definition reader_frame (f : uart -> uart) : Prop := forall u,
  (exists v, recv (f u) = set_lock v (recv u)) /\ tc_iflag (f u) = tc_iflag u /\ rdr (f u) = rdr u /\ (port_ok u -> port_ok (f u)).

Definition kind (h : happening) : Prop := match h with Other f => reader_frame f | _ => True end.

(** The bytes still to arrive. *)
Definition arriving (p : list (list happening)) : Z :=
  Z.of_nat (sum_list_with (sum_list_with (fun h => match h with Arrive l => length l | _ => O end)) p).

(** What a reading loop can still use up. *)
Definition weight (s : st) : Z :=
  5 * (Z.of_nat (length (rdr (dv s))) + arriving (plan s)) + 2 * Z.of_nat (length (content (recv (dv s)))) +
  3 * wsem (recv (dv s)) + Z.b2z (waiting (recv (dv s))).

Definition fits (s : st) : Prop :=
  port_ok (dv s) /\ Forall (Forall kind) (plan s) /\ 0 <= wsem (recv (dv s)).

(** The receiving side behind the arrival of [acc]. *)
Definition receives (acc : list Z) (r r' : side) : Prop :=
  size r' = size r /\ ie r' = ie r /\ tail r' = tail r /\ content r' = content r ++ acc /\ pushed r' = pushed r ++ acc /\ woken acc r r'.

Lemma receives_refl r : receives [] r r.
Proof. unfold receives. by rewrite !app_nil_r. Qed.
Lemma receives_trans a b r1 r2 r3 : receives a r1 r2 -> receives b r2 r3 -> receives (a ++ b) r1 r3.
Proof.
  intros (?&?&?&G1&G2&G3) (?&?&?&G4&G5&G6). unfold receives.
  rewrite G4, G1, G5, G2, <- !(assoc_L app). split_and!; try congruence. by eapply woken_app.
Qed.
Lemma grows_receives acc r r' : grows acc r r' -> receives acc r r'.
Proof. by intros (?&?&?&?&?&?&?). Qed.
Lemma lock_receives v r : receives [] r (set_lock v r).
Proof. unfold receives. by rewrite !app_nil_r. Qed.

(** The state moves on: the bytes [acc] arrive in the buffer, and what can still happen
    gets less. *)
Record goes (s s' : st) (acc : list Z) : Prop := {
  goes_fits : fits s';
  goes_masked : masked s' = masked s;
  goes_recv : receives acc (recv (dv s)) (recv (dv s'));
  goes_iflag : tc_iflag (dv s') = tc_iflag (dv s);
  goes_weight : weight s' + Z.of_nat (length acc) <= weight s;
  goes_rdr : masked s = false -> ie (recv (dv s)) = true -> rdr (dv s') = [];
  goes_later : later s s'
}.

Lemma goes_trans s1 s2 s3 a b : goes s1 s2 a -> goes s2 s3 b -> goes s1 s3 (a ++ b).
Proof.
  intros [F1 M1 R1 I1 W1 D1 L1] [F2 M2 R2 I2 W2 D2 L2]. split.
  - done.
  - congruence.
  - by eapply receives_trans.
  - congruence.
  - rewrite length_app. lia.
  - intros Hm Hi. apply D2; [congruence|]. by rewrite (proj1 (proj2 R1)).
  - by etrans.
Qed.

(** One happening. *)
Lemma happen_ok h u : port_ok u -> kind h ->
  port_ok (happen h u) /\ receives [] (recv u) (recv (happen h u)) /\ tc_iflag (happen h u) = tc_iflag u /\
  wsem (recv (happen h u)) = wsem (recv u) /\
  rdr (happen h u) = rdr u ++ match h with Arrive l => l | _ => [] end.
Proof.
  intros Hp Hk. destruct h as [l|n| |f]; simpl; rewrite ?app_nil_r; try (split_and!; try done; apply receives_refl || apply Hp).
  destruct (Hk u) as ([v Hv] & Hi & Hr & Hpf). rewrite Hv, Hr. split_and!; try done; [by apply Hpf|apply lock_receives].
Qed.

Lemma batch_ok b : forall u, port_ok u -> Forall kind b ->
  let u' := foldl (flip happen) u b in
  port_ok u' /\ receives [] (recv u) (recv u') /\ tc_iflag u' = tc_iflag u /\ wsem (recv u') = wsem (recv u) /\
  length (rdr u') = (length (rdr u) + sum_list_with (fun h => match h with Arrive l => length l | _ => O end) b)%nat.
Proof.
  induction b as [|h b IH]; intros u Hp Hb; simpl.
  - split_and!; first [done|apply receives_refl|lia].
  - apply Forall_cons in Hb as [Hh Hb]. destruct (happen_ok h u Hp Hh) as (Hp1 & Hr1 & Hi1 & Hw1 & Hd1).
    destruct (IH _ Hp1 Hb) as (Hp2 & Hr2 & Hi2 & Hw2 & Hd2). split_and!; try done.
    + by apply (receives_trans [] [] _ _ _ Hr1 Hr2).
    + simpl. congruence.
    + simpl. congruence.
    + simpl in *. rewrite Hd2, Hd1, length_app. destruct h; simpl; lia.
Qed.

(** A happening and the interrupt behind it. *)
Lemma goes_batch u b p m : fits (mkSt u (b :: p) m) -> goes (mkSt u (b :: p) true) (mkSt (foldl (flip happen) u b) p true) [].
Proof.
  intros (Hp & [Hb Hf]%Forall_cons & Hw). destruct (batch_ok b u Hp Hb) as (Hp1 & Hr1 & Hi1 & Hw1 & Hd1). simpl in *.
  split; simpl; try done.
  - split_and!; simpl; try done. lia.
  - unfold weight, arriving; simpl. destruct Hr1 as (_&_&_&->&_&(->&_)). rewrite app_nil_r. lia.
  - by apply later_batch.
Qed.

(** Nothing arrives in a critical section, or with the interrupt disabled. *)
Definition quiet (s : st) (acc : list Z) : Prop := masked s = true \/ ie (recv (dv s)) = false -> acc = [].

Lemma goes_interrupt u p : fits (mkSt u p false) ->
  exists u' acc, up_interrupt 256 u = Some u' /\ goes (mkSt u p false) (mkSt u' p false) acc /\ quiet (mkSt u p false) acc.
Proof.
  intros (Hp & Hf & Hw). simpl in *. destruct (interrupt_ok u Hp) as (u' & acc & out & E & Hi).
  exists u', acc. split; [done|]. pose proof (grows_receives _ _ _ (int_recv _ _ _ _ Hi)) as Hr.
  destruct (int_cfg _ _ _ _ Hi) as (Hif & _). destruct (int_rdr _ _ _ _ Hi) as [Hacc Hrd].
  destruct Hr as (H1&H2&H3&H4&H5&H6) eqn:EH. clear EH.
  assert (Hws : wsem (recv u) <= wsem (recv u')).
  { destruct acc; destruct H6 as [_ ->]; [lia|]. destruct (waiting (recv u)); simpl; lia. }
  split; [|by intros [?|Hq]; [done|]; simpl in Hq; by rewrite Hacc, Hq].
  split; simpl; try done.
  - split_and!; simpl; [apply Hi|done|lia].
  - unfold weight; cbn [dv plan]. rewrite H4, length_app.
    assert (length acc + length (rdr u') <= length (rdr u))%nat.
    { rewrite Hrd. destruct (ie (recv u)); subst acc; simpl; [rewrite length_take|]; lia. }
    destruct acc; destruct H6 as [-> ->]; cbn [length] in *; [lia|]. destruct (waiting (recv u)); cbn [Z.b2z]; lia.
  - intros _ Hie. by rewrite Hrd, Hie.
  - by exists [].
Qed.

Lemma touch_ok s R : fits s -> swp touch (fun _ s' => exists acc, goes s s' acc /\ quiet s acc) R s.
Proof.
  destruct s as [u p m]. intros Hf. unfold swp, touch. cbn [dv plan masked].
  assert (exists u1 p1, (match p with [] => (u, []) | b :: p => (foldl (flip happen) u b, p) end) = (u1, p1) /\
    goes (mkSt u p true) (mkSt u1 p1 true) []) as (u1 & p1 & -> & Hg).
  { destruct p as [|b p]; eexists _, _; (split; [done|]); [|by eapply goes_batch].
    split; try done; [apply receives_refl|simpl; lia]. }
  destruct m; [by exists []; split|].
  destruct (goes_interrupt u1 p1) as (u2 & acc & -> & Hg2 & Hq); [apply Hg|].
  exists acc. destruct Hg as [F1 M1 R1 I1 W1 D1 L1], Hg2 as [F2 M2 R2 I2 W2 D2 L2].
  split; [|intros [?|Hie]; [done|]; apply Hq; right; simpl in *; by rewrite (proj1 (proj2 R1))].
  split; simpl in *.
  - done.
  - done.
  - by apply (receives_trans [] acc _ _ _ R1 R2).
  - congruence.
  - unfold weight in *. simpl in *. lia.
  - intros _ Hie. apply D2; [done|]. by rewrite (proj1 (proj2 R1)).
  - by etrans.
Qed.

Lemma swp_rd {A} (f : uart -> A) Q R s : fits s ->
  (forall s' acc, goes s s' acc -> quiet s acc -> Q (f (dv s')) s') -> swp (rd f) Q R s.
Proof.
  intros Hf HQ. apply swp_bind. eapply swp_mono; [by apply touch_ok| |done].
  intros _ s' (acc & Hg & Hq). apply swp_look. by eapply HQ.
Qed.

Lemma swp_wr f Q R s : fits s ->
  (forall s' acc, goes s s' acc -> quiet s acc -> exists u, f (dv s') = Some u /\ Q tt (mkSt u (plan s') (masked s'))) -> swp (wr f) Q R s.
Proof.
  intros Hf HQ. apply swp_bind. eapply swp_mono; [by apply touch_ok| |done].
  intros _ s' (acc & Hg & Hq). destruct (HQ s' acc Hg Hq) as (u & E & H). by eapply swp_change.
Qed.

(** ** The loop of [uart_read] *)

(** A task that waits for a byte and could only be woken by the next one. *)
Definition hungry (s : st) : Prop :=
  content (recv (dv s)) = [] /\ rdr (dv s) = [] /\ waiting (recv (dv s)) = true /\ ie (recv (dv s)) = true /\ wsem (recv (dv s)) = 0.

Lemma goes_masked_as u p u' p' acc m : goes (mkSt u p false) (mkSt u' p' false) acc -> goes (mkSt u p m) (mkSt u' p' m) acc.
Proof. intros [F1 M1 R1 I1 W1 D1 L1]. split; try done. simpl in *. intros _. by apply D1. Qed.

(** In a critical section nothing but the wait lets interrupts in. *)
Lemma wait_ok p : forall u, fits (mkSt u p true) -> ie (recv u) = true -> waiting (recv u) = true -> content (recv u) = [] ->
  swp (wait_sem recvsem put_recvsem) (fun ok s' => exists acc s1, goes (mkSt u p true) s1 acc /\
    if (ok : bool) then 0 < wsem (recv (dv s1)) /\ s' = mkSt (put_recvsem (wsem (recv (dv s1)) - 1) (dv s1)) (plan s1) true
    else s' = s1 /\ signalled (mkSt u p true) s1) hungry (mkSt u p true).
Proof.
  unfold swp, wait_sem. cbn [dv plan masked].
  induction p as [|b p IH]; intros u Hf Hie Hw Hc; cbn [wait_sem_loop].
  all: case_decide as Hs; [eexists [], (mkSt u _ true); split; [split; try done; [apply receives_refl|simpl; lia]|split; [exact Hs|done]]|].
  all: destruct (goes_interrupt u _ Hf) as (u1 & acc & -> & Hg & _); cbn [mbind option_bind].
  all: pose proof (goes_masked_as _ _ _ _ _ true Hg) as Hg1.
  all: case_decide as Hs1; [by eexists acc, (mkSt u1 _ true)|].
  all: pose proof (goes_fits _ _ _ Hg) as (_ & _ & Hpos); unfold recvsem in *; cbn [dv] in Hpos.
  all: destruct (goes_recv _ _ _ Hg) as (R1&R2&R3&R4&R5&R6); cbn [dv] in *.
  all: destruct acc as [|x acc]; destruct R6 as [R6 R7]; [|rewrite Hw in R7; simpl in R7; destruct Hf as (_&_&Hf0); simpl in Hf0; lia].
  - unfold hungry. simpl. rewrite R4, Hc, R6, R2. split_and!; try done; [|lia].
    by apply (goes_rdr _ _ _ Hg).
  - pose proof (goes_fits _ _ _ Hg1) as Hf1. pose proof (goes_batch u1 b p true Hf1) as Hg2.
    destruct (goes_recv _ _ _ Hg2) as (T1&T2&T3&T4&T5&T6&T7); cbn [dv] in *.
    pose proof (goes_trans _ _ _ _ _ Hg1 Hg2) as Hg3.
    rewrite decide_True by lia. destruct (existsb is_signal b) eqn:Esig.
    + exists [], (mkSt (foldl (flip happen) u1 b) p true). split; [done|]. split; [done|]. by apply signal_interrupts.
    + assert (H := IH _ (goes_fits _ _ _ Hg3) ltac:(congruence) ltac:(congruence) ltac:(by rewrite T4, R4, Hc)).
      destruct (wait_sem_loop _ _ p _ true) as [ok s'| | |s']; [|done..].
      destruct H as (acc & s1 & Hg4 & H). exists acc, s1. split; [by apply (goes_trans _ _ _ [] acc Hg3 Hg4)|].
      destruct ok; [exact H|]. destruct H as [-> H]. split; [done|]. by eapply signalled_l; [apply Hg3|].
Qed.

(** From [s] to [s'] the bytes [acc] arrived and the bytes [got] were taken out. *)
Record moved (s s' : st) (acc got : list Z) : Prop := {
  moved_fits : fits s';
  moved_masked : masked s' = masked s;
  moved_iflag : tc_iflag (dv s') = tc_iflag (dv s);
  moved_pushed : pushed (recv (dv s')) = pushed (recv (dv s)) ++ acc;
  moved_content : content (recv (dv s)) ++ acc = got ++ content (recv (dv s'));
  moved_later : later s s'
}.

Lemma goes_moved s s' acc : goes s s' acc -> moved s s' acc [].
Proof. intros [F M (R1&R2&R3&R4&R5&R6) I _ _ L]. by split. Qed.

Lemma moved_trans s1 s2 s3 a b g h : moved s1 s2 a g -> moved s2 s3 b h -> moved s1 s3 (a ++ b) (g ++ h).
Proof.
  intros [F1 M1 I1 P1 C1 L1] [F2 M2 I2 P2 C2 L2]. split; try congruence; [..|by etrans].
  - by rewrite P2, P1, (assoc_L app).
  - by rewrite (assoc_L app), C1, <- !(assoc_L app), C2.
Qed.

(** A change of the receiving side that keeps its buffer. *)
Lemma moved_change s s' acc got r : moved s s' acc got ->
  head r = head (recv (dv s')) -> tail r = tail (recv (dv s')) -> size r = size (recv (dv s')) ->
  buffer r = buffer (recv (dv s')) -> pushed r = pushed (recv (dv s')) -> 0 <= wsem r -> forall m, m = masked s ->
  moved s (mkSt (set_recv r (dv s')) (plan s') m) acc got.
Proof.
  intros [(F1&F2&F3) M I P C L] Hh Ht Hs Hb Hp Hw m ->.
  assert (Hc : content r = content (recv (dv s'))) by (unfold content, count, cell; by rewrite Hh, Ht, Hs, Hb).
  split; simpl; try congruence; [|exact L].
  destruct F1 as (G1&G2&G3). refine (conj (conj _ (conj G2 G3)) (conj F2 Hw)).
  unfold ring_ok in *. simpl. by rewrite Hh, Ht, Hs, Hb.
Qed.

Lemma take_char s ch l : fits s -> content (recv (dv s)) = ch :: l ->
  let s' := mkSt (set_recv (set_tail (s16 (bump (tail (recv (dv s))) (recv (dv s)))) (recv (dv s))) (dv s)) (plan s) (masked s) in
  moved s s' [] [ch] /\ weight s' + 2 = weight s.
Proof.
  intros ((Hr & Hx & Hp) & Hf & Hw) Hc. cbv zeta.
  assert (Hne : head (recv (dv s)) <> tail (recv (dv s))) by (rewrite <- (content_empty _ Hr), Hc; done).
  destruct (ring_take_ok _ Hr Hne) as (c & l' & r' & Er & _ & Hc1 & Hc2 & Hr' & (S1&S2&S3&S4&S5) & Hp' & _).
  rewrite <- Er. rewrite Hc in Hc1. injection Hc1 as <- <-. split.
  - split; simpl; try done; [|by rewrite app_nil_r|by rewrite app_nil_r, Hc, Hc2|by exists []].
    split_and!; simpl; try done. by rewrite S3.
  - unfold weight. cbn [dv plan rdr recv set_recv]. rewrite Hc, Hc2, S2, S3. cbn [length]. lia.
Qed.

Lemma goes_ie s s' acc : goes s s' acc -> ie (recv (dv s')) = ie (recv (dv s)).
Proof. by intros [_ _ (_ & -> & _) _ _ _ _]. Qed.

Lemma goes_content s s' acc : goes s s' acc -> content (recv (dv s')) = content (recv (dv s)) ++ acc.
Proof. by intros [_ _ (_ & _ & _ & -> & _) _ _ _ _]. Qed.

Lemma goes_tail s s' acc : goes s s' acc -> tail (recv (dv s')) = tail (recv (dv s)).
Proof. by intros [_ _ (_ & _ & -> & _) _ _ _ _]. Qed.

(** The oldest byte is taken out. *)
Lemma swp_take {B} (k : Z -> Z -> ser B) s Q R : fits s -> content (recv (dv s)) <> [] ->
  (forall s' acc ch, moved s s' acc [ch] -> weight s' + 1 <= weight s -> ie (recv (dv s')) = ie (recv (dv s)) ->
    swp (k ch (tc_iflag (dv s'))) Q R s') ->
  swp (ch ← rd (fun u => aget (buffer (recv u)) (tail (recv (dv s)))); ch ← of_some ch;
       wr (fun u => Some (set_recv (set_tail (s16 (bump (tail (recv (dv s))) (recv u))) (recv u)) u));;
       iflag ← rd tc_iflag; k ch iflag) Q R s.
Proof.
  intros Hf Hne HQ. apply swp_bind, swp_rd; [done|]. intros s1 a1 G1 _. rewrite <- (goes_tail _ _ _ G1).
  pose proof (goes_content _ _ _ G1) as C1. pose proof (goes_fits _ _ _ G1) as F1. pose proof F1 as ((Hr1 & _) & _).
  destruct (ring_take_ok (recv (dv s1)) Hr1) as (ch & l & _ & _ & -> & Hc & _).
  { rewrite <- content_empty, C1 by done. by destruct (content (recv (dv s))). }
  cbn [of_some]. apply swp_bind, swp_ret, swp_bind, swp_wr; [done|]. intros s2 a2 G2 _. eexists. split; [done|].
  rewrite <- (goes_tail _ _ _ G2). pose proof (goes_content _ _ _ G2) as C2. rewrite Hc in C2. simpl in C2.
  destruct (take_char s2 ch _ (goes_fits _ _ _ G2) C2) as [M3 W3].
  apply swp_bind, swp_rd; [apply M3|]. intros s4 a4 G4 _.
  pose proof (goes_weight _ _ _ G1). pose proof (goes_weight _ _ _ G2). pose proof (goes_weight _ _ _ G4).
  eapply (HQ s4 (a1 ++ a2 ++ [] ++ a4)).
  - apply (moved_trans _ _ _ _ _ [] [ch] (goes_moved _ _ _ G1)), (moved_trans _ _ _ _ _ [] [ch] (goes_moved _ _ _ G2)).
    apply (moved_trans _ _ _ _ _ [ch] [] M3 (goes_moved _ _ _ G4)).
  - lia.
  - rewrite (goes_ie _ _ _ G4). simpl. by rewrite (goes_ie _ _ _ G2), (goes_ie _ _ _ G1).
Qed.

(** The receive interrupt is enabled or disabled. *)
Lemma swp_rxint b (Q : () -> st -> Prop) R s : fits s ->
  (forall s' acc, moved s s' acc [] -> weight s' + Z.of_nat (length acc) <= weight s ->
    content (recv (dv s')) = content (recv (dv s)) ++ acc -> quiet s acc -> ie (recv (dv s')) = b -> Q tt s') ->
  swp (rxint b) Q R s.
Proof.
  intros Hf HQ. apply swp_wr; [done|]. intros s' acc G Hq. eexists. split; [done|]. apply (HQ _ acc); try done.
  - apply (moved_change _ _ _ _ _ (goes_moved _ _ _ G)); try done; [apply G|by rewrite (goes_masked _ _ _ G)].
  - apply (goes_weight _ _ _ G).
  - apply (goes_content _ _ _ G).
Qed.

(** The wait for a byte, in its critical section. *)
Lemma swp_await {B} (k : Z -> ser B) s Q : fits s -> masked s = false -> ie (recv (dv s)) = false -> content (recv (dv s)) = [] ->
  (forall s' acc ret, moved s s' acc [] -> ie (recv (dv s')) = true -> (ret = - EINTR /\ signalled s s' \/ ret = OK /\ weight s' < weight s) ->
    swp (k ret) Q hungry s') ->
  swp (enter_critical_section;; rxint true;; wr (fun u => Some (set_recv (set_waiting true (recv u)) u));;
       ret ← uart_takesem recvsem put_recvsem; leave_critical_section;; k ret) Q hungry s.
Proof.
  intros Hf Hm Hie Hc HQ. apply swp_bind. unfold swp at 1, enter_critical_section.
  set (s0 := mkSt (dv s) (plan s) true).
  apply swp_bind, (swp_rxint true _ hungry s0 Hf). intros s1 a1 M1 W1 C1 Hq1 I1.
  rewrite (Hq1 (or_introl eq_refl)) in *. rewrite app_nil_r in C1.
  apply swp_bind, swp_wr; [apply M1|]. intros s2 a2 G2 Hq2.
  rewrite (Hq2 (or_introl (moved_masked _ _ _ _ M1))) in *. clear Hq1 Hq2.
  eexists. split; [done|]. set (u3 := set_recv (set_waiting true (recv (dv s2))) (dv s2)).
  assert (Hm2 : masked s2 = true) by by rewrite (goes_masked _ _ _ G2), (moved_masked _ _ _ _ M1).
  rewrite Hm2. apply swp_bind, swp_bind. eapply swp_mono; [apply wait_ok| |done].
  - apply (goes_fits _ _ _ G2).
  - simpl. by rewrite (goes_ie _ _ _ G2).
  - done.
  - change (content (recv u3)) with (content (recv (dv s2))). by rewrite (goes_content _ _ _ G2), app_nil_r, C1.
  - intros ok s' (acc & s4 & G4 & H). apply swp_ret, swp_bind. unfold swp at 1, leave_critical_section.
    pose proof (goes_weight _ _ _ G4) as W4. pose proof (goes_weight _ _ _ G2) as W2.
    assert (W3 : weight (mkSt u3 (plan s2) true) <= weight s2 + 1).
    { unfold weight; simpl. change (content (recv u3)) with (content (recv (dv s2))).
      change (content (set_waiting true (recv (dv s2)))) with (content (recv (dv s2))).
      destruct (waiting (recv (dv s2))); simpl; lia. }
    assert (M3 : moved s (mkSt u3 (plan s2) false) [] []).
    { assert (M2 : moved s (mkSt (dv s2) (plan s2) false) [] []).
      { destruct (moved_trans _ _ _ _ _ _ _ M1 (goes_moved _ _ _ G2)) as [F M I P C L]. by split. }
      apply (moved_change _ _ _ _ _ M2); try done. apply (moved_fits _ _ _ _ M2). }
    assert (M4 : moved s (mkSt (dv s4) (plan s4) false) acc []).
    { destruct (goes_moved _ _ _ G4) as [F M I P C L]. apply (moved_trans _ _ _ [] _ [] _ M3). by split. }
    assert (I4 : ie (recv (dv s4)) = true).
    { rewrite (goes_ie _ _ _ G4). simpl. by rewrite (goes_ie _ _ _ G2). }
    change (weight s0) with (weight s) in *. destruct ok.
    + destruct H as [Hs ->]. eapply (HQ _ acc OK); simpl; [|done|right; split; [done|]].
      * apply (moved_change _ _ _ _ (set_wsem (wsem (recv (dv s4)) - 1) (recv (dv s4))) M4); try done. simpl. lia.
      * unfold weight in *; simpl in *. unfold put_recvsem; simpl.
        change (content (set_wsem (wsem (recv (dv s4)) - 1) (recv (dv s4)))) with (content (recv (dv s4))). lia.
    + destruct H as [-> Hsig]. apply (HQ _ acc); [done|done|]. left. split; [done|].
      eapply signalled_l; [apply (moved_later _ _ _ _ M3)|exact Hsig].
Qed.

(** Input processing keeps every byte. *)
Lemma input_char_some iflag ch : exists c, input_char iflag ch = Some c.
Proof.
  unfold input_char. case_decide; [|by eexists]. rewrite (decide_False (P := _ <> 0)); [by eexists|].
  intros H1. apply H1. rewrite (Z.land_comm iflag IGNCR), Z.land_assoc. by destruct (decide (_ = 13)).
Qed.

Lemma input_chars_length iflag l : length (omap (input_char iflag) l) = length l.
Proof. induction l as [|ch l IH]; [done|]. simpl. destruct (input_char_some iflag ch) as [c E]. cbn. rewrite E. cbn. by f_equal. Qed.

Section read.
Context (nb : bool) (n : Z).

(** The result of a read from [s] to [s'] that takes the bytes [got]: as many as asked
    for; or some, and then at least all those buffered at its start; or none, because
    none was buffered at its start and the read may not wait, or a signal came. *)
Definition outcome (s s' : st) (got : list Z) (ret : Z) (data : list Z) : Prop :=
  Z.of_nat (length data) <= Z.max n 0 /\
  ((ret = Z.of_nat (length data) /\ (n <= ret \/ 0 < ret /\ content (recv (dv s)) `prefix_of` got)) \/
   (got = [] /\ data = [] /\ 0 < n /\ content (recv (dv s)) = [] /\
    ((nb = true /\ ret = - EAGAIN) \/ (nb = false /\ ret = - EINTR /\ signalled s s')))).

(** The same for a part of the loop, which begins with [data0] stored already. *)
Definition ends (s s' : st) (got : list Z) (ret : Z) (data : list Z) : Prop :=
  Z.of_nat (length data) <= Z.max n 0 /\
  ((ret = Z.of_nat (length data) /\ n <= ret) \/
   (content (recv (dv s)) `prefix_of` got /\
    ((ret = Z.of_nat (length data) /\ 0 < ret) \/
     (data = [] /\ 0 < n /\ ((nb = true /\ ret = - EAGAIN) \/ (nb = false /\ ret = - EINTR /\ signalled s s')))))).

Lemma ends_outcome s s' got ret data iflag : ends s s' got ret data -> data = omap (input_char iflag) got -> outcome s s' got ret data.
Proof.
  intros (L & H) E. split; [done|]. destruct H as [[-> H]|[Hp [[-> H]|(-> & Hn & H)]]]; [by left; auto..|].
  right. pose proof (input_chars_length iflag got) as Hl. rewrite <- E in Hl. apply eq_sym, nil_length_inv in Hl as ->.
  apply prefix_nil_inv in Hp. done.
Qed.

Lemma ends_step s s' acc g s'' got ret data : moved s s' acc g -> ends s' s'' got ret data -> ends s s'' (g ++ got) ret data.
Proof.
  intros M (L & H). split; [done|]. destruct H as [H|[Hp H]]; [by left|right]. split.
  - trans (g ++ content (recv (dv s'))); [|by apply prefix_app]. exists acc. symmetry. apply (moved_content _ _ _ _ M).
  - destruct H as [H|(? & ? & [H|(? & ? & H)])]; [by left|right..]; (split; [done|]; split; [done|]); [by left|right].
    split; [done|]. split; [done|]. eapply signalled_l; [apply (moved_later _ _ _ _ M)|done].
Qed.

Lemma ends_later s s' s'' got ret data : ends s s' got ret data -> later s' s'' -> ends s s'' got ret data.
Proof.
  intros (L & H) Hl. split; [done|]. destruct H as [H|[Hp H]]; [by left|right]. split; [done|].
  destruct H as [H|(? & ? & [H|(? & ? & H)])]; [by left|right..]; (split; [done|]; split; [done|]); [by left|right].
  split; [done|]. split; [done|]. by eapply signalled_r.
Qed.

(** What the loop has done when it ends: [data] is what was stored before. *)
Definition read_on (s : st) (data : list Z) (r : Z * list Z) (s' : st) : Prop :=
  ie (recv (dv s')) = true /\
  exists acc got, moved s s' acc got /\ r.2 = data ++ omap (input_char (tc_iflag (dv s))) got /\ ends s s' got (r.1) (r.2).

Lemma read_on_end s s' acc data ret : moved s s' acc [] -> ie (recv (dv s')) = true -> ends s s' [] ret data ->
  read_on s data (ret, data) s'.
Proof. intros M I O. split; [done|]. exists acc, []. by rewrite app_nil_r. Qed.

Lemma read_on_step s s' acc got data r s'' : moved s s' acc got ->
  read_on s' (data ++ omap (input_char (tc_iflag (dv s))) got) r s'' -> read_on s data r s''.
Proof.
  intros M (I & a & g & M' & E & O). split; [done|]. exists (acc ++ a), (got ++ g).
  split; [by eapply moved_trans|]. split; [|by eapply ends_step]. by rewrite E, (moved_iflag _ _ _ _ M), omap_app, (assoc_L app).
Qed.

(** The loop has seen the buffer empty. *)
Lemma moved_drained s s' acc : moved s s' acc [] -> content (recv (dv s')) = [] -> content (recv (dv s)) `prefix_of` [].
Proof. intros M E. pose proof (moved_content _ _ _ _ M) as C. rewrite E in C. by apply app_eq_nil in C as [-> _]. Qed.

Lemma read_loop_ok fuel : forall s data, fits s -> masked s = false -> ie (recv (dv s)) = true ->
  weight s < Z.of_nat fuel -> Z.of_nat (length data) <= Z.max n 0 ->
  swp (read_loop fuel nb n data) (read_on s data) hungry s.
Proof.
  induction fuel as [|fuel IH]; intros s data Hf Hm Hie Hw Hd.
  { destruct Hf as (_ & _ & Hf). unfold weight, arriving in Hw. destruct (waiting (recv (dv s))); simpl in Hw; lia. }
  assert (Hmore : forall s' acc got, moved s s' acc got -> ie (recv (dv s')) = true -> weight s' < weight s ->
    Z.of_nat (length (data ++ omap (input_char (tc_iflag (dv s))) got)) <= Z.max n 0 ->
    swp (read_loop fuel nb n (data ++ omap (input_char (tc_iflag (dv s))) got)) (read_on s data) hungry s').
  { intros s' acc got M I W L. eapply swp_mono; [apply IH; try done| |done].
    - apply M.
    - by rewrite (moved_masked _ _ _ _ M).
    - lia.
    - intros r s'' H. by eapply read_on_step. }
  cbn [read_loop]. case_decide as Hfull.
  { apply swp_ret. eapply (read_on_end s s []); [by split; rewrite ?app_nil_r|done|]. split; [done|]. by left. }
  apply swp_bind, swp_rd; [done|]. intros s1 a1 G1 _. apply swp_bind, swp_rd; [apply G1|]. intros s2 a2 G2 _.
  pose proof (goes_trans _ _ _ _ _ G1 G2) as G. rewrite <- (goes_tail _ _ _ G2).
  set (a := a1 ++ a2) in *. clearbody a. clear s1 G1 G2.
  pose proof (goes_moved _ _ _ G) as M2. pose proof (goes_fits _ _ _ G) as F2. pose proof (goes_weight _ _ _ G) as W2.
  pose proof (goes_ie _ _ _ G) as I2. rewrite Hie in I2.
  pose proof (content_empty _ (proj1 (proj1 F2))) as He2. case_decide as Hne.
  { apply swp_take; [done|tauto|]. intros s3 a3 ch M3 W3 I3.
    pose proof (moved_trans _ _ _ _ _ _ _ M2 M3) as M. simpl in M. rewrite (moved_iflag _ _ _ _ M).
    specialize (Hmore s3 _ [ch] M ltac:(congruence) ltac:(lia)). simpl in Hmore.
    destruct (input_char _ ch); [|rewrite app_nil_r in Hmore]; apply Hmore; rewrite ?length_app; simpl; lia. }
  assert (Hnil : content (recv (dv s2)) = []) by (apply He2; destruct (decide (head (recv (dv s2)) = tail (recv (dv s2)))); [done|by destruct Hne]).
  case_decide as Hsome.
  { apply swp_ret. eapply read_on_end; [done|done|]. split; [lia|]. right. split; [by eapply moved_drained|]. by left. }
  assert (data = []) as -> by (destruct data; [done|simpl in *; lia]).
  destruct nb eqn:Enb.
  { apply swp_ret. eapply read_on_end; [done|done|]. split; [lia|]. right. simpl in Hfull.
    split; [by eapply moved_drained|]. right. split; [done|]. split; [lia|]. by left. }
  apply swp_bind, swp_rxint; [done|]. intros s3 a3 M3 W3 C3 _ I3.
  apply swp_bind, swp_rd; [apply M3|]. intros s4 a4 G4 Hq4. rewrite (Hq4 (or_intror I3)) in *.
  apply swp_bind, swp_rd; [apply G4|]. intros s5 a5 G5 Hq5.
  assert (I4 : ie (recv (dv s4)) = false) by by rewrite (goes_ie _ _ _ G4).
  rewrite (Hq5 (or_intror I4)) in *. clear Hq4 Hq5. pose proof (goes_trans _ _ _ _ _ G4 G5) as G45. simpl in G45.
  pose proof (moved_trans _ _ _ _ _ _ _ M2 (moved_trans _ _ _ _ _ _ _ M3 (goes_moved _ _ _ G45))) as M5. simpl in M5.
  pose proof (goes_weight _ _ _ G45) as W5. pose proof (goes_content _ _ _ G45) as C5. rewrite app_nil_r in C5.
  pose proof (content_empty _ (proj1 (proj1 (goes_fits _ _ _ G4)))) as He4. pose proof (goes_content _ _ _ G4) as C4.
  rewrite app_nil_r in C4. rewrite (goes_tail _ _ _ G5).
  assert (I5 : ie (recv (dv s5)) = false) by by rewrite (goes_ie _ _ _ G45).
  case_decide as Hq.
  - apply swp_await; [apply M5|by rewrite (moved_masked _ _ _ _ M5)|done|rewrite C5, <- C4; tauto|].
    intros s6 a6 ret M6 I6 Hret. pose proof (moved_trans _ _ _ _ _ _ _ M5 M6) as M. simpl in M.
    destruct Hret as [[-> Hsig]|[-> W6]]; [rewrite decide_True by done|rewrite decide_False by done].
    + apply swp_ret. eapply read_on_end; [done|done|]. split; [lia|]. right. simpl in Hfull. split; [by eapply (moved_drained s s2)|].
      right. split; [done|]. split; [lia|]. right. split; [done|]. split; [done|].
      eapply signalled_l; [apply (moved_later _ _ _ _ M5)|done].
    + apply (Hmore s6 _ [] M I6); simpl; lia.
  - apply swp_bind, swp_rxint; [apply G5|]. intros s6 a6 M6 W6 C6 _ I6.
    pose proof (moved_trans _ _ _ _ _ _ _ M5 M6) as M. simpl in M.
    apply (Hmore s6 _ [] M I6); [|simpl; lia].
    assert (a3 <> []) by (intros ->; rewrite Hnil in C3; simpl in C3; apply Hq, He4; by rewrite C4, C3).
    destruct a3; [done|]. simpl in *. lia.
Qed.
End read.

(** ** Reading as a whole *)

(** C12: [uart_read] against the interrupt handler, for every interleaving, when the task
    calls it outside of a critical section on a well-formed port that is enabled to
    receive and that no other reader holds, and the other tasks leave the receiving side
    alone, but for its lock: the call ends (or its task waits), and does nothing
    undefined.  The bytes it takes are the oldest
    ones of those buffered before and received meanwhile, none lost between the buffer
    and the task, none twice, in the order of their arrival, and what the task gets are
    these bytes behind input processing.  It gets as many as it asked for, or at least
    one and every byte that was buffered when it was called; it gets none, and takes
    none, only when none was buffered at the call and the read may not wait (-EAGAIN) or
    a signal came during the call (-EINTR).  When it waits for ever, then no byte is
    buffered or pending, with the interrupt enabled and the next byte bound to wake it. *)
Theorem uart_read_fifo fuel nb n s :
  fits s -> masked s = false -> ie (recv (dv s)) = true -> 0 < lock (recv (dv s)) -> weight s < Z.of_nat fuel ->
  match uart_read fuel nb n s with
  | Fine (ret, data) s' => exists acc got,
      pushed (recv (dv s')) = pushed (recv (dv s)) ++ acc /\
      content (recv (dv s)) ++ acc = got ++ content (recv (dv s')) /\
      data = omap (input_char (tc_iflag (dv s))) got /\
      outcome nb n s s' got ret data
  | Starved s' => hungry s'
  | Wrong | NoFuel => False
  end.
Proof.
  intros Hf Hm Hie Hl Hw.
  cut (swp (uart_read fuel nb n) (fun r s' => exists acc got, moved s s' acc got /\
    r.2 = omap (input_char (tc_iflag (dv s))) got /\ ends nb n s s' got (r.1) (r.2)) hungry s).
  { unfold swp. destruct (uart_read fuel nb n s) as [[ret data] s'| | |s']; try done.
    intros (acc & got & M & E & O). exists acc, got. split_and!; [apply M..|done|]. by eapply ends_outcome. }
  apply swp_bind, swp_bind. unfold swp at 1, wait_sem.
  assert (E : forall p u m, 0 < recv_lock u -> wait_sem_loop recv_lock put_recv_lock p u m = Fine true (mkSt (put_recv_lock (recv_lock u - 1) u) p m)).
  { intros p u m Hlk. destruct p; simpl; by rewrite decide_True. }
  rewrite E by done. apply swp_ret. rewrite decide_False by done. apply swp_bind.
  set (s1 := mkSt _ _ _).
  assert (M1 : moved s s1 [] []).
  { eapply (moved_change s s [] [] (set_lock (recv_lock (dv s) - 1) (recv (dv s)))); try done; [by split; rewrite ?app_nil_r|apply Hf]. }
  eapply swp_mono; [eapply (read_loop_ok nb n fuel s1 []); try done; try apply M1; simpl; lia| |done].
  intros r s2 (I2 & acc & got & M2 & Er & O). apply swp_bind, swp_wr; [apply M2|]. intros s3 a3 G3 _. eexists. split; [done|].
  apply swp_ret. pose proof (moved_trans _ _ _ _ _ _ _ M1 (moved_trans _ _ _ _ _ _ _ M2 (goes_moved _ _ _ G3))) as M3.
  rewrite app_nil_r in M3. simpl in M3. exists (acc ++ a3), got. split_and!; [|done|].
  - apply (moved_change _ _ _ _ (set_lock (recv_lock (dv s3) + 1) (recv (dv s3))) M3); try done;
      [apply (moved_fits _ _ _ _ M3)|by rewrite (moved_masked _ _ _ _ M3)].
  - eapply (ends_step nb n s s1 [] []); [done|]. eapply ends_later; [exact O|]. exact (goes_later _ _ _ G3).
Qed.

(** A port with buffers of four bytes whose line is silent, and a plan in which a
    carriage return and three bytes arrive while the task waits; the last finds the
    buffer full. *)
Definition quiet_side : side := mkSide 3 3 4 [0; 0; 0; 0] false 0 1 true [].
Definition quiet_port : uart := mkUart quiet_side (set_ie false quiet_side) ICRNL 0 false [0] ∅ 1 [] 0 [].
Definition late_bytes : st := mkSt quiet_port (replicate 12 [] ++ [[Arrive [13; 65]]; [Ready 2]; [Arrive [66; 67]]]) false.
Definition no_bytes : st := mkSt quiet_port (replicate 12 [] ++ [[Ready 2]; []]) false.
Definition signal_bytes : st := mkSt quiet_port (replicate 12 [] ++ [[]; [Signal]]) false.

Lemma uart_read_fifo_witness :
  match uart_read 40 false 3 late_bytes with
  | Fine (ret, data) s' => exists acc got,
      pushed (recv (dv s')) = acc /\ acc = got ++ content (recv (dv s')) /\ data = omap (input_char ICRNL) got /\
      outcome false 3 late_bytes s' got ret data
  | Starved s' => hungry s'
  | Wrong | NoFuel => False
  end /\
  (exists s', uart_read 40 false 3 late_bytes = Fine (3, [10; 65; 66]) s') /\
  (exists s', uart_read 40 false 3 no_bytes = Starved s') /\
  (exists s', uart_read 40 true 3 late_bytes = Fine (- EAGAIN, []) s') /\
  (exists s', uart_read 40 false 3 signal_bytes = Fine (- EINTR, []) s').
Proof.
  split_and!.
  - apply (uart_read_fifo 40 false 3 late_bytes).
    + split; [|split; [by repeat constructor|done]].
      split; [by vm_compute|]. split; [by vm_compute|]. constructor; [by left|constructor].
    + reflexivity.
    + reflexivity.
    + reflexivity.
    + vm_compute; reflexivity.
  - eexists. vm_compute. reflexivity.
  - eexists. vm_compute. reflexivity.
  - eexists. vm_compute. reflexivity.
  - eexists. vm_compute. reflexivity.
Defined.
