(* ===== verification/SerialWrite.v ===== *)
(** * Writing to a serial port

    [uart_write] against the transmit interrupt: whatever the plan, what goes into the
    buffer comes out on the line, each byte once and in order; the writer is never left
    waiting while the transmitter has room, and nothing is left behind in the buffer with
    the interrupt disabled. *)

From S2P Require Import Prelude Serial.

(** ** What happens around a writing task *)

(** Other tasks leave the sending side alone, but for its semaphore [lock]. *)
Definition writer_frame (f : uart -> uart) : Prop := forall u,
  (exists v, xmit (f u) = set_lock v (xmit u)) /\ tc_oflag (f u) = tc_oflag u /\ wire (f u) = wire u /\ room (f u) = room u /\
  (port_ok u -> port_ok (f u)).

Definition harmless (h : happening) : Prop := match h with Other f => writer_frame f | _ => True end.

Definition ready (s : st) : Prop :=
  port_ok (dv s) /\ Forall (Forall harmless) (plan s) /\ 0 <= wsem (xmit (dv s)).

(** What a writing loop can still use up. *)
Definition effort (s : st) : Z :=
  2 * Z.of_nat (length (content (xmit (dv s)))) + 2 * wsem (xmit (dv s)) + Z.b2z (waiting (xmit (dv s))).

(** The bytes [out] go out on the line. *)
Record sends (s s' : st) (out : list Z) : Prop := {
  sends_ready : ready s';
  sends_masked : masked s' = masked s;
  sends_size : size (xmit (dv s')) = size (xmit (dv s));
  sends_head : head (xmit (dv s')) = head (xmit (dv s));
  sends_content : content (xmit (dv s)) = out ++ content (xmit (dv s'));
  sends_wire : wire (dv s') = wire (dv s) ++ out;
  sends_oflag : tc_oflag (dv s') = tc_oflag (dv s);
  sends_woken : woken out (xmit (dv s)) (xmit (dv s'));
  sends_quiet : masked s = true \/ ie (xmit (dv s)) = false -> out = [] /\ ie (xmit (dv s')) = ie (xmit (dv s)) /\ tail (xmit (dv s')) = tail (xmit (dv s));
  sends_ie : ie (xmit (dv s)) = true -> ie (xmit (dv s')) = true \/ content (xmit (dv s')) = [];
  sends_later : later s s'
}.

Lemma woken_effort out r r' : woken out r r' ->
  wsem r <= wsem r' /\ 2 * wsem r' + Z.b2z (waiting r') <= 2 * wsem r + Z.b2z (waiting r) + 2 * Z.of_nat (length out) /\
  (waiting r = true -> wsem r' = wsem r -> out = []).
Proof.
  destruct out; intros [-> ->]; simpl; destruct (waiting r); simpl; split_and!; intros; (done || lia).
Qed.

Lemma sends_effort s s' out : sends s s' out -> effort s' <= effort s.
Proof.
  intros [_ _ _ _ C _ _ W _ _ _]. apply woken_effort in W as (_ & W & _). unfold effort. rewrite C, length_app. lia.
Qed.

Lemma sends_refl s : ready s -> sends s s [].
Proof. intros. split; rewrite ?app_nil_r; try done. by left. Qed.

Lemma sends_trans s1 s2 s3 a b : sends s1 s2 a -> sends s2 s3 b -> sends s1 s3 (a ++ b).
Proof.
  intros [F1 M1 Z1 H1 C1 L1 O1 W1 Q1 I1 P1] [F2 M2 Z2 H2 C2 L2 O2 W2 Q2 I2 P2]. split; try congruence.
  - by rewrite C1, C2, (assoc_L app).
  - by rewrite L2, L1, (assoc_L app).
  - by eapply woken_app.
  - intros Hq. destruct (Q1 Hq) as (-> & E1 & T1). rewrite <- M1, <- E1 in Hq. destruct (Q2 Hq) as (-> & E2 & T2).
    split_and!; [done|congruence|congruence].
  - intros Hi. destruct (I1 Hi) as [E|E]; [by apply I2|]. right. rewrite C2 in E. by apply app_eq_nil in E as [_ ?].
  - by etrans.
Qed.

(** Nothing but the semaphore of the sending side changes. *)
Lemma sends_lock s s' v : ready s' -> masked s' = masked s -> xmit (dv s') = set_lock v (xmit (dv s)) ->
  wire (dv s') = wire (dv s) -> tc_oflag (dv s') = tc_oflag (dv s) -> later s s' -> sends s s' [].
Proof.
  intros F M X L O P. assert (C : content (xmit (dv s')) = content (xmit (dv s))) by by rewrite X.
  split; rewrite ?app_nil_r, ?C; try done; rewrite ?X; try done. by left.
Qed.

Lemma set_lock_id r : set_lock (lock r) r = r.
Proof. by destruct r. Qed.

(** One happening, and a batch of them. *)
Lemma harmless_sends h u p m : ready (mkSt u p m) -> harmless h -> sends (mkSt u p m) (mkSt (happen h u) p m) [].
Proof.
  intros (Hp & Hf & Hw) Hh. simpl in *. destruct h as [l|n| |f]; simpl.
  1-3: eapply (sends_lock _ _ (lock (xmit u))); simpl; rewrite ?set_lock_id; try done; try (by split_and!); by exists [].
  destruct (Hh u) as ([v Hv] & Ho & Hl & Hr & Hpf). apply (sends_lock _ _ v); try done; [|by exists []].
  split_and!; simpl; [by apply Hpf|done|by rewrite Hv].
Qed.

Lemma batch_sends b p m : forall u, ready (mkSt u (b :: p) m) -> sends (mkSt u (b :: p) m) (mkSt (foldl (flip happen) u b) p m) [].
Proof.
  induction b as [|h b IH]; intros u (Hp & [Hb Hf]%Forall_cons & Hw); simpl in *.
  - eapply (sends_lock _ _ (lock (xmit u))); simpl; rewrite ?set_lock_id; try done; try (by split_and!); by apply later_batch.
  - apply Forall_cons in Hb as [Hh Hb].
    pose proof (harmless_sends h u (b :: p) m (conj Hp (conj (Forall_cons_2 _ _ _ Hb Hf) Hw)) Hh) as H1.
    pose proof (IH _ (sends_ready _ _ _ H1)) as H2. pose proof (sends_trans _ _ _ _ _ H1 H2) as [? ? ? ? ? ? ? ? ? ? ?].
    split; try done. by apply later_batch.
Qed.

Lemma tail_fixed r r' : ring_ok r -> ring_ok r' -> size r' = size r -> head r' = head r -> content r' = content r -> tail r' = tail r.
Proof.
  intros H H' Hs Hh Hc. apply (f_equal length) in Hc. pose proof (content_length r H). pose proof (content_length r' H').
  assert (E : count r' = count r) by lia. unfold ring_ok, count in *. repeat case_decide; lia.
Qed.

(** The interrupt: with its enable bit still set the transmitter is full. *)
Lemma interrupt_sends u p : ready (mkSt u p false) ->
  exists u' out, up_interrupt 256 u = Some u' /\ sends (mkSt u p false) (mkSt u' p false) out /\
    (ie (xmit u') = true -> room u' = 0%nat).
Proof.
  intros (Hp & Hf & Hw). simpl in *. destruct (interrupt_ok u Hp) as (u' & acc & out & E & Hi).
  exists u', out. split; [done|]. split; [|apply Hi].
  destruct (int_xmit _ _ _ _ Hi) as (D1&D2&D3&D4&D5&D6). destruct (int_cfg _ _ _ _ Hi) as (_ & Ho & _).
  pose proof (woken_effort _ _ _ D6) as (Hw' & _).
  split; simpl; try done.
  - split_and!; simpl; [apply Hi|done|lia].
  - apply Hi.
  - intros [?|Hie]; [done|]. destruct (int_out _ _ _ _ Hi Hie) as [-> ->]. split_and!; [done|by rewrite Hie|].
    apply tail_fixed; try done; [apply Hp|apply Hi].
  - apply Hi.
  - by exists [].
Qed.

Lemma touch_sends s R : ready s -> swp touch (fun _ s' => exists out, sends s s' out) R s.
Proof.
  destruct s as [u p m]. intros Hf. unfold swp, touch. cbn [dv plan masked].
  assert (exists u1 p1, (match p with [] => (u, []) | b :: p => (foldl (flip happen) u b, p) end) = (u1, p1) /\
    forall m, sends (mkSt u p m) (mkSt u1 p1 m) []) as (u1 & p1 & -> & Hs).
  { destruct p as [|b p]; eexists _, _; (split; [done|]); intros m'; [by apply sends_refl|by apply batch_sends]. }
  destruct m; [by exists []|].
  destruct (interrupt_sends u1 p1) as (u2 & out & -> & Hs2 & _); [apply (Hs false)|].
  exists out. by apply (sends_trans _ _ _ [] out (Hs false) Hs2).
Qed.

Lemma swp_rd_w {A} (f : uart -> A) Q R s : ready s ->
  (forall s' out, sends s s' out -> Q (f (dv s')) s') -> swp (rd f) Q R s.
Proof.
  intros Hf HQ. apply swp_bind. eapply swp_mono; [by apply touch_sends| |done].
  intros _ s' (out & Hs). apply swp_look. by eapply HQ.
Qed.

Lemma swp_wr_w f Q R s : ready s ->
  (forall s' out, sends s s' out -> exists u, f (dv s') = Some u /\ Q tt (mkSt u (plan s') (masked s'))) -> swp (wr f) Q R s.
Proof.
  intros Hf HQ. apply swp_bind. eapply swp_mono; [by apply touch_sends| |done].
  intros _ s' (out & Hs). destruct (HQ s' out Hs) as (u & E & H). by eapply swp_change.
Qed.

(** ** Waiting for room in the buffer *)

Definition full (r : side) : Prop := Z.of_nat (length (content r)) = size r - 1.

(** A task that waits for room with the transmitter busy. *)
Definition stuck (s : st) : Prop :=
  full (xmit (dv s)) /\ room (dv s) = 0%nat /\ waiting (xmit (dv s)) = true /\ ie (xmit (dv s)) = true /\ wsem (xmit (dv s)) = 0.

(** Between [s] and [s'] the bytes [put] went into the buffer and the bytes [out] went
    out on the line. *)
Record wrote (s s' : st) (put out : list Z) : Prop := {
  wrote_ready : ready s';
  wrote_masked : masked s' = masked s;
  wrote_size : size (xmit (dv s')) = size (xmit (dv s));
  wrote_oflag : tc_oflag (dv s') = tc_oflag (dv s);
  wrote_wire : wire (dv s') = wire (dv s) ++ out;
  wrote_content : content (xmit (dv s)) ++ put = out ++ content (xmit (dv s'));
  wrote_later : later s s'
}.

Lemma sends_wrote s s' out : sends s s' out -> wrote s s' [] out.
Proof. intros []. split; try done. by rewrite app_nil_r. Qed.

Lemma wrote_trans s1 s2 s3 a b p q : wrote s1 s2 p a -> wrote s2 s3 q b -> wrote s1 s3 (p ++ q) (a ++ b).
Proof.
  intros [F1 M1 Z1 O1 L1 C1 P1] [F2 M2 Z2 O2 L2 C2 P2]. split; try congruence.
  - by rewrite L2, L1, (assoc_L app).
  - by rewrite (assoc_L app), C1, <- !(assoc_L app), C2.
  - by etrans.
Qed.

(** A change of the sending side that keeps its buffer. *)
Lemma wrote_change s s' put out r m : wrote s s' put out ->
  head r = head (xmit (dv s')) -> tail r = tail (xmit (dv s')) -> size r = size (xmit (dv s')) ->
  buffer r = buffer (xmit (dv s')) -> 0 <= wsem r -> m = masked s -> wrote s (mkSt (set_xmit r (dv s')) (plan s') m) put out.
Proof.
  intros [(F1&F2&F3) M Z O L C P] Hh Ht Hs Hb Hw ->.
  assert (Hc : content r = content (xmit (dv s'))) by (unfold content, count, cell; by rewrite Hh, Ht, Hs, Hb).
  split; simpl; try congruence; [|exact P]. destruct F1 as (G1&G2&G3). refine (conj (conj G1 (conj _ G3)) (conj F2 Hw)).
  unfold ring_ok in *. simpl. by rewrite Hh, Ht, Hs, Hb.
Qed.

Lemma sends_masked_as u p u' p' out m : sends (mkSt u p false) (mkSt u' p' false) out -> wrote (mkSt u p m) (mkSt u' p' m) [] out.
Proof. intros H. destruct (sends_wrote _ _ _ H). by split. Qed.

(** Why a wait for room ends: the semaphore was posted, or will be when a byte is sent. *)
Definition served (r : side) : Prop := 0 < wsem r \/ (ie r = true /\ waiting r = true /\ full r).

Lemma wait_sends p : forall u, ready (mkSt u p true) -> served (xmit u) ->
  swp (wait_sem xmitsem put_xmitsem) (fun ok s' => exists out, wrote (mkSt u p true) s' [] out /\
    head (xmit (dv s')) = head (xmit u) /\ effort s' + (if (ok : bool) then 2 else 0) <= effort (mkSt u p true) /\
    (ok = false -> full (xmit (dv s')) /\ signalled (mkSt u p true) s')) stuck (mkSt u p true).
Proof.
  assert (Hok : forall u p u1 p1 out, ready (mkSt u1 p1 true) -> wrote (mkSt u p true) (mkSt u1 p1 true) [] out ->
    head (xmit u1) = head (xmit u) -> effort (mkSt u1 p1 true) <= effort (mkSt u p true) -> 0 < xmitsem u1 ->
    exists out, wrote (mkSt u p true) (mkSt (put_xmitsem (xmitsem u1 - 1) u1) p1 true) [] out /\
      head (xmit (put_xmitsem (xmitsem u1 - 1) u1)) = head (xmit u) /\
      effort (mkSt (put_xmitsem (xmitsem u1 - 1) u1) p1 true) + 2 <= effort (mkSt u p true) /\
      (true = false -> full (xmit (put_xmitsem (xmitsem u1 - 1) u1)) /\
        signalled (mkSt u p true) (mkSt (put_xmitsem (xmitsem u1 - 1) u1) p1 true))).
  { intros u p' u1 p1 out F W Hh E Hs. unfold xmitsem, put_xmitsem in *. exists out. split; [|split; [done|split; [|done]]].
    - apply (wrote_change _ _ _ _ (set_wsem (wsem (xmit u1) - 1) (xmit u1)) _ W); try done. simpl. lia.
    - unfold effort in *; simpl in *. change (content (set_wsem (wsem (xmit u1) - 1) (xmit u1))) with (content (xmit u1)). lia. }
  unfold swp, wait_sem. cbn [dv plan masked].
  induction p as [|b p IH]; intros u Hf Hs; cbn [wait_sem_loop].
  all: case_decide as Hd; [by apply (Hok _ _ u _ []); [..|apply (sends_wrote _ _ _ (sends_refl _ Hf))| | |]|].
  all: destruct Hs as [Hs|(Hie & Hwt & Hfu)]; [done|].
  all: destruct (interrupt_sends u _ Hf) as (u1 & out & -> & Hg & Hroom); cbn [mbind option_bind].
  all: pose proof (sends_masked_as _ _ _ _ _ true Hg) as Hw1; pose proof (wrote_ready _ _ _ _ Hw1) as Hf1.
  all: pose proof (sends_head _ _ _ Hg) as Hh1; pose proof (sends_effort _ _ _ Hg) as He1; cbn [dv] in Hh1.
  all: case_decide as Hd1; [by eapply Hok|].
  all: destruct (woken_effort _ _ _ (sends_woken _ _ _ Hg)) as (W1 & _ & W2); cbn [dv] in W1, W2.
  all: pose proof Hf as (_ & _ & Hpos); pose proof Hf1 as (_ & _ & Hpos1); unfold xmitsem in *; cbn [dv] in Hpos, Hpos1.
  all: rewrite (W2 Hwt ltac:(lia)) in *; clear W1 W2; pose proof (sends_content _ _ _ Hg) as Hc; pose proof (sends_size _ _ _ Hg) as Hz.
  all: pose proof (sends_woken _ _ _ Hg) as [Hwt1 _]; cbn [dv app] in Hc, Hz, Hwt1; rewrite Hwt in Hwt1.
  all: assert (Hfu1 : full (xmit u1)) by (unfold full; by rewrite <- Hc, Hz).
  all: assert (Hie1 : ie (xmit u1) = true) by
    (destruct (sends_ie _ _ _ Hg Hie) as [|E]; [done|]; cbn [dv] in E; unfold full in Hfu1; rewrite E in Hfu1;
     destruct Hf1 as ((_&[? _]&_)&_); simpl in *; lia).
  - unfold stuck. simpl. split_and!; try done; [by apply Hroom|lia].
  - pose proof (batch_sends b p true u1 Hf1) as Hg2. pose proof (sends_head _ _ _ Hg2) as Hh2.
    pose proof (sends_effort _ _ _ Hg2) as He2. pose proof (sends_content _ _ _ Hg2) as Hc2. pose proof (sends_size _ _ _ Hg2) as Hz2.
    destruct (sends_quiet _ _ _ Hg2 (or_introl eq_refl)) as (_ & Hie2 & _). destruct (sends_woken _ _ _ Hg2) as [Hwt2 Hws2].
    cbn [dv app] in Hh2, Hc2, Hz2, Hie2, Hwt2, Hws2. pose proof (wrote_trans _ _ _ _ _ _ _ Hw1 (sends_wrote _ _ _ Hg2)) as Hw2.
    simpl in Hw2. rewrite decide_True by lia.
    assert (He3 : effort (mkSt (foldl (flip happen) u1 b) p true) <= effort (mkSt u (b :: p) true)) by (etrans; [exact He2|exact He1]).
    destruct (existsb is_signal b) eqn:Esig.
    + exists []. split; [done|]. split; [simpl; congruence|]. split; [by rewrite Z.add_0_r|]. intros _.
      split; [|by apply signal_interrupts]. unfold full. simpl. by rewrite <- Hc2, Hz2.
    + assert (H := IH _ (sends_ready _ _ _ Hg2)). specialize (H ltac:(right; unfold full; rewrite <- Hc2, Hz2, Hie2, Hwt2; split_and!; done)).
      destruct (wait_sem_loop _ _ p _ true) as [ok s'| | |s']; [|done..].
      destruct H as (out2 & Hw3 & Hh3 & He4 & Hno). exists out2. split; [|split; [|split]].
      * apply (wrote_trans _ _ _ [] _ [] _ Hw2 Hw3).
      * congruence.
      * by etrans.
      * intros E. destruct (Hno E) as [? ?]. split; [done|]. eapply signalled_l; [apply Hw2|done].
Qed.

Lemma sends_quiet_ie s s' out : sends s s' out -> masked s = true -> ie (xmit (dv s')) = ie (xmit (dv s)).
Proof. intros S M. by destruct (sends_quiet _ _ _ S (or_introl M)) as (_ & -> & _). Qed.

(** The transmit interrupt is disabled. *)
Lemma swp_txint_off (Q : () -> st -> Prop) R s : ready s ->
  (forall s' out, wrote s s' [] out -> head (xmit (dv s')) = head (xmit (dv s)) -> effort s' <= effort s ->
    ie (xmit (dv s')) = false -> (masked s = true -> out = []) -> Q tt s') -> swp (txint false) Q R s.
Proof.
  intros Hf HQ. apply swp_wr_w; [done|]. intros s' out S. eexists. split; [done|].
  pose proof (sends_wrote _ _ _ S) as W. apply (HQ _ out); simpl; try done.
  - apply (wrote_change _ _ _ _ (set_ie false (xmit (dv s'))) _ W); try done; [apply (sends_ready _ _ _ S)|apply S].
  - apply S.
  - apply (sends_effort _ _ _ S).
  - intros Hm. by destruct (sends_quiet _ _ _ S (or_introl Hm)).
Qed.

(** It is enabled: bytes go out at once, and it stays enabled while some are left. *)
Lemma swp_txint_on (Q : () -> st -> Prop) R s : ready s ->
  (forall s' out, wrote s s' [] out -> head (xmit (dv s')) = head (xmit (dv s)) -> effort s' <= effort s ->
    (content (xmit (dv s')) = [] \/ ie (xmit (dv s')) = true) ->
    (masked s = true -> waiting (xmit (dv s)) = true -> full (xmit (dv s)) -> served (xmit (dv s'))) -> Q tt s') ->
  swp (txint true) Q R s.
Proof.
  intros Hf HQ. apply swp_wr_w; [done|]. intros s1 out S. pose proof (sends_wrote _ _ _ S) as W.
  set (u := set_xmit (set_ie true (xmit (dv s1))) (dv s1)).
  destruct (sends_ready _ _ _ S) as (Hp & Hpl & Hw1).
  assert (Hpu : port_ok u) by exact Hp.
  destruct (xmitchars_ok u Hpu) as (u2 & E & Hp2 & D & _ & (_ & Ho & _) & _ & Hl & Hr & Hie). exists u2. split; [exact E|].
  set (sent := take (room u) (content (xmit u))) in *.
  change (content (xmit u)) with (content (xmit (dv s1))) in *.
  destruct D as (D1&_&D3&D4&_&D6). destruct (woken_effort _ _ _ D6) as (V1 & V2 & _).
  change (content (xmit u)) with (content (xmit (dv s1))) in *. simpl in V1, V2, D1, D3.
  assert (S2 : wrote s1 (mkSt u2 (plan s1) (masked s1)) [] sent).
  { split; simpl; try done; [split_and!; simpl; [done|done|lia]|by rewrite app_nil_r|by exists []]. }
  apply (HQ _ (out ++ sent)); simpl.
  - apply (wrote_trans _ _ _ _ _ [] [] W S2).
  - rewrite D3. apply S.
  - pose proof (sends_effort _ _ _ S). unfold effort in *; cbn [dv] in *. rewrite D4, length_app in *. lia.
  - rewrite Hie. case_decide; [by left|by right].
  - intros Hm Hwt Hfu. destruct (sends_quiet _ _ _ S (or_introl Hm)) as (-> & _ & _).
    pose proof (sends_content _ _ _ S) as C. pose proof (sends_size _ _ _ S) as Z0. destruct (sends_woken _ _ _ S) as [Wt _].
    simpl in C. rewrite Hwt in Wt. unfold served. destruct sent as [|x l] eqn:Es; simpl in D6.
    + right. destruct D6 as [-> _]. simpl in D4. rewrite Hie. unfold full. rewrite <- D4, D1, <- C, Z0.
      rewrite decide_False; [done|]. rewrite C in *. intros E0. unfold full in Hfu. rewrite C, E0 in Hfu.
      destruct Hp as (_ & [? _] & _). simpl in Hfu. lia.
    + left. destruct D6 as [_ ->]. simpl. rewrite Wt. simpl. lia.
Qed.

(** The wait for room, in its critical section: [k] gets the result. *)
Lemma swp_await_room {B} (nexthead : Z) (k : Z -> ser B) s Q : ready s -> masked s = false -> ie (xmit (dv s)) = false ->
  full (xmit (dv s)) -> nexthead = tail (xmit (dv s)) ->
  (forall s' out ret, wrote s s' [] out -> head (xmit (dv s')) = head (xmit (dv s)) -> ie (xmit (dv s')) = false ->
    (ret = - EINTR /\ effort s' <= effort s + 1 /\ full (xmit (dv s')) /\ signalled s s' \/
      ret = OK /\ effort s' < effort s) -> swp (k ret) Q stuck s') ->
  swp (enter_critical_section;; t ← rd (fun u => tail (xmit u));
       ret ← (if decide (nexthead <> t) then mret OK
              else wr (fun u => Some (set_xmit (set_waiting true (xmit u)) u));; txint true;;
                   ret ← uart_takesem xmitsem put_xmitsem; txint false;; mret ret);
       leave_critical_section;; k ret) Q stuck s.
Proof.
  intros Hf Hm Hie Hfu -> HQ. apply swp_bind. unfold swp at 1, enter_critical_section. set (s0 := mkSt (dv s) (plan s) true).
  assert (Hunmask : forall s1 put out, wrote s0 s1 put out -> wrote s (mkSt (dv s1) (plan s1) false) put out).
  { intros s1 put out [? ? ? ? ? ? ?]. by split. }
  apply swp_bind, swp_rd_w; [exact Hf|]. intros s1 o1 S1.
  destruct (sends_quiet _ _ _ S1 (or_introl eq_refl)) as (-> & _ & Ht1).
  rewrite (decide_False (P := tail (xmit (dv s)) <> tail (xmit (dv s1)))) by (intros H; by apply H).
  apply swp_bind, swp_bind, swp_wr_w; [apply S1|]. intros s2 o2 S2. eexists. split; [done|].
  pose proof (sends_trans _ _ _ _ _ S1 S2) as S12. pose proof (sends_masked _ _ _ S12) as Hm2.
  destruct (sends_quiet _ _ _ S12 (or_introl eq_refl)) as (Eo & _ & _). simpl in Eo. subst o2.
  set (s3 := mkSt (set_xmit (set_waiting true (xmit (dv s2))) (dv s2)) (plan s2) (masked s2)).
  assert (W3 : wrote s0 s3 [] []).
  { apply (wrote_change _ _ _ _ _ _ (sends_wrote _ _ _ S12)); try done. apply (sends_ready _ _ _ S12). }
  assert (E3 : effort s3 <= effort s + 1).
  { pose proof (sends_effort _ _ _ S12) as E. change (effort s0) with (effort s) in E. revert E. unfold effort, s3. simpl.
    change (content (set_waiting true (xmit (dv s2)))) with (content (xmit (dv s2))). destruct (waiting (xmit (dv s2))); simpl; lia. }
  assert (Hfu3 : full (xmit (dv s3))).
  { unfold full in *. change (content (xmit (dv s3))) with (content (xmit (dv s2))). simpl.
    pose proof (sends_content _ _ _ S12) as C. simpl in C. by rewrite <- C, (sends_size _ _ _ S12). }
  apply swp_bind, swp_txint_on; [apply W3|]. intros s4 o4 W4 H4 E4 _ Hsv.
  specialize (Hsv Hm2 eq_refl Hfu3). pose proof (wrote_masked _ _ _ _ W4) as Hm4. simpl in Hm4. rewrite Hm2 in Hm4.
  destruct s4 as [u4 p4 m4]. simpl in Hm4, Hsv. subst m4.
  apply swp_bind, swp_bind. eapply swp_mono; [apply wait_sends; [apply W4|exact Hsv]| |done].
  intros ok s5 (o5 & W5 & H5 & E5 & Hno). apply swp_ret, swp_bind, swp_txint_off; [apply W5|]. intros s6 o6 W6 H6 E6 I6 Q6.
  apply swp_ret, swp_bind. unfold swp at 1, leave_critical_section.
  pose proof (wrote_trans _ _ _ _ _ _ _ W3 (wrote_trans _ _ _ _ _ _ _ W4 (wrote_trans _ _ _ _ _ _ _ W5 W6))) as W.
  eapply (HQ (mkSt (dv s6) (plan s6) false)); [by apply Hunmask|..]; simpl.
  - pose proof (sends_head _ _ _ S12) as H0. simpl in *. congruence.
  - done.
  - change (effort (mkSt (dv s6) (plan s6) false)) with (effort s6). destruct ok; [right; split; [done|lia]|left]. split; [done|]. split; [lia|].
    destruct (Hno eq_refl) as [Hfu5 Hsig]. rewrite Q6 in W6 by by rewrite (wrote_masked _ _ _ _ W5). split.
    + pose proof (wrote_content _ _ _ _ W6) as C6. rewrite app_nil_r in C6. simpl in C6. unfold full in *. simpl.
      by rewrite <- C6, (wrote_size _ _ _ _ W6).
    + eapply (signalled_l s (mkSt u4 p4 true)); [|eapply signalled_r; [exact Hsig|exact (wrote_later _ _ _ _ W6)]].
      exact (wrote_later _ _ _ _ (wrote_trans _ _ _ _ _ _ _ W3 W4)).
Qed.

Definition errno (blocking : bool) : Z := if blocking then EINTR else EAGAIN.

(** Between [s] and [s'], with [put] put into the buffer and [out] sent, there was a
    moment after the last byte was put when the buffer was full; and a blocking writer
    got a signal. *)
Definition held (blk : bool) (s s' : st) (put out : list Z) : Prop :=
  (exists o1, o1 `prefix_of` out /\
    Z.of_nat (length (content (xmit (dv s)) ++ put)) - Z.of_nat (length o1) = size (xmit (dv s)) - 1) /\
  (blk = true -> signalled s s').

Lemma held_now blk s s' put out : wrote s s' put out -> full (xmit (dv s')) -> (blk = true -> signalled s s') -> held blk s s' put out.
Proof.
  intros W Hfu Hs. split; [|done]. exists out. split; [done|]. rewrite (wrote_content _ _ _ _ W), length_app.
  unfold full in Hfu. rewrite (wrote_size _ _ _ _ W) in Hfu. lia.
Qed.

Lemma held_l blk s1 s2 s3 p q a b : wrote s1 s2 p a -> held blk s2 s3 q b -> held blk s1 s3 (p ++ q) (a ++ b).
Proof.
  intros W ((o1 & Ho & E) & Hs). split.
  - exists (a ++ o1). split; [by apply prefix_app|]. pose proof (f_equal length (wrote_content _ _ _ _ W)) as C.
    rewrite (wrote_size _ _ _ _ W) in E. rewrite !length_app in *. lia.
  - intros Hb. eapply signalled_l; [apply (wrote_later _ _ _ _ W)|auto].
Qed.

Lemma held_r blk s1 s2 s3 p q a b : held blk s1 s2 p a -> wrote s2 s3 q b -> held blk s1 s3 p (a ++ b).
Proof.
  intros ((o1 & Ho & E) & Hs) W. split.
  - exists o1. split; [by apply prefix_app_r|done].
  - intros Hb. eapply signalled_r; [auto|apply (wrote_later _ _ _ _ W)].
Qed.

(** [uart_putxmitchar]: the character is in the buffer, or nothing is and an error is
    returned. *)
Lemma putxmit_ok ch blk nexthead fuel : forall s, ready s -> masked s = false -> ie (xmit (dv s)) = false -> effort s < Z.of_nat fuel ->
  nexthead = bump (head (xmit (dv s))) (xmit (dv s)) ->
  swp (putxmit_loop fuel ch nexthead blk) (fun ret s' => exists out, ie (xmit (dv s')) = false /\ effort s' <= effort s + 2 /\
    (ret = OK /\ wrote s s' [ch] out \/ ret = - errno blk /\ wrote s s' [] out /\ held blk s s' [] out)) stuck s.
Proof.
  induction fuel as [|fuel IH]; intros s Hf Hm Hie He Hn.
  { destruct Hf as (_ & _ & Hf). unfold effort in He. destruct (waiting (xmit (dv s))); simpl in He; lia. }
  cbn [putxmit_loop]. apply swp_bind, swp_rd_w; [done|]. intros s1 o1 S1.
  destruct (sends_quiet _ _ _ S1 (or_intror Hie)) as (-> & Hie1 & Ht1). rewrite Hie in Hie1.
  assert (Hn1 : nexthead = bump (head (xmit (dv s1))) (xmit (dv s1))).
  { unfold bump in *. by rewrite (sends_size _ _ _ S1), (sends_head _ _ _ S1). }
  pose proof (sends_ready _ _ _ S1) as F1. pose proof F1 as ((_ & Hr1 & _) & _).
  pose proof (sends_wrote _ _ _ S1) as W1. pose proof (sends_effort _ _ _ S1) as E1. pose proof (sends_masked _ _ _ S1) as M1.
  case_decide as Hne.
  - apply swp_bind, swp_wr_w; [apply F1|]. intros s2 o2 S2.
    destruct (sends_quiet _ _ _ S2 (or_intror Hie1)) as (-> & Hie2 & Ht2). pose proof (sends_ready _ _ _ S2) as F2.
    pose proof F2 as ((Hx & Hr2 & Hpo) & Hpl & Hws). rewrite <- Ht2 in Hne.
    assert (Hn2 : nexthead = bump (head (xmit (dv s2))) (xmit (dv s2))).
    { unfold bump in *. by rewrite (sends_size _ _ _ S2), (sends_head _ _ _ S2). }
    rewrite Hn2 in Hne |- *. destruct (ring_put_ok ch _ Hr2 Hne) as (r & -> & Hr & Hsm & Hc & _). eexists. split; [done|].
    destruct Hsm as (Z1 & Z2 & Z3 & Z4 & Z5). pose proof (sends_wrote _ _ _ S2) as W2. pose proof (sends_effort _ _ _ S2) as E2.
    assert (W3 : wrote s2 (mkSt (set_xmit r (dv s2)) (plan s2) (masked s2)) [ch] []).
    { split; simpl; try done; [split_and!; simpl; try done; by rewrite Z3|by rewrite app_nil_r|by exists []]. }
    apply swp_ret. exists []. simpl. split_and!.
    + congruence.
    + unfold effort in *. simpl. rewrite Hc, length_app, Z2, Z3. simpl. lia.
    + left. split; [done|]. apply (wrote_trans _ _ _ [] [] [] [ch] W1), (wrote_trans _ _ _ [] [] [] [ch] W2 W3).
  - assert (Hfu : full (xmit (dv s1))).
    { unfold full. rewrite content_length by done. apply ring_full; [done|]. rewrite <- Hn1.
      destruct (decide (nexthead = tail (xmit (dv s1)))); [done|by destruct Hne]. }
    assert (Hnt : nexthead = tail (xmit (dv s1))) by (destruct (decide (nexthead = tail (xmit (dv s1)))); [done|by destruct Hne]).
    destruct blk.
    + apply swp_await_room; try done; [congruence|]. intros s2 o2 ret W2 H2 I2 Hret.
      pose proof (wrote_trans _ _ _ [] o2 [] [] W1 W2) as W. simpl in W. destruct Hret as [(-> & E2 & Hfu2 & Hsig)|[-> E2]].
      * rewrite decide_True by done. apply swp_ret. exists o2. split; [done|]. split; [lia|]. right. split; [done|]. split; [done|].
        apply (held_l _ _ _ _ [] [] [] o2 W1), held_now; auto.
      * rewrite decide_False by done. eapply swp_mono; [apply IH| |done].
        -- apply W2.
        -- rewrite (wrote_masked _ _ _ _ W). done.
        -- done.
        -- lia.
        -- rewrite Hn1. unfold bump. by rewrite H2, (wrote_size _ _ _ _ W2).
        -- intros r s' (out & I & E & H). exists (o2 ++ out). split; [done|]. split; [lia|].
           destruct H as [[-> W3]|(-> & W3 & H3)]; [left|right]; (split; [done|]); [by apply (wrote_trans _ _ _ _ _ [] _ W W3)|].
           split; [by apply (wrote_trans _ _ _ _ _ [] _ W W3)|by apply (held_l _ _ _ _ [] [] _ _ W)].
    + apply swp_ret. exists []. split; [done|]. split; [lia|]. right. split; [done|]. split; [done|]. by apply held_now.
Qed.

(** ** The characters of a write *)

Lemma putxmitchar_ok ch blk fuel s : ready s -> masked s = false -> ie (xmit (dv s)) = false -> effort s < Z.of_nat fuel ->
  swp (uart_putxmitchar fuel ch blk) (fun ret s' => exists out, ie (xmit (dv s')) = false /\ effort s' <= effort s + 2 /\
    (ret = OK /\ wrote s s' [ch] out \/ ret = - errno blk /\ wrote s s' [] out /\ held blk s s' [] out)) stuck s.
Proof.
  intros Hf Hm Hie He. apply swp_bind, swp_rd_w; [done|]. intros s1 o1 S1.
  destruct (sends_quiet _ _ _ S1 (or_intror Hie)) as (-> & Hie1 & _). pose proof (sends_effort _ _ _ S1) as E1.
  eapply swp_mono; [apply putxmit_ok; try done| |done].
  - apply S1.
  - by rewrite (sends_masked _ _ _ S1).
  - by rewrite Hie1.
  - lia.
  - intros ret s2 (out & I & E & H). exists out. split; [done|]. split; [lia|]. pose proof (sends_wrote _ _ _ S1) as W1.
    destruct H as [[-> W2]|(-> & W2 & H2)]; [left|right]; (split; [done|]); [by apply (wrote_trans _ _ _ [] _ [] _ W1 W2)|].
    split; [by apply (wrote_trans _ _ _ [] _ [] _ W1 W2)|by apply (held_l _ _ _ _ [] [] [] _ W1)].
Qed.

(** Output processing of a character. *)
Definition output_char (oflag ch : Z) : list Z :=
  if decide (Z.land oflag OPOST <> 0) then
    let ch := if decide (ch = 13 /\ Z.land oflag OCRNL <> 0) then 10 else ch in
    (if decide (ch = 10 /\ Z.land oflag (Z.lor ONLCR ONLRET) <> 0) then [13] else []) ++ [ch]
  else [ch].

(** The state after a part of a write that put the bytes [put]; and after the last one,
    that was held up. *)
Definition putting (s : st) (put : list Z) (n : Z) (s' : st) : Prop :=
  ie (xmit (dv s')) = false /\ effort s' <= effort s + n /\ exists out, wrote s s' put out.

Definition stopping (blk : bool) (s : st) (put : list Z) (n : Z) (s' : st) : Prop :=
  ie (xmit (dv s')) = false /\ effort s' <= effort s + n /\ exists out, wrote s s' put out /\ held blk s s' put out.

Lemma putting_trans s1 s2 s3 p q m n : putting s1 p m s2 -> putting s2 q n s3 -> putting s1 (p ++ q) (m + n) s3.
Proof.
  intros (_ & E1 & o1 & W1) (I2 & E2 & o2 & W2). split; [done|]. split; [lia|]. exists (o1 ++ o2). by eapply wrote_trans.
Qed.

Lemma stopping_trans blk s1 s2 s3 p q m n : putting s1 p m s2 -> stopping blk s2 q n s3 -> stopping blk s1 (p ++ q) (m + n) s3.
Proof.
  intros (_ & E1 & o1 & W1) (I2 & E2 & o2 & W2 & H2). split; [done|]. split; [lia|]. exists (o1 ++ o2).
  split; [by eapply wrote_trans|by eapply held_l].
Qed.

Lemma putting_mono s p m n s' : putting s p m s' -> m <= n -> putting s p n s'.
Proof. intros (I & E & W) H. split; [done|]. split; [lia|done]. Qed.
Lemma stopping_mono blk s p m n s' : stopping blk s p m s' -> m <= n -> stopping blk s p n s'.
Proof. intros (I & E & W) H. split; [done|]. split; [lia|done]. Qed.

Lemma put_one fuel blk ch (e : Z -> Z * bool) s : ready s -> masked s = false -> ie (xmit (dv s)) = false -> effort s < Z.of_nat fuel ->
  swp (ret ← uart_putxmitchar fuel ch blk; if decide (ret < 0) then mret (Some (e ret)) else mret None)
    (fun r s' => r = None /\ putting s [ch] 2 s' \/ r = Some (e (- errno blk)) /\ stopping blk s [] 2 s') stuck s.
Proof.
  intros Hf Hm Hie He. apply swp_bind. eapply swp_mono; [by apply putxmitchar_ok| |done].
  intros ret s1 (out & I & E & [[-> W]|(-> & W & H)]); [rewrite decide_False by done|rewrite decide_True by by destruct blk];
    apply swp_ret; [left|right]; (split; [done|]); (split; [done|]); (split; [lia|]); by exists out.
Qed.

Lemma write_char_ok fuel blk ch s : ready s -> masked s = false -> ie (xmit (dv s)) = false -> effort s + 2 < Z.of_nat fuel ->
  let oc := output_char (tc_oflag (dv s)) ch in
  swp (write_char fuel blk ch) (fun r s' =>
    match r with
    | None => putting s oc 4 s'
    | Some (ret, cut) => ret = - errno blk /\ stopping blk s (if (cut : bool) then [] else removelast oc) 4 s' /\ (cut = true -> length oc = 2%nat)
    end) stuck s.
Proof.
  intros Hf Hm Hie He. cbv zeta. unfold write_char. apply swp_bind, swp_rd_w; [done|]. intros s1 o1 S1.
  destruct (sends_quiet _ _ _ S1 (or_intror Hie)) as (-> & Hie1 & _). pose proof (sends_effort _ _ _ S1) as E1.
  pose proof (sends_ready _ _ _ S1) as F1. rewrite Hie in Hie1. pose proof (sends_masked _ _ _ S1) as M1. rewrite Hm in M1.
  assert (P1 : putting s [] 0 s1) by (split; [done|]; split; [lia|]; exists []; by apply sends_wrote).
  assert (Hone : forall c cs s2 n, putting s cs n s2 -> masked s2 = false -> ready s2 -> 0 <= n <= 2 ->
    swp (ret ← uart_putxmitchar fuel c blk; if decide (ret < 0) then mret (Some (ret, false)) else mret None)
      (fun r s' => match r with
       | None => putting s (cs ++ [c]) 4 s'
       | Some (ret, cut) => ret = - errno blk /\ stopping blk s (if (cut : bool) then [] else removelast (cs ++ [c])) 4 s' /\
           (cut = true -> length (cs ++ [c]) = 2%nat)
       end) stuck s2).
  { intros c cs s2 n P Hm2 Hf2 Hn. pose proof P as (I & E & _).
    eapply swp_mono; [apply (put_one fuel blk c (fun ret => (ret, false))); (done || lia)| |done].
    intros r s3 [[-> P3]|[-> P3]].
    - eapply putting_mono; [by eapply putting_trans|lia].
    - split; [done|]. split; [|done]. rewrite removelast_last. rewrite <- (app_nil_r cs).
      eapply stopping_mono; [by eapply stopping_trans|lia]. }
  rewrite <- (sends_oflag _ _ _ S1). unfold output_char. case_decide; [|by apply (Hone ch [] s1 0)].
  set (c := if decide (ch = 13 /\ _) then 10 else ch). apply swp_bind. case_decide as Hnl.
  - eapply swp_mono; [apply putxmitchar_ok; try done; lia| |done].
    intros ret s2 (out & I2 & E2 & [[-> W2]|(-> & W2 & H2)]).
    + rewrite decide_False by done. apply (Hone c [13] s2 2); try done; [|by rewrite (wrote_masked _ _ _ _ W2)|apply W2].
      apply (putting_trans s s1 s2 [] [13] 0 2 P1). split; [done|]. split; [lia|]. by exists out.
    + rewrite decide_True by by destruct blk. apply swp_ret. split; [done|]. split; [|done].
      eapply stopping_mono; [apply (stopping_trans blk s s1 s2 [] [] 0 2 P1)|lia]. split; [done|]. split; [lia|]. by exists out.
  - apply swp_ret. rewrite decide_False by done. by apply (Hone c [] s1 0).
Qed.

(** What a write of [chars] says ([ret]) and puts, when [base] characters went before:
    the output for the first [k] of them, and for the one where it stopped all but the
    last byte; but a failure at the first byte of a line end is reported as if nothing
    had been written. *)
Definition reported (oflag : Z) (blk : bool) (chars : list Z) (base ret : Z) (put : list Z) : Prop :=
  exists (k : nat) part, put = flat_map (output_char oflag) (take k chars) ++ part /\
    ((k = length chars /\ part = [] /\ ret = base + Z.of_nat k) \/
     exists c, chars !! k = Some c /\
       ((part = removelast (output_char oflag c) /\ ret = if decide (0 < base + Z.of_nat k) then base + Z.of_nat k else - errno blk) \/
        (length (output_char oflag c) = 2%nat /\ part = [] /\ ret = - errno blk))).

Lemma write_loop_ok fuel blk chars : forall s n, ready s -> masked s = false -> ie (xmit (dv s)) = false ->
  effort s + 4 * Z.of_nat (length chars) + 2 < Z.of_nat fuel ->
  swp (write_loop fuel blk chars n) (fun ret s' => exists put out,
    reported (tc_oflag (dv s)) blk chars (n - Z.of_nat (length chars)) ret put /\
    ie (xmit (dv s')) = false /\ wrote s s' put out /\ (ret = n \/ held blk s s' put out)) stuck s.
Proof.
  induction chars as [|ch chars IH]; intros s n Hf Hm Hie He; cbn [write_loop].
  - apply swp_ret. exists [], []. split; [exists 0%nat, []; split; [done|]; left; split_and!; [done|done|simpl; lia]|].
    split; [done|]. split; [by apply sends_wrote, sends_refl|by left].
  - simpl length in He. apply swp_bind. eapply swp_mono; [apply write_char_ok; (done || lia)| |done].
    intros [[ret cut]|] s1.
    + intros (-> & (I & _ & out & W & H) & Hcut).
      destruct cut; apply swp_ret; eexists _, out; (split; [|by split_and!; [done|exact W|by right]]); eexists 0%nat, _; (split; [done|]);
        right; exists ch; (split; [done|]); [right; by rewrite Hcut|left]. split; [done|].
      simpl length. repeat case_decide; lia.
    + intros P. pose proof P as (I1 & E1 & out & W1). eapply swp_mono; [apply IH; try done| |done].
      * apply W1.
      * by rewrite (wrote_masked _ _ _ _ W1).
      * lia.
      * rewrite (wrote_oflag _ _ _ _ W1). intros ret s2 (put & o2 & (k & part & -> & H) & I2 & W2 & H2). eexists _, (out ++ o2).
        split; [|split; [done|]; split; [by eapply wrote_trans|]; destruct H2; [by left|right; by eapply held_l]].
        exists (S k), part. simpl. rewrite (assoc_L app). split; [done|].
        simpl length in H. replace (n - Z.of_nat (length chars) + Z.of_nat k) with (n - Z.of_nat (S (length chars)) + Z.of_nat (S k)) in H by lia.
        destruct H as [(-> & H)|H]; [by left|by right].
Qed.

(** ** Writing as a whole *)

(** A write from [s] that has ended with the result [ret] in [s']. *)
Definition finished (nb : bool) (chars : list Z) (s : st) (ret : Z) (s' : st) : Prop := exists put out,
  reported (tc_oflag (dv s)) (negb nb) chars 0 ret put /\ wrote s s' put out /\
  (content (xmit (dv s')) = [] \/ ie (xmit (dv s')) = true) /\
  (ret = Z.of_nat (length chars) \/ held (negb nb) s s' put out).

(** Behind the loop: the interrupt is enabled if bytes are left, and the port released. *)
Lemma write_end_ok nb chars s s3 ret put out : wrote s s3 put out -> ie (xmit (dv s3)) = false ->
  reported (tc_oflag (dv s)) (negb nb) chars 0 ret put -> (ret = Z.of_nat (length chars) \/ held (negb nb) s s3 put out) ->
  swp (h ← rd (fun u => head (xmit u)); t ← rd (fun u => tail (xmit u));
       (if decide (h <> t) then txint true else mret ());; uart_givesem xmit_lock put_xmit_lock;; mret ret)
    (finished nb chars s) stuck s3.
Proof.
  intros W I3 R HW. apply swp_bind, swp_rd_w; [apply W|]. intros s4 o4 S4. apply swp_bind, swp_rd_w; [apply S4|]. intros s5 o5 S5.
  destruct (sends_quiet _ _ _ S4 (or_intror I3)) as (-> & I4 & _). rewrite I3 in I4. rewrite <- (sends_head _ _ _ S5).
  pose proof (wrote_trans _ _ _ _ _ _ _ W (sends_wrote _ _ _ (sends_trans _ _ _ _ _ S4 S5))) as W5. rewrite app_nil_r in W5.
  assert (Hfin : forall s6 o6, wrote s5 s6 [] o6 -> (content (xmit (dv s6)) = [] \/ ie (xmit (dv s6)) = true) ->
    swp (uart_givesem xmit_lock put_xmit_lock;; mret ret) (finished nb chars s) stuck s6).
  { intros s6 o6 W6 H6. apply swp_bind, swp_wr_w; [apply W6|]. intros s7 o7 S7. eexists. split; [done|]. apply swp_ret.
    pose proof (wrote_trans _ _ _ _ _ _ _ W5 (wrote_trans _ _ _ _ _ _ _ W6 (sends_wrote _ _ _ S7))) as W7. rewrite !app_nil_r in W7.
    eexists _, _. split; [exact R|]. split; [|split].
    - apply (wrote_change _ _ _ _ (set_lock (xmit_lock (dv s7) + 1) (xmit (dv s7))) _ W7); try done; [apply (sends_ready _ _ _ S7)|].
      by rewrite (wrote_masked _ _ _ _ W7).
    - change (content (xmit (dv s7)) = [] \/ ie (xmit (dv s7)) = true). destruct H6 as [H6|H6].
      + left. pose proof (sends_content _ _ _ S7) as C. rewrite H6 in C. by symmetry in C; apply app_eq_nil in C as [_ ?].
      + destruct (sends_ie _ _ _ S7 H6); auto.
    - destruct HW as [HW|HW]; [by left|right].
      pose proof (wrote_trans _ _ _ _ _ _ _ (sends_wrote _ _ _ (sends_trans _ _ _ _ _ S4 S5))
        (wrote_trans _ _ _ _ _ _ _ W6 (sends_wrote _ _ _ S7))) as W47.
      pose proof (held_r _ _ _ _ _ _ _ _ HW W47) as H7. rewrite (assoc_L app) in H7. exact H7. }
  case_decide as Hne; apply swp_bind.
  - apply swp_txint_on; [apply W5|]. intros s6 o6 W6 _ _ H6 _. by apply (Hfin s6 o6).
  - apply swp_ret, (Hfin s5 []); [by apply sends_wrote, sends_refl; apply W5|]. left.
    apply content_empty; [apply W5|]. destruct (decide (head (xmit (dv s5)) = tail (xmit (dv s5)))); [done|by destruct Hne].
Qed.

(** C13: [uart_write] against the interrupt handler, for every interleaving, when a task
    other than the idle task calls it outside of a critical section on a well-formed port
    that no other writer holds, and the other tasks leave the sending side alone, but for
    its lock: the call ends
    (or its task waits), and does nothing undefined.  What was in the buffer and what the
    call puts into it goes out on the line in this order, each byte once: what is not out
    yet is still in the buffer, and then the transmit interrupt is enabled.  The call
    puts the output for all its characters and returns their number, or it stops before,
    as [reported] says.  It stops only because the buffer was full ([held]: of what was
    there and what it put, all but as many bytes as the buffer holds were out at some
    moment), and, if it may wait, because a signal came during the call.  When it
    waits for ever, then the transmitter takes no more bytes, with the buffer full, the
    interrupt enabled and the task bound to be woken by the next byte sent. *)
Theorem uart_write_fifo fuel nb chars s :
  ready s -> masked s = false -> 0 < lock (xmit (dv s)) -> effort s + 4 * Z.of_nat (length chars) + 2 < Z.of_nat fuel ->
  match uart_write fuel false nb chars s with
  | Fine ret s' => exists put out,
      reported (tc_oflag (dv s)) (negb nb) chars 0 ret put /\
      wire (dv s') = wire (dv s) ++ out /\
      content (xmit (dv s)) ++ put = out ++ content (xmit (dv s')) /\
      (content (xmit (dv s')) = [] \/ ie (xmit (dv s')) = true) /\
      (ret = Z.of_nat (length chars) \/ held (negb nb) s s' put out)
  | Starved s' => stuck s'
  | Wrong | NoFuel => False
  end.
Proof.
  intros Hf Hm Hl He. cut (swp (uart_write fuel false nb chars) (finished nb chars s) stuck s).
  { unfold swp. destruct (uart_write fuel false nb chars s) as [ret s'| | |s']; try done.
    intros (put & out & R & W & I & H). exists put, out. split; [done|]. split; [apply W|]. split; [apply W|done]. }
  apply swp_bind, swp_bind. unfold swp at 1, wait_sem.
  assert (E : forall p u m, 0 < xmit_lock u -> wait_sem_loop xmit_lock put_xmit_lock p u m = Fine true (mkSt (put_xmit_lock (xmit_lock u - 1) u) p m)).
  { intros p u m Hlk. destruct p; simpl; by rewrite decide_True. }
  rewrite E by done. apply swp_ret. rewrite decide_False by done. set (s1 := mkSt _ _ _).
  assert (W1 : wrote s s1 [] []).
  { apply (wrote_change _ _ _ _ (set_lock (xmit_lock (dv s) - 1) (xmit (dv s))) _ (sends_wrote _ _ _ (sends_refl _ Hf))); try done. apply Hf. }
  change (effort s) with (effort s1) in He. apply swp_bind, swp_txint_off; [apply W1|]. intros s2 o2 W2 _ E2 I2 _.
  pose proof (wrote_trans _ _ _ _ _ _ _ W1 W2) as W. apply swp_bind. eapply swp_mono; [apply write_loop_ok| |done].
  - apply W2.
  - by rewrite (wrote_masked _ _ _ _ W2).
  - done.
  - lia.
  - intros ret s3 (put & o3 & R & I3 & W3 & H3). rewrite Z.sub_diag, (wrote_oflag _ _ _ _ W2) in R.
    apply (write_end_ok nb chars s s3 ret put (o2 ++ o3)); [apply (wrote_trans _ _ _ _ _ _ _ W W3)|done|done|].
    destruct H3 as [H3|H3]; [by left|right]. apply (held_l _ _ _ _ _ _ _ _ W H3).
Qed.

(** A console with buffers of four bytes and a slow transmitter; a signal comes while the
    task waits for room. *)
Definition empty_side : side := mkSide 2 2 4 [0; 0; 0; 0] false 0 1 true [].
Definition console_port : uart := mkUart empty_side (set_ie false empty_side) 0 (Z.lor OPOST ONLCR) true [0] ∅ 1 [] 0 [].
Definition slow_line : st := mkSt console_port (replicate 22 [] ++ [[Ready 1]; [Ready 1]; [Ready 2]; [Ready 9]]) false.
Definition signal_line : st := mkSt console_port ([Ready 1] :: replicate 60 [Signal]) false.
Definition dead_line : st := mkSt console_port [] false.

Lemma uart_write_fifo_witness :
  match uart_write 60 false false [65; 10; 66; 67] slow_line with
  | Fine ret s' => exists put out,
      reported (Z.lor OPOST ONLCR) true [65; 10; 66; 67] 0 ret put /\ wire (dv s') = out /\
      put = out ++ content (xmit (dv s')) /\ (content (xmit (dv s')) = [] \/ ie (xmit (dv s')) = true) /\
      (ret = 4 \/ held true slow_line s' put out)
  | Starved s' => stuck s'
  | Wrong | NoFuel => False
  end /\
  (exists s', uart_write 60 false false [65; 10; 66; 67] slow_line = Fine 4 s' /\ wire (dv s') ++ content (xmit (dv s')) = [65; 13; 10; 66; 67]) /\
  (exists s', uart_write 60 false false [65; 10; 66; 10] signal_line = Fine (- EINTR) s' /\ wire (dv s') ++ content (xmit (dv s')) = [65; 13; 10; 66]) /\
  (exists s', uart_write 60 false true [65; 10; 66; 67] dead_line = Fine 2 s' /\ wire (dv s') ++ content (xmit (dv s')) = [65; 13; 10]) /\
  (exists s', uart_write 60 false false [65; 10; 66; 67] dead_line = Starved s').
Proof.
  split_and!.
  - apply (uart_write_fifo 60 false [65; 10; 66; 67] slow_line).
    + split; [|split; [by repeat constructor|done]].
      split; [by vm_compute|]. split; [by vm_compute|]. constructor; [by left|constructor].
    + reflexivity.
    + reflexivity.
    + vm_compute; reflexivity.
  - eexists. split; [vm_compute; reflexivity|reflexivity].
  - eexists. split; [vm_compute; reflexivity|reflexivity].
  - eexists. split; [vm_compute; reflexivity|reflexivity].
  - eexists. vm_compute. reflexivity.
Defined.
