(* ===== verification/LidProg.v ===== *)
(** * Two tasks and one shared variable

    The tasks of src/apps/examples/lid_master run at the same priority and are
    pre-empted at any point; what they share is [GprsData.msgack].  A task is a
    tree of the calls it makes ([prog]): every access to the shared variable and
    every system call is a node, and what lies between two of them is private to
    the task.  A [conf] is the shared variable, what is left of the two tasks, and
    the acts so far; a step is one act of either.  The answers of the system calls
    are arbitrary within their documented ranges, and time does not appear: a
    sleep only lets the other task run, for as long as it likes.

    [awp] is the proof rule for one task: it follows the tree, carries an assertion
    about the acts of the task alone, and [awp_adequate] says that it holds in every
    interleaving. *)

From S2P Require Import Prelude Env Gpio.

(** ** Programs *)

(** What a task asks for, with the type of the answer. *)
Inductive call : Set -> Type :=
| Load : call Z
| Store (v : Z) : call ()
| Open (path : string) : call Z
| Write (fd : Z) (data : list Z) : call Z
| Read (fd n : Z) : call (option (list Z))
| Select (fds : list Z) (sec : Z) : call (list Z)
| Flush (fd : Z) : call ()
| Sleep (usec : Z) : call ()
| Board (cmd : board_cmd) : call ()
| Printf (text : list Z) : call ().

Inductive prog (A : Type) : Type :=
| Done (a : A)
| Crash
| Call {R : Set} (c : call R) (k : R -> prog A).
Arguments Done {A} a.
Arguments Crash {A}.
Arguments Call {A R} c k.

#[global] Instance prog_ret : MRet prog := fun A a => Done a.
Fixpoint prog_seq {A B} (k : A -> prog B) (p : prog A) : prog B :=
  match p with
  | Done a => k a
  | Crash => Crash
  | Call c k' => Call c (fun r => prog_seq k (k' r))
  end.
#[global] Instance prog_bind : MBind prog := fun A B k p => prog_seq k p.

Definition call_ {R : Set} (c : call R) : prog R := Call c Done.
Definition of_opt {A} (o : option A) : prog A := match o with Some a => Done a | None => Crash end.

(** One act: a call and its answer. Newest first in a history. *)
Inductive act :=
| Act {R : Set} (c : call R) (r : R).
Notation hist := (list act).

(** The answers a call can give: descriptors are below CONFIG_NFILE_DESCRIPTORS, a
    read delivers at most the bytes asked for, [select] leaves descriptors of the
    set it was given. *)
Definition legal {R : Set} (c : call R) : R -> Prop :=
  match c in call R return R -> Prop with
  | Open _ => fun r => -1 <= r < 16
  | Read _ n => fun r => match r with Some l => Z.of_nat (length l) <= n /\ bytes l | None => True end
  | Select fds _ => fun r => r ⊆ fds
  | _ => fun _ => True
  end.

(** The shared variable before and behind a call that answers [r]. *)
Definition loads {R : Set} (c : call R) (m : Z) : R -> Prop :=
  match c in call R return R -> Prop with
  | Load => fun r => r = m
  | _ => fun _ => True
  end.
Definition stores {R : Set} (c : call R) (m : Z) : Z :=
  match c with Store v => v | _ => m end.

(** One act of a program. *)
Definition pstep {A} (p : prog A) (m : Z) (a : act) (m' : Z) (p' : prog A) : Prop :=
  match p with
  | Call c k => exists r, legal c r /\ loads c m r /\ a = Act c r /\ m' = stores c m /\ p' = k r
  | _ => False
  end.

(** ** One task by itself *)

(** [awp I C Q p h]: from the history [h], [I] holds of the history at every point
    of [p], [C] where it does something undefined, [Q] where it ends. *)
Fixpoint awp {A} (I C : hist -> Prop) (Q : A -> hist -> Prop) (p : prog A) (h : hist) : Prop :=
  I h /\
  match p with
  | Done a => Q a h
  | Crash => C h
  | Call c k => forall r, legal c r -> awp I C Q (k r) (Act c r :: h)
  end.

Lemma awp_inv {A} I C (Q : A -> hist -> Prop) p h : awp I C Q p h -> I h.
Proof. destruct p; by intros [? _]. Qed.

Lemma awp_bind {A B} I C (Q : B -> hist -> Prop) (p : prog A) (k : A -> prog B) h :
  awp I C (fun a h' => awp I C Q (k a) h') p h -> awp I C Q (p ≫= k) h.
Proof.
  unfold mbind, prog_bind. revert h.
  induction p as [a| |R c k' IH]; intros h; cbn [awp prog_seq].
  - by intros [_ H].
  - done.
  - intros [HI H]. split; [done|]. intros r Hr. by apply IH, H.
Qed.

Lemma awp_mono {A} (I C : hist -> Prop) (Q R : A -> hist -> Prop) p h :
  awp I C Q p h -> (forall a h', I h' -> Q a h' -> R a h') -> awp I C R p h.
Proof.
  intros H HQ. revert h H.
  induction p as [a| |T c k IH]; intros h; cbn [awp]; intros [HI H]; (split; [done|]); [by apply HQ|done|].
  intros r Hr. by apply IH, H.
Qed.

Lemma awp_ret {A} (I C : hist -> Prop) (Q : A -> hist -> Prop) a h : I h -> Q a h -> awp I C Q (mret a) h.
Proof. by split. Qed.

Lemma awp_call {R : Set} (I C : hist -> Prop) (Q : R -> hist -> Prop) (c : call R) h :
  I h -> (forall r, legal c r -> I (Act c r :: h) /\ Q r (Act c r :: h)) -> awp I C Q (call_ c) h.
Proof. intros HI H. split; [done|]. intros r Hr. by apply H. Qed.

(** ** Two tasks *)

Inductive tid := Mon | Rdr.
#[global] Instance tid_eq_dec : EqDecision tid.
Proof. solve_decision. Defined.

Section tasks.
(** The second task goes round for ever: [turn] is one round, from its private
    state. *)
Context {B S : Type} (turn : S -> prog (option S)).

Record conf := mkConf {
  ack : Z;
  mon : prog B;
  rdr : prog (option S);
  acts : list (tid * act)
}.

Inductive step : conf -> conf -> Prop :=
| step_mon m p q l a m' p' : pstep p m a m' p' -> step (mkConf m p q l) (mkConf m' p' q ((Mon, a) :: l))
| step_rdr m p q l a m' q' : pstep q m a m' q' -> step (mkConf m p q l) (mkConf m' p q' ((Rdr, a) :: l))
| step_turn m p st l : step (mkConf m p (Done (Some st)) l) (mkConf m p (turn st) l).

Definition reach (c c' : conf) : Prop := rtc step c c'.

(** The acts of one task. *)
Fixpoint hist_of (t : tid) (l : list (tid * act)) : hist :=
  match l with
  | [] => []
  | (t', a) :: l => if decide (t' = t) then a :: hist_of t l else hist_of t l
  end.

(** What is proved of the tasks one by one holds in every interleaving. *)
Section adequacy.
Context (I C : hist -> Prop) (Q : B -> hist -> Prop).
Context (J D : hist -> Prop) (K : option S -> hist -> Prop).
Hypothesis Hturn : forall st h, K (Some st) h -> awp J D K (turn st) h.

Definition both (c : conf) : Prop :=
  awp I C Q (mon c) (hist_of Mon (acts c)) /\ awp J D K (rdr c) (hist_of Rdr (acts c)).

Lemma awp_step {A} I' C' (R : A -> hist -> Prop) p m a m' p' h :
  awp I' C' R p h -> pstep p m a m' p' -> awp I' C' R p' (a :: h).
Proof. destruct p; try done. intros [_ H] (r & Hr & _ & -> & _ & ->). by apply H. Qed.

Lemma awp_adequate c c' : reach c c' -> both c -> both c'.
Proof.
  induction 1 as [c|c1 c2 c3 Hs _ IH]; [done|]. intros [Hm Hr]. apply IH.
  inversion Hs; subst; split; simpl in *; try done.
  - by eapply awp_step.
  - by eapply awp_step.
  - by apply Hturn, Hr.
Qed.
End adequacy.

(** ** Running *)

(** What the outside world answers to the next call. *)
Record oracle := mkOracle { o_num : Z; o_text : option (list Z); o_ready : bool }.

Definition reply {R : Set} (c : call R) (m : Z) (o : oracle) : R :=
  match c in call R return R with
  | Load => m
  | Store _ => tt
  | Open _ => o_num o
  | Write _ _ => o_num o
  | Read _ _ => o_text o
  | Select fds _ => if o_ready o then fds else []
  | Flush _ => tt
  | Sleep _ => tt
  | Board _ => tt
  | Printf _ => tt
  end.

Definition good_oracle (o : oracle) : bool :=
  (-1 <=? o_num o) && (o_num o <? 16) &&
  match o_text o with Some l => (length l <=? 200)%nat && forallb (fun b => (0 <=? b) && (b <? 256)) l | None => true end.

(** Reads ask for 200 bytes at least. *)
Definition ample_read {R : Set} (c : call R) : bool := match c with Read _ n => 200 <=? n | _ => true end.

Definition advance {A} (p : prog A) (m : Z) (o : oracle) : option (act * Z * prog A) :=
  match p with
  | Call c k => if ample_read c && good_oracle o then Some (Act c (reply c m o), stores c m, k (reply c m o)) else None
  | _ => None
  end.

Definition move (c : conf) (t : tid) (o : oracle) : option conf :=
  match t with
  | Mon => '(a, m, p) ← advance (mon c) (ack c) o; Some (mkConf m p (rdr c) ((Mon, a) :: acts c))
  | Rdr =>
      match rdr c with
      | Done (Some st) => Some (mkConf (ack c) (mon c) (turn st) (acts c))
      | q => '(a, m, q') ← advance q (ack c) o; Some (mkConf m (mon c) q' ((Rdr, a) :: acts c))
      end
  end.

Fixpoint play (ms : list (tid * oracle)) (c : conf) : option conf :=
  match ms with
  | [] => Some c
  | (t, o) :: ms => c' ← move c t o; play ms c'
  end.

Lemma reply_legal {R : Set} (c : call R) m o : ample_read c = true -> good_oracle o = true -> legal c (reply c m o).
Proof.
  unfold good_oracle. rewrite !andb_true_iff. intros Ha [[H1 H2] H3].
  apply Z.leb_le in H1. apply Z.ltb_lt in H2.
  destruct c; simpl in *; try done.
  - destruct (o_text o) as [l|]; [|done]. apply andb_true_iff in H3 as [H3 H4].
    apply Z.leb_le in Ha. apply Nat.leb_le in H3. split; [lia|].
    apply Forall_forall. intros b Hb. rewrite forallb_forall in H4.
    specialize (H4 b ltac:(by apply list_elem_of_In)). apply andb_true_iff in H4 as [? ?].
    unfold is_byte. lia.
  - destruct (o_ready o); set_solver.
Qed.

Lemma reply_loads {R : Set} (c : call R) m o : loads c m (reply c m o).
Proof. by destruct c. Qed.

Lemma advance_pstep {A} (p : prog A) m o a m' p' : advance p m o = Some (a, m', p') -> pstep p m a m' p'.
Proof.
  destruct p as [x| |R c k]; try done. unfold advance. destruct (ample_read c && good_oracle o) eqn:E; [|done].
  apply andb_true_iff in E as [E1 E2]. intros [= <- <- <-]. exists (reply c m o).
  split_and!; try done; [by apply reply_legal|by apply reply_loads].
Qed.

Lemma move_step c t o c' : move c t o = Some c' -> step c c'.
Proof.
  destruct c as [m p q l], t; unfold move; cbn [mon rdr ack acts].
  - destruct (advance p m o) as [[[a m'] p']|] eqn:E; [|done]. intros [= <-]. by apply step_mon, (advance_pstep _ _ o).
  - assert (forall q0, (('(a, m, q') ← advance q0 m o; Some (mkConf m p q' ((Rdr, a) :: l))) = Some c') ->
      step (mkConf m p q0 l) c') as H.
    { intros q0. destruct (advance q0 m o) as [[[a m'] q']|] eqn:E; [|done]. intros [= <-]. by apply step_rdr, (advance_pstep _ _ o). }
    destruct q as [[st|]| |R c0 k]; try apply H. intros [= <-]. constructor.
Qed.

(** A run that can be played is one of the system. *)
Lemma play_reach ms : forall c c', play ms c = Some c' -> reach c c'.
Proof.
  induction ms as [|[t o] ms IH]; intros c c'; simpl; [intros [= ->]; constructor|].
  destruct (move c t o) as [c1|] eqn:E; [|done]. intros H.
  eapply rtc_l; [by apply (move_step _ t o)|by apply IH].
Qed.
End tasks.
Arguments mkConf {B S} ack mon rdr acts.
Arguments ack {B S} c.
Arguments mon {B S} c.
Arguments rdr {B S} c.
Arguments acts {B S} c.
