(* ===== verification/LidGprs.v ===== *)
(** * The GPRS modem of the lock controller

    Models task_monitor.c, task_gprs.c and lid_master.c of
    src/apps/examples/lid_master: [master_monitor] brings the modem up with a
    dialogue of commands, [master_gprs] reads what the modem says; the second tells
    the first through the shared [GprsData.msgack]. Of the console output the two
    messages of [master_monitor] are kept.

    Not modelled: the messages to the server ([gprs_warn_upload] and the like) and
    the use of its answers, which nothing reaches: [rcvmsg_ok] is zero and only
    commented-out lines assign it. *)

From S2P Require Import Prelude CString Env Gpio NbAt LidProg.

(** ** The monitor *)

Definition NOACK : Z := 0.
Definition ACK : Z := 1.
Definition REGOK : Z := 2.
Definition CONNECT : Z := 3.
Definition FAIL : Z := 0.
Definition SUCCESS : Z := 1.
Definition CONFIG_EXAMPLES_GPRS_DEVPATH : string := "/dev/ttyS1".
Definition CONFIG_EXAMPLES_RTC_DEVPATH : string := "/dev/rtc0".

Definition crlf (s : string) : list Z := bs s ++ [13; 10].

(** [while (gprs->msgack != want) { body; if (cnt++ > lim) { gprs->msgack = NOACK;
    return FAIL; } }] and the two lines behind it, for [n] rounds at most. *)
Fixpoint ack_loop (n : nat) (cnt lim want : Z) (body : prog ()) : prog Z :=
  match n with
  | O => Crash
  | S n =>
      v ← call_ Load;
      if decide (v = want) then call_ (Store NOACK);; mret SUCCESS
      else
        body;;
        if decide (lim < cnt) then call_ (Store NOACK);; mret FAIL
        else ack_loop n (cnt + 1) lim want body
  end.

(** The command written in every round, and the pause behind it. *)
Definition write_and_wait (fd : Z) (cmd : list Z) (usec : Z) : prog () :=
  call_ (Write fd cmd);; call_ (Sleep usec).

Definition set_sconType (fd : Z) : prog Z :=
  call_ (Store NOACK);; ack_loop 12 0 10 ACK (write_and_wait fd (crlf "AT^SICS=0,conType,GPRS0") 500000).

Definition set_apn (fd : Z) : prog Z :=
  call_ (Store NOACK);; ack_loop 12 0 10 ACK (write_and_wait fd (crlf "AT^SICS=0,apn,cment") 500000).

Definition set_srvType (fd : Z) : prog Z :=
  call_ (Store NOACK);; ack_loop 12 0 10 ACK (write_and_wait fd (crlf "AT^SISS=0,srvType,Transparent") 500000).

Definition set_srvType_socket (fd : Z) : prog Z :=
  call_ (Store NOACK);; ack_loop 12 0 10 ACK (write_and_wait fd (crlf "AT^SISS=0,srvType,Socket") 500000).

Definition set_conId (fd : Z) : prog Z :=
  call_ (Store NOACK);; ack_loop 12 0 10 ACK (write_and_wait fd (crlf "AT^SISS=0,conId,0") 500000).

Definition set_address (fd : Z) : prog Z :=
  call_ (Store NOACK);;
  ack_loop 12 0 10 ACK (write_and_wait fd (crlf "AT^SISS=0,address,socktcp://220.249.21.130:1153") 500000).

Definition into_establish (fd : Z) : prog Z :=
  call_ (Store NOACK);;
  call_ (Write fd (crlf "AT^SISO=0"));;
  ack_loop 32 0 30 ACK (call_ (Sleep 1000000)).

Definition into_transparent (fd : Z) : prog Z :=
  call_ (Store NOACK);; ack_loop 12 0 10 CONNECT (write_and_wait fd (crlf "AT^SIST=0") 500000).

Definition gprs_tcpinit (fd : Z) : prog Z :=
  ret ← set_sconType fd;
  if decide (ret = FAIL) then mret FAIL else
  ret ← set_apn fd;
  if decide (ret = FAIL) then mret FAIL else
  ret ← set_srvType fd;
  if decide (ret = FAIL) then mret FAIL else
  ret ← set_conId fd;
  if decide (ret = FAIL) then mret FAIL else
  ret ← set_address fd;
  if decide (ret = FAIL) then mret FAIL else
  ret ← into_establish fd;
  if decide (ret = FAIL) then mret FAIL else
  ret ← into_transparent fd;
  if decide (ret = FAIL) then mret FAIL else
  mret SUCCESS.

Definition gprs_tcpinit2 (fd : Z) : prog Z :=
  ret ← set_sconType fd;
  if decide (ret = FAIL) then mret FAIL else
  ret ← set_apn fd;
  if decide (ret = FAIL) then mret FAIL else
  ret ← set_srvType_socket fd;
  if decide (ret = FAIL) then mret FAIL else
  ret ← set_conId fd;
  if decide (ret = FAIL) then mret FAIL else
  ret ← set_address fd;
  if decide (ret = FAIL) then mret FAIL else
  ret ← into_establish fd;
  if decide (ret = FAIL) then mret FAIL else
  mret SUCCESS.

Definition gprs_register (fd : Z) : prog Z :=
  call_ (Store NOACK);; ack_loop 62 0 60 REGOK (write_and_wait fd (crlf "AT+CREG?") 1000000).

Definition gprs_rst (fd : Z) : prog Z :=
  call_ (Board BOARDIOC_GPRS_PWROFF);;
  call_ (Sleep 500000);;
  call_ (Board BOARDIOC_GPRS_PWRON);;
  call_ (Sleep 500000);;
  call_ (Board BOARDIOC_GPRS_WAKEUP);;
  call_ (Sleep 2000000);;
  call_ (Write fd (crlf "AT^SSYNC=1"));;
  ret ← gprs_register fd;
  if decide (ret = SUCCESS) then
    ret ← gprs_tcpinit fd;
    if decide (ret = FAIL) then mret FAIL else mret SUCCESS
  else mret FAIL.

(** The text on the console. *)
Definition outcome_text (ret : Z) : list Z :=
  if decide (ret = SUCCESS) then bs "GPRS OK" ++ [10] else bs "GPRS ERROR" ++ [10].

(** A failed [open] is reported, and the dialogue goes on with the descriptor -1. *)
Definition master_monitor : prog Z :=
  fd_gprs_copy ← call_ (Open CONFIG_EXAMPLES_GPRS_DEVPATH);
  ret ← gprs_rst fd_gprs_copy;
  call_ (Printf (outcome_text ret));;
  mret 1.

(** ** The reader *)

(** Its private state: the descriptor. *)
Notation gprs := Z (only parsing).

(** [while((pcTempBuf[++cCharNum] = strtok(NULL, pChar)) != NULL) usleep(1000);] with
    [room] elements of [pcTempBuf] left: the pointers stored, and the text. *)
Fixpoint strtok_rest (room : nat) (a : list Z) (save : option Z) : prog (list Z * list Z) :=
  match room with
  | O => Crash
  | S room =>
      '(r, a', save') ← of_opt (strtok_r a None (lit ",") save);
      match r with
      | None => mret ([], a')
      | Some p =>
          call_ (Sleep 1000);;
          '(ps, a'') ← strtok_rest room a' save';
          mret (p :: ps, a'')
      end
  end.

(** The branch of an answer to [AT+CREG?]: [char CREG = pcTempBuf[1][0]]. *)
Definition read_creg (cArray : list Z) : prog () :=
  '(p0, a, save) ← of_opt (strtok_r cArray (Some 0) (lit ",") None);
  '(ps, a) ← strtok_rest 199 a save;
  match ps with
  | [] => Crash
  | p :: _ =>
      CREG ← of_opt (aget a p);
      if decide (CREG = 49 \/ CREG = 53) then call_ (Store REGOK) else mret ()
  end.

(** One round of [while(1)]. *)
Definition gprs_turn (fd_gprs : gprs) : prog (option gprs) :=
  if decide (fd_set_ok fd_gprs) then
    rfds ← call_ (Select [fd_gprs] 60);
    if decide (fd_gprs ∈ rfds) then
      call_ (Sleep 300000);;
      r ← call_ (Read fd_gprs 200);
      let cArray := fill 200 r in
      call_ (Flush fd_gprs);;
      of_opt (strlen cArray);;
      creg ← of_opt (strstr cArray (lit "+CREG:"));
      (match creg with
       | Some _ => read_creg cArray
       | None =>
           connect ← of_opt (strstr cArray (lit "CONNECT"));
           match connect with
           | Some _ => call_ (Store CONNECT)
           | None =>
               ok ← of_opt (strstr cArray (lit "OK"));
               match ok with Some _ => call_ (Store ACK) | None => mret () end
           end
       end);;
      mret (Some fd_gprs)
    else mret (Some fd_gprs)
  else Crash.

(** Up to the loop. *)
Definition master_gprs : prog (option gprs) :=
  call_ (Store NOACK);;
  fd_gprs ← call_ (Open CONFIG_EXAMPLES_GPRS_DEVPATH);
  if decide (fd_gprs < 0) then mret None else
  call_ (Open CONFIG_EXAMPLES_RTC_DEVPATH);;
  mret (Some fd_gprs).

(** ** The application *)

(** [lid_master_main]: the exit code and the tasks started, in order; [create] is what
    [task_create] answers. *)
Definition lid_master_main (create : string -> Z) : Z * list string :=
  if decide (create "master_monitor" < 0) then (EXIT_FAILURE, [])
  else if decide (create "gprs" < 0) then (EXIT_FAILURE, ["master_monitor"%string])
  else (EXIT_SUCCESS, ["master_monitor"%string; "gprs"%string]).

(** Both tasks started: [GprsData] is in the zeroed data of the program. *)
Definition lid_start : conf (B:=Z) (S:=gprs) := mkConf 0 master_monitor master_gprs [].
Notation lid_conf := (conf (B:=Z) (S:=gprs)).
Definition lid_reach (c : lid_conf) : Prop := reach gprs_turn lid_start c.

(** ** What the monitor does *)

(** A step of the dialogue: commands written once at its start, the command of every
    round, the pause of a round, the answer that ends it, and the rounds after which
    it is given up. *)
Record ask := mkAsk { a_once : list (list Z); a_cmd : list (list Z); a_pause : Z; a_want : Z; a_rounds : nat }.

Definition writes (fd : Z) (cmds : list (list Z)) (h : hist) : Prop :=
  exists rs, length rs = length cmds /\ h = rev (zip_with (fun c r => Act (Write fd c) r) cmds rs).

(** [n] rounds that did not find the answer. *)
Inductive rounds (fd : Z) (a : ask) : nat -> hist -> Prop :=
| rounds_0 : rounds fd a 0 []
| rounds_S n v w h : v <> a_want a -> writes fd (a_cmd a) w -> rounds fd a n h ->
    rounds fd a (S n) (Act (Sleep (a_pause a)) tt :: w ++ Act Load v :: h).

(** A step that succeeds finds its answer before the last round; one that fails has
    made all its rounds. *)
Definition exchange (fd : Z) (a : ask) (ret : Z) (h : hist) : Prop :=
  exists n w hr, writes fd (a_once a) w /\ rounds fd a n hr /\
    ((ret = SUCCESS /\ (n < a_rounds a)%nat /\
      h = Act (Store NOACK) tt :: Act Load (a_want a) :: hr ++ w ++ [Act (Store NOACK) tt]) \/
     (ret = FAIL /\ n = a_rounds a /\ h = Act (Store NOACK) tt :: hr ++ w ++ [Act (Store NOACK) tt])).

(** The steps in order, up to the first that fails. *)
Fixpoint dialogue (fd : Z) (l : list ask) (ret : Z) (h : hist) : Prop :=
  match l with
  | [] => ret = SUCCESS /\ h = []
  | a :: l =>
      (exchange fd a FAIL h /\ ret = FAIL) \/
      (exists h1 h2, exchange fd a SUCCESS h1 /\ dialogue fd l ret h2 /\ h = h2 ++ h1)
  end.

Definition register_ask : ask := mkAsk [] [crlf "AT+CREG?"] 1000000 REGOK 62.
Definition config_ask (cmd : string) : ask := mkAsk [] [crlf cmd] 500000 ACK 12.
Definition establish_ask : ask := mkAsk [crlf "AT^SISO=0"] [] 1000000 ACK 32.
Definition transparent_ask : ask := mkAsk [] [crlf "AT^SIST=0"] 500000 CONNECT 12.

Definition tcp_asks : list ask :=
  [config_ask "AT^SICS=0,conType,GPRS0"; config_ask "AT^SICS=0,apn,cment";
   config_ask "AT^SISS=0,srvType,Transparent"; config_ask "AT^SISS=0,conId,0";
   config_ask "AT^SISS=0,address,socktcp://220.249.21.130:1153"; establish_ask; transparent_ask].
Definition modem_asks : list ask := register_ask :: tcp_asks.

(** What a task that only resets the variable keeps, with at most [n] acts. *)
Definition store_of (a : act) : option Z :=
  match a with Act c _ => match c with Store v => Some v | _ => None end end.
Definition quiet (n : nat) (h : hist) : Prop :=
  Forall (fun a => store_of a = None \/ store_of a = Some NOACK) h /\ (length h <= n)%nat.

Definition ask_cost (a : ask) : nat :=
  (3 + length (a_once a) + a_rounds a * (2 + length (a_cmd a)))%nat.

Lemma writes_length fd cmds h : writes fd cmds h -> length h = length cmds.
Proof. intros (rs & Hl & ->). rewrite length_rev, length_zip_with. lia. Qed.

Lemma rounds_length fd a n h : rounds fd a n h -> length h = (n * (2 + length (a_cmd a)))%nat.
Proof.
  induction 1 as [|n v w h _ Hw _ IH]; [done|]. simpl. rewrite length_app, (writes_length _ _ _ Hw). simpl. lia.
Qed.

Lemma exchange_length fd a ret h : exchange fd a ret h -> (length h <= ask_cost a)%nat.
Proof.
  intros (n & w & hr & Hw & Hr & H). apply writes_length in Hw. apply rounds_length in Hr. unfold ask_cost.
  assert (n <= a_rounds a)%nat by (destruct H as [(_ & ? & _)|(_ & -> & _)]; lia).
  destruct H as [(_ & _ & ->)|(_ & _ & ->)]; simpl; rewrite !length_app; simpl; nia.
Qed.

Section monitor.
(** The acts the whole task may make. *)
Context (N : nat).
Notation mwp := (awp (quiet N) (fun _ => False)).

Definition harmless {R : Set} (c : call R) : Prop := match c with Store v => v = NOACK | _ => True end.

Lemma quiet_cons {R : Set} (c : call R) r h :
  harmless c -> quiet N h -> (length h < N)%nat -> quiet N (Act c r :: h).
Proof.
  intros Hc [H _] Hn. split; [|simpl; lia]. constructor; [|done].
  destruct c; simpl; try (by left). right. by rewrite Hc.
Qed.

(** A call of a program, the rest behind it. *)
Lemma mwp_call {A} {R : Set} (c : call R) (k : R -> prog A) Q h :
  harmless c -> quiet N h -> (length h < N)%nat ->
  (forall r, legal c r -> quiet N (Act c r :: h) -> mwp Q (k r) (Act c r :: h)) ->
  mwp Q (call_ c ≫= k) h.
Proof.
  intros Hc Hq Hn Hk. split; [done|]. intros r Hr. apply Hk; [done|]. by apply quiet_cons.
Qed.

(** The loop. [m] acts for a round, apart from the load. *)
Lemma mwp_loop fd a lim body :
  (forall h, quiet N h -> (length h + (1 + length (a_cmd a)) <= N)%nat ->
    mwp (fun _ h' => exists w, writes fd (a_cmd a) w /\ h' = Act (Sleep (a_pause a)) tt :: w ++ h) body h) ->
  forall n cnt h, Z.of_nat n = lim + 2 - cnt -> 0 <= lim + 1 - cnt ->
    quiet N h -> (length h + (n * (2 + length (a_cmd a)) + 1) <= N)%nat ->
    mwp (fun ret h' => exists k hr, rounds fd a k hr /\
      ((ret = SUCCESS /\ (k < n)%nat /\ h' = Act (Store NOACK) tt :: Act Load (a_want a) :: hr ++ h) \/
       (ret = FAIL /\ k = n /\ h' = Act (Store NOACK) tt :: hr ++ h)))
      (ack_loop n cnt lim (a_want a) body) h.
Proof.
  intros Hbody. set (m := (1 + length (a_cmd a))%nat) in *. change (2 + length (a_cmd a))%nat with (S m).
  induction n as [|n IH]; intros cnt h Hn Hc Hq Hl; [lia|]. cbn [ack_loop].
  apply mwp_call; [done|done|nia|]. intros v _ Hq1. case_decide as Hv.
  - subst v. apply mwp_call; [done|done|simpl; nia|]. intros [] _ Hq2. apply awp_ret; [done|].
    exists 0%nat, []. split; [constructor|]. left. split_and!; [done|lia|done].
  - apply awp_bind. eapply awp_mono; [apply Hbody; [done|simpl; nia]|].
    intros [] h1 Hq2 (w & Hw & ->). pose proof (writes_length _ _ _ Hw) as Hlw. case_decide as Hlim.
    + apply mwp_call; [done|done|simpl; rewrite length_app; simpl; nia|]. intros [] _ Hq3. apply awp_ret; [done|].
      exists 1%nat, (Act (Sleep (a_pause a)) tt :: w ++ [Act Load v]). split; [by repeat constructor|]. right.
      split_and!; [done|lia|]. simpl. by rewrite <- (assoc_L app).
    + eapply awp_mono; [apply IH; [lia|lia|done|simpl; rewrite length_app; simpl; nia]|].
      intros ret h2 _ (k & hr & Hk & Hcase).
      exists (S k), (hr ++ Act (Sleep (a_pause a)) tt :: w ++ [Act Load v]). split.
      { clear -Hk Hw Hv. induction Hk as [|k v' w' h' Hv' Hw' _ IH]; simpl.
        - by repeat constructor.
        - rewrite <- (assoc_L app). by constructor. }
      destruct Hcase as [(-> & ? & ->)|(-> & -> & ->)]; [left|right]; (split_and!; [done|lia|]);
        simpl; rewrite <- !(assoc_L app); simpl; by rewrite <- (assoc_L app).
Qed.

(** A step of the dialogue, from any history. *)
Definition asks (fd : Z) (a : ask) (p : prog Z) : Prop :=
  forall h, quiet N h -> (length h + ask_cost a <= N)%nat ->
    mwp (fun ret h' => exists new, h' = new ++ h /\ exchange fd a ret new) p h.

Lemma write_and_wait_ok fd cmd usec h : quiet N h -> (length h + 2 <= N)%nat ->
  mwp (fun _ h' => exists w, writes fd [cmd] w /\ h' = Act (Sleep usec) tt :: w ++ h) (write_and_wait fd cmd usec) h.
Proof.
  intros Hq Hl. apply mwp_call; [done|done|lia|]. intros r _ Hq1.
  apply awp_call; [done|]. intros [] _. split; [apply quiet_cons; [done|done|simpl; lia]|].
  exists [Act (Write fd cmd) r]. split; [|done]. by exists [r].
Qed.

(** A loop behind the writes [w] ends a step. *)
Lemma exchange_of fd a ret k hr w h h' : writes fd (a_once a) w -> rounds fd a k hr ->
  ((ret = SUCCESS /\ (k < a_rounds a)%nat /\
    h' = Act (Store NOACK) tt :: Act Load (a_want a) :: hr ++ w ++ Act (Store NOACK) tt :: h) \/
   (ret = FAIL /\ k = a_rounds a /\ h' = Act (Store NOACK) tt :: hr ++ w ++ Act (Store NOACK) tt :: h)) ->
  exists new, h' = new ++ h /\ exchange fd a ret new.
Proof.
  intros Hw Hr [(-> & Hk & ->)|(-> & -> & ->)].
  - exists (Act (Store NOACK) tt :: Act Load (a_want a) :: hr ++ w ++ [Act (Store NOACK) tt]).
    split; [simpl; by rewrite <- !(assoc_L app)|]. exists k, w, hr. by split_and!; [| |left].
  - exists (Act (Store NOACK) tt :: hr ++ w ++ [Act (Store NOACK) tt]).
    split; [simpl; by rewrite <- !(assoc_L app)|]. exists (a_rounds a), w, hr. by split_and!; [| |right].
Qed.

Lemma asks_loop fd a lim cmd :
  a_cmd a = [cmd] -> a_once a = [] -> Z.of_nat (a_rounds a) = lim + 2 -> 0 <= lim ->
  asks fd a (call_ (Store NOACK);; ack_loop (a_rounds a) 0 lim (a_want a) (write_and_wait fd cmd (a_pause a))).
Proof.
  intros Hcmd Honce Hr Hlim h Hq Hl. unfold ask_cost in Hl. rewrite Hcmd, Honce in Hl. simpl in Hl.
  apply mwp_call; [done|done|lia|]. intros [] _ Hq1.
  eapply awp_mono; [apply (mwp_loop fd a)|].
  - rewrite Hcmd. intros h1 Hq2 Hl2. apply write_and_wait_ok; [done|]. simpl in Hl2. lia.
  - lia.
  - lia.
  - done.
  - rewrite Hcmd. simpl. lia.
  - intros ret h2 _ (k & hr & Hk & Hcase). apply (exchange_of _ _ _ k hr []); [rewrite Honce; by exists []|done..].
Qed.

Lemma establish_ok fd : asks fd establish_ask (into_establish fd).
Proof.
  intros h Hq Hl. unfold ask_cost in Hl. simpl in Hl.
  apply mwp_call; [done|done|lia|]. intros [] _ Hq1. apply mwp_call; [done|done|simpl; lia|]. intros r _ Hq2.
  eapply awp_mono; [apply (mwp_loop fd establish_ask)|].
  - intros h1 Hq3 Hl2. simpl in Hl2. apply awp_call; [done|]. intros [] _.
    split; [apply quiet_cons; [done|done|lia]|]. exists []. split; [by exists []|done].
  - done.
  - done.
  - done.
  - simpl. lia.
  - intros ret h2 _ (k & hr & Hk & Hcase).
    apply (exchange_of _ _ _ k hr [Act (Write fd (crlf "AT^SISO=0")) r]); [by exists [r]|done..].
Qed.

Lemma config_ok fd (cmd : string) :
  asks fd (config_ask cmd) (call_ (Store NOACK);; ack_loop 12 0 10 ACK (write_and_wait fd (crlf cmd) 500000)).
Proof. by apply (asks_loop fd (config_ask cmd) 10 (crlf cmd)). Qed.

Lemma transparent_ok fd : asks fd transparent_ask (into_transparent fd).
Proof. by apply (asks_loop fd transparent_ask 10 (crlf "AT^SIST=0")). Qed.

Lemma register_ok fd : asks fd register_ask (gprs_register fd).
Proof. by apply (asks_loop fd register_ask 60 (crlf "AT+CREG?")). Qed.

Definition dialogue_cost (l : list ask) : nat := sum_list_with ask_cost l.

(** A step and the ones behind it. *)
Lemma dialogue_cons fd a l p (k : Z -> prog Z) h :
  asks fd a p -> quiet N h -> (length h + dialogue_cost (a :: l) <= N)%nat ->
  (forall h1, quiet N h1 -> mwp (fun ret h' => ret = FAIL /\ h' = h1) (k FAIL) h1) ->
  (forall h1, quiet N h1 -> (length h1 + dialogue_cost l <= N)%nat ->
    mwp (fun ret h' => exists new, h' = new ++ h1 /\ dialogue fd l ret new) (k SUCCESS) h1) ->
  mwp (fun ret h' => exists new, h' = new ++ h /\ dialogue fd (a :: l) ret new) (p ≫= k) h.
Proof.
  intros Hp Hq Hl Hfail Hgo. change (dialogue_cost (a :: l)) with (ask_cost a + dialogue_cost l)%nat in Hl.
  apply awp_bind.
  eapply awp_mono; [apply Hp; [done|lia]|]. intros ret h1 Hq1 (new & -> & Hex).
  assert (ret = SUCCESS \/ ret = FAIL) as [-> | ->].
  { destruct Hex as (? & ? & ? & _ & _ & [(-> & _)|(-> & _)]); eauto. }
  - pose proof (exchange_length _ _ _ _ Hex).
    eapply awp_mono; [apply Hgo; [done|rewrite length_app; lia]|].
    intros ret h2 _ (new2 & -> & Hd). exists (new2 ++ new). split; [by rewrite (assoc_L app)|]. right. eauto.
  - eapply awp_mono; [by apply Hfail|]. intros ret h2 _ (-> & ->). exists new. split; [done|]. by left.
Qed.

(** The first step of a dialogue, and the dialogue behind it. *)
Ltac next_ask :=
  intros ? ? ?; eapply dialogue_cons;
    [|eassumption|eassumption|by intros ? ?; rewrite decide_True by done; apply awp_ret|rewrite decide_False by done].

Lemma tcpinit_ok fd : forall h, quiet N h -> (length h + dialogue_cost tcp_asks <= N)%nat ->
  mwp (fun ret h' => exists new, h' = new ++ h /\ dialogue fd tcp_asks ret new) (gprs_tcpinit fd) h.
Proof.
  unfold gprs_tcpinit, tcp_asks.
  do 5 (next_ask; [apply config_ok|]). next_ask; [apply establish_ok|]. next_ask; [apply transparent_ok|].
  intros ? ? ?. apply awp_ret; [done|]. by exists [].
Qed.

Lemma dialogue_length fd l ret h : dialogue fd l ret h -> (length h <= dialogue_cost l)%nat.
Proof.
  revert h. induction l as [|a l IH]; intros h; [by intros [_ ->]|].
  change (dialogue_cost (a :: l)) with (ask_cost a + dialogue_cost l)%nat.
  intros [[H _]|(h1 & h2 & H & Hd & ->)]; apply exchange_length in H; [lia|].
  rewrite length_app. specialize (IH _ Hd). lia.
Qed.

(** The acts before the dialogue. *)
Definition power_on (fd w : Z) : hist :=
  [Act (Write fd (crlf "AT^SSYNC=1")) w; Act (Sleep 2000000) tt; Act (Board BOARDIOC_GPRS_WAKEUP) tt;
   Act (Sleep 500000) tt; Act (Board BOARDIOC_GPRS_PWRON) tt; Act (Sleep 500000) tt; Act (Board BOARDIOC_GPRS_PWROFF) tt].

Lemma dialogue_ret fd l ret h : dialogue fd l ret h -> ret = SUCCESS \/ ret = FAIL.
Proof.
  revert h. induction l as [|a l IH]; intros h; [by intros [-> _]; left|].
  intros [[_ ->]|(h1 & h2 & _ & H & _)]; [by right|by apply (IH h2)].
Qed.

Lemma rst_ok fd h : quiet N h -> (length h + (7 + dialogue_cost modem_asks) <= N)%nat ->
  mwp (fun ret h' => exists w new, h' = new ++ power_on fd w ++ h /\ dialogue fd modem_asks ret new) (gprs_rst fd) h.
Proof.
  intros Hq Hl. unfold gprs_rst.
  do 6 (apply mwp_call; [done|done|cbn [length]; lia|]; clear Hq; intros [] _ Hq).
  apply mwp_call; [done|done|cbn [length]; lia|]. intros w _ Hq1.
  eapply awp_mono; [eapply (dialogue_cons fd register_ask tcp_asks)|].
  - apply register_ok.
  - done.
  - change (dialogue_cost (register_ask :: tcp_asks)) with (dialogue_cost modem_asks). cbn [length]. lia.
  - intros h1 Hq2. rewrite decide_False by done. by apply awp_ret.
  - intros h1 Hq2 Hl2. rewrite decide_True by done. apply awp_bind.
    eapply awp_mono; [by apply tcpinit_ok|]. intros ret h2 Hq3 (new & -> & Hd).
    pose proof (dialogue_ret _ _ _ _ Hd) as [-> | ->]; case_decide; try done; apply awp_ret; eauto.
  - intros ret h2 _ (new & -> & Hd). exists w, new. split; [done|exact Hd].
Qed.

(** Everything the monitor has done when it ends. *)
Definition monitor_did (r : Z) (h : hist) : Prop :=
  r = 1 /\ exists fd w ret new, dialogue fd modem_asks ret new /\
    h = Act (Printf (outcome_text ret)) tt :: new ++ power_on fd w ++ [Act (Open CONFIG_EXAMPLES_GPRS_DEVPATH) fd].

Lemma monitor_ok : (9 + dialogue_cost modem_asks <= N)%nat -> mwp monitor_did master_monitor [].
Proof.
  intros Hl. unfold master_monitor. assert (Hq : quiet N []) by by split; [constructor|simpl; lia].
  apply mwp_call; [done|done|simpl; lia|]. intros fd _ Hq1. apply awp_bind.
  eapply awp_mono; [apply rst_ok; [done|cbn [length]; lia]|]. intros ret h Hq2 (w & new & -> & Hd).
  pose proof (dialogue_length _ _ _ _ Hd) as Hnew.
  apply mwp_call; [done|done|rewrite !length_app; simpl; lia|]. intros [] _ Hq3. apply awp_ret; [done|].
  split; [done|]. eauto 8.
Qed.
End monitor.

(** ** What the reader does *)

(** What a text from the modem says: the number stored, nothing, or text the reader
    cannot handle. *)
Inductive verdict := Says (v : Z) | Silent | Wild.

Definition verdict_of (s : list Z) : verdict :=
  if contains (bs "+CREG:") s then
    match tokens [44] s with
    | _ :: (c :: _) :: _ => if decide (c = 49 \/ c = 53) then Says REGOK else Silent
    | _ => Wild
    end
  else if contains (bs "CONNECT") s then Says CONNECT
  else if contains (bs "OK") s then Says ACK
  else Silent.

(** What a read of 200 bytes says: it must leave room for a NUL. *)
Definition read_says (r : option (list Z)) : verdict :=
  match c_str (fill 200 r) with Some s => verdict_of s | None => Wild end.

Definition read_of (a : act) : option (option (list Z)) :=
  match a with
  | Act c r => match c in call R return R -> option (option (list Z)) with Read _ _ => fun r => Some r | _ => fun _ => None end r
  end.

(** The texts read and the numbers stored by a task, oldest first. *)
Fixpoint texts (h : hist) : list (option (list Z)) :=
  match h with
  | [] => []
  | a :: h => match read_of a with Some r => texts h ++ [r] | None => texts h end
  end.
Fixpoint stored (h : hist) : list Z :=
  match h with
  | [] => []
  | a :: h => match store_of a with Some v => if decide (v = NOACK) then stored h else stored h ++ [v] | None => stored h end
  end.

(** What the texts say. *)
Definition saying (r : option (list Z)) : option Z := match read_says r with Says v => Some v | _ => None end.
Definition said (h : hist) : list Z := omap saying (texts h).

(** The reader has stored what the texts said, but perhaps for the last. *)
Definition keeps_up (h : hist) : Prop := stored h = said h \/ exists v, said h = stored h ++ [v].

(** It is undone by the last text alone. *)
Definition overrun (h : hist) : Prop := exists r l, texts h = l ++ [r] /\ read_says r = Wild.

Definition between_turns (st : option gprs) (h : hist) : Prop :=
  stored h = said h /\ match st with Some fd => 0 <= fd < 16 | None => True end.

Notation rwp := (awp keeps_up overrun).

(** Calls that neither read nor store. *)
Definition idle {R : Set} (c : call R) : Prop := match c with Store _ | Read _ _ => False | _ => True end.
Lemma idle_texts {R : Set} (c : call R) r h : idle c -> texts (Act c r :: h) = texts h.
Proof. by destruct c. Qed.
Lemma idle_stored {R : Set} (c : call R) r h : idle c -> stored (Act c r :: h) = stored h.
Proof. by destruct c. Qed.

(** Two histories alike. *)
Definition alike (h h' : hist) : Prop := texts h' = texts h /\ stored h' = stored h.
Lemma alike_keeps h h' : alike h h' -> keeps_up h -> keeps_up h'.
Proof. intros [Ht Hs]. unfold keeps_up, said. by rewrite Ht, Hs. Qed.
Lemma alike_trans h1 h2 h3 : alike h1 h2 -> alike h2 h3 -> alike h1 h3.
Proof. intros [? ?] [? ?]. split; congruence. Qed.

Lemma rwp_idle {A} {R : Set} (c : call R) (k : R -> prog A) Q h :
  idle c -> keeps_up h ->
  (forall r h', legal c r -> alike h h' -> keeps_up h' -> rwp Q (k r) h') -> rwp Q (call_ c ≫= k) h.
Proof.
  intros Hc Hk H. split; [done|]. intros r Hr.
  assert (alike h (Act c r :: h)) by (split; [by apply idle_texts|by apply idle_stored]).
  apply H; [done|done|by eapply alike_keeps].
Qed.

Lemma strtok_rest_ok room : forall a save ps a' h,
  strtok_all room a None (lit ",") save = Some (ps, a') -> keeps_up h ->
  rwp (fun r h' => r = (ps, a') /\ alike h h') (strtok_rest room a save) h.
Proof.
  induction room as [|room IH]; intros a save ps a' h E Hk; [done|]. cbn [strtok_all strtok_rest] in *.
  destruct (strtok_r a None (lit ",") save) as [[[[p|] a1] save1]|]; [| |done]; cbn [mbind option_bind] in E;
    cbn [of_opt mbind prog_bind prog_seq].
  - destruct (strtok_all room a1 None (lit ",") save1) as [[ps1 a2]|] eqn:E1; [|done]. cbn [mbind option_bind] in E.
    injection E as <- <-. apply rwp_idle; [done|done|]. intros [] h1 _ Ha Hk1. apply awp_bind.
    eapply awp_mono; [by eapply IH|]. intros r h2 Hk2 [-> Ha2]. apply awp_ret; [done|]. split; [done|by eapply alike_trans].
  - injection E as <- <-. by apply awp_ret.
Qed.

(** Storing what the last text said. *)
Definition due (v : option Z) (h : hist) : Prop := said h = stored h ++ match v with Some v => [v] | None => [] end.

Lemma due_keeps v h : due v h -> keeps_up h.
Proof. intros H. destruct v as [v|]; [right; by exists v|left]. rewrite H. by rewrite app_nil_r. Qed.
Lemma due_alike v h h' : alike h h' -> due v h -> due v h'.
Proof. intros [Ht Hs]. unfold due, said. by rewrite Ht, Hs. Qed.

Lemma store_due v h : v <> NOACK -> due (Some v) h ->
  rwp (fun _ h' => stored h' = said h') (call_ (Store v)) h.
Proof.
  intros Hv Hd. assert (E : stored (Act (Store v) tt :: h) = said (Act (Store v) tt :: h)).
  { simpl. rewrite decide_False by done. unfold said. simpl. symmetry. exact Hd. }
  apply awp_call; [by eapply due_keeps|]. intros [] _. split; [by left|done].
Qed.

Lemma overrun_alike h h' : alike h h' -> overrun h -> overrun h'.
Proof. intros [Ht _] (r & l & E & H). exists r, l. by rewrite Ht. Qed.

(** The answer to [AT+CREG?] in the text [s]. *)
Definition creg_verdict (s : list Z) : verdict :=
  match tokens [44] s with
  | _ :: (c :: _) :: _ => if decide (c = 49 \/ c = 53) then Says REGOK else Silent
  | _ => Wild
  end.

(** What is left to do when the last text has the verdict [v]. *)
Definition owes (v : verdict) (h : hist) : Prop :=
  match v with Says n => due (Some n) h | Silent => due None h | Wild => overrun h end.

Lemma owes_alike v h h' : alike h h' -> owes v h -> owes v h'.
Proof. destruct v; [apply due_alike|apply due_alike|apply overrun_alike]. Qed.

Lemma due_none h : due None h -> stored h = said h.
Proof. intros H. unfold due in H. by rewrite H, app_nil_r. Qed.

Lemma read_creg_ok a s h : c_str a = Some s -> (length s < 200)%nat -> keeps_up h -> owes (creg_verdict s) h ->
  rwp (fun _ h' => stored h' = said h') (read_creg a) h.
Proof.
  intros Ha Hl Hk Ho. pose proof (tokens_nonempty [44] s) as Hne. destruct (c_str_Some _ _ Ha) as [Hnz [junk ->]].
  destruct (strtok_all_spec 200 (lit ",") [44] [] s junk (Some 0) None) as (ps & a' & E & _ & Hge & Hps); [done|done|done|done|].
  change (strtok_all 200 ?x ?y ?d ?z) with
    ('(r, a', save') ← strtok_r x y d z;
     match r with None => Some ([], a') | Some p => '(ps, a'') ← strtok_all 199 a' None d save'; Some (p :: ps, a'') end) in E.
  simpl ([] ++ _) in E. unfold read_creg.
  destruct (strtok_r (s ++ 0 :: junk) (Some 0) (lit ",") None) as [[[[p0|] a1] save1]|] eqn:E0; [| |done].
  - cbn [mbind option_bind of_opt prog_bind prog_seq] in E |- *.
    destruct (strtok_all 199 a1 None (lit ",") save1) as [[ps1 a2]|] eqn:E1; [|done].
    cbn [mbind option_bind] in E. injection E as <- <-. apply awp_bind.
    eapply awp_mono; [by apply (strtok_rest_ok 199 _ _ _ _ _ E1)|]. intros r h1 Hk1 [-> Hal].
    apply (owes_alike _ _ _ Hal) in Ho. unfold creg_verdict in Ho.
    destruct (tokens [44] s) as [|t0 [|t1 ts]]; [done| |]; cbn [fmap list_fmap] in Hps.
    + injection Hps as _ Hps. apply fmap_nil_inv in Hps as ->. by split.
    + injection Hps as _ Hps. destruct ps1 as [|p1 ps1]; [done|]. cbn [list_fmap] in Hps. injection Hps as Hp _.
      apply Forall_cons in Hge as [_ [Hge _]%Forall_cons].
      assert (Hg : aget a2 p1 = Some (default 0 (head t1))).
      { destruct (c_str_Some _ _ Hp) as [_ [tl Htl]]. rewrite <- (Z2Nat.id p1), aget_nat by done.
        rewrite <- (Nat.add_0_r (Z.to_nat p1)), <- lookup_drop, Htl. by destruct t1. }
      rewrite Hg. cbn [of_opt]. destruct t1 as [|c t1]; [by apply Forall_cons in Hne as [_ [? _]%Forall_cons]|]. cbn [head default] in *.
      cbn [mbind prog_bind prog_seq].
      change (id c) with c in *. case_decide; [by apply store_due|]. apply awp_ret; [done|]. by apply due_none.
  - cbn [mbind option_bind] in E. injection E as <- <-.
    destruct (tokens [44] s) eqn:Ht; [|done]. unfold creg_verdict in Ho. rewrite Ht in Ho.
    assert (save1 = None) as ->.
    { revert E0. unfold strtok_r at 1. unfold mbind, option_bind. simpl. intros E0. repeat (case_match || case_decide); simplify_eq/=; done. }
    by split.
Qed.

(** A text that holds [sub] or not. *)
Lemma strstr_contains a s (sub : string) : c_str a = Some s -> Forall (fun c => c <> 0) (bs sub) ->
  exists o, strstr a (lit sub) = Some o /\ match o with Some _ => contains (bs sub) s = true | None => contains (bs sub) s = false end.
Proof.
  intros Ha Hs. unfold lit. rewrite (strstr_spec a (bs sub ++ [0]) s (bs sub)) by (done || by apply c_str_app).
  eexists. split; [done|]. unfold contains. by destruct (find_sub (bs sub) s).
Qed.

Lemma alike_said h h' : alike h h' -> stored h = said h -> stored h' = said h'.
Proof. intros [Ht Hs]. unfold said. by rewrite Ht, Hs. Qed.

Lemma rwp_opt {A B} (o : option B) x (k : B -> prog A) Q h : o = Some x -> rwp Q (k x) h -> rwp Q (of_opt o ≫= k) h.
Proof. by intros ->. Qed.

Lemma turn_ok st h : between_turns (Some st) h -> rwp between_turns (gprs_turn st) h.
Proof.
  intros [Hs Hfd]. unfold gprs_turn. assert (Hk : keeps_up h) by by left.
  rewrite decide_True by (unfold fd_set_ok; lia).
  apply rwp_idle; [done|done|]. intros rfds h1 _ Ha1 Hk1.
  case_decide; [|apply awp_ret; [done|]; split; [by eapply alike_said|done]].
  apply rwp_idle; [done|done|]. intros [] h2 _ Ha2 Hk2.
  pose proof (alike_said _ _ (alike_trans _ _ _ Ha1 Ha2) Hs) as Hs2.
  split; [done|]. intros r Hr. set (h3 := Act (Read st 200) r :: h2).
  assert (Ho : owes (read_says r) h3).
  { unfold owes, due, overrun, said, saying. simpl. rewrite omap_app, Hs2. simpl.
    destruct (read_says r) as [v| |] eqn:E; [done|done|]. by exists r, (texts h2). }
  assert (Hk3 : keeps_up h3).
  { destruct (saying r) as [v|] eqn:E; [right; exists v|left]; unfold said; simpl; rewrite omap_app; simpl; rewrite E, Hs2; [done|by rewrite app_nil_r]. }
  clearbody h3. cbv zeta. apply rwp_idle; [done|done|]. intros [] h4 _ Ha4 Hk4.
  apply (owes_alike _ _ _ Ha4) in Ho. clear Hk3 Ha4 h3. unfold read_says in Ho.
  assert (Hl : (length (fill 200 r) <= 200)%nat).
  { destruct r as [l|]; [|done]. destruct Hr as [Hr _]. unfold fill. rewrite length_app, length_replicate. lia. }
  set (a := fill 200 r) in *. clearbody a. rewrite strlen_spec.
  destruct (c_str a) as [s|] eqn:Ha; [|by split]. eapply rwp_opt; [done|]. pose proof (c_str_length _ _ Ha) as Hls.
  assert (Hend : forall p : prog (), rwp (fun _ h' => stored h' = said h') p h4 -> rwp between_turns (p ≫= fun _ => mret (Some st)) h4).
  { intros p Hp. apply awp_bind. eapply awp_mono; [exact Hp|]. intros [] h5 Hk5 H5. by apply awp_ret. }
  unfold verdict_of in Ho.
  destruct (strstr_contains a s "+CREG:" Ha ltac:(repeat constructor; done)) as (o1 & E1 & H1).
  destruct (strstr_contains a s "CONNECT" Ha ltac:(repeat constructor; done)) as (o2 & E2 & H2).
  destruct (strstr_contains a s "OK" Ha ltac:(repeat constructor; done)) as (o3 & E3 & H3).
  eapply rwp_opt; [exact E1|]. destruct o1; rewrite H1 in Ho; apply Hend; [apply (read_creg_ok a s); [done|lia|done|done]|].
  eapply rwp_opt; [exact E2|]. destruct o2; rewrite H2 in Ho; [by apply store_due|].
  eapply rwp_opt; [exact E3|]. destruct o3; rewrite H3 in Ho; [by apply store_due|].
  apply awp_ret; [done|]. by apply due_none.
Qed.

Lemma master_gprs_ok : rwp between_turns master_gprs [].
Proof.
  split; [by left|]. intros [] _. change (prog_seq ?k ?p) with (p ≫= k). change (mret ?x ≫= ?k) with (k x). cbv beta.
  assert (Hs : stored [Act (Store NOACK) tt] = said [Act (Store NOACK) tt]) by done.
  apply rwp_idle; [done|by left|]. intros fd h Hfd Ha Hk. pose proof (alike_said _ _ Ha Hs) as Hs1. simpl in Hfd.
  case_decide; [by apply awp_ret|]. apply rwp_idle; [done|done|]. intros ? h2 _ Ha2 Hk2.
  apply awp_ret; [done|]. split; [by eapply alike_said|lia].
Qed.

(** ** Both tasks *)

Definition load_of (a : act) : option Z :=
  match a with
  | Act c r => match c in call R return R -> option Z with Load => fun r => Some r | _ => fun _ => None end r
  end.
Definition print_of (a : act) : option (list Z) :=
  match a with Act c _ => match c with Printf t => Some t | _ => None end end.
Definition write_of (a : act) : option (list Z) :=
  match a with Act c _ => match c with Write _ d => Some d | _ => None end end.

Notation mon_acts c := (hist_of Mon (acts c)).
Notation rdr_acts c := (hist_of Rdr (acts c)).

(** The last thing the monitor did was to print [t]. *)
Definition announces (c : lid_conf) (t : list Z) : Prop := mon c = Done 1 /\ head (mon_acts c) ≫= print_of = Some t.

(** The number loaded since the monitor last reset the variable, and the ones it had
    loaded before each reset. *)
Fixpoint eaten (h : hist) : Z * list Z :=
  match h with
  | [] => (NOACK, [])
  | a :: h =>
      match load_of a with
      | Some r => (r, (eaten h).2)
      | None =>
          match store_of a with
          | Some _ => (NOACK, if decide ((eaten h).1 = NOACK) then (eaten h).2 else (eaten h).2 ++ [(eaten h).1])
          | None => eaten h
          end
      end
  end.

Definition plain (a : act) : Prop := load_of a = None /\ store_of a = None.

Lemma eaten_plain w h : Forall plain w -> eaten (w ++ h) = eaten h.
Proof. induction 1 as [|a w [H1 H2] _ IH]; [done|]. simpl. by rewrite H1, H2. Qed.

Lemma writes_plain fd cmds w : writes fd cmds w -> Forall plain w.
Proof.
  intros (rs & _ & ->). apply Forall_rev. revert rs.
  induction cmds as [|c cmds IH]; intros [|r rs]; simpl; constructor; [done|apply IH].
Qed.

Lemma eaten_rounds fd a n hr h : rounds fd a n hr -> (eaten (hr ++ h)).2 = (eaten h).2.
Proof.
  induction 1 as [|n v w hr _ Hw _ IH]; [done|]. simpl.
  rewrite <- (assoc_L app), (eaten_plain w _ (writes_plain _ _ _ Hw)). simpl. exact IH.
Qed.

Lemma eaten_exchange fd a h1 h : a_want a <> NOACK -> exchange fd a SUCCESS h1 -> (eaten h).1 = NOACK ->
  eaten (h1 ++ h) = (NOACK, (eaten h).2 ++ [a_want a]).
Proof.
  intros Ha (n & w & hr & Hw & Hr & [(_ & _ & ->)|(H & _)]) Hh; [|done].
  simpl. rewrite decide_False by done. rewrite <- !(assoc_L app). simpl.
  rewrite (eaten_rounds _ _ _ _ _ Hr), (eaten_plain w _ (writes_plain _ _ _ Hw)). simpl. by rewrite Hh, decide_True.
Qed.

Lemma eaten_dialogue fd l : Forall (fun a => a_want a <> NOACK) l -> forall new h, dialogue fd l SUCCESS new ->
  (eaten h).1 = NOACK -> eaten (new ++ h) = (NOACK, (eaten h).2 ++ (a_want <$> l)).
Proof.
  induction 1 as [|a l Ha _ IH]; intros new h Hd Hh; simpl in Hd.
  - destruct Hd as [_ ->]. rewrite app_nil_r. simpl. rewrite <- Hh. by destruct (eaten h).
  - destruct Hd as [[_ Hd]|(h1 & h2 & Hex & Hd & ->)]; [done|].
    rewrite <- (assoc_L app), (IH h2 (h1 ++ h) Hd); rewrite (eaten_exchange _ _ _ _ Ha Hex Hh); [|done].
    simpl. by rewrite <- (assoc_L app).
Qed.

Definition monitor_acts : nat := 9 + dialogue_cost modem_asks.
Notation good := (both (quiet monitor_acts) (fun _ => False) monitor_did keeps_up overrun between_turns).

Lemma lid_good c : lid_reach c -> good c.
Proof.
  intros H. apply (awp_adequate gprs_turn _ _ _ _ _ _ turn_ok _ _ H). split; simpl.
  - by apply monitor_ok.
  - apply master_gprs_ok.
Qed.

(** What the monitor has loaded was stored by the reader, every number once, in order;
    what it has loaded since its last reset, and the variable, were stored since the
    resets before. *)
Definition traced (c : lid_conf) : Prop :=
  exists s1 s2, stored (rdr_acts c) = s1 ++ s2 /\ (eaten (mon_acts c)).2 `sublist_of` s1 /\
    ack c ∈ NOACK :: s2 /\ (eaten (mon_acts c)).1 ∈ NOACK :: s2.

Lemma lid_traced c : lid_reach c -> traced c.
Proof.
  revert c. apply (rtc_ind_r traced); [exists [], []; simpl; set_solver|]. intros c c' Hr Hs IH.
  assert (Hg' : good c') by (apply lid_good; by eapply rtc_r).
  destruct IH as (s1 & s2 & E & Hsub & Hack & Hv). inversion Hs as [m p q l a m' p' Hp|m p q l a m' q' Hq|m p st l]; subst;
    unfold traced; cbn [acts mon rdr ack] in *; cbn [hist_of].
  - destruct Hg' as [Hm _]. apply awp_inv in Hm as [Hq _]. cbn [acts hist_of] in Hq.
    rewrite decide_True in Hq by done. apply Forall_cons in Hq as [Hst _].
    rewrite (decide_True (P:=Mon = Mon)), (decide_False (P:=Mon = Rdr)) by done.
    destruct p as [x| |R c k]; try done. destruct Hp as (r & _ & Hld & -> & -> & ->).
    destruct c; cbn [eaten load_of store_of stores loads] in *; try (by exists s1, s2).
    + subst r. by exists s1, s2.
    + destruct Hst as [Hst|Hst]; [done|injection Hst as ->]. case_decide as Hz.
      * exists s1, s2. split_and!; [done|done|set_solver|set_solver].
      * exists (s1 ++ s2), []. rewrite app_nil_r. split_and!; [done| |set_solver|set_solver].
        apply sublist_app; [done|]. apply singleton_sublist_l. set_solver.
  - rewrite (decide_True (P:=Rdr = Rdr)), (decide_False (P:=Rdr = Mon)) by done.
    destruct q as [x| |R c k]; try done. destruct Hq as (r & _ & Hld & -> & -> & ->).
    destruct c; cbn [stored store_of stores] in *; try (by exists s1, s2).
    case_decide; [exists s1, s2; split_and!; [done|done|set_solver|done]|].
    exists s1, (s2 ++ [v]). split_and!; [by rewrite E, <- (assoc_L app)|done|set_solver|set_solver].
  - by exists s1, s2.
Qed.

Lemma sublist_omap {A B} (f : A -> option B) (l : list A) (k : list B) : k `sublist_of` omap f l ->
  exists l', l' `sublist_of` l /\ f <$> l' = Some <$> k.
Proof.
  revert k. induction l as [|x l IH]; intros k H; simpl in H.
  - apply sublist_nil_r in H as ->. by exists [].
  - destruct (f x) as [y|] eqn:E.
    + apply sublist_cons_r in H as [H|(k' & -> & H)]; apply IH in H as (l' & Hl & Hf).
      * exists l'. split; [by constructor|done].
      * exists (x :: l'). split; [by constructor|]. by rewrite fmap_cons, E, Hf.
    + apply IH in H as (l' & Hl & Hf). exists l'. split; [by constructor|done].
Qed.

Lemma keeps_up_prefix h : keeps_up h -> stored h `sublist_of` said h.
Proof. intros [->|(v & ->)]; [done|]. by apply sublist_inserts_r. Qed.

Lemma outcome_text_inj ret : ret = SUCCESS \/ ret = FAIL -> outcome_text ret = bs "GPRS OK" ++ [10] -> ret = SUCCESS.
Proof. by intros [-> | ->]. Qed.

(** ** Theorems *)

(** C22: whichever way the two tasks of the lock controller interleave, when the monitor
    announces that the modem is up, the reader has read eight different texts of the
    modem, in this order: one that reports registration, six with an OK, and one with
    CONNECT. *)
Theorem handshake_sound c : lid_reach c -> announces c (bs "GPRS OK" ++ [10]) ->
  exists l, l `sublist_of` texts (rdr_acts c) /\
    read_says <$> l = Says <$> [REGOK; ACK; ACK; ACK; ACK; ACK; ACK; CONNECT].
Proof.
  intros Hr [Hmon Hp]. destruct (lid_good c Hr) as [Hm Hk%awp_inv%keeps_up_prefix]. rewrite Hmon in Hm.
  destruct Hm as [_ [_ (fd & w & ret & new & Hd & E)]]. rewrite E in Hp. simpl in Hp. injection Hp as Hp.
  apply outcome_text_inj in Hp as ->; [|by eapply dialogue_ret].
  destruct (lid_traced c Hr) as (s1 & s2 & Hs & Hsub & _). rewrite E in Hsub. cbn [eaten load_of store_of] in Hsub.
  rewrite (eaten_dialogue fd modem_asks) in Hsub by (done || by repeat constructor).
  assert (Hall : [REGOK; ACK; ACK; ACK; ACK; ACK; ACK; CONNECT] `sublist_of` said (rdr_acts c)).
  { etrans; [exact Hsub|]. etrans; [|exact Hk]. rewrite Hs. by apply sublist_inserts_r. }
  apply sublist_omap in Hall as (l & Hl & Hf). exists l. split; [done|].
  clear -Hf. revert Hf. generalize [REGOK; ACK; ACK; ACK; ACK; ACK; ACK; CONNECT] as k.
  induction l as [|r l IH]; intros [|v k] Hf; simpl in *; try done. injection Hf as Hv Hf.
  unfold saying in Hv. destruct (read_says r); [injection Hv as ->|done..]. f_equal. by apply IH.
Qed.

(** C23: in every interleaving, the monitor makes at most 500 calls, can always make the
    next one until it ends, and when it ends it has powered the modem up and gone
    through the dialogue of the eight commands: each repeated, with its pause, until
    the variable held the answer waited for, given up after twelve rounds (62 for the
    registration, 32 seconds for the connection), nothing sent behind a failure, and
    the outcome printed. *)
Theorem handshake_terminates c : lid_reach c ->
  (length (mon_acts c) <= 500)%nat /\
  ((exists c' a, step gprs_turn c c' /\ mon_acts c' = a :: mon_acts c) \/
   (mon c = Done 1 /\ exists fd w ret new, dialogue fd modem_asks ret new /\
     mon_acts c = Act (Printf (outcome_text ret)) tt :: new ++ power_on fd w ++ [Act (Open CONFIG_EXAMPLES_GPRS_DEVPATH) fd])).
Proof.
  intros Hr. destruct (lid_good c Hr) as [Hm _]. split; [apply awp_inv in Hm as [_ Hm]; exact Hm|].
  destruct c as [m p q l]. cbn [mon acts] in *. destruct p as [r| |R call k].
  - right. destruct Hm as [_ [-> Hd]]. split; [done|exact Hd].
  - by destruct Hm.
  - left. assert (exists r, legal call r /\ loads call m r) as (r & Hl & Hld).
    { destruct call; [exists m|exists tt|exists (-1)|exists 0|exists None|exists []|exists tt..]; simpl; split; (done || set_solver). }
    eexists _, (Act call r). split; [apply step_mon; by exists r|]. done.
Qed.

(** C24: in every interleaving the reader keeps up with the modem: the numbers it has
    stored are what the texts it read said, in order, but perhaps for the last text;
    and nothing but a text without room for its NUL, or an answer to [AT+CREG?]
    without a second field, makes it touch memory that is not there. *)
Theorem reader_reports c : lid_reach c ->
  (stored (rdr_acts c) = said (rdr_acts c) \/ exists v, said (rdr_acts c) = stored (rdr_acts c) ++ [v]) /\
  (rdr c = Crash -> exists r l, texts (rdr_acts c) = l ++ [r] /\ read_says r = Wild).
Proof.
  intros Hr. destruct (lid_good c Hr) as [_ Hk]. split; [exact (awp_inv _ _ _ _ _ Hk)|].
  intros E. rewrite E in Hk. exact (proj2 Hk).
Qed.

(** ** Runs *)

(** The answers of the calls in a run: descriptor 3, and the text of a read. *)
Definition with_text (t : list Z) : oracle := mkOracle 3 (Some t) true.
Definition mons (n : nat) : list (tid * oracle) := replicate n (Mon, with_text []).

(** A round of the reader that reads [t], of [n] calls. *)
Definition hears (n : nat) (t : list Z) : list (tid * oracle) := replicate (S n) (Rdr, with_text t).
Definition says_ok : list (tid * oracle) := hears 5 (crlf "OK").
Definition says_connect : list (tid * oracle) := hears 5 (crlf "CONNECT").
Definition says_registered : list (tid * oracle) := hears 6 (crlf "+CREG: 0,1").

(** A command sent once and answered in time. *)
Definition answered_by (a : list (tid * oracle)) : list (tid * oracle) := mons 4 ++ a ++ mons 2.

(** Up to the registration. *)
Definition run_up : list (tid * oracle) := replicate 3 (Rdr, with_text []) ++ mons 8 ++ answered_by says_registered.

Definition good_run : list (tid * oracle) :=
  run_up ++ answered_by says_ok ++ answered_by says_ok ++ answered_by says_ok ++ answered_by says_ok ++
  answered_by says_ok ++ answered_by says_ok ++ answered_by says_connect ++ mons 1.

(** The first OK comes late: the command has been sent twice, and is answered twice. *)
Definition late_run : list (tid * oracle) :=
  run_up ++ mons 7 ++ says_ok ++ mons 3 ++ says_ok ++ mons 2 ++ answered_by says_ok ++ answered_by says_ok ++
  answered_by says_ok ++ answered_by says_ok ++ answered_by says_connect ++ mons 1.

Definition done_of {A} (p : prog A) : option A := match p with Done a => Some a | _ => None end.
Definition crashed {A} (p : prog A) : bool := match p with Crash => true | _ => false end.

(** How a run ends: the result of the monitor, its last message, its commands. *)
Definition run_ends (ms : list (tid * oracle)) : option (Z * list Z * list (list Z)) :=
  c ← play gprs_turn ms lid_start; r ← done_of (mon c); t ← head (mon_acts c) ≫= print_of;
  Some (r, t, omap write_of (mon_acts c)).

Lemma run_announces ms t w : run_ends ms = Some (1, t, w) ->
  exists c, lid_reach c /\ announces c t /\ omap write_of (mon_acts c) = w.
Proof.
  unfold run_ends. destruct (play gprs_turn ms lid_start) as [c|] eqn:E; [|done]. cbn [mbind option_bind].
  destruct (mon c) as [r| |] eqn:Em; [|done..]. cbn [done_of mbind option_bind].
  destruct (head (mon_acts c) ≫= print_of) as [t'|] eqn:Ep; [|done]. intros [= -> <- <-].
  exists c. split; [by eapply play_reach|]. by split.
Qed.

(** An answer that comes late is taken for the answer to the next command: there is
    a run in which a command is repeated because its OK takes longer than the pause,
    the second OK ends the step behind it before its command is written, and the
    monitor announces success although it never sent the command that sets the access
    point. *)
Theorem late_answer_skips_command : exists c, lid_reach c /\ announces c (bs "GPRS OK" ++ [10]) /\
  ~ crlf "AT^SICS=0,apn,cment" ∈ omap write_of (mon_acts c).
Proof.
  destruct (run_announces late_run (bs "GPRS OK" ++ [10]) (default [] (snd <$> run_ends late_run))) as (c & Hr & Ha & Hw);
    [by vm_compute|].
  exists c. split; [done|]. split; [done|]. rewrite Hw. by apply (bool_decide_unpack (~ _ ∈ _)); vm_compute.
Qed.

(** A registration report that carries the state alone, as a modem sends it unasked,
    makes the reader follow the null pointer of the missing second field. *)
Lemma short_creg_crashes : exists c, lid_reach c /\ rdr c = Crash /\
  texts (rdr_acts c) = [Some (crlf "+CREG: 1")].
Proof.
  set (ms := replicate 3 (Rdr, with_text []) ++ hears 4 (crlf "+CREG: 1")).
  assert (exists c, play gprs_turn ms lid_start = Some c /\ crashed (rdr c) = true /\
    texts (rdr_acts c) = [Some (crlf "+CREG: 1")]) as (c & Hc & Hcr & Ht).
  { eexists. split; [by vm_compute|]. split; by vm_compute. }
  exists c. split; [by eapply play_reach|]. split; [by destruct (rdr c)|done].
Qed.

(** ** Witnesses *)

Lemma good_run_ends : exists c, lid_reach c /\ announces c (bs "GPRS OK" ++ [10]).
Proof.
  destruct (run_announces good_run (bs "GPRS OK" ++ [10]) (default [] (snd <$> run_ends good_run))) as (c & Hr & Ha & _);
    [by vm_compute|eauto].
Qed.

Lemma handshake_sound_witness : exists c, lid_reach c /\ announces c (bs "GPRS OK" ++ [10]) /\
  exists l, l `sublist_of` texts (rdr_acts c) /\
    read_says <$> l = Says <$> [REGOK; ACK; ACK; ACK; ACK; ACK; ACK; CONNECT].
Proof.
  destruct good_run_ends as (c & Hr & Ha). exists c. split; [done|]. split; [done|]. by apply (handshake_sound c).
Defined.

Lemma handshake_terminates_witness : exists c, lid_reach c /\ announces c (bs "GPRS OK" ++ [10]) /\ (length (mon_acts c) <= 500)%nat.
Proof.
  destruct good_run_ends as (c & Hr & Ha). exists c. split; [done|]. split; [done|]. by apply (handshake_terminates c).
Defined.

Lemma reader_reports_witness : exists c, lid_reach c /\ rdr c = Crash /\
  exists r l, texts (rdr_acts c) = l ++ [r] /\ read_says r = Wild.
Proof.
  destruct short_creg_crashes as (c & Hr & Hc & _). exists c. split; [done|]. split; [done|]. by apply (reader_reports c).
Defined.
